(* ===== verification/_CoqProject ===== *)
-Q . S2P
Prelude.v
PyStr.v
PyData.v
Posix.v
Regex.v
Programs.v
Sha256.v
BundlePolicy.v
BundleServer.v
BundlePacker.v
ServerFiles.v
ServerTransport.v
PackerFiles.v
Registry.v
RegistryStore.v
Json.v
Gpt.v
Inventory.v
BackupPlan.v
BackupRehearsal.v
BackupRun.v
DeviceTree.v
DtbFormat.v
DisplayDelta.v
DtbFile.v
PersistentRoot.v
PersistentArchive.v
CpuCap.v
CpuSysfs.v
CpuPolicy.v
Healthd.v
PowerButton.v
PonHistory.v
RamClaim.v
RamSeal.v
RamTrial.v
ModuleClosure.v
Diagnostics.v
DraftPolicy.v
Newc.v
Compose.v
Selector.v
TrialInitramfs.v
BundleMaker.v
TestTier.v
TestReport.v
