(* ===== verification/Prelude.v ===== *)
(** * Verification library for the host and device tools of the ROG Phone 5 Linux port

    ** The program

    The repository ports Linux to the ASUS ROG Phone 5.  Its Python tools make,
    serve and check what the phone boots.  The parts modelled here, by their
    files under src/:

    - [tools/recovery_control/host_bundle_server.py] serves one signed recovery
      bundle to one phone over a USB network link;
    - [scripts/host/prepare-recovery-runtime-bundle.py] packs and signs such a
      bundle and publishes it with one rename;
    - [scripts/host/rog5-bundle-registry.py] records which kernels, device
      trees and bundles exist and which are installed;
    - [scripts/host/rog5-make-bundle.py] plans a bundle from a kernel build, a
      device tree and pinned inputs, and checks what goes into it;
    - [scripts/device/collect-readonly-storage-inventory.py] describes the
      phone's disks, [scripts/host/backup-readonly-storage-inventory.py] saves
      them over SSH and [scripts/host/verify-readonly-storage-backup.py] checks
      a saved copy and rehearses its restoration;
    - [scripts/device/verify-recovery-dtb-delta.py] and
      [scripts/device/verify-display-60hz-dtb-delta.py] accept a device tree
      only if it differs from its base by the reviewed delta;
    - [scripts/host/persistent-root-tool.py] checks the archive of a root file
      system, seals the tree made from it and verifies the seal;
    - [scripts/device/cpu-frequency-cap.py] lowers the CPU frequency limits for
      an experiment or a lease and puts them back, and
      [scripts/device/headless-cpu-policy.py] applies the cap at boot;
    - [scripts/device/rog5-healthd.py] answers health queries on a socket, and
      [scripts/device/power-buttond.py] runs the screen toggle once for each press
      of the power button;
    - [scripts/device/build-native-wifi-boot-initramfs.py] composes the cpio
      archive of the initramfs from a qualified base, the radio package and the
      repository's files, [scripts/device/build-native-wifi-persistent-trial-initramfs.py]
      gives it the identity of a trial, [scripts/host/build-persistent-wifi-selector.py]
      writes the selector of the phone's boot, and
      [scripts/host/install-default-kernel.py] reads selector, descriptor and
      ramdisk back before it installs them;
    - [scripts/host/production-ram-trial.py] boots a packaged wrapper from RAM,
      once for each hash, and watches the phone come up;
    - [scripts/host/check-production-build-diagnostics.py] checks the logs and
      the installed modules of a kernel build against a reviewed policy, and
      [scripts/host/draft-warning-policy.py] drafts that policy for a new base;
    - [scripts/host/select-repository-test-tier.py] chooses the tests a change
      needs and [scripts/host/repository-test-report.py] runs them and judges
      the outcome;
    - [tools/pmic_pon_reader/decode.py] decodes the power-on history.

    The packer's manifest is what the server parses; the inventory document is
    what the backup plans from; the backup's files and the inventory are what
    the verifier rehearses with; the display check loads the parser of the
    recovery check; the boot policy runs the cap's transaction; the installer
    reads the selector the builder writes.  These meetings are theorems here,
    over shared definitions.

    ** The library

    - [Prelude], this file: Python values (a [str] or [bytes] is a list of
      8-bit characters), exceptions and the error monad [res], the state monad
      [M] with [finally], [catch] and bounded loops [while], weakest
      preconditions [wp], preservation, and the tactics [bind_inv], [guard_inv],
      [b2p].
    - [PyStr]: the string and bytes methods the tools call, decimal and hex
      integers, fixed-width big- and little-endian integers, slices, [sorted],
      [repr].  [PyData]: dicts in insertion order and relative paths.  [Regex]:
      [re.fullmatch] by derivatives, proved against the language of an
      expression.  [Sha256]: the hash, computed.  [Programs]: programs as trees
      of calls, with their runs and weakest preconditions, for code that is
      interleaved with other processes or interrupted by a crash.  [Json]: what
      [json.loads] returns.  [Posix]: descriptors, inodes, directories, locks
      and renames, with other processes acting between any two calls and any
      call failing; interference is a function in the world, not a parameter
      of each theorem.
    - [BundlePolicy]: the recovery-bundle contract as a specification of its
      own.  [BundleServer] (records and manifest), [ServerFiles] (opening the
      sealed bundle) and [ServerTransport] (the framed TCP exchange) model the
      server; [BundlePacker] (configuration and manifest) and [PackerFiles]
      (the publication) model the packer.
    - [Registry]: names, requirement chains, the changes and the generated
      document of the bundle registry.  [RegistryStore]: its locked file and
      its commands, run by several processes at once.
    - [Gpt] and [Inventory] model the inventory collector; [BackupPlan],
      [BackupRun] and [BackupRehearsal] the backup, its resumption and the two
      verifiers.  [BackupRun] states what saving the GPT ranges and saving the
      partitions share as a class, [Saved_kind], with one instance each.
    - [DeviceTree] and [DisplayDelta]: the flattened-device-tree parser and the
      two comparisons.  [DtbFormat]: a writer of the format, as a reference for
      the parser.  [DtbFile]: reading the blobs from paths, and the two
      programs.
    - [PersistentRoot] and [PersistentArchive]: sealing and archive checks.
    - [CpuCap]: the cap transaction over laws of the cpufreq interface.
      [CpuSysfs]: the sysfs files behind that interface, as an instance of the
      laws.  [CpuPolicy]: the boot policy and the lease.
    - [Healthd]: the accepting thread, the request threads and the deadline
      timers of the health server as one step function, and its replies.
      [PowerButton]: the search for the input device, its records, the monitor
      and the retry loop.
    - [Newc]: the cpio archive, written and read.  [Compose]: the composition
      of the initramfs.  [Selector]: the boot
      selector and the installer's parts.  [TrialInitramfs]: the archive of a
      trial and of its successor.  [BundleMaker]: the plan of a bundle
      and the checks of its parts, over the registry.
    - [RamClaim]: the one-use claim of a RAM trial over a disk whose changes
      become durable with [fsync].  [RamSeal]: the sealed copy of the wrapper.
      [RamTrial]: the state of the port, the bootloader's identity, the
      early-record receiver, the observation and the commands.
    - [ModuleClosure] and [Diagnostics]: the installed modules of a build and
      the messages of its logs.  [DraftPolicy]: the policy for them.
    - [TestTier]: the choice of tests.  [TestReport]: the run, its
      interruptions and the verdict.
    - [PonHistory]: the decoder against a model of the ring it reads.

    A definition has the name of the function it translates where Rocq allows
    it; a step of a loop or a block of a long function that has its own
    definition is named after what it does.  Guards keep the order and the
    messages of the code.

    ** What the theorems show

    - The manifest's bytes are accepted exactly when they spell the fields of
      the contract in order, each line closed by a line end and each value
      allowed; the profiles and the line ends are the code's, which has one
      profile and five line ends more than docs/recovery-bundle-contract.md.
      The server accepts a bundle directory exactly when it holds one sealed
      bundle of the requested name and hash, and leaks no descriptor; it sends
      nothing to a peer that did not send exactly the matching request, and
      every loop ends by its deadline.
    - Every configuration the packer accepts gives a manifest the server
      accepts, with the one exception stated in the theorem; a run that refuses
      before its rename leaves the published entry as it was.
    - The registry's changes keep it valid; requirement chains end; names, id
      runs and the generated table lose nothing.
    - A backup that ends normally is accepted by both verifiers, one that fails
      loses no row, though its last row may be torn, a resume accepts exactly a
      true prefix, plans cover exactly the reviewed
      partitions and ranges, and restoring the ranges gives the table back.
    - A device tree is accepted exactly when it is the base with the reviewed
      delta; the parser ends on every input and returns a tree.
    - The seal of a tree does not depend on listing order or read sizes and
      determines the sealed entries up to a collision of SHA-256 on two named
      streams; an archive is accepted exactly when its members are allowed,
      distinct and name places inside the root.
    - The CPU limits are back after an experiment, or the run says that they
      are not, wherever an exception strikes; the sysfs files obey the laws that
      theorem assumes; a lease ends with the limits back or with a report,
      and the boot policy leaves the cap, the original limits or a report.
    - Registry commands of several processes have the effect of the same
      commands one after the other.
    - A blob the reference writer makes is parsed to the tree it was made from.
    - The health server never holds more clients than its slots, closes each
      request once, and drains in bounded time whatever its peers do.
      The power service runs the toggle exactly once for each press it reads
      from the right device, and answers every failing file and toggle with a
      message, a pause and another attempt.
    - What the archive builder writes it reads back, its reader ends on every
      input, and [add] keeps the archive a tree and makes exactly the missing
      parents, with inode numbers of their own; a composed initramfs keeps
      every base member it does not name as refreshed, lists the hash of every
      Wi-Fi file and has the radio files that were recorded; the archive of a
      successor has an identity of its own and the pinned helper; a generated selector reads back
      as the trial it was made for; the installer's own archive reader need not
      end.
    - No wrapper is given to the phone twice by any number of trial processes,
      wherever they fail or die and whenever the host crashes, once the
      directories above the claim directory are on the disk; one that is there
      but was never synced stays so whatever trials run, and a crash may take it
      away with the claims.  The snapshot that is booted has the pinned
      content whatever becomes of the file it was copied from.  The observation
      ends, its record agrees with what it saw and its log stream is put down,
      and a trial reverts the host's network after whatever failure, also
      half-way through its setup.
    - A planned bundle has a fresh name of the scheme, pinned files, an Image,
      a configuration and a device tree of the recorded hashes and a kernel that
      meets that tree, and can be registered; a module
      package is verified exactly when it is what its kernel build recorded.
    - The installed modules of a build pass exactly when they can be loaded in
      some order with everything they declare; a message of a build log is
      allowed only on the ground of an unchanged pin of the policy and never
      beyond its count, and a build passes exactly when all that is recorded
      of it still holds.  A drafted policy lets its own build pass, keeps what
      is unchanged and pins the rest only outside the series.
    - The full tier of tests is left only for changes that are all prose, and a
      development decision names exactly the tests of the changed leaves; a run
      of a test ends, and the summary is a success exactly when the last run of
      every selected test was.

    ** Bounds and fuel

    A loop whose end is not structural carries fuel or runs under [while p]
    with at most [p] rounds and raises [OutOfFuel] at the bound, a class no
    code catches.  Each bound is shown never to be met: the GPT, device-tree and
    reservation loops by the length of the data, requirement chains by the
    number of entries, transport loops by payload length and by deadlines, the
    wait for the kernel by its deadline in nanoseconds, reading a file by its
    length, reading an archive by the length of its bytes ([entries_rounds]), a test
    by its deadline ([execute_rounds]), the observation by its duration
    ([observe_rounds], [wait_rounds]), the receiver of early records by their
    limit.  The lease and the settling wait get
    2^40 and 2^31 rounds ([LEASE_ROUNDS], [SETTLE_ROUNDS]); the theorems show
    that their deadlines end them first.  The loop of [newc_member] and the two
    of the power service have no bound in the code: their number of rounds is
    an argument and the theorems are for every value of it; so are the rounds of
    the receiver and of the copy of the wrapper, whose file may grow.  Machine integers
    are [Z] with the width written out where the code has one ([struct] fields,
    CRC-32, SHA-256 words); Python's own integers are unbounded.

    ** Not modelled

    Command-line parsing and printing; strings with code points above 255;
    recipe decoding of the packer; the registry's [check] command, which reads
    device trees through the same comparisons; the
    files that the [main] of the two initramfs builders reads and writes, the commands a
    bundle is built with ([build_bundle], [snapshot]) and the installer's
    [main], which drives a phone over SSH; the XML form of the test report; the reading of HTTP
    headers, which is the standard library's, and its interim 100 Continue (its
    error pages are replies of the model); the comments at the top of the two
    registry files, which nothing changes.  Path resolution is a
    parameter of the file models.  The C and shell programs of the phone
    (loader, initramfs, selector), kernel patches, device-tree sources,
    configuration and test files are not Python tools and are left out, as are
    the benchmark scripts that only drive a phone over SSH.  OpenSSL, tarfile,
    SSH and the phone's answers are parameters of the definitions that use
    them. *)

From stdpp Require Export base tactics list option numbers gmap sets strings.
From Stdlib Require Export ZArith Lia Ascii.
From Stdlib Require String.

#[global] Open Scope Z_scope.
#[global] Set Default Proof Using "Type".

(** ** Python values

    [pystr] is a Python [str] whose code points are below 256 and [bytes] a
    Python [bytes]; both are lists of 8-bit characters, so [decode("ascii")]
    is a check and not a change of representation. *)
Abbreviation pystr := (list ascii).
Abbreviation bytes := (list ascii).

(** String literals stand for their list of characters. *)
Coercion String.list_ascii_of_string : String.string >-> list.
#[global] Arguments String.list_ascii_of_string : simpl never.

(** Python's [==] and [!=] on values with decidable equality. *)
Notation "x == y" := (bool_decide (x = y)) (at level 70) : stdpp_scope.
Notation "x != y" := (negb (bool_decide (x = y))) (at level 70) : stdpp_scope.

Definition ord (c : ascii) : Z := Z.of_N (N_of_ascii c).
Definition chr (z : Z) : ascii := ascii_of_N (Z.to_N z).
Definition len {A} (l : list A) : Z := Z.of_nat (length l).

(** ** Exceptions and the error monad *)
Inductive exn_class :=
  | ServerRefusal | BundleError | ValueError | KeyError | OSError
  | FileExistsError | FileNotFoundError | TimeoutError | InterruptedError
  | InventoryError | BackupError | ContractError | RuntimeError | IndexError
  | TypeError | UnicodeError | OverflowError | StructError | SubprocessError | AttributeError | AssertionError
  | OutOfFuel. (* the model's own: a loop that did not end within its bound *)
#[export] Instance exn_class_eq_dec : EqDecision exn_class.
Proof. solve_decision. Defined.

(** What an [except OSError] clause catches. *)
Definition is_oserror (c : exn_class) : bool :=
  match c with OSError | FileExistsError | FileNotFoundError | TimeoutError | InterruptedError => true | _ => false end.

Record exn := Exn { exn_cls : exn_class; exn_msg : pystr }.

Inductive res (A : Type) : Type :=
  | Ok (a : A)
  | Raise (e : exn).
Arguments Ok {A} a.
Arguments Raise {A} e.

Definition res_bind {A B} (f : A → res B) (m : res A) : res B :=
  match m with Ok a => f a | Raise e => Raise e end.

#[export] Instance res_mret : MRet res := @Ok.
#[export] Instance res_mbind : MBind res := @res_bind.
#[export] Instance res_fmap : FMap res := λ A B f m,
  match m with Ok a => Ok (f a) | Raise e => Raise e end.

(** [if bad: raise cls(msg)] *)
Definition refuse_if (bad : bool) (c : exn_class) (msg : pystr) : res unit :=
  if bad then Raise (Exn c msg) else Ok ().

(** [need(ok, why)] / [require(ok, why)]: the [ValueError] guard the host
    tools share. *)
Definition need (ok : bool) (why : pystr) : res unit :=
  if ok then Ok () else Raise (Exn ValueError why).

Definition of_option {A} (o : option A) (c : exn_class) (msg : pystr) : res A :=
  match o with Some a => Ok a | None => Raise (Exn c msg) end.

Definition is_ok {A} (m : res A) : bool :=
  match m with Ok _ => true | Raise _ => false end.

(** [for x in l: f(x)], stopping at the first exception. *)
Fixpoint for_each {A} (f : A → res unit) (l : list A) : res unit :=
  match l with
  | [] => Ok ()
  | x :: l => f x ;; for_each f l
  end.

(** The accumulating loop: [acc = f(acc, x)] for every [x]. *)
Fixpoint fold_res {A B} (f : B → A → res B) (acc : B) (l : list A) : res B :=
  match l with
  | [] => Ok acc
  | x :: l => acc ← f acc x; fold_res f acc l
  end.

(** ** Stateful code
    [M T A] is code that reads and writes a state [T] and may raise. *)
Definition M (T A : Type) : Type := T → res A * T.
#[export] Instance M_mret {T} : MRet (M T) := λ A a t, (Ok a, t).
#[export] Instance M_mbind {T} : MBind (M T) := λ A B f m t,
  match m t with
  | (Ok a, t') => f a t'
  | (Raise e, t') => (Raise e, t')
  end.

Definition lift {T A} (r : res A) : M T A := λ t, (r, t).
Definition raise {T A} (c : exn_class) (msg : pystr) : M T A := lift (Raise (Exn c msg)).
Definition check {T} (bad : bool) (c : exn_class) (msg : pystr) : M T unit := lift (refuse_if bad c msg).
Definition pass {T} : M T unit := λ t, (Ok (), t).

(** [try: m  except cs: h] for the classes [cs] accepts. *)
Definition catch {T A} (m : M T A) (cs : exn_class → bool) (h : exn → M T A) : M T A := λ t,
  match m t with
  | (Raise e, t') => if cs (exn_cls e) then h e t' else (Raise e, t')
  | r => r
  end.

(** [try: m  finally: f]: an exception of [f] replaces the outcome of [m]. *)
Definition finally {T A} (m : M T A) (f : M T unit) : M T A := λ t,
  let '(r, t1) := m t in
  match f t1 with
  | (Ok _, t2) => (r, t2)
  | (Raise e, t2) => (Raise e, t2)
  end.

(** [try: m  except BaseException: f; raise]. *)
Definition on_error {T A} (m : M T A) (f : M T unit) : M T A :=
  catch m (λ _, true) (λ e t, match f t with (Ok _, t') => (Raise e, t') | (Raise e', t') => (Raise e', t') end).

(** [try: m  except OSError: raise c(msg)]. *)
Definition os_or {T A} (m : M T A) (c : exn_class) (msg : pystr) : M T A :=
  catch m is_oserror (λ _, raise c msg).

(** [for x in l: f(x)]. *)
Fixpoint each {T A} (f : A → M T unit) (l : list A) : M T unit :=
  match l with [] => pass | x :: l => λ t,
    match f x t with (Ok _, t') => each f l t' | (Raise e, t') => (Raise e, t') end end.

(** [acc = f(acc, x)] for every [x] of [l]. *)
Fixpoint fold_m {T A B} (f : B → A → M T B) (acc : B) (l : list A) : M T B :=
  match l with [] => λ t, (Ok acc, t) | x :: l => λ t,
    match f acc x t with (Ok acc', t') => fold_m f acc' l t' | (Raise e, t') => (Raise e, t') end end.

(** [while True:] with at most [p] rounds.  A round gives the loop's next
    variables or its result; the number of rounds is a binary number, so that
    a large bound costs nothing to a loop that ends early. *)
Fixpoint rounds {T S A} (p : positive) (step : S → M T (S + A)) (s : S) : M T (S + A) :=
  match p with
  | xH => step s
  | xO p => r ← rounds p step s;
      match r with inr a => mret (inr a) | inl s' => rounds p step s' end
  | xI p => r ← step s;
      match r with
      | inr a => mret (inr a)
      | inl s' => r ← rounds p step s';
          match r with inr a => mret (inr a) | inl s'' => rounds p step s'' end
      end
  end.

Definition while {T S A} (p : positive) (step : S → M T (S + A)) (s : S) : M T A :=
  r ← rounds p step s;
  match r with inr a => mret a | inl _ => raise OutOfFuel "" end.

(** ** Lemmas on the error monad *)
Lemma bind_Ok {A B} (m : res A) (f : A → res B) b :
  (m ≫= f) = Ok b ↔ ∃ a, m = Ok a ∧ f a = Ok b.
Proof. destruct m; simpl; naive_solver. Qed.

Lemma bind_Raise {A B} (m : res A) (f : A → res B) e :
  (m ≫= f) = Raise e ↔ m = Raise e ∨ ∃ a, m = Ok a ∧ f a = Raise e.
Proof. destruct m; simpl; naive_solver. Qed.

Lemma refuse_if_Ok bad c msg u : refuse_if bad c msg = Ok u ↔ bad = false.
Proof. destruct bad, u; naive_solver. Qed.

Lemma need_Ok ok why u : need ok why = Ok u ↔ ok = true.
Proof. destruct ok, u; naive_solver. Qed.

Lemma of_option_Ok {A} (o : option A) c msg a : of_option o c msg = Ok a ↔ o = Some a.
Proof. destruct o; naive_solver. Qed.

Lemma is_ok_true {A} (m : res A) : is_ok m = true ↔ ∃ a, m = Ok a.
Proof. destruct m; naive_solver. Qed.

Lemma for_each_Ok {A} (f : A → res unit) l u :
  for_each f l = Ok u ↔ Forall (λ x, f x = Ok ()) l.
Proof.
  destruct u. induction l as [|x l IH]; simpl.
  - split; [constructor | done].
  - rewrite bind_Ok, Forall_cons, <-IH. split; [intros ([] & ? & ?); done | intros []; eauto].
Qed.

Lemma for_each_Raise {A} (f : A → res unit) l e :
  for_each f l = Raise e → ∃ x, x ∈ l ∧ f x = Raise e.
Proof.
  induction l as [|x l IH]; [done |]. simpl. rewrite bind_Raise.
  intros [?|(? & ? & ?)]; [| destruct IH as (y & ? & ?); [done |]];
    eexists; split; eauto; by constructor.
Qed.

Lemma fold_res_app {A B} (f : B → A → res B) acc l1 l2 :
  fold_res f acc (l1 ++ l2) = (fold_res f acc l1 ≫= λ a, fold_res f a l2).
Proof.
  revert acc. induction l1 as [|x l1 IH]; intros acc; [done |].
  simpl. destruct (f acc x); simpl; auto.
Qed.

(** Invariant of an accumulating loop, by induction on the items left. *)
Lemma fold_res_ind {A B} (P : list A → B → Prop) (f : B → A → res B) l acc r :
  P [] acc →
  (∀ done x acc acc', P done acc → x ∈ l → f acc x = Ok acc' → P (done ++ [x]) acc') →
  fold_res f acc l = Ok r → P l r.
Proof.
  intros H0 Hstep. assert (∀ l1 l2 a, l = l1 ++ l2 → P l1 a → fold_res f a l2 = Ok r → P l r) as Hg.
  { intros l1 l2. revert l1. induction l2 as [|x l2 IH]; intros l1 a Hl HP; simpl.
    - intros [= ->]. rewrite app_nil_r in Hl. by subst.
    - rewrite bind_Ok. intros (a' & Hf & Hr). eapply (IH (l1 ++ [x])); [| | done].
      + by rewrite <-app_assoc.
      + eapply Hstep; eauto. rewrite Hl. set_solver. }
  apply (Hg []); auto.
Qed.

(** ** Filters *)
Lemma filter_none {A} (P : A → Prop) `{!∀ x, Decision (P x)} l : filter P l = [] ↔ ∀ x, x ∈ l → ¬ P x.
Proof.
  split.
  - intros E x Hx Hp. assert (x ∈ filter P l) as Hf by (by apply list_elem_of_filter). rewrite E in Hf. by apply not_elem_of_nil in Hf.
  - intros Hn. destruct (filter P l) as [|x l'] eqn:E; [done |]. exfalso.
    assert (x ∈ filter P l) as Hf by (rewrite E; by left). apply list_elem_of_filter in Hf as [? ?]. by apply (Hn x).
Qed.

(** ** Weakest preconditions of stateful code *)
Definition wp {T A} (m : M T A) (Q : res A → T → Prop) (t : T) : Prop := Q (m t).1 (m t).2.

Lemma wp_mono {T A} (m : M T A) (Q R : res A → T → Prop) t :
  wp m Q t → (∀ r t', Q r t' → R r t') → wp m R t.
Proof. unfold wp. auto. Qed.

Lemma wp_bind {T A B} (m : M T A) (f : A → M T B) Q t :
  wp m (λ r t', match r with Ok a => wp (f a) Q t' | Raise e => Q (Raise e) t' end) t →
  wp (m ≫= f) Q t.
Proof. unfold wp, mbind, M_mbind. by destruct (m t) as [[]]. Qed.

Lemma wp_lift {T A} (r : res A) Q (t : T) : Q r t → wp (lift r) Q t.
Proof. done. Qed.
Lemma wp_mret {T A} (a : A) (Q : res A → T → Prop) (t : T) : Q (Ok a) t → wp (mret a) Q t.
Proof. done. Qed.
Lemma wp_check {T} bad c msg Q (t : T) :
  (bad = true → Q (Raise (Exn c msg)) t) → (bad = false → Q (Ok ()) t) → wp (check bad c msg) Q t.
Proof. unfold wp. destruct bad; simpl; auto. Qed.

Lemma wp_catch {T A} (m : M T A) (cs : exn_class → bool) (h : exn → M T A) (Q : res A → T → Prop) t :
  wp m (λ r t', match r with
                | Raise e => if cs (exn_cls e) then wp (h e) Q t' else Q (Raise e) t'
                | Ok a => Q (Ok a) t' end) t →
  wp (catch m cs h) Q t.
Proof. unfold wp, catch. destruct (m t) as [[]]; simpl; [done |]. by destruct (cs _). Qed.

Lemma wp_os_or {T A} (m : M T A) c msg (Q : res A → T → Prop) t :
  wp m (λ r t', match r with
                | Raise e => Q (Raise (if is_oserror (exn_cls e) then Exn c msg else e)) t'
                | Ok a => Q (Ok a) t' end) t →
  wp (os_or m c msg) Q t.
Proof.
  intros H. apply wp_catch. eapply wp_mono; [exact H |]. intros [a|e] t'; [done |]. simpl.
  by destruct (is_oserror _).
Qed.

Lemma wp_finally {T A} (m : M T A) (f : M T unit) (Q : res A → T → Prop) t :
  wp m (λ r t1, wp f (λ r' t2, match r' with Ok _ => Q r t2 | Raise e => Q (Raise e) t2 end) t1) t →
  wp (finally m f) Q t.
Proof. unfold wp, finally. destruct (m t) as [r t1]. simpl. by destruct (f t1) as [[]]. Qed.

Lemma wp_on_error {T A} (m : M T A) (f : M T unit) (Q : res A → T → Prop) t :
  wp m (λ r t1, match r with
                | Ok a => Q (Ok a) t1
                | Raise e => wp f (λ r' t2, match r' with Ok _ => Q (Raise e) t2 | Raise e' => Q (Raise e') t2 end) t1
                end) t →
  wp (on_error m f) Q t.
Proof. unfold wp, on_error, catch. destruct (m t) as [[] t1]; simpl; [done |]. by destruct (f t1) as [[]]. Qed.

(** ** Preservation
    Code that preserves a property of the state on every outcome. *)
Definition preserves {T A} (P : T → Prop) (m : M T A) : Prop := ∀ t, P t → P (m t).2.

Section preserves.
Context {T : Type} (P : T → Prop).

Lemma preserves_lift {A} (r : res A) : preserves P (lift r).
Proof. intros t Ht. exact Ht. Qed.
Lemma preserves_mret {A} (a : A) : preserves P (mret a).
Proof. intros t Ht. exact Ht. Qed.
Lemma preserves_pass : preserves P pass.
Proof. intros t Ht. exact Ht. Qed.
Lemma preserves_bind {A B} (m : M T A) (f : A → M T B) :
  preserves P m → (∀ a, preserves P (f a)) → preserves P (m ≫= f).
Proof.
  intros Hm Hf t Ht. specialize (Hm t Ht). unfold mbind, M_mbind. destruct (m t) as [[a|e] t']; [| done].
  by apply Hf.
Qed.
Lemma preserves_catch {A} (m : M T A) cs h : preserves P m → (∀ e, preserves P (h e)) → preserves P (catch m cs h).
Proof.
  intros Hm Hh t Ht. specialize (Hm t Ht). unfold catch. destruct (m t) as [[a|e] t']; [done |].
  destruct (cs _); [by apply Hh | done].
Qed.
Lemma preserves_os_or {A} (m : M T A) c msg : preserves P m → preserves P (os_or m c msg).
Proof. intros H. apply preserves_catch; [done | intros; apply preserves_lift]. Qed.
Lemma preserves_finally {A} (m : M T A) f : preserves P m → preserves P f → preserves P (finally m f).
Proof.
  intros Hm Hf t Ht. specialize (Hm t Ht). unfold finally. destruct (m t) as [r t1].
  specialize (Hf t1 Hm). by destruct (f t1) as [[] t2].
Qed.
Lemma preserves_each {A} (f : A → M T unit) l : (∀ x, x ∈ l → preserves P (f x)) → preserves P (each f l).
Proof.
  induction l as [|x l IH]; intros Hf t Ht; [done |]. simpl.
  pose proof (Hf x ltac:(by left) t Ht) as Hx. destruct (f x t) as [[] t']; [| done].
  apply IH; [| done]. intros y Hy. apply Hf. by right.
Qed.
Lemma preserves_fold {A B} (f : B → A → M T B) acc l :
  (∀ b x, x ∈ l → preserves P (f b x)) → preserves P (fold_m f acc l).
Proof.
  revert acc. induction l as [|x l IH]; intros acc Hf t Ht; [done |]. simpl.
  pose proof (Hf acc x ltac:(by left) t Ht) as Hx. destruct (f acc x t) as [[acc'|] t']; [| done].
  apply IH; [| done]. intros b y Hy. apply Hf. by right.
Qed.
Lemma preserves_rounds {S A} p (step : S → M T (S + A)) s :
  (∀ s, preserves P (step s)) → preserves P (rounds p step s).
Proof.
  intros H. revert s. induction p as [p IH|p IH|]; intros s; simpl; [| | done].
  - apply preserves_bind; [done |]. intros [s1|a]; [| apply preserves_mret].
    apply preserves_bind; [done |]. intros [s2|a]; [done | apply preserves_mret].
  - apply preserves_bind; [done |]. intros [s1|a]; [done | apply preserves_mret].
Qed.
Lemma preserves_while {S A} p (step : S → M T (S + A)) s :
  (∀ s, preserves P (step s)) → preserves P (while p step s).
Proof. intros H. apply preserves_bind; [by apply preserves_rounds |]. intros [s'|a]; [apply preserves_lift | apply preserves_mret]. Qed.
Lemma preserves_wp {A} (m : M T A) (Q : res A → T → Prop) t :
  preserves P m → P t → (∀ r t', P t' → Q r t') → wp m Q t.
Proof. intros Hm Ht HQ. apply HQ. by apply Hm. Qed.
End preserves.

Create HintDb preserves.
#[export] Hint Resolve preserves_lift preserves_mret preserves_pass preserves_bind preserves_catch
  preserves_os_or preserves_finally preserves_while : preserves.

(** The loop rule: an invariant and a measure that every further round
    lowers, below the number of rounds allowed. *)
Section loops.
Context {T S A : Type} (step : S → M T (S + A)) (Inv : S → T → Prop) (μ : S → T → Z).
Context (Q : res A → T → Prop).
Context (Hstep : ∀ s t, Inv s t → 0 ≤ μ s t ∧
  wp (step s) (λ r t', match r with
                       | Ok (inl s') => Inv s' t' ∧ μ s' t' + 1 ≤ μ s t
                       | Ok (inr a) => Q (Ok a) t'
                       | Raise e => Q (Raise e) t'
                       end) t).

Lemma rounds_wp p s t : Inv s t →
  wp (rounds p step s) (λ r t', match r with
                                | Ok (inl s') => Inv s' t' ∧ μ s' t' + Zpos p ≤ μ s t
                                | Ok (inr a) => Q (Ok a) t'
                                | Raise e => Q (Raise e) t'
                                end) t.
Proof using Hstep.
  revert s t. induction p as [p IH|p IH|]; intros s t Hi; simpl.
  - apply wp_bind. eapply wp_mono; [by apply Hstep |]. intros [[s1|a]|e] t1; [| done | done].
    intros [Hi1 Hm1]. apply wp_bind. eapply wp_mono; [by apply IH |]. intros [[s2|a]|e] t2; [| done | done].
    intros [Hi2 Hm2]. eapply wp_mono; [by apply IH |]. intros [[s3|a]|e] t3; [| done | done].
    intros [Hi3 Hm3]. split; [done | lia].
  - apply wp_bind. eapply wp_mono; [by apply IH |]. intros [[s2|a]|e] t2; [| done | done].
    intros [Hi2 Hm2]. eapply wp_mono; [by apply IH |]. intros [[s3|a]|e] t3; [| done | done].
    intros [Hi3 Hm3]. split; [done | lia].
  - by apply Hstep.
Qed.

Lemma wp_while p s t : Inv s t → μ s t < Zpos p → wp (while p step s) Q t.
Proof using Hstep.
  intros Hi Hm. apply wp_bind. eapply wp_mono; [by apply rounds_wp |].
  intros [[s'|a]|e] t'; [| done | done]. intros [Hi' Hm']. destruct (Hstep s' t' Hi'). lia.
Qed.
End loops.

(** A loop counted by its rounds. *)
Lemma rounds_counted {T S A} (step : S → M T (S + A)) (Inv : nat → S → T → Prop) (Q : res A → T → Prop) p :
  (∀ k s t, Inv k s t → wp (step s) (λ r t', match r with
                                             | Ok (inl s') => Inv (Datatypes.S k) s' t'
                                             | Ok (inr a) => Q (Ok a) t'
                                             | Raise e => Q (Raise e) t'
                                             end) t) →
  ∀ k s t, Inv k s t → wp (rounds p step s) (λ r t', match r with
                                                     | Ok (inl s') => Inv (k + Pos.to_nat p)%nat s' t'
                                                     | Ok (inr a) => Q (Ok a) t'
                                                     | Raise e => Q (Raise e) t'
                                                     end) t.
Proof.
  intros Hstep. induction p as [p IH|p IH|]; intros k s t Hi; simpl.
  - apply wp_bind. eapply wp_mono; [by apply Hstep |]. intros [[s1|a]|e] t1; [| done | done]. intros H1.
    apply wp_bind. eapply wp_mono; [by apply IH |]. intros [[s2|a]|e] t2; [| done | done]. intros H2.
    eapply wp_mono; [by apply IH |]. intros [[s3|a]|e] t3; [| done | done].
    by replace (k + Pos.to_nat p~1)%nat with (Datatypes.S k + Pos.to_nat p + Pos.to_nat p)%nat by lia.
  - apply wp_bind. eapply wp_mono; [by apply IH |]. intros [[s2|a]|e] t2; [| done | done]. intros H2.
    eapply wp_mono; [by apply IH |]. intros [[s3|a]|e] t3; [| done | done].
    by replace (k + Pos.to_nat p~0)%nat with (k + Pos.to_nat p + Pos.to_nat p)%nat by lia.
  - eapply wp_mono; [by apply Hstep |]. intros [[s1|a]|e] t1; [| done | done]. by rewrite Nat.add_1_r.
Qed.

(** ** Booleans to propositions *)
Lemma existsb_elem_of {A} (f : A → bool) l : existsb f l = true ↔ ∃ x, x ∈ l ∧ f x = true.
Proof. rewrite existsb_exists. by setoid_rewrite list_elem_of_In. Qed.

Lemma forallb_Forall {A} (f : A → bool) l : forallb f l = true ↔ Forall (λ x, f x = true) l.
Proof. rewrite forallb_forall, Forall_forall. by setoid_rewrite list_elem_of_In. Qed.

Lemma existsb_false {A} (f : A → bool) l : existsb f l = false ↔ Forall (λ x, f x = false) l.
Proof.
  induction l as [|x l IH]; simpl; [split; [constructor | done] |].
  rewrite orb_false_iff, Forall_cons, IH. done.
Qed.

Create Rewrite HintDb bool2prop.
#[export] Hint Rewrite negb_true_iff negb_false_iff andb_true_iff andb_false_iff
  orb_true_iff orb_false_iff Z.leb_le Z.leb_gt Z.ltb_lt Z.ltb_ge Z.eqb_eq Z.eqb_neq
  bool_decide_eq_true bool_decide_eq_false : bool2prop.

(** [inv_res] opens hypotheses of the form [m = Ok r] for a [m] built from
    binds and guards. *)
Ltac inv_res :=
  repeat match goal with
  | H : (_ ≫= _) = Ok _ |- _ =>
      apply bind_Ok in H; let a := fresh "r" in let H1 := fresh H in
      destruct H as (a & H1 & H)
  | H : refuse_if _ _ _ = Ok ?u |- _ => apply refuse_if_Ok in H; try clear u
  | H : need _ _ = Ok ?u |- _ => apply need_Ok in H; try clear u
  | H : of_option _ _ _ = Ok _ |- _ => apply of_option_Ok in H
  | H : Ok _ = Ok _ |- _ => injection H as H; try subst
  | H : Raise _ = Ok _ |- _ => discriminate H
  | H : Ok _ = Raise _ |- _ => discriminate H
  | u : unit |- _ => destruct u
  end.

(** [b2p] turns boolean tests into propositions in the hypotheses, [b2pg]
    in the goal as well. *)
Ltac b2p := repeat (progress (autorewrite with bool2prop in * |-)); destruct_and?.
Ltac b2pg := autorewrite with bool2prop; b2p.

(** [bind_inv H as x Hx] opens one bind of [H : (x ← m; k) = Ok r];
    [guard_inv H as Hg] opens one guard and keeps its condition. *)
Tactic Notation "bind_inv" hyp(H) "as" simple_intropattern(x) simple_intropattern(Hx) :=
  apply bind_Ok in H as (x & Hx & H).
Tactic Notation "guard_inv" hyp(H) "as" simple_intropattern(Hg) :=
  let u := fresh "u" in let K := fresh "K" in
  apply bind_Ok in H as (u & K & H); destruct u;
  first [apply refuse_if_Ok in K | apply need_Ok in K | idtac]; revert K; intros Hg.

(** A guard whose condition is known is skipped. *)
Lemma refuse_if_pass {A} bad c msg (k : () → res A) :
  bad = false → (refuse_if bad c msg ≫= k) = k ().
Proof. by intros ->. Qed.
Lemma need_pass {A} ok why (k : () → res A) : ok = true → (need ok why ≫= k) = k ().
Proof. by intros ->. Qed.

(** ** Lists *)
Lemma NoDup_map_filter {A B} (f : A → B) (P : A → Prop) `{∀ x, Decision (P x)} l :
  NoDup (map f l) → NoDup (map f (filter P l)).
Proof.
  induction l as [|x l IH]; [done |]. simpl. intros [Hn Hd]%NoDup_cons. rewrite filter_cons. case_decide; [| auto].
  apply NoDup_cons. split; [| auto]. intros (y & Hy & [_ Hin]%list_elem_of_filter)%list_elem_of_fmap. rewrite Hy in Hn.
  apply Hn, list_elem_of_fmap. eauto.
Qed.

Lemma Ok_bind {A B} (a : A) (f : A → res B) : (Ok a ≫= f) = f a.
Proof. done. Qed.
