(* ===== verification/PyStr.v ===== *)
(** * Python [str] and [bytes] operations

    The methods of [str] and [bytes] that the host tools call, on
    character lists, with the inverse laws the parsers and printers need:
    [splitlines], [partition], [split], [join], decimal and hexadecimal
    conversion and big/little-endian integers ([struct.unpack]). *)

From stdpp Require Import sorting.
From S2P Require Import Prelude.

(** ** Character classes *)
Definition between (lo hi : ascii) (c : ascii) : bool := (ord lo <=? ord c) && (ord c <=? ord hi).
Definition is_digit : ascii → bool := between "0" "9".
Definition is_lower : ascii → bool := between "a" "z".
Definition is_upper : ascii → bool := between "A" "Z".
Definition is_alnum (c : ascii) : bool := is_digit c || is_lower c || is_upper c.
(** [str.isalnum] below 256. *)
Definition isalnum (c : ascii) : bool :=
  is_alnum c || (let n := ord c in
    existsb (Z.eqb n) [170; 178; 179; 181; 185; 186; 188; 189; 190] || ((192 <=? n) && (n <=? 255) && negb (n =? 215) && negb (n =? 247))).
Definition is_hex (c : ascii) : bool := is_digit c || between "a" "f" c.
Definition one_of (cs : pystr) (c : ascii) : bool := existsb (λ d, d == c) cs.

(** [str.isascii], [str.isdecimal] (below 256 only ASCII digits are
    decimal characters). *)
Definition isascii (s : pystr) : bool := forallb (λ c, ord c <? 128) s.
Definition isdecimal (s : pystr) : bool := negb (s == []) && forallb is_digit s.

(** [s.startswith(p)], [s.endswith(p)], [p in s]. *)
Fixpoint startswith (s p : pystr) {struct p} : bool :=
  match p, s with
  | [], _ => true
  | _ :: _, [] => false
  | a :: p, b :: s => (a == b) && startswith s p
  end.
Definition endswith (s p : pystr) : bool := startswith (reverse s) (reverse p).
Fixpoint contains (p s : pystr) : bool :=
  startswith s p || match s with [] => false | _ :: s => contains p s end.
Definition has_char (c : ascii) (s : pystr) : bool := existsb (λ d, d == c) s.

(** [s.partition(c)] for a one-character separator:
    [(before, separator found, after)]. *)
Fixpoint partition (c : ascii) (s : pystr) : pystr * bool * pystr :=
  match s with
  | [] => ([], false, [])
  | d :: s => if d == c then ([], true, s)
              else let '(a, f, b) := partition c s in (d :: a, f, b)
  end.

(** [s.split(c)] for a one-character separator (never the empty list). *)
Fixpoint split_on (c : ascii) (s : pystr) : list pystr :=
  match s with
  | [] => [[]]
  | d :: s => if d == c then [] :: split_on c s
              else match split_on c s with
                   | [] => [[d]]
                   | w :: ws => (d :: w) :: ws
                   end
  end.

Fixpoint join (sep : pystr) (l : list pystr) : pystr :=
  match l with
  | [] => []
  | [w] => w
  | w :: ws => w ++ sep ++ join sep ws
  end.

(** ** [str.splitlines]

    Line boundaries below 256: LF, VT, FF, CR, FS, GS, RS and NEL; CR LF is
    one boundary; a final boundary opens no empty line. *)
Definition LF : ascii := "010".
Definition CR : ascii := "013".
Definition is_linebreak (c : ascii) : bool :=
  let n := ord c in
  (between "010" "013" c) || (between "028" "030" c) || (n =? 133).

Fixpoint splitlines_from (cur : pystr) (s : pystr) : list pystr :=
  match s with
  | [] => if cur == [] then [] else [cur]
  | c :: s =>
      if is_linebreak c then
        cur :: match c == CR, s with
               | true, d :: s' => if d == LF then splitlines_from [] s' else splitlines_from [] s
               | _, _ => splitlines_from [] s
               end
      else splitlines_from (cur ++ [c]) s
  end.
Definition splitlines (s : pystr) : list pystr := splitlines_from [] s.

(** ** Whitespace: [str.split()] and [str.strip()] *)
Definition is_space (c : ascii) : bool :=
  let n := ord c in
  (between "009" "013" c) || (between "028" "032" c) || (n =? 133) || (n =? 160).
Fixpoint words_from (cur : pystr) (s : pystr) : list pystr :=
  match s with
  | [] => if cur == [] then [] else [cur]
  | c :: s => if is_space c then (if cur == [] then [] else [cur]) ++ words_from [] s
              else words_from (cur ++ [c]) s
  end.
Definition split_ws (s : pystr) : list pystr := words_from [] s.
Fixpoint lstrip_if (p : ascii → bool) (s : pystr) : pystr :=
  match s with [] => [] | c :: s' => if p c then lstrip_if p s' else s end.
Definition strip (s : pystr) : pystr :=
  reverse (lstrip_if is_space (reverse (lstrip_if is_space s))).

(** ** Decimal integers: [int(s)] on ASCII digits and [str(n)] *)
Definition digit (c : ascii) : Z := ord c - 48.
Definition digit_chr (d : Z) : ascii := chr (d + 48).
Definition int10 (s : pystr) : Z := foldl (λ acc c, acc * 10 + digit c) 0 s.
Fixpoint digits_of (fuel : nat) (n : Z) : pystr :=
  match fuel with
  | O => []
  | S fuel => if n <? 10 then [digit_chr n]
              else digits_of fuel (n / 10) ++ [digit_chr (n mod 10)]
  end.
Definition str_nonneg (n : Z) : pystr := digits_of (S (Z.to_nat (Z.log2 n))) n.
Definition str_of_Z (n : Z) : pystr :=
  if n <? 0 then "-"%char :: str_nonneg (- n) else str_nonneg n.

(** A canonical decimal: no sign, no leading zero. *)
Definition canonical_decimal (s : pystr) : bool :=
  isdecimal s && negb (startswith s "0" && (s != "0")).

(** ** Hexadecimal *)
Definition hex_digit (d : Z) : ascii := if d <? 10 then chr (d + 48) else chr (d + 87).
Definition hex_val (c : ascii) : Z :=
  if is_digit c then ord c - 48 else if between "a" "f" c then ord c - 87 else ord c - 55.
Definition is_hex_any (c : ascii) : bool := is_hex c || between "A" "F" c.
(** [f"{n:0{w}x}"] for [0 <= n < 16^w]. *)
Fixpoint hex_fixed (w : nat) (n : Z) : pystr :=
  match w with
  | O => []
  | S w => hex_fixed w (n / 16) ++ [hex_digit (n mod 16)]
  end.
Definition int16 (s : pystr) : Z := foldl (λ acc c, acc * 16 + hex_val c) 0 s.

(** ** Fixed-width integers in [bytes] ([struct] formats) *)
Definition be_int (b : bytes) : Z := foldl (λ acc c, acc * 256 + ord c) 0 b.
Definition le_int (b : bytes) : Z := be_int (reverse b).
Fixpoint be_bytes (w : nat) (n : Z) : bytes :=
  match w with
  | O => []
  | S w => be_bytes w (n / 256) ++ [chr (n mod 256)]
  end.
Definition le_bytes (w : nat) (n : Z) : bytes := reverse (be_bytes w n).

(** [data[off:off+n]] with Python's clipping, for non-negative bounds. *)
Definition slice (data : bytes) (off n : Z) : bytes :=
  take (Z.to_nat n) (drop (Z.to_nat off) data).

(** ** Lemmas on characters *)
Lemma ord_range c : 0 ≤ ord c < 256.
Proof.
  unfold ord. pose proof (N_ascii_bounded c). split; [lia |].
  change 256 with (Z.of_N 256). lia.
Qed.

Lemma ord_chr z : 0 ≤ z < 256 → ord (chr z) = z.
Proof. intros H. unfold ord, chr. rewrite N_ascii_embedding; lia. Qed.

Lemma chr_ord c : chr (ord c) = c.
Proof. unfold ord, chr. rewrite N2Z.id. apply ascii_N_embedding. Qed.

#[export] Instance ord_inj : Inj (=) (=) ord.
Proof. intros a b H. rewrite <-(chr_ord a), <-(chr_ord b). by rewrite H. Qed.

Lemma between_true lo hi c : between lo hi c = true ↔ ord lo ≤ ord c ≤ ord hi.
Proof. unfold between. b2pg. lia. Qed.

Lemma between_false lo hi c : between lo hi c = false ↔ ord c < ord lo ∨ ord hi < ord c.
Proof. unfold between. b2pg. lia. Qed.

(** [char_lia] decides goals about character classes by their codes. *)
Ltac char_lia :=
  unfold is_alnum, is_hex_any, is_hex, is_digit, is_lower, is_upper, is_linebreak, is_space in *;
  repeat match goal with
  | H : ?f = true |- _ => progress (rewrite ?orb_true_iff, ?andb_true_iff, ?between_true in H)
  | H : ?f = false |- _ => progress (rewrite ?orb_false_iff, ?andb_false_iff, ?between_false in H)
  end;
  rewrite ?orb_true_iff, ?andb_true_iff, ?between_true, ?orb_false_iff, ?andb_false_iff, ?between_false,
    ?Z.eqb_eq, ?Z.eqb_neq, ?Z.ltb_lt in *;
  unfold ord in *; simpl N_of_ascii in *; simpl Z.of_N in *; try lia.

(** ** [startswith], [contains] *)
Lemma startswith_spec s p : startswith s p = true ↔ ∃ t, s = p ++ t.
Proof.
  revert s. induction p as [|a p IH]; intros s; simpl.
  - split; [eauto | done].
  - destruct s as [|b s]; [naive_solver |].
    rewrite andb_true_iff, bool_decide_eq_true, IH. split.
    + intros [-> [t ->]]. eauto.
    + intros [t [= -> ->]]. eauto.
Qed.

Lemma endswith_spec s p : endswith s p = true ↔ ∃ t, s = t ++ p.
Proof.
  unfold endswith. rewrite startswith_spec. split; intros [t Ht].
  - exists (reverse t). apply (f_equal reverse) in Ht.
    by rewrite reverse_app, !reverse_involutive in Ht.
  - exists (reverse t). by rewrite Ht, reverse_app.
Qed.

Lemma contains_spec p s : contains p s = true ↔ ∃ a b, s = a ++ p ++ b.
Proof.
  induction s as [|c s IH]; simpl; rewrite orb_true_iff, startswith_spec.
  - split.
    + intros [[t Ht]|[=]]. by exists [], t.
    + intros (a & b & Hab). left. exists b. by destruct a.
  - rewrite IH. split.
    + intros [[t ->]|(a & b & ->)]; [by exists [], t | by exists (c :: a), b].
    + intros ([|d a] & b & Hab); [left; eauto | right].
      simplify_eq/=. eauto.
Qed.

Lemma has_char_false c s : has_char c s = false ↔ c ∉ s.
Proof.
  unfold has_char. rewrite existsb_false, Forall_forall. setoid_rewrite bool_decide_eq_false.
  split; [intros H Hin; by apply (H c) | intros H d Hd ->; done].
Qed.

(** ** [partition] and [split] *)
Lemma partition_first c a b : c ∉ a → partition c (a ++ c :: b) = (a, true, b).
Proof.
  induction a as [|d a IH]; simpl; intros Hc.
  - by rewrite bool_decide_true.
  - apply not_elem_of_cons in Hc as [Hd Hc]. rewrite bool_decide_false by congruence.
    by rewrite IH.
Qed.

Lemma partition_found c s a b : partition c s = (a, true, b) → s = a ++ c :: b ∧ c ∉ a.
Proof.
  revert a. induction s as [|d s IH]; intros a; simpl; [done |].
  case_bool_decide as Hd.
  - intros [= <- <-]. subst. split; [done | set_solver].
  - destruct (partition c s) as [[a' f] b'] eqn:E. intros [= <- -> ->].
    destruct (IH a') as [-> Hc]; [done |]. split; [done | set_solver].
Qed.

Lemma partition_absent c s : c ∉ s → partition c s = (s, false, []).
Proof.
  induction s as [|d s IH]; simpl; intros Hc; [done |].
  apply not_elem_of_cons in Hc as [Hd Hc]. rewrite bool_decide_false by congruence.
  by rewrite IH.
Qed.

Lemma split_on_absent c s : c ∉ s → split_on c s = [s].
Proof.
  induction s as [|d s IH]; simpl; intros Hc; [done |].
  apply not_elem_of_cons in Hc as [Hd Hc]. rewrite bool_decide_false by congruence.
  by rewrite IH.
Qed.

Lemma split_on_app c a b : c ∉ a → split_on c (a ++ c :: b) = a :: split_on c b.
Proof.
  induction a as [|d a IH]; simpl; intros Hc.
  - by rewrite bool_decide_true.
  - apply not_elem_of_cons in Hc as [Hd Hc]. rewrite bool_decide_false by congruence.
    by rewrite IH.
Qed.

Lemma split_on_nonempty c s : split_on c s ≠ [].
Proof. destruct s as [|d s]; simpl; [done |]. case_bool_decide; [done |]. by destruct (split_on c s). Qed.

Lemma split_join c l :
  l ≠ [] → Forall (λ w, c ∉ w) l → split_on c (join [c] l) = l.
Proof.
  induction l as [|w [|w' ws] IH]; intros Hne Hl; [done | |].
  - apply Forall_cons in Hl as [Hl _]. by apply split_on_absent.
  - apply Forall_cons in Hl as [Hw Hl]. 
    change (join [c] (w :: w' :: ws)) with (w ++ c :: join [c] (w' :: ws)).
    by rewrite split_on_app, IH.
Qed.

Lemma join_split c s : join [c] (split_on c s) = s.
Proof.
  induction s as [|d s IH]; simpl; [done |].
  pose proof (split_on_nonempty c s) as Hne. case_bool_decide as Hd.
  - subst. destruct (split_on c s) as [|w ws]; [done |]. simpl. by rewrite <-IH.
  - destruct (split_on c s) as [|w [|w' ws]]; [done | |]; simpl in *; by rewrite <-IH.
Qed.

(** ** [splitlines] inverts writing lines *)
Definition unlines (l : list pystr) : pystr := concat (map (λ w, w ++ [LF]) l).
Definition one_line (w : pystr) : Prop := Forall (λ c, is_linebreak c = false) w.

Lemma splitlines_from_line cur w s :
  one_line w → splitlines_from cur (w ++ s) = splitlines_from (cur ++ w) s.
Proof.
  revert cur. induction w as [|c w IH]; intros cur Hw; simpl; [by rewrite app_nil_r |].
  apply Forall_cons in Hw as [-> Hw]. rewrite IH by done. by rewrite <-app_assoc.
Qed.

Lemma splitlines_unlines l : Forall one_line l → splitlines (unlines l) = l.
Proof.
  unfold splitlines, unlines. induction l as [|w l IH]; intros Hl; [done |].
  apply Forall_cons in Hl as [Hw Hl]. simpl concat.
  rewrite <-app_assoc, splitlines_from_line by done. simpl. by rewrite IH.
Qed.

Lemma splitlines_from_one_line cur s :
  one_line cur → Forall one_line (splitlines_from cur s).
Proof.
  remember (length s) as n eqn:Hn. assert (length s ≤ n)%nat as Hle by lia. clear Hn.
  revert cur s Hle. induction n as [|n IH]; intros cur [|c s] Hle Hcur;
    cbn [splitlines_from length] in *; try lia.
  1,2: case_bool_decide; repeat constructor; done.
  destruct (is_linebreak c) eqn:E.
  - constructor; [done |].
    case_bool_decide; [| by apply IH; [lia | constructor]].
    destruct s as [|d s']; [constructor |]. simpl in Hle.
    case_bool_decide; [apply (IH [] s') | apply (IH [] (d :: s'))]; simpl; try lia; constructor.
  - apply IH; [lia |]. apply Forall_app. split; [done | by repeat constructor].
Qed.

Lemma splitlines_one_line s : Forall one_line (splitlines s).
Proof. apply splitlines_from_one_line. constructor. Qed.

(** Text whose only line boundary is LF and which ends in LF is exactly the
    lines [splitlines] returns, each closed by LF. *)
Lemma unlines_splitlines_from cur s :
  Forall (λ c, is_linebreak c = true → c = LF) s →
  one_line cur → endswith (cur ++ s) [LF] = true →
  unlines (splitlines_from cur s) = cur ++ s.
Proof.
  revert cur. induction s as [|c s IH]; intros cur Hs Hcur Hend.
  - rewrite app_nil_r in Hend. apply endswith_spec in Hend as [t ->].
    apply Forall_app in Hcur as [_ Hcur]. by apply Forall_cons in Hcur as [Hcur _].
  - apply Forall_cons in Hs as [Hc Hs]. cbn [splitlines_from].
    destruct (is_linebreak c) eqn:E.
    + specialize (Hc eq_refl). subst c. rewrite (bool_decide_false (LF = CR)) by done.
      unfold unlines. simpl concat. fold (unlines (splitlines_from [] s)).
      destruct s as [|d s']; [by rewrite app_nil_r |]. rewrite IH; [by rewrite <-app_assoc | done | constructor |].
      apply endswith_spec in Hend as [t Ht]. apply endswith_spec.
      destruct t as [|e t' _] using rev_ind.
      * apply (f_equal length) in Ht. rewrite length_app in Ht. simpl in Ht. lia.
      * destruct (exists_last (l := d :: s')) as (q & x & Hq); [done |].
        exists q. simpl. rewrite Hq in Ht |- *.
        change (cur ++ LF :: q ++ [x]) with (cur ++ (LF :: q) ++ [x]) in Ht.
        rewrite app_assoc in Ht. by apply app_inj_tail in Ht as [_ ->].
    + rewrite IH; [by rewrite <-app_assoc | done | |by rewrite <-app_assoc].
      apply Forall_app. split; [done | by repeat constructor].
Qed.

Lemma unlines_splitlines s :
  Forall (λ c, is_linebreak c = true → c = LF) s → endswith s [LF] = true →
  unlines (splitlines s) = s.
Proof. intros. by apply (unlines_splitlines_from []); [| constructor |]. Qed.

(** Text without CR that ends in a line boundary is its lines, each closed by
    one boundary, and reading such text gives the lines back. *)
Definition closed (ls : list pystr) (es : list ascii) : pystr := concat (zip_with (λ l e, l ++ [e]) ls es).
Definition line_end (c : ascii) : Prop := is_linebreak c = true ∧ c ≠ CR.
Lemma splitlines_closed ls es : Forall one_line ls → Forall line_end es → length ls = length es → splitlines (closed ls es) = ls.
Proof.
  unfold splitlines, closed. intros Hl. revert es. induction Hl as [|w ls Hw Hl IH]; intros [|e es] He Hlen; try done.
  apply Forall_cons in He as [[He Hcr] Hes]. simpl concat. rewrite <-app_assoc, splitlines_from_line by done. simpl.
  rewrite He, (bool_decide_false (e = CR)) by done. f_equal. apply IH; [done |]. simpl in Hlen. lia.
Qed.
Lemma splitlines_ends cur s : (CR ∉ s) → (s = [] → cur = []) → (∀ e, last s = Some e → is_linebreak e = true) →
  ∃ es, length (splitlines_from cur s) = length es ∧ Forall line_end es ∧ Forall (λ e, e ∈ s) es ∧
    cur ++ s = closed (splitlines_from cur s) es ∧ last es = last s.
Proof.
  revert cur. induction s as [|c s IH]; intros cur Hcr Hcur Hlast.
  { rewrite (Hcur eq_refl). exists []. split_and!; [done | by constructor | by constructor | done | done]. }
  apply not_elem_of_cons in Hcr as [Hc Hcr]. rewrite last_cons in Hlast. cbn [splitlines_from]. destruct (is_linebreak c) eqn:E.
  - rewrite (bool_decide_false (c = CR)) by congruence.
    destruct (IH []) as (es & Hl & He & Hin & Heq & Hle); [done | done | by intros e He; apply Hlast; rewrite He |].
    exists (c :: es). rewrite !last_cons, Hle. split_and!; [simpl; lia | | | | done].
    + constructor; [|done]. split; congruence.
    + constructor; [by left |]. eapply Forall_impl; [exact Hin |]. intros e ?. by right.
    + unfold closed. simpl. rewrite <-app_assoc. simpl. f_equal. f_equal. exact Heq.
  - destruct s as [|d s]; [specialize (Hlast c eq_refl); congruence |].
    destruct (IH (cur ++ [c])) as (es & Hl & He & Hin & Heq & Hle); [done | done | by intros e He; apply Hlast; rewrite He |].
    exists es. rewrite last_cons, Hle. split_and!; [done | done | | by rewrite <- Heq, <- app_assoc | by destruct (last (d :: s)) eqn:Es; [|apply last_None in Es]].
    eapply Forall_impl; [exact Hin |]. intros e ?. by right.
Qed.

(** ** Decimal round trips *)
Lemma int10_app s c : int10 (s ++ [c]) = int10 s * 10 + digit c.
Proof. unfold int10. by rewrite foldl_app. Qed.

Lemma digit_bound c : is_digit c = true → 0 ≤ digit c < 10.
Proof. unfold digit. intros H. char_lia. Qed.

Lemma int10_nonneg s : forallb is_digit s = true → 0 ≤ int10 s.
Proof.
  rewrite forallb_Forall. induction s as [|c s IH] using rev_ind; intros Hs; [done |].
  apply Forall_app in Hs as [Hs Hc]. apply Forall_cons in Hc as [Hc _].
  rewrite int10_app. pose proof (digit_bound c Hc). specialize (IH Hs). lia.
Qed.

Lemma digit_chr_digit d : 0 ≤ d < 10 → digit (digit_chr d) = d.
Proof. intros. unfold digit, digit_chr. rewrite ord_chr; lia. Qed.

Lemma digit_chr_is_digit d : 0 ≤ d < 10 → is_digit (digit_chr d) = true.
Proof.
  intros. unfold is_digit, digit_chr. rewrite between_true, ord_chr by lia.
  change (ord "0") with 48. change (ord "9") with 57. lia.
Qed.

Lemma digit_chr_of c : is_digit c = true → digit_chr (digit c) = c.
Proof.
  intros. unfold digit_chr, digit. replace (ord c - 48 + 48) with (ord c) by lia. apply chr_ord.
Qed.

Lemma log2_div10 n : 10 ≤ n → (Z.to_nat (Z.log2 (n / 10)) < Z.to_nat (Z.log2 n))%nat.
Proof.
  intros. assert (Z.log2 (n / 10) < Z.log2 n); [| pose proof (Z.log2_nonneg (n / 10)); lia].
  apply Z.lt_le_trans with (Z.succ (Z.log2 (n / 10))); [lia |].
  rewrite <-Z.log2_double by (apply Z.div_str_pos; lia).
  apply Z.log2_le_mono. pose proof (Z.mul_div_le n 10). lia.
Qed.

Lemma digits_of_int fuel n :
  0 ≤ n → (Z.to_nat (Z.log2 n) < fuel)%nat →
  int10 (digits_of fuel n) = n ∧ forallb is_digit (digits_of fuel n) = true ∧ digits_of fuel n ≠ [].
Proof.
  revert n. induction fuel as [|fuel IH]; intros n Hn Hf; [lia |]. simpl.
  destruct (n <? 10) eqn:E; b2p.
  - split; [| split; [| done]].
    + apply digit_chr_digit. lia.
    + simpl. by rewrite digit_chr_is_digit by lia.
  - destruct (IH (n / 10)) as (Hi & Hd & _).
    { apply Z.div_pos; lia. }
    { pose proof (log2_div10 n). lia. }
    pose proof (Z.mod_pos_bound n 10). rewrite int10_app, Hi, digit_chr_digit by lia.
    split; [pose proof (Z.div_mod n 10); lia |].
    split; [| by destruct (digits_of _ _)].
    rewrite forallb_app, Hd. simpl. by rewrite digit_chr_is_digit by lia.
Qed.

(** [int(str(n)) = n] for the non-negative integers the tools print. *)
Lemma int10_str n : 0 ≤ n → int10 (str_of_Z n) = n.
Proof.
  intros H. unfold str_of_Z, str_nonneg. destruct (n <? 0) eqn:E; b2p; [lia |].
  apply digits_of_int; lia.
Qed.

Lemma str_isdecimal n : 0 ≤ n → isdecimal (str_of_Z n) = true.
Proof.
  intros H. unfold str_of_Z, str_nonneg, isdecimal. destruct (n <? 0) eqn:E; b2p; [lia |].
  destruct (digits_of_int (S (Z.to_nat (Z.log2 n))) n) as (_ & -> & Hne); [lia.. |].
  by rewrite bool_decide_false.
Qed.

Lemma canonical_app s c :
  s ≠ [] → canonical_decimal (s ++ [c]) = true → canonical_decimal s = true ∧ s ≠ "0" ∧ is_digit c = true.
Proof.
  unfold canonical_decimal, isdecimal. intros Hs. rewrite !andb_true_iff, forallb_app.
  destruct s as [|d s]; [done |]. simpl. rewrite !andb_true_r, !andb_true_iff.
  intros ([_ [[Hd Hs'] Hc]] & Hz).
  case_bool_decide as E; simpl in *.
  - subst d. exfalso. by destruct s.
  - repeat split; auto; try (intros [= ? ?]); congruence.
Qed.

Lemma canonical_lower s : canonical_decimal s = true → s ≠ "0" → 1 ≤ int10 s.
Proof.
  induction s as [|c s IH] using rev_ind; [done |]. intros Hc Hz.
  destruct s as [|d s].
  - unfold canonical_decimal, isdecimal in Hc. simpl in *. b2p.
    assert (digit c ≠ 0); [| unfold int10; simpl; pose proof (digit_bound c ltac:(done)); lia].
    intros Hd. apply Hz. assert (c = "0"%char) as ->; [| done].
    apply (inj ord). unfold digit in Hd. change (ord "0") with 48. lia.
  - apply canonical_app in Hc as (Hs & Hs0 & Hc); [| done].
    rewrite int10_app. specialize (IH Hs Hs0). pose proof (digit_bound c Hc). lia.
Qed.

(** [str(int(s)) = s] for a canonical decimal [s]. *)
Lemma digits_of_canonical s fuel :
  canonical_decimal s = true → (Z.to_nat (Z.log2 (int10 s)) < fuel)%nat →
  digits_of fuel (int10 s) = s.
Proof.
  revert fuel. induction s as [|c s IH] using rev_ind; [done |]. intros fuel Hc Hf.
  destruct fuel as [|fuel]; [lia |]. cbn [digits_of]. destruct s as [|d s].
  - unfold canonical_decimal, isdecimal in Hc. simpl in *. b2p.
    change (int10 [c]) with (digit c). pose proof (digit_bound c ltac:(done)).
    destruct (digit c <? 10) eqn:E; b2p; [| lia]. by rewrite digit_chr_of.
  - apply canonical_app in Hc as (Hs & Hs0 & Hc); [| done].
    pose proof (canonical_lower _ Hs Hs0). pose proof (digit_bound c Hc). rewrite int10_app in *.
    destruct (_ <? 10) eqn:E; b2p; [lia |].
    rewrite Z.div_add_l, Z.div_small, Z.add_0_r by lia.
    rewrite IH; [| done |].
    + f_equal. rewrite Z.add_comm, Z.mod_add, Z.mod_small by lia. by rewrite digit_chr_of.
    + pose proof (log2_div10 (int10 (d :: s) * 10 + digit c)) as Hl.
      rewrite Z.div_add_l, Z.div_small, Z.add_0_r in Hl by lia. lia.
Qed.

Lemma str_int10 s : canonical_decimal s = true → str_of_Z (int10 s) = s.
Proof.
  intros Hs. assert (0 ≤ int10 s).
  { apply int10_nonneg. unfold canonical_decimal, isdecimal in Hs. b2p. done. }
  unfold str_of_Z, str_nonneg. destruct (_ <? 0) eqn:E; b2p; [lia |].
  apply digits_of_canonical; [done | lia].
Qed.

Lemma digits_of_head fuel n :
  0 < n → (Z.to_nat (Z.log2 n) < fuel)%nat → startswith (digits_of fuel n) "0" = false.
Proof.
  revert n. induction fuel as [|fuel IH]; intros n Hn Hf; [lia |]. cbn [digits_of].
  destruct (n <? 10) eqn:E; b2p.
  - simpl. rewrite bool_decide_false; [done |]. intros H.
    apply (f_equal digit) in H. rewrite digit_chr_digit in H by lia. cbv in H. lia.
  - specialize (IH (n / 10)). destruct (digits_of_int fuel (n / 10)) as (_ & _ & Hne).
    { apply Z.div_pos; lia. }
    { pose proof (log2_div10 n). lia. }
    destruct (digits_of fuel (n / 10)) as [|c s]; [done |]. simpl in *.
    apply IH; [apply Z.div_str_pos; lia |]. pose proof (log2_div10 n). lia.
Qed.

(** What [str] prints is canonical. *)
Lemma str_canonical n : 0 ≤ n → canonical_decimal (str_of_Z n) = true.
Proof.
  intros H. unfold canonical_decimal. rewrite str_isdecimal by done. rewrite andb_true_l.
  destruct (decide (n = 0)) as [->|]; [done |].
  unfold str_of_Z, str_nonneg. destruct (n <? 0) eqn:E; b2p; [lia |].
  by rewrite digits_of_head by lia.
Qed.

Lemma digits_of_length fuel n k :
  0 ≤ n < 10 ^ Z.of_nat (S k) → (length (digits_of fuel n) ≤ S k)%nat.
Proof.
  revert n k. induction fuel as [|fuel IH]; intros n k [Hn0 Hn]; simpl; [lia |].
  destruct (n <? 10) eqn:E; b2p; [simpl; lia |]. rewrite length_app. simpl.
  destruct k as [|k]; [simpl in Hn; lia |].
  assert (length (digits_of fuel (n / 10)) ≤ S k)%nat; [| lia]. apply IH. split.
  - apply Z.div_pos; lia.
  - apply Z.div_lt_upper_bound; [lia |]. rewrite Nat2Z.inj_succ, Z.pow_succ_r in Hn; lia.
Qed.

(** [len(str(n)) <= k] for [n < 10^k]. *)
Lemma str_length n k : 0 ≤ n < 10 ^ Z.of_nat (S k) → (length (str_of_Z n) ≤ S k)%nat.
Proof.
  intros H. unfold str_of_Z, str_nonneg. destruct (n <? 0) eqn:E; b2p; [lia |].
  by apply digits_of_length.
Qed.

Lemma str_of_Z_inj n m : 0 ≤ n → 0 ≤ m → str_of_Z n = str_of_Z m → n = m.
Proof. intros ?? H. by rewrite <-(int10_str n), <-(int10_str m), H. Qed.

(** ** Fixed-width integers *)
Lemma be_int_snoc b c : be_int (b ++ [c]) = be_int b * 256 + ord c.
Proof. unfold be_int. by rewrite foldl_app. Qed.

Lemma len_snoc {A} (l : list A) x : len (l ++ [x]) = len l + 1.
Proof. unfold len. rewrite length_app. simpl. lia. Qed.

Lemma len_nonneg {A} (l : list A) : 0 ≤ len l.
Proof. unfold len. lia. Qed.

Lemma be_int_app a b : be_int (a ++ b) = be_int a * 256 ^ len b + be_int b.
Proof.
  induction b as [|c b IH] using rev_ind.
  - rewrite app_nil_r. change (len []) with 0. change (be_int []) with 0. lia.
  - pose proof (len_nonneg b). rewrite app_assoc, !be_int_snoc, IH, len_snoc, Z.pow_add_r; lia.
Qed.

Lemma be_int_bound b : 0 ≤ be_int b < 256 ^ len b.
Proof.
  induction b as [|c b IH] using rev_ind; [by cbv |].
  pose proof (ord_range c). pose proof (len_nonneg b).
  rewrite be_int_snoc, len_snoc, Z.pow_add_r; lia.
Qed.

Lemma be_bytes_length w n : length (be_bytes w n) = w.
Proof. revert n. induction w as [|w IH]; intros n; simpl; [done |]. rewrite length_app, IH. simpl. lia. Qed.

(** [struct.unpack(">I", struct.pack(">I", n))]: reading back [w] bytes
    gives the integer modulo [256 ^ w]. *)
Lemma be_int_bytes w n : be_int (be_bytes w n) = n mod 256 ^ Z.of_nat w.
Proof.
  revert n. induction w as [|w IH]; intros n; simpl be_bytes.
  - change (256 ^ Z.of_nat 0) with 1. by rewrite Z.mod_1_r.
  - rewrite be_int_snoc, IH, ord_chr by (apply Z.mod_pos_bound; lia).
    rewrite Nat2Z.inj_succ, Z.pow_succ_r, Z.rem_mul_r by lia. lia.
Qed.

Lemma be_bytes_int b : be_bytes (length b) (be_int b) = b.
Proof.
  induction b as [|c b IH] using rev_ind; [done |].
  rewrite length_app, Nat.add_comm, be_int_snoc. simpl be_bytes. pose proof (ord_range c).
  rewrite Z.div_add_l, Z.div_small, Z.add_0_r, IH by lia.
  rewrite Z.add_comm, Z.mod_add, Z.mod_small, chr_ord by lia. done.
Qed.

Lemma le_int_bytes w n : le_int (le_bytes w n) = n mod 256 ^ Z.of_nat w.
Proof. unfold le_int, le_bytes. rewrite reverse_involutive. apply be_int_bytes. Qed.

Lemma le_int_bound b : 0 ≤ le_int b < 256 ^ len b.
Proof. unfold le_int, len. rewrite <-(length_reverse b). apply be_int_bound. Qed.

Create HintDb pystr.
Create Rewrite HintDb pystr.
#[export] Hint Resolve int10_nonneg str_canonical str_isdecimal be_int_bound le_int_bound : pystr.
#[export] Hint Rewrite be_bytes_length be_int_bytes le_int_bytes : pystr.

(** ** [repr] of a string *)
Definition is_printable (c : ascii) : bool :=
  between " " "~" c || ((160 <? ord c) && negb (ord c =? 173)).
Definition QUOTE : ascii := "'"%char.
Definition DQUOTE : ascii := "034"%char.
Definition BACKSLASH : ascii := "092"%char.
Definition repr_char (quote c : ascii) : pystr :=
  if (c == quote) || (c == BACKSLASH) then [BACKSLASH; c]
  else if c == LF then [BACKSLASH; "n"%char] else if c == CR then [BACKSLASH; "r"%char]
  else if c == "009"%char then [BACKSLASH; "t"%char]
  else if is_printable c then [c] else [BACKSLASH; "x"%char] ++ hex_fixed 2 (ord c).
Definition repr (s : pystr) : pystr :=
  let quote := if has_char QUOTE s && negb (has_char DQUOTE s) then DQUOTE else QUOTE in
  [quote] ++ concat (map (repr_char quote) s) ++ [quote].

(** [str] of a list of strings and of a list of pairs of strings. *)
Definition repr_list (l : list pystr) : pystr := "[" ++ join ", " (map repr l) ++ "]".
Definition repr_pairs (l : list (pystr * pystr)) : pystr :=
  "[" ++ join ", " (map (λ '(a, b), "(" ++ repr a ++ ", " ++ repr b ++ ")") l) ++ "]".

(** ** [sorted] of strings, by code points *)
Fixpoint pystr_le (a b : pystr) : bool :=
  match a, b with
  | [], _ => true
  | _ :: _, [] => false
  | x :: a, y :: b => (ord x <? ord y) || ((ord x =? ord y) && pystr_le a b)
  end.
Definition sorted (l : list pystr) : list pystr := merge_sort pystr_le l.

#[export] Instance pystr_le_total : Total pystr_le.
Proof.
  intros a. induction a as [|x a IH]; intros b; [by left; destruct b |].
  destruct b as [|y b]; [by right |]. simpl.
  destruct (Z.lt_total (ord x) (ord y)) as [H|[H|H]].
  - left. by rewrite (proj2 (Z.ltb_lt _ _) H).
  - rewrite H, Z.ltb_irrefl, Z.eqb_refl. simpl. apply IH.
  - right. by rewrite (proj2 (Z.ltb_lt _ _) H).
Qed.

Lemma pystr_le_cons x a y b :
  pystr_le (x :: a) (y :: b) ↔ ord x < ord y ∨ ord x = ord y ∧ pystr_le a b.
Proof. simpl. rewrite orb_True, andb_True, !Is_true_true. b2pg. done. Qed.

#[export] Instance pystr_le_trans : Transitive pystr_le.
Proof.
  intros a. induction a as [|x a IH]; intros b c H1 H2; [by destruct c |].
  destruct b as [|y b]; [done |]. destruct c as [|z c]; [done |].
  rewrite pystr_le_cons in *. destruct H1 as [?|[? H1]], H2 as [?|[? H2]]; try lia.
  right. split; [lia |]. by apply (IH b).
Qed.


#[export] Instance pystr_le_antisymm : AntiSymm (=) pystr_le.
Proof.
  intros a. induction a as [|x a IH]; intros [|y b] H1 H2; try done.
  rewrite pystr_le_cons in *. destruct H1 as [?|[? H1]], H2 as [?|[? H2]]; try lia.
  f_equal; [by apply ord_inj | by apply IH].
Qed.

(** Two lists sort to the same list iff they hold the same strings. *)
Lemma sorted_eq l1 l2 : sorted l1 = sorted l2 ↔ l1 ≡ₚ l2.
Proof.
  unfold sorted. split.
  - intros H. rewrite <-(merge_sort_Permutation pystr_le l1), H. apply merge_sort_Permutation.
  - intros H. apply (Sorted_unique pystr_le); [apply Sorted_merge_sort, _ | apply Sorted_merge_sort, _ |].
    by rewrite !merge_sort_Permutation.
Qed.

(** ** Slices of concatenations *)
Lemma slice_skip a b off n : len a ≤ off → slice (a ++ b) off n = slice b (off - len a) n.
Proof.
  intros H. unfold slice, len in *. f_equal. rewrite drop_app_ge by lia. f_equal. lia.
Qed.
Lemma slice_here a b n : n = len a → slice (a ++ b) 0 n = a.
Proof. intros ->. unfold slice, len. rewrite Nat2Z.id. change (Z.to_nat 0) with 0%nat. apply take_app_length. Qed.
Lemma slice_first a b off n : off = 0 → n = len a → slice (a ++ b) off n = a.
Proof. intros ->. apply slice_here. Qed.
Lemma slice_in a b off n : off + n ≤ len a → 0 ≤ off → 0 ≤ n → slice (a ++ b) off n = slice a off n.
Proof.
  intros H ? ?. unfold slice, len in *. rewrite drop_app_le by lia. rewrite take_app_le; [done |].
  rewrite length_drop. lia.
Qed.
Lemma slice_all a n : n = len a → slice a 0 n = a.
Proof. intros ->. unfold slice, len. rewrite Nat2Z.id. change (Z.to_nat 0) with 0%nat. rewrite drop_0. by apply firstn_all. Qed.
Lemma slice_length a off n : 0 ≤ off → 0 ≤ n → off + n ≤ len a → len (slice a off n) = n.
Proof. intros. unfold slice, len in *. rewrite length_take, length_drop. lia. Qed.
Lemma slice_slice a off n k m : 0 ≤ off → 0 ≤ k → k + m ≤ n → slice (slice a off n) k m = slice a (off + k) m.
Proof.
  intros ? ? ?. destruct (decide (m ≤ 0)).
  { unfold slice. by replace (Z.to_nat m) with 0%nat by lia. }
  unfold slice. rewrite skipn_firstn_comm, firstn_firstn, drop_drop. f_equal; [lia | f_equal; lia].
Qed.
Lemma len_app {A} (a b : list A) : len (a ++ b) = len a + len b.
Proof. unfold len. rewrite length_app. lia. Qed.
Lemma len_replicate {A} n (x : A) : len (replicate n x) = Z.of_nat n.
Proof. unfold len. by rewrite length_replicate. Qed.
Lemma le_bytes_len w n : len (le_bytes w n) = Z.of_nat w.
Proof. unfold len, le_bytes. by rewrite length_reverse, be_bytes_length. Qed.

Lemma splitlines_from_app cur a b :
  splitlines_from cur (a ++ LF :: b) = splitlines_from cur (a ++ [LF]) ++ splitlines_from [] b.
Proof.
  remember (length a) as n eqn:Hn. revert a cur Hn. induction (lt_wf n) as [n _ IH]. intros a cur ->.
  destruct a as [|c a]; [done |]. simpl. destruct (is_linebreak c) eqn:Ec; [| by apply (IH (length a)); simpl; lia].
  simpl. f_equal. destruct (c == CR) eqn:Er.
  - destruct a as [|d a]; simpl; [done |]. destruct (d == LF); [apply (IH (length a)); simpl; lia |].
    apply (IH (length (d :: a)) ltac:(simpl; lia) (d :: a)). done.
  - destruct a as [|d a]; simpl; [done |]. apply (IH (length (d :: a)) ltac:(simpl; lia) (d :: a)). done.
Qed.
Lemma splitlines_append data row :
  last data = Some LF → one_line row → splitlines (data ++ row ++ [LF]) = splitlines data ++ [row].
Proof.
  intros Hl Hr. apply last_Some in Hl as [a ->]. rewrite <-app_assoc. unfold splitlines. simpl.
  rewrite splitlines_from_app. f_equal. change (splitlines_from [] (row ++ [LF])) with (splitlines (row ++ [LF])).
  pose proof (splitlines_unlines [row]) as H. unfold unlines in H. simpl in H. rewrite app_nil_r in H. apply H. by constructor.
Qed.

(** [sorted] of pairs of strings. *)
Definition pair_le (a b : bytes * bytes) : Prop := if decide (a.1 = b.1) then pystr_le a.2 b.2 else pystr_le a.1 b.1.
#[export] Instance pair_le_dec : RelDecision pair_le.
Proof. intros a b. unfold pair_le. destruct (decide (a.1 = b.1)); apply _. Defined.

#[export] Instance pair_le_total : Total pair_le.
Proof. intros a b. unfold pair_le. destruct (decide (a.1 = b.1)), (decide (b.1 = a.1)); try congruence; apply pystr_le_total. Qed.
#[export] Instance pair_le_trans : Transitive pair_le.
Proof.
  intros a b c. unfold pair_le. intros H1 H2.
  destruct (decide (a.1 = b.1)) as [E1|N1], (decide (b.1 = c.1)) as [E2|N2], (decide (a.1 = c.1)) as [E3|N3]; try congruence.
  - by etrans.
  - destruct N1. apply (anti_symm pystr_le); [done |]. by rewrite E3.
  - by etrans.
Qed.
#[export] Instance pair_le_antisymm : AntiSymm (=) pair_le.
Proof.
  intros [a1 a2] [b1 b2]. unfold pair_le. simpl. destruct (decide (a1 = b1)), (decide (b1 = a1)); try congruence; intros.
  - f_equal; [done | by apply (anti_symm pystr_le)].
  - exfalso. by apply n, (anti_symm pystr_le).
Qed.

(** ** Hexadecimal strings *)
Lemma hex_fixed_length w n : length (hex_fixed w n) = w.
Proof. revert n. induction w as [|w IH]; intros n; [done |]. simpl. rewrite length_app, IH. simpl. lia. Qed.

Lemma hex_digit_is_hex d : 0 ≤ d < 16 → is_hex (hex_digit d) = true.
Proof.
  intros H. unfold hex_digit, is_hex, is_digit. destruct (d <? 10) eqn:E; b2p;
    rewrite orb_true_iff, !between_true, ord_chr by lia; [left | right];
    unfold ord; simpl; lia.
Qed.

Lemma hex_fixed_is_hex w n : Forall (λ c, is_hex c = true) (hex_fixed w n).
Proof.
  revert n. induction w as [|w IH]; intros n; [constructor |]. simpl.
  apply Forall_app. split; [apply IH |]. repeat constructor. apply hex_digit_is_hex, Z.mod_pos_bound. lia.
Qed.

(** A property of one character, by trying all 256. *)
Ltac by_ascii := intros [[] [] [] [] [] [] [] []]; vm_compute; try done; try (intros; split; congruence).
