(* ===== verification/PyData.v ===== *)
(** * Python's containers and paths

    A [dict] keyed by strings is the list of its items in insertion order; a
    relative [PurePosixPath] is the list of its parts.  Both with the lemmas
    the components share. *)

From S2P Require Import Prelude PyStr.

(** ** Membership *)
Definition is_in (x : pystr) (l : list pystr) : bool := existsb (λ y, y == x) l.

(** ** [dict] *)
Abbreviation dict V := (list (pystr * V)).
Fixpoint dget {V} (k : pystr) (d : dict V) : option V :=
  match d with [] => None | (k', v) :: d => if k' == k then Some v else dget k d end.
Definition dmem {V} (k : pystr) (d : dict V) : bool := is_in k d.*1.
(** [d[k] = v]: in place, or at the end. *)
Fixpoint dset {V} (k : pystr) (v : V) (d : dict V) : dict V :=
  match d with
  | [] => [(k, v)]
  | (k', v') :: d => if k' == k then (k', v) :: d else (k', v') :: dset k v d
  end.

Lemma dmem_spec {V} k (d : dict V) : dmem k d = true ↔ k ∈ d.*1.
Proof. unfold dmem, is_in. rewrite existsb_elem_of. setoid_rewrite bool_decide_eq_true. naive_solver. Qed.
Lemma is_in_elem x l : is_in x l = true ↔ x ∈ l.
Proof. unfold is_in. rewrite existsb_elem_of. setoid_rewrite bool_decide_eq_true. naive_solver. Qed.
Lemma dget_mem {V} k (d : dict V) : k ∈ d.*1 ↔ is_Some (dget k d).
Proof.
  induction d as [|[k' v] d IH]; simpl; [split; [set_solver | by intros []] |].
  rewrite elem_of_cons, IH. case_bool_decide; naive_solver.
Qed.
Lemma dget_elem {V} k (d : dict V) v : dget k d = Some v → (k, v) ∈ d.
Proof.
  induction d as [|[k' v'] d IH]; simpl; [done |]. case_bool_decide; [intros [= ->]; subst; by left |].
  intros. right. auto.
Qed.
Lemma dget_dset {V} k k' v (d : dict V) : dget k' (dset k v d) = if k == k' then Some v else dget k' d.
Proof.
  induction d as [|[k0 v0] d IH]; simpl; [by case_bool_decide |].
  destruct (decide (k0 = k)) as [->|Hne].
  - rewrite !(bool_decide_true (k = k)) by done. simpl. by case_bool_decide.
  - rewrite (bool_decide_false (k0 = k)) by done. simpl. rewrite IH.
    repeat case_bool_decide; congruence.
Qed.
Lemma dset_new {V} k v (d : dict V) : dget k d = None → dset k v d = d ++ [(k, v)].
Proof.
  induction d as [|[k' v'] d IH]; simpl; [done |]. case_bool_decide; [done |]. intros. by rewrite IH.
Qed.
Lemma dset_same {V} k v (d : dict V) : dget k d = Some v → dset k v d = d.
Proof.
  induction d as [|[k' v'] d IH]; simpl; [done |]. case_bool_decide; [by intros [= ->] |]. intros. by rewrite IH.
Qed.
Lemma dmem_false {V} k (d : dict V) : dmem k d = false ↔ k ∉ d.*1.
Proof. rewrite <- dmem_spec. by destruct (dmem k d). Qed.
Lemma dset_fresh {V} k v (d : dict V) : k ∉ d.*1 → dset k v d = d ++ [(k, v)].
Proof. intros H. apply dset_new. apply eq_None_not_Some. by rewrite <- dget_mem. Qed.
Lemma same_value {V} (l : dict V) k v v' : NoDup l.*1 → (k, v) ∈ l → (k, v') ∈ l → v = v'.
Proof.
  intros Hnd H H'. apply list_elem_of_lookup in H as [i Hi]. apply list_elem_of_lookup in H' as [j Hj].
  assert (l.*1 !! i = Some k) as Hi1 by (by rewrite list_lookup_fmap, Hi). assert (l.*1 !! j = Some k) as Hj1 by (by rewrite list_lookup_fmap, Hj).
  assert (i = j) as -> by (by eapply NoDup_lookup). congruence.
Qed.
Lemma dget_unique {V} (d : dict V) k v : NoDup d.*1 → dget k d = Some v ↔ (k, v) ∈ d.
Proof.
  intros Hnd. split; [apply dget_elem |]. intros H. assert (k ∈ d.*1) as Hk by (apply list_elem_of_fmap; by exists (k, v)).
  apply dget_mem in Hk as [v' Hv]. rewrite Hv. f_equal. by eapply same_value, H; [| apply dget_elem].
Qed.
Lemma NoDup_snoc {A} (l : list A) x : NoDup (l ++ [x]) ↔ x ∉ l ∧ NoDup l.
Proof.
  rewrite NoDup_app, NoDup_cons. split.
  - intros (Hl & Hd & _). split; [| done]. intros Hx. apply (Hd x Hx). by left.
  - intros [Hx Hl]. split; [done |]. split; [| by repeat constructor; intros ?%not_elem_of_nil].
    intros y Hy ->%list_elem_of_singleton. done.
Qed.
Lemma dset_keys_NoDup {V} k v (d : dict V) : NoDup d.*1 → NoDup (dset k v d).*1.
Proof.
  intros Hd. destruct (decide (k ∈ d.*1)) as [Hk|Hk].
  - assert ((dset k v d).*1 = d.*1) as ->; [| done]. clear Hd. induction d as [|[k' v'] d IH]; [by apply not_elem_of_nil in Hk |].
    simpl in *. case_bool_decide as Heq; [done |]. simpl. f_equal. apply IH. apply elem_of_cons in Hk as [->|]; done.
  - rewrite dset_fresh by done. rewrite fmap_app. by apply NoDup_snoc.
Qed.

(** ** Paths *)
Definition SLASH : ascii := "/"%char.
(** [PurePosixPath(name).parts] of a relative path, and [as_posix]. *)
Definition parts (name : pystr) : list pystr := filter (λ p, p ≠ [] ∧ p ≠ ["."%char]) (split_on SLASH name).
Definition as_posix (ps : list pystr) : pystr := if ps == [] then "." else join [SLASH] ps.

Lemma split_on_no_sep c s : Forall (λ p, c ∉ p) (split_on c s).
Proof.
  assert (∀ n s, (length s < n)%nat → Forall (λ p, c ∉ p) (split_on c s)) as H; [| apply (H (S (length s))); lia].
  clear s. induction n as [|n IH]; intros s Hs; [lia |]. destruct (decide (c ∈ s)) as [Hin|Hni].
  - apply list_elem_of_split_l in Hin as (a & b & -> & Ha). rewrite split_on_app by done. apply Forall_cons. split; [done |].
    apply IH. rewrite length_app in Hs. simpl in Hs. lia.
  - rewrite split_on_absent by done. by apply Forall_singleton.
Qed.
Lemma split_on_chars c s : Forall (λ p, ∀ d, d ∈ p → d ∈ s) (split_on c s).
Proof.
  assert (∀ n s, (length s < n)%nat → Forall (λ p, ∀ d, d ∈ p → d ∈ s) (split_on c s)) as H; [| apply (H (S (length s))); lia].
  clear s. induction n as [|n IH]; intros s Hs; [lia |]. destruct (decide (c ∈ s)) as [Hin|Hni].
  - apply list_elem_of_split_l in Hin as (a & b & -> & Ha). rewrite split_on_app by done. apply Forall_cons. split; [set_solver |].
    rewrite length_app in Hs. simpl in Hs. eapply Forall_impl; [apply (IH b); lia | set_solver].
  - rewrite split_on_absent by done. by apply Forall_singleton.
Qed.

(** Parts that [PurePosixPath] keeps as they are. *)
Definition plain_part (p : pystr) : Prop := p ≠ [] ∧ p ≠ ["."%char] ∧ (SLASH ∉ p).
Lemma parts_are_plain name : Forall plain_part (parts name).
Proof.
  apply Forall_forall. intros p (Hp & Hin)%list_elem_of_filter.
  pose proof (split_on_no_sep SLASH name) as Hs. rewrite Forall_forall in Hs. unfold plain_part. naive_solver.
Qed.
Lemma parts_join ps : Forall plain_part ps → ps ≠ [] → parts (join [SLASH] ps) = ps.
Proof.
  intros Hp Hn. unfold parts. rewrite split_join; [| done | eapply Forall_impl; [exact Hp | by intros p (_ & _ & ?)]].
  clear Hn. induction Hp as [|p ps (H1 & H2 & _) _ IH]; [done |]. rewrite filter_cons, decide_True by done. by rewrite IH.
Qed.

(** ** [bytes.decode('ascii')] *)
Definition decode_ascii (data : bytes) : res pystr :=
  refuse_if (negb (isascii data)) UnicodeError "'ascii' codec can't decode" ;; Ok data.

(** ** Reading lines back *)
Lemma lstrip_id p s : (∀ c, head s = Some c → p c = false) → lstrip_if p s = s.
Proof. destruct s as [|c s]; [done |]. intros H. simpl. by rewrite (H c eq_refl). Qed.
Lemma head_reverse {A} (l : list A) : head (reverse l) = last l.
Proof. by rewrite <- (reverse_involutive l) at 2; rewrite last_reverse. Qed.
(** Text that white space neither starts nor ends. *)
Definition tight (s : pystr) : Prop := (∀ c, head s = Some c → is_space c = false) ∧ (∀ c, last s = Some c → is_space c = false).
Lemma strip_tight s : tight s → strip s = s.
Proof.
  intros [Hh Hl]. unfold strip. rewrite (lstrip_id _ s Hh), lstrip_id, reverse_involutive; [done |].
  intros c. rewrite head_reverse. apply Hl.
Qed.
Lemma strip_line s : s ≠ [] → tight s → strip (s ++ [LF]) = s.
Proof.
  intros Hs [Hh Hl]. unfold strip. rewrite (lstrip_id is_space (s ++ [LF])).
  2: { intros c. destruct s as [|d s]; [done |]. apply Hh. }
  rewrite reverse_app. change (reverse [LF] ++ reverse s) with (LF :: reverse s). simpl lstrip_if.
  change (is_space LF) with true. cbn match. rewrite lstrip_id, reverse_involutive; [done |].
  intros c. rewrite head_reverse. apply Hl.
Qed.
Lemma splitlines_from_end cur s : is_Some (last s) → (∀ c, last s = Some c → is_linebreak c = false) →
  splitlines_from cur (s ++ [LF]) = splitlines_from cur s.
Proof.
  remember (length s) as n eqn:Hn. assert (length s ≤ n)%nat as Hle by lia. clear Hn.
  revert cur s Hle. induction n as [|n IH]; intros cur [|c s] Hle [d Hd] Hl; simpl in Hle; [done | lia | done |].
  destruct s as [|c' s].
  - simpl in *. rewrite (Hl c eq_refl). simpl. by rewrite bool_decide_false by (by destruct cur).
  - change ((c :: c' :: s) ++ [LF]) with (c :: (c' :: s) ++ [LF]). cbn [splitlines_from].
    assert (∀ x, last (c' :: s) = Some x → is_linebreak x = false) as Hl' by (intros x Hx; by apply Hl).
    assert (is_Some (last (c' :: s))) as Hs' by (by exists d).
    destruct (is_linebreak c) eqn:Ec; [| apply IH; simpl in *; [lia | done | done]].
    f_equal. cbn [app]. destruct (c == CR); [| apply (IH [] (c' :: s)); simpl in *; [lia | done | done]].
    destruct (bool_decide_reflect (c' = LF)) as [->|Hne]; [| apply (IH [] (c' :: s)); simpl in *; [lia | done | done]].
    destruct s as [|c'' s]; [by specialize (Hl' LF eq_refl) |]. apply (IH [] (c'' :: s)); simpl in *; [lia | done | done].
Qed.
Lemma words_from_word cur w s : Forall (λ c, is_space c = false) w → words_from cur (w ++ s) = words_from (cur ++ w) s.
Proof.
  revert cur. induction w as [|c w IH]; intros cur Hw; simpl; [by rewrite app_nil_r |].
  apply Forall_cons in Hw as [-> Hw]. rewrite IH by done. by rewrite <- app_assoc.
Qed.
Lemma split_ws_two a b : a ≠ [] → b ≠ [] → Forall (λ c, is_space c = false) a → Forall (λ c, is_space c = false) b →
  split_ws (a ++ " "%char :: b) = [a; b].
Proof.
  intros Ha Hb Hsa Hsb. unfold split_ws. rewrite words_from_word by done. simpl. rewrite bool_decide_false by done. simpl. f_equal.
  rewrite <- (app_nil_r b) at 1. rewrite words_from_word by done. simpl. by rewrite bool_decide_false.
Qed.

(** ** [data[i:j]], bounds below zero counting from the end *)
Definition clip (n i : Z) : Z := if i <? 0 then Z.max 0 (i + n) else Z.min i n.
Definition py_slice (data : bytes) (i j : Z) : bytes :=
  let lo := clip (len data) i in slice data lo (clip (len data) j - lo).

(** ** [int(b, 16)]: white space around, a sign, [0x], single underscores
    between digits *)
Definition bspace (c : ascii) : bool := between "009" "013" c || (c == " "%char).
Fixpoint hex_body (acc : Z) (digit_before : bool) (s : bytes) : option Z :=
  match s with
  | [] => if digit_before then Some acc else None
  | c :: s' =>
      if is_hex_any c then hex_body (acc * 16 + hex_val c) true s'
      else if (c == "_"%char) && digit_before then
        match s' with d :: _ => if is_hex_any d then hex_body acc false s' else None | [] => None end
      else if digit_before && forallb bspace s then Some acc else None
  end.
Definition hex_prefix (s : bytes) : bytes :=
  if startswith s "0x" || startswith s "0X" then
    match drop 2 s with c :: t => if c == "_"%char then t else c :: t | [] => [] end
  else s.
Definition int_16 (b : bytes) : option Z :=
  match lstrip_if bspace b with
  | c :: s => if c == "-"%char then Z.opp <$> hex_body 0 false (hex_prefix s)
              else if c == "+"%char then hex_body 0 false (hex_prefix s)
              else hex_body 0 false (hex_prefix (c :: s))
  | [] => None
  end.

(** ** [f'{v:08x}'] *)
Definition hex_nonneg (n : Z) : pystr := hex_fixed (Z.to_nat (Z.log2 n / 4 + 1)) n.
Definition zfill (w : Z) (s : pystr) : pystr := replicate (Z.to_nat (w - len s)) "0"%char ++ s.
Definition format_08x (v : Z) : pystr :=
  if v <? 0 then "-"%char :: zfill 7 (hex_nonneg (- v)) else zfill 8 (hex_nonneg v).

(** ** [bytes.decode('utf-8')]
    A [str] is kept as its UTF-8 encoding, whose order is that of the code
    points; decoding is a check.  [utf8_char s] is the length of the first
    character, or of the longest start of one that stands before the error. *)
Definition utf8_lead (c : ascii) : option (nat * (Z * Z)) :=
  let o := ord c in
  if o <? 128 then Some (0%nat, (128, 191))
  else if o <? 194 then None
  else if o <? 224 then Some (1%nat, (128, 191))
  else if o =? 224 then Some (2%nat, (160, 191))
  else if o =? 237 then Some (2%nat, (128, 159))
  else if o <? 240 then Some (2%nat, (128, 191))
  else if o =? 240 then Some (3%nat, (144, 191))
  else if o <? 244 then Some (3%nat, (128, 191))
  else if o =? 244 then Some (3%nat, (128, 143))
  else None.
Fixpoint utf8_tail (n : nat) (range : Z * Z) (s : bytes) : bool * nat :=
  match n with
  | O => (true, 0%nat)
  | S n =>
      match s with
      | c :: s => if (range.1 <=? ord c) && (ord c <=? range.2)
                  then let '(ok, k) := utf8_tail n (128, 191) s in (ok, S k) else (false, 0%nat)
      | [] => (false, 0%nat)
      end
  end.
Definition utf8_char (c : ascii) (s : bytes) : bool * nat :=
  match utf8_lead c with Some (n, range) => utf8_tail n range s | None => (false, 0%nat) end.
(** [skip] characters of the current one are left to read. *)
Fixpoint utf8_valid (skip : nat) (s : bytes) : bool :=
  match s with
  | [] => true
  | c :: s => match skip with
              | S skip => utf8_valid skip s
              | O => let '(ok, k) := utf8_char c s in ok && utf8_valid k s
              end
  end.
Definition decode_utf8 (b : bytes) : res pystr :=
  refuse_if (negb (utf8_valid 0 b)) UnicodeError "'utf-8' codec can't decode" ;; Ok b.
(** [errors='replace']: the start of a character that ends in an error
    becomes U+FFFD. *)
Definition REPLACEMENT : pystr := ["239"%char; "191"%char; "189"%char].
Fixpoint decode_replace_from (keep : bool) (skip : nat) (s : bytes) : pystr :=
  match s with
  | [] => []
  | c :: s => match skip with
              | S skip => (if keep then [c] else []) ++ decode_replace_from keep skip s
              | O => let '(ok, k) := utf8_char c s in
                     (if (ok : bool) then [c] else REPLACEMENT) ++ decode_replace_from ok k s
              end
  end.
Definition decode_replace (b : bytes) : pystr := decode_replace_from true 0 b.

(** ** [s.count(t)], [s.replace(t, u)] for a non-empty [t] *)
Fixpoint replace_from (skip : nat) (t u : pystr) (s : pystr) : pystr :=
  match s with
  | [] => []
  | c :: s' => match skip with
               | S skip => replace_from skip t u s'
               | O => if startswith s t then u ++ replace_from (pred (length t)) t u s' else c :: replace_from 0 t u s'
               end
  end.
Definition py_replace (t u s : pystr) : pystr := replace_from 0 t u s.
Fixpoint count_from (skip : nat) (t : pystr) (s : pystr) : Z :=
  match s with
  | [] => 0
  | c :: s' => match skip with
               | S skip => count_from skip t s'
               | O => if startswith s t then 1 + count_from (pred (length t)) t s' else count_from 0 t s'
               end
  end.
Definition count (t s : pystr) : Z := count_from 0 t s.

(** ** Hexadecimal round trip *)
Lemma hex_val_digit d : 0 ≤ d < 16 → hex_val (hex_digit d) = d.
Proof.
  intros H. unfold hex_val, hex_digit, is_digit. destruct (d <? 10) eqn:E; b2p.
  - rewrite (proj2 (between_true _ _ _)); rewrite ord_chr by lia; [lia | unfold ord; simpl; lia].
  - rewrite (proj2 (between_false _ _ _)) by (rewrite ord_chr by lia; unfold ord; simpl; lia).
    rewrite (proj2 (between_true _ _ _)); rewrite ord_chr by lia; [lia | unfold ord; simpl; lia].
Qed.
Lemma int16_hex_fixed w n : int16 (hex_fixed w n) = n mod 16 ^ Z.of_nat w.
Proof.
  revert n. induction w as [|w IH]; intros n; [simpl; by rewrite Z.mod_1_r |]. simpl hex_fixed. unfold int16.
  rewrite foldl_app. simpl. fold (int16 (hex_fixed w (n / 16))). rewrite IH.
  rewrite hex_val_digit by (apply Z.mod_pos_bound; lia).
  rewrite Nat2Z.inj_succ, Z.pow_succ_r, Z.rem_mul_r by lia. lia.
Qed.
Lemma hex_fixed_pad j k n : 0 ≤ n < 16 ^ Z.of_nat k → hex_fixed (j + k) n = replicate j "0"%char ++ hex_fixed k n.
Proof.
  revert n. induction k as [|k IH]; intros n Hn.
  - simpl in Hn. assert (n = 0) as -> by lia. rewrite Nat.add_0_r, app_nil_r. induction j as [|j IH]; [done |].
    change (hex_fixed (S j) 0) with (hex_fixed j 0 ++ ["0"%char]). by rewrite IH, <-replicate_S_end.
  - rewrite Nat.add_succ_r. simpl. rewrite IH, app_assoc; [done |]. rewrite Nat2Z.inj_succ, Z.pow_succ_r in Hn by lia.
    split; [apply Z.div_pos; lia | apply Z.div_lt_upper_bound; lia].
Qed.
Lemma format_08x_fixed v : 0 ≤ v < 2 ^ 32 → format_08x v = hex_fixed 8 v.
Proof.
  intros Hv. unfold format_08x. rewrite (proj2 (Z.ltb_ge v 0)) by lia. unfold zfill, hex_nonneg.
  set (k := Z.to_nat (Z.log2 v / 4 + 1)). pose proof (Z.log2_nonneg v) as H0.
  assert (0 ≤ Z.log2 v / 4 < 8) as Hk.
  { split; [apply Z.div_pos; lia |]. apply Z.div_lt_upper_bound; [lia |]. destruct (decide (v = 0)) as [->|]; [done |].
    apply Z.log2_lt_pow2; lia. }
  assert (v < 16 ^ Z.of_nat k) as Hlt.
  { subst k. rewrite Z2Nat.id by lia. change 16 with (2 ^ 4). rewrite <-Z.pow_mul_r by lia.
    destruct (decide (v = 0)) as [->|]; [by apply Z.pow_pos_nonneg; lia |]. apply Z.log2_lt_pow2; [lia |].
    pose proof (Z.div_mod (Z.log2 v) 4 ltac:(lia)). pose proof (Z.mod_pos_bound (Z.log2 v) 4 ltac:(lia)). lia. }
  replace (hex_fixed 8 v) with (hex_fixed ((8 - k) + k) v) by (f_equal; lia). rewrite hex_fixed_pad by lia. unfold len. rewrite hex_fixed_length.
  do 2 f_equal. lia.
Qed.
Lemma hex_body_all acc b s : Forall (λ c, is_hex_any c = true) s →
  hex_body acc b s = if b || negb (s == []) then Some (foldl (λ acc c, acc * 16 + hex_val c) acc s) else None.
Proof.
  revert acc b. induction s as [|c s IH]; intros acc b Hs; [by destruct b |]. apply Forall_cons in Hs as [Hc Hs].
  simpl hex_body. rewrite Hc, IH by done. simpl. by rewrite orb_true_r.
Qed.
Lemma int_16_all s : s ≠ [] → Forall (λ c, is_hex_any c = true) s → int_16 s = Some (int16 s).
Proof.
  intros Hn Hs. unfold int_16. destruct s as [|c s]; [done |]. apply Forall_cons in Hs as Hc. destruct Hc as [Hc Hs'].
  assert (∀ d, is_hex_any d = true → bspace d = false ∧ d ≠ "-"%char ∧ d ≠ "+"%char ∧ d ≠ "x"%char ∧ d ≠ "X"%char) as Hd.
  { clear. intros [[] [] [] [] [] [] [] []]; vm_compute; try done; intros _; split_and!; congruence. }
  destruct (Hd c Hc) as (Hsp & Hm & Hp & _). simpl lstrip_if. rewrite Hsp, !bool_decide_false by done.
  assert (hex_prefix (c :: s) = c :: s) as ->.
  { unfold hex_prefix. assert (∀ x, x = "x"%char ∨ x = "X"%char → startswith (c :: s) ["0"%char; x] = false) as H.
    { intros x Hx. apply not_true_is_false. intros (t & Ht)%startswith_spec. injection Ht as _ ->.
      apply Forall_cons in Hs' as [Hx' _]. apply Hd in Hx'. naive_solver. }
    change (startswith (c :: s) "0x") with (startswith (c :: s) ["0"%char; "x"%char]).
    change (startswith (c :: s) "0X") with (startswith (c :: s) ["0"%char; "X"%char]). by rewrite !H by naive_solver. }
  rewrite hex_body_all by done. done.
Qed.
Lemma int_16_format v : 0 ≤ v < 2 ^ 32 → int_16 (format_08x v) = Some v.
Proof.
  intros Hv. rewrite format_08x_fixed by done. rewrite int_16_all.
  - rewrite int16_hex_fixed, Z.mod_small by done. done.
  - intros H. apply (f_equal length) in H. by rewrite hex_fixed_length in H.
  - eapply Forall_impl; [apply hex_fixed_is_hex |]. intros c H. unfold is_hex_any. by rewrite H.
Qed.

(** ** Slices *)
Lemma py_slice_in data i j : 0 ≤ i ≤ j → j ≤ len data → py_slice data i j = slice data i (j - i).
Proof. intros ? ?. unfold py_slice, clip. rewrite !(proj2 (Z.ltb_ge _ 0)), !Z.min_l by lia. done. Qed.
