(* ===== verification/Posix.v ===== *)
(** * The operating system under the host tools

    The file system calls the programs make, as an executable state monad.
    A world holds the inodes, the names, the descriptors of the one process
    modelled, and three oracles indexed by the number of system calls made:
    what other processes do to the file system just before the call
    ([w_env]), whether the call fails ([w_fail]), and how many bytes a
    transfer moves at most ([w_chunk]).  A theorem over all worlds therefore
    covers every interleaving, every failing call and every split of a
    transfer.  [close], [fstat] and [lseek] of an open descriptor do not fail.

    Not modelled: permission checks on access (the tools run as the owner;
    a refusal is a failing call), link targets (every [open] of the programs
    passes [O_NOFOLLOW]) and the walk of an absolute path, which is a table
    from the path to the inode of its last component. *)

From S2P Require Import Prelude PyStr.

(** ** State *)
Inductive kind := Reg | Dir | Lnk | Special.
#[export] Instance kind_eq_dec : EqDecision kind.
Proof. solve_decision. Defined.

(** [st_dev] and [st_ino]. *)
Abbreviation key := (Z * Z)%type.

Record inode := Inode {
  i_kind : kind;
  i_perm : Z;
  i_uid : Z;
  i_nlink : Z;
  i_mtime : Z;
  i_ctime : Z;
  i_data : bytes;
  i_entries : gmap pystr key
}.

Inductive lock := LOCK_SH | LOCK_EX.
#[export] Instance lock_eq_dec : EqDecision lock.
Proof. solve_decision. Defined.

Record fs := Fs {
  f_inodes : gmap key inode;
  f_names : gmap pystr key;
  f_locks : gmap key lock;          (* locks other processes hold *)
  f_clock : Z
}.

Record fd := Fd { d_key : key; d_off : nat; d_lock : option lock }.

Record world := World {
  w_fs : fs;
  w_fds : gmap Z fd;
  w_tick : nat;
  w_euid : Z;
  w_env : nat → fs → fs;
  w_fail : nat → bool;
  w_chunk : nat → Z
}.

Definition set_fs (f : fs) (w : world) : world :=
  World f w.(w_fds) w.(w_tick) w.(w_euid) w.(w_env) w.(w_fail) w.(w_chunk).
Definition set_fds (d : gmap Z fd) (w : world) : world :=
  World w.(w_fs) d w.(w_tick) w.(w_euid) w.(w_env) w.(w_fail) w.(w_chunk).
Definition set_inodes (m : gmap key inode) (f : fs) : fs :=
  Fs m f.(f_names) f.(f_locks) f.(f_clock).
Definition put_inode (k : key) (i : inode) (w : world) : world :=
  set_fs (set_inodes (<[k := i]> w.(w_fs).(f_inodes)) w.(w_fs)) w.

(** ** The monads
    [io] runs on the world; [proc S] on the local variables of a Python
    function, a record [S], and the world, so that a [finally] clause sees the
    variables as the failed body left them. *)
Abbreviation io := (M world).
Abbreviation proc S := (M (S * world)).

Definition sys {S A} (m : io A) : proc S A := λ '(s, w), let '(r, w') := m w in (r, (s, w')).
Definition local {S A} (s : S) (m : proc S A) : io A := λ w, let '(r, (_, w')) := m (s, w) in (r, w').
Definition vars {S A} (k : S → proc S A) : proc S A := λ '(s, w), k s (s, w).
Definition assign {S} (f : S → S) : proc S unit := λ '(s, w), (Ok (), (f s, w)).

(** ** System calls *)
Definition enter (w : world) : world :=
  World (w.(w_env) w.(w_tick) w.(w_fs)) w.(w_fds) (S w.(w_tick)) w.(w_euid) w.(w_env) w.(w_fail) w.(w_chunk).

(** A call that cannot fail on a descriptor the process holds. *)
Definition syscall {A} (f : io A) : io A := λ w, f (enter w).
(** A call that may fail; [n] is the tick at which it was made. *)
Definition syscall_may {A} (f : nat → io A) : io A := λ w,
  if w.(w_fail) w.(w_tick) then (Raise (Exn OSError "Input/output error"), enter w)
  else f w.(w_tick) (enter w).

(** What is left of an inode that another process removed: no links. *)
Definition gone : inode := Inode Special 0 0 0 0 0 [] ∅.

Definition fd_inode (d : Z) (w : world) : option (fd * inode) :=
  f ← w.(w_fds) !! d; Some (f, default gone (w.(w_fs).(f_inodes) !! f.(d_key))).

Definition with_fd {A} (d : Z) (k : fd → inode → io A) : io A := λ w,
  match fd_inode d w with
  | Some (f, i) => k f i w
  | None => (Raise (Exn OSError "Bad file descriptor"), w)
  end.

Definition close (d : Z) : io unit := syscall (λ w, (Ok (), set_fds (delete d w.(w_fds)) w)).

Record stat_result := Stat {
  st_dev : Z; st_ino : Z; st_kind : kind; st_perm : Z; st_nlink : Z; st_uid : Z;
  st_size : Z; st_mtime_ns : Z; st_ctime_ns : Z
}.
#[export] Instance stat_result_eq_dec : EqDecision stat_result.
Proof. solve_decision. Defined.

Definition stat_of (k : key) (i : inode) : stat_result :=
  Stat k.1 k.2 i.(i_kind) i.(i_perm) i.(i_nlink) i.(i_uid) (len i.(i_data)) i.(i_mtime) i.(i_ctime).

Definition fstat (d : Z) : io stat_result :=
  syscall (with_fd d (λ f i, mret (stat_of f.(d_key) i))).

Definition set_off (d : Z) (f : fd) (o : nat) : io unit := λ w,
  (Ok (), set_fds (<[d := Fd f.(d_key) o f.(d_lock)]> w.(w_fds)) w).

(** [os.lseek(d, 0, SEEK_SET)] *)
Definition rewind (d : Z) : io unit := syscall (with_fd d (λ f _, set_off d f 0)).

(** [os.read(d, n)]: at most [n] bytes from the offset, at least one unless
    the file ends there. *)
Definition read (d : Z) (n : Z) : io bytes :=
  syscall_may (λ t, with_fd d (λ f i w,
    let rest := drop f.(d_off) i.(i_data) in
    let block := take (Z.to_nat (Z.min (len rest) (Z.min n (Z.max 1 (w.(w_chunk) t))))) rest in
    (set_off d f (f.(d_off) + length block) ;; mret block) w)).

(** [os.write(d, payload)]: a prefix of the payload is written. *)
Definition write (d : Z) (payload : bytes) : io Z :=
  syscall_may (λ t, with_fd d (λ f i w,
    let n := Z.to_nat (Z.min (len payload) (w.(w_chunk) t)) in
    let data := take f.(d_off) i.(i_data) ++ take n payload ++ drop (f.(d_off) + n) i.(i_data) in
    let c := w.(w_fs).(f_clock) in
    let i' := Inode i.(i_kind) i.(i_perm) i.(i_uid) i.(i_nlink) c c data i.(i_entries) in
    (set_off d f (f.(d_off) + n) ;; mret (Z.of_nat n)) (put_inode f.(d_key) i' w))).

Definition fchmod (d : Z) (perm : Z) : io unit :=
  syscall_may (λ _, with_fd d (λ f i w,
    let i' := Inode i.(i_kind) perm i.(i_uid) i.(i_nlink) i.(i_mtime) w.(w_fs).(f_clock) i.(i_data) i.(i_entries) in
    (Ok (), put_inode f.(d_key) i' w))).

Definition fsync (d : Z) : io unit := syscall_may (λ _, with_fd d (λ _ _, mret ())).

(** [fcntl.flock(d, l | LOCK_NB)] *)
Definition flock (d : Z) (l : lock) : io unit :=
  syscall_may (λ _, with_fd d (λ f i w,
    match w.(w_fs).(f_locks) !! f.(d_key), l with
    | Some LOCK_EX, _ | Some LOCK_SH, LOCK_EX => (Raise (Exn OSError "Resource temporarily unavailable"), w)
    | _, _ => (Ok (), set_fds (<[d := Fd f.(d_key) f.(d_off) (Some l)]> w.(w_fds)) w)
    end)).

Definition listdir (d : Z) : io (list pystr) :=
  syscall_may (λ _, with_fd d (λ _ i, mret (map_to_list i.(i_entries)).*1)).

(** ** Names *)
Inductive oflag := O_DIRECTORY | O_NOFOLLOW | O_NOATIME | O_CREAT | O_EXCL.
#[export] Instance oflag_eq_dec : EqDecision oflag.
Proof. solve_decision. Defined.

(** The directory a name is looked up in, and the inode it names. *)
Definition resolve (dir_fd : option Z) (path : pystr) (w : world) : option key :=
  match dir_fd with
  | None => w.(w_fs).(f_names) !! path
  | Some d =>
      '(f, i) ← fd_inode d w;
      if path == "." then Some f.(d_key) else i.(i_entries) !! path
  end.

Definition new_fd (k : key) : io Z := λ w,
  let d := fresh (dom w.(w_fds)) in (Ok d, set_fds (<[d := Fd k 0 None]> w.(w_fds)) w).

(** A new inode under [name] in the directory of descriptor [d]. *)
Definition create (d : Z) (name : pystr) (kd : kind) (perm : Z) : io key :=
  with_fd d (λ f i w,
    let dev := f.(d_key).1 in
    let ino := fresh (set_map snd (dom w.(w_fs).(f_inodes)) : gset Z) in
    let k := (dev, ino) in
    let c := w.(w_fs).(f_clock) in
    let node := Inode kd (Z.land perm (Z.lnot 63)) w.(w_euid) 1 c c [] ∅ in
    let parent := Inode i.(i_kind) i.(i_perm) i.(i_uid) i.(i_nlink) c c i.(i_data) (<[name := k]> i.(i_entries)) in
    (Ok k, put_inode k node (put_inode f.(d_key) parent w))).

(** [os.open(path, flags, mode, dir_fd=dir_fd)] under [umask 077]. *)
Definition open_ (dir_fd : option Z) (path : pystr) (flags : list oflag) (mode : Z) : io Z :=
  syscall_may (λ _ w,
    match resolve dir_fd path w with
    | Some k =>
        if bool_decide (O_EXCL ∈ flags) then (Raise (Exn FileExistsError "File exists"), w) else
        match w.(w_fs).(f_inodes) !! k with
        | None => (Raise (Exn FileNotFoundError "No such file or directory"), w)
        | Some i =>
            if i.(i_kind) == Lnk then (Raise (Exn OSError "Too many levels of symbolic links"), w)
            else if bool_decide (O_DIRECTORY ∈ flags) && (i.(i_kind) != Dir)
            then (Raise (Exn OSError "Not a directory"), w)
            else new_fd k w
        end
    | None =>
        match dir_fd with
        | Some d => if bool_decide (O_CREAT ∈ flags) then (k ← create d path Reg mode; new_fd k) w
                    else (Raise (Exn FileNotFoundError "No such file or directory"), w)
        | None => (Raise (Exn FileNotFoundError "No such file or directory"), w)
        end
    end).

(** [os.mkdir(name, mode, dir_fd=d)] *)
Definition mkdir (d : Z) (name : pystr) (mode : Z) : io unit :=
  syscall_may (λ _ w,
    match resolve (Some d) name w with
    | Some _ => (Raise (Exn FileExistsError "File exists"), w)
    | None => (create d name Dir mode ;; mret ()) w
    end).

Definition drop_entry (d : Z) (name : pystr) : io unit :=
  with_fd d (λ f i w,
    let c := w.(w_fs).(f_clock) in
    (Ok (), put_inode f.(d_key) (Inode i.(i_kind) i.(i_perm) i.(i_uid) i.(i_nlink) c c i.(i_data) (delete name i.(i_entries))) w)).

(** [os.unlink(name, dir_fd=d)] *)
Definition unlink (d : Z) (name : pystr) : io unit :=
  syscall_may (λ _ w,
    match resolve (Some d) name w with
    | None => (Raise (Exn FileNotFoundError "No such file or directory"), w)
    | Some k =>
        match w.(w_fs).(f_inodes) !! k with
        | Some i => if i.(i_kind) == Dir then (Raise (Exn OSError "Is a directory"), w) else
            drop_entry d name (put_inode k (Inode i.(i_kind) i.(i_perm) i.(i_uid) (i.(i_nlink) - 1) i.(i_mtime) w.(w_fs).(f_clock) i.(i_data) i.(i_entries)) w)
        | None => drop_entry d name w
        end
    end).

(** [os.rmdir(name, dir_fd=d)] *)
Definition rmdir (d : Z) (name : pystr) : io unit :=
  syscall_may (λ _ w,
    match resolve (Some d) name w with
    | None => (Raise (Exn FileNotFoundError "No such file or directory"), w)
    | Some k =>
        match w.(w_fs).(f_inodes) !! k with
        | Some i =>
            if i.(i_kind) != Dir then (Raise (Exn OSError "Not a directory"), w)
            else if i.(i_entries) != ∅ then (Raise (Exn OSError "Directory not empty"), w)
            else drop_entry d name w
        | None => drop_entry d name w
        end
    end).

(** [renameat2(d, src, d, dst, RENAME_NOREPLACE)] *)
Definition renameat2_noreplace (d : Z) (src dst : pystr) : io unit :=
  syscall_may (λ _ w,
    match resolve (Some d) src w, resolve (Some d) dst w with
    | None, _ => (Raise (Exn FileNotFoundError "No such file or directory"), w)
    | Some _, Some _ => (Raise (Exn FileExistsError "File exists"), w)
    | Some k, None =>
        with_fd d (λ f i w,
          let c := w.(w_fs).(f_clock) in
          (Ok (), put_inode f.(d_key) (Inode i.(i_kind) i.(i_perm) i.(i_uid) i.(i_nlink) c c i.(i_data)
                    (<[dst := k]> (delete src i.(i_entries)))) w)) w
    end).

(** ** Descriptor accounting *)
Definition fds (w : world) : gset Z := dom w.(w_fds).

(** Code that leaves the set of open descriptors alone, on every outcome. *)
Definition keeps {A} (m : io A) : Prop := ∀ w, fds (m w).2 = fds w.

Lemma keeps_wp {A} (m : io A) (Q : res A → world → Prop) w :
  keeps m → (∀ r w', fds w' = fds w → Q r w') → wp m Q w.
Proof. intros H HQ. unfold wp. apply HQ, H. Qed.

Lemma keeps_of_wp {A} (m : io A) : (∀ w, wp m (λ _ w', fds w' = fds w) w) → keeps m.
Proof. intros H w. apply H. Qed.

Lemma keeps_bind {A B} (m : io A) (f : A → io B) : keeps m → (∀ a, keeps (f a)) → keeps (m ≫= f).
Proof.
  intros Hm Hf w. specialize (Hm w). unfold mbind, M_mbind. destruct (m w) as [[a|e] w']; simpl in *; [| done].
  by rewrite Hf.
Qed.
Lemma keeps_lift {A} (r : res A) : keeps (lift r).
Proof. done. Qed.
Lemma keeps_mret {A} (a : A) : keeps (mret a).
Proof. done. Qed.
Lemma keeps_catch {A} (m : io A) cs h : keeps m → (∀ e, keeps (h e)) → keeps (catch m cs h).
Proof.
  intros Hm Hh w. specialize (Hm w). unfold catch. destruct (m w) as [[a|e] w']; simpl in *; [done |].
  destruct (cs _); [by rewrite Hh | done].
Qed.
Lemma keeps_os_or {A} (m : io A) c msg : keeps m → keeps (os_or m c msg).
Proof. intros H. apply keeps_catch; [done | intros; apply keeps_lift]. Qed.
Lemma keeps_each {A} (f : A → io unit) l : (∀ x, keeps (f x)) → keeps (each f l).
Proof.
  intros Hf w. revert w. induction l as [|x l IH]; intros w; [done |]. simpl. specialize (Hf x w).
  destruct (f x w) as [[?|?] w']; simpl in *; [by rewrite IH | done].
Qed.
Lemma keeps_finally {A} (m : io A) f : keeps m → keeps f → keeps (finally m f).
Proof.
  intros Hm Hf w. specialize (Hm w). unfold finally. destruct (m w) as [r w'].
  specialize (Hf w'). destruct (f w') as [[?|?] w'']; simpl in *; by rewrite Hf.
Qed.
Lemma keeps_rounds {S A} p (step : S → io (S + A)) s : (∀ s, keeps (step s)) → keeps (rounds p step s).
Proof.
  intros H. revert s. induction p as [p IH|p IH|]; intros s; simpl; [| | done].
  - apply keeps_bind; [done |]. intros [s1|a]; [| done]. apply keeps_bind; [done |]. intros [s2|a]; done.
  - apply keeps_bind; [done |]. intros [s1|a]; done.
Qed.
Lemma keeps_while {S A} p (step : S → io (S + A)) s : (∀ s, keeps (step s)) → keeps (while p step s).
Proof. intros H. apply keeps_bind; [by apply keeps_rounds |]. by intros [s'|a]. Qed.
Lemma keeps_syscall {A} (f : io A) : keeps f → keeps (syscall f).
Proof. intros H w. unfold syscall. by rewrite H. Qed.
Lemma keeps_syscall_may {A} (f : nat → io A) : (∀ t, keeps (f t)) → keeps (syscall_may f).
Proof. intros H w. unfold syscall_may. destruct (w_fail _ _); [done | by rewrite H]. Qed.

(** Acting on a descriptor's own entry keeps the set. *)
Lemma keeps_with_fd {A} d (k : fd → inode → io A) :
  (∀ f i w, d ∈ fds w → fds (k f i w).2 = fds w) → keeps (with_fd d k).
Proof.
  intros H w. unfold with_fd, fd_inode. destruct (w_fds w !! d) as [f|] eqn:E; [| done]. cbn [mbind option_bind].
  apply H. by apply elem_of_dom_2 in E.
Qed.

Lemma fds_insert d f w : d ∈ fds w → fds (set_fds (<[d := f]> w.(w_fds)) w) = fds w.
Proof. unfold fds. simpl. rewrite dom_insert_L. set_solver. Qed.

Lemma keeps_fstat d : keeps (fstat d).
Proof. apply keeps_syscall, keeps_with_fd. done. Qed.
Lemma fstat_wp d (Q : res stat_result → world → Prop) w :
  d ∈ fds w → (∀ m w', fds w' = fds w → Q (Ok m) w') → wp (fstat d) Q w.
Proof.
  intros Hd HQ. unfold wp, fstat, syscall, with_fd, fd_inode. simpl.
  unfold fds in Hd. apply elem_of_dom in Hd as [f ->]. by apply HQ.
Qed.
Lemma keeps_rewind d : keeps (rewind d).
Proof. apply keeps_syscall, keeps_with_fd. intros. by apply fds_insert. Qed.
Lemma keeps_read d n : keeps (read d n).
Proof. apply keeps_syscall_may. intros. apply keeps_with_fd. intros. by apply fds_insert. Qed.
Lemma keeps_write d p : keeps (write d p).
Proof.
  apply keeps_syscall_may. intros. apply keeps_with_fd. intros f i w H. by apply (fds_insert d _ w).
Qed.
Lemma keeps_fchmod d m : keeps (fchmod d m).
Proof. apply keeps_syscall_may. intros. by apply keeps_with_fd. Qed.
Lemma keeps_fsync d : keeps (fsync d).
Proof. apply keeps_syscall_may. intros. by apply keeps_with_fd. Qed.
Lemma keeps_flock d l : keeps (flock d l).
Proof.
  apply keeps_syscall_may. intros. apply keeps_with_fd. intros f i w H.
  destruct (_ !! _) as [[]|], l; try done; by apply fds_insert.
Qed.
Lemma keeps_listdir d : keeps (listdir d).
Proof. apply keeps_syscall_may. intros. by apply keeps_with_fd. Qed.
Lemma keeps_create d n k p : keeps (create d n k p).
Proof. by apply keeps_with_fd. Qed.
Lemma keeps_drop_entry d n : keeps (drop_entry d n).
Proof. by apply keeps_with_fd. Qed.
Lemma keeps_mkdir d n m : keeps (mkdir d n m).
Proof.
  apply keeps_syscall_may. intros t w. destruct (resolve _ _ _); [done |].
  by apply (keeps_bind _ _ (keeps_create _ _ _ _)).
Qed.
Lemma keeps_unlink d n : keeps (unlink d n).
Proof.
  apply keeps_syscall_may. intros t w. destruct (resolve _ _ _); [| done].
  destruct (_ !! _); [case_bool_decide; [done |] |]; by rewrite keeps_drop_entry.
Qed.
Lemma keeps_rmdir d n : keeps (rmdir d n).
Proof.
  apply keeps_syscall_may. intros t w. destruct (resolve _ _ _); [| done].
  destruct (_ !! _); [destruct (_ != _); [done |]; destruct (_ != _); [done |] |]; by rewrite keeps_drop_entry.
Qed.
Lemma keeps_rename d s t : keeps (renameat2_noreplace d s t).
Proof.
  apply keeps_syscall_may. intros n w. destruct (resolve (Some d) s w), (resolve (Some d) t w); try done.
  by apply keeps_with_fd.
Qed.

(** The two calls that change the set. *)
Lemma close_wp d (Q : res unit → world → Prop) w :
  (∀ w', fds w' = (fds w ∖ {[d]}) → Q (Ok ()) w') → wp (close d) Q w.
Proof. intros H. apply H. unfold fds. simpl. apply dom_delete_L. Qed.

Lemma new_fd_fresh k w :
  ∃ d, (new_fd k w).1 = Ok d ∧ (d ∉ fds w) ∧ fds (new_fd k w).2 = ({[d]} ∪ fds w).
Proof.
  eexists. split; [reflexivity |]. split; [apply is_fresh |]. unfold fds. simpl. by rewrite dom_insert_L.
Qed.

Lemma open_wp dir path flags mode (Q : res Z → world → Prop) w :
  (∀ e w', fds w' = fds w → Q (Raise e) w') →
  (∀ d w', d ∉ fds w → fds w' = ({[d]} ∪ fds w) → Q (Ok d) w') →
  wp (open_ dir path flags mode) Q w.
Proof.
  intros HR HO. unfold open_, syscall_may, wp. destruct (w_fail _ _); [by apply HR |].
  assert (∀ k w0, fds w0 = fds w → Q (new_fd k w0).1 (new_fd k w0).2) as Hnew.
  { intros k w0 Hw. destruct (new_fd_fresh k w0) as (d & -> & Hd & Hf).
    apply HO; [by rewrite <-Hw | by rewrite Hf, Hw]. }
  destruct (resolve _ _ _).
  - destruct (bool_decide _); [by apply HR |]. destruct (_ !! _); [| by apply HR].
    destruct (_ == _); [by apply HR |]. destruct (_ && _); [by apply HR |]. by apply Hnew.
  - destruct dir as [d|]; [| by apply HR]. destruct (bool_decide _); [| by apply HR].
    pose proof (keeps_create d path Reg mode (enter w)) as Hc. unfold mbind, M_mbind.
    destruct (create _ _ _ _ _) as [[k|e] w']; simpl in Hc |- *; [apply Hnew; by rewrite Hc | by apply HR].
Qed.

Create HintDb keeps.
#[export] Hint Resolve keeps_bind keeps_lift keeps_mret keeps_catch keeps_os_or keeps_each keeps_finally
  keeps_fstat keeps_rewind keeps_read keeps_write keeps_fchmod keeps_fsync keeps_flock keeps_listdir
  keeps_mkdir keeps_unlink keeps_rmdir keeps_rename : keeps.

(** ** Rules for code with local variables *)
Section procs.
Context {S A : Type}.
Implicit Types (Q : res A → S * world → Prop).

Lemma wp_sys (m : io A) Q s w : wp m (λ r w', Q r (s, w')) w → wp (sys m) Q (s, w).
Proof. unfold wp, sys. by destruct (m w). Qed.
Lemma wp_vars (k : S → proc S A) Q s w : wp (k s) Q (s, w) → wp (vars k) Q (s, w).
Proof. done. Qed.
Lemma wp_local (m : proc S A) (Q : res A → world → Prop) s w :
  wp m (λ r sw, Q r sw.2) (s, w) → wp (local s m) Q w.
Proof. unfold wp, local. by destruct (m (s, w)) as [? []]. Qed.
End procs.

Lemma wp_assign {S} (f : S → S) (Q : res () → S * world → Prop) s w : Q (Ok ()) (f s, w) → wp (assign f) Q (s, w).
Proof. done. Qed.

(** The local variable [ds] lists the descriptors opened since [F] was the
    set of open descriptors. *)
Definition opened_since (F : gset Z) (sw : list Z * world) : Prop :=
  NoDup sw.1 ∧ fds sw.2 = list_to_set sw.1 ∪ F ∧ (∀ d, d ∈ sw.1 → d ∉ F).

Lemma opened_since_keeps {A} F (m : io A) (Q : res A → list Z * world → Prop) ds w :
  keeps m → opened_since F (ds, w) → (∀ r w', opened_since F (ds, w') → Q r (ds, w')) → wp (sys m) Q (ds, w).
Proof.
  intros Hm (Hn & Hf & Hd) HQ. apply wp_sys, keeps_wp; [done |]. intros r w' Hw. apply HQ.
  split_and!; [done | simpl; by rewrite Hw | done].
Qed.

Lemma opened_since_new F d ds w w' :
  opened_since F (ds, w) → d ∉ fds w → fds w' = {[d]} ∪ fds w → opened_since F (ds ++ [d], w').
Proof.
  intros (Hn & Hf & Hd) Hnew Hw. simpl in *. rewrite Hf in Hnew, Hw.
  unfold opened_since. simpl. rewrite NoDup_app. split_and!.
  - done.
  - set_solver.
  - apply NoDup_singleton.
  - set_solver.
  - set_solver.
Qed.

(** Closing them all gives [F] back. *)
Lemma close_each F ds w (Q : res () → world → Prop) :
  opened_since F (ds, w) → (∀ w', fds w' = F → Q (Ok ()) w') → wp (each close ds) Q w.
Proof.
  unfold opened_since. simpl. revert w. induction ds as [|d ds IH]; intros w (Hn & Hf & Hd) HQ.
  - apply (HQ w). rewrite Hf. set_solver.
  - apply NoDup_cons in Hn as [Hnd Hn]. apply (IH (close d w).2); [| done].
    assert (fds (close d w).2 = fds w ∖ {[d]}) as -> by (unfold fds; simpl; apply dom_delete_L).
    rewrite Hf. split_and!; [done | set_solver | set_solver].
Qed.

Lemma each_sys_close {S} ds (Q : res () → S * world → Prop) s w :
  wp (each close ds) (λ r w', Q r (s, w')) w → wp (each (λ d, sys (close d)) ds) Q (s, w).
Proof. revert w. induction ds as [|d ds IH]; intros w H; [done |]. by apply IH. Qed.

(** ** Quiescent worlds
    No other process acts and no call fails: every call is a function of the
    file system and the descriptors. *)
Definition quiet (w : world) : Prop := (∀ n f, w.(w_env) n f = f) ∧ (∀ n, w.(w_fail) n = false).

(** Worlds that differ by the calls made and the descriptors only. *)
Definition same (w w' : world) : Prop :=
  w_fs w' = w_fs w ∧ w_euid w' = w_euid w ∧ w_env w' = w_env w ∧ w_fail w' = w_fail w ∧ w_chunk w' = w_chunk w.

#[export] Instance same_refl : Reflexive same.
Proof. by intros w. Qed.
#[export] Instance same_trans : Transitive same.
Proof. unfold same. intros w1 w2 w3. intuition congruence. Qed.

Lemma same_quiet w w' : same w w' → quiet w → quiet w'.
Proof. unfold same, quiet. intros (_ & _ & -> & -> & _). done. Qed.

Lemma same_enter w : quiet w → same w (enter w).
Proof. intros [He _]. unfold same, enter. simpl. by rewrite He. Qed.

Definition inode_of (w : world) (k : key) : inode := default gone (w.(w_fs).(f_inodes) !! k).
Lemma inode_of_same w w' k : same w w' → inode_of w' k = inode_of w k.
Proof. unfold inode_of. by intros (-> & _). Qed.

Section quiet.
Context (w : world) (Hq : quiet w).

Lemma with_fd_q {A} d f (k : fd → inode → io A) Q :
  w_fds w !! d = Some f → wp (k f (inode_of w (d_key f))) Q (enter w) → wp (with_fd d k) Q (enter w).
Proof using Hq.
  intros Hd H. unfold wp, with_fd, fd_inode in *. simpl. rewrite Hd. simpl.
  destruct Hq as [He _]. unfold inode_of in H. by rewrite He.
Qed.

Lemma syscall_q {A} (f : io A) Q : wp f Q (enter w) → wp (syscall f) Q w.
Proof using Type. done. Qed.
Lemma syscall_may_q {A} (f : nat → io A) Q : wp (f (w_tick w)) Q (enter w) → wp (syscall_may f) Q w.
Proof using Hq. unfold wp, syscall_may. destruct Hq as [_ Hf]. by rewrite Hf. Qed.

Lemma fstat_q d f (Q : res stat_result → world → Prop) :
  w_fds w !! d = Some f →
  (∀ w', same w w' → w_fds w' = w_fds w → Q (Ok (stat_of (d_key f) (inode_of w (d_key f)))) w') →
  wp (fstat d) Q w.
Proof using Hq. intros Hd HQ. eapply syscall_q, with_fd_q; [done |]. apply HQ; [by apply same_enter | done]. Qed.

Lemma rewind_q d f (Q : res () → world → Prop) :
  w_fds w !! d = Some f →
  (∀ w', same w w' → w_fds w' = <[d := Fd (d_key f) 0 (d_lock f)]> (w_fds w) → Q (Ok ()) w') →
  wp (rewind d) Q w.
Proof using Hq. intros Hd HQ. eapply syscall_q, with_fd_q; [done |]. apply HQ; [by apply same_enter | done]. Qed.

Lemma read_q d f n (Q : res bytes → world → Prop) :
  w_fds w !! d = Some f →
  (∀ w' block, same w w' →
     let rest := drop (d_off f) (i_data (inode_of w (d_key f))) in
     block = take (Z.to_nat (Z.min (len rest) (Z.min n (Z.max 1 (w_chunk w (w_tick w)))))) rest →
     w_fds w' = <[d := Fd (d_key f) (d_off f + length block) (d_lock f)]> (w_fds w) → Q (Ok block) w') →
  wp (read d n) Q w.
Proof using Hq.
  intros Hd HQ. eapply syscall_may_q, with_fd_q; [done |]. apply HQ; [| done | done].
  by apply same_enter.
Qed.

Lemma listdir_q d f (Q : res (list pystr) → world → Prop) :
  w_fds w !! d = Some f →
  (∀ w', same w w' → w_fds w' = w_fds w →
     Q (Ok (map_to_list (i_entries (inode_of w (d_key f)))).*1) w') →
  wp (listdir d) Q w.
Proof using Hq. intros Hd HQ. eapply syscall_may_q, with_fd_q; [done |]. apply HQ; [by apply same_enter | done]. Qed.

(** A shared lock is granted unless another process holds the exclusive one. *)
Lemma flock_sh_q d f (Q : res () → world → Prop) :
  w_fds w !! d = Some f →
  (f_locks (w_fs w) !! d_key f = Some LOCK_EX → ∀ w', Q (Raise (Exn OSError "Resource temporarily unavailable")) w') →
  (f_locks (w_fs w) !! d_key f ≠ Some LOCK_EX →
   ∀ w', same w w' → w_fds w' = <[d := Fd (d_key f) (d_off f) (Some LOCK_SH)]> (w_fds w) → Q (Ok ()) w') →
  wp (flock d LOCK_SH) Q w.
Proof using Hq.
  intros Hd HR HO. eapply syscall_may_q, with_fd_q; [done |]. unfold wp.
  pose proof (same_enter w Hq) as Hs.
  assert (w_fs (enter w) = w_fs w) as -> by apply Hs. destruct (f_locks (w_fs w) !! d_key f) as [[]|] eqn:E.
  - apply HO; [done | done | done].
  - by apply HR.
  - apply HO; [done | done | done].
Qed.

(** Opening a name of an open directory for reading. *)
Lemma open_q d f name flags (Q : res Z → world → Prop) :
  w_fds w !! d = Some f → name ≠ ("." : pystr) → O_EXCL ∉ flags → O_CREAT ∉ flags →
  (∀ k i h w', i_entries (inode_of w (d_key f)) !! name = Some k → f_inodes (w_fs w) !! k = Some i →
     i_kind i ≠ Lnk → (O_DIRECTORY ∈ flags → i_kind i = Dir) →
     h ∉ fds w → same w w' → w_fds w' = <[h := Fd k 0 None]> (w_fds w) → Q (Ok h) w') →
  ((∀ k i, i_entries (inode_of w (d_key f)) !! name = Some k → f_inodes (w_fs w) !! k = Some i →
     i_kind i ≠ Lnk → (O_DIRECTORY ∈ flags → i_kind i = Dir) → False) →
   ∀ e w', is_oserror (exn_cls e) = true → Q (Raise e) w') →
  wp (open_ (Some d) name flags 0) Q w.
Proof using Hq.
  intros Hd Hn He Hc HO HR. apply syscall_may_q. unfold wp, resolve, fd_inode.
  pose proof (same_enter w Hq) as Hs. destruct Hs as (Hfs & _).
  assert (w_fds (enter w) = w_fds w) as Hfd by done. rewrite Hfd, Hd. cbn [mbind option_bind].
  rewrite (bool_decide_false _ Hn), Hfs. fold (inode_of w (d_key f)).
  destruct (i_entries _ !! name) as [k|] eqn:E.
  2: { rewrite (bool_decide_false _ Hc). apply HR; [congruence | done]. }
  rewrite (bool_decide_false _ He).
  destruct (f_inodes (w_fs w) !! k) as [i|] eqn:Ei; [| apply HR; [congruence | done]].
  case_bool_decide as Hl; [apply HR; [congruence | done] |].
  destruct (bool_decide _ && _) eqn:Eb.
  - apply HR; [| done]. intros k' i' ? Hi' _ Hdir. simplify_eq.
    apply andb_true_iff in Eb as [Ed Ek]. apply bool_decide_eq_true in Ed.
    apply negb_true_iff, bool_decide_eq_false in Ek. by apply Ek, Hdir.
  - destruct (new_fd_fresh k (enter w)) as (h & Hh & Hnew & _). simpl in Hh. injection Hh as <-.
    eapply (HO k i); [done | done | done | | done | by apply same_enter | done].
    intros Hdir. apply andb_false_iff in Eb as [Ed|Ek]; [by apply bool_decide_eq_false in Ed |].
    by apply negb_false_iff, bool_decide_eq_true in Ek.
Qed.
End quiet.

(** A read of one byte or more of what is left of a file. *)
Lemma take_all_min (rest : bytes) n : 1 ≤ n →
  let block := take (Z.to_nat (Z.min (len rest) n)) rest in
  (block = [] → rest = []) ∧ (length block ≤ length rest)%nat ∧ (rest ≠ [] → block ≠ []).
Proof.
  intros Hn block. unfold block, len. destruct rest as [|c rest].
  { rewrite take_nil. split_and!; [done | simpl; lia | done]. }
  assert (∃ m, Z.to_nat (Z.min (Z.of_nat (length (c :: rest))) n) = S m) as [m ->].
  { exists (Nat.pred (Z.to_nat (Z.min (Z.of_nat (length (c :: rest))) n))). simpl. lia. }
  split_and!; simpl; [done | rewrite length_take; lia | done].
Qed.
(** What a read takes is a prefix of what is left. *)
Lemma read_split (rest : bytes) n : let block := take (Z.to_nat (Z.min (len rest) n)) rest in rest = block ++ drop (length block) rest.
Proof.
  intros block. unfold block. rewrite length_take. set (m := Z.to_nat _). rewrite <-(take_drop m rest) at 1. f_equal.
  destruct (decide (m ≤ length rest)%nat); [by rewrite Nat.min_l by lia |]. rewrite !drop_ge by lia. done.
Qed.

(** A directory listing, up to order. *)
Lemma names_dom {V} (m : gmap pystr V) (l : list pystr) :
  NoDup l → (map_to_list m).*1 ≡ₚ l ↔ dom m = list_to_set l.
Proof.
  intros Hl. pose proof (NoDup_fst_map_to_list m) as Hm.
  assert (∀ k, k ∈ (map_to_list m).*1 ↔ k ∈ dom m) as Hk.
  { intros k. rewrite elem_of_dom, list_elem_of_fmap. split.
    - intros ([k' v] & -> & Hin%elem_of_map_to_list). by exists v.
    - intros [v Hv]. exists (k, v). split; [done | by apply elem_of_map_to_list]. }
  split.
  - intros H. apply set_eq. intros k. by rewrite <-Hk, H, elem_of_list_to_set.
  - intros H. apply NoDup_Permutation; [done | done |]. intros k. by rewrite Hk, H, elem_of_list_to_set.
Qed.

(** Quiescent reading: the file system is unchanged and every open
    descriptor stays open on its inode, at some offset. *)
Definition steady (w w' : world) : Prop :=
  same w w' ∧ ∀ d f, w_fds w !! d = Some f → ∃ o, w_fds w' !! d = Some (Fd (d_key f) o (d_lock f)).
#[export] Instance steady_refl : Reflexive steady.
Proof. intros w. split; [done |]. intros d [k o l] Hf. eauto. Qed.
#[export] Instance steady_trans : Transitive steady.
Proof.
  intros w1 w2 w3 [Hs1 H1] [Hs2 H2]. split; [by transitivity w2 |]. intros d f Hf.
  destruct (H1 d f Hf) as [o Ho]. by apply (H2 d (Fd (d_key f) o (d_lock f))).
Qed.
Lemma steady_insert w w' d f o :
  same w w' → w_fds w !! d = Some f → w_fds w' = <[d := Fd (d_key f) o (d_lock f)]> (w_fds w) → steady w w'.
Proof.
  intros Hs Hd Hf. split; [done |]. intros d' f' Hf'. rewrite Hf. destruct (decide (d = d')) as [->|Hne].
  - rewrite lookup_insert_eq. simplify_eq. eauto.
  - rewrite lookup_insert_ne by done. destruct f'; eauto.
Qed.

(** [os.memfd_create]: an anonymous file. *)
Definition memfd_create : io Z :=
  syscall_may (λ _ w,
    let ino := fresh (set_map snd (dom w.(w_fs).(f_inodes)) : gset Z) in
    let c := w.(w_fs).(f_clock) in
    new_fd (0, ino) (put_inode (0, ino) (Inode Reg 511 w.(w_euid) 0 c c [] ∅) w)).

(** [subprocess.run] of a program that reads the open files [ds]: its return
    code and output are a function of what they hold when it runs. *)
Definition subprocess_run (f : list bytes → Z * bytes) (ds : list Z) : io (Z * bytes) :=
  syscall (λ w, (Ok (f (map (λ d, match fd_inode d w with Some (_, i) => i.(i_data) | None => [] end) ds)), w)).

Definition geteuid : io Z := λ w, (Ok w.(w_euid), w).

(** ** The entry of a directory
    [entry_is rk b v]: directory [rk] maps the name [b] to [v], and the other
    processes of the world leave that so. *)
Section entries.
Context (rk : key) (b : pystr).
Definition entry_of (f : fs) : option (option key) :=
  (λ i, i_entries i !! b) <$> f_inodes f !! rk.
Definition respects (w : world) : Prop := ∀ n f, is_Some (f_inodes f !! rk) → entry_of (w_env w n f) = entry_of f.
Definition entry_is (v : option key) (w : world) : Prop := respects w ∧ entry_of (w_fs w) = Some v.

Context (v : option key).
Abbreviation keeps_entry := (preserves (entry_is v)).

Lemma entry_is_enter w : entry_is v w → entry_is v (enter w).
Proof.
  intros [Hr He]. split; [done |]. unfold enter. simpl. rewrite Hr; [done |].
  unfold entry_of in He. by destruct (f_inodes (w_fs w) !! rk).
Qed.

Lemma entry_is_put w k i :
  entry_is v w → (k = rk → i_entries i !! b = v) → entry_is v (put_inode k i w).
Proof.
  intros [Hr He] Hk. split; [done |]. unfold entry_of in *. simpl. destruct (decide (k = rk)) as [->|Hne].
  - rewrite lookup_insert_eq. simpl. by rewrite Hk.
  - by rewrite lookup_insert_ne.
Qed.

Lemma entry_inode w : entry_is v w → ∃ i, f_inodes (w_fs w) !! rk = Some i ∧ i_entries i !! b = v.
Proof.
  intros [_ He]. unfold entry_of in He. destruct (f_inodes (w_fs w) !! rk) as [i|]; [| done].
  exists i. by injection He.
Qed.

(** The inode of the directory itself maps the name so. *)
Lemma entry_same w k : entry_is v w → k = rk → i_entries (default gone (f_inodes (w_fs w) !! k)) !! b = v.
Proof. intros H ->. destruct (entry_inode w H) as (i & -> & Hi). done. Qed.

Lemma keeps_entry_syscall {A} (f : io A) : keeps_entry f → keeps_entry (syscall f).
Proof. intros H w Hw. by apply H, entry_is_enter. Qed.
Lemma keeps_entry_syscall_may {A} (f : nat → io A) : (∀ t, keeps_entry (f t)) → keeps_entry (syscall_may f).
Proof. intros H w Hw. unfold syscall_may. destruct (w_fail _ _); [by apply entry_is_enter | by apply H, entry_is_enter]. Qed.
Lemma keeps_entry_with_fd {A} d (k : fd → inode → io A) :
  (∀ f w, entry_is v w → entry_is v (k f (default gone (f_inodes (w_fs w) !! d_key f)) w).2) → keeps_entry (with_fd d k).
Proof.
  intros H w Hw. unfold with_fd, fd_inode. destruct (w_fds w !! d) as [f|]; [| done]. by apply H.
Qed.

Lemma keeps_entry_close d : keeps_entry (close d).
Proof. apply keeps_entry_syscall. intros w Hw. exact Hw. Qed.
Lemma keeps_entry_fstat d : keeps_entry (fstat d).
Proof. apply keeps_entry_syscall, keeps_entry_with_fd. intros f w Hw. exact Hw. Qed.
Lemma keeps_entry_rewind d : keeps_entry (rewind d).
Proof. apply keeps_entry_syscall, keeps_entry_with_fd. intros f w Hw. exact Hw. Qed.
Lemma keeps_entry_read d n : keeps_entry (read d n).
Proof. apply keeps_entry_syscall_may. intros. apply keeps_entry_with_fd. intros f w Hw. exact Hw. Qed.
Lemma keeps_entry_fsync d : keeps_entry (fsync d).
Proof. apply keeps_entry_syscall_may. intros. apply keeps_entry_with_fd. intros f w Hw. exact Hw. Qed.
Lemma keeps_entry_listdir d : keeps_entry (listdir d).
Proof. apply keeps_entry_syscall_may. intros. apply keeps_entry_with_fd. intros f w Hw. exact Hw. Qed.
Lemma keeps_entry_flock d l : keeps_entry (flock d l).
Proof.
  apply keeps_entry_syscall_may. intros. apply keeps_entry_with_fd. intros f w Hw.
  by destruct (f_locks (w_fs w) !! d_key f) as [[]|], l.
Qed.
Lemma keeps_entry_write d p : keeps_entry (write d p).
Proof.
  apply keeps_entry_syscall_may. intros. apply keeps_entry_with_fd. intros f w Hw.
  apply (entry_is_put w); [done |]. intros Hk. by apply entry_same.
Qed.
Lemma keeps_entry_fchmod d p : keeps_entry (fchmod d p).
Proof.
  apply keeps_entry_syscall_may. intros. apply keeps_entry_with_fd. intros f w Hw.
  apply (entry_is_put w); [done |]. intros Hk. by apply entry_same.
Qed.
Lemma keeps_entry_subprocess f ds : keeps_entry (subprocess_run f ds).
Proof. apply keeps_entry_syscall. intros w Hw. exact Hw. Qed.
Lemma keeps_entry_geteuid : keeps_entry geteuid.
Proof. intros w Hw. exact Hw. Qed.

Lemma fresh_ino_ne (w : world) dev : entry_is v w →
  (dev, fresh (set_map snd (dom w.(w_fs).(f_inodes)) : gset Z)) ≠ rk.
Proof.
  intros H Heq. destruct (entry_inode w H) as (i & Hi & _).
  pose proof (is_fresh (set_map snd (dom w.(w_fs).(f_inodes)) : gset Z)) as Hf. apply Hf.
  apply elem_of_map. exists rk. split; [by rewrite <-Heq | by apply elem_of_dom_2 in Hi].
Qed.

Lemma keeps_entry_memfd : keeps_entry memfd_create.
Proof.
  apply keeps_entry_syscall_may. intros t w Hw. apply (entry_is_put w); [done |].
  intros Hk. by apply fresh_ino_ne in Hk.
Qed.

(** Creating and removing other names. *)
Lemma keeps_entry_create d n k p : n ≠ b → keeps_entry (create d n k p).
Proof.
  intros Hn. apply keeps_entry_with_fd. intros f w Hw. apply entry_is_put.
  - apply (entry_is_put w); [done |]. intros Hk. simpl. rewrite lookup_insert_ne by done. by apply entry_same.
  - intros Hk. by apply fresh_ino_ne in Hk.
Qed.
Lemma keeps_entry_drop d n : n ≠ b → keeps_entry (drop_entry d n).
Proof.
  intros Hn. apply keeps_entry_with_fd. intros f w Hw. apply (entry_is_put w); [done |].
  intros Hk. simpl. rewrite lookup_delete_ne by done. by apply entry_same.
Qed.
Lemma keeps_entry_open dir path flags mode : path ≠ b → keeps_entry (open_ dir path flags mode).
Proof.
  intros Hn. apply keeps_entry_syscall_may. intros t w Hw. destruct (resolve _ _ _).
  - destruct (bool_decide _); [done |]. destruct (f_inodes (w_fs w) !! _); [| done].
    destruct (_ == _); [done |]. by destruct (_ && _).
  - destruct dir as [d|]; [| done]. destruct (bool_decide _); [| done].
    apply (preserves_bind (entry_is v) (create d path Reg mode)); [by apply keeps_entry_create | intros a w' Hw'; exact Hw' | exact Hw].
Qed.
Lemma keeps_entry_open_existing dir path flags mode : O_CREAT ∉ flags → keeps_entry (open_ dir path flags mode).
Proof.
  intros Hc. apply keeps_entry_syscall_may. intros t w Hw. destruct (resolve _ _ _).
  - destruct (bool_decide _); [done |]. destruct (f_inodes (w_fs w) !! _); [| done].
    destruct (_ == _); [done |]. by destruct (_ && _).
  - destruct dir as [d|]; [| done]. by rewrite (bool_decide_false _ Hc).
Qed.
Lemma keeps_entry_mkdir d n m : n ≠ b → keeps_entry (mkdir d n m).
Proof.
  intros Hn. apply keeps_entry_syscall_may. intros t w Hw. destruct (resolve _ _ _); [done |].
  apply (preserves_bind (entry_is v) (create d n Dir m)); [by apply keeps_entry_create | intros a w' Hw'; exact Hw' | exact Hw].
Qed.
Lemma keeps_entry_unlink d n : n ≠ b → keeps_entry (unlink d n).
Proof.
  intros Hn. apply keeps_entry_syscall_may. intros t w Hw. destruct (resolve _ _ _) as [k|]; [| done].
  destruct (f_inodes (w_fs w) !! k) as [i|] eqn:Ei; [| by apply keeps_entry_drop]. case_bool_decide; [done |].
  apply keeps_entry_drop; [done |]. apply (entry_is_put w); [done |].
  intros Hk. simpl. pose proof (entry_same w k Hw Hk) as He. by rewrite Ei in He.
Qed.
Lemma keeps_entry_rmdir d n : n ≠ b → keeps_entry (rmdir d n).
Proof.
  intros Hn. apply keeps_entry_syscall_may. intros t w Hw. destruct (resolve _ _ _) as [k|]; [| done].
  destruct (f_inodes (w_fs w) !! k) as [i|]; [| by apply keeps_entry_drop].
  destruct (_ != _); [done |]. destruct (_ != _); [done |]. by apply keeps_entry_drop.
Qed.

(** A rename that fails publishes nothing. *)
Lemma rename_failed d s w e w' : entry_is v w → renameat2_noreplace d s b w = (Raise e, w') → entry_is v w'.
Proof.
  intros Hw. unfold renameat2_noreplace, syscall_may. pose proof (entry_is_enter w Hw) as He.
  destruct (w_fail _ _); [by intros [= _ <-] |]. destruct (resolve (Some d) s (enter w)), (resolve (Some d) b (enter w)); try by intros [= _ <-].
  unfold with_fd, fd_inode. destruct (w_fds (enter w) !! d); [done | by intros [= _ <-]].
Qed.
End entries.

Create HintDb entries.
#[export] Hint Resolve keeps_entry_close keeps_entry_fstat keeps_entry_rewind keeps_entry_read keeps_entry_fsync
  keeps_entry_listdir keeps_entry_flock keeps_entry_write keeps_entry_fchmod keeps_entry_subprocess
  keeps_entry_geteuid keeps_entry_memfd : entries.

(** Preservation lifts to code with local variables. *)
Lemma preserves_sys {S A} (P : world → Prop) (m : io A) : preserves P m → preserves (λ sw : S * world, P sw.2) (sys m).
Proof. intros H [s w] Hw. unfold sys. specialize (H w Hw). by destruct (m w). Qed.
Lemma preserves_assign {S} (P : world → Prop) (f : S → S) : preserves (λ sw : S * world, P sw.2) (assign f).
Proof. by intros [s w]. Qed.
Lemma preserves_vars {S A} (P : world → Prop) (k : S → proc S A) :
  (∀ s, preserves (λ sw, P sw.2) (k s)) → preserves (λ sw : S * world, P sw.2) (vars k).
Proof. intros H [s w] Hw. by apply (H s). Qed.
