(* ===== verification/Regex.v ===== *)
(** * The regular expressions of the host tools

    An expression type, its executable matcher ([fullmatch], by Brzozowski
    derivatives) and its language, with the proof that they agree.  The
    bounded repetitions of the sources ([{0,63}]) are [rep], for which
    [fullmatch_rep] gives the length-and-alphabet reading. *)

From S2P Require Import Prelude PyStr.

Inductive rx : Type :=
  | RNone
  | REps
  | RCls (p : ascii → bool)
  | RSeq (a b : rx)
  | RAlt (a b : rx)
  | RStar (a : rx).

(** [{lo,hi}] of one character class, [s] literally, [[..]+], [x?]. *)
Fixpoint rep_upto (n : nat) (p : ascii → bool) : rx :=
  match n with O => REps | S n => RAlt REps (RSeq (RCls p) (rep_upto n p)) end.
Fixpoint rep (lo extra : nat) (p : ascii → bool) : rx :=
  match lo with O => rep_upto extra p | S lo => RSeq (RCls p) (rep lo extra p) end.
Fixpoint lit (s : pystr) : rx :=
  match s with [] => REps | c :: s => RSeq (RCls (λ d, d == c)) (lit s) end.
Definition plus (p : ascii → bool) : rx := RSeq (RCls p) (RStar (RCls p)).
Fixpoint times (n : nat) (a : rx) : rx :=
  match n with O => REps | S n => RSeq a (times n a) end.

(** ** The matcher *)
Fixpoint nullable (r : rx) : bool :=
  match r with
  | RNone | RCls _ => false
  | REps | RStar _ => true
  | RSeq a b => nullable a && nullable b
  | RAlt a b => nullable a || nullable b
  end.

(** Smart constructors keep the derivatives small. *)
Definition seq (a b : rx) : rx := match a with RNone => RNone | REps => b | _ => RSeq a b end.
Definition alt (a b : rx) : rx := match a with RNone => b | _ => match b with RNone => a | _ => RAlt a b end end.

Fixpoint deriv (c : ascii) (r : rx) : rx :=
  match r with
  | RNone | REps => RNone
  | RCls p => if p c then REps else RNone
  | RSeq a b => if nullable a then alt (seq (deriv c a) b) (deriv c b) else seq (deriv c a) b
  | RAlt a b => alt (deriv c a) (deriv c b)
  | RStar a => seq (deriv c a) (RStar a)
  end.

(** [re.fullmatch(r, s) is not None] *)
Fixpoint fullmatch (r : rx) (s : pystr) : bool :=
  match s with [] => nullable r | c :: s => fullmatch (deriv c r) s end.

(** ** The language of an expression *)
Inductive star (L : pystr → Prop) : pystr → Prop :=
  | star_nil : star L []
  | star_app s t : L s → star L t → star L (s ++ t).

Fixpoint lang (r : rx) (s : pystr) : Prop :=
  match r with
  | RNone => False
  | REps => s = []
  | RCls p => ∃ c, s = [c] ∧ p c = true
  | RSeq a b => ∃ s1 s2, s = s1 ++ s2 ∧ lang a s1 ∧ lang b s2
  | RAlt a b => lang a s ∨ lang b s
  | RStar a => star (lang a) s
  end.

Lemma nullable_lang r : nullable r = true ↔ lang r [].
Proof.
  induction r as [| |p|a IHa b IHb|a IHa b IHb|a IHa]; simpl.
  - done.
  - done.
  - split; [done | by intros (? & ? & ?)].
  - rewrite andb_true_iff, IHa, IHb. split.
    + intros []. by exists [], [].
    + intros (s1 & s2 & H & ? & ?). symmetry in H. apply app_eq_nil in H as [-> ->]. done.
  - rewrite orb_true_iff, IHa, IHb. done.
  - split; [constructor | done].
Qed.

Lemma seq_lang a b s : lang (seq a b) s ↔ lang (RSeq a b) s.
Proof.
  destruct a; simpl; try done.
  - split; [done | by intros (? & ? & ? & ? & ?)].
  - split; [intros; by exists [], s | by intros (? & ? & -> & -> & ?)].
Qed.

Lemma alt_lang a b s : lang (alt a b) s ↔ lang (RAlt a b) s.
Proof. destruct a, b; simpl; tauto. Qed.

Lemma star_cons L c s :
  star L (c :: s) → ∃ s1 s2, s = s1 ++ s2 ∧ L (c :: s1) ∧ star L s2.
Proof.
  remember (c :: s) as t eqn:Ht. intros H. revert c s Ht.
  induction H as [|u v Hu Hv IH]; intros c s Ht; [done |].
  destruct u as [|d u]; simpl in Ht; [by apply IH |].
  injection Ht as -> <-. eauto.
Qed.

Lemma deriv_lang r c s : lang (deriv c r) s ↔ lang r (c :: s).
Proof.
  revert s. induction r as [| |p|a IHa b IHb|a IHa b IHb|a IHa]; intros s; simpl.
  - done.
  - by split; [| intros [=]].
  - destruct (p c) eqn:E; simpl.
    + split; [intros ->; eauto | by intros (d & [= -> ->] & ?)].
    + split; [done | intros (d & [= -> ->] & ?); congruence].
  - assert (lang (seq (deriv c a) b) s ↔ ∃ s1 s2, s = s1 ++ s2 ∧ lang a (c :: s1) ∧ lang b s2) as Hs.
    { rewrite seq_lang. simpl. by setoid_rewrite IHa. }
    transitivity ((∃ s1 s2, s = s1 ++ s2 ∧ lang a (c :: s1) ∧ lang b s2)
                  ∨ (lang a [] ∧ lang b (c :: s))).
    + destruct (nullable a) eqn:E.
      * rewrite alt_lang. simpl. rewrite Hs, IHb. apply nullable_lang in E. tauto.
      * rewrite Hs. rewrite <-not_true_iff_false, nullable_lang in E. tauto.
    + split.
      * intros [(s1 & s2 & -> & ? & ?)|[? ?]]; [by exists (c :: s1), s2 | by exists [], (c :: s)].
      * intros ([|d s1] & s2 & H & ? & ?); simplify_eq/=; [by right | left; eauto].
  - rewrite alt_lang. simpl. by rewrite IHa, IHb.
  - rewrite seq_lang. simpl. split.
    + intros (s1 & s2 & -> & H & ?). apply IHa in H.
      change (c :: s1 ++ s2) with ((c :: s1) ++ s2). by constructor.
    + intros (s1 & s2 & -> & ? & ?)%star_cons. exists s1, s2. by rewrite IHa.
Qed.

(** The matcher decides the language. *)
Lemma fullmatch_lang r s : fullmatch r s = true ↔ lang r s.
Proof.
  revert r. induction s as [|c s IH]; intros r; simpl.
  - apply nullable_lang.
  - rewrite IH. apply deriv_lang.
Qed.

(** ** Repetition of one class *)
Lemma lang_rep_upto n p s :
  lang (rep_upto n p) s ↔ (length s ≤ n)%nat ∧ Forall (λ c, p c = true) s.
Proof.
  revert s. induction n as [|n IH]; intros s; simpl.
  - split; [intros ->; done |]. destruct s; simpl; [done | lia].
  - split.
    + intros [->|(s1 & s2 & -> & (c & -> & Hc) & H)]; [by split; [simpl; lia |] |].
      apply IH in H as [? ?]. simpl. split; [lia | by constructor].
    + destruct s as [|c s]; [by left | right]. destruct H as [Hl Hf].
      apply Forall_cons in Hf as [Hc Hf]. exists [c], s.
      split; [done |]. split; [eauto |]. apply IH. simpl in *. split; [lia | done].
Qed.

Lemma lang_rep lo extra p s :
  lang (rep lo extra p) s ↔
  (lo ≤ length s ≤ lo + extra)%nat ∧ Forall (λ c, p c = true) s.
Proof.
  revert s. induction lo as [|lo IH]; intros s; simpl.
  - rewrite lang_rep_upto. split; intros []; split; auto; lia.
  - split.
    + intros (s1 & s2 & -> & (c & -> & Hc) & H). apply IH in H as [? ?]. simpl.
      split; [lia | by constructor].
    + intros [Hl Hf]. destruct s as [|c s]; simpl in *; [lia |].
      apply Forall_cons in Hf as [Hc Hf]. exists [c], s.
      split; [done |]. split; [eauto |]. apply IH. split; [lia | done].
Qed.

Lemma fullmatch_rep lo extra p s :
  fullmatch (rep lo extra p) s = true ↔
  (lo ≤ length s ≤ lo + extra)%nat ∧ Forall (λ c, p c = true) s.
Proof. rewrite fullmatch_lang. apply lang_rep. Qed.

Lemma lang_lit w s : lang (lit w) s ↔ s = w.
Proof.
  revert s. induction w as [|c w IH]; intros s; simpl; [done |]. split.
  - intros (s1 & s2 & -> & (d & -> & Hd) & H). apply IH in H as ->. b2p. by subst.
  - intros ->. exists [c], w. split; [done |]. split; [exists c; by rewrite bool_decide_true |]. by apply IH.
Qed.

Lemma lang_star_cls p s : star (lang (RCls p)) s ↔ Forall (λ c, p c = true) s.
Proof.
  split.
  - induction 1 as [|u v (c & -> & Hc) Hv IH]; [done |]. by constructor.
  - induction 1 as [|c s Hc Hs IH]; [constructor |].
    change (c :: s) with ([c] ++ s). constructor; [simpl; eauto | done].
Qed.

Lemma fullmatch_plus p s :
  fullmatch (plus p) s = true ↔ s ≠ [] ∧ Forall (λ c, p c = true) s.
Proof.
  rewrite fullmatch_lang. unfold plus. simpl. setoid_rewrite lang_star_cls. split.
  - intros (s1 & s2 & -> & (c & -> & Hc) & H). split; [done | by constructor].
  - intros [Hne Hf]. destruct s as [|c s]; [done |]. apply Forall_cons in Hf as [? ?].
    exists [c], s. eauto.
Qed.

(** A class followed by an expression: [[a-z]r]. *)
Lemma fullmatch_cls_seq p r s :
  fullmatch (RSeq (RCls p) r) s = true ↔ ∃ c t, s = c :: t ∧ p c = true ∧ fullmatch r t = true.
Proof.
  setoid_rewrite fullmatch_lang. simpl. split.
  - intros (s1 & s2 & -> & (c & -> & Hc) & H). eauto.
  - intros (c & t & -> & ? & ?). exists [c], t. eauto.
Qed.

(** ** The alphabet of an expression
    [within P r]: every class of [r] accepts characters of [P] only; then so
    does every match.  On the 256 characters it is decided by [withinb]. *)
Definition all_chars : list ascii := map (λ n, ascii_of_nat n) (List.seq 0 256).
Definition cls_within (p P : ascii → bool) : bool := forallb (λ c, implb (p c) (P c)) all_chars.
#[global] Arguments cls_within : simpl never.
Fixpoint withinb (P : ascii → bool) (r : rx) : bool :=
  match r with
  | RNone | REps => true
  | RCls p => cls_within p P
  | RSeq a b | RAlt a b => withinb P a && withinb P b
  | RStar a => withinb P a
  end.
Lemma all_chars_complete c : c ∈ all_chars.
Proof.
  unfold all_chars. apply list_elem_of_In, in_map_iff. exists (nat_of_ascii c). split; [apply ascii_nat_embedding |].
  apply in_seq. pose proof (nat_ascii_bounded c). lia.
Qed.
Lemma lang_within P r s : withinb P r = true → lang r s → Forall (λ c, P c = true) s.
Proof.
  revert s. induction r as [| |p|a IHa b IHb|a IHa b IHb|a IHa]; intros s; simpl.
  - done.
  - intros _ ->. constructor.
  - intros Hp (c & -> & Hc). constructor; [| constructor]. apply forallb_Forall in Hp.
    rewrite Forall_forall in Hp. specialize (Hp c (all_chars_complete c)). by rewrite Hc in Hp.
  - intros [Ha Hb]%andb_true_iff (s1 & s2 & -> & H1 & H2). apply Forall_app. auto.
  - intros [Ha Hb]%andb_true_iff [H|H]; auto.
  - intros Ha H. induction H as [|s t Hs Ht IH]; [constructor |]. apply Forall_app. auto.
Qed.
Lemma fullmatch_within P r s : withinb P r = true → fullmatch r s = true → Forall (λ c, P c = true) s.
Proof. rewrite fullmatch_lang. apply lang_within. Qed.
