(* ===== verification/Programs.v ===== *)
(** * Programs as trees of calls

    A program that interleaves with others is the tree of the calls it makes:
    [Call c k] makes the call [c] and goes on with [k] on its answer, [Done r]
    has returned or raised.  [try ... finally] and [except] are functions on
    trees.  [pwp] is the weakest precondition of a program over what it knows
    (its local ghost state), for a given rule of every call; it is what a
    proof about many interleaved programs needs of each of them. *)

From S2P Require Import Prelude.

Section programs.
Context {call : Type} {reply : call → Type}.

Inductive prog (A : Type) : Type :=
  | Done (r : res A)
  | Call (c : call) (k : res (reply c) → prog A).
Arguments Done {A} r.
Arguments Call {A} c k.

Definition do (c : call) : prog (reply c) := Call c Done.
Definition throw {A} (c : exn_class) (msg : pystr) : prog A := Done (Raise (Exn c msg)).
Definition returns {A} (r : res A) : prog A := Done r.
#[export] Instance prog_ret : MRet prog := λ A a, Done (Ok a).
#[export] Instance prog_bind : MBind prog := λ A B f, fix go p :=
  match p with
  | Done (Ok a) => f a
  | Done (Raise e) => Done (Raise e)
  | Call c k => Call c (λ r, go (k r))
  end.
(** What follows a program whatever its outcome. *)
Fixpoint after {A B} (p : prog A) (h : res A → prog B) : prog B :=
  match p with Done r => h r | Call c k => Call c (λ r, after (k r) h) end.
(** [try: p  finally: f] *)
Definition ensuring {A} (p : prog A) (f : prog unit) : prog A :=
  after p (λ r, after f (λ r', Done (match r' with Ok _ => r | Raise e => Raise e end))).
(** [try: p  except cs: h] *)
Definition handle {A} (p : prog A) (cs : exn_class → bool) (h : prog A) : prog A :=
  after p (λ r, match r with Raise e => if cs (exn_cls e) then h else Done r | Ok _ => Done r end).
(** [for x in l: f(x)] *)
Fixpoint every {A} (f : A → prog unit) (l : list A) : prog unit :=
  match l with [] => mret () | x :: l => after (f x) (λ r, match r with Ok _ => every f l | Raise e => Done (Raise e) end) end.

(** ** What a program keeps true *)
Section rules.
Context {G : Type} (rule : G → ∀ c, (res (reply c) → G → Prop) → Prop).
Context (rule_mono : ∀ g c (P Q : res (reply c) → G → Prop), (∀ r g', P r g' → Q r g') → rule g c P → rule g c Q).

Fixpoint pwp {A} (p : prog A) (Q : res A → G → Prop) (g : G) : Prop :=
  match p with Done r => Q r g | Call c k => rule g c (λ r g', pwp (k r) Q g') end.

Lemma pwp_done {A} (r : res A) (Q : res A → G → Prop) g : Q r g → pwp (Done r) Q g.
Proof. done. Qed.
Lemma pwp_mono {A} (p : prog A) (P Q : res A → G → Prop) g : (∀ r g', P r g' → Q r g') → pwp p P g → pwp p Q g.
Proof using rule_mono. intros HPQ. revert g. induction p as [r|c k IH]; intros g; simpl; [apply HPQ |]. apply rule_mono. intros r g'. apply IH. Qed.
Lemma pwp_do c (Q : res (reply c) → G → Prop) g : rule g c Q → pwp (do c) Q g.
Proof. done. Qed.
Lemma pwp_after {A B} (p : prog A) (h : res A → prog B) Q g : pwp p (λ r g', pwp (h r) Q g') g → pwp (after p h) Q g.
Proof using rule_mono. revert g. induction p as [r|c k IH]; intros g; simpl; [done |]. apply rule_mono. intros r g'. apply IH. Qed.
Lemma pwp_bind {A B} (p : prog A) (f : A → prog B) Q g :
  pwp p (λ r g', match r with Ok a => pwp (f a) Q g' | Raise e => Q (Raise e) g' end) g → pwp (p ≫= f) Q g.
Proof using rule_mono.
  revert g. induction p as [[a|e]|c k IH]; intros g; simpl; [done | done |]. apply rule_mono. intros r g'. apply IH.
Qed.
Lemma pwp_ensuring {A} (p : prog A) f (Q : res A → G → Prop) g :
  pwp p (λ r, pwp f (λ r' g', Q (match r' with Ok _ => r | Raise e => Raise e end) g')) g → pwp (ensuring p f) Q g.
Proof using rule_mono.
  intros H. apply pwp_after. eapply pwp_mono; [| exact H]. intros r g' Hf. apply pwp_after. eapply pwp_mono; [| exact Hf]. done.
Qed.
Lemma pwp_handle {A} (p : prog A) (cs : exn_class → bool) h (Q : res A → G → Prop) g :
  pwp p (λ r g', match r with Raise e => if cs (exn_cls e) then pwp h Q g' else Q r g' | Ok _ => Q r g' end) g → pwp (handle p cs h) Q g.
Proof using rule_mono.
  intros H. apply pwp_after. eapply pwp_mono; [| exact H]. intros [a|e] g'; [done |]. by destruct (cs _).
Qed.
Lemma pwp_every {A} (f : A → prog unit) l (I : G → Prop) (Q : res unit → G → Prop) :
  (∀ x g, x ∈ l → I g → pwp (f x) (λ r g', match r with Ok _ => I g' | Raise e => Q (Raise e) g' end) g) →
  (∀ g, I g → Q (Ok ()) g) → ∀ g, I g → pwp (every f l) Q g.
Proof using rule_mono.
  intros Hf HQ. induction l as [|x l IH]; intros g HI; simpl; [by apply HQ |]. apply pwp_after.
  eapply pwp_mono; [| apply (Hf x); [by left | done]]. intros [u|e] g' H; simpl; [| done]. apply IH; [| done].
  intros y g'' Hy. apply Hf. by right.
Qed.
End rules.
End programs.
Arguments prog {call} reply A.
Arguments Done {call reply A} r.
Arguments Call {call reply A} c k.
Arguments do {call reply} c : simpl never.
Arguments ensuring {call reply A} p f : simpl never.
Arguments handle {call reply A} p cs h : simpl never.
Arguments after {call reply A B} p h : simpl never.
Arguments every {call reply A} f l : simpl never.
Arguments pwp {call reply G} rule {A} p Q g : simpl never.
