(* ===== verification/Sha256.v ===== *)
(** * [hashlib.sha256]

    The hash the host tools bind every artifact with, as an executable
    function on byte lists (FIPS 180-4), with the shape of its digest.  The
    streaming interface ([update] block by block) hashes the concatenation
    of the blocks. *)

From S2P Require Import Prelude PyStr.

Definition M32 : Z := 2 ^ 32.
Definition add32 (a b : Z) : Z := (a + b) mod M32.
Definition rotr (x n : Z) : Z := Z.lor (Z.shiftr x n) (Z.shiftl x (32 - n) mod M32).
Definition not32 (x : Z) : Z := Z.lxor x (M32 - 1).

(** The constants are computed: the first 32 bits of the fractional parts of
    the cube roots of the first 64 primes and of the square roots of the
    first 8.  [cube_root k n] finds the largest [x < 2 ^ k] with [x ^ 3 <= n]
    bit by bit. *)
Fixpoint cube_root_from (k : nat) (x n : Z) : Z :=
  match k with
  | O => x
  | S k => let y := x + 2 ^ Z.of_nat k in cube_root_from k (if y * y * y <=? n then y else x) n
  end.
Definition cube_root (k : nat) (n : Z) : Z := cube_root_from k 0 n.
Definition is_prime (n : nat) : bool :=
  forallb (λ d, negb (Nat.eqb (Nat.modulo n (S (S d))) 0)) (seq 0 (n - 2)).
Definition primes : list Z := Eval vm_compute in map Z.of_nat (filter (λ n, is_prime n = true) (seq 2 310)).
Definition round_constants : list Z := Eval vm_compute in
  map (λ p, cube_root 36 (p * 2 ^ 96) mod M32) primes.
Definition initial_state : list Z := Eval vm_compute in
  map (λ p, Z.sqrt (p * 2 ^ 64) mod M32) (take 8 primes).

(** Padding to whole 64-byte blocks: 0x80, zeros, the bit length. *)
Definition pad (m : bytes) : bytes :=
  m ++ chr 128 :: replicate (Z.to_nat ((55 - len m) mod 64)) (chr 0) ++ be_bytes 8 (8 * len m).

Fixpoint chunks (fuel n : nat) (m : bytes) : list bytes :=
  match fuel, m with
  | O, _ | _, [] => []
  | S fuel, _ => take n m :: chunks fuel n (drop n m)
  end.

(** Message schedule, most recent word first. *)
Fixpoint extend (k : nat) (w : list Z) : list Z :=
  match k with
  | O => w
  | S k =>
      let at_ i := nth i w 0 in
      let s0 := let x := at_ 14%nat in Z.lxor (Z.lxor (rotr x 7) (rotr x 18)) (Z.shiftr x 3) in
      let s1 := let x := at_ 1%nat in Z.lxor (Z.lxor (rotr x 17) (rotr x 19)) (Z.shiftr x 10) in
      extend k (add32 (add32 (at_ 15%nat) s0) (add32 (at_ 6%nat) s1) :: w)
  end.
Definition schedule (block : bytes) : list Z :=
  reverse (extend 48 (reverse (map be_int (chunks 16 4 block)))).

Definition round (s : list Z) (kw : Z * Z) : list Z :=
  match s with
  | [a; b; c; d; e; f; g; h] =>
      let s1 := Z.lxor (Z.lxor (rotr e 6) (rotr e 11)) (rotr e 25) in
      let ch := Z.lxor (Z.land e f) (Z.land (not32 e) g) in
      let t1 := add32 (add32 (add32 h s1) (add32 ch (fst kw))) (snd kw) in
      let s0 := Z.lxor (Z.lxor (rotr a 2) (rotr a 13)) (rotr a 22) in
      let maj := Z.lxor (Z.lxor (Z.land a b) (Z.land a c)) (Z.land b c) in
      [add32 t1 (add32 s0 maj); a; b; c; add32 d t1; e; f; g]
  | _ => s
  end.

Definition compress (s : list Z) (block : bytes) : list Z :=
  zip_with add32 s (foldl round s (zip round_constants (schedule block))).

Definition sha256_words (m : bytes) : list Z :=
  let p := pad m in foldl compress initial_state (chunks (S (length p)) 64 p).

(** [hashlib.sha256(m).digest()] and [.hexdigest()] *)
Definition sha256_digest (m : bytes) : bytes := concat (map (be_bytes 4) (sha256_words m)).
Definition sha256 (m : bytes) : pystr := concat (map (hex_fixed 8) (sha256_words m)).
Arguments sha256 : simpl never.
Arguments sha256_digest : simpl never.

(** Published test vectors. *)
Example sha256_abc :
  sha256 "abc" = "ba7816bf8f01cfea414140de5dae2223b00361a396177a9cb410ff61f20015ad".
Proof. vm_compute. reflexivity. Qed.
Example sha256_two_blocks :
  sha256 "abcdbcdecdefdefgefghfghighijhijkijkljklmklmnlmnomnopnopq"
  = "248d6a61d20638b8e5c026930c3e6039a33ce45964ff2167f6ecedd419db06c1".
Proof. vm_compute. reflexivity. Qed.
Example sha256_empty :
  sha256 [] = "e3b0c44298fc1c149afbf4c8996fb92427ae41e4649b934ca495991b7852b855".
Proof. vm_compute. reflexivity. Qed.

(** ** Shape of the digest: 64 lower-case hexadecimal digits *)
Lemma round_length s kw : length s = 8%nat → length (round s kw) = 8%nat.
Proof. intros H. do 9 (destruct s as [|? s]; try done). Qed.

Lemma round_constants_length : length round_constants = 64%nat.
Proof. reflexivity. Qed.

Lemma foldl_round_length l s : length s = 8%nat → length (foldl round s l) = 8%nat.
Proof. revert s. induction l as [|x l IH]; intros s H; [done |]. simpl. by apply IH, round_length. Qed.

Lemma compress_length s b : length s = 8%nat → length (compress s b) = 8%nat.
Proof. intros H. unfold compress. by rewrite length_zip_with, foldl_round_length, H. Qed.

Lemma sha256_words_length m : length (sha256_words m) = 8%nat.
Proof.
  unfold sha256_words. generalize (chunks (S (length (pad m))) 64 (pad m)). intros l.
  assert (length initial_state = 8%nat) as H by done. revert H. generalize initial_state.
  induction l as [|b l IH]; intros s H; [done |]. by apply IH, compress_length.
Qed.

Lemma concat_hex_length ws : length (concat (map (hex_fixed 8) ws)) = (8 * length ws)%nat.
Proof. induction ws as [|w ws IH]; [done |]. cbn [map concat length]. rewrite length_app, IH, hex_fixed_length. lia. Qed.

Lemma sha256_length m : length (sha256 m) = 64%nat.
Proof. unfold sha256. by rewrite concat_hex_length, sha256_words_length. Qed.

Lemma sha256_is_hex m : Forall (λ c, is_hex c = true) (sha256 m).
Proof.
  unfold sha256. induction (sha256_words m) as [|w ws IH]; [constructor |].
  cbn [map concat]. apply Forall_app. split; [apply hex_fixed_is_hex | done].
Qed.

#[export] Hint Resolve sha256_length sha256_is_hex : pystr.
