(* ===== verification/BundlePolicy.v ===== *)
(** * The recovery-bundle contract

    What docs/recovery-bundle-contract.md promises of a bundle, stated
    without reference to either program: the identifiers, the decimals, the
    timeouts and the trust tuple.  [BundlePacker] and [BundleServer] each
    check it in their own code; their refinement theorems meet here. *)

From S2P Require Import Prelude PyStr Regex.

Definition bundle_id_char (c : ascii) : bool := is_lower c || is_digit c || one_of "._-" c.
Definition identity_char (c : ascii) : bool := is_alnum c || one_of "_+.-" c.

(** A bundle name: 1 to 64 characters of [[a-z0-9._-]], not starting with
    punctuation, no [".."], not the reserved word [none]. *)
Definition bundle_id (s : pystr) : Prop :=
  (∃ c t, s = c :: t ∧ (is_lower c || is_digit c) = true) ∧ (length s ≤ 64)%nat ∧
  Forall (λ c, bundle_id_char c = true) s ∧ contains ".." s = false ∧ s ≠ "none".

(** A target identity of at most [max] characters. *)
Definition identity (max : Z) (s : pystr) : Prop :=
  s ≠ [] ∧ len s ≤ max ∧ Forall (λ c, identity_char c = true) s ∧
  startswith s "." = false ∧ contains ".." s = false.

(** A hash that identifies something: 64 lower-case digits, not all zero. *)
Definition zero_hash : pystr := replicate 64 "0"%char.
Definition trust_hash (s : pystr) : Prop :=
  length s = 64%nat ∧ Forall (λ c, is_hex c = true) s ∧ s ≠ zero_hash.

(** A decimal field: the canonical spelling of a number within bounds. *)
Definition decimal (lo hi : Z) (s : pystr) : Prop := ∃ n, lo ≤ n ≤ hi ∧ s = str_of_Z n.

(** The profiles both programs take.  The document names the first three. *)
Definition profiles : list pystr :=
  ["diagnostic-initramfs-v1" : pystr; "network-root-v1" : pystr;
   "persistent-root-ro-v1" : pystr; "stock-charging-recovery-v1" : pystr].
Definition network_profiles : list pystr :=
  ["diagnostic-initramfs-v1" : pystr; "network-root-v1" : pystr].

(** The shortest rollback timeout of each profile. *)
Definition minimum_rollback (profile : pystr) : Z :=
  if profile == "stock-charging-recovery-v1" then 900
  else if profile == "persistent-root-ro-v1" then 300 else 60.

(** The contract over a record read through [f].  [minimum] is the
    per-profile rollback bound, so that a weaker checker can be compared. *)
Record contract (minimum : pystr → Z) (f : pystr → pystr) : Prop := {
  contract_profile : f "profile" ∈ profiles;
  contract_target_id : identity 64 (f "target_id");
  contract_target_release : identity 96 (f "target_release");
  contract_timeouts : ∃ r t, f "rollback_timeout" = str_of_Z r ∧ f "target_timeout" = str_of_Z t ∧
    60 ≤ r ≤ 900 ∧ 30 ≤ t ≤ 600 ∧ t + 30 ≤ r ∧ minimum (f "profile") ≤ r;
  contract_network : f "profile" ∈ network_profiles →
    trust_hash (f "a660_command_manifest_sha256") ∧ f "root_generation" = "arch-a" ∧
    trust_hash (f "root_tree_sha256") ∧ trust_hash (f "root_seal_sha256") ∧
    decimal 1 (2 ^ 63 - 1) (f "root_tree_entries") ∧ f "root_subtree" = "/";
  contract_local : f "profile" ∉ network_profiles →
    f "a660_command_manifest_sha256" = zero_hash ∧ f "root_generation" = "none" ∧
    f "root_tree_sha256" = zero_hash ∧ f "root_seal_sha256" = zero_hash ∧
    f "root_tree_entries" = "0" ∧ f "root_subtree" = "none"
}.

(** The contract reads the record field by field. *)
Lemma contract_ext minimum f g : (∀ k, f k = g k) → contract minimum f → contract minimum g.
Proof. intros Hfg [H1 H2 H3 H4 H5 H6]. constructor; rewrite <- !Hfg; done. Qed.

(** ** The bytes of a record
    Every field is its name, an equals sign, a printable value and the
    boundary that ends the line.  The document has LF there; the server takes
    any of the six ASCII boundaries of [str.splitlines] but CR, and LF last. *)
Definition line_ends : list ascii := ["010"; "011"; "012"; "028"; "029"; "030"]%char.
Definition record_bytes (names values : list pystr) (ends : list ascii) : bytes :=
  concat (zip_with (λ field e, field.1 ++ "=" ++ field.2 ++ [e]) (zip names values) ends).
Definition manifest_names : list pystr :=
  ["format" : pystr; "bundle" : pystr; "profile" : pystr; "kernel_size" : pystr; "kernel_sha256" : pystr; "dtb_size" : pystr;
   "dtb_sha256" : pystr; "initramfs_size" : pystr; "initramfs_sha256" : pystr; "target_id" : pystr; "target_release" : pystr;
   "rollback_timeout" : pystr; "target_timeout" : pystr; "a660_command_manifest_sha256" : pystr; "root_generation" : pystr;
   "root_tree_sha256" : pystr; "root_seal_sha256" : pystr; "root_tree_entries" : pystr; "root_subtree" : pystr].
Definition artifact_names : list (pystr * pystr * pystr) :=
  [("Image" : pystr, "kernel_size" : pystr, "kernel_sha256" : pystr); ("board.dtb" : pystr, "dtb_size" : pystr, "dtb_sha256" : pystr);
   ("initramfs.cpio.gz" : pystr, "initramfs_size" : pystr, "initramfs_sha256" : pystr)].

(** ** Bridges from the programs' tests to the contract *)
Lemma existsb_eq_in (x : pystr) l : existsb (λ y, y == x) l = true ↔ x ∈ l.
Proof.
  rewrite existsb_elem_of. setoid_rewrite bool_decide_eq_true.
  split; [intros (? & ? & ->); done | eauto].
Qed.

Lemma bundle_id_spec s :
  fullmatch (RSeq (RCls (λ c, is_lower c || is_digit c)) (rep 0 63 bundle_id_char)) s
    && negb (contains ".." s) && (s != "none") = true ↔ bundle_id s.
Proof.
  unfold bundle_id. rewrite !andb_true_iff, !negb_true_iff, bool_decide_eq_false, fullmatch_cls_seq.
  setoid_rewrite fullmatch_rep. split.
  - intros [[(c & t & -> & Hc & [_ Hl] & Hf) ?] ?]. split_and!; [by eauto | simpl; lia | | done..].
    constructor; [| done]. unfold bundle_id_char. by rewrite Hc.
  - intros ((c & t & -> & Hc) & Hl & Hf & ? & ?). split_and!; [| done..].
    apply Forall_cons in Hf as [_ Hf]. exists c, t. simpl in Hl. split_and!; auto; lia.
Qed.

Lemma hash_spec s : fullmatch (rep 64 0 is_hex) s && (s != zero_hash) = true ↔ trust_hash s.
Proof.
  unfold trust_hash. rewrite andb_true_iff, negb_true_iff, bool_decide_eq_false, fullmatch_rep.
  split; [intros [[? ?] ?] | intros (? & ? & ?)]; split_and!; auto; lia.
Qed.

(** The decimal test both programs make accepts exactly the canonical
    spellings, and [int] then gives the number. *)
Lemma decimal_test v :
  ((v == []) || negb (isascii v) || negb (isdecimal v) || (startswith v "0" && (v != "0"))) = false
  ↔ canonical_decimal v = true.
Proof.
  unfold canonical_decimal. rewrite !orb_false_iff, !negb_false_iff, andb_true_iff, negb_true_iff.
  split; [tauto |]. intros [Hd ?]. split_and!; auto.
  - unfold isdecimal in Hd. apply andb_true_iff in Hd as [Hd _]. by apply negb_true_iff in Hd.
  - unfold isdecimal, isascii in *. apply andb_true_iff in Hd as [_ Hd]. revert Hd.
    rewrite !forallb_Forall. intros Hd. eapply Forall_impl; [exact Hd |]. intros c Hc. char_lia.
Qed.

Lemma decimal_canonical v n : canonical_decimal v = true ∧ int10 v = n ↔ 0 ≤ n ∧ v = str_of_Z n.
Proof.
  split.
  - intros [Hc <-]. split; [| by rewrite str_int10].
    apply int10_nonneg. unfold canonical_decimal, isdecimal in Hc. b2p. done.
  - intros [? ->]. split; [by apply str_canonical | by apply int10_str].
Qed.

(** Every character the contract allows in a value is printable. *)
Definition printable (c : ascii) : Prop := 33 ≤ ord c ≤ 126.

Lemma identity_char_printable c : identity_char c = true → printable c.
Proof. revert c. by_ascii. Qed.
Lemma bundle_id_char_printable c : bundle_id_char c = true → printable c.
Proof. revert c. by_ascii. Qed.
Lemma hex_printable c : is_hex c = true → printable c.
Proof. revert c. by_ascii. Qed.
Lemma digit_printable c : is_digit c = true → printable c.
Proof. revert c. by_ascii. Qed.

(** A value: non-empty and printable. *)
Definition value (v : pystr) : Prop := v ≠ [] ∧ Forall printable v.

Lemma value_class (p : ascii → bool) v :
  (∀ c, p c = true → printable c) → v ≠ [] → Forall (λ c, p c = true) v → value v.
Proof. intros Hp Hv Hf. split; [done |]. eapply Forall_impl; [done |]. auto. Qed.

Lemma bundle_id_value s : bundle_id s → value s.
Proof.
  intros ((c & t & -> & _) & _ & Hf & _). by eapply value_class; [apply bundle_id_char_printable | |].
Qed.
Lemma identity_value m s : identity m s → value s.
Proof. intros (? & _ & ? & _). by eapply value_class; [apply identity_char_printable | |]. Qed.
Lemma hash_value s : length s = 64%nat → Forall (λ c, is_hex c = true) s → value s.
Proof. intros Hl ?. eapply value_class; [apply hex_printable | by intros -> | done]. Qed.
Lemma zero_hash_value : value zero_hash.
Proof. apply hash_value; [done |]. by repeat constructor. Qed.
Lemma decimal_value n : 0 ≤ n → value (str_of_Z n).
Proof.
  intros H. pose proof (str_isdecimal n H) as Hd. unfold isdecimal in Hd. b2p.
  eapply value_class; [apply digit_printable | done |]. by apply forallb_Forall.
Qed.
Lemma profile_value s : s ∈ profiles → value s.
Proof.
  unfold profiles. rewrite !elem_of_cons, elem_of_nil.
  intros [->|[->|[->|[->|[]]]]]; split; try done; by repeat constructor.
Qed.
#[export] Hint Resolve bundle_id_value identity_value hash_value zero_hash_value decimal_value
  profile_value : pystr.
