(* ===== verification/BundleServer.v ===== *)
(** * The fixed recovery-bundle server: records and the manifest

    The pure part of tools/recovery_control/host_bundle_server.py: the
    identifier predicates, the canonical [name=value] record parser shared by
    requests and manifests, and [validate_manifest], the policy a bundle must
    meet before a byte of it is served.  The file system part is
    [ServerFiles], the socket part [ServerTransport]. *)

From S2P Require Import Prelude PyStr Regex Sha256 BundlePolicy.

(** ** Constants *)
Definition HASH_LENGTH : nat := 64.
Definition MANIFEST_MAX : Z := 4096.
Definition ARTIFACTS : list (pystr * Z * Z) :=
  [("manifest" : pystr, 1, MANIFEST_MAX);
   ("manifest.sig" : pystr, 64, 64);
   ("Image" : pystr, 64, 128 * 1024 * 1024);
   ("board.dtb" : pystr, 40, 2 * 1024 * 1024);
   ("initramfs.cpio.gz" : pystr, 2, 256 * 1024 * 1024)].
Definition MANIFEST_FIELDS : list pystr :=
  ["format" : pystr; "bundle" : pystr; "profile" : pystr; "kernel_size" : pystr;
   "kernel_sha256" : pystr; "dtb_size" : pystr; "dtb_sha256" : pystr;
   "initramfs_size" : pystr; "initramfs_sha256" : pystr; "target_id" : pystr;
   "target_release" : pystr; "rollback_timeout" : pystr; "target_timeout" : pystr;
   "a660_command_manifest_sha256" : pystr; "root_generation" : pystr;
   "root_tree_sha256" : pystr; "root_seal_sha256" : pystr;
   "root_tree_entries" : pystr; "root_subtree" : pystr].
Definition REQUEST_FIELDS : list pystr :=
  ["format" : pystr; "bundle" : pystr; "manifest_sha256" : pystr].
Definition PROFILES : list pystr :=
  ["diagnostic-initramfs-v1" : pystr; "network-root-v1" : pystr;
   "persistent-root-ro-v1" : pystr; "stock-charging-recovery-v1" : pystr].
Definition NETWORK_PROFILES : list pystr :=
  ["diagnostic-initramfs-v1" : pystr; "network-root-v1" : pystr].

Definition HEX_SHA256 : rx := rep 64 0 is_hex.
Definition id_start (c : ascii) : bool := is_lower c || is_digit c.
Definition id_char (c : ascii) : bool := is_lower c || is_digit c || one_of "._-" c.
Definition BUNDLE_ID : rx := RSeq (RCls id_start) (rep 0 63 id_char).
Definition identity_char (c : ascii) : bool := is_alnum c || one_of "_+.-" c.
Definition IDENTITY : rx := rep 1 95 identity_char.

(** A membership test [value in {..}] *)
Definition is_in (x : pystr) (l : list pystr) : bool := existsb (λ y, y == x) l.

(** ** Identifier predicates *)
Definition valid_bundle (value : pystr) : bool :=
  fullmatch BUNDLE_ID value && negb (contains ".." value) && (value != "none").

Definition ZERO_HASH : pystr := replicate HASH_LENGTH "0"%char.

Definition valid_hash (value : pystr) : bool :=
  fullmatch HEX_SHA256 value && (value != ZERO_HASH).

Definition validate_identity (value : pystr) (maximum : Z) : bool :=
  (len value <=? maximum) && fullmatch IDENTITY value
  && negb (startswith value ".") && negb (contains ".." value).

Definition parse_decimal (value : pystr) (minimum maximum : Z) : res Z :=
  refuse_if ((value == []) || negb (isascii value) || negb (isdecimal value)
             || (startswith value "0" && (value != "0")))
    ServerRefusal "noncanonical decimal" ;;
  let parsed := int10 value in
  refuse_if ((parsed <? minimum) || (maximum <? parsed)) ServerRefusal "decimal outside policy" ;;
  Ok parsed.

(** ** Records *)
Definition unsafe_char (c : ascii) : bool := (ord c <? 33) || (126 <? ord c).

Definition parse_line (result : gmap pystr pystr) (p : pystr * pystr) : res (gmap pystr pystr) :=
  let '(expected, line) := p in
  let '(name, separator, value) := partition "=" line in
  refuse_if (negb separator || (name != expected) || (value == []))
    ServerRefusal "wrong record field" ;;
  refuse_if (existsb unsafe_char value) ServerRefusal "unsafe record value" ;;
  Ok (<[name := value]> result).

Definition parse_record (payload : bytes) (fields : list pystr) : res (gmap pystr pystr) :=
  refuse_if ((payload == []) || negb (endswith payload [LF])
             || has_char "000" payload || has_char CR payload)
    ServerRefusal "noncanonical record" ;;
  refuse_if (negb (isascii payload)) ServerRefusal "non-ASCII record" ;;
  let lines := splitlines payload in
  refuse_if (negb (len lines =? len fields)) ServerRefusal "wrong record field count" ;;
  fold_res parse_line ∅ (zip fields lines).

(** [fields[k]] for a key the parser has just put in the record. *)
Definition field (fields : gmap pystr pystr) (k : pystr) : pystr := fields !!! k.

(** ** The manifest policy *)
Definition bindings : list (pystr * pystr * pystr) :=
  [("Image" : pystr, "kernel_size" : pystr, "kernel_sha256" : pystr);
   ("board.dtb" : pystr, "dtb_size" : pystr, "dtb_sha256" : pystr);
   ("initramfs.cpio.gz" : pystr, "initramfs_size" : pystr, "initramfs_sha256" : pystr)].

Definition check_binding (fields : gmap pystr pystr) (observed : gmap pystr (Z * pystr))
    (b : pystr * pystr * pystr) : res unit :=
  let '(artifact, size_field, hash_field) := b in
  let '(size, digest) := observed !!! artifact in
  parsed ← parse_decimal (field fields size_field) 1 (256 * 1024 * 1024);
  refuse_if (negb (parsed =? size) || (field fields hash_field != digest)
             || negb (valid_hash (field fields hash_field)))
    ServerRefusal "manifest artifact binding mismatch".

(** The trust tuple of the profile. *)
Definition check_trust (f : pystr → pystr) : res unit :=
  if is_in (f "profile") NETWORK_PROFILES then
    refuse_if (negb (valid_hash (f "a660_command_manifest_sha256"))
               || (f "root_generation" != "arch-a")
               || negb (valid_hash (f "root_tree_sha256"))
               || negb (valid_hash (f "root_seal_sha256"))
               || (f "root_subtree" != "/"))
      ServerRefusal "network-root trust identity is invalid" ;;
    parse_decimal (f "root_tree_entries") 1 (2 ^ 63 - 1) ;; Ok ()
  else
    refuse_if ((f "a660_command_manifest_sha256" != ZERO_HASH)
               || (f "root_generation" != "none")
               || (f "root_tree_sha256" != ZERO_HASH)
               || (f "root_seal_sha256" != ZERO_HASH)
               || (f "root_tree_entries" != "0")
               || (f "root_subtree" != "none"))
      ServerRefusal "non-network profile carries root trust identity".

Definition validate_manifest (payload : bytes) (bundle manifest_hash : pystr)
    (observed : gmap pystr (Z * pystr)) : res unit :=
  fields ← parse_record payload MANIFEST_FIELDS;
  let f := field fields in
  refuse_if ((f "format" != "rog5-recovery-bundle-v2")
             || (f "bundle" != bundle)
             || negb (is_in (f "profile") PROFILES)
             || (sha256 payload != manifest_hash)
             || negb (validate_identity (f "target_id") 64)
             || negb (validate_identity (f "target_release") 96))
    ServerRefusal "manifest identity mismatch" ;;
  rollback ← parse_decimal (f "rollback_timeout") 60 900;
  target ← parse_decimal (f "target_timeout") 30 600;
  refuse_if (rollback - 30 <? target) ServerRefusal "manifest timeout margin is unsafe" ;;
  refuse_if ((f "profile" == "persistent-root-ro-v1") && (rollback <? 300))
    ServerRefusal "persistent profile rollback is too short" ;;
  refuse_if ((f "profile" == "stock-charging-recovery-v1") && (rollback <? 900))
    ServerRefusal "stock charging profile rollback is too short" ;;
  check_trust f ;;
  for_each (check_binding fields observed) bindings.

(** ** What a record says *)
Definition record_line (name value : pystr) : pystr := name ++ "="%char :: value.
Definition render (fields values : list pystr) : bytes := unlines (zip_with record_line fields values).
Definition safe_char (c : ascii) : bool := negb (unsafe_char c).
Definition safe_value (v : pystr) : Prop := v ≠ [] ∧ Forall (λ c, unsafe_char c = false) v.
(** A field name: printable and free of the separator. *)
Definition field_name (n : pystr) : Prop := Forall (λ c, unsafe_char c = false ∧ c ≠ "="%char) n.
Definition record_of (fields values : list pystr) : gmap pystr pystr := list_to_map (zip fields values).

(** ** Helper lemmas *)
Lemma safe_one_line c : unsafe_char c = false → is_linebreak c = false ∧ ord c < 128 ∧ c ≠ "000"%char ∧ c ≠ CR ∧ c ≠ LF.
Proof.
  unfold unsafe_char. intros H. b2p. split; [char_lia |]. split; [lia |].
  split_and!; intros ->; unfold ord in *; simpl in *; lia.
Qed.

Lemma eq_char_safe : unsafe_char "=" = false.
Proof. reflexivity. Qed.

Lemma field_name_no_eq n : field_name n → "="%char ∉ n.
Proof. unfold field_name. rewrite Forall_forall. intros H Hin. by destruct (H _ Hin). Qed.

Lemma parse_line_Ok acc n line d :
  field_name n →
  parse_line acc (n, line) = Ok d ↔ ∃ v, line = record_line n v ∧ safe_value v ∧ d = <[n := v]> acc.
Proof.
  intros Hn. unfold parse_line, record_line, safe_value. split.
  - destruct (partition "=" line) as [[m s] v] eqn:E. intros H. inv_res. b2p.
    apply existsb_false in H1. subst s m.
    apply partition_found in E as [-> _]. eauto.
  - intros (v & -> & [Hv Hs] & ->). rewrite partition_first by by apply field_name_no_eq.
    rewrite !(bool_decide_true (n = n)), (bool_decide_false (v = [])) by done.
    apply existsb_false in Hs. simpl. by rewrite Hs.
Qed.

Lemma fold_parse_line fields lines acc d :
  Forall field_name fields → length lines = length fields →
  fold_res parse_line acc (zip fields lines) = Ok d ↔
  ∃ values, length values = length fields ∧ Forall safe_value values ∧
    lines = zip_with record_line fields values ∧
    d = foldl (λ m p, <[p.1 := p.2]> m) acc (zip fields values).
Proof.
  intros Hf. revert lines acc. induction Hf as [|n fields Hn Hf IH]; intros [|line lines] acc Hl; try done.
  - simpl. split; [intros [= ->]; by exists [] | intros ([|] & ? & ? & ? & ->); done].
  - simpl in Hl |- *. rewrite bind_Ok. setoid_rewrite (parse_line_Ok acc n line _ Hn).
    setoid_rewrite IH; [| lia]. split.
    + intros (a & (v & -> & Hv & ->) & values & ? & ? & -> & ->).
      exists (v :: values). simpl. repeat split; auto.
    + intros ([|v values] & ? & Hs & Hlines & ->); [done |]. simplify_eq/=.
      apply Forall_cons in Hs as [? ?]. eexists. split; [eauto |]. exists values. auto.
Qed.

Lemma foldl_insert_NoDup {V} (l : list (pystr * V)) (acc : gmap pystr V) :
  NoDup l.*1 → (∀ k, k ∈ l.*1 → acc !! k = None) →
  foldl (λ m p, <[p.1 := p.2]> m) acc l = list_to_map l ∪ acc.
Proof.
  revert acc. induction l as [|[k v] l IH]; intros acc Hd Ha; simpl.
  - by rewrite (left_id_L ∅ (∪)).
  - apply NoDup_cons in Hd as [Hk Hd]. rewrite IH; [| done |].
    + rewrite <-insert_union_r by by apply not_elem_of_list_to_map_1.
      by rewrite insert_union_l.
    + intros k' Hk'. rewrite lookup_insert_ne by set_solver. apply Ha. set_solver.
Qed.

Lemma zip_fst {A B} (k : list A) (v : list B) : length v = length k → (zip k v).*1 = k.
Proof. intros H. apply fst_zip. lia. Qed.

Lemma record_line_one_line n v : field_name n → safe_value v → one_line (record_line n v).
Proof.
  intros Hn [_ Hv]. unfold record_line, one_line. apply Forall_app. split.
  - eapply Forall_impl; [done |]. intros c [? ?]. by apply safe_one_line.
  - constructor; [done |]. eapply Forall_impl; [done |]. intros. by apply safe_one_line.
Qed.

Lemma record_lines_one_line fields values :
  Forall field_name fields → Forall safe_value values →
  Forall one_line (zip_with record_line fields values).
Proof.
  intros Hf. revert values. induction Hf as [|n fields Hn Hf IH]; intros [|v values] Hv; simpl; try constructor.
  - apply Forall_cons in Hv as [? ?]. by apply record_line_one_line.
  - apply Forall_cons in Hv as [? ?]. by apply IH.
Qed.

(** Every character of a rendered record is a safe character or LF. *)
Lemma render_chars fields values :
  Forall field_name fields → Forall safe_value values →
  Forall (λ c, unsafe_char c = false ∨ c = LF) (render fields values).
Proof.
  intros Hf. unfold render, unlines. revert values.
  induction Hf as [|n fields Hn Hf IH]; intros [|v values] Hv; simpl; try constructor.
  apply Forall_cons in Hv as [[_ Hv] Hvs]. unfold record_line. rewrite <-!app_assoc.
  repeat (apply Forall_app; split).
  - eapply Forall_impl; [done |]. intros c []. by left.
  - constructor; [by left |]. eapply Forall_impl; [done |]. intros ? ?. by left.
  - constructor; [by right | constructor].
  - by apply IH.
Qed.

Lemma render_ends fields values :
  fields ≠ [] → length values = length fields → endswith (render fields values) [LF] = true ∧ render fields values ≠ [].
Proof.
  intros Hne Hl. assert (∃ t, render fields values = t ++ [LF]) as [t ->].
  2: { split; [apply endswith_spec; eauto | by destruct t]. }
  unfold render, unlines. revert values Hl. induction fields as [|n fields IH]; intros [|v values] Hl; try done.
  destruct fields as [|n' fields].
  - destruct values; [| done]. simpl. rewrite app_nil_r. eauto.
  - destruct (IH ltac:(done) values) as [t Ht]; [simpl in *; lia |].
    simpl in *. rewrite Ht. exists ((record_line n v ++ [LF]) ++ t). by rewrite app_assoc.
Qed.

Definition fields_ok (fields : list pystr) : Prop :=
  fields ≠ [] ∧ NoDup fields ∧ Forall field_name fields.

(** A payload whose only line boundary is LF. *)
Definition lf_only (payload : bytes) : Prop := Forall (λ c, is_linebreak c = true → c = LF) payload.

Instance field_name_dec n : Decision (field_name n).
Proof. unfold field_name. apply _. Defined.
Instance fields_ok_dec fields : Decision (fields_ok fields).
Proof. unfold fields_ok. apply _. Defined.
Lemma manifest_fields_ok : fields_ok MANIFEST_FIELDS.
Proof. by apply (bool_decide_eq_true_1 _). Qed.
Lemma request_fields_ok : fields_ok REQUEST_FIELDS.
Proof. by apply (bool_decide_eq_true_1 _). Qed.

(** The parser accepts a payload iff its lines are the fields in order, each
    with a safe value; the record is then exactly those values. *)
Lemma parse_record_Ok payload fields d :
  fields_ok fields →
  parse_record payload fields = Ok d ↔
  ((payload == []) || negb (endswith payload [LF]) || has_char "000" payload || has_char CR payload) = false ∧
  isascii payload = true ∧
  ∃ values, length values = length fields ∧ Forall safe_value values ∧
    splitlines payload = zip_with record_line fields values ∧ d = record_of fields values.
Proof.
  intros (Hne & Hnd & Hf). unfold parse_record. split.
  - intros H. inv_res. apply negb_false_iff, Z.eqb_eq in H2. apply negb_false_iff in H1.
    rewrite fold_parse_line in H; [| done | unfold len in *; lia].
    destruct H as (values & Hl & Hv & Hs & ->). split_and!; [done..|].
    exists values. split_and!; [done..|]. rewrite foldl_insert_NoDup.
    + by rewrite (right_id_L ∅ (∪)).
    + by rewrite zip_fst.
    + done.
  - intros (-> & -> & values & Hl & Hv & Hs & ->). simpl.
    assert (len (splitlines payload) = len fields) as ->.
    { unfold len. rewrite Hs, length_zip_with. lia. }
    rewrite Z.eqb_refl. simpl. apply fold_parse_line; [done | |].
    + rewrite Hs, length_zip_with. lia.
    + exists values. split_and!; [done..|]. rewrite foldl_insert_NoDup.
      * by rewrite (right_id_L ∅ (∪)).
      * by rewrite zip_fst.
      * done.
Qed.

Lemma render_guards fields values :
  fields_ok fields → length values = length fields → Forall safe_value values →
  let p := render fields values in
  ((p == []) || negb (endswith p [LF]) || has_char "000" p || has_char CR p) = false ∧
  isascii p = true ∧ lf_only p.
Proof.
  intros (Hne & _ & Hf) Hl Hv p. unfold p.
  destruct (render_ends fields values Hne Hl) as [He Hn].
  pose proof (render_chars fields values Hf Hv) as Hc.
  rewrite He, (bool_decide_false _ Hn). simpl. split_and!.
  - apply orb_false_iff. split; apply has_char_false; intros Hin;
      rewrite Forall_forall in Hc; destruct (Hc _ Hin); done.
  - unfold isascii. apply forallb_Forall. eapply Forall_impl; [done |]. intros c [H| ->]; [| done].
    apply Z.ltb_lt. by apply safe_one_line.
  - eapply Forall_impl; [done |]. intros c [H| ->]; [| done]. apply safe_one_line in H as [-> _]. done.
Qed.

Lemma parse_record_rendered fields values :
  fields_ok fields → length values = length fields → Forall safe_value values →
  parse_record (render fields values) fields = Ok (record_of fields values).
Proof.
  intros Hok Hl Hv. destruct (render_guards fields values Hok Hl Hv) as (Hg & Ha & _).
  apply parse_record_Ok; [done |]. split_and!; [done..|]. exists values. split_and!; [done..| |done].
  unfold render. apply splitlines_unlines. destruct Hok as (_ & _ & ?). by apply record_lines_one_line.
Qed.

Lemma parse_record_lf payload fields d :
  fields_ok fields → lf_only payload →
  parse_record payload fields = Ok d →
  ∃ values, length values = length fields ∧ Forall safe_value values ∧
    payload = render fields values ∧ d = record_of fields values.
Proof.
  intros Hok Hlf (Hg & _ & values & ? & ? & Hs & ->)%parse_record_Ok; [| done].
  exists values. split_and!; [done..| |done]. unfold render. rewrite <-Hs.
  symmetry. apply unlines_splitlines; [done |]. apply orb_false_iff in Hg as [Hg _].
  apply orb_false_iff in Hg as [Hg _]. apply orb_false_iff in Hg as [_ Hg]. by apply negb_false_iff in Hg.
Qed.

(** ** The bytes of a record *)
Lemma record_bytes_closed fields values ends : record_bytes fields values ends = closed (zip_with record_line fields values) ends.
Proof.
  unfold record_bytes, closed. f_equal. revert values ends. induction fields as [|n fields IH]; intros [|v values] [|e ends]; simpl; try done.
  rewrite IH. unfold record_line. by rewrite <- app_assoc.
Qed.
Lemma safe_value_value v : safe_value v ↔ value v.
Proof.
  unfold safe_value, value. apply and_iff_compat_l, Forall_iff. intros c. unfold unsafe_char, printable. rewrite orb_false_iff. split; intros; b2p; lia.
Qed.
Lemma line_end_in c : line_end c ∧ ord c < 128 ↔ c ∈ line_ends.
Proof.
  assert (bool_decide (line_end c ∧ ord c < 128 ↔ c ∈ line_ends) = true) as H; [| by apply bool_decide_eq_true in H].
  revert c. by_ascii.
Qed.
Lemma record_bytes_chars fields values ends : Forall field_name fields → Forall value values → Forall (λ e, e ∈ line_ends) ends →
  Forall (λ c, unsafe_char c = false ∨ c ∈ line_ends) (record_bytes fields values ends).
Proof.
  unfold record_bytes. intros Hf. revert values ends. induction Hf as [|n fields Hn Hf IH]; intros [|v values] [|e ends] Hv He; simpl; try constructor.
  apply Forall_cons in Hv as [[_ Hv]%safe_value_value Hvs]. apply Forall_cons in He as [He Hes]. rewrite <- !app_assoc.
  repeat (apply Forall_app; split).
  - eapply Forall_impl; [exact Hn |]. intros c []. by left.
  - constructor; [by left |]. apply Forall_app. split; [| constructor; [by right | constructor]].
    eapply Forall_impl; [exact Hv |]. intros c ?. by left.
  - by apply IH.
Qed.
Lemma record_bytes_guards fields values ends : fields_ok fields → length values = length fields → length ends = length fields →
  Forall value values → Forall (λ e, e ∈ line_ends) ends → last ends = Some LF →
  let p := record_bytes fields values ends in
  ((p == []) || negb (endswith p [LF]) || has_char "000" p || has_char CR p) = false ∧ isascii p = true.
Proof.
  intros (Hne & _ & Hf) Hl Hle Hv He Hlast p.
  assert (Forall (λ c, unsafe_char c = false ∨ c ∈ line_ends) p) as Hc by (by apply record_bytes_chars).
  assert (∃ t, p = t ++ [LF]) as [t Ht].
  { unfold p. rewrite record_bytes_closed. apply last_Some in Hlast as [es ->].
    destruct (exists_last (l := zip_with record_line fields values)) as (ls & l & Hls).
    { intros Hnil. apply (f_equal length) in Hnil. rewrite length_zip_with, Hl, Nat.min_id in Hnil. by destruct fields. }
    rewrite Hls. exists (closed ls es ++ l). apply (f_equal length) in Hls. rewrite length_zip_with, length_app in Hls. rewrite length_app in Hle. simpl in *.
    unfold closed. rewrite zip_with_app by lia. simpl. rewrite concat_app, <- app_assoc. simpl. by rewrite app_nil_r. }
  assert (endswith p [LF] = true) as -> by (apply endswith_spec; eauto). rewrite (bool_decide_false (p = [])) by (rewrite Ht; by destruct t).
  rewrite Forall_forall in Hc. split.
  - simpl. apply orb_false_iff. split; apply has_char_false; intros Hin; (destruct (Hc _ Hin) as [?|Hb]; [done |]; by apply line_end_in in Hb as [[? ?] _]).
  - unfold isascii. apply forallb_forall. intros c Hin%list_elem_of_In. apply Z.ltb_lt. destruct (Hc _ Hin) as [?|Hin'].
    + by apply safe_one_line.
    + by apply line_end_in.
Qed.
Lemma parse_record_bytes payload fields d : fields_ok fields →
  parse_record payload fields = Ok d ↔
  ∃ values ends, length values = length fields ∧ length ends = length fields ∧ Forall value values ∧
    Forall (λ e, e ∈ line_ends) ends ∧ last ends = Some LF ∧ payload = record_bytes fields values ends ∧ d = record_of fields values.
Proof.
  intros Hok. rewrite parse_record_Ok by done. split.
  - intros (Hg & Ha & values & Hl & Hv & Hs & ->). rewrite !orb_false_iff in Hg. destruct Hg as (((_ & He) & _) & Hcr).
    apply negb_false_iff, endswith_spec in He as [t Ht]. apply has_char_false in Hcr.
    destruct (splitlines_ends [] payload) as (ends & Hle & Hends & Hin & Heq & Hlast); [done | done | |].
    { rewrite Ht, last_snoc. by intros e [= <-]. }
    fold (splitlines payload) in Hle, Heq. rewrite Hs in Hle, Heq. exists values, ends. split_and!; try done.
    + rewrite <- Hle, length_zip_with. lia.
    + eapply Forall_impl; [exact Hv |]. intros v ?. by apply safe_value_value.
    + apply Forall_forall. intros e Hine. apply line_end_in. split; [by eapply Forall_forall in Hends|].
      eapply Forall_forall in Hin; [| exact Hine]. unfold isascii in Ha. rewrite forallb_forall in Ha. apply list_elem_of_In, Ha in Hin. by apply Z.ltb_lt.
    + by rewrite Hlast, Ht, last_snoc.
    + by rewrite record_bytes_closed.
  - intros (values & ends & Hl & Hle & Hv & He & Hlast & -> & ->).
    destruct (record_bytes_guards fields values ends Hok Hl Hle Hv He Hlast) as [Hg Ha]. split; [exact Hg |]. split; [exact Ha |].
    exists values. assert (Forall safe_value values) as Hsafe by (eapply Forall_impl; [exact Hv |]; intros v ?; by apply safe_value_value).
    split_and!; [done | done | | done]. rewrite record_bytes_closed. destruct Hok as (_ & _ & Hf). apply splitlines_closed.
    + by apply record_lines_one_line.
    + eapply Forall_impl; [exact He |]. intros e Hin. by apply line_end_in.
    + rewrite length_zip_with. lia.
Qed.

(** Reading a field of a record: the value at the field's position. *)
Fixpoint assoc (k : pystr) (l : list (pystr * pystr)) : pystr :=
  match l with [] => [] | (k', v) :: l => if k' == k then v else assoc k l end.
Lemma field_record_of fields values k :
  field (record_of fields values) k = assoc k (zip fields values).
Proof.
  unfold field, record_of. induction (zip fields values) as [|[k' v] l IH]; [done |]. simpl.
  case_bool_decide as E.
  - subst. by rewrite lookup_total_insert_eq.
  - by rewrite lookup_total_insert_ne.
Qed.

(** ** The server implements the contract *)
Lemma is_in_spec x l : is_in x l = true ↔ x ∈ l.
Proof. apply existsb_eq_in. Qed.

Lemma valid_bundle_spec s : valid_bundle s = true ↔ bundle_id s.
Proof. apply bundle_id_spec. Qed.

Lemma valid_hash_spec s : valid_hash s = true ↔ trust_hash s.
Proof. apply hash_spec. Qed.

Lemma validate_identity_spec s m : m ≤ 96 → validate_identity s m = true ↔ identity m s.
Proof.
  intros Hm. unfold validate_identity, identity, IDENTITY.
  rewrite !andb_true_iff, !negb_true_iff, Z.leb_le, fullmatch_rep.
  change BundleServer.identity_char with BundlePolicy.identity_char. unfold len. split.
  - intros [[[? [? ?]] ?] ?]. split_and!; auto. intros ->. simpl in *. lia.
  - intros (? & ? & ? & ? & ?). split_and!; auto; [| lia]. destruct s; [done | simpl; lia].
Qed.

Lemma parse_decimal_Ok v lo hi n : 0 ≤ lo →
  parse_decimal v lo hi = Ok n ↔ v = str_of_Z n ∧ lo ≤ n ≤ hi.
Proof.
  intros Hlo. unfold parse_decimal. split.
  - intros H. guard_inv H as Hc%decimal_test. guard_inv H as Hb%orb_false_iff. injection H as <-.
    destruct (proj1 (decimal_canonical v (int10 v))) as [? ?]; [done |]. b2p. split; [done | lia].
  - intros [-> ?]. destruct (proj2 (decimal_canonical (str_of_Z n) n)) as [Hc Hi]; [split; [lia | done] |].
    apply decimal_test in Hc. rewrite Hc, Hi. simpl.
    destruct (n <? lo) eqn:E1; b2p; [lia |]. destruct (hi <? n) eqn:E2; b2p; [lia |]. done.
Qed.

Definition binds (f : pystr → pystr) (observed : gmap pystr (Z * pystr)) (b : pystr * pystr * pystr) : Prop :=
  let '(artifact, size_field, hash_field) := b in
  let '(size, digest) := observed !!! artifact in
  f size_field = str_of_Z size ∧ 1 ≤ size ≤ 256 * 1024 * 1024 ∧
  f hash_field = digest ∧ trust_hash digest.

Lemma check_binding_Ok fields observed b :
  check_binding fields observed b = Ok () ↔ binds (field fields) observed b.
Proof.
  destruct b as [[artifact size_field] hash_field]. unfold check_binding, binds.
  destruct (observed !!! artifact) as [size digest]. split.
  - intros H. bind_inv H as n Hn. apply parse_decimal_Ok in Hn as [? ?]; [| lia].
    rewrite refuse_if_Ok, !orb_false_iff, !negb_false_iff, bool_decide_eq_true, valid_hash_spec, Z.eqb_eq in H.
    naive_solver.
  - intros (Hs & Hb & Hd & Ht). rewrite (proj2 (parse_decimal_Ok _ 1 _ size ltac:(lia))) by done.
    simpl. rewrite Z.eqb_refl, Hd, bool_decide_true by done. apply valid_hash_spec in Ht. by rewrite Ht.
Qed.

Lemma check_trust_Ok f :
  check_trust f = Ok () ↔
  (f "profile" ∈ network_profiles →
    trust_hash (f "a660_command_manifest_sha256") ∧ f "root_generation" = "arch-a" ∧
    trust_hash (f "root_tree_sha256") ∧ trust_hash (f "root_seal_sha256") ∧
    decimal 1 (2 ^ 63 - 1) (f "root_tree_entries") ∧ f "root_subtree" = "/") ∧
  (f "profile" ∉ network_profiles →
    f "a660_command_manifest_sha256" = zero_hash ∧ f "root_generation" = "none" ∧
    f "root_tree_sha256" = zero_hash ∧ f "root_seal_sha256" = zero_hash ∧
    f "root_tree_entries" = "0" ∧ f "root_subtree" = "none").
Proof.
  unfold check_trust. change network_profiles with NETWORK_PROFILES.
  destruct (is_in (f "profile") NETWORK_PROFILES) eqn:E.
  - apply is_in_spec in E. split.
    + intros H. guard_inv H as Hg. bind_inv H as n Hn.
      rewrite !orb_false_iff, !negb_false_iff, !bool_decide_eq_true, !valid_hash_spec in Hg.
      apply parse_decimal_Ok in Hn; [| lia]. unfold decimal. naive_solver.
    + intros [H _]. destruct (H E) as (H1 & H2 & H3 & H4 & (n & ? & Hn) & H5).
      rewrite refuse_if_pass, (proj2 (parse_decimal_Ok _ 1 (2 ^ 63 - 1) n ltac:(lia))); [done | done |].
      rewrite !orb_false_iff, !negb_false_iff, !bool_decide_eq_true, !valid_hash_spec. done.
  - assert (f "profile" ∉ NETWORK_PROFILES) as E' by (intros H; apply is_in_spec in H; congruence).
    rewrite refuse_if_Ok, !orb_false_iff, !negb_false_iff, !bool_decide_eq_true. tauto.
Qed.

Lemma validate_manifest_Ok payload bundle manifest_hash observed :
  validate_manifest payload bundle manifest_hash observed = Ok () ↔
  ∃ d, parse_record payload MANIFEST_FIELDS = Ok d ∧
    field d "format" = "rog5-recovery-bundle-v2" ∧ field d "bundle" = bundle ∧
    sha256 payload = manifest_hash ∧ contract minimum_rollback (field d) ∧
    Forall (binds (field d) observed) bindings.
Proof.
  unfold validate_manifest. rewrite bind_Ok. f_equiv. intros d. cbv zeta.
  generalize (field d) as f, (check_binding_Ok d observed). intros f Hcb.
  apply and_iff_compat_l. split.
  - intros H. guard_inv H as Hg. bind_inv H as r Hr. bind_inv H as t Ht.
    guard_inv H as Hm. guard_inv H as Hp. guard_inv H as Hs. bind_inv H as [] Htr.
    rewrite !orb_false_iff, !negb_false_iff, !bool_decide_eq_true, is_in_spec in Hg.
    rewrite !validate_identity_spec in Hg by lia.
    apply parse_decimal_Ok in Hr as [? ?]; [| lia]. apply parse_decimal_Ok in Ht as [? ?]; [| lia].
    apply check_trust_Ok in Htr as [? ?]. apply for_each_Ok in H.
    destruct_and!. split_and!; [done..| |].
    + constructor; [done..| | done | done].
      exists r, t. split_and!; [done| done | b2p; lia..|]. unfold minimum_rollback.
      repeat case_bool_decide; simpl in *; b2p; lia.
    + eapply Forall_impl; [done |]. intros b. apply Hcb.
  - intros (Hf & Hb & Hh & [Hpr Hi1 Hi2 (r & t & Hr & Ht & ? & ? & ? & Hm) Hn Hl] & Hbind).
    rewrite refuse_if_pass.
    2: { rewrite !orb_false_iff, !negb_false_iff, !bool_decide_eq_true, is_in_spec.
         rewrite !validate_identity_spec by lia. done. }
    rewrite (proj2 (parse_decimal_Ok _ 60 900 r ltac:(lia))) by done.
    rewrite (proj2 (parse_decimal_Ok _ 30 600 t ltac:(lia))) by done. cbn [mbind res_mbind res_bind].
    unfold minimum_rollback in Hm. rewrite !refuse_if_pass; [| repeat case_bool_decide; simpl; try done; lia..].
    rewrite (proj2 (check_trust_Ok f)) by done. cbn [mbind res_mbind res_bind].
    apply for_each_Ok. eapply Forall_impl; [done |]. intros b. apply Hcb.
Qed.

Lemma binds_ext f g observed b : (∀ k, f k = g k) → binds f observed b → binds g observed b.
Proof. destruct b as [[a sz] h]. unfold binds. intros Hfg. by rewrite !Hfg. Qed.

(** A stock-charging manifest that meets the rest of the contract with a
    rollback below 900 s is refused for that reason. *)
Lemma validate_manifest_short payload bundle manifest_hash observed d minimum :
  parse_record payload MANIFEST_FIELDS = Ok d →
  field d "format" = "rog5-recovery-bundle-v2" → field d "bundle" = bundle →
  sha256 payload = manifest_hash → contract minimum (field d) →
  field d "profile" = "stock-charging-recovery-v1" → field d "rollback_timeout" ≠ "900" →
  validate_manifest payload bundle manifest_hash observed
  = Raise (Exn ServerRefusal "stock charging profile rollback is too short").
Proof.
  intros Hp Hf Hb Hh [Hpr Hi1 Hi2 (r & t & Hr & Ht & ? & ? & ? & _) _ _] Hs Hn.
  unfold validate_manifest. rewrite Hp. cbn [mbind res_mbind res_bind]. cbv zeta.
  rewrite refuse_if_pass.
  2: { rewrite !orb_false_iff, !negb_false_iff, !bool_decide_eq_true, is_in_spec.
       rewrite !validate_identity_spec by lia. done. }
  rewrite (proj2 (parse_decimal_Ok _ 60 900 r ltac:(lia))) by done.
  rewrite (proj2 (parse_decimal_Ok _ 30 600 t ltac:(lia))) by done. cbn [mbind res_mbind res_bind].
  assert (r ≠ 900) by (intros ->; by apply Hn).
  rewrite refuse_if_pass by lia. rewrite Hs, refuse_if_pass by reflexivity.
  rewrite bool_decide_true by done. cbn [andb].
  destruct (r <? 900) eqn:E; b2p; [done | lia].
Qed.

(** ** Theorems *)

(** C10. Manifest acceptance is the contract, on the bytes.
    [validate_manifest] accepts exactly the payloads that are the nineteen
    named fields in their order, each with a printable value and closed by one
    line end, the last by LF, such that the values name the requested bundle,
    meet the contract with the rollback minimum of the profile, and give the
    observed size and digest of every artifact, and the payload has the
    requested SHA-256.  The profiles and line ends are the code's: the
    document names three of the four profiles and only LF. *)
Theorem validate_manifest_contract payload bundle manifest_hash observed :
  validate_manifest payload bundle manifest_hash observed = Ok () ↔
  ∃ values ends, length values = 19%nat ∧ length ends = 19%nat ∧ Forall value values ∧
    Forall (λ e, e ∈ line_ends) ends ∧ last ends = Some LF ∧ payload = record_bytes manifest_names values ends ∧
    let f k := assoc k (zip manifest_names values) in
    f "format" = "rog5-recovery-bundle-v2" ∧ f "bundle" = bundle ∧
    sha256 payload = manifest_hash ∧ contract minimum_rollback f ∧ Forall (binds f observed) artifact_names.
Proof.
  cbv zeta. rewrite validate_manifest_Ok. change artifact_names with bindings. split.
  - intros (d & Hd & Hf & Hb & Hh & Hc & Hbind). apply (parse_record_bytes _ _ _ manifest_fields_ok) in Hd as (values & ends & ? & ? & ? & ? & ? & ? & ->).
    exists values, ends. rewrite field_record_of in Hf, Hb. split_and!; try done.
    + by apply (contract_ext _ _ _ (field_record_of MANIFEST_FIELDS values)).
    + eapply Forall_impl; [exact Hbind |]. intros b. apply binds_ext, field_record_of.
  - intros (values & ends & ? & ? & ? & ? & ? & ? & Hf & Hb & Hh & Hc & Hbind). exists (record_of MANIFEST_FIELDS values). rewrite !field_record_of.
    split_and!; try done.
    + apply (parse_record_bytes _ _ _ manifest_fields_ok). by exists values, ends.
    + eapply contract_ext; [| exact Hc]. intros k. by rewrite field_record_of.
    + eapply Forall_impl; [exact Hbind |]. intros b. apply binds_ext. intros k. by rewrite field_record_of.
Qed.

(** Records round-trip.  Over payloads whose only line boundary is LF the
    parser is the inverse of printing: it accepts exactly the printed records
    of safe values and returns the values printed. *)
Theorem parse_record_canonical payload fields d :
  fields_ok fields → lf_only payload →
  parse_record payload fields = Ok d ↔
  ∃ values, length values = length fields ∧ Forall safe_value values ∧
    payload = render fields values ∧ d = record_of fields values.
Proof.
  intros Hok Hlf. split; [by apply parse_record_lf |].
  intros (values & Hl & Hv & -> & ->). by apply parse_record_rendered.
Qed.

Lemma parse_record_canonical_witness :
  parse_record "format=x" REQUEST_FIELDS = Ok ∅ ↔
  ∃ values, length values = length REQUEST_FIELDS ∧ Forall safe_value values ∧
    ("format=x" : bytes) = render REQUEST_FIELDS values ∧ ∅ = record_of REQUEST_FIELDS values.
Proof.
  apply (parse_record_canonical "format=x" REQUEST_FIELDS ∅); [apply request_fields_ok |].
  repeat constructor; vm_compute; discriminate.
Defined.

(** The separators [str.splitlines] honours beside LF and CR. *)
Definition vertical_tab : ascii := chr 11.
Definition request_with (sep : ascii) : bytes :=
  "format=rog5-fetch-request-v1" ++ sep :: "bundle=arch-a-01" ++ sep :: "manifest_sha256=ab" ++ [LF].

(** Records are not canonical outside that: separating the fields with
    vertical tabs instead of newlines gives a different payload, one no
    printed record equals, that parses to the same request. *)
Theorem parse_record_vertical_tab :
  request_with vertical_tab ≠ request_with LF ∧
  parse_record (request_with vertical_tab) REQUEST_FIELDS = parse_record (request_with LF) REQUEST_FIELDS ∧
  is_ok (parse_record (request_with vertical_tab) REQUEST_FIELDS) = true ∧
  ∀ values, Forall safe_value values → length values = length REQUEST_FIELDS →
    request_with vertical_tab ≠ render REQUEST_FIELDS values.
Proof.
  split_and!; [vm_compute; discriminate | vm_compute; reflexivity | vm_compute; reflexivity |].
  intros values Hv Hl Heq. assert (vertical_tab ∈ request_with vertical_tab) as Hin by (vm_compute; repeat constructor).
  rewrite Heq in Hin. destruct request_fields_ok as (_ & _ & Hf).
  pose proof (render_chars REQUEST_FIELDS values Hf Hv) as Hc. rewrite Forall_forall in Hc.
  by destruct (Hc _ Hin).
Qed.
