(* ===== verification/BundlePacker.v ===== *)
(** * The signed-bundle packer: configuration policy and manifest

    The pure part of scripts/host/prepare-recovery-runtime-bundle.py: the
    recipe ([Configuration]), the policy it must meet and the manifest text
    that is signed.  The theorems relate it to the server ([BundleServer]),
    which parses what the packer prints. *)

From S2P Require Import Prelude PyStr Regex Sha256 BundlePolicy.
From S2P Require BundleServer.

(** ** Constants *)
Definition id_start (c : ascii) : bool := is_lower c || is_digit c.
Definition id_char (c : ascii) : bool := is_lower c || is_digit c || one_of "._-" c.
Definition BUNDLE_ID : rx := RSeq (RCls id_start) (rep 0 63 id_char).
Definition identity_char (c : ascii) : bool := is_alnum c || one_of "_+.-" c.
Definition IDENTITY : rx := plus identity_char.
Definition SHA256 : rx := rep 64 0 is_hex.
Definition ZERO_HASH : pystr := replicate 64 "0"%char.
Definition PROFILES : list pystr :=
  ["diagnostic-initramfs-v1" : pystr; "network-root-v1" : pystr;
   "persistent-root-ro-v1" : pystr; "stock-charging-recovery-v1" : pystr].
Definition NETWORK_PROFILES : list pystr :=
  ["diagnostic-initramfs-v1" : pystr; "network-root-v1" : pystr].
Definition ARTIFACTS : list (pystr * Z * Z) :=
  [("Image" : pystr, 64, 128 * 1024 * 1024);
   ("board.dtb" : pystr, 40, 2 * 1024 * 1024);
   ("initramfs.cpio.gz" : pystr, 2, 256 * 1024 * 1024)].

Record Configuration := {
  bundle : pystr;
  profile : pystr;
  image : pystr;
  dtb : pystr;
  initramfs : pystr;
  target_id : pystr;
  target_release : pystr;
  rollback_timeout : pystr;
  target_timeout : pystr;
  a660_command_manifest_sha256 : pystr;
  root_generation : pystr;
  root_tree_sha256 : pystr;
  root_seal_sha256 : pystr;
  root_tree_entries : pystr;
  root_subtree : pystr;
  private_key : pystr;
  bundle_root : pystr
}.

Definition is_in (x : pystr) (l : list pystr) : bool := existsb (λ y, y == x) l.

(** ** Predicates *)
Definition valid_bundle (value : pystr) : bool :=
  fullmatch BUNDLE_ID value && negb (contains ".." value) && (value != "none").

Definition valid_identity (value : pystr) (maximum : Z) : bool :=
  (len value <=? maximum) && isascii value && fullmatch IDENTITY value
  && negb (startswith value ".") && negb (contains ".." value).

Definition valid_hash (value : pystr) : bool := fullmatch SHA256 value && (value != ZERO_HASH).

Definition parse_decimal (value : pystr) (minimum maximum : Z) (label : pystr) : res Z :=
  refuse_if ((value == []) || negb (isascii value) || negb (isdecimal value)
             || (startswith value "0" && (value != "0")))
    BundleError (label ++ " is not a canonical decimal") ;;
  let parsed := int10 value in
  refuse_if ((parsed <? minimum) || (maximum <? parsed))
    BundleError (label ++ " is outside policy") ;;
  Ok parsed.

(** The trust tuple of the profile. *)
Definition check_trust (config : Configuration) : res unit :=
  if is_in config.(profile) NETWORK_PROFILES then
    refuse_if (negb (valid_hash config.(a660_command_manifest_sha256))
               || (config.(root_generation) != "arch-a")
               || negb (valid_hash config.(root_tree_sha256))
               || negb (valid_hash config.(root_seal_sha256))
               || (config.(root_subtree) != "/"))
      BundleError "network-root trust identity is invalid" ;;
    parse_decimal config.(root_tree_entries) 1 (2 ^ 63 - 1) "root tree entry count" ;; Ok ()
  else
    refuse_if ((config.(a660_command_manifest_sha256) != ZERO_HASH)
               || (config.(root_generation) != "none")
               || (config.(root_tree_sha256) != ZERO_HASH)
               || (config.(root_seal_sha256) != ZERO_HASH)
               || (config.(root_tree_entries) != "0")
               || (config.(root_subtree) != "none"))
      BundleError "non-network profile carries root trust identity".

Definition validate_configuration (config : Configuration) : res unit :=
  refuse_if (negb (valid_bundle config.(bundle))) BundleError "bundle identifier is invalid" ;;
  refuse_if (negb (is_in config.(profile) PROFILES)) BundleError "bundle profile is invalid" ;;
  refuse_if (negb (valid_identity config.(target_id) 64)) BundleError "target identifier is invalid" ;;
  refuse_if (negb (valid_identity config.(target_release) 96)) BundleError "target release is invalid" ;;
  rollback ← parse_decimal config.(rollback_timeout) 60 900 "timeout";
  target ← parse_decimal config.(target_timeout) 30 600 "timeout";
  refuse_if (rollback - 30 <? target) BundleError "timeout rollback margin is unsafe" ;;
  refuse_if ((config.(profile) == "persistent-root-ro-v1") && (rollback <? 300))
    BundleError "persistent profile rollback is too short" ;;
  check_trust config.

(** ** The manifest text *)
Definition manifest_fields (config : Configuration) (observed : gmap pystr (Z * pystr)) : list (pystr * pystr) :=
  let size n := str_of_Z (observed !!! (n : pystr)).1 in
  let digest n := (observed !!! (n : pystr)).2 in
  [("format" : pystr, "rog5-recovery-bundle-v2" : pystr);
   ("bundle" : pystr, config.(bundle));
   ("profile" : pystr, config.(profile));
   ("kernel_size" : pystr, size "Image");
   ("kernel_sha256" : pystr, digest "Image");
   ("dtb_size" : pystr, size "board.dtb");
   ("dtb_sha256" : pystr, digest "board.dtb");
   ("initramfs_size" : pystr, size "initramfs.cpio.gz");
   ("initramfs_sha256" : pystr, digest "initramfs.cpio.gz");
   ("target_id" : pystr, config.(target_id));
   ("target_release" : pystr, config.(target_release));
   ("rollback_timeout" : pystr, config.(rollback_timeout));
   ("target_timeout" : pystr, config.(target_timeout));
   ("a660_command_manifest_sha256" : pystr, config.(a660_command_manifest_sha256));
   ("root_generation" : pystr, config.(root_generation));
   ("root_tree_sha256" : pystr, config.(root_tree_sha256));
   ("root_seal_sha256" : pystr, config.(root_seal_sha256));
   ("root_tree_entries" : pystr, config.(root_tree_entries));
   ("root_subtree" : pystr, config.(root_subtree))].

Definition manifest_bytes (config : Configuration) (observed : gmap pystr (Z * pystr)) : res bytes :=
  let payload := concat (map (λ '(name, value), name ++ "=" ++ value ++ [LF]) (manifest_fields config observed)) in
  refuse_if (negb (isascii payload)) UnicodeError "ordinal not in range(128)" ;;
  refuse_if (4096 <? len payload) BundleError "manifest exceeds size policy" ;;
  Ok payload.

(** ** The packer's policy is the contract, but for one profile *)

(** The rollback minimum the packer enforces: it has no
    [stock-charging-recovery-v1] case. *)
Definition packer_minimum (profile : pystr) : Z :=
  if profile == "persistent-root-ro-v1" then 300 else 60.

(** The manifest's fields, read by name. *)
Definition read (c : Configuration) (obs : gmap pystr (Z * pystr)) (k : pystr) : pystr :=
  BundleServer.assoc k (manifest_fields c obs).

Lemma packer_is_in_spec x l : is_in x l = true ↔ x ∈ l.
Proof. apply existsb_eq_in. Qed.
Lemma packer_valid_bundle_spec s : valid_bundle s = true ↔ bundle_id s.
Proof. apply bundle_id_spec. Qed.
Lemma packer_valid_hash_spec s : valid_hash s = true ↔ trust_hash s.
Proof. apply hash_spec. Qed.

Lemma valid_identity_spec s m : valid_identity s m = true ↔ identity m s.
Proof.
  unfold valid_identity, identity, IDENTITY.
  rewrite !andb_true_iff, !negb_true_iff, Z.leb_le, fullmatch_plus.
  change BundlePacker.identity_char with BundlePolicy.identity_char. split.
  - intros [[[[? ?] [? ?]] ?] ?]. done.
  - intros (? & ? & Hf & ? & ?). split_and!; auto. unfold isascii. apply forallb_Forall.
    eapply Forall_impl; [done |]. intros c Hc%identity_char_printable. unfold printable in Hc. lia.
Qed.

Lemma packer_parse_decimal_Ok v lo hi label n : 0 ≤ lo →
  parse_decimal v lo hi label = Ok n ↔ v = str_of_Z n ∧ lo ≤ n ≤ hi.
Proof.
  intros Hlo. unfold parse_decimal. split.
  - intros H. guard_inv H as Hc%decimal_test. guard_inv H as Hb%orb_false_iff. injection H as <-.
    destruct (proj1 (decimal_canonical v (int10 v))) as [? ?]; [done |]. b2p. split; [done | lia].
  - intros [-> ?]. destruct (proj2 (decimal_canonical (str_of_Z n) n)) as [Hc Hi]; [split; [lia | done] |].
    apply decimal_test in Hc. rewrite Hc, Hi. simpl.
    destruct (n <? lo) eqn:E1; b2p; [lia |]. destruct (hi <? n) eqn:E2; b2p; [lia |]. done.
Qed.

Lemma packer_check_trust_Ok c :
  check_trust c = Ok () ↔
  (c.(profile) ∈ network_profiles →
    trust_hash c.(a660_command_manifest_sha256) ∧ c.(root_generation) = "arch-a" ∧
    trust_hash c.(root_tree_sha256) ∧ trust_hash c.(root_seal_sha256) ∧
    decimal 1 (2 ^ 63 - 1) c.(root_tree_entries) ∧ c.(root_subtree) = "/") ∧
  (c.(profile) ∉ network_profiles →
    c.(a660_command_manifest_sha256) = zero_hash ∧ c.(root_generation) = "none" ∧
    c.(root_tree_sha256) = zero_hash ∧ c.(root_seal_sha256) = zero_hash ∧
    c.(root_tree_entries) = "0" ∧ c.(root_subtree) = "none").
Proof.
  unfold check_trust. change network_profiles with NETWORK_PROFILES.
  destruct (is_in c.(profile) NETWORK_PROFILES) eqn:E.
  - apply packer_is_in_spec in E. split.
    + intros H. guard_inv H as Hg. bind_inv H as n Hn.
      rewrite !orb_false_iff, !negb_false_iff, !bool_decide_eq_true, !packer_valid_hash_spec in Hg.
      apply packer_parse_decimal_Ok in Hn; [| lia]. unfold decimal. naive_solver.
    + intros [H _]. destruct (H E) as (H1 & H2 & H3 & H4 & (n & ? & Hn) & H5).
      rewrite refuse_if_pass, (proj2 (packer_parse_decimal_Ok _ 1 (2 ^ 63 - 1) _ n ltac:(lia))); [done | done |].
      rewrite !orb_false_iff, !negb_false_iff, !bool_decide_eq_true, !packer_valid_hash_spec. done.
  - assert (c.(profile) ∉ NETWORK_PROFILES) as E' by (intros H; apply packer_is_in_spec in H; congruence).
    rewrite refuse_if_Ok, !orb_false_iff, !negb_false_iff, !bool_decide_eq_true. tauto.
Qed.

Lemma validate_configuration_Ok c obs :
  validate_configuration c = Ok () ↔ bundle_id c.(bundle) ∧ contract packer_minimum (read c obs).
Proof.
  unfold validate_configuration. split.
  - intros H. guard_inv H as Hb%negb_false_iff. guard_inv H as Hp%negb_false_iff.
    guard_inv H as Hi%negb_false_iff. guard_inv H as Hr%negb_false_iff.
    bind_inv H as r Hrb. bind_inv H as t Ht. guard_inv H as Hm. guard_inv H as Hpm.
    apply packer_is_in_spec in Hp. rewrite valid_identity_spec in Hi, Hr. apply packer_valid_bundle_spec in Hb.
    apply packer_parse_decimal_Ok in Hrb as [? ?]; [| lia]. apply packer_parse_decimal_Ok in Ht as [? ?]; [| lia].
    apply packer_check_trust_Ok in H as [? ?]. split; [done |]. constructor; [done..| | done | done].
    exists r, t. split_and!; [done | done | b2p; lia..|]. unfold packer_minimum.
    change (read c obs "profile") with c.(profile). case_bool_decide; simpl in *; b2p; lia.
  - intros (Hb & [Hp Hi Hr (r & t & Hrb & Ht & ? & ? & ? & Hm) Hn Hl]).
    rewrite refuse_if_pass by by apply negb_false_iff, packer_valid_bundle_spec.
    rewrite refuse_if_pass by by apply negb_false_iff, packer_is_in_spec.
    rewrite refuse_if_pass by by apply negb_false_iff, valid_identity_spec.
    rewrite refuse_if_pass by by apply negb_false_iff, valid_identity_spec.
    rewrite (proj2 (packer_parse_decimal_Ok c.(rollback_timeout) 60 900 _ r ltac:(lia))) by done.
    rewrite (proj2 (packer_parse_decimal_Ok c.(target_timeout) 30 600 _ t ltac:(lia))) by done.
    cbn [mbind res_mbind res_bind]. unfold packer_minimum in Hm.
    change (read c obs "profile") with c.(profile) in *.
    rewrite !refuse_if_pass; [| repeat case_bool_decide; simpl; try done; lia..].
    by apply packer_check_trust_Ok.
Qed.

(** ** The manifest is the record of its fields *)
Lemma manifest_names c obs : (manifest_fields c obs).*1 = BundleServer.MANIFEST_FIELDS.
Proof. reflexivity. Qed.

Lemma zip_fst_snd {A B} (l : list (A * B)) : zip l.*1 l.*2 = l.
Proof. induction l as [|[a b] l IH]; [done |]. simpl. f_equal. exact IH. Qed.

Lemma manifest_text l :
  concat (map (λ '(name, value), name ++ "=" ++ value ++ [LF]) l)
  = BundleServer.render l.*1 l.*2.
Proof.
  unfold BundleServer.render, unlines. induction l as [|[n v] l IH]; [done |].
  cbn [map concat zip_with fmap list_fmap fst snd]. f_equal; [| exact IH].
  unfold BundleServer.record_line. by rewrite <-app_assoc.
Qed.

(** Sizes and digests within the artifact policy. *)
Definition observed_ok (obs : gmap pystr (Z * pystr)) : Prop :=
  Forall (λ '(name, minimum, maximum), let '(size, digest) := obs !!! name in
            minimum ≤ size ≤ maximum ∧ trust_hash digest) ARTIFACTS.

(** Upper bounds of the nineteen values' lengths. *)
Definition value_bounds : list nat :=
  [24; 64; 26; 9; 64; 7; 64; 9; 64; 64; 96; 3; 3; 64; 6; 64; 64; 19; 4]%nat.

Lemma observed_each obs : observed_ok obs →
  ∀ name lo hi, (name, lo, hi) ∈ ARTIFACTS →
  lo ≤ (obs !!! name).1 ≤ hi ∧ trust_hash (obs !!! name).2.
Proof.
  unfold observed_ok. rewrite Forall_forall. intros H name lo hi Hin. specialize (H _ Hin). simpl in H.
  by destruct (obs !!! name).
Qed.

Lemma value_const (w : pystr) : bool_decide (w ≠ []) && forallb (λ c, (33 <=? ord c) && (ord c <=? 126)) w = true → value w.
Proof.
  rewrite andb_true_iff, bool_decide_eq_true, forallb_Forall. intros [? Hf]. split; [done |].
  eapply Forall_impl; [exact Hf |]. intros c. unfold printable. rewrite andb_true_iff. lia.
Qed.

(** A value with its length bound, by the shape of the field. *)
Definition bounded (v : pystr) (b : nat) : Prop := value v ∧ (length v ≤ b)%nat.
Lemma bounded_const (w : pystr) b :
  bool_decide (w ≠ []) && forallb (λ c, (33 <=? ord c) && (ord c <=? 126)) w && (length w <=? b)%nat = true →
  bounded w b.
Proof. rewrite andb_true_iff, Nat.leb_le. intros []. split; [by apply value_const | done]. Qed.
Lemma bounded_hash s : trust_hash s → bounded s 64.
Proof. intros (Hl & ? & _). split; [by apply hash_value | lia]. Qed.
Lemma bounded_identity m s : identity (Z.of_nat m) s → bounded s m.
Proof. intros H. split; [by eapply identity_value |]. destruct H as (_ & ? & _). unfold len in *. lia. Qed.
Lemma bounded_decimal n k : 0 ≤ n < 10 ^ Z.of_nat (S k) → bounded (str_of_Z n) (S k).
Proof. intros []. split; [by apply decimal_value | by apply str_length]. Qed.
Lemma bounded_profile s : s ∈ profiles → bounded s 26.
Proof.
  intros H. split; [by apply profile_value |]. revert H. unfold profiles.
  rewrite !elem_of_cons, elem_of_nil. intros [->|[->|[->|[->|[]]]]]; simpl; lia.
Qed.

(** The six trust fields, in either branch of the contract. *)
Lemma trust_values c obs :
  contract packer_minimum (read c obs) →
  bounded c.(a660_command_manifest_sha256) 64 ∧ bounded c.(root_generation) 6 ∧
  bounded c.(root_tree_sha256) 64 ∧ bounded c.(root_seal_sha256) 64 ∧
  bounded c.(root_tree_entries) 19 ∧ bounded c.(root_subtree) 4.
Proof.
  intros [_ _ _ _ Hn Hl]. destruct (decide (c.(profile) ∈ network_profiles)) as [E|E].
  - destruct (Hn E) as (? & Hg & ? & ? & (n & Hb & Hd) & Hs).
    change (c.(root_generation) = "arch-a") in Hg. change (c.(root_subtree) = "/") in Hs.
    change (c.(root_tree_entries) = str_of_Z n) in Hd. rewrite Hg, Hs, Hd.
    split_and!; try (by apply bounded_hash); try (by apply bounded_const).
    apply (bounded_decimal n 18). lia.
  - destruct (Hl E) as (H1 & H2 & H3 & H4 & H5 & H6).
    change (c.(a660_command_manifest_sha256) = zero_hash) in H1.
    change (c.(root_generation) = "none") in H2. change (c.(root_tree_sha256) = zero_hash) in H3.
    change (c.(root_seal_sha256) = zero_hash) in H4. change (c.(root_tree_entries) = "0") in H5.
    change (c.(root_subtree) = "none") in H6. rewrite H1, H2, H3, H4, H5, H6.
    split_and!; by apply bounded_const.
Qed.

Lemma contract_values c obs :
  bundle_id c.(bundle) → contract packer_minimum (read c obs) → observed_ok obs →
  Forall2 bounded (manifest_fields c obs).*2 value_bounds.
Proof.
  intros Hb Hc Ho. pose proof (trust_values c obs Hc) as (? & ? & ? & ? & ? & ?).
  destruct Hc as [Hp Hi Hr (r & t & Hrb & Ht & ? & ? & _) _ _].
  change (c.(rollback_timeout) = str_of_Z r) in Hrb. change (c.(target_timeout) = str_of_Z t) in Ht.
  pose proof (observed_each obs Ho) as Hobs.
  destruct (Hobs "Image" 64 134217728 ltac:(set_solver)) as [? ?].
  destruct (Hobs "board.dtb" 40 2097152 ltac:(set_solver)) as [? ?].
  destruct (Hobs "initramfs.cpio.gz" 2 268435456 ltac:(set_solver)) as [? ?].
  unfold manifest_fields, value_bounds. cbn [fmap list_fmap snd]. rewrite Hrb, Ht.
  assert (bounded c.(bundle) 64).
  { split; [by apply bundle_id_value |]. by destruct Hb as (_ & ? & _). }
  repeat first [apply Forall2_nil; done | apply Forall2_cons; split]; try done;
    try (by apply bounded_const); try (by apply bounded_hash).
  - by apply bounded_profile.
  - apply (bounded_decimal _ 8). lia.
  - apply (bounded_decimal _ 6). lia.
  - apply (bounded_decimal _ 8). lia.
  - by apply (bounded_identity 64).
  - by apply (bounded_identity 96).
  - apply (bounded_decimal _ 2). lia.
  - apply (bounded_decimal _ 2). lia.
Qed.

Lemma render_length names values bounds :
  Forall2 bounded values bounds → length names = length values →
  (length (BundleServer.render names values)
   ≤ foldr Nat.add 0 (zip_with (λ n b, length n + b + 2) names bounds))%nat.
Proof.
  unfold BundleServer.render, unlines. intros H. revert names.
  induction H as [|v b values bounds [_ Hv] H IH]; intros [|n names] Hl; try done.
  simpl in *. specialize (IH names ltac:(lia)). rewrite !length_app.
  unfold BundleServer.record_line at 1. rewrite length_app. simpl. lia.
Qed.

(** The manifest of an accepted configuration is produced (it fits the size
    policy) and is the record of its fields. *)
Lemma manifest_bytes_Ok c obs :
  bundle_id c.(bundle) → contract packer_minimum (read c obs) → observed_ok obs →
  manifest_bytes c obs
  = Ok (BundleServer.render BundleServer.MANIFEST_FIELDS (manifest_fields c obs).*2).
Proof.
  intros Hb Hc Ho. pose proof (contract_values c obs Hb Hc Ho) as Hv.
  unfold manifest_bytes. cbv zeta. rewrite manifest_text, manifest_names.
  destruct (BundleServer.render_guards BundleServer.MANIFEST_FIELDS (manifest_fields c obs).*2) as (_ & Ha & _).
  - apply BundleServer.manifest_fields_ok.
  - done.
  - eapply Forall2_Forall_l; [exact Hv |]. apply Forall_true. intros b v [[? Hf] _]. split; [done |].
    eapply Forall_impl; [exact Hf |]. intros ch. unfold printable, BundleServer.unsafe_char.
    rewrite orb_false_iff. lia.
  - rewrite refuse_if_pass by by rewrite Ha. rewrite refuse_if_pass; [done |].
    apply Z.ltb_ge. unfold len.
    pose proof (render_length BundleServer.MANIFEST_FIELDS _ _ Hv eq_refl) as Hlen.
    vm_compute (foldr _ _ _) in Hlen. lia.
Qed.

(** ** Reading the manifest back *)
Lemma manifest_parses c obs :
  bundle_id c.(bundle) → contract packer_minimum (read c obs) → observed_ok obs →
  BundleServer.parse_record
    (BundleServer.render BundleServer.MANIFEST_FIELDS (manifest_fields c obs).*2) BundleServer.MANIFEST_FIELDS
  = Ok (list_to_map (manifest_fields c obs)).
Proof.
  intros Hb Hc Ho. pose proof (contract_values c obs Hb Hc Ho) as Hv.
  rewrite BundleServer.parse_record_rendered; [| apply BundleServer.manifest_fields_ok | done |].
  - unfold BundleServer.record_of. rewrite <-(manifest_names c obs). by rewrite zip_fst_snd.
  - eapply Forall2_Forall_l; [exact Hv |]. apply Forall_true. intros b v [[? Hf] _]. split; [done |].
    eapply Forall_impl; [exact Hf |]. intros ch. unfold printable, BundleServer.unsafe_char.
    rewrite orb_false_iff. lia.
Qed.

Lemma manifest_field c obs k :
  BundleServer.field (list_to_map (manifest_fields c obs)) k = read c obs k.
Proof.
  unfold read. rewrite <-(zip_fst_snd (manifest_fields c obs)).
  apply (BundleServer.field_record_of _ _ k).
Qed.

(** The packer's minimum and the contract's differ on one profile only. *)
Lemma contract_upgrade f :
  contract packer_minimum f →
  (f "profile" = "stock-charging-recovery-v1" → f "rollback_timeout" = "900") →
  contract minimum_rollback f.
Proof.
  intros [? ? ? (r & t & Hr & Ht & ? & ? & ? & Hm) ? ?] Hs. constructor; [done..| | done | done].
  exists r, t. split_and!; [done | done | lia..|]. unfold minimum_rollback, packer_minimum in *.
  destruct (decide (f "profile" = "stock-charging-recovery-v1")) as [E|E].
  - rewrite bool_decide_true by done. assert (r = 900); [| lia].
    apply str_of_Z_inj; [lia.. |]. rewrite <-Hr. by apply Hs.
  - by rewrite (bool_decide_false (f "profile" = "stock-charging-recovery-v1")).
Qed.

Lemma binds_observed f obs artifact size_field hash_field :
  f size_field = str_of_Z (obs !!! artifact).1 → f hash_field = (obs !!! artifact).2 →
  1 ≤ (obs !!! artifact).1 ≤ 256 * 1024 * 1024 → trust_hash (obs !!! artifact).2 →
  BundleServer.binds f obs (artifact, size_field, hash_field).
Proof. unfold BundleServer.binds. destruct (obs !!! artifact). simpl. auto. Qed.

Lemma bindings_hold c obs :
  observed_ok obs → Forall (BundleServer.binds (read c obs) obs) BundleServer.bindings.
Proof.
  intros Ho. pose proof (observed_each obs Ho) as H.
  destruct (H "Image" 64 134217728 ltac:(repeat constructor)) as [? ?].
  destruct (H "board.dtb" 40 2097152 ltac:(repeat constructor)) as [? ?].
  destruct (H "initramfs.cpio.gz" 2 268435456 ltac:(repeat constructor)) as [? ?].
  repeat constructor; (apply binds_observed; [reflexivity | reflexivity | lia | done]).
Qed.

Definition short_stock (c : Configuration) : bool :=
  (c.(profile) == "stock-charging-recovery-v1") && (c.(rollback_timeout) != "900").

(** C4. Packer/server agreement.  For every configuration the packer
    accepts and every set of artifacts within the size policy, the packer
    prints a manifest and the server's [validate_manifest] accepts it under
    the packer's bundle name and manifest hash; the only exception is a
    stock-charging bundle whose rollback timeout is not 900 s, which the
    packer signs and the server refuses. *)
Theorem packer_server_agree c obs :
  validate_configuration c = Ok () → observed_ok obs →
  ∃ payload, manifest_bytes c obs = Ok payload ∧
    BundleServer.validate_manifest payload c.(bundle) (sha256 payload) obs
    = if short_stock c
      then Raise (Exn ServerRefusal "stock charging profile rollback is too short") else Ok ().
Proof.
  intros [Hb Hc]%(validate_configuration_Ok c obs) Ho.
  eexists. split; [by apply manifest_bytes_Ok |].
  set (payload := BundleServer.render _ _). unfold short_stock.
  pose proof (manifest_parses c obs Hb Hc Ho) as Hp. fold payload in Hp.
  destruct (_ && _) eqn:E.
  - apply (BundleServer.validate_manifest_short payload _ _ obs _ packer_minimum Hp).
    + by rewrite manifest_field.
    + by rewrite manifest_field.
    + done.
    + eapply contract_ext; [| exact Hc]. intros. by rewrite manifest_field.
    + b2p. rewrite manifest_field. done.
    + b2p. by rewrite manifest_field.
  - apply BundleServer.validate_manifest_Ok. exists (list_to_map (manifest_fields c obs)).
    rewrite !manifest_field. split_and!; [done..| |].
    + eapply contract_ext; [intros; symmetry; apply manifest_field |].
      apply contract_upgrade; [done |]. change (read c obs "profile") with c.(profile).
      change (read c obs "rollback_timeout") with c.(rollback_timeout). intros Hs. b2p.
      destruct E; [done | by subst].
    + eapply Forall_impl; [by apply bindings_hold |]. intros [[? ?] ?]. unfold BundleServer.binds.
      by rewrite !manifest_field.
Qed.

(** ** A sample recipe *)
Definition sample_hash (c : ascii) : pystr := replicate 64 c.
Definition sample_config (profile rollback : pystr) : Configuration := {|
  bundle := "arch-a-01"; profile := profile; image := "/src/Image"; dtb := "/src/board.dtb";
  initramfs := "/src/initramfs.cpio.gz"; target_id := "rog5"; target_release := "6.11.0-rog5";
  rollback_timeout := rollback; target_timeout := "120";
  a660_command_manifest_sha256 := ZERO_HASH; root_generation := "none"; root_tree_sha256 := ZERO_HASH;
  root_seal_sha256 := ZERO_HASH; root_tree_entries := "0"; root_subtree := "none";
  private_key := "/keys/bundle.pem"; bundle_root := "/var/lib/rog5-recovery-bundles" |}.
Definition sample_observed : gmap pystr (Z * pystr) :=
  {[ ("Image" : pystr) := (64, sample_hash "a"); ("board.dtb" : pystr) := (40, sample_hash "b");
     ("initramfs.cpio.gz" : pystr) := (2, sample_hash "c") ]}.

Lemma sample_observed_ok : observed_ok sample_observed.
Proof.
  repeat constructor; try done; try (intros H; apply (f_equal head) in H; vm_compute in H; discriminate).
Qed.

(** The stock-charging recipe with a 600 s rollback is the exception. *)
Lemma packer_server_agree_witness :
  ∃ payload, manifest_bytes (sample_config "stock-charging-recovery-v1" "600") sample_observed = Ok payload ∧
    BundleServer.validate_manifest payload "arch-a-01" (sha256 payload) sample_observed
    = Raise (Exn ServerRefusal "stock charging profile rollback is too short").
Proof.
  apply (packer_server_agree (sample_config "stock-charging-recovery-v1" "600") sample_observed);
    [vm_compute; reflexivity | exact sample_observed_ok].
Defined.
