(* ===== verification/ServerFiles.v ===== *)
(** * The fixed recovery-bundle server: opening the bundle

    The file system part of tools/recovery_control/host_bundle_server.py:
    [prepare_bundle] opens, measures and hashes the five artifacts of the one
    bundle directory and validates the manifest; [prepare_production] is the
    context manager around it.  System calls are those of [Posix]. *)

From S2P Require Import Prelude PyStr Sha256 Posix BundlePolicy BundleServer.
From S2P Require BundlePacker.

Definition BUNDLE_ROOT : pystr := "/var/lib/rog5-recovery-bundles".
Definition BLOCK : Z := 1024 * 1024.

(** ** Reading one artifact *)
Definition hash_step (descriptor maximum : Z) (s : Z * bytes) : io ((Z * bytes) + (Z * bytes)) :=
  let '(size, seen) := s in
  block ← read descriptor BLOCK;
  if (block : bytes) == [] then mret (inr (size, seen))
  else
    check (maximum <? size + len block) ServerRefusal "artifact exceeds allocation policy" ;;
    mret (inl (size + len block, seen ++ block)).

Definition hash_descriptor (descriptor maximum : Z) : io (Z * pystr) :=
  rewind descriptor ;;
  '(size, seen) ← while (Z.to_pos (maximum + 2)) (hash_step descriptor maximum) (0, []);
  rewind descriptor ;;
  mret (size, sha256 seen).

Definition safe_directory (descriptor owner mode : Z) (label : pystr) : io unit :=
  metadata ← fstat descriptor;
  check ((metadata.(st_kind) != Dir) || negb (metadata.(st_uid) =? owner)
         || negb (metadata.(st_perm) =? mode))
    ServerRefusal ("unsafe " ++ label ++ " metadata").

Definition open_regular (directory : Z) (name : pystr) (owner minimum maximum : Z) : io Z :=
  descriptor ← os_or (open_ (Some directory) name [O_NOFOLLOW; O_NOATIME] 0)
    ServerRefusal "cannot open fixed bundle artifact";
  metadata ← fstat descriptor;
  if (metadata.(st_kind) != Reg) || negb (metadata.(st_uid) =? owner)
     || negb (metadata.(st_perm) =? 256) || negb (metadata.(st_nlink) =? 1)
     || (metadata.(st_size) <? minimum) || (maximum <? metadata.(st_size))
  then close descriptor ;; raise ServerRefusal "unsafe fixed bundle artifact"
  else mret descriptor.

(** ** The bundle *)
Record PreparedBundle := Prepared {
  p_descriptors : list Z;
  p_sizes : list Z;
  p_bundle : pystr;
  p_manifest_hash : pystr
}.

(** [PreparedBundle.close]: every descriptor, ignoring failures. *)
Definition close_prepared (p : PreparedBundle) : io unit :=
  each (λ d, catch (close d) is_oserror (λ _, pass)) p.(p_descriptors).

(** The [for name, minimum, maximum in ARTIFACTS] body; [acc] is [observed]
    and [inode_identities], the local variables are [descriptors]. *)
Definition open_artifact (directory owner : Z)
    (acc : gmap pystr (Z * pystr) * gset key) (a : pystr * Z * Z)
    : proc (list Z) (gmap pystr (Z * pystr) * gset key) :=
  let '(observed, inode_identities) := acc in
  let '(name, minimum, maximum) := a in
  descriptor ← sys (open_regular directory name owner minimum maximum);
  assign (λ descriptors, descriptors ++ [descriptor]) ;;
  metadata ← sys (fstat descriptor);
  let identity := (metadata.(st_dev), metadata.(st_ino)) in
  check (bool_decide (identity ∈ inode_identities)) ServerRefusal "aliased bundle artifacts" ;;
  h ← sys (hash_descriptor descriptor maximum);
  mret (<[name := h]> observed, {[identity]} ∪ inode_identities).

(** The [try:] block of [prepare_bundle]. *)
Definition prepare_body (directory : Z) (bundle manifest_hash : pystr) (owner : Z)
    : proc (list Z) PreparedBundle :=
  sys (safe_directory directory owner 320 "bundle directory") ;;
  names ← sys (listdir directory);
  check (sorted names != sorted (map (λ a, a.1.1) ARTIFACTS)) ServerRefusal "unexpected bundle inventory" ;;
  '(observed, _) ← fold_m (open_artifact directory owner) (∅, ∅) ARTIFACTS;
  vars (λ descriptors,
    let manifest_descriptor := descriptors !!! 0%nat in
    let manifest_size := (observed !!! ("manifest" : pystr)).1 in
    manifest ← sys (read manifest_descriptor (manifest_size + 1));
    sys (rewind manifest_descriptor) ;;
    check (negb (len manifest =? manifest_size)) ServerRefusal "manifest changed while opening" ;;
    lift (validate_manifest manifest bundle manifest_hash observed) ;;
    mret (Prepared descriptors (map (λ a, (observed !!! a.1.1).1) ARTIFACTS) bundle manifest_hash)).

Definition prepare_bundle (root : Z) (bundle manifest_hash : pystr) (owner : Z) : io PreparedBundle :=
  check (negb (valid_bundle bundle) || negb (valid_hash manifest_hash))
    ServerRefusal "invalid requested bundle identity" ;;
  safe_directory root owner 448 "bundle root" ;;
  os_or (flock root LOCK_SH) ServerRefusal "bundle root is busy" ;;
  root_inventory ← listdir root;
  check (sorted root_inventory != [bundle]) ServerRefusal "unexpected bundle-root inventory" ;;
  directory ← os_or (open_ (Some root) bundle [O_DIRECTORY; O_NOFOLLOW; O_NOATIME] 0)
    ServerRefusal "cannot open fixed bundle directory";
  finally
    (local [] (on_error (prepare_body directory bundle manifest_hash owner)
                        (vars (λ descriptors, each (λ d, sys (close d)) descriptors))))
    (close directory).

(** [with prepare_production(bundle, manifest_hash) as prepared: use(prepared)] *)
Definition with_production {A} (bundle manifest_hash : pystr) (use : PreparedBundle → io A) : io A :=
  λ w,
  (check (w.(w_euid) =? 0) ServerRefusal "bundle server must run unprivileged" ;;
   check (negb (valid_bundle bundle) || negb (valid_hash manifest_hash))
     ServerRefusal "invalid requested bundle identity" ;;
   root ← os_or (open_ None BUNDLE_ROOT [O_DIRECTORY; O_NOFOLLOW; O_NOATIME] 0)
     ServerRefusal "cannot open fixed host bundle root";
   finally
     (prepared ← prepare_bundle root bundle manifest_hash w.(w_euid);
      finally (use prepared) (close_prepared prepared))
     (close root)) w.

Definition run_preflight (bundle manifest_hash : pystr) : io unit :=
  with_production bundle manifest_hash (λ _, pass).

(** ** No descriptor is leaked *)
Lemma keeps_hash_step d m s : keeps (hash_step d m s).
Proof.
  destruct s as [size seen]. apply keeps_bind; [auto with keeps |]. intros block.
  case_bool_decide; [done |]. apply keeps_bind; [apply keeps_lift | done].
Qed.
Lemma keeps_hash d m : keeps (hash_descriptor d m).
Proof.
  apply keeps_bind; [auto with keeps |]. intros _. apply keeps_bind.
  - apply keeps_while. intros. apply keeps_hash_step.
  - intros [size seen]. apply keeps_bind; [auto with keeps | done].
Qed.
Lemma keeps_safe_directory d o m l : keeps (safe_directory d o m l).
Proof. apply keeps_bind; [auto with keeps |]. intros. apply keeps_lift. Qed.

Lemma open_regular_wp dir name owner lo hi (Q : res Z → world → Prop) w :
  (∀ e w', fds w' = fds w → Q (Raise e) w') →
  (∀ d w', d ∉ fds w → fds w' = {[d]} ∪ fds w → Q (Ok d) w') →
  wp (open_regular dir name owner lo hi) Q w.
Proof.
  intros HR HO. apply wp_bind, wp_os_or, open_wp; [by intros; apply HR |]. intros d w1 Hd Hw1.
  apply wp_bind, fstat_wp; [set_solver |]. intros meta w2 Hw2. destruct (_ || _).
  - apply wp_bind, close_wp. intros w3 Hw3. apply (HR _ w3). rewrite Hw3, Hw2, Hw1. set_solver.
  - apply (HO d w2); [done | congruence].
Qed.

Lemma open_artifact_wp F dir owner acc a ds w :
  opened_since F (ds, w) →
  wp (open_artifact dir owner acc a) (λ _ sw, opened_since F sw) (ds, w).
Proof.
  intros H. destruct acc as [observed ids], a as [[name lo] hi]. unfold open_artifact.
  apply wp_bind, wp_sys, open_regular_wp.
  { intros e w' Hw. destruct H as (? & ? & ?). split_and!; [done | simpl; by rewrite Hw | done]. }
  intros d w1 Hd Hw1. apply wp_bind, wp_assign, wp_bind.
  pose proof (opened_since_new F d ds w w1 H Hd Hw1) as H1.
  apply (opened_since_keeps F); [auto with keeps | done |]. intros [meta|e] w2 H2; [| done].
  apply wp_bind, wp_check; [done |]. intros _. apply wp_bind.
  apply (opened_since_keeps F); [apply keeps_hash | done |]. by intros [h|e] w3 H3.
Qed.

Lemma open_artifacts_wp F dir owner l acc ds w :
  opened_since F (ds, w) →
  wp (fold_m (open_artifact dir owner) acc l) (λ _ sw, opened_since F sw) (ds, w).
Proof.
  revert acc ds w. induction l as [|a l IH]; intros acc ds w H; [done |].
  pose proof (open_artifact_wp F dir owner acc a ds w H) as H1. unfold wp in *. simpl.
  destruct (open_artifact _ _ _ _ _) as [[acc'|e] [ds' w']]; [by apply IH | done].
Qed.

Lemma prepare_body_wp F dir bundle hash owner w :
  fds w = F →
  wp (prepare_body dir bundle hash owner)
    (λ r sw, opened_since F sw ∧ ∀ p, r = Ok p → p_descriptors p = sw.1) ([], w).
Proof.
  intros <-. set (F := fds w). assert (opened_since F ([], w)) as H0.
  { split_and!; [constructor | simpl; set_solver | simpl; set_solver]. }
  unfold prepare_body. apply wp_bind, (opened_since_keeps F); [apply keeps_safe_directory | done |].
  intros [[]|e] w1 H1; [| done]. apply wp_bind, (opened_since_keeps F); [auto with keeps | done |].
  intros [names|e] w2 H2; [| done]. apply wp_bind, wp_check; [done |]. intros _.
  apply wp_bind. eapply wp_mono; [by apply open_artifacts_wp |]. intros [[obs ids]|e] [ds w3] H3; [| done].
  apply wp_vars. cbv zeta. apply wp_bind, (opened_since_keeps F); [auto with keeps | done |].
  intros [manifest|e] w4 H4; [| done]. apply wp_bind, (opened_since_keeps F); [auto with keeps | done |].
  intros [u|e] w5 H5; [| done]. apply wp_bind, wp_check; [done |]. intros _.
  apply wp_bind, wp_lift. destruct (validate_manifest _ _ _ _); [| done].
  apply wp_mret. split; [done |]. by intros p [= <-].
Qed.

Lemma finally_body_wp F dir bundle hash owner w :
  fds w = F →
  wp (local [] (on_error (prepare_body dir bundle hash owner)
                 (vars (λ descriptors, each (λ d, sys (close d)) descriptors))))
    (λ r w', match r with
             | Ok p => opened_since F (p_descriptors p, w')
             | Raise _ => fds w' = F
             end) w.
Proof.
  intros HF. apply wp_local, wp_on_error. eapply wp_mono; [by apply prepare_body_wp |].
  intros [p|e] [ds w'] [H Hp]; simpl in *; [by rewrite (Hp p) |].
  apply wp_vars, each_sys_close, (close_each F); [done |]. done.
Qed.

Lemma prepare_bundle_wp root bundle hash owner w :
  wp (prepare_bundle root bundle hash owner)
    (λ r w', match r with
             | Ok p => opened_since (fds w) (p_descriptors p, w')
             | Raise _ => fds w' = fds w
             end) w.
Proof.
  unfold prepare_bundle. apply wp_bind, wp_check; [done |]. intros _.
  apply wp_bind, keeps_wp; [apply keeps_safe_directory |]. intros [[]|e] w1 H1; [| done].
  apply wp_bind, keeps_wp; [auto with keeps |]. intros [[]|e] w2 H2; [| congruence].
  apply wp_bind, keeps_wp; [auto with keeps |]. intros [inv|e] w3 H3; [| congruence].
  apply wp_bind, wp_check; [congruence |]. intros _.
  apply wp_bind, wp_os_or, open_wp; [congruence |]. intros dir w4 Hdir H4.
  apply wp_finally. eapply wp_mono; [by apply finally_body_wp |]. intros r w5 Hr.
  apply close_wp. intros w6 H6. assert (fds w4 = {[dir]} ∪ fds w) as HF by congruence.
  assert (dir ∉ fds w) as Hdir' by congruence.
  destruct r as [p|e].
  - destruct Hr as (Hn & Hf & Hd). unfold opened_since in *. cbn [fst snd] in *.
    rewrite H6, Hf, HF in *. split_and!; [done | | set_solver].
    assert (dir ∉ p_descriptors p) by set_solver. set_solver.
  - rewrite H6, Hr, <-H4, HF. set_solver.
Qed.

Lemma close_prepared_wp F p w (Q : res () → world → Prop) :
  opened_since F (p_descriptors p, w) → (∀ w', fds w' = F → Q (Ok ()) w') → wp (close_prepared p) Q w.
Proof.
  intros H HQ. unfold close_prepared, wp.
  assert (∀ ds w, each (λ d, catch (close d) is_oserror (λ _, pass)) ds w = each close ds w) as ->.
  { intros ds. induction ds as [|d ds IH]; intros w'; [done |]. apply IH. }
  by apply (close_each F).
Qed.

(** ** The abstract specification: a sealed bundle *)
Definition artifact_name (a : pystr * Z * Z) : pystr := a.1.1.
Definition artifact_names : list pystr := map artifact_name ARTIFACTS.

(** An artifact of a directory [es]: its inode and what it must be. *)
Definition sealed_artifact (f : fs) (es : gmap pystr key) (owner : Z)
    (a : pystr * Z * Z) (ki : key * inode) : Prop :=
  let '(name, minimum, maximum) := a in
  es !! name = Some ki.1 ∧ f_inodes f !! ki.1 = Some ki.2 ∧
  i_kind ki.2 = Reg ∧ i_uid ki.2 = owner ∧ i_perm ki.2 = 256 ∧ i_nlink ki.2 = 1 ∧
  minimum ≤ len (i_data ki.2) ≤ maximum.

(** Size and digest of an artifact's content. *)
Definition measure (i : inode) : Z * pystr := (len (i_data i), sha256 (i_data i)).
Definition measured (l : list (pystr * Z * Z)) (ks : list (key * inode)) (acc : gmap pystr (Z * pystr))
    : gmap pystr (Z * pystr) :=
  foldl (λ m p, <[p.1 := p.2]> m) acc (zip (map artifact_name l) (map (λ ki, measure ki.2) ks)).

Definition directory_inode (f : fs) (k : key) (owner perm : Z) (i : inode) : Prop :=
  f_inodes f !! k = Some i ∧ i_kind i = Dir ∧ i_uid i = owner ∧ i_perm i = perm.

(** The directory [rk] holds one bundle and nothing else: five single-link
    read-only files of the owner, on five inodes, within the size policy,
    whose manifest has the requested hash and binds the other artifacts. *)
Definition sealed_bundle (f : fs) (rk : key) (bundle manifest_hash : pystr) (owner : Z) : Prop :=
  bundle_id bundle ∧ trust_hash manifest_hash ∧ f_locks f !! rk ≠ Some LOCK_EX ∧
  ∃ ri dk di, directory_inode f rk owner 448 ri ∧ i_entries ri = {[bundle := dk]} ∧
    directory_inode f dk owner 320 di ∧ dom (i_entries di) = list_to_set artifact_names ∧
    ∃ ks m, Forall2 (sealed_artifact f (i_entries di) owner) ARTIFACTS ks ∧ NoDup ks.*1 ∧
      head ks = Some m ∧
      validate_manifest (i_data m.2) bundle manifest_hash (measured ARTIFACTS ks ∅) = Ok ().

(** ** Hashing in a quiescent world *)
Section hash.
Context (w : world) (Hq : quiet w) (d maximum : Z) (f : fd).
Context (Hd : w_fds w !! d = Some f).
Let data := i_data (inode_of w (d_key f)).
Context (Hsize : len data ≤ maximum).

Definition hash_inv (s : Z * bytes) (w' : world) : Prop :=
  same w w' ∧ w_fds w' = <[d := Fd (d_key f) (length s.2) (d_lock f)]> (w_fds w) ∧
  (∃ rest, data = s.2 ++ rest) ∧ s.1 = len s.2.

Lemma hash_step_q s w' (Q : res (Z * bytes) → world → Prop) :
  hash_inv s w' →
  (∀ w'', same w w'' → w_fds w'' = <[d := Fd (d_key f) (length data) (d_lock f)]> (w_fds w) →
    Q (Ok (len data, data)) w'') →
  0 ≤ maximum - s.1 ∧
  wp (hash_step d maximum s) (λ r t', match r with
       | Ok (inl s') => hash_inv s' t' ∧ maximum - s'.1 + 1 ≤ maximum - s.1
       | Ok (inr a) => Q (Ok a) t'
       | Raise e => Q (Raise e) t'
       end) w'.
Proof using Hq Hd Hsize.
  destruct s as [size seen]. intros (Hs & Hf & [rest Hrest] & Hsz) HQ. simpl in *.
  assert (len data = len seen + len rest) as Hlen by (rewrite Hrest; unfold len; rewrite length_app; lia).
  assert (0 ≤ len rest) by (unfold len; lia). split; [lia |].
  apply wp_bind. eapply (read_q w' (same_quiet _ _ Hs Hq) d); [by rewrite Hf, lookup_insert_eq |].
  intros w2 block Hs2. cbn [d_key d_off d_lock]. rewrite (inode_of_same w w') by done. fold data.
  intros Hblock Hf2. assert (drop (length seen) data = rest) as Hdrop by (by rewrite Hrest, drop_app_length).
  rewrite Hdrop in Hblock.
  destruct (take_all_min rest (Z.min BLOCK (Z.max 1 (w_chunk w' (w_tick w'))))) as (He & Hl & Hne); [unfold BLOCK; lia |].
  rewrite <-Hblock in He, Hl, Hne. rewrite Hf, insert_insert_eq in Hf2.
  assert (same w w2) as Hs' by (by transitivity w').
  case_bool_decide as Hb.
  - assert (seen = data) as Hsd by (rewrite Hrest, He by done; by rewrite app_nil_r).
    rewrite Hb in Hf2. simpl in Hf2. rewrite Nat.add_0_r, Hsd in Hf2.
    apply wp_mret. rewrite Hsz, Hsd. by apply HQ.
  - assert (rest = block ++ drop (length block) rest) as Hsplit.
    { rewrite Hblock. apply read_split. }
    assert (len seen + len block ≤ len data).
    { rewrite Hlen. unfold len. lia. }
    apply wp_bind, wp_check; [intros Hc; apply Z.ltb_lt in Hc; lia |]. intros _. apply wp_mret.
    assert (0 < len block) by (destruct block; [done | unfold len; simpl; lia]).
    split; [| cbn [fst]; lia]. split_and!; simpl.
    + done.
    + by rewrite length_app.
    + exists (drop (length block) rest). rewrite <-app_assoc, <-Hsplit. done.
    + rewrite Hsz. unfold len. rewrite length_app. lia.
Qed.

Lemma hash_q (Q : res (Z * pystr) → world → Prop) :
  (∀ w', same w w' → w_fds w' = <[d := Fd (d_key f) 0 (d_lock f)]> (w_fds w) →
    Q (Ok (len data, sha256 data)) w') →
  wp (hash_descriptor d maximum) Q w.
Proof using Hq Hd Hsize.
  intros HQ. assert (0 ≤ len data) by (unfold len; lia).
  unfold hash_descriptor. apply wp_bind. eapply (rewind_q w Hq d); [done |]. intros w1 Hs1 Hf1.
  apply wp_bind.
  set (K := λ (r : res (Z * bytes)) t', match r with
         | Ok a => wp (let '(size, seen) := a in rewind d ;; mret (size, sha256 seen)) Q t'
         | Raise e => Q (Raise e) t' end).
  apply (wp_while (hash_step d maximum) hash_inv (λ s _, maximum - s.1) K).
  - intros s w' Hi. apply (hash_step_q s w' K); [done |]. intros w2 Hs2 Hf2. unfold K.
    apply wp_bind. eapply (rewind_q w2 (same_quiet _ _ Hs2 Hq) d); [by rewrite Hf2, lookup_insert_eq |].
    intros w3 Hs3 Hf3. apply wp_mret. apply HQ; [by transitivity w2 |].
    by rewrite Hf3, Hf2, insert_insert_eq.
  - split_and!; simpl; [done | done | by exists data | done].
  - simpl. lia.
Qed.
End hash.

(** ** Opening the artifacts in a quiescent world *)
Lemma sealed_artifact_functional f es owner a ki ki' :
  sealed_artifact f es owner a ki → sealed_artifact f es owner a ki' → ki = ki'.
Proof. destruct a as [[name lo] hi], ki, ki'. simpl. intros (? & ? & _) (? & ? & _). by simplify_eq. Qed.

Lemma open_regular_q w d f name owner lo hi (Q : res Z → world → Prop) :
  quiet w → w_fds w !! d = Some f → name ≠ ("." : pystr) →
  (∀ ki h w', sealed_artifact (w_fs w) (i_entries (inode_of w (d_key f))) owner (name, lo, hi) ki →
     h ∉ fds w → same w w' → w_fds w' = <[h := Fd ki.1 0 None]> (w_fds w) → Q (Ok h) w') →
  ((∀ ki, ¬ sealed_artifact (w_fs w) (i_entries (inode_of w (d_key f))) owner (name, lo, hi) ki) →
     ∀ e w', Q (Raise e) w') →
  wp (open_regular d name owner lo hi) Q w.
Proof.
  intros Hq Hd Hn HO HR. unfold open_regular. apply wp_bind, wp_os_or.
  eapply (open_q w Hq); [done | done | set_solver | set_solver | |].
  2: { intros Hno e w' _. apply HR. intros [k i] (He & Hi & Hk & _). simpl in *.
       apply (Hno k i); [done | done | congruence | set_solver]. }
  intros k i h w1 He Hi Hl _ Hh Hs Hf1. apply wp_bind.
  eapply (fstat_q w1 (same_quiet _ _ Hs Hq) h); [by rewrite Hf1, lookup_insert_eq |]. intros w2 Hs2 Hf2.
  cbn [d_key]. assert (inode_of w1 k = i) as -> by (rewrite (inode_of_same w w1) by done; unfold inode_of; by rewrite Hi).
  assert (same w w2) as Hs' by (by transitivity w1). cbn [stat_of st_kind st_uid st_perm st_nlink st_size].
  destruct (_ || _) eqn:E.
  - apply wp_bind, close_wp. intros w3 _. apply wp_lift, HR. intros [k' i'] (He' & Hi' & Hsealed). simpl in *.
    simplify_eq. revert E. destruct Hsealed as (-> & -> & -> & -> & Hlo & Hhi).
    apply not_true_iff_false. rewrite !orb_false_iff, !negb_false_iff, bool_decide_eq_true, !Z.eqb_eq, !Z.ltb_ge. done.
  - apply wp_mret, (HO (k, i)); [| done | done | by rewrite Hf2].
    rewrite !orb_false_iff, !negb_false_iff, bool_decide_eq_true, !Z.eqb_eq, !Z.ltb_ge in E.
    simpl. naive_solver.
Qed.

Section artifacts.
Context (dir : Z) (fd_dir : fd) (owner : Z).
Definition entries_of (w : world) := i_entries (inode_of w (d_key fd_dir)).
Definition can_open (w : world) (ids : gset key) (l : list (pystr * Z * Z)) (ks : list (key * inode)) : Prop :=
  Forall2 (sealed_artifact (w_fs w) (entries_of w) owner) l ks ∧ NoDup ks.*1 ∧ (∀ k, k ∈ ks.*1 → k ∉ ids).

Lemma open_artifact_q (w : world) (obs : gmap pystr (Z * pystr)) (ids : gset key) (a : pystr * Z * Z) (ds : list Z)
    (Q : res (gmap pystr (Z * pystr) * gset key) → list Z * world → Prop) :
  quiet w → w_fds w !! dir = Some fd_dir → artifact_name a ≠ ("." : pystr) →
  (∀ ki h w', sealed_artifact (w_fs w) (entries_of w) owner a ki → ki.1 ∉ ids → h ∉ fds w → same w w' →
     w_fds w' = <[h := Fd ki.1 0 None]> (w_fds w) →
     Q (Ok (<[artifact_name a := measure ki.2]> obs, {[ki.1]} ∪ ids)) (ds ++ [h], w')) →
  ((∀ ki, sealed_artifact (w_fs w) (entries_of w) owner a ki → ki.1 ∈ ids) → ∀ e sw, Q (Raise e) sw) →
  wp (open_artifact dir owner (obs, ids) a) Q (ds, w).
Proof.
  destruct a as [[name lo] hi]. intros Hq Hd Hn HO HR. unfold open_artifact.
  apply wp_bind, wp_sys. eapply open_regular_q; [done | done | done | |].
  2: { intros Hno e w'. apply HR. intros ki Hki. by destruct (Hno ki). }
  intros ki h w1 Hki Hh Hs1 Hf1. apply wp_bind, wp_assign, wp_bind, wp_sys.
  assert (quiet w1) as Hq1 by (by apply (same_quiet w)).
  eapply (fstat_q w1 Hq1 h); [by rewrite Hf1, lookup_insert_eq |]. intros w2 Hs2 Hf2.
  assert (quiet w2) as Hq2 by (by apply (same_quiet w1)). cbn [d_key stat_of st_dev st_ino].
  rewrite <-surjective_pairing. assert (same w w2) as Hs by (by transitivity w1).
  assert (inode_of w2 ki.1 = ki.2) as Hi.
  { rewrite (inode_of_same w w2) by done. unfold inode_of. destruct Hki as (_ & -> & _). done. }
  apply wp_bind, wp_check.
  { intros Hin%bool_decide_eq_true. apply HR. intros ki' Hki'.
    by rewrite (sealed_artifact_functional _ _ _ _ _ _ Hki' Hki). }
  intros Hin%bool_decide_eq_false. apply wp_bind, wp_sys.
  assert (w_fds w2 !! h = Some (Fd ki.1 0 None)) as Hh2 by (by rewrite Hf2, Hf1, lookup_insert_eq).
  eapply (hash_q w2 Hq2 h hi); [done | cbn [d_key]; rewrite Hi; apply Hki |].
  cbn [d_key d_lock]. rewrite Hi. intros w3 Hs3 Hf3. apply wp_mret.
  apply (HO ki); [done | done | done | by transitivity w2 |].
  by rewrite Hf3, Hf2, Hf1, insert_insert_eq.
Qed.

Lemma open_artifacts_q (l : list (pystr * Z * Z)) (w : world) (obs : gmap pystr (Z * pystr)) (ids : gset key) (ds : list Z)
    (Q : res (gmap pystr (Z * pystr) * gset key) → list Z * world → Prop) :
  quiet w → w_fds w !! dir = Some fd_dir → Forall (λ a, artifact_name a ≠ ("." : pystr)) l →
  (∀ ks hs ids' w', can_open w ids l ks → same w w' →
     Forall2 (λ ki h, w_fds w' !! h = Some (Fd ki.1 0 None)) ks hs →
     (∀ d, d ∈ fds w → w_fds w' !! d = w_fds w !! d) →
     Q (Ok (measured l ks obs, ids')) (ds ++ hs, w')) →
  ((∀ ks, ¬ can_open w ids l ks) → ∀ e sw, Q (Raise e) sw) →
  wp (fold_m (open_artifact dir owner) (obs, ids) l) Q (ds, w).
Proof.
  intros Hq Hd Hl. revert w obs ids ds Hq Hd. induction Hl as [|a l Ha Hl IH]; intros w obs ids ds Hq Hd HO HR.
  { rewrite <-(app_nil_r ds). apply (HO [] []); [| done | constructor | done].
    split_and!; [constructor | constructor | set_solver]. }
  assert (wp (M_mbind _ _ (λ acc', fold_m (open_artifact dir owner) acc' l) (open_artifact dir owner (obs, ids) a)) Q (ds, w)) as H; [| exact H].
  apply wp_bind, open_artifact_q; [done | done | done | |].
  2: { intros Hno. apply HR. intros ks (Hs & Hnd & Hids). inversion Hs as [|? ki ? ks' Hki Hs']; subst.
       apply (Hids ki.1); [by left | by apply Hno]. }
  intros ki h w1 Hki Hid Hh Hs1 Hf1.
  assert (h ≠ dir) as Hne by (intros ->; apply Hh; unfold fds; apply elem_of_dom; eauto).
  assert (entries_of w1 = entries_of w) as He by (unfold entries_of; by rewrite (inode_of_same w w1)).
  assert (w_fs w1 = w_fs w) as Hfs by apply Hs1.
  apply IH.
  - by apply (same_quiet w).
  - by rewrite Hf1, lookup_insert_ne.
  - intros ks hs ids' w' (Hsk & Hnd & Hids) Hs' Hhs Hold. rewrite <-app_assoc. rewrite He, Hfs in Hsk.
    apply (HO (ki :: ks) (h :: hs)).
    + split_and!; [by constructor | | set_solver].
      simpl. apply NoDup_cons. split; [| done]. intros Hin. apply (Hids _ Hin). set_solver.
    + by transitivity w1.
    + constructor; [| done]. rewrite Hold; [by rewrite Hf1, lookup_insert_eq |].
      unfold fds. rewrite Hf1, dom_insert. set_solver.
    + intros d' Hd'. rewrite Hold.
      * rewrite Hf1, lookup_insert_ne; [done |]. intros ->. done.
      * unfold fds. rewrite Hf1, dom_insert. set_solver.
  - intros Hno. apply HR. intros ks (Hsk & Hnd & Hids). inversion Hsk as [|? ki' ? ks' Hki' Hsk']; subst.
    rewrite (sealed_artifact_functional _ _ _ _ _ _ Hki' Hki) in *.
    apply NoDup_cons in Hnd as [Hnk Hnd]. apply (Hno ks'). unfold can_open. rewrite He, Hfs.
    split_and!; [done | done |]. intros k Hk. rewrite elem_of_union, elem_of_singleton.
    intros [->|Hk']; [done |]. apply (Hids k); [by right | done].
Qed.
End artifacts.

(** ** Acceptance is the specification *)
Lemma artifact_names_NoDup : NoDup artifact_names.
Proof. by apply (bool_decide_eq_true_1 _). Qed.

Lemma safe_directory_q w d f owner mode label (Q : res () → world → Prop) :
  quiet w → w_fds w !! d = Some f →
  (∀ i w', directory_inode (w_fs w) (d_key f) owner mode i → same w w' → w_fds w' = w_fds w → Q (Ok ()) w') →
  ((∀ i, ¬ directory_inode (w_fs w) (d_key f) owner mode i) → ∀ e w', Q (Raise e) w') →
  wp (safe_directory d owner mode label) Q w.
Proof.
  intros Hq Hd HO HR. apply wp_bind. eapply (fstat_q w Hq d); [done |]. intros w1 Hs1 Hf1.
  unfold inode_of. destruct (f_inodes (w_fs w) !! d_key f) as [i|] eqn:Ei; simpl.
  - apply wp_check.
    + rewrite !orb_true_iff, !negb_true_iff, bool_decide_eq_false, !Z.eqb_neq. intros Hb.
      apply HR. intros i' (Hi' & Hk & Ho & Hp). simplify_eq. tauto.
    + rewrite !orb_false_iff, !negb_false_iff, bool_decide_eq_true, !Z.eqb_eq. intros [[? ?] ?].
      by apply (HO i).
  - apply wp_check; [| done]. intros _. apply HR. intros i' (? & _). by simplify_eq.
Qed.

Lemma sealed_artifacts_functional f es owner l ks ks' :
  Forall2 (sealed_artifact f es owner) l ks → Forall2 (sealed_artifact f es owner) l ks' → ks = ks'.
Proof.
  intros H. revert ks'. induction H as [|a ki l ks Hk _ IH]; intros ks' H'; inversion H'; subst; [done |].
  f_equal; [by eapply sealed_artifact_functional | by apply IH].
Qed.

Lemma measured_lookup l ks k acc :
  k ∉ map artifact_name l → measured l ks acc !!! k = acc !!! k.
Proof.
  unfold measured. revert ks acc. induction l as [|a l IH]; intros [|ki ks] acc Hk; try done.
  simpl. rewrite IH by set_solver. apply lookup_total_insert_ne. set_solver.
Qed.

(** The manifest is the first artifact. *)
Lemma measured_head m ks :
  length ARTIFACTS = length (m :: ks) →
  measured ARTIFACTS (m :: ks) ∅ !!! ("manifest" : pystr) = measure m.2.
Proof.
  intros _. pose proof artifact_names_NoDup as Hnd. unfold artifact_names in Hnd.
  change ARTIFACTS with (("manifest" : pystr, 1, MANIFEST_MAX) :: tail ARTIFACTS) in *.
  cbn [map] in Hnd. apply NoDup_cons in Hnd as [Hn _].
  change (measured (tail ARTIFACTS) ks (<["manifest" : pystr := measure m.2]> ∅) !!! ("manifest" : pystr) = measure m.2).
  rewrite measured_lookup by done. apply lookup_total_insert_eq.
Qed.

Section prepare_q.
Context (bundle manifest_hash : pystr) (owner : Z).

(** The part of the specification below the bundle directory. *)
Definition sealed_contents (f : fs) (dk : key) : Prop :=
  ∃ di, directory_inode f dk owner 320 di ∧ dom (i_entries di) = list_to_set artifact_names ∧
  ∃ ks m, Forall2 (sealed_artifact f (i_entries di) owner) ARTIFACTS ks ∧ NoDup ks.*1 ∧
    head ks = Some m ∧
    validate_manifest (i_data m.2) bundle manifest_hash (measured ARTIFACTS ks ∅) = Ok ().

Lemma manifest_read_q w d f n m (Q : res bytes → world → Prop) :
  quiet w → w_fds w !! d = Some f → inode_of w (d_key f) = m → d_off f = 0%nat →
  n = len (i_data m) → n ≤ MANIFEST_MAX → (∀ t, MANIFEST_MAX ≤ w_chunk w t) →
  (∀ w', same w w' → is_Some (w_fds w' !! d) → Q (Ok (i_data m)) w') →
  wp (read d (n + 1)) Q w.
Proof using Type.
  intros Hq Hd Hm Ho -> Hmax Hch HQ. eapply (read_q w Hq d); [done |]. rewrite Hm, Ho.
  intros w' block Hs rest Hb Hf'. subst rest. rewrite drop_0 in Hb.
  assert (block = i_data m) as ->.
  { rewrite Hb, firstn_all2; [done |]. specialize (Hch (w_tick w)). unfold len, MANIFEST_MAX in *. lia. }
  apply HQ; [done |]. by rewrite Hf', lookup_insert_eq.
Qed.

Lemma prepare_body_q w dir f :
  quiet w → (∀ n, MANIFEST_MAX ≤ w_chunk w n) → w_fds w !! dir = Some f →
  wp (prepare_body dir bundle manifest_hash owner)
    (λ r _, is_ok r = true ↔ sealed_contents (w_fs w) (d_key f)) ([], w).
Proof using Type.
  intros Hq Hch Hd. unfold prepare_body. apply wp_bind, wp_sys.
  eapply safe_directory_q; [done | done | |].
  2: { intros Hno e w'. split; [done |]. intros (di & Hdi & _). by destruct (Hno di). }
  intros di w1 Hdi Hs1 Hf1. assert (quiet w1) as Hq1 by (by apply (same_quiet w)).
  assert (inode_of w (d_key f) = di) as Hi by (unfold inode_of; destruct Hdi as [-> _]; done).
  assert (∀ di', directory_inode (w_fs w) (d_key f) owner 320 di' → di' = di) as Huniq.
  { intros di' (H1 & _). destruct Hdi as (H2 & _). by simplify_eq. }
  apply wp_bind, wp_sys. eapply (listdir_q w1 Hq1 dir); [by rewrite Hf1 |]. intros w2 Hs2 Hf2.
  assert (same w w2) as Hs by (by transitivity w1). assert (quiet w2) as Hq2 by (by apply (same_quiet w)).
  rewrite (inode_of_same w w1), Hi by done. apply wp_bind, wp_check.
  { rewrite negb_true_iff, bool_decide_eq_false, sorted_eq. intros Hp. split; [done |].
    intros (di' & Hdi' & Hdom & _). rewrite (Huniq di' Hdi') in Hdom. destruct Hp.
    by apply names_dom; [apply artifact_names_NoDup |]. }
  rewrite negb_false_iff, bool_decide_eq_true, sorted_eq. intros Hp.
  apply names_dom in Hp; [| apply artifact_names_NoDup].
  assert (entries_of f w2 = i_entries di) as He by (unfold entries_of; by rewrite (inode_of_same w w2), Hi).
  assert (w_fs w2 = w_fs w) as Hfs by apply Hs.
  apply wp_bind. eapply (open_artifacts_q dir f owner); [done | by rewrite Hf2, Hf1 | | |].
  { by apply (bool_decide_eq_true_1 _). }
  2: { intros Hno e sw. split; [done |]. intros (di' & Hdi' & _ & ks & m & Hks & Hnd & _).
       rewrite (Huniq di' Hdi') in Hks. exfalso. apply (Hno ks). unfold can_open. rewrite He, Hfs.
       split_and!; [done | done | set_solver]. }
  intros ks hs ids' w3 (Hks & Hnd & _) Hs3 Hhs _. rewrite He, Hfs in Hks. cbn [app].
  assert (same w w3) as Hs' by (by transitivity w2). assert (quiet w3) as Hq3 by (by apply (same_quiet w)).
  destruct ks as [|m ks]; [inversion Hks |]. apply Forall2_cons_inv_l in Hhs as (h & hs' & Hh & Hhs & ->).
  apply wp_vars. cbv zeta. change ((h :: hs') !!! 0%nat) with h.
  assert ((measured ARTIFACTS (m :: ks) ∅ !!! ("manifest" : pystr)).1 = len (i_data m.2)) as Hsz.
  { rewrite measured_head; [done |]. by eapply Forall2_length. }
  rewrite Hsz. apply wp_bind, wp_sys.
  assert (inode_of w3 m.1 = m.2 ∧ 1 ≤ len (i_data m.2) ≤ MANIFEST_MAX) as [Hm Hmax].
  { rewrite (inode_of_same w w3) by done. apply Forall2_cons in Hks as [(_ & Hi' & _ & _ & _ & _ & ?) _].
    unfold inode_of. by rewrite Hi'. }
  eapply (manifest_read_q w3 h (Fd m.1 0 None)); [done | done | done | done | done | lia | |].
  { intros t. assert (w_chunk w3 = w_chunk w) as -> by apply Hs'. apply Hch. }
  intros w4 Hs4 [f4 Hf4]. apply wp_bind, wp_sys.
  eapply (rewind_q w4 (same_quiet _ _ Hs4 Hq3) h); [done |]. intros w5 _ _.
  apply wp_bind, wp_check; [by rewrite Z.eqb_refl |]. intros _.
  apply wp_bind, wp_lift. destruct (validate_manifest _ _ _ _) as [[]|e] eqn:Ev.
  - split; [| done]. intros _. exists di. split_and!; [done | done |]. by exists (m :: ks), m.
  - split; [done |]. intros (di' & Hdi' & _ & ks' & m' & Hks' & _ & Hm' & Hv').
    rewrite (Huniq di' Hdi') in Hks'. rewrite (sealed_artifacts_functional _ _ _ _ _ _ Hks' Hks) in *.
    simpl in Hm'. simplify_eq. congruence.
Qed.
End prepare_q.

Lemma bundle_not_dot b : bundle_id b → b ≠ ("." : pystr).
Proof. intros ((c & t & -> & Hc) & _) [= -> ->]. done. Qed.

Lemma prepare_bundle_q bundle manifest_hash owner w root rfd :
  quiet w → (∀ n, MANIFEST_MAX ≤ w_chunk w n) → w_fds w !! root = Some rfd →
  wp (prepare_bundle root bundle manifest_hash owner)
    (λ r _, is_ok r = true ↔ sealed_bundle (w_fs w) (d_key rfd) bundle manifest_hash owner) w.
Proof.
  intros Hq Hch Hd. unfold prepare_bundle. apply wp_bind, wp_check.
  { rewrite orb_true_iff, !negb_true_iff. intros Hb. split; [done |].
    intros (Hid & Hh & _). apply valid_bundle_spec in Hid. apply valid_hash_spec in Hh. naive_solver congruence. }
  rewrite orb_false_iff, !negb_false_iff, valid_bundle_spec, valid_hash_spec. intros [Hid Hh].
  apply wp_bind. eapply safe_directory_q; [done | done | |].
  2: { intros Hno e w'. split; [done |]. intros (_ & _ & _ & ri & _ & _ & Hri & _). by destruct (Hno ri). }
  intros ri w1 Hri Hs1 Hf1. assert (quiet w1) as Hq1 by (by apply (same_quiet w)).
  assert (w_fs w1 = w_fs w) as Hfs1 by apply Hs1.
  apply wp_bind, wp_os_or. eapply (flock_sh_q w1 Hq1 root); [by rewrite Hf1 | |]; rewrite Hfs1.
  { intros Hl w'. split; [done |]. by intros (_ & _ & ? & _). }
  intros Hl w2 Hs2 Hf2. assert (same w w2) as Hs by (by transitivity w1).
  assert (quiet w2) as Hq2 by (by apply (same_quiet w)). assert (w_fs w2 = w_fs w) as Hfs2 by apply Hs.
  assert (inode_of w (d_key rfd) = ri) as Hi by (unfold inode_of; destruct Hri as [-> _]; done).
  apply wp_bind. eapply (listdir_q w2 Hq2 root); [by rewrite Hf2, lookup_insert_eq |].
  cbn [d_key]. rewrite (inode_of_same w w2), Hi by done. intros w3 Hs3 Hf3.
  assert (same w w3) as Hs' by (by transitivity w2). assert (quiet w3) as Hq3 by (by apply (same_quiet w)).
  change [bundle] with (sorted [bundle]).
  assert (∀ dk ri', directory_inode (w_fs w) (d_key rfd) owner 448 ri' → i_entries ri' = {[bundle := dk]} →
          i_entries ri = {[bundle := dk]}) as Huniq.
  { intros dk ri' (H1 & _). destruct Hri as (H2 & _). by simplify_eq. }
  apply wp_bind, wp_check.
  { rewrite negb_true_iff, bool_decide_eq_false, sorted_eq. intros Hp. split; [done |].
    intros (_ & _ & _ & ri' & dk & _ & Hri' & He & _). exfalso. apply Hp, names_dom; [apply NoDup_singleton |].
    rewrite (Huniq dk ri' Hri' He), dom_singleton_L. set_solver. }
  rewrite negb_false_iff, bool_decide_eq_true, sorted_eq. intros Hp.
  apply names_dom in Hp; [| apply NoDup_singleton].
  assert (w_fs w3 = w_fs w) as Hfs3 by apply Hs'.
  apply wp_bind, wp_os_or. eapply (open_q w3 Hq3 root).
  { by rewrite Hf3, Hf2, lookup_insert_eq. }
  { by apply bundle_not_dot. }
  { set_solver. }
  { set_solver. }
  2: { cbn [d_key]. rewrite (inode_of_same w w3), Hi, Hfs3 by done. intros Hno e w' ->. split; [done |].
       intros (_ & _ & _ & ri' & dk & di & Hri' & He & (Hdi & Hk & _) & _). exfalso.
       apply (Hno dk di); [| done | congruence | done].
       rewrite (Huniq dk ri' Hri' He). apply lookup_singleton_eq. }
  cbn [d_key]. rewrite (inode_of_same w w3), Hi, Hfs3 by done.
  intros dk di dir w4 Hdk Hdi _ _ Hdir Hs4 Hf4. assert (same w w4) as Hs'' by (by transitivity w3).
  assert (w_fs w4 = w_fs w) as Hfs4 by apply Hs''. assert (w_chunk w4 = w_chunk w) as Hch4 by apply Hs''.
  apply wp_finally, wp_local, wp_on_error.
  eapply wp_mono; [apply prepare_body_q; [by apply (same_quiet w) | by rewrite Hch4 | by rewrite Hf4, lookup_insert_eq] |].
  cbn [d_key]. rewrite Hfs4. intros r [ds w5] Hr.
  assert (is_ok r = true ↔ sealed_bundle (w_fs w) (d_key rfd) bundle manifest_hash owner) as Hr'.
  { rewrite Hr. split.
    - intros (di' & ? & ? & ?). split_and!; [done | done | done |].
      exists ri, dk, di'. split_and!; [done | | done | done | done].
      apply map_eq. intros k. destruct (decide (k = bundle)) as [->|Hne]; [by rewrite lookup_singleton_eq |].
      rewrite lookup_singleton_ne by done. apply not_elem_of_dom. rewrite Hp. set_solver.
    - intros (_ & _ & _ & ri' & dk' & di' & Hri' & He & Hdi' & Hrest).
      rewrite (Huniq dk' ri' Hri' He), lookup_singleton_eq in Hdk. simplify_eq. by exists di'. }
  destruct r as [p|e]; [apply close_wp; done |].
  apply wp_vars. unfold wp at 1. destruct (each _ _ _) as [[]]; apply close_wp; done.
Qed.

(** ** Theorems *)

(** No descriptor leak, whatever other processes do and whichever
    calls fail: [prepare_bundle] either raises with exactly the descriptors
    open that were open before, or returns a bundle whose descriptors are new,
    distinct and the only ones added; closing it restores the set. *)
Theorem prepare_bundle_descriptors w root bundle manifest_hash owner :
  match prepare_bundle root bundle manifest_hash owner w with
  | (Ok p, w') =>
      NoDup (p_descriptors p) ∧ (∀ d, d ∈ p_descriptors p → d ∉ fds w) ∧
      fds w' = list_to_set (p_descriptors p) ∪ fds w ∧
      fds (close_prepared p w').2 = fds w
  | (Raise _, w') => fds w' = fds w
  end.
Proof.
  pose proof (prepare_bundle_wp root bundle manifest_hash owner w) as H. unfold wp in H.
  destruct (prepare_bundle _ _ _ _ _) as [[p|e] w']; simpl in H; [| done].
  pose proof (close_prepared_wp (fds w) p w' (λ _ w2, fds w2 = fds w) H) as Hc.
  destruct H as (? & ? & ?). split_and!; [done | done | done |]. by apply Hc.
Qed.

(** C1. Acceptance is sealing: on a quiescent host the server prepares a
    bundle exactly when the bundle root holds one sealed bundle of that name
    and manifest hash. *)
Theorem prepare_bundle_sealed w root rfd bundle manifest_hash owner :
  quiet w → (∀ n, MANIFEST_MAX ≤ w_chunk w n) → w_fds w !! root = Some rfd →
  is_ok (prepare_bundle root bundle manifest_hash owner w).1 = true
  ↔ sealed_bundle (w_fs w) (d_key rfd) bundle manifest_hash owner.
Proof. intros Hq Hch Hd. exact (prepare_bundle_q bundle manifest_hash owner w root rfd Hq Hch Hd). Qed.

(** A host with the sample bundle: the manifest the packer prints for three
    small artifacts, a signature, and the root directory open as descriptor 3. *)
Definition sample_files : gmap pystr bytes :=
  {[ ("Image" : pystr) := replicate 64 "I"%char; ("board.dtb" : pystr) := replicate 40 "D"%char;
     ("initramfs.cpio.gz" : pystr) := replicate 2 "R"%char ]}.
Definition sample_manifest : bytes := Eval vm_compute in
  match BundlePacker.manifest_bytes (BundlePacker.sample_config "persistent-root-ro-v1" "600")
          ((λ b : bytes, (len b, sha256 b)) <$> sample_files) with
  | Ok m => m | Raise _ => [] end.
Definition sample_file (data : bytes) : inode := Inode Reg 256 1000 1 0 0 data ∅.
Definition sample_dir (perm : Z) (es : gmap pystr key) : inode := Inode Dir perm 1000 2 0 0 [] es.
Definition sample_inodes : gmap key inode :=
  {[ (1, 1) := sample_dir 448 {[ ("arch-a-01" : pystr) := (1, 2) ]};
     (1, 2) := sample_dir 320 {[ ("manifest" : pystr) := (1, 3); ("manifest.sig" : pystr) := (1, 4);
                ("Image" : pystr) := (1, 5); ("board.dtb" : pystr) := (1, 6);
                ("initramfs.cpio.gz" : pystr) := (1, 7) ]};
     (1, 3) := sample_file sample_manifest; (1, 4) := sample_file (replicate 64 "S"%char);
     (1, 5) := sample_file (sample_files !!! ("Image" : pystr));
     (1, 6) := sample_file (sample_files !!! ("board.dtb" : pystr));
     (1, 7) := sample_file (sample_files !!! ("initramfs.cpio.gz" : pystr)) ]}.
Definition sample_world : world :=
  World (Fs sample_inodes {[ BUNDLE_ROOT := (1, 1) ]} ∅ 0) {[ 3 := Fd (1, 1) 0 None ]} 0 1000
    (λ _ f, f) (λ _, false) (λ _, 4096).

(** The sample host serves the sample bundle, so it is sealed. *)
Lemma prepare_bundle_sealed_witness :
  sealed_bundle (w_fs sample_world) (1, 1) "arch-a-01" (sha256 sample_manifest) 1000.
Proof.
  apply (prepare_bundle_sealed sample_world 3 (Fd (1, 1) 0 None) "arch-a-01" (sha256 sample_manifest) 1000).
  - split; intros; reflexivity.
  - intros n. vm_compute. discriminate.
  - reflexivity.
  - vm_compute. reflexivity.
Defined.
