(* ===== verification/ServerTransport.v ===== *)
(** * The fixed recovery-bundle server: the connection

    The socket part of tools/recovery_control/host_bundle_server.py: the
    framed request, the framed response, delivery confirmation and the
    listener.  A connection is a script: what the peer's bytes arrive as, how
    much each [send] takes, what the socket options read, and how much time
    passes before each call.  Time is counted in nanoseconds. *)

From S2P Require Import Prelude PyStr Sha256 Posix BundlePolicy BundleServer ServerFiles.
From S2P Require BundlePacker.

Definition HOST_ADDRESS : pystr := "169.254.77.1".
Definition DEVICE_ADDRESS : pystr := "169.254.77.2".
Definition HOST_PORT : Z := 8080.
Definition REQUEST_MAX : Z := 256.
Definition HEADER_MAX : Z := 1024.
Definition SECOND : Z := 1000000000.
Definition TRANSFER_TIMEOUT_SECONDS : Z := 195.
Definition MAX_REJECTED_PEERS : Z := 8.
Definition TCP_CLOSE_STATE : Z := 7.
Definition DELIVERY_POLL : Z := 10000000.

(** ** Sockets *)
Inductive arrival := Data (b : bytes) | Fails.

Record conn := Conn {
  c_in : list arrival;               (* what is still to be received *)
  c_out : bytes;                     (* what has been sent *)
  c_time : Z;
  c_tick : nat;
  c_delay : nat → Z;                 (* time spent before the n-th call *)
  c_accepts : nat → option Z;        (* how much the n-th send takes; None: it fails *)
  c_status : nat → option (Z * bytes); (* SO_ERROR and TCP_INFO at the n-th call *)
  c_report : pystr → Z → Z → bool;   (* does the progress callback raise? *)
  c_log : list (pystr * Z * Z)       (* the progress calls made *)
}.

Abbreviation net := (M (conn * world)).

Definition c_upd (i : list arrival) (o : bytes) (c : conn) : conn :=
  Conn i o c.(c_time) c.(c_tick) c.(c_delay) c.(c_accepts) c.(c_status) c.(c_report) c.(c_log).
Definition c_enter (c : conn) : conn :=
  Conn c.(c_in) c.(c_out) (c.(c_time) + Z.max 0 (c.(c_delay) c.(c_tick))) (S c.(c_tick))
    c.(c_delay) c.(c_accepts) c.(c_status) c.(c_report) c.(c_log).
Definition c_sleep (d : Z) (c : conn) : conn :=
  Conn c.(c_in) c.(c_out) (c.(c_time) + Z.max 0 d) c.(c_tick) c.(c_delay) c.(c_accepts) c.(c_status) c.(c_report) c.(c_log).

(** A socket call: [f] sees the connection after the delay and the number of
    the call. *)
Definition sock {A} (f : nat → conn → res A * conn) : net A := λ '(c, w),
  let '(r, c') := f c.(c_tick) (c_enter c) in (r, (c', w)).

Definition monotonic : net Z := sock (λ _ c, (Ok c.(c_time), c)).
Definition sleep (d : Z) : net unit := sock (λ _ c, (Ok (), c_sleep d c)).

(** [connection.recv(n)]: a block of at most [n] bytes; empty at the end. *)
Definition recv (n : Z) : net bytes := sock (λ _ c,
  match c.(c_in) with
  | [] => (Ok [], c)
  | Fails :: rest => (Raise (Exn TimeoutError "timed out"), c_upd rest c.(c_out) c)
  | Data b :: rest =>
      if len b <=? n then (Ok b, c_upd rest c.(c_out) c)
      else (Ok (take (Z.to_nat n) b), c_upd (Data (drop (Z.to_nat n) b) :: rest) c.(c_out) c)
  end).

(** [connection.send(payload)]: a prefix is taken. *)
Definition send (payload : bytes) : net Z := sock (λ t c,
  match c.(c_accepts) t with
  | None => (Raise (Exn TimeoutError "timed out"), c)
  | Some k =>
      let n := Z.to_nat (Z.min (len payload) k) in
      (Ok (Z.of_nat n), c_upd c.(c_in) (c.(c_out) ++ take n payload) c)
  end).

Definition getsockopt : net (Z * bytes) := sock (λ t c,
  (of_option (c.(c_status) t) OSError "Transport endpoint is not connected", c)).

(** ** Deadlines and framed input *)
Definition remaining_timeout (deadline : Z) : net Z :=
  now ← monotonic;
  let remaining := deadline - now in
  check (remaining <=? 0) ServerRefusal "transfer deadline expired" ;;
  mret remaining.

Definition receive_step (size deadline : Z) (output : bytes) : net (bytes + bytes) :=
  if len output <? size then
    remaining_timeout deadline ;;
    block ← os_or (recv (size - len output)) ServerRefusal "request receive failed";
    check ((block : bytes) == []) ServerRefusal "request truncated" ;;
    mret (inl (output ++ block))
  else mret (inr output).

Definition receive_exact (size deadline : Z) : net bytes :=
  while (Z.to_pos (size + 1)) (receive_step size deadline) [].

Definition receive_request (prepared : PreparedBundle) (deadline : Z) : net unit :=
  prefix ← receive_exact 4 deadline;
  let length := be_int prefix in
  check ((length <? 1) || (REQUEST_MAX <? length)) ServerRefusal "request frame length is invalid" ;;
  payload ← receive_exact length deadline;
  fields ← lift (parse_record payload REQUEST_FIELDS);
  check ((field fields "format" != "rog5-fetch-request-v1")
         || (field fields "bundle" != prepared.(p_bundle))
         || (field fields "manifest_sha256" != prepared.(p_manifest_hash)))
    ServerRefusal "request identity mismatch" ;;
  remaining_timeout deadline ;;
  trailing ← os_or (recv 1) ServerRefusal "request completion failed";
  check ((trailing : bytes) != []) ServerRefusal "request contains trailing bytes".

(** ** Output *)
Definition send_step (payload : bytes) (deadline : Z) (offset : Z) : net (Z + unit) :=
  if offset <? len payload then
    remaining_timeout deadline ;;
    count ← os_or (send (drop (Z.to_nat offset) payload)) ServerRefusal "response send failed";
    check (count <=? 0) ServerRefusal "response send made no progress" ;;
    mret (inl (offset + count))
  else mret (inr ()).

Definition send_all (payload : bytes) (deadline : Z) : net unit :=
  while (Z.to_pos (len payload + 1)) (send_step payload deadline) 0.

Definition confirm_step (deadline : Z) (_ : unit) : net (unit + unit) :=
  '(socket_error, tcp_info) ← os_or getsockopt ServerRefusal "response delivery state is unavailable";
  check (negb (socket_error =? 0)) ServerRefusal "response delivery ended with a socket error" ;;
  check (negb (len (tcp_info : bytes) =? 1)) ServerRefusal "response delivery state is malformed" ;;
  if ord (nth 0 tcp_info "000"%char) =? TCP_CLOSE_STATE then mret (inr ())
  else
    now ← monotonic;
    let remaining := deadline - now in
    check (remaining <=? 0) ServerRefusal "response delivery was not acknowledged" ;;
    sleep (Z.min DELIVERY_POLL remaining) ;;
    mret (inl ()).

Definition confirm_tcp_delivery (deadline : Z) : net unit := λ '(c, w),
  while (Z.to_pos (deadline - c.(c_time) + 2)) (confirm_step deadline) () (c, w).

(** ** One connection *)
(** [report]: the call is made; an exception of the callback is swallowed. *)
Definition progress (phase : pystr) (sent total : Z) : net unit :=
  sock (λ _ c, (if c.(c_report) phase sent total then Raise (Exn RuntimeError "progress") else Ok (),
                Conn c.(c_in) c.(c_out) c.(c_time) c.(c_tick) c.(c_delay) c.(c_accepts)
                  c.(c_status) c.(c_report) (c.(c_log) ++ [(phase, sent, total)]))).
Definition report (phase : pystr) (sent total : Z) : net unit :=
  catch (progress phase sent total) (λ _, true) (λ _, pass).

Definition response_fields (prepared : PreparedBundle) : list (pystr * pystr) :=
  [("format" : pystr, "rog5-fetch-response-v1" : pystr);
   ("bundle" : pystr, prepared.(p_bundle));
   ("manifest_sha256" : pystr, prepared.(p_manifest_hash));
   ("manifest_size" : pystr, str_of_Z (prepared.(p_sizes) !!! 0%nat));
   ("signature_size" : pystr, str_of_Z (prepared.(p_sizes) !!! 1%nat));
   ("kernel_size" : pystr, str_of_Z (prepared.(p_sizes) !!! 2%nat));
   ("dtb_size" : pystr, str_of_Z (prepared.(p_sizes) !!! 3%nat));
   ("initramfs_size" : pystr, str_of_Z (prepared.(p_sizes) !!! 4%nat))].
Definition response_header (prepared : PreparedBundle) : bytes :=
  concat (map (λ '(name, value), name ++ "=" ++ value ++ [LF]) (response_fields prepared)).

Definition send_blocks_step (descriptor deadline : Z) (remaining : Z) : net (Z + unit) :=
  if remaining =? 0 then mret (inr ())
  else
    block ← sys (read descriptor (Z.min BLOCK remaining));
    check ((block : bytes) == []) ServerRefusal "opened artifact became short" ;;
    send_all block deadline ;;
    mret (inl (remaining - len block)).

(** One artifact: exactly [expected] bytes of the descriptor. *)
Definition send_artifact (total deadline : Z) (sent : Z) (a : (pystr * Z * Z) * (Z * Z)) : net Z :=
  let '((name, _, _), (descriptor, expected)) := a in
  sys (rewind descriptor) ;;
  while (Z.to_pos (expected + 1)) (send_blocks_step descriptor deadline) expected ;;
  extra ← sys (read descriptor 1);
  check ((extra : bytes) != []) ServerRefusal "opened artifact became oversized" ;;
  report name (sent + expected) total ;;
  mret (sent + expected).

Definition serve_connection (prepared : PreparedBundle) (deadline : Z) : net unit :=
  receive_request prepared deadline ;;
  let total := foldr Z.add 0 prepared.(p_sizes) in
  report "request-accepted" 0 total ;;
  check (negb (len prepared.(p_sizes) =? 5)) ValueError "unpack" ;;
  let header := response_header prepared in
  check (negb (isascii header)) UnicodeError "ascii" ;;
  check (HEADER_MAX <? len header) ServerRefusal "response header exceeds policy" ;;
  send_all (be_bytes 4 (len header)) deadline ;;
  send_all header deadline ;;
  check (negb (len prepared.(p_descriptors) =? len ARTIFACTS)) ValueError "zip" ;;
  fold_m (send_artifact total deadline) 0 (zip ARTIFACTS (zip prepared.(p_descriptors) prepared.(p_sizes))) ;;
  mret ().

(** ** The listener *)
Inductive peer := PTuple (l : list pystr) | POther.

Definition production_peer (p : peer) : bool :=
  match p with
  | PTuple l => (2 <=? len l) && (nth 0 l [] == DEVICE_ADDRESS)
  | POther => false
  end.

(** [connection.shutdown(SHUT_WR)] *)
Definition shutdown : net unit := sock (λ t c,
  (match c.(c_accepts) t with None => Raise (Exn OSError "Transport endpoint is not connected") | Some _ => Ok () end, c)).

(** What [accept] gives, after some time: a peer with its connection, or a
    failure; a listener with nothing more to give times out. *)
Definition accepted : Type := Z * option (peer * conn).

Definition at_time (now : Z) (c : conn) : conn :=
  Conn c.(c_in) c.(c_out) now c.(c_tick) c.(c_delay) c.(c_accepts) c.(c_status) c.(c_report) c.(c_log).

(** [with connection: body]; the state keeps every connection as it was when
    it was closed. *)
Definition with_connection (c : conn) (body : net unit) : M (list conn * world) unit :=
  λ '(closed, w), let '(r, (c', w')) := body (c, w) in (r, (closed ++ [c'], w')).

Definition serve_one (prepared : PreparedBundle) (deadline : Z) : net unit :=
  serve_connection prepared deadline ;;
  os_or shutdown ServerRefusal "response half-close failed" ;;
  confirm_tcp_delivery deadline.

Fixpoint accept_loop (prepared : PreparedBundle) (peer_allowed : peer → bool) (deadline rejected now : Z)
    (queue : list accepted) : M (list conn * world) unit :=
  check (deadline - now <=? 0) ServerRefusal "transfer deadline expired" ;;
  match queue with
  | [] | (_, None) :: _ => raise ServerRefusal "listener accept failed"
  | (wait, Some (p, c)) :: queue =>
      let now := now + Z.max 0 wait in
      if peer_allowed p then with_connection (at_time now c) (serve_one prepared deadline)
      else
        with_connection (at_time now c)
          (check (MAX_REJECTED_PEERS <=? rejected + 1) ServerRefusal "too many rejected peers") ;;
        accept_loop prepared peer_allowed deadline (rejected + 1) now queue
  end.

Definition serve_listener (prepared : PreparedBundle) (peer_allowed : peer → bool) (timeout_seconds now : Z)
    (queue : list accepted) : M (list conn * world) unit :=
  accept_loop prepared peer_allowed (now + timeout_seconds * SECOND) 0 now queue.

(** ** What a connection carries *)
Definition arrival_bytes (a : arrival) : bytes := match a with Data b => b | Fails => [] end.
Definition inbound (c : conn) : bytes := concat (map arrival_bytes c.(c_in)).
(** Arrivals are blocks, never empty ones: an empty block is the end. *)
Definition no_empty (c : conn) : Prop := Data [] ∉ c.(c_in).
Definition no_failure (c : conn) : Prop := Fails ∉ c.(c_in).

(** The time spent by the [n] calls after the [t]-th. *)
Fixpoint elapsed (delay : nat → Z) (t n : nat) : Z :=
  match n with O => 0 | S n => Z.max 0 (delay t) + elapsed delay (S t) n end.
(** A connection on which every send is taken in part and no call is late. *)
Definition alive (deadline : Z) (c : conn) : Prop :=
  (∀ n, c.(c_time) + elapsed c.(c_delay) c.(c_tick) n < deadline) ∧
  (∀ t, ∃ k, c.(c_accepts) t = Some k ∧ 1 ≤ k).

Lemma alive_enter d c : alive d c → alive d (c_enter c).
Proof.
  intros [Ht Ha]. split; [| done]. intros n. specialize (Ht (S n)). simpl in *. lia.
Qed.
Lemma alive_now d c : alive d c → c_time c < d.
Proof. intros [Ht _]. specialize (Ht 0%nat). simpl in Ht. lia. Qed.
Lemma alive_upd d i o c : alive d c → alive d (c_upd i o c).
Proof. done. Qed.

Lemma wp_sock {A} (f : nat → conn → res A * conn) (Q : res A → conn * world → Prop) c w :
  Q (f (c_tick c) (c_enter c)).1 ((f (c_tick c) (c_enter c)).2, w) → wp (sock f) Q (c, w).
Proof. unfold wp, sock. by destruct (f _ _). Qed.

Lemma remaining_timeout_wp d (Q : res Z → conn * world → Prop) c w :
  (¬ alive d c → Q (Raise (Exn ServerRefusal "transfer deadline expired")) (c_enter c, w)) →
  (∀ r, Q (Ok r) (c_enter c, w)) → wp (remaining_timeout d) Q (c, w).
Proof.
  intros HR HO. apply wp_bind, wp_sock. apply wp_bind, wp_check; [| intros; apply HO].
  intros Hb%Z.leb_le. apply HR. intros Ha. apply alive_enter, alive_now in Ha. simpl in *. lia.
Qed.

(** ** Input *)
Definition unsent (c c' : conn) : Prop := c_out c' = c_out c.

Section receive.
Context (size deadline : Z) (c : conn) (w : world).

Definition receive_inv (output : bytes) (cw : conn * world) : Prop :=
  let c' := cw.1 in
  cw.2 = w ∧ c_out c' = c_out c ∧ c_log c' = c_log c ∧ inbound c = output ++ inbound c' ∧
  len output ≤ size ∧ (no_empty c → no_empty c') ∧ (no_failure c → no_failure c') ∧
  (alive deadline c → alive deadline c').

Definition receive_post (r : res bytes) (cw : conn * world) : Prop :=
  let c' := cw.1 in
  cw.2 = w ∧ c_out c' = c_out c ∧ c_log c' = c_log c ∧
  (no_empty c → no_empty c') ∧ (no_failure c → no_failure c') ∧ (alive deadline c → alive deadline c') ∧
  match r with
  | Ok b => inbound c = b ++ inbound c' ∧ len b = size
  | Raise e => exn_cls e = ServerRefusal ∧
      ¬ (alive deadline c ∧ no_empty c ∧ no_failure c ∧ size ≤ len (inbound c))
  end.

Lemma receive_step_wp output cw :
  receive_inv output cw →
  0 ≤ size - len output ∧
  wp (receive_step size deadline output) (λ r cw', match r with
    | Ok (inl output') => receive_inv output' cw' ∧ (size - len output') + 1 ≤ size - len output
    | Ok (inr b) => receive_post (Ok b) cw'
    | Raise e => receive_post (Raise e) cw'
    end) cw.
Proof using Type.
  destruct cw as [c1 w1]. intros (Hw & Ho & Hlog & Hin & Hlen & Hne & Hnf & Hal). simpl in *. subst w1.
  split; [lia |]. unfold receive_step. destruct (len output <? size) eqn:E; b2p.
  2: { apply wp_mret. split_and!; simpl; try done; lia. }
  apply wp_bind, remaining_timeout_wp.
  { intros Hna. split_and!; simpl; try done; [intros; by apply alive_enter, Hal |]. tauto. }
  intros _. apply wp_bind, wp_os_or. unfold recv. apply wp_sock. cbn [c_enter c_in c_out].
  assert (alive deadline c → alive deadline (c_enter (c_enter c1))) as Hal' by (intros; by apply alive_enter, alive_enter, Hal).
  unfold inbound in *. destruct (c_in c1) as [|[b|] rest] eqn:Ein; simpl.
  - apply wp_bind, wp_check; [| done]. intros _. split_and!; simpl; try done.
    rewrite app_nil_r in Hin. unfold inbound. rewrite Hin. lia.
  - destruct (len b <=? size - len output) eqn:Eb; simpl; b2p.
    + apply wp_bind, wp_check.
      * intros ->%bool_decide_eq_true. split_and!; simpl; try done.
        { intros Hc. specialize (Hne Hc). unfold no_empty in *. rewrite Ein in Hne. set_solver. }
        { intros Hc. specialize (Hnf Hc). unfold no_failure in *. rewrite Ein in Hnf. set_solver. }
        intros (_ & Hc & _). specialize (Hne Hc). unfold no_empty in Hne. rewrite Ein in Hne. set_solver.
      * intros Hb%bool_decide_eq_false. apply wp_mret.
        assert (0 < len b) by (destruct b; [done | unfold len; simpl; lia]).
        assert (len (output ++ b) = len output + len b) as Hla by (unfold len; rewrite length_app; lia).
        split; [| lia]. split_and!; simpl; try done; try lia.
        { unfold inbound. simpl. by rewrite <-app_assoc. }
        { intros Hc. specialize (Hne Hc). unfold no_empty in *. rewrite Ein in Hne. set_solver. }
        { intros Hc. specialize (Hnf Hc). unfold no_failure in *. rewrite Ein in Hnf. set_solver. }
    + set (n := Z.to_nat (size - len output)).
      assert (len (take n b) = size - len output) as Hn.
      { unfold len in *. rewrite length_take. lia. }
      apply wp_bind, wp_check.
      { intros Hb%bool_decide_eq_true. rewrite Hb in Hn. unfold len in *. simpl in *. lia. }
      intros _. apply wp_mret.
      assert (len (output ++ take n b) = size) as Hla by (unfold len in *; rewrite length_app; lia).
      split; [| lia]. split_and!; simpl; try done; try lia.
      { unfold inbound. simpl. rewrite <-app_assoc. by rewrite (app_assoc (take n b)), take_drop. }
      { intros Hc. specialize (Hne Hc). unfold no_empty in *. simpl. rewrite Ein in Hne.
        rewrite not_elem_of_cons in *. split; [| tauto]. intros [= Hd].
        apply (f_equal length) in Hd. rewrite length_drop in Hd. simpl in Hd. unfold len in *. lia. }
      { intros Hc. specialize (Hnf Hc). unfold no_failure in *. rewrite Ein in Hnf. simpl. set_solver. }
  - split_and!; simpl; try done.
    { intros Hc. specialize (Hne Hc). unfold no_empty in *. rewrite Ein in Hne. set_solver. }
    { intros Hc. specialize (Hnf Hc). unfold no_failure in *. rewrite Ein in Hnf. set_solver. }
    intros (_ & _ & Hc & _). specialize (Hnf Hc). unfold no_failure in Hnf. rewrite Ein in Hnf. set_solver.
Qed.

Lemma receive_exact_wp : 0 ≤ size → wp (receive_exact size deadline) receive_post (c, w).
Proof using Type.
  intros Hs. apply (wp_while _ receive_inv (λ output _, size - len output)).
  - intros output cw Hi. by apply receive_step_wp.
  - split_and!; simpl; try done.
  - simpl. unfold len. simpl. lia.
Qed.
End receive.

(** ** Output *)
Section send.
Context (payload : bytes) (deadline : Z) (c : conn) (w : world).

Definition sent_some (n : nat) (cw : conn * world) : Prop :=
  cw.2 = w ∧ c_in cw.1 = c_in c ∧ c_log cw.1 = c_log c ∧ (n ≤ length payload)%nat ∧
  c_out cw.1 = c_out c ++ take n payload ∧ (alive deadline c → alive deadline cw.1).

Definition send_post (r : res unit) (cw : conn * world) : Prop :=
  match r with
  | Ok _ => sent_some (length payload) cw
  | Raise e => exn_cls e = ServerRefusal ∧ ¬ alive deadline c ∧ ∃ n, sent_some n cw
  end.

Lemma send_step_wp offset cw :
  0 ≤ offset → sent_some (Z.to_nat offset) cw →
  0 ≤ len payload - offset ∧
  wp (send_step payload deadline offset) (λ r cw', match r with
    | Ok (inl offset') => (0 ≤ offset' ∧ sent_some (Z.to_nat offset') cw') ∧ (len payload - offset') + 1 ≤ len payload - offset
    | Ok (inr b) => send_post (Ok b) cw'
    | Raise e => send_post (Raise e) cw'
    end) cw.
Proof using Type.
  destruct cw as [c1 w1]. intros H0 (Hw & Hin & Hlog & Hn & Hout & Hal). simpl in *. subst w1.
  split; [unfold len; lia |]. unfold send_step. destruct (offset <? len payload) eqn:E; b2p.
  2: { apply wp_mret. assert (Z.to_nat offset = length payload) as Heq by (unfold len in *; lia).
       unfold send_post. rewrite Heq in Hout. split_and!; simpl; try done. }
  apply wp_bind, remaining_timeout_wp.
  { intros Hna. split_and!; simpl; [done | tauto |]. exists (Z.to_nat offset).
    split_and!; simpl; try done. intros. by apply alive_enter, Hal. }
  intros _. apply wp_bind, wp_os_or. unfold send. apply wp_sock. cbn [c_enter c_accepts c_tick c_in c_out].
  assert (alive deadline c → alive deadline (c_enter (c_enter c1))) as Hal' by (intros; by apply alive_enter, alive_enter, Hal).
  destruct (c_accepts c1 (S (c_tick c1))) as [k|] eqn:Ek.
  2: { split_and!; simpl; [done | |].
       - intros Ha. destruct (Hal Ha) as [_ Hk]. destruct (Hk (S (c_tick c1))) as (? & ? & _). congruence.
       - exists (Z.to_nat offset). split_and!; simpl; done. }
  cbn [fst snd]. set (rest := drop (Z.to_nat offset) payload). set (n := Z.to_nat (Z.min (len rest) k)).
  assert (length rest = length payload - Z.to_nat offset)%nat as Hr by apply length_drop.
  assert (n ≤ length rest)%nat as Hnr by (unfold n, len; lia).
  assert (take (Z.to_nat offset + n) payload = take (Z.to_nat offset) payload ++ take n rest) as Htake by (symmetry; apply take_take_drop).
  assert (sent_some (Z.to_nat offset + n) (c_upd (c_in c1) (c_out c1 ++ take n rest) (c_enter (c_enter c1)), w)) as Hsent.
  { split_and!; simpl; [done | done | done | lia | | done]. by rewrite Hout, <-app_assoc, Htake. }
  apply wp_bind, wp_check.
  - intros Hk. b2p. split_and!; [done | | by exists (Z.to_nat offset + n)%nat].
    intros Ha. destruct (Hal Ha) as [_ Hk']. destruct (Hk' (S (c_tick c1))) as (k' & ? & ?). simplify_eq.
    unfold n, len in *. lia.
  - intros Hk. b2p. apply wp_mret. split; [| unfold n; lia].
    split; [lia |]. assert (Z.to_nat (offset + Z.of_nat n) = Z.to_nat offset + n)%nat as -> by lia. done.
Qed.

Lemma send_all_wp : wp (send_all payload deadline) send_post (c, w).
Proof using Type.
  apply (wp_while _ (λ offset cw, 0 ≤ offset ∧ sent_some (Z.to_nat offset) cw) (λ offset _, len payload - offset)).
  - intros offset cw [? ?]. by apply send_step_wp.
  - split; [lia |]. split_and!; simpl; [done..| lia | by rewrite app_nil_r | done].
  - unfold len. lia.
Qed.
End send.

(** ** What is emitted
    From [cw0] to [cw] the connection sent a prefix of [b], all of it if the
    code went on ([ok]); it went on if the connection was alive. *)
Section emits.
Context (deadline : Z).
Definition emits (b : bytes) (cw0 : conn * world) (ok : bool) (cw : conn * world) : Prop :=
  steady cw0.2 cw.2 ∧ c_in cw.1 = c_in cw0.1 ∧
  (alive deadline cw0.1 → alive deadline cw.1 ∧ ok = true) ∧
  ∃ n, (n ≤ length b)%nat ∧ c_out cw.1 = c_out cw0.1 ++ take n b ∧ (ok = true → n = length b).

Lemma emits_app b1 b2 cw0 cw1 ok cw2 :
  emits b1 cw0 true cw1 → emits b2 cw1 ok cw2 → emits (b1 ++ b2) cw0 ok cw2.
Proof using Type.
  intros (Hs1 & Hi1 & Ha1 & n1 & _ & Ho1 & Hn1) (Hs2 & Hi2 & Ha2 & n2 & Hle & Ho2 & Hn2).
  rewrite (Hn1 eq_refl), firstn_all in Ho1. split_and!.
  - by transitivity cw1.2.
  - by rewrite Hi2.
  - intros Ha. by apply Ha2, Ha1.
  - exists (length b1 + n2)%nat. rewrite !length_app. split_and!; [lia | | intros; by rewrite Hn2].
    rewrite Ho2, Ho1, <-app_assoc. by rewrite take_app_add.
Qed.

Lemma emits_fail b1 b2 cw0 cw1 : emits b1 cw0 false cw1 → emits (b1 ++ b2) cw0 false cw1.
Proof using Type.
  intros (Hs1 & Hi1 & Ha1 & n & Hle & Ho1 & _). split_and!; [done | done | done |].
  exists n. rewrite length_app. split_and!; [lia | | done]. by rewrite take_app_le by lia.
Qed.

Lemma emits_none cw0 cw1 :
  steady cw0.2 cw1.2 → c_in cw1.1 = c_in cw0.1 → c_out cw1.1 = c_out cw0.1 →
  (alive deadline cw0.1 → alive deadline cw1.1) → emits [] cw0 true cw1.
Proof using Type. intros ? ? Ho ?. split_and!; auto. exists 0%nat. rewrite Ho, app_nil_r. done. Qed.

Lemma send_all_emits b c w :
  wp (send_all b deadline) (λ r cw, cw.2 = w ∧ emits b (c, w) (is_ok r) cw) (c, w).
Proof using Type.
  eapply wp_mono; [apply send_all_wp |]. intros [u|e] [c' w'].
  - intros (Hw & Hi & _ & _ & Ho & Ha). simpl in *. subst w'. split; [done |].
    split_and!; simpl; [done | done | auto |].
    exists (length b). split_and!; [done | by rewrite Ho | done].
  - intros (_ & Hna & n & Hw & Hi & _ & Hn & Ho & Ha). simpl in *. subst w'.
    split; [done |]. split_and!; simpl; [done | done | tauto |]. by exists n.
Qed.

(** A bind emits what its parts emit. *)
Lemma emits_bind {A B} (m : net A) (f : A → net B) b1 b2 cw :
  wp m (λ r cw1, emits b1 cw (is_ok r) cw1 ∧
          ∀ a, r = Ok a → wp (f a) (λ r' cw2, emits b2 cw1 (is_ok r') cw2) cw1) cw →
  wp (m ≫= f) (λ r cw2, emits (b1 ++ b2) cw (is_ok r) cw2) cw.
Proof using Type.
  intros H. apply wp_bind. eapply wp_mono; [exact H |]. intros [a|e] cw1 [H1 H2]; simpl in *.
  - eapply wp_mono; [by apply H2 |]. intros r cw2 H3. by eapply emits_app.
  - by apply emits_fail.
Qed.

Section artifact.
Context (d : Z) (f : fd) (content : bytes).

Definition at_offset (w0 : world) (o : nat) (w : world) : Prop :=
  same w0 w ∧ w_fds w0 !! d = Some f ∧ i_data (inode_of w0 (d_key f)) = content ∧
  w_fds w = <[d := Fd (d_key f) o (d_lock f)]> (w_fds w0).

Lemma at_offset_steady w0 o w : at_offset w0 o w → steady w0 w.
Proof using Type. intros (Hs & Hd & _ & Hf). by eapply steady_insert. Qed.

Lemma read_at w0 o w n (Q : res bytes → world → Prop) :
  quiet w0 → 1 ≤ n → at_offset w0 o w →
  (∀ w' m, (m ≤ length content - o)%nat → Z.of_nat m ≤ n → ((o < length content)%nat → (1 ≤ m)%nat) →
     at_offset w0 (o + m) w' → Q (Ok (take m (drop o content))) w') →
  wp (read d n) Q w.
Proof using Type.
  intros Hq Hn (Hs & Hd & Hc & Hf) HQ.
  eapply (read_q w (same_quiet _ _ Hs Hq) d); [by rewrite Hf, lookup_insert_eq |].
  intros w' block Hs' rest Hb Hf'. cbn [d_key d_off d_lock] in *.
  assert (rest = drop o content) as Hrest by (unfold rest; by rewrite (inode_of_same w0 w), Hc).
  rewrite Hrest in Hb. set (m := Z.to_nat _) in Hb.
  assert (length (drop o content) = length content - o)%nat as Hl by apply length_drop.
  assert (m ≤ length content - o)%nat as Hm by (unfold m, len; lia).
  rewrite Hb. apply HQ; [done | unfold m; lia | unfold m, len; lia |].
  split_and!; [by transitivity w | done | done |]. rewrite Hf', Hf, insert_insert_eq.
  do 2 f_equal. rewrite Hb, length_take, Hl. lia.
Qed.

Lemma send_blocks_emits w0 c0 :
  quiet w0 → ∀ w1, at_offset w0 0 w1 →
  wp (while (Z.to_pos (len content + 1)) (send_blocks_step d deadline) (len content))
    (λ r cw, emits content (c0, w1) (is_ok r) cw ∧ (is_ok r = true → at_offset w0 (length content) cw.2)) (c0, w1).
Proof using Type.
  intros Hq w1 Hw1. pose proof (len_nonneg content) as Hcl.
  set (Inv := λ (remaining : Z) (cw : conn * world), ∃ o, (o ≤ length content)%nat ∧
    remaining = len content - Z.of_nat o ∧ at_offset w0 o cw.2 ∧ emits (take o content) (c0, w1) true cw).
  apply (wp_while _ Inv (λ remaining _, remaining)).
  - intros remaining [c w] (o & Ho & -> & Hat & Hem). simpl in Hat. split; [unfold len; lia |].
    unfold send_blocks_step. destruct (len content - Z.of_nat o =? 0) eqn:E; b2p.
    { apply wp_mret. assert (o = length content) as -> by (unfold len in *; lia).
      rewrite firstn_all in Hem. done. }
    apply wp_bind, wp_sys. eapply read_at; [done | | done |]; [unfold BLOCK, len in *; lia |].
    intros w2 m Hm Hmn Hpos Hat2. assert (o < length content)%nat as Hlt by (unfold len in *; lia).
    specialize (Hpos Hlt). set (block := take m (drop o content)).
    assert (length block = m) as Hlb by (unfold block; rewrite length_take, length_drop; lia).
    assert (content = take o content ++ block ++ drop (o + m) content) as Hsplit.
    { rewrite app_assoc. unfold block. rewrite take_take_drop. by rewrite take_drop. }
    assert (emits (take o content) (c0, w1) true (c, w2)) as Hem2.
    { destruct Hem as (_ & Hi & Ha & Hn). split_and!; [| done..]. simpl.
      transitivity w0; [| by eapply at_offset_steady].
      destruct Hw1 as ((E1 & E2 & E3 & E4 & E5) & Hd & _ & Hf1). split; [by split_and! |].
      intros d' f' Hf'. rewrite Hf1 in Hf'. destruct (decide (d = d')) as [->|Hne].
      - rewrite lookup_insert_eq in Hf'. simplify_eq. simpl. destruct f; eauto.
      - rewrite lookup_insert_ne in Hf' by done. destruct f'; eauto. }
    apply wp_bind, wp_check.
    { intros Hb%bool_decide_eq_true. rewrite Hb in Hlb. simpl in Hlb. lia. }
    intros _. apply wp_bind. eapply wp_mono; [apply (send_all_emits block) |].
    intros [u|e] [c3 w3] [Hw3 H3]; simpl in Hw3, H3; subst w3.
    + apply wp_mret. split; [| unfold len; lia]. exists (o + m)%nat. split_and!.
      * lia.
      * unfold len. lia.
      * done.
      * rewrite <-take_take_drop. by eapply emits_app.
    + split; [| done]. rewrite Hsplit, app_assoc. apply emits_fail. by eapply emits_app.
  - exists 0%nat. split_and!; [lia | lia | done |]. by apply emits_none.
  - lia.
Qed.
End artifact.

Lemma report_emits phase sent total c w :
  wp (report phase sent total) (λ r cw, cw.2 = w ∧ r = Ok () ∧ emits [] (c, w) true cw) (c, w).
Proof using Type.
  apply wp_catch, wp_sock. cbn [fst snd].
  destruct (c_report _ _ _ _); (split; [done |]; split; [done |];
    apply emits_none; [done | done | done | intros Ha; by apply (alive_enter _ _ Ha)]).
Qed.

Definition stocked (w : world) (a : (pystr * Z * Z) * (Z * Z)) (content : bytes) : Prop :=
  ∃ f, w_fds w !! a.2.1 = Some f ∧ i_data (inode_of w (d_key f)) = content ∧ a.2.2 = len content.

Lemma stocked_steady w w' a content : steady w w' → stocked w a content → stocked w' a content.
Proof using Type.
  intros [Hs Hk] (f & Hf & Hd & Hl). destruct (Hk _ _ Hf) as [o Ho]. eexists. split; [exact Ho |].
  cbn [d_key]. by rewrite (inode_of_same w w').
Qed.

Lemma send_artifact_emits total sent a content c w :
  quiet w → stocked w a content →
  wp (send_artifact total deadline sent a) (λ r cw, emits content (c, w) (is_ok r) cw) (c, w).
Proof using Type.
  intros Hq (f & Hf & Hd & Hl). destruct a as [[[name lo] hi] [d expected]]. simpl in Hf, Hl. subst expected.
  unfold send_artifact. apply wp_bind, wp_sys. eapply (rewind_q w Hq d); [done |].
  intros w1 Hs1 Hf1. assert (at_offset d f content w 0 w1) as Hat by done.
  assert (emits [] (c, w) true (c, w1)) as Hem1 by (apply emits_none; [by eapply at_offset_steady | done..]).
  apply wp_bind. eapply wp_mono; [by apply (send_blocks_emits d f content w c Hq w1) |].
  intros [u|e] [c2 w2] [H2 Hat2]; simpl in *; [| by apply (emits_app [] content _ (c, w1))].
  specialize (Hat2 eq_refl). apply wp_bind, wp_sys. eapply (read_at d f content w); [done | | exact Hat2 |]; [lia |].
  intros w3 m Hm _ _ Hat3. assert (m = 0)%nat as -> by lia. apply wp_bind, wp_check; [done |]. intros _.
  assert (emits content (c, w) true (c2, w3)) as Hem3.
  { destruct H2 as (_ & H2). split; [by eapply at_offset_steady |]. exact H2. }
  apply wp_bind. eapply wp_mono; [apply report_emits |]. intros r [c4 w4] (Hw & -> & H4). simpl in Hw. subst w4.
  apply wp_mret. rewrite <-(app_nil_r content). by eapply emits_app.
Qed.

Lemma send_artifacts_emits total l contents sent c w :
  quiet w → Forall2 (stocked w) l contents →
  wp (fold_m (send_artifact total deadline) sent l) (λ r cw, emits (concat contents) (c, w) (is_ok r) cw) (c, w).
Proof using Type.
  intros Hq H. revert contents sent c w Hq H. induction l as [|a l IH]; intros contents sent c w Hq H; inversion H as [|? content ? contents' Ha Hl]; subst.
  { by apply emits_none. }
  assert (wp (M_mbind _ _ (λ s, fold_m (send_artifact total deadline) s l) (send_artifact total deadline sent a))
            (λ r cw, emits (content ++ concat contents') (c, w) (is_ok r) cw) (c, w)) as HM; [| exact HM].
  apply emits_bind. eapply wp_mono; [by apply send_artifact_emits |]. intros r [c1 w1] H1. split; [done |].
  intros s ->. destruct H1 as (Hs & _). apply IH; [apply (same_quiet w); [apply Hs | done] |].
  eapply Forall2_impl; [exact Hl |]. intros a' content' Ha'. by eapply stocked_steady.
Qed.
End emits.

(** ** The request *)
Definition request_matches (prepared : PreparedBundle) (payload : bytes) : Prop :=
  ∃ d, parse_record payload REQUEST_FIELDS = Ok d ∧ field d "format" = "rog5-fetch-request-v1" ∧
    field d "bundle" = p_bundle prepared ∧ field d "manifest_sha256" = p_manifest_hash prepared.

(** The peer's bytes are one frame holding a matching request, and no more. *)
Definition one_request (prepared : PreparedBundle) (b : bytes) : Prop :=
  ∃ payload, b = be_bytes 4 (len payload) ++ payload ∧ 1 ≤ len payload ≤ REQUEST_MAX ∧
    request_matches prepared payload.

Lemma be_bytes_4_inj a b s t : 0 ≤ a < 2 ^ 32 → 0 ≤ b < 2 ^ 32 →
  be_bytes 4 a ++ s = be_bytes 4 b ++ t → a = b ∧ s = t.
Proof.
  intros Ha Hb H. apply app_inj_1 in H as [H ->]; [| by rewrite !be_bytes_length]. split; [| done].
  apply (f_equal be_int) in H. rewrite !be_int_bytes in H. rewrite !Z.mod_small in H by lia. done.
Qed.

Section request.
Context (prepared : PreparedBundle) (deadline : Z) (c : conn) (w : world).

Definition request_post (r : res unit) (cw : conn * world) : Prop :=
  cw.2 = w ∧ c_out cw.1 = c_out c ∧ (alive deadline c → alive deadline cw.1) ∧
  match r with
  | Ok _ => no_empty c → one_request prepared (inbound c) ∧ inbound cw.1 = []
  | Raise _ => ¬ (alive deadline c ∧ no_empty c ∧ no_failure c ∧ one_request prepared (inbound c))
  end.

(** The last [recv(1)]: empty exactly when nothing is left. *)
Lemma recv_last_wp c1 :
  wp (recv 1) (λ r cw, cw.2 = w ∧ c_out cw.1 = c_out c1 ∧ (alive deadline c1 → alive deadline cw.1) ∧
    match r with
    | Ok b => no_empty c1 → (b = [] ↔ inbound c1 = []) ∧ (b = [] → inbound cw.1 = [])
    | Raise e => is_oserror (exn_cls e) = true ∧ ¬ no_failure c1
    end) (c1, w).
Proof using Type.
  unfold recv. apply wp_sock. cbn [c_enter c_in c_out]. unfold no_empty, no_failure, inbound.
  destruct (c_in c1) as [|[b|] rest] eqn:E; simpl.
  - split_and!; try done. by apply alive_enter. by rewrite E.
  - destruct (len b <=? 1) eqn:Eb; simpl; b2p; split_and!; try done; try by apply alive_enter.
    + intros Hne. assert (b ≠ []) by (intros ->; set_solver). destruct b; [done |]. done.
    + intros _. destruct b as [|? b]; [unfold len in Eb; simpl in Eb; lia |]. done.
  - split_and!; try done; [by apply alive_enter |]. intros Hf. apply Hf. by left.
Qed.

Lemma receive_request_wp : wp (receive_request prepared deadline) request_post (c, w).
Proof using Type.
  unfold receive_request. apply wp_bind. eapply wp_mono; [by apply receive_exact_wp |].
  intros [prefix|e] [c1 w1] (Hw1 & Ho1 & _ & Hne1 & Hnf1 & Ha1 & H1); simpl in *; subst w1.
  2: { split_and!; simpl; try done. destruct H1 as [_ H1]. intros (Ha & Hne & Hnf & payload & Hb & ? & _).
       apply H1. split_and!; [done | done | done |]. rewrite Hb. unfold len. rewrite length_app, be_bytes_length. lia. }
  destruct H1 as [Hin1 Hl1]. pose proof (be_int_bound prefix) as Hbd. rewrite Hl1 in Hbd.
  assert (be_bytes 4 (be_int prefix) = prefix) as Hpre.
  { rewrite <-(be_bytes_int prefix) at 2. do 2 f_equal. unfold len in Hl1. lia. }
  assert (∀ (payload rest : bytes), 1 ≤ len payload ≤ REQUEST_MAX → inbound c = be_bytes 4 (len payload) ++ rest →
            be_int prefix = len payload ∧ inbound c1 = rest) as Hframe.
  { intros payload rest Hl Hin. rewrite Hin1, <-Hpre in Hin. unfold REQUEST_MAX in Hl.
    apply be_bytes_4_inj in Hin; [done | lia | lia]. }
  apply wp_bind, wp_check.
  { intros Hb. split_and!; simpl; try done. intros (_ & _ & _ & payload & Hin & Hl & _).
    destruct (Hframe payload payload Hl Hin) as [Heq _]. rewrite Heq in Hb. b2p. lia. }
  intros Hb. b2p. apply wp_bind. eapply wp_mono; [apply receive_exact_wp; lia |].
  intros [payload|e] [c2 w2] (Hw2 & Ho2 & _ & Hne2 & Hnf2 & Ha2 & Hrc); cbn [fst snd] in *; subst w2.
  2: { split_and!; simpl; [done | congruence | tauto |]. destruct Hrc as [_ Hrc].
       intros (Ha & Hne & Hnf & payload & Hin & Hl & _). destruct (Hframe payload payload Hl Hin) as [Heq Hrest].
       apply Hrc. split_and!; [tauto | tauto | tauto |]. rewrite Hrest. lia. }
  destruct Hrc as [Hin2 Hl2].
  assert (1 ≤ len payload ≤ REQUEST_MAX) as Hbl by lia.
  assert (inbound c = be_bytes 4 (len payload) ++ payload ++ inbound c2) as Hin by (by rewrite Hin1, Hin2, Hl2, Hpre).
  assert (∀ b, one_request prepared b → b = inbound c → request_matches prepared payload ∧ inbound c2 = []) as Hone.
  { intros b (payload' & -> & Hl' & Hm) Hb. destruct (Hframe payload' payload' Hl' (eq_sym Hb)) as [Heq Hrest].
    rewrite Hin2 in Hrest. assert (length payload = length payload') as Hlen by (unfold len in *; lia).
    rewrite <-(app_nil_r payload') in Hrest. apply app_inj_1 in Hrest as [-> ?]; done. }
  assert (alive deadline c → alive deadline c2) as Ha02 by tauto.
  apply wp_bind, wp_lift. destruct (parse_record payload REQUEST_FIELDS) as [d|e] eqn:Ep.
  2: { split_and!; simpl; [done | congruence | done |]. intros (_ & _ & _ & Hor).
       destruct (Hone _ Hor eq_refl) as [(d & Hd & _) _]. congruence. }
  apply wp_bind, wp_check.
  { intros Hb'. split_and!; simpl; [done | congruence | done |]. intros (_ & _ & _ & Hor).
    destruct (Hone _ Hor eq_refl) as [(d' & Hd & Hf) _]. rewrite Ep in Hd. injection Hd as <-.
    destruct Hf as (Hf1 & Hf2 & Hf3). rewrite Hf1, Hf2, Hf3, !bool_decide_true in Hb' by done. done. }
  rewrite !orb_false_iff, !negb_false_iff, !bool_decide_eq_true. intros [[Hf1 Hf2] Hf3].
  assert (request_matches prepared payload) as Hm by (by exists d).
  apply wp_bind, remaining_timeout_wp.
  { intros Hna. split_and!; simpl; [done | congruence | intros; by apply alive_enter, Ha02 | tauto]. }
  intros _. apply wp_bind, wp_os_or. eapply wp_mono; [apply recv_last_wp |].
  intros [b|e] [c3 w3] (Hw3 & Ho3 & Ha3 & Hrd); cbn [fst snd] in *; subst w3.
  all: change (c_out (c_enter c2)) with (c_out c2) in Ho3.
  2: { destruct Hrd as [_ Hrd]. split_and!; simpl; [done | congruence | intros; by apply Ha3, alive_enter, Ha02 |].
       intros (_ & _ & Hnf & _). apply Hrd. change (no_failure c2). tauto. }
  apply wp_check.
  - intros Hb'%negb_true_iff%bool_decide_eq_false. split_and!; simpl; [done | congruence | intros; by apply Ha3, alive_enter, Ha02 |].
    intros (_ & Hne & _ & Hor). destruct (Hone _ Hor eq_refl) as [_ Hnil].
    destruct Hrd as [Hrd _]; [change (no_empty c2); tauto |]. by apply Hb', Hrd.
  - intros Hb'%negb_false_iff%bool_decide_eq_true. split_and!; simpl; [done | congruence | intros; by apply Ha3, alive_enter, Ha02 |].
    intros Hne. destruct Hrd as [Hrd Hre]; [change (no_empty c2); tauto |].
    assert (inbound c2 = []) as Hnil by (by apply Hrd). split; [| by apply Hre].
    exists payload. rewrite Hin, Hnil, app_nil_r. done.
Qed.
End request.

(** ** The response *)
Definition response (prepared : PreparedBundle) (contents : list bytes) : bytes :=
  be_bytes 4 (len (response_header prepared)) ++ response_header prepared ++ concat contents.

(** A prepared bundle as [prepare_bundle] returns it: its identity, and five
    open descriptors on the contents it measured. *)
Definition servable (w : world) (p : PreparedBundle) (contents : list bytes) : Prop :=
  bundle_id (p_bundle p) ∧ trust_hash (p_manifest_hash p) ∧ p_sizes p = map len contents ∧
  length contents = 5%nat ∧ Forall (λ b, len b < 10 ^ 9) contents ∧
  Forall2 (λ d content, ∃ f, w_fds w !! d = Some f ∧ i_data (inode_of w (d_key f)) = content) (p_descriptors p) contents.

Lemma response_header_render p :
  response_header p = render (response_fields p).*1 (response_fields p).*2.
Proof. apply BundlePacker.manifest_text. Qed.

Lemma response_names_ok p : fields_ok (response_fields p).*1.
Proof.
  change (fields_ok ["format" : pystr; "bundle" : pystr; "manifest_sha256" : pystr; "manifest_size" : pystr;
    "signature_size" : pystr; "kernel_size" : pystr; "dtb_size" : pystr; "initramfs_size" : pystr]).
  by apply (bool_decide_eq_true_1 _).
Qed.

Lemma response_header_ok w p contents :
  servable w p contents → isascii (response_header p) = true ∧ len (response_header p) ≤ HEADER_MAX.
Proof.
  intros (Hb & Hh & Hs & Hl & Hc & _). rewrite response_header_render.
  assert (Forall2 BundlePacker.bounded (response_fields p).*2 [22; 64; 64; 9; 9; 9; 9; 9]%nat) as Hv.
  { destruct contents as [|c0 [|c1 [|c2 [|c3 [|c4 []]]]]]; try done.
    assert (Forall (λ b, 0 ≤ len b < 10 ^ 9) [c0; c1; c2; c3; c4]) as Hc'.
    { eapply Forall_impl; [exact Hc |]. intros b Hlb. split; [apply len_nonneg | exact Hlb]. }
    clear Hc. rewrite !Forall_cons in Hc'. destruct_and!.
    unfold response_fields. cbn [fmap list_fmap snd]. rewrite Hs. cbn [map].
    repeat (apply Forall2_cons; split); [by apply BundlePacker.bounded_const | | | | | | | | done].
    - split; [by apply bundle_id_value | by destruct Hb as (_ & ? & _)].
    - by apply BundlePacker.bounded_hash.
    - by apply (BundlePacker.bounded_decimal _ 8).
    - by apply (BundlePacker.bounded_decimal _ 8).
    - by apply (BundlePacker.bounded_decimal _ 8).
    - by apply (BundlePacker.bounded_decimal _ 8).
    - by apply (BundlePacker.bounded_decimal _ 8). }
  split.
  - destruct (render_guards (response_fields p).*1 (response_fields p).*2) as (_ & Ha & _); [| done | | exact Ha].
    + apply response_names_ok.
    + eapply Forall2_Forall_l; [exact Hv |]. apply Forall_true. intros b v [[? Hf] _]. split; [done |].
      eapply Forall_impl; [exact Hf |]. intros ch. unfold printable, unsafe_char. rewrite orb_false_iff. lia.
  - assert (length (response_fields p).*1 = length (response_fields p).*2) as Hl2 by (by rewrite !length_fmap).
    pose proof (BundlePacker.render_length (response_fields p).*1 _ _ Hv Hl2) as Hlen.
    vm_compute (foldr _ _ _) in Hlen. unfold len, HEADER_MAX. lia.
Qed.

Lemma servable_stocked w p contents :
  servable w p contents →
  Forall2 (stocked w) (zip ARTIFACTS (zip (p_descriptors p) (p_sizes p))) contents.
Proof.
  intros (_ & _ & Hs & Hl & _ & Hd). rewrite Hs. clear Hs.
  assert (length ARTIFACTS = length contents) as Ha by done. clear Hl. revert Ha.
  generalize ARTIFACTS. induction Hd as [|d content ds contents (f & Hf & Hc) Hd IH]; intros [|a l] Ha; try done.
  constructor; [by exists f |]. apply IH. simpl in Ha. lia.
Qed.

Definition connection_post (w : world) (p : PreparedBundle) (contents : list bytes) (deadline : Z) (c : conn)
    (r : res unit) (cw : conn * world) : Prop :=
  steady w cw.2 ∧
  (∃ n, (n ≤ length (response p contents))%nat ∧ c_out cw.1 = c_out c ++ take n (response p contents) ∧
        (is_ok r = true → n = length (response p contents)) ∧
        ((n ≠ 0)%nat → no_empty c → one_request p (inbound c))) ∧
  (alive deadline c → alive deadline cw.1 ∧
    (no_empty c → no_failure c → one_request p (inbound c) → is_ok r = true)).

Lemma serve_connection_wp w p contents deadline c :
  quiet w → servable w p contents →
  wp (serve_connection p deadline) (connection_post w p contents deadline c) (c, w).
Proof.
  intros Hq Hs. pose proof (response_header_ok w p contents Hs) as [Hasc Hhl].
  assert (length (p_sizes p) = 5%nat) as Hls.
  { destruct Hs as (_ & _ & -> & Hl & _). by rewrite length_map. }
  assert (length (p_descriptors p) = 5%nat) as Hld.
  { destruct Hs as (_ & _ & _ & Hl & _ & Hd). by rewrite (Forall2_length _ _ _ Hd). }
  unfold serve_connection. apply wp_bind. eapply wp_mono; [apply receive_request_wp |].
  intros [u|e] [c1 w1] (Hw & Ho & Ha & Hr); cbn [fst snd] in *; subst w1.
  2: { split_and!; cbn [fst snd]; [done | | intros Hal; split; [tauto |]; intros; exfalso; tauto].
       exists 0%nat. split_and!; [lia | by rewrite app_nil_r | done | done]. }
  assert (wp
    (report "request-accepted" 0 (foldr Z.add 0 (p_sizes p)) ;;
     check (negb (len (p_sizes p) =? 5)) ValueError "unpack" ;;
     check (negb (isascii (response_header p))) UnicodeError "ascii" ;;
     check (HEADER_MAX <? len (response_header p)) ServerRefusal "response header exceeds policy" ;;
     send_all (be_bytes 4 (len (response_header p))) deadline ;;
     send_all (response_header p) deadline ;;
     check (negb (len (p_descriptors p) =? len ARTIFACTS)) ValueError "zip" ;;
     fold_m (send_artifact (foldr Z.add 0 (p_sizes p)) deadline) 0 (zip ARTIFACTS (zip (p_descriptors p) (p_sizes p))) ;;
     mret ()) (λ r cw, emits deadline (response p contents) (c1, w) (is_ok r) cw) (c1, w)) as Hem.
  2: { eapply wp_mono; [exact Hem |]. intros r [c2 w2] (Hst & _ & Hal & n & Hn & Ho2 & Hok). cbn [fst snd] in *.
       split_and!; cbn [fst snd]; [done | | intros Ha0; split; [| intros _ _ _]; by apply Hal, Ha].
       exists n. split_and!; [done | by rewrite Ho2, Ho | done |]. intros _ Hne. by apply Hr. }
  apply (emits_bind deadline _ _ []). eapply wp_mono; [apply report_emits |].
  intros r [c2 w2] (Hw2 & -> & H2). cbn [fst snd] in *. subst w2. split; [done |]. intros _ _. clear H2.
  apply wp_bind, wp_check; [unfold len; rewrite Hls; done |]. intros _.
  apply wp_bind, wp_check; [by rewrite Hasc |]. intros _.
  apply wp_bind, wp_check; [intros Hb%Z.ltb_lt; lia |]. intros _.
  unfold response. apply (emits_bind deadline _ _ (be_bytes 4 (len (response_header p)))).
  eapply wp_mono; [apply send_all_emits |]. intros r [c3 w3] [Hw3 H3]. cbn [fst snd] in *. subst w3.
  split; [done |]. intros _ _. clear H3.
  apply (emits_bind deadline _ _ (response_header p)).
  eapply wp_mono; [apply send_all_emits |]. intros r3 [c4 w4] [Hw4 H4]. cbn [fst snd] in *. subst w4.
  split; [done |]. intros _ _. clear H4.
  apply wp_bind, wp_check; [unfold len; rewrite Hld; done |]. intros _.
  rewrite <-(app_nil_r (concat contents)). apply (emits_bind deadline _ _ (concat contents) []).
  eapply wp_mono; [by apply send_artifacts_emits, servable_stocked |]. intros r4 [c5 w5] H5. split; [done |].
  intros _ _. apply wp_mret. by apply emits_none.
Qed.

(** ** Delivery *)
(** The world and the sent bytes are left alone, and the model's own bound
    is never met. *)
Definition only_waits {A} (c : conn) (w : world) (r : res A) (cw : conn * world) : Prop :=
  cw.2 = w ∧ c_out cw.1 = c_out c ∧ ∀ msg, r ≠ Raise (Exn OutOfFuel msg).

Ltac refuses := split; [done | split; [done | intros ? [=]]].

Lemma confirm_wp deadline c w : wp (confirm_tcp_delivery deadline) (only_waits c w) (c, w).
Proof.
  unfold confirm_tcp_delivery, wp at 1. fold (wp (while (Z.to_pos (deadline - c_time c + 2)) (confirm_step deadline) ()) (only_waits c w) (c, w)).
  apply (wp_while _ (λ _ cw, cw.2 = w ∧ c_out cw.1 = c_out c) (λ _ cw, Z.max 0 (deadline - c_time cw.1))); [| done | simpl; lia].
  intros [] [c1 w1] [Hw Ho]. cbn [fst snd] in *. subst w1. split; [lia |].
  unfold confirm_step. apply wp_bind, wp_os_or, wp_sock. cbn [fst snd c_enter c_status].
  destruct (c_status c1 (c_tick c1)) as [[err info]|]; simpl; [| refuses].
  apply wp_bind, wp_check; [intros _; refuses |]. intros _.
  apply wp_bind, wp_check; [intros _; refuses |]. intros _.
  destruct (_ =? TCP_CLOSE_STATE); [apply wp_mret; refuses |].
  apply wp_bind, wp_sock. cbn [fst snd]. apply wp_bind, wp_check; [intros _; refuses |].
  intros Hr%Z.leb_gt. apply wp_bind, wp_sock. cbn [fst snd]. apply wp_mret.
  split; [done |]. unfold DELIVERY_POLL. simpl in *. lia.
Qed.

Definition handled (p : PreparedBundle) (contents : list bytes) (allowed : peer → bool) (pc : peer * conn) (c' : conn) : Prop :=
  if allowed pc.1 then
    ∃ n, (n ≤ length (response p contents))%nat ∧ c_out c' = c_out pc.2 ++ take n (response p contents) ∧
      ((n ≠ 0)%nat → no_empty pc.2 → one_request p (inbound pc.2))
  else c_out c' = c_out pc.2.

Lemma serve_one_wp w p contents deadline c :
  quiet w → servable w p contents →
  wp (serve_one p deadline) (λ r cw, steady w cw.2 ∧
    ∃ n, (n ≤ length (response p contents))%nat ∧ c_out cw.1 = c_out c ++ take n (response p contents) ∧
      (is_ok r = true → n = length (response p contents)) ∧
      ((n ≠ 0)%nat → no_empty c → one_request p (inbound c))) (c, w).
Proof.
  intros Hq Hs. unfold serve_one. apply wp_bind. eapply wp_mono; [by apply (serve_connection_wp w p contents)|].
  intros [u|e] [c1 w1] (Hst & (n & Hn & Ho & Hok & Hone) & _); cbn [fst snd] in *.
  2: { split; [done |]. by exists n. }
  apply wp_bind, wp_os_or, wp_sock. cbn [fst snd c_enter c_accepts].
  destruct (c_accepts c1 (c_tick c1)); [| split; [done |]; by exists n].
  eapply wp_mono; [apply confirm_wp |]. intros r [c2 w2] (Hw & Ho2 & _). cbn [fst snd] in *. subst w2.
  split; [done |]. exists n. rewrite Ho2. split_and!; auto.
Qed.

Section listener.
Context (p : PreparedBundle) (contents : list bytes) (allowed : peer → bool) (deadline : Z).

Definition accept_post (w0 : world) (rejected : Z) (queue : list accepted) (closed0 : list conn)
    (r : res unit) (st : list conn * world) : Prop :=
  ∃ new, st.1 = closed0 ++ new ∧ len new ≤ MAX_REJECTED_PEERS - rejected ∧
    (∀ i c', new !! i = Some c' → ∃ wait pe c, queue !! i = Some (wait, Some (pe, c)) ∧
       handled p contents allowed (pe, c) c' ∧ (allowed pe = true → S i = length new)) ∧
    (r = Ok () → ∃ i wait pe c c', new !! i = Some c' ∧ queue !! i = Some (wait, Some (pe, c)) ∧
       allowed pe = true ∧ c_out c' = c_out c ++ response p contents).

Lemma accept_loop_wp queue rejected now closed w :
  quiet w → servable w p contents → 0 ≤ rejected < MAX_REJECTED_PEERS →
  wp (accept_loop p allowed deadline rejected now queue) (accept_post w rejected queue closed) (closed, w).
Proof using Type.
  revert rejected now closed w. induction queue as [|[wait [[pe c]|]] queue IH]; intros rejected now closed w Hq Hs Hr; simpl.
  1,3: apply wp_bind, wp_check; [| intros _; apply wp_lift]; (exists []; split_and!; [by rewrite app_nil_r | unfold len; simpl; lia | done | done]).
  apply wp_bind, wp_check.
  { intros _. exists []. split_and!; [by rewrite app_nil_r | unfold len; simpl; lia | done | done]. }
  intros _. set (c0 := at_time (now + Z.max 0 wait) c). destruct (allowed pe) eqn:Epe.
  - pose proof (serve_one_wp w p contents deadline c0 Hq Hs) as H. unfold wp, with_connection in *.
    destruct (serve_one p deadline (c0, w)) as [r [c' w']] eqn:Er.
    destruct H as (_ & n & Hn & Ho & Hok & Hone). cbn [fst snd] in *.
    exists [c']. split_and!; [done | unfold len; simpl; lia | |].
    + intros [|i] c'' [= <-]. exists wait, pe, c. split_and!; [done | | done].
      unfold handled. simpl. rewrite Epe. exists n. by split_and!.
    + intros ->. exists 0%nat, wait, pe, c, c'. split_and!; [done | done | done |].
      rewrite Ho, (Hok eq_refl), firstn_all. done.
  - assert (∀ c'' : conn, handled p contents allowed (pe, c) c'' ↔ c_out c'' = c_out c) as Hh.
    { intros c''. unfold handled. simpl. by rewrite Epe. }
    apply wp_bind. unfold wp at 1, with_connection, check, lift. unfold refuse_if.
    destruct (MAX_REJECTED_PEERS <=? rejected + 1) eqn:Em; cbn [fst snd]; b2p.
    + exists [c0]. split_and!; [done | unfold len; simpl; lia | | done].
      intros [|i] c' [= <-]. exists wait, pe, c. split_and!; [done | by apply Hh | congruence].
    + eapply wp_mono; [apply IH; [done | done | lia] |]. intros r [cl w'] (new & Hcl & Hlen & Hall & Hok).
      exists (c0 :: new). cbn [fst snd] in *. split_and!.
      * by rewrite Hcl, <-app_assoc.
      * unfold len in *. simpl. lia.
      * intros [|i] c' Hc'; simpl in *.
        { injection Hc' as <-. exists wait, pe, c. split_and!; [done | by apply Hh | congruence]. }
        destruct (Hall i c' Hc') as (wt & pe' & c1 & ? & ? & Hl). exists wt, pe', c1. split_and!; [done | done |].
        intros Ha. by rewrite (Hl Ha).
      * intros ->. destruct (Hok eq_refl) as (i & wt & pe' & c1 & c' & ? & ? & ? & ?).
        exists (S i), wt, pe', c1, c'. done.
Qed.
End listener.

(** ** Theorems *)

(** C5. The response is exact.  However the request is split on the way in,
    however sends are split on the way out and whatever the progress callback
    does, the bytes a connection sends are a prefix of the one response of the
    prepared bundle; nothing is sent unless the peer's whole input is one frame
    holding a matching request; success means the whole response was sent; and
    a connection that keeps up, with such an input, succeeds. *)
Theorem serve_connection_exact p contents deadline c w :
  quiet w → servable w p contents →
  match serve_connection p deadline (c, w) with
  | (r, (c', w')) =>
      (∃ sent rest, response p contents = sent ++ rest ∧ c_out c' = c_out c ++ sent ∧
         (sent ≠ [] → no_empty c → one_request p (inbound c)) ∧ (is_ok r = true → rest = [])) ∧
      (alive deadline c → no_empty c → no_failure c → one_request p (inbound c) → is_ok r = true)
  end.
Proof.
  intros Hq Hs. pose proof (serve_connection_wp w p contents deadline c Hq Hs) as H. unfold wp in H.
  destruct (serve_connection _ _ _) as [r [c' w']]. destruct H as (_ & (n & Hn & Ho & Hok & Hone) & Hl).
  cbn [fst snd] in *. split.
  - exists (take n (response p contents)), (drop n (response p contents)). split_and!.
    + by rewrite take_drop.
    + done.
    + intros Hne. apply Hone. intros ->. by apply Hne.
    + intros Hr. rewrite (Hok Hr). by apply drop_all.
  - intros Ha. by apply Hl.
Qed.

(** Reading a frame does not depend on how it arrives: [receive_exact]
    returns the first [size] bytes of the stream and leaves the rest, or
    refuses, and it refuses only when a call failed or was late, or the stream
    ended before. *)
Theorem receive_exact_split size deadline c w :
  0 ≤ size →
  match receive_exact size deadline (c, w) with
  | (Ok b, (c', w')) => inbound c = b ++ inbound c' ∧ len b = size ∧ w' = w
  | (Raise e, _) => exn_cls e = ServerRefusal ∧
      ¬ (alive deadline c ∧ no_empty c ∧ no_failure c ∧ size ≤ len (inbound c))
  end.
Proof.
  intros Hs. pose proof (receive_exact_wp size deadline c w Hs) as H. unfold wp in H.
  destruct (receive_exact _ _ _) as [[b|e] [c' w']]; destruct H as (Hw & _ & _ & _ & _ & _ & H); [| done].
  destruct H. done.
Qed.

(** The listener serves no stranger.  Whatever connects, at most
    [MAX_REJECTED_PEERS] connections are opened; one from a peer that is not
    allowed is closed with nothing sent; the allowed one is the last and gets
    a prefix of the response, the whole of it when the listener returns. *)
Theorem serve_listener_peers p contents allowed timeout now queue w :
  quiet w → servable w p contents →
  match serve_listener p allowed timeout now queue ([], w) with
  | (r, (closed, _)) =>
      len closed ≤ MAX_REJECTED_PEERS ∧
      (∀ i c', closed !! i = Some c' → ∃ wait pe c, queue !! i = Some (wait, Some (pe, c)) ∧
         handled p contents allowed (pe, c) c' ∧ (allowed pe = true → S i = length closed)) ∧
      (r = Ok () → ∃ i wait pe c c', closed !! i = Some c' ∧ queue !! i = Some (wait, Some (pe, c)) ∧
         allowed pe = true ∧ c_out c' = c_out c ++ response p contents)
  end.
Proof.
  intros Hq Hs. assert (0 ≤ 0 < MAX_REJECTED_PEERS) as H0 by (unfold MAX_REJECTED_PEERS; lia).
  pose proof (accept_loop_wp p contents allowed (now + timeout * SECOND) queue 0 now [] w Hq Hs H0) as H.
  unfold wp in H. unfold serve_listener. destruct (accept_loop _ _ _ _ _ _ _) as [r [closed w']].
  destruct H as (new & Hcl & Hl & Hall & Hok). cbn [fst snd app] in *. subst new.
  split_and!; [lia | done | done].
Qed.

(** Waiting for delivery ends: the poll of the TCP state stops within the
    deadline, whatever the socket reports, and sends nothing. *)
Theorem confirm_tcp_delivery_ends deadline c w :
  ∀ msg, (confirm_tcp_delivery deadline (c, w)).1 ≠ Raise (Exn OutOfFuel msg) ∧
         c_out (confirm_tcp_delivery deadline (c, w)).2.1 = c_out c.
Proof.
  intros msg. pose proof (confirm_wp deadline c w) as H. unfold wp in H. destruct H as (_ & Ho & Hn). done.
Qed.

(** ** The sample bundle on a connection *)
Definition sample_contents : list bytes :=
  [sample_manifest; replicate 64 "S"%char; sample_files !!! ("Image" : pystr);
   sample_files !!! ("board.dtb" : pystr); sample_files !!! ("initramfs.cpio.gz" : pystr)].
Definition sample_digest : pystr := Eval vm_compute in sha256 sample_manifest.
Definition opened (rw : res PreparedBundle * world) : PreparedBundle * world :=
  match rw with (Ok p, w) => (p, w) | (Raise _, w) => (Prepared [] [] [] [], w) end.
Definition sample_open : PreparedBundle * world := Eval vm_compute in
  opened (prepare_bundle 3 "arch-a-01" sample_digest 1000 sample_world).
Definition sample_request : bytes := Eval vm_compute in
  render REQUEST_FIELDS ["rog5-fetch-request-v1" : pystr; "arch-a-01" : pystr; sample_digest].
Definition sample_arrivals : list arrival := Eval vm_compute in
  let frame := be_bytes 4 (len sample_request) ++ sample_request in
  [Data (take 7 frame); Data (drop 7 frame)].
(** The request arrives in two blocks, every send takes seven bytes. *)
Definition sample_conn : conn :=
  Conn sample_arrivals [] 0 0 (λ _, 0) (λ _, Some 7) (λ _, Some (0, [chr 7])) (λ _ _ _, true) [].

Lemma sample_quiet : quiet sample_open.2.
Proof. split; intros; vm_compute; reflexivity. Qed.
Lemma sample_servable : servable sample_open.2 sample_open.1 sample_contents.
Proof.
  split_and!.
  - apply valid_bundle_spec. vm_compute. reflexivity.
  - apply valid_hash_spec. vm_compute. reflexivity.
  - vm_compute. reflexivity.
  - reflexivity.
  - repeat constructor; vm_compute; reflexivity.
  - assert (p_descriptors sample_open.1 = [5; 6; 7; 8; 9]) as -> by (vm_compute; reflexivity).
    repeat constructor; eexists; (split; vm_compute; reflexivity).
Qed.

Lemma receive_exact_split_witness :
  match receive_exact 4 SECOND (sample_conn, sample_open.2) with
  | (Ok b, (c', w')) => inbound sample_conn = b ++ inbound c' ∧ len b = 4 ∧ w' = sample_open.2
  | (Raise e, _) => exn_cls e = ServerRefusal ∧
      ¬ (alive SECOND sample_conn ∧ no_empty sample_conn ∧ no_failure sample_conn ∧ 4 ≤ len (inbound sample_conn))
  end.
Proof. apply receive_exact_split. vm_compute. discriminate. Defined.

Lemma serve_listener_peers_witness :
  len (serve_listener sample_open.1 production_peer TRANSFER_TIMEOUT_SECONDS 0
         [(0, Some (POther, sample_conn)); (5, Some (PTuple [DEVICE_ADDRESS; "40000" : pystr], sample_conn))]
         ([], sample_open.2)).2.1 ≤ MAX_REJECTED_PEERS.
Proof.
  pose proof (serve_listener_peers sample_open.1 sample_contents production_peer TRANSFER_TIMEOUT_SECONDS 0
         [(0, Some (POther, sample_conn)); (5, Some (PTuple [DEVICE_ADDRESS; "40000" : pystr], sample_conn))]
         sample_open.2 sample_quiet sample_servable) as H.
  destruct (serve_listener _ _ _ _ _ _) as [r [closed w']]. apply H.
Defined.

Lemma elapsed_zero t n : elapsed (λ _, 0) t n = 0.
Proof. revert t. induction n as [|n IH]; intros t; [done |]. simpl. by rewrite IH. Qed.

Lemma sample_one_request : one_request sample_open.1 (inbound sample_conn).
Proof.
  exists (render REQUEST_FIELDS ["rog5-fetch-request-v1" : pystr; "arch-a-01" : pystr; sample_digest]).
  split; [vm_compute; reflexivity |]. split; [vm_compute; split; discriminate |].
  eexists. split; [apply parse_record_rendered; [apply request_fields_ok | reflexivity |] |].
  - repeat constructor; try discriminate; by apply (bool_decide_eq_true_1 _).
  - rewrite !field_record_of. split_and!; reflexivity.
Qed.

Lemma serve_connection_exact_witness :
  is_ok (serve_connection sample_open.1 SECOND (sample_conn, sample_open.2)).1 = true.
Proof.
  pose proof (serve_connection_exact sample_open.1 sample_contents SECOND sample_conn sample_open.2
                sample_quiet sample_servable) as H.
  destruct (serve_connection _ _ _) as [r [c' w']]. destruct H as [_ H]. apply H.
  - split; [| by intros; exists 7]. intros n. change (0 + elapsed (λ _, 0) 0 n < SECOND). by rewrite elapsed_zero.
  - unfold no_empty. change (c_in sample_conn) with sample_arrivals. unfold sample_arrivals.
    rewrite !not_elem_of_cons. split_and!; [discriminate | discriminate | apply not_elem_of_nil].
  - unfold no_failure. change (c_in sample_conn) with sample_arrivals. unfold sample_arrivals.
    rewrite !not_elem_of_cons. split_and!; [discriminate | discriminate | apply not_elem_of_nil].
  - exact sample_one_request.
Defined.
