(* ===== verification/PackerFiles.v ===== *)
(** * The signed-bundle packer: the transaction

    The file system part of scripts/host/prepare-recovery-runtime-bundle.py:
    sources are opened and checked, copied into a private staging directory,
    the manifest is written and signed there, and the directory is published
    with one no-replace rename.  [openssl], [shutil.which] and [secrets] are
    parameters. *)

From S2P Require Import Prelude PyStr Sha256 BundlePolicy BundlePacker Posix.
From S2P Require BundleServer ServerFiles.

Definition SPKI_PREFIX : bytes := map chr [48; 42; 48; 5; 6; 3; 43; 101; 112; 3; 33; 0].
Definition FINAL_INVENTORY : gset pystr :=
  {[ ("manifest" : pystr); ("manifest.sig" : pystr) ]} ∪ list_to_set (map (λ a, a.1.1) ARTIFACTS).
Definition BLOCK : Z := 1024 * 1024.

(** What the packer asks of programs outside the repository: the return codes
    and outputs of the three [openssl] commands on the files they read, the
    result of [shutil.which("openssl")] and the [n]-th random token. *)
Record tools := Tools {
  t_which : option pystr;
  t_pkcs8 : bytes → Z;
  t_pkey : bytes → Z * bytes;
  t_pkeyutl : bytes → bytes → Z * bytes;
  t_token : nat → pystr
}.

(** ** Opening the inputs *)
Definition open_regular (path label : pystr) : io Z :=
  descriptor ← os_or (open_ None path [O_NOFOLLOW] 0) BundleError ("cannot open " ++ label);
  metadata ← fstat descriptor;
  if metadata.(st_kind) != Reg
  then close descriptor ;; raise BundleError (label ++ " is not a regular file")
  else mret descriptor.

Definition validate_private_key (t : tools) (descriptor : Z) : io bytes :=
  metadata ← fstat descriptor;
  euid ← geteuid;
  check (negb (metadata.(st_uid) =? euid)
         || negb ((metadata.(st_perm) =? 256) || (metadata.(st_perm) =? 384))
         || negb (metadata.(st_nlink) =? 1)
         || (metadata.(st_size) <? 1) || (64 * 1024 <? metadata.(st_size)))
    BundleError "private key metadata is unsafe" ;;
  rewind descriptor ;;
  '(unencrypted, _) ← subprocess_run (λ l, (t.(t_pkcs8) (nth 0 l []), [])) [descriptor];
  check (negb (unencrypted =? 0)) BundleError "private key is not unencrypted PKCS#8" ;;
  rewind descriptor ;;
  '(returncode, stdout) ← subprocess_run (λ l, t.(t_pkey) (nth 0 l [])) [descriptor];
  check (negb (returncode =? 0) || negb (len (stdout : bytes) =? len SPKI_PREFIX + 32)
         || negb (startswith stdout SPKI_PREFIX))
    BundleError "private key is not Ed25519" ;;
  mret (drop (length SPKI_PREFIX) stdout).

Definition directory_inventory (descriptor : Z) : io (list pystr) :=
  snapshot ← open_ (Some descriptor) "." [O_DIRECTORY; O_NOFOLLOW] 0;
  finally (listdir snapshot) (close snapshot).

Definition open_bundle_root (path : pystr) : io Z :=
  descriptor ← os_or (open_ None path [O_DIRECTORY; O_NOFOLLOW] 0) BundleError "cannot open bundle root";
  metadata ← fstat descriptor;
  euid ← geteuid;
  if (metadata.(st_kind) != Dir) || negb (metadata.(st_uid) =? euid) || negb (metadata.(st_perm) =? 448)
  then close descriptor ;; raise BundleError "bundle root metadata is unsafe"
  else
    catch (flock descriptor LOCK_EX) is_oserror
      (λ _, close descriptor ;; raise BundleError "bundle root is busy") ;;
    names ← directory_inventory descriptor;
    if (names : list pystr) != [] then close descriptor ;; raise BundleError "bundle root is not empty"
    else mret descriptor.

Definition source_snapshot (m : stat_result) : list Z :=
  [st_dev m; st_ino m; match st_kind m with Reg => 32768 | Dir => 16384 | Lnk => 40960 | Special => 8192 end + st_perm m;
   st_nlink m; st_size m; st_mtime_ns m; st_ctime_ns m].

(** ** Writing the staged files *)
Definition write_step (descriptor : Z) (payload : bytes) (offset : Z) : io (Z + unit) :=
  if offset <? len payload then
    written ← write descriptor (drop (Z.to_nat offset) payload);
    check (written <=? 0) BundleError "bundle artifact write made no progress" ;;
    mret (inl (offset + written))
  else mret (inr ()).
Definition write_all (descriptor : Z) (payload : bytes) : io unit :=
  while (Z.to_pos (len payload + 1)) (write_step descriptor payload) 0.

Definition copy_step (source destination maximum : Z) (name : pystr) (observed : Z) : io (Z + Z) :=
  block ← read source BLOCK;
  if (block : bytes) == [] then mret (inr observed)
  else
    let observed := observed + len block in
    check (maximum <? observed) BundleError (name ++ " changed beyond size policy") ;;
    write_all destination block ;;
    mret (inl observed).

Definition rehash_step (destination : Z) (s : Z * bytes) : io ((Z * bytes) + (Z * bytes)) :=
  let '(hashed, seen) := s in
  block ← read destination BLOCK;
  if (block : bytes) == [] then mret (inr (hashed, seen))
  else mret (inl (hashed + len block, seen ++ block)).

(** The [try:] block of [copy_artifact].  [rounds] bounds the re-reading of
    the staged file: one more than its size. *)
Definition copy_body (source destination : Z) (name : pystr) (maximum : Z) (before : stat_result) : io (Z * pystr) :=
  observed ← while (Z.to_pos (maximum + 2)) (copy_step source destination maximum name) 0;
  fchmod destination 256 ;;
  fsync destination ;;
  output ← fstat destination;
  after ← fstat source;
  check ((source_snapshot before != source_snapshot after) || negb (observed =? before.(st_size)))
    BundleError (name ++ " changed while being copied") ;;
  euid ← geteuid;
  check (negb (output.(st_uid) =? euid) || negb (output.(st_perm) =? 256)
         || negb (output.(st_nlink) =? 1) || negb (output.(st_size) =? observed))
    BundleError (name ++ " output metadata is unsafe") ;;
  rewind destination ;;
  '(hashed, seen) ← while (Z.to_pos (output.(st_size) + 2)) (rehash_step destination) (0, []);
  check (negb (hashed =? observed)) BundleError (name ++ " staged snapshot changed") ;;
  mret (observed, sha256 seen).

(** The caller's list [created] is the local state: it is appended to as
    soon as the file exists. *)
Definition copy_artifact {S} (push : pystr → S → S) (source directory : Z) (a : pystr * Z * Z) : proc S (Z * pystr) :=
  let '(name, minimum, maximum) := a in
  before ← sys (fstat source);
  check ((before.(st_size) <? minimum) || (maximum <? before.(st_size)))
    BundleError (name ++ " size is outside policy") ;;
  destination ← sys (open_ (Some directory) name [O_CREAT; O_EXCL; O_NOFOLLOW] 256);
  assign (push name) ;;
  sys (finally (copy_body source destination name maximum before) (close destination)).

Definition create_file {S} (push : pystr → S → S) (directory : Z) (name : pystr) (payload : bytes) : proc S unit :=
  descriptor ← sys (open_ (Some directory) name [O_CREAT; O_EXCL; O_NOFOLLOW] 256);
  assign (push name) ;;
  sys (finally
    (write_all descriptor payload ;;
     fchmod descriptor 256 ;;
     fsync descriptor ;;
     metadata ← fstat descriptor;
     euid ← geteuid;
     check (negb (metadata.(st_uid) =? euid) || negb (metadata.(st_perm) =? 256)
            || negb (metadata.(st_nlink) =? 1) || negb (metadata.(st_size) =? len payload))
       BundleError (name ++ " output metadata is unsafe"))
    (close descriptor)).

Definition sign_manifest (t : tools) (manifest : bytes) (private_key : Z) : io bytes :=
  message ← os_or memfd_create BundleError "cannot create private signing input";
  '(returncode, stdout) ← finally
    (write_all message manifest ;;
     rewind message ;;
     rewind private_key ;;
     subprocess_run (λ l, t.(t_pkeyutl) (nth 0 l []) (nth 1 l [])) [private_key; message])
    (close message);
  check (negb (returncode =? 0) || negb (len (stdout : bytes) =? 64))
    BundleError "Ed25519 manifest signing failed" ;;
  mret stdout.

(** ** Staging and publication *)
Fixpoint staging_attempts (t : tools) (root : Z) (bundle : pystr) (tries attempt : nat) : io (pystr * Z) :=
  match tries with
  | O => raise BundleError "cannot allocate a private staging directory"
  | S tries =>
      let name := "." ++ bundle ++ ".staging-" ++ t.(t_token) attempt in
      made ← catch (mkdir root name 448 ;; mret true) (λ c, c == FileExistsError) (λ _, mret false);
      if (made : bool) then
        descriptor ← catch (open_ (Some root) name [O_DIRECTORY; O_NOFOLLOW] 0) is_oserror
          (λ _, os_or (rmdir root name) BundleError "cannot clean failed staging directory" ;;
                raise BundleError "cannot open private staging directory");
        mret (name, descriptor)
      else staging_attempts t root bundle tries (S attempt)
  end.
Definition create_staging_directory (t : tools) (root : Z) (bundle : pystr) : io (pystr * Z) :=
  staging_attempts t root bundle 32 0.

Definition rename_noreplace (root : Z) (source destination : pystr) : io unit :=
  os_or (renameat2_noreplace root source destination) BundleError "atomic no-replace publication failed".

Definition not_found (c : exn_class) : bool := c == FileNotFoundError.
Definition cleanup_staging (root : Z) (staging_name : pystr) (staging : Z) (created : list pystr) : io unit :=
  catch (fchmod staging 448) is_oserror (λ _, pass) ;;
  each (λ name, catch (unlink staging name) not_found (λ _, pass)) (reverse created) ;;
  catch (rmdir root staging_name) not_found (λ _, pass).

(** The local variables of [prepare_bundle]; a descriptor of -1 is [None]. *)
Record locals := Locals {
  v_sources : list Z;
  v_root : option Z;
  v_staging : option Z;
  v_staging_name : option pystr;
  v_created : list pystr
}.
Definition push_source (d : Z) (v : locals) : locals :=
  Locals (v.(v_sources) ++ [d]) v.(v_root) v.(v_staging) v.(v_staging_name) v.(v_created).
Definition set_root (d : Z) (v : locals) : locals :=
  Locals v.(v_sources) (Some d) v.(v_staging) v.(v_staging_name) v.(v_created).
Definition set_staging (p : pystr * Z) (v : locals) : locals :=
  Locals v.(v_sources) v.(v_root) (Some p.2) (Some p.1) v.(v_created).
Definition no_staging_name (v : locals) : locals :=
  Locals v.(v_sources) v.(v_root) v.(v_staging) None v.(v_created).
Definition push_created (n : pystr) (v : locals) : locals :=
  Locals v.(v_sources) v.(v_root) v.(v_staging) v.(v_staging_name) (v.(v_created) ++ [n]).

Definition open_source (identity : key) (p : (pystr * Z * Z) * pystr) : proc locals unit :=
  let '((name, _, _), path) := p in
  source ← sys (open_regular path name);
  metadata ← sys (fstat source);
  if (metadata.(st_dev), metadata.(st_ino)) == identity
  then sys (close source) ;; raise BundleError "bundle artifact aliases the private key"
  else assign (push_source source).

Definition copy_one (staging : Z) (observed : gmap pystr (Z * pystr)) (p : Z * (pystr * Z * Z))
    : proc locals (gmap pystr (Z * pystr)) :=
  h ← copy_artifact push_created p.1 staging p.2;
  mret (<[p.2.1.1 := h]> observed).

(** The [try:] block of [prepare_bundle]. *)
Definition prepare_body (t : tools) (config : Configuration) (private_key : Z) : proc locals (pystr * pystr) :=
  key_metadata ← sys (fstat private_key);
  let key_snapshot := source_snapshot key_metadata in
  public_key ← sys (validate_private_key t private_key);
  private_key_metadata ← sys (fstat private_key);
  let identity := (private_key_metadata.(st_dev), private_key_metadata.(st_ino)) in
  each (open_source identity) (zip ARTIFACTS [config.(image); config.(dtb); config.(initramfs)]) ;;
  root ← sys (open_bundle_root config.(bundle_root));
  assign (set_root root) ;;
  '(staging_name, staging) ← sys (create_staging_directory t root config.(bundle));
  assign (set_staging (staging_name, staging)) ;;
  vars (λ v,
    check (negb (len v.(v_sources) =? len ARTIFACTS)) ValueError "zip" ;;
    observed ← fold_m (copy_one staging) ∅ (zip v.(v_sources) ARTIFACTS);
    manifest ← lift (manifest_bytes config observed);
    create_file push_created staging "manifest" manifest ;;
    signature ← sys (sign_manifest t manifest private_key);
    after ← sys (fstat private_key);
    check (source_snapshot after != key_snapshot) BundleError "private key changed while signing" ;;
    check (negb (len (signature : bytes) =? 64)) BundleError "Ed25519 manifest signature has wrong size" ;;
    create_file push_created staging "manifest.sig" signature ;;
    inventory ← sys (directory_inventory staging);
    check ((list_to_set inventory : gset pystr) != FINAL_INVENTORY) BundleError "staging inventory is incomplete" ;;
    sys (fsync staging) ;;
    sys (fchmod staging 320) ;;
    sys (rename_noreplace root staging_name config.(bundle)) ;;
    assign no_staging_name ;;
    sys (fsync root) ;;
    mret (sha256 manifest, sha256 public_key)).

(** Its [finally:] block. *)
Definition close_some (d : option Z) : io unit :=
  match d with Some d => close d | None => pass end.
Definition prepare_finally (private_key : Z) (v : locals) : io unit :=
  match v.(v_staging_name), v.(v_root), v.(v_staging) with
  | Some name, Some root, Some staging => cleanup_staging root name staging v.(v_created)
  | _, _, _ => pass
  end ;;
  close_some v.(v_staging) ;;
  close_some v.(v_root) ;;
  each close v.(v_sources) ;;
  close private_key.

Definition prepare_bundle (t : tools) (config : Configuration) : io (pystr * pystr) :=
  lift (validate_configuration config) ;;
  check (bool_decide (t.(t_which) = None)) BundleError "openssl is unavailable" ;;
  private_key ← open_regular config.(private_key) "private key";
  local (Locals [] None None None [])
    (finally (prepare_body t config private_key) (vars (λ v, sys (prepare_finally private_key v)))).

(** [main] after the arguments are parsed: the exit status and the lines
    printed to standard output. *)
Definition main (t : tools) (config : Configuration) : io (Z * list pystr) :=
  catch (catch
    ('(manifest_hash, trust_key_hash) ← prepare_bundle t config;
     mret (0, [("format=rog5-prepared-bundle-v1" : pystr); "bundle=" ++ config.(bundle);
               "profile=" ++ config.(profile); "manifest_sha256=" ++ manifest_hash;
               "trust_key_sha256=" ++ trust_key_hash]))
    (λ c, c == BundleError) (λ _, mret (1, [])))
    is_oserror (λ _, mret (1, [])).

(** ** Publication is one rename
    Everything before the rename leaves the bundle's entry of the bundle root
    alone; everything after it cannot refuse. *)
Section publication.
Context (t : tools) (config : Configuration) (rk : key) (v : option key).
Abbreviation b := config.(bundle).
Context (Hid : bundle_id b) (Hfinal : b ∉ FINAL_INVENTORY).
Abbreviation keeps_entry := (preserves (entry_is rk b v)).

Lemma final_names_ne n : n ∈ FINAL_INVENTORY → n ≠ b.
Proof using All. by intros Hn ->. Qed.
Lemma dot_name_ne n : "." ++ n ≠ b.
Proof using All. intros Hn. destruct Hid as ((c & r & Hb & Hc) & _). rewrite Hb in Hn. injection Hn as <- _. done. Qed.

Lemma keeps_open_regular path label : keeps_entry (open_regular path label).
Proof using All.
  apply preserves_bind; [apply preserves_os_or, keeps_entry_open_existing; set_solver |]. intros d.
  apply preserves_bind; [auto with entries |]. intros m. destruct (_ != _); [| auto with preserves].
  apply preserves_bind; [auto with entries |]. intros. apply preserves_lift.
Qed.
Lemma keeps_private_key d : keeps_entry (validate_private_key t d).
Proof using All.
  unfold validate_private_key, check.
  repeat first [apply preserves_bind; [solve [auto with entries preserves] | intros] | case_match];
    auto with entries preserves.
Qed.
Lemma keeps_inventory d : keeps_entry (directory_inventory d).
Proof using All.
  apply preserves_bind; [apply keeps_entry_open_existing; set_solver |]. intros.
  apply preserves_finally; auto with entries.
Qed.
Lemma keeps_bundle_root path : keeps_entry (open_bundle_root path).
Proof using All.
  unfold open_bundle_root.
  apply preserves_bind; [apply preserves_os_or, keeps_entry_open_existing; set_solver |]. intros d.
  apply preserves_bind; [auto with entries |]. intros m. apply preserves_bind; [auto with entries |]. intros euid.
  destruct (_ || _); [apply preserves_bind; [auto with entries | intros; apply preserves_lift] |].
  apply preserves_bind.
  { apply preserves_catch; [auto with entries |]. intros.
    apply preserves_bind; [auto with entries | intros; apply preserves_lift]. }
  intros _. apply preserves_bind; [apply keeps_inventory |]. intros names. destruct (_ != _); [| apply preserves_mret].
  apply preserves_bind; [auto with entries | intros; apply preserves_lift].
Qed.
Lemma keeps_write_all d p : keeps_entry (write_all d p).
Proof using All.
  apply preserves_while. intros o. unfold write_step. destruct (_ <? _); [| apply preserves_mret].
  apply preserves_bind; [auto with entries |]. intros. apply preserves_bind; [apply preserves_lift |].
  intros. apply preserves_mret.
Qed.
Lemma keeps_copy_body s d n m before : keeps_entry (copy_body s d n m before).
Proof using All.
  unfold copy_body, check. apply preserves_bind.
  { apply preserves_while. intros o. apply preserves_bind; [auto with entries |]. intros block.
    destruct (_ == _); [apply preserves_mret |]. apply preserves_bind; [apply preserves_lift |]. intros _.
    apply preserves_bind; [apply keeps_write_all | intros; apply preserves_mret]. }
  intros o. repeat (apply preserves_bind; [solve [auto with entries preserves] | intros ?]).
  apply preserves_bind.
  { apply preserves_while. intros [hashed seen]. apply preserves_bind; [auto with entries |]. intros block.
    destruct (_ == _); apply preserves_mret. }
  intros [hashed seen]. apply preserves_bind; [apply preserves_lift | intros; apply preserves_mret].
Qed.
Lemma keeps_sign m d : keeps_entry (sign_manifest t m d).
Proof using All.
  unfold sign_manifest, check. apply preserves_bind; [apply preserves_os_or, keeps_entry_memfd |]. intros f.
  apply preserves_bind.
  - apply preserves_finally; [| auto with entries].
    apply preserves_bind; [apply keeps_write_all |]. intros _.
    apply preserves_bind; [auto with entries |]. intros _. apply preserves_bind; auto with entries.
  - intros [code out]. apply preserves_bind; [apply preserves_lift | intros; apply preserves_mret].
Qed.
Lemma keeps_staging_made root n :
  keeps_entry (catch (mkdir root ("." ++ b ++ ".staging-" ++ t_token t n) 448 ;; mret true)
                 (λ c, c == FileExistsError) (λ _, mret false)).
Proof using All.
  apply preserves_catch; [| intros; apply preserves_mret].
  apply preserves_bind; [apply keeps_entry_mkdir, dot_name_ne | intros; apply preserves_mret].
Qed.
Lemma keeps_staging root tries n : keeps_entry (staging_attempts t root b tries n).
Proof using All.
  revert n. induction tries as [|tries IH]; intros n; [apply preserves_lift |]. simpl.
  apply preserves_bind; [apply keeps_staging_made |].
  intros [|]; [| apply IH]. apply preserves_bind; [| intros; apply preserves_mret].
  apply preserves_catch; [apply keeps_entry_open_existing; set_solver |]. intros _.
  apply preserves_bind; [apply preserves_os_or, keeps_entry_rmdir, dot_name_ne | intros; apply preserves_lift].
Qed.
Lemma keeps_cleanup root name staging created :
  name ≠ b → Forall (λ n, n ≠ b) created → keeps_entry (cleanup_staging root name staging created).
Proof using All.
  intros Hn Hc. unfold cleanup_staging.
  apply preserves_bind; [apply preserves_catch; [auto with entries | intros; apply preserves_pass] |]. intros _.
  apply preserves_bind.
  - apply preserves_each. intros n Hin. apply preserves_catch; [| intros; apply preserves_pass].
    apply keeps_entry_unlink. rewrite Forall_forall in Hc. apply Hc. by apply elem_of_reverse.
  - intros _. apply preserves_catch; [by apply keeps_entry_rmdir | intros; apply preserves_pass].
Qed.

(** The staging directory's name starts with a dot. *)
Lemma staging_names root tries n w (Q : res (pystr * Z) → world → Prop) :
  entry_is rk b v w →
  (∀ r w', entry_is rk b v w' → (∀ name d, r = Ok (name, d) → name ≠ b) → Q r w') →
  wp (staging_attempts t root b tries n) Q w.
Proof using All.
  intros Hw HQ. apply HQ; [by apply keeps_staging |]. revert n w Hw. induction tries as [|tries IH]; intros n w Hw name d; [done |].
  simpl. unfold mbind, M_mbind. pose proof (keeps_staging_made root n w Hw) as Hm.
  destruct (catch _ _ _ w) as [[[|]|e] w1]; [| by apply IH, Hm | done].
  destruct (catch _ _ _ w1) as [[d'|e] w2]; [| done]. intros [= <- <-]. apply dot_name_ne.
Qed.

(** The names the cleanup would remove are not the bundle's. *)
Definition tidy (s : locals) : Prop :=
  Forall (λ n, n ≠ b) (v_created s) ∧ (∀ n, v_staging_name s = Some n → n ≠ b).
Definition before_rename (sw : locals * world) : Prop := entry_is rk b v sw.2 ∧ tidy sw.1.
Abbreviation keeps_before := (preserves before_rename).

Lemma before_sys {A} (m : io A) : keeps_entry m → keeps_before (sys m).
Proof using All. intros H [s w] [Hw Hs]. unfold sys. specialize (H w Hw). by destruct (m w). Qed.
Lemma before_assign f : (∀ s, tidy s → tidy (f s)) → keeps_before (assign f).
Proof using All. intros H [s w] [Hw Hs]. split; [done | by apply H]. Qed.
Lemma tidy_push_created n s : n ≠ b → tidy s → tidy (push_created n s).
Proof using All. intros Hn [Hc Hs]. split; [| done]. simpl. apply Forall_app. by repeat constructor. Qed.

Lemma artifact_final a : a ∈ ARTIFACTS → a.1.1 ∈ FINAL_INVENTORY.
Proof using All.
  intros Ha. unfold FINAL_INVENTORY. apply elem_of_union. right. apply elem_of_list_to_set, list_elem_of_fmap.
  by exists a.
Qed.

Lemma before_copy_artifact s d a : a.1.1 ≠ b → keeps_before (copy_artifact push_created s d a).
Proof using All.
  intros Hn. destruct a as [[name lo] hi]. unfold copy_artifact, check.
  apply preserves_bind; [apply before_sys; auto with entries |]. intros m.
  apply preserves_bind; [apply preserves_lift |]. intros _.
  apply preserves_bind; [by apply before_sys, keeps_entry_open |]. intros f.
  apply preserves_bind; [apply before_assign; intros; by apply tidy_push_created |]. intros _.
  apply before_sys, preserves_finally; [apply keeps_copy_body | auto with entries].
Qed.
Lemma before_create_file d n p : n ≠ b → keeps_before (create_file push_created d n p).
Proof using All.
  intros Hn. unfold create_file, check. apply preserves_bind; [by apply before_sys, keeps_entry_open |]. intros f.
  apply preserves_bind; [apply before_assign; intros; by apply tidy_push_created |]. intros _.
  apply before_sys, preserves_finally; [| auto with entries].
  apply preserves_bind; [apply keeps_write_all |]. intros _.
  repeat (apply preserves_bind; [solve [auto with entries preserves] | intros ?]). apply preserves_lift.
Qed.
Lemma before_open_source id p : keeps_before (open_source id p).
Proof using All.
  destruct p as [[[name lo] hi] path]. unfold open_source.
  apply preserves_bind; [apply before_sys, keeps_open_regular |]. intros s.
  apply preserves_bind; [apply before_sys; auto with entries |]. intros m. destruct (_ == _).
  - apply preserves_bind; [apply before_sys; auto with entries | intros; apply preserves_lift].
  - apply before_assign. done.
Qed.

Definition body_post {A} (r : res A) (sw : locals * world) : Prop :=
  before_rename sw ∨
  (v_staging_name sw.1 = None ∧ match r with Ok _ => True | Raise e => is_oserror (exn_cls e) = true end).

(** One more step that keeps the entry. *)
Lemma body_step {A B} (m : proc locals A) (f : A → proc locals B) sw :
  keeps_before m → before_rename sw → (∀ a sw', before_rename sw' → wp (f a) body_post sw') →
  wp (m ≫= f) body_post sw.
Proof using All.
  intros Hm Hsw Hf. apply wp_bind. eapply preserves_wp; [exact Hm | exact Hsw |].
  intros [a|e] sw' H; [by apply Hf | by left].
Qed.

Lemma rename_noreplace_wp root name (s : locals) w (Q : res unit → locals * world → Prop) :
  before_rename (s, w) →
  (∀ e w', before_rename (s, w') → Q (Raise e) (s, w')) →
  (∀ w', Q (Ok ()) (s, w')) →
  wp (sys (rename_noreplace root name b)) Q (s, w).
Proof using All.
  intros [Hw Hs] HR HO. apply wp_sys, wp_os_or. unfold wp. cbn [fst snd] in *.
  destruct (renameat2_noreplace root name b w) as [[[]|e] w'] eqn:E; [by apply HO |].
  apply HR. split; [by eapply rename_failed | done].
Qed.

Lemma fsync_wp d (Q : res unit → world → Prop) w :
  (∀ r w', (∀ e, r = Raise e → is_oserror (exn_cls e) = true) → Q r w') → wp (fsync d) Q w.
Proof using All.
  intros HQ. apply HQ. intros e. unfold fsync, syscall_may. destruct (w_fail _ _); [by intros [= <-] |].
  unfold with_fd. destruct (fd_inode _ _) as [[]|]; [done | by intros [= <-]].
Qed.

Lemma packer_body_wp pk sw : before_rename sw → wp (prepare_body t config pk) body_post sw.
Proof using All.
  intros H. unfold prepare_body, check.
  apply body_step; [apply before_sys; auto with entries | done |]. intros km sw1 H1.
  apply body_step; [apply before_sys, keeps_private_key | done |]. intros pub sw2 H2.
  apply body_step; [apply before_sys; auto with entries | done |]. intros pm sw3 H3.
  apply body_step; [| done |].
  { apply preserves_each. intros. apply before_open_source. }
  intros _ sw4 H4. apply body_step; [apply before_sys, keeps_bundle_root | done |]. intros root sw5 H5.
  apply body_step; [by apply before_assign | done |]. intros _ sw6 H6.
  apply wp_bind. destruct sw6 as [s6 w6]. destruct H6 as [He6 Hs6]. apply wp_sys.
  eapply staging_names; [exact He6 |]. intros [[name staging]|e] w7 He7 Hname; [| by left].
  apply wp_bind, wp_assign.
  assert (before_rename (set_staging (name, staging) s6, w7)) as H7.
  { split; [done |]. split; [by destruct Hs6 |]. intros n [= <-]. by apply (Hname name staging). }
  apply wp_vars. apply body_step; [apply preserves_lift | done |]. intros _ sw8 H8.
  apply body_step; [| done |].
  { apply preserves_fold. intros obs [src a] Hin%elem_of_zip_r. apply preserves_bind; [| intros; apply preserves_mret].
    by apply before_copy_artifact, final_names_ne, artifact_final. }
  intros observed sw9 H9. apply body_step; [apply preserves_lift | done |]. intros manifest sw10 H10.
  apply body_step; [apply before_create_file, final_names_ne; set_solver | done |]. intros _ sw11 H11.
  apply body_step; [apply before_sys, keeps_sign | done |]. intros signature sw12 H12.
  apply body_step; [apply before_sys; auto with entries | done |]. intros after sw13 H13.
  apply body_step; [apply preserves_lift | done |]. intros _ sw14 H14.
  apply body_step; [apply preserves_lift | done |]. intros _ sw15 H15.
  apply body_step; [apply before_create_file, final_names_ne; set_solver | done |]. intros _ sw16 H16.
  apply body_step; [apply before_sys, keeps_inventory | done |]. intros inventory sw17 H17.
  apply body_step; [apply preserves_lift | done |]. intros _ sw18 H18.
  apply body_step; [apply before_sys; auto with entries | done |]. intros _ sw19 H19.
  apply body_step; [apply before_sys; auto with entries | done |]. intros _ [s20 w20] H20.
  apply wp_bind, rename_noreplace_wp; [done | by left |]. intros w21.
  apply wp_bind, wp_assign, wp_bind, wp_sys, fsync_wp. intros [u|e] w22 Hr; right; (split; [done |]); [done |].
  by apply Hr.
Qed.
End publication.

Lemma closes_quietly s d w : v_staging_name s = None → (prepare_finally d s w).1 = Ok ().
Proof.
  intros Hn. unfold prepare_finally. rewrite Hn. unfold mbind, M_mbind, pass, close_some.
  assert (∀ ds w, (each close ds w).1 = Ok ()) as Hc.
  { intros ds. induction ds as [|x ds IH]; intros w'; [done |]. apply IH. }
  destruct (v_staging s), (v_root s); cbn -[each];
    match goal with |- context [each close ?l ?x] => pose proof (Hc l x) as H; destruct (each close l x) as [[]] end; done.
Qed.

(** C23. A refusal publishes nothing.  Whatever other processes do outside
    the bundle's own name and whichever calls fail, if [prepare_bundle] raises
    anything but an operating-system error then the bundle root's entry of
    that name is what it was. *)
Theorem refusal_publishes_nothing t config rk v w :
  config.(bundle) ∉ FINAL_INVENTORY →
  respects rk config.(bundle) w → entry_of rk config.(bundle) (w_fs w) = Some v →
  match prepare_bundle t config w with
  | (Raise e, w') => is_oserror (exn_cls e) = false → entry_of rk config.(bundle) (w_fs w') = Some v
  | (Ok _, _) => validate_configuration config = Ok ()
  end.
Proof.
  intros Hfinal Hr He.
  assert (wp (prepare_bundle t config) (λ r w', match r with
      | Raise e => is_oserror (exn_cls e) = false → entry_is rk config.(bundle) v w'
      | Ok _ => validate_configuration config = Ok () end) w) as H.
  2: { unfold wp in H. destruct (prepare_bundle t config w) as [[?|e] w']; [done |]. intros Ho. by apply H. }
  unfold prepare_bundle. apply wp_bind, wp_lift. destruct (validate_configuration config) as [[]|e] eqn:Ev; [| done].
  pose proof (proj1 (proj1 (validate_configuration_Ok config ∅) Ev)) as Hid.
  apply wp_bind, wp_check; [done |]. intros _.
  apply wp_bind. eapply preserves_wp; [by apply (keeps_open_regular t config rk v) | done |].
  intros [pk|e] w1 H1; [| done]. apply wp_local, wp_finally.
  eapply wp_mono; [apply (packer_body_wp t config rk v Hid Hfinal pk) |].
  { split; [done |]. split; [constructor | done]. }
  intros r [s w2] [[H2 [Hc Hn]]|[Hn Hres]]; cbn [fst snd] in *; apply wp_vars, wp_sys.
  - eapply (preserves_wp (entry_is rk config.(bundle) v)).
    + unfold prepare_finally. apply preserves_bind.
      { destruct (v_staging_name s) as [n|] eqn:En, (v_root s), (v_staging s); try apply preserves_pass.
        apply (keeps_cleanup t config rk v Hid Hfinal); [by apply Hn | done]. }
      intros _. apply preserves_bind; [destruct (v_staging s); [apply keeps_entry_close | apply preserves_pass] |].
      intros _. apply preserves_bind; [destruct (v_root s); [apply keeps_entry_close | apply preserves_pass] |].
      intros _. apply preserves_bind; [apply preserves_each; intros; apply keeps_entry_close |].
      intros _. apply keeps_entry_close.
    + exact H2.
    + intros [[]|e'] w3 H3; [| done]. by destruct r.
  - unfold wp. rewrite (closes_quietly s pk w2 Hn). destruct r as [?|e]; [done |]. cbn [fst snd].
    intros Ho. rewrite (Hres) in Ho. done.
Qed.

(** ** A sample host
    An empty bundle root, a key and three small artifacts; a signer that
    signs, or refuses, any manifest. *)
Definition sample_tools (signs : bool) : tools :=
  Tools (Some ("/usr/bin/openssl" : pystr)) (λ _, 0) (λ _, (0, SPKI_PREFIX ++ replicate 32 "P"%char))
    (λ _ m, (if signs then 0 else 1, take 64 (m ++ replicate 64 "S"%char))) (λ n, str_of_Z (Z.of_nat n)).
Definition sample_file (perm : Z) (data : bytes) : inode := Inode Reg perm 1000 1 0 0 data ∅.
Definition sample_host (fail : nat → bool) : world :=
  World (Fs {[ (1, 1) := Inode Dir 448 1000 2 0 0 [] ∅; (1, 2) := sample_file 384 "key";
               (1, 3) := sample_file 420 (replicate 64 "I"%char); (1, 4) := sample_file 420 (replicate 40 "D"%char);
               (1, 5) := sample_file 420 (replicate 2 "R"%char) ]}
            {[ ("/var/lib/rog5-recovery-bundles" : pystr) := (1, 1); ("/keys/bundle.pem" : pystr) := (1, 2);
               ("/src/Image" : pystr) := (1, 3); ("/src/board.dtb" : pystr) := (1, 4);
               ("/src/initramfs.cpio.gz" : pystr) := (1, 5) ]} ∅ 0)
    ∅ 0 1000 (λ _ f, f) fail (λ _, 4096).
Definition sample_recipe : Configuration := sample_config "persistent-root-ro-v1" "600".

(** The signer refuses: the run is a refusal and nothing is published. *)
Lemma refusal_publishes_nothing_witness :
  (prepare_bundle (sample_tools false) sample_recipe (sample_host (λ _, false))).1
    = Raise (Exn BundleError "Ed25519 manifest signing failed") ∧
  entry_of (1, 1) "arch-a-01"
    (w_fs (prepare_bundle (sample_tools false) sample_recipe (sample_host (λ _, false))).2) = Some None.
Proof.
  assert ((prepare_bundle (sample_tools false) sample_recipe (sample_host (λ _, false))).1
    = Raise (Exn BundleError "Ed25519 manifest signing failed")) as Hr by (vm_compute; reflexivity).
  split; [exact Hr |].
  pose proof (refusal_publishes_nothing (sample_tools false) sample_recipe (1, 1) None (sample_host (λ _, false))) as H.
  destruct (prepare_bundle _ _ _) as [[?|e] w']; [discriminate Hr |]. injection Hr as ->.
  apply H; [| split; reflexivity | vm_compute; reflexivity | reflexivity].
  apply (bool_decide_eq_false_1 _). vm_compute. reflexivity.
Defined.
