(* ===== verification/Registry.v ===== *)
(** * The kernel, DTB and bundle registries

    scripts/host/rog5-bundle-registry.py: the names, the two registries with
    their structural checks, the requirements a DTB inherits along its base
    chain, the changes and the generated document.  A JSON object used as a
    map is an association list in its file order; whether a patch file exists
    under patches/ is a parameter. *)

From stdpp Require Import sorting.
From S2P Require Import Prelude PyStr PyData Regex.

(** ** Names *)
Definition ROLES : list pystr := ["main" : pystr; "safe" : pystr].
Definition STATUSES : list pystr :=
  ["built" : pystr; "ram-trial-pass" : pystr; "ram-trial-fail" : pystr; "installed-main" : pystr;
   "installed-fallback" : pystr; "retired" : pystr; "not-installed" : pystr; "install-failed" : pystr;
   "rejected" : pystr].
Definition HEALTHY : list pystr := ["yes" : pystr; "no" : pystr; "unknown" : pystr; "n/a" : pystr].
Definition SHA : rx := rep 64 0 is_hex.
Definition is_nonzero : ascii → bool := between "1" "9".
Definition number_1_9999 : rx := RSeq (RCls is_nonzero) (rep 0 3 is_digit).
Definition KERNEL : rx := RSeq (lit "k") number_1_9999.
Definition DTB : rx := RSeq (lit "d") number_1_9999.
Definition loader_start (c : ascii) : bool := is_lower c || is_digit c.
Definition loader_char (c : ascii) : bool := is_lower c || is_digit c || one_of "._-" c.
Definition LOADER_NAME : rx := RSeq (RCls loader_start) (rep 0 63 loader_char).
Definition NEW_NAME : rx :=
  RSeq (RAlt (lit "main") (lit "safe")) (RSeq (lit "-k") (RSeq number_1_9999
    (RSeq (lit "-d") (RSeq number_1_9999 (RSeq (lit "-") (RSeq (rep 6 0 is_digit) (RCls is_lower))))))).
Definition FEATURE : rx := plus (λ c, is_lower c || is_digit c).
Definition patch_char (c : ascii) : bool := is_alnum c || one_of "._+-" c.
Definition PATCH_NAME : rx := RSeq (rep 4 0 is_digit) (RSeq (lit "-") (RSeq (plus patch_char) (lit ".patch"))).
Definition symbol_char (c : ascii) : bool := is_upper c || is_digit c || one_of "_" c.
Definition CONFIG_SYMBOL : rx := RSeq (lit "CONFIG_") (plus symbol_char).
Definition MODULE_PATH : rx :=
  RSeq (plus (λ c, is_lower c || is_digit c || one_of "_-" c))
    (RSeq (RStar (RSeq (lit "/") (plus (λ c, is_alnum c || one_of "_.-" c)))) (lit ".ko")).
Definition CONFIG_VALUES : list (pystr * list pystr) :=
  [("y" : pystr, ["y" : pystr]); ("m" : pystr, ["m" : pystr]); ("y|m" : pystr, ["y" : pystr; "m" : pystr])].
Definition FIRST_NEW_DTB : Z := 10.

Definition loader_name_ok (name : pystr) : bool := fullmatch LOADER_NAME name && negb (contains ".." name).

Definition bundle_name (role kernel dtb day letter : pystr) : res pystr :=
  need (is_in role ROLES) "role must be main or safe" ;;
  need (fullmatch KERNEL kernel) "kernel must be kNNN (k1 to k9999)" ;;
  need (fullmatch DTB dtb) "DTB must be dN (d1 to d9999)" ;;
  need (fullmatch (rep 6 0 is_digit) day) "date must be YYMMDD" ;;
  need (fullmatch (RCls is_lower) letter) "letter must be a-z" ;;
  let name := role ++ "-" ++ kernel ++ "-" ++ dtb ++ "-" ++ day ++ letter in
  need (fullmatch NEW_NAME name && loader_name_ok name) ("invalid bundle name " ++ name) ;;
  Ok name.

(** [NEW_NAME.fullmatch(name)], its groups 1 to 3 read back as role, kernel
    and DTB.  The groups hold no [-], so they are the parts of the name. *)
Definition new_name_groups (name : pystr) : option (pystr * pystr * pystr) :=
  if fullmatch NEW_NAME name then
    match split_on "-" name with
    | role :: kernel :: dtb :: _ => Some (role, kernel, dtb)
    | _ => None
    end
  else None.

(** ** Data *)
Record requires := Requires {
  q_patches : list pystr;
  q_config : dict pystr;
  q_modules : list pystr
}.
Record dtb_entry := DtbEntry {
  d_path : pystr;
  d_sha256 : pystr;
  d_features : pystr;
  d_base : option pystr;
  d_requires : option requires;
  d_kernel_requires : option pystr;
  d_notes : option pystr;
  d_created : option pystr
}.
Record kernel_entry := KernelEntry {
  k_build : pystr;
  k_image_sha256 : pystr;
  k_release : pystr;
  k_series : option pystr;
  k_date : option pystr;
  k_changes : option pystr;
  k_source_commit : option pystr;
  k_source_dirty : option bool
}.
Record bundle_entry := BundleEntry {
  b_name : pystr;
  b_role : pystr;
  b_kernel : pystr;
  b_dtb : pystr;
  b_status : pystr;
  b_healthy : pystr;
  b_manifest_sha256 : pystr;
  b_release : pystr;
  b_installed : option pystr;
  b_changes : option pystr;
  b_notes : option pystr;
  b_date : option pystr;
  b_package : option pystr;
  b_source_commit : option pystr
}.
Record registry := Registry {
  r_dtbs_format : option pystr;
  r_root : pystr;
  r_dtbs : dict dtb_entry;
  r_format : option pystr;
  r_bundles : list bundle_entry;
  r_kernels : dict kernel_entry
}.

Definition bundle (reg : registry) (name : pystr) : res bundle_entry :=
  let found := filter (λ e, b_name e = name) reg.(r_bundles) in
  need (len found =? 1) ("unknown bundle " ++ name) ;;
  of_option (head found) IndexError "list index out of range".

Definition dtb (reg : registry) (ident : pystr) : res dtb_entry :=
  need (dmem ident reg.(r_dtbs)) ("unknown DTB " ++ ident ++ " (configs/production/dtbs.json)") ;;
  of_option (dget ident reg.(r_dtbs)) KeyError ident.

(** ** Requirements along the base chain *)
Definition requires_of (e : dtb_entry) : requires := default (Requires [] [] []) e.(d_requires).

Definition merge_config (ident current : pystr) (config : dict pystr) (item : pystr * pystr) : res (dict pystr) :=
  let '(symbol, value) := item in
  need (default value (dget symbol config) == value)
    (ident ++ ": " ++ current ++ " and a derived DTB disagree on " ++ symbol) ;;
  Ok (dset symbol value config).

Fixpoint requirements_loop (fuel : nat) (reg : registry) (ident : pystr) (patches : gset pystr)
    (config : dict pystr) (seen : list pystr) (current : option pystr) : res (gset pystr * dict pystr) :=
  match current with
  | None => Ok (patches, config)
  | Some cur =>
      match fuel with
      | O => Raise (Exn OutOfFuel "")
      | S fuel =>
          need (dmem cur reg.(r_dtbs)) (ident ++ ": unknown base " ++ cur) ;;
          need (negb (is_in cur seen)) (ident ++ ": base cycle through " ++ cur) ;;
          entry ← of_option (dget cur reg.(r_dtbs)) KeyError cur;
          let q := requires_of entry in
          config ← fold_res (merge_config ident cur) config q.(q_config);
          requirements_loop fuel reg ident (list_to_set q.(q_patches) ∪ patches) config (seen ++ [cur]) entry.(d_base)
      end
  end.

Definition item_le (a b : pystr * pystr) : Prop := pystr_le a.1 b.1.
Instance item_le_dec : RelDecision item_le := λ a b, decide (pystr_le a.1 b.1).

Definition requirements (reg : registry) (ident : pystr) : res (list pystr * dict pystr) :=
  '(patches, config) ← requirements_loop (S (length reg.(r_dtbs))) reg ident ∅ [] [] (Some ident);
  Ok (sorted (elements patches), merge_sort item_le config).

Fixpoint required_modules_loop (fuel : nat) (reg : registry) (ident : pystr) (modules : gset pystr)
    (seen : list pystr) (current : option pystr) : res (gset pystr) :=
  match current with
  | None => Ok modules
  | Some cur =>
      match fuel with
      | O => Raise (Exn OutOfFuel "")
      | S fuel =>
          need (negb (is_in cur seen)) (ident ++ ": base cycle through " ++ cur) ;;
          entry ← of_option (dget cur reg.(r_dtbs)) KeyError cur;
          required_modules_loop fuel reg ident (list_to_set (requires_of entry).(q_modules) ∪ modules)
            (seen ++ [cur]) entry.(d_base)
      end
  end.
Definition required_modules (reg : registry) (ident : pystr) : res (list pystr) :=
  modules ← required_modules_loop (S (length reg.(r_dtbs))) reg ident ∅ [] (Some ident);
  Ok (sorted (elements modules)).

(** ** Checks *)
(** [Path(text).parts] after a leading slash. *)
Definition path_parts (text : pystr) : list pystr :=
  filter (λ p, p ≠ [] ∧ p ≠ "." ) (split_on "/" text).
Definition path_name (text : pystr) : pystr := default [] (last (path_parts text)).

Definition distinct (l : list pystr) : bool := bool_decide (NoDup l).

Section validate.
Context (patch_exists : pystr → bool).

Definition validate_dtb (reg : registry) (paths : list pystr) (item : pystr * dtb_entry) : res (list pystr) :=
  let '(ident, entry) := item in
  need (fullmatch DTB ident) ("DTB id " ++ ident) ;;
  need (fullmatch SHA entry.(d_sha256)) (ident ++ " sha256") ;;
  need (negb (startswith entry.(d_path) "/") && negb (is_in ".." (path_parts entry.(d_path)))
        && (path_name entry.(d_path) == "board.dtb"))
    (ident ++ " path must be <dir>/board.dtb under root") ;;
  need (negb (is_in entry.(d_path) paths)) (ident ++ " path registered twice") ;;
  need (forallb (fullmatch FEATURE) (split_on "," entry.(d_features))) (ident ++ " features") ;;
  need (match entry.(d_base) with None => true | Some b => dmem b reg.(r_dtbs) end) (ident ++ " base") ;;
  q ← of_option entry.(d_requires) ValueError (ident ++ " requires must be an object with patches, config and/or modules");
  need (distinct q.(q_modules)
        && forallb (λ m, fullmatch MODULE_PATH m && negb (is_in ".." (split_on "/" m))) q.(q_modules))
    (ident ++ " requires.modules must be distinct kernel/-relative module paths (drivers/.../x.ko)") ;;
  need (distinct q.(q_patches) && forallb (fullmatch PATCH_NAME) q.(q_patches))
    (ident ++ " requires.patches must be distinct patch file names") ;;
  for_each (λ name, need (patch_exists name) (ident ++ " requires an unknown patch " ++ name)) q.(q_patches) ;;
  need (forallb (λ kv, fullmatch CONFIG_SYMBOL kv.1 && dmem kv.2 CONFIG_VALUES) q.(q_config))
    (ident ++ " requires.config must map CONFIG_ symbols to y, m or y|m") ;;
  Ok (paths ++ [entry.(d_path)]).

Definition validate_kernel (item : pystr * kernel_entry) : res unit :=
  let '(ident, entry) := item in
  need (fullmatch KERNEL ident) ("kernel id " ++ ident) ;;
  need (endswith entry.(k_build) ("-build-r" ++ drop 1 ident))
    (ident ++ " build directory must end in -build-r" ++ drop 1 ident) ;;
  need (fullmatch SHA entry.(k_image_sha256)) (ident ++ " image sha256") ;;
  need (fullmatch LOADER_NAME entry.(k_release)) (ident ++ " release").

Definition validate_bundle (reg : registry) (names : list pystr) (entry : bundle_entry) : res (list pystr) :=
  let name := entry.(b_name) in
  need (loader_name_ok name) ("bundle name not accepted by the loader: " ++ name) ;;
  need (negb (is_in name names)) ("bundle listed twice: " ++ name) ;;
  need (is_in entry.(b_role) ROLES) (name ++ " role") ;;
  need (dmem entry.(b_kernel) reg.(r_kernels)) (name ++ " kernel " ++ entry.(b_kernel) ++ " not in kernels") ;;
  need (dmem entry.(b_dtb) reg.(r_dtbs)) (name ++ " DTB " ++ entry.(b_dtb) ++ " not in dtbs.json") ;;
  need (is_in entry.(b_status) STATUSES) (name ++ " status") ;;
  need (is_in entry.(b_healthy) HEALTHY) (name ++ " healthy") ;;
  need (fullmatch SHA entry.(b_manifest_sha256)) (name ++ " manifest sha256") ;;
  kernel ← of_option (dget entry.(b_kernel) reg.(r_kernels)) KeyError entry.(b_kernel);
  need (entry.(b_release) == kernel.(k_release)) (name ++ " release differs from its kernel") ;;
  match new_name_groups name with
  | Some groups => need (groups == (entry.(b_role), entry.(b_kernel), entry.(b_dtb)))
                     (name ++ " does not match its role/kernel/DTB")
  | None => need (startswith name "production-") (name ++ " is neither a scheme name nor a legacy name")
  end ;;
  Ok (names ++ [name]).

Definition count_status (status : pystr) (l : list bundle_entry) : Z := len (filter (λ e, b_status e = status) l).

Definition validate (reg : registry) : res unit :=
  need (reg.(r_dtbs_format) == Some ("rog5-dtb-registry-v1" : pystr)) "dtbs.json format" ;;
  need (reg.(r_format) == Some ("rog5-bundle-registry-v1" : pystr)) "bundles.json format" ;;
  fold_res (validate_dtb reg) [] reg.(r_dtbs) ;;
  for_each (λ item, requirements reg item.1 ;; Ok ()) reg.(r_dtbs) ;;
  for_each validate_kernel reg.(r_kernels) ;;
  fold_res (validate_bundle reg) [] reg.(r_bundles) ;;
  for_each (λ status, need (count_status status reg.(r_bundles) <=? 1) ("more than one bundle is " ++ status))
    ["installed-main" : pystr; "installed-fallback" : pystr].
End validate.

(** ** The kernel a DTB is paired with *)
(** [values]: the [CONFIG_X=v] lines of the build's .config, the last one of
    a symbol counting. *)
Definition config_line (values : gmap pystr pystr) (line : pystr) : gmap pystr pystr :=
  let '(symbol, separator, value) := partition "=" line in
  if separator && fullmatch CONFIG_SYMBOL symbol then <[symbol := value]> values else values.
Definition config_values (text : pystr) : gmap pystr pystr := foldl config_line ∅ (splitlines text).

Definition config_wrong (values : gmap pystr pystr) (item : pystr * pystr) : bool :=
  let '(symbol, value) := item in
  match values !! symbol with
  | Some v => negb (is_in v (default [] (dget value CONFIG_VALUES)))
  | None => true
  end.

(** [applied] are the patch names of the build's production series. *)
Definition check_kernel (reg : registry) (ident kernel : pystr) (applied : list pystr) (config_text : option pystr)
    : res (list pystr * dict pystr) :=
  '(patches, config) ← requirements reg ident;
  need (negb (bool_decide (applied = [])) || bool_decide (patches = []))
    (kernel ++ ": result.json records no production series") ;;
  let missing := filter (λ name, name ∉ applied) patches in
  need (missing == []) (ident ++ " needs kernel patches " ++ kernel ++ " does not carry: " ++ join ", " missing) ;;
  (if config == [] then Ok ()
   else
     text ← of_option config_text ValueError (ident ++ " needs .config symbols but the " ++ kernel ++ " build has no .config");
     let values := config_values text in
     let wrong := filter (λ item, config_wrong values item = true) config in
     need (wrong == [])
       (ident ++ " needs kernel config " ++ kernel ++ " does not have: " ++
        join ", " (map (λ '(symbol, value), symbol ++ "=" ++ value ++ " (has " ++ default ("unset" : pystr) (values !! symbol) ++ ")") wrong))) ;;
  Ok (patches, config).

(** ** Identifiers and texts *)
Definition dtb_number (ident : pystr) : Z := int10 (drop 1 ident).
Definition next_dtb_id (reg : registry) : pystr :=
  "d" ++ str_of_Z (foldl Z.max (FIRST_NEW_DTB - 1) (map dtb_number reg.(r_dtbs).*1) + 1).

Definition or_none (o : option pystr) : pystr := match o with Some ((_ :: _) as b) => b | _ => "none" end.
Definition features_text (ident : pystr) (entry : dtb_entry) : pystr :=
  "id=" ++ ident ++ LF :: "sha256=" ++ entry.(d_sha256) ++ LF :: "features=" ++ entry.(d_features)
  ++ LF :: "base=" ++ or_none entry.(d_base) ++ [LF].

(** ** Changes *)
Record set_args := SetArgs {
  a_status : option pystr;
  a_healthy : option pystr;
  a_installed : option pystr;
  a_changes : option pystr;
  a_notes : option pystr
}.

Definition with_status (s : pystr) (e : bundle_entry) : bundle_entry :=
  BundleEntry e.(b_name) e.(b_role) e.(b_kernel) e.(b_dtb) s e.(b_healthy) e.(b_manifest_sha256) e.(b_release)
    e.(b_installed) e.(b_changes) e.(b_notes) e.(b_date) e.(b_package) e.(b_source_commit).
Definition keep (o d : option pystr) : option pystr := match o with Some x => Some x | None => d end.
Definition apply_set (a : set_args) (e : bundle_entry) : bundle_entry :=
  BundleEntry e.(b_name) e.(b_role) e.(b_kernel) e.(b_dtb) (default e.(b_status) a.(a_status))
    (default e.(b_healthy) a.(a_healthy)) e.(b_manifest_sha256) e.(b_release)
    (keep a.(a_installed) e.(b_installed)) (keep a.(a_changes) e.(b_changes)) (keep a.(a_notes) e.(b_notes))
    e.(b_date) e.(b_package) e.(b_source_commit).

Definition with_bundles (l : list bundle_entry) (reg : registry) : registry :=
  Registry reg.(r_dtbs_format) reg.(r_root) reg.(r_dtbs) reg.(r_format) l reg.(r_kernels).
Definition with_dtbs (l : dict dtb_entry) (reg : registry) : registry :=
  Registry reg.(r_dtbs_format) reg.(r_root) l reg.(r_format) reg.(r_bundles) reg.(r_kernels).
Definition with_kernels (l : dict kernel_entry) (reg : registry) : registry :=
  Registry reg.(r_dtbs_format) reg.(r_root) reg.(r_dtbs) reg.(r_format) reg.(r_bundles) l.

Definition is_installed (status : pystr) : bool := (status == "installed-main") || (status == "installed-fallback").
(** What [set] does to a bundle that is not the named one. *)
Definition retire_other (a : set_args) (e : bundle_entry) : bundle_entry :=
  match a.(a_status) with
  | Some s => if is_installed s && (e.(b_status) == s) then with_status "retired" e else e
  | None => e
  end.
(** [registry.bundle(name)] finds exactly one entry, so "the entry" and "the
    others" are told apart by name. *)
Definition change_set (reg : registry) (name : pystr) (a : set_args) : res registry :=
  bundle reg name ;;
  Ok (with_bundles (map (λ e, if b_name e == name then apply_set a e else retire_other a e) reg.(r_bundles)) reg).

Definition with_changes (t : pystr) (k : kernel_entry) : kernel_entry :=
  KernelEntry k.(k_build) k.(k_image_sha256) k.(k_release) k.(k_series) k.(k_date) (Some t) k.(k_source_commit) k.(k_source_dirty).
Definition with_notes (t : pystr) (d : dtb_entry) : dtb_entry :=
  DtbEntry d.(d_path) d.(d_sha256) d.(d_features) d.(d_base) d.(d_requires) d.(d_kernel_requires) (Some t) d.(d_created).
Definition update {V} (k : pystr) (f : V → V) (d : dict V) : dict V :=
  map (λ '(k', v), (k', if k' == k then f v else v)) d.

Definition change_describe (reg : registry) (ident text : pystr) : res registry :=
  if fullmatch KERNEL ident then
    need (dmem ident reg.(r_kernels)) ("unknown kernel " ++ ident) ;;
    Ok (with_kernels (update ident (with_changes text) reg.(r_kernels)) reg)
  else
    dtb reg ident ;;
    Ok (with_dtbs (update ident (with_notes text) reg.(r_dtbs)) reg).

(** [requires_argument]: the three repeatable options. *)
Definition config_item (config : dict pystr) (item : pystr) : res (dict pystr) :=
  let '(symbol, _, value) := partition "=" item in
  need (negb (dmem symbol config)) ("config symbol given twice: " ++ symbol) ;;
  Ok (dset symbol value config).
Definition requires_argument (require_patch require_config require_module : list pystr) : res requires :=
  config ← fold_res config_item [] require_config;
  Ok (Requires require_patch config require_module).

(** [add-dtb] once the file is resolved below the registry root: [relative]
    and [digest] are its path there and its hash; [today] is the date. *)
Definition change_add_dtb (patch_exists : pystr → bool) (reg : registry) (today relative digest features : pystr)
    (base : option pystr) (kernel_requires notes : pystr) (require_patch require_config require_module : list pystr) : res registry :=
  for_each (λ '(ident, entry), need (negb (d_path entry == relative) && negb (d_sha256 entry == digest))
                                    ("already registered as " ++ ident)) reg.(r_dtbs) ;;
  need (match base with None => true | Some b => dmem b reg.(r_dtbs) end) ("unknown base " ++ default [] base) ;;
  let ident := next_dtb_id reg in
  q ← requires_argument require_patch require_config require_module;
  let reg := with_dtbs (dset ident (DtbEntry relative digest features base (Some q) (Some kernel_requires) (Some notes) (Some today))
                          reg.(r_dtbs)) reg in
  validate patch_exists reg ;;
  Ok reg.

(** ** The generated document *)
Definition replace_char (c : ascii) (w : pystr) (s : pystr) : pystr :=
  concat (map (λ d, if d == c then w else [d]) s).
Definition cell (value : option pystr) : pystr :=
  replace_char LF " " (replace_char "|" "\|" (default [] value)).

(** Consecutive numbers joined into runs; [runs] is kept last run first. *)
Definition add_run (runs : list (Z * Z)) (number : Z) : list (Z * Z) :=
  match runs with
  | (a, b) :: rest => if number =? b + 1 then (a, number) :: rest else (number, number) :: runs
  | [] => [(number, number)]
  end.
Definition number_runs (numbers : list Z) : list (Z * Z) := reverse (foldl add_run [] numbers).
Definition pad4 (n : Z) : pystr := let s := str_of_Z n in replicate (4 - length s) "0"%char ++ s.
Definition run_text (r : Z * Z) : pystr :=
  let '(a, b) := r in if a =? b then pad4 a else pad4 a ++ "-" ++ pad4 b.

Definition needs_text (reg : registry) (ident : pystr) : res pystr :=
  '(patches, config) ← requirements reg ident;
  modules ← required_modules reg ident;
  entry ← of_option (dget ident reg.(r_dtbs)) KeyError ident;
  let numbers := merge_sort Z.le (map (λ name, int10 (take 4 name)) patches) in
  let enforced := join ", " (map run_text (number_runs numbers)
    ++ map (λ '(k, v), k ++ "=" ++ v) config ++ map path_name modules) in
  let text := default [] entry.(d_kernel_requires) in
  Ok (if enforced == [] then text
      else if text == [] then enforced else enforced ++ " (" ++ text ++ ")").

Definition quoted (s : pystr) : pystr := "`" ++ s ++ "`".
Definition row (cells : list (option pystr)) : pystr := "| " ++ join " | " (map cell cells) ++ " |".
Definition first_name (status : pystr) (reg : registry) : pystr :=
  match filter (λ e, b_status e = status) reg.(r_bundles) with e :: _ => b_name e | [] => "none recorded" end.

Definition bundle_row (b : bundle_entry) : pystr :=
  row [Some (quoted b.(b_name)); Some b.(b_role); Some b.(b_kernel); Some b.(b_dtb); Some b.(b_status);
       Some b.(b_healthy); Some (default [] b.(b_installed)); b.(b_changes); b.(b_notes)].
Definition kernel_row (item : pystr * kernel_entry) : pystr :=
  let '(ident, k) := item in
  row [Some ident; Some (quoted k.(k_build)); Some (quoted k.(k_release)); k.(k_series); k.(k_date); k.(k_changes)].
Definition dtb_row (reg : registry) (item : pystr * dtb_entry) : res pystr :=
  let '(ident, d) := item in
  needs ← needs_text reg ident;
  Ok (row [Some ident; Some (quoted d.(d_path)); Some (quoted (take 8 d.(d_sha256)));
           Some (default [] d.(d_base)); Some (replace_char "," ", " d.(d_features)); Some needs; d.(d_notes)]).

Definition newer {V} (a b : pystr * V) : Prop := dtb_number b.1 ≤ dtb_number a.1.
Instance newer_dec {V} : RelDecision (@newer V) := λ a b, decide (dtb_number b.1 ≤ dtb_number a.1).

Fixpoint map_res {A B} (f : A → res B) (l : list A) : res (list B) :=
  match l with [] => Ok [] | x :: l => y ← f x; ys ← map_res f l; Ok (y :: ys) end.

Definition DQUOTE : ascii := chr 34.
Definition render_head : list pystr :=
  ["# Bundles, kernels and DTBs" : pystr; [];
   "<!-- Generated by scripts/host/rog5-bundle-registry.py from configs/production/bundles.json" : pystr;
   "     and configs/production/dtbs.json. Edit those files (or use the tools), then render. -->" : pystr; [];
   "Naming: kernel builds are `kNNN` (build directory `rog5-kernel-<base>-build-rNNN`), DTBs are" : pystr;
   "`dN` (`configs/production/dtbs.json`) and bundles are `<role>-k<kernel>-d<dtb>-<YYMMDD><letter>`" : pystr;
   "with role `main` (the try-once default, built with a trial descriptor) or `safe` (the" : pystr;
   "fallback, no descriptor). From k111 on `uname -r` is `<base>-rog5-kNNN`; k110 and older" : pystr;
   "report `7.2.7-rog5-production`. Bundles made before the scheme keep their names." : pystr;
   "Build one with `scripts/host/rog5-make-bundle.py --role main|safe --kernel kNNN --dtb dN`" : pystr;
   "(see " ++ DQUOTE :: "Bundle names and the bundle tool" ++ DQUOTE :: " in [development.md](development.md))."; []].

Definition document_lines (reg : registry) (dtb_rows : list pystr) : list pystr :=
  render_head
    ++ ["Installed: default `" ++ first_name "installed-main" reg ++ "`, fallback `"
        ++ first_name "installed-fallback" reg ++ "`."; []; "## Bundles" : pystr; [];
        "| Bundle | Role | Kernel | DTB | Status | Healthy | Installed | Key changes | Notes |" : pystr;
        "|---|---|---|---|---|---|---|---|---|" : pystr]
    ++ map bundle_row (reverse reg.(r_bundles))
    ++ [[]; "## Kernel builds" : pystr; [];
        "| Kernel | Build directory | uname -r | Series | Date | Changes |" : pystr; "|---|---|---|---|---|---|" : pystr]
    ++ map kernel_row (merge_sort newer reg.(r_kernels))
    ++ [[]; "## DTBs" : pystr; [];
        "Paths are under `" ++ reg.(r_root) ++ "`; each directory holds `board.dtb` and `features`."; [];
        "| DTB | Path | SHA-256 | Base | Features | Needs | Notes |" : pystr; "|---|---|---|---|---|---|---|" : pystr]
    ++ dtb_rows.
Definition render_lines (reg : registry) : res (list pystr) :=
  dtb_rows ← map_res (dtb_row reg) (merge_sort newer reg.(r_dtbs));
  Ok (document_lines reg dtb_rows).
Definition render (reg : registry) : res pystr :=
  lines ← render_lines reg; Ok (join [LF] lines ++ [LF]).

(** ** The base chain *)
Inductive base_chain (reg : registry) : option pystr → list pystr → Prop :=
  | chain_end : base_chain reg None []
  | chain_step cur entry l : dget cur reg.(r_dtbs) = Some entry → base_chain reg entry.(d_base) l →
      base_chain reg (Some cur) (cur :: l).

Lemma base_chain_unique reg o l1 l2 : base_chain reg o l1 → base_chain reg o l2 → l1 = l2.
Proof.
  intros H. revert l2. induction H as [|cur entry l He H IH]; intros l2 H2; inversion H2; subst; [done |].
  f_equal. apply IH. congruence.
Qed.

Lemma base_chain_suffix reg o l i : base_chain reg o l → i ∈ l → ∃ l1 l2, l = l1 ++ l2 ∧ base_chain reg (Some i) l2 ∧ l2 ≠ [].
Proof.
  induction 1 as [|cur entry l He H IH]; [by intros ?%elem_of_nil |].
  rewrite elem_of_cons. intros [->|Hin].
  - exists [], (cur :: l). split_and!; [done | by econstructor | done].
  - destruct (IH Hin) as (l1 & l2 & -> & ? & ?). by exists (cur :: l1), l2.
Qed.

(** A finite chain visits no DTB twice. *)
Lemma base_chain_NoDup reg o l : base_chain reg o l → NoDup l.
Proof.
  induction 1 as [|cur entry l He H IH]; constructor; [| done].
  intros Hin. destruct (base_chain_suffix reg _ l cur H Hin) as (l1 & l2 & Hl & Hc & Hne).
  assert (cur :: l = l2) as Heq by (eapply base_chain_unique; [by econstructor | done]).
  apply (f_equal length) in Hl, Heq. rewrite length_app in Hl. simpl in Heq. lia.
Qed.

Lemma base_chain_keys reg o l : base_chain reg o l → l ⊆ reg.(r_dtbs).*1.
Proof.
  induction 1 as [|cur entry l He H IH]; [set_solver |]. intros i. rewrite elem_of_cons.
  intros [->|?]; [apply dget_mem; eauto | by apply IH].
Qed.

(** ** Merging inherited configuration *)
Definition agree (items : dict pystr) : Prop := ∀ s v1 v2, (s, v1) ∈ items → (s, v2) ∈ items → v1 = v2.
Definition dset_all (cfg items : dict pystr) : dict pystr := foldl (λ d kv, dset kv.1 kv.2 d) cfg items.

Lemma fold_merge ident cur cfg items cfg' :
  agree cfg →
  fold_res (merge_config ident cur) cfg items = Ok cfg' ↔ agree (cfg ++ items) ∧ cfg' = dset_all cfg items.
Proof.
  revert cfg. induction items as [|[s v] items IH]; intros cfg Ha; simpl.
  { rewrite app_nil_r. split; [by intros [= ->] | by intros [_ ->]]. }
  rewrite bind_Ok. destruct (dget s cfg) as [v0|] eqn:E; simpl.
  - destruct (decide (v0 = v)) as [->|Hne].
    + rewrite bool_decide_true by done. simpl. rewrite (dset_same _ _ _ E).
      assert (agree (cfg ++ (s, v) :: items) ↔ agree (cfg ++ items)) as ->.
      { apply dget_elem in E. unfold agree. split; intros H s' v1 v2 H1 H2; apply (H s'); set_solver. }
      rewrite <-IH by done. split; [intros (? & [= <-] & ?); done | eauto].
    + rewrite bool_decide_false by done. split; [intros (? & [=] & _) |]. intros [H _]. destruct Hne.
      apply dget_elem in E. apply (H s); set_solver.
  - rewrite bool_decide_true by done. simpl. rewrite (dset_new _ _ _ E).
    assert (agree (cfg ++ [(s, v)])) as Ha'.
    { intros s' v1 v2. rewrite !elem_of_app, !list_elem_of_singleton. intros [H1|H1] [H2|H2]; simplify_eq; try done.
      - by eapply Ha.
      - exfalso. apply list_elem_of_fmap_2 with (f := fst) in H1. simpl in H1. apply dget_mem in H1 as [? ?]. congruence.
      - exfalso. apply list_elem_of_fmap_2 with (f := fst) in H2. simpl in H2. apply dget_mem in H2 as [? ?]. congruence. }
    split.
    + intros (c & [= <-] & H). apply IH in H; [| done]. by rewrite <-app_assoc in H.
    + intros H. eexists. split; [done |]. apply IH; [done |]. by rewrite <-app_assoc.
Qed.

Lemma dset_all_elem cfg items x : agree (cfg ++ items) → x ∈ dset_all cfg items ↔ x ∈ cfg ++ items.
Proof.
  revert cfg. induction items as [|[s v] items IH]; intros cfg Ha; simpl; [by rewrite app_nil_r |].
  assert (agree cfg) as Hc by (intros s' v1 v2 H1 H2; apply (Ha s'); set_solver).
  destruct (dget s cfg) as [v0|] eqn:E.
  - assert ((s, v0) ∈ cfg) as Hin by (by apply dget_elem).
    assert (v0 = v) as -> by (apply (Ha s); set_solver). rewrite (dset_same _ _ _ E), IH; [set_solver |].
    intros s' v1 v2 H1 H2. apply (Ha s'); set_solver.
  - rewrite (dset_new _ _ _ E), IH, <-app_assoc; [done |]. by rewrite <-app_assoc.
Qed.

Lemma agree_dset_all cfg items : agree (cfg ++ items) → agree (dset_all cfg items).
Proof.
  intros Ha s v1 v2. rewrite !dset_all_elem by done. apply Ha.
Qed.

Definition entry_config (reg : registry) (i : pystr) : dict pystr :=
  match dget i reg.(r_dtbs) with Some e => (requires_of e).(q_config) | None => [] end.
Definition entry_patches (reg : registry) (i : pystr) : list pystr :=
  match dget i reg.(r_dtbs) with Some e => (requires_of e).(q_patches) | None => [] end.
Definition chain_config (reg : registry) (l : list pystr) : dict pystr := concat (map (entry_config reg) l).
Definition chain_patches (reg : registry) (l : list pystr) : list pystr := concat (map (entry_patches reg) l).

Lemma requirements_loop_Ok fuel reg ident ps cfg seen cur ps' cfg' :
  agree cfg →
  requirements_loop fuel reg ident ps cfg seen cur = Ok (ps', cfg') →
  ∃ l, base_chain reg cur l ∧ agree (cfg ++ chain_config reg l) ∧
    ps' = list_to_set (chain_patches reg l) ∪ ps ∧ cfg' = dset_all cfg (chain_config reg l).
Proof.
  revert ps cfg seen cur. induction fuel as [|fuel IH]; intros ps cfg seen [cur|] Ha H; simpl in H; try done.
  1,3: injection H as <- <-; exists []; (split_and!; [constructor | by rewrite app_nil_r | set_solver | done]).
  guard_inv H as Hm. guard_inv H as Hs. bind_inv H as entry He. bind_inv H as cfg1 Hc.
  apply of_option_Ok in He. apply fold_merge in Hc as [Ha1 ->]; [| done].
  apply IH in H as (l & Hl & Ha2 & -> & ->); [| by apply agree_dset_all].
  exists (cur :: l).
  assert (entry_config reg cur = q_config (requires_of entry)) as Hec by (unfold entry_config; by rewrite He).
  assert (entry_patches reg cur = q_patches (requires_of entry)) as Hep by (unfold entry_patches; by rewrite He).
  unfold chain_config, chain_patches in *. cbn [map concat]. rewrite Hec, Hep. split_and!.
  - by econstructor.
  - intros s v1 v2 H1 H2. rewrite app_assoc, elem_of_app in H1, H2.
    apply (Ha2 s); rewrite elem_of_app, dset_all_elem by done; tauto.
  - rewrite list_to_set_app_L. set_solver.
  - unfold dset_all. by rewrite foldl_app.
Qed.

Lemma requirements_loop_chain fuel reg ident ps cfg seen cur l :
  base_chain reg cur l → agree cfg → agree (cfg ++ chain_config reg l) → (∀ i, i ∈ l → i ∉ seen) →
  (length l ≤ fuel)%nat →
  requirements_loop fuel reg ident ps cfg seen cur
  = Ok (list_to_set (chain_patches reg l) ∪ ps, dset_all cfg (chain_config reg l)).
Proof.
  intros Hl. revert fuel ps cfg seen. induction Hl as [|cur entry l He Hl IH]; intros fuel ps cfg seen Hac Ha Hs Hf.
  { destruct fuel; simpl; do 2 f_equal; set_solver. }
  destruct fuel as [|fuel]; [simpl in Hf; lia |]. cbn [requirements_loop].
  assert (dmem cur (r_dtbs reg) = true) as -> by (apply dmem_spec, dget_mem; eauto). cbn [need mbind res_mbind res_bind].
  assert (is_in cur seen = false) as ->.
  { apply not_true_iff_false. rewrite is_in_elem. apply Hs. by left. }
  cbn [negb need mbind res_mbind res_bind]. rewrite He. cbn [of_option mbind res_mbind res_bind].
  assert (entry_config reg cur = q_config (requires_of entry)) as Hec by (unfold entry_config; by rewrite He).
  assert (entry_patches reg cur = q_patches (requires_of entry)) as Hep by (unfold entry_patches; by rewrite He).
  unfold chain_config, chain_patches in *. cbn [map concat] in Ha |- *. rewrite Hec in Ha |- *. rewrite Hep.
  assert (agree (cfg ++ q_config (requires_of entry))) as Ha1.
  { intros s v1 v2 H1 H2. apply (Ha s); set_solver. }
  rewrite (proj2 (fold_merge ident cur cfg _ _ Hac)) by (split; [exact Ha1 | reflexivity]). cbn [mbind res_mbind res_bind].
  rewrite IH.
  - rewrite list_to_set_app_L. unfold dset_all. rewrite foldl_app. do 2 f_equal. set_solver.
  - by apply agree_dset_all.
  - intros s v1 v2. rewrite !elem_of_app, !dset_all_elem by done. rewrite <-!elem_of_app, <-!app_assoc. apply Ha.
  - intros i Hi. rewrite elem_of_app, list_elem_of_singleton.
    pose proof (base_chain_NoDup reg (Some cur) (cur :: l) (chain_step _ _ _ _ He Hl)) as Hnd.
    apply NoDup_cons in Hnd as [Hn _]. intros [Hin| ->]; [| done]. apply (Hs i); [by right | done].
  - simpl in Hf. lia.
Qed.

(** The loop's bound is never met: the chain is followed through distinct
    DTBs only. *)
Lemma requirements_loop_fuel fuel reg ident ps cfg seen cur :
  NoDup seen → seen ⊆ reg.(r_dtbs).*1 → (length reg.(r_dtbs) < fuel + length seen)%nat →
  ∀ msg, requirements_loop fuel reg ident ps cfg seen cur ≠ Raise (Exn OutOfFuel msg).
Proof.
  revert ps cfg seen cur. induction fuel as [|fuel IH]; intros ps cfg seen [cur|] Hnd Hk Hf msg; try done.
  - intros _. pose proof (NoDup_submseteq seen (r_dtbs reg).*1 Hnd Hk) as Hl%submseteq_length.
    rewrite length_fmap in Hl. lia.
  - cbn [requirements_loop]. unfold need at 1. destruct (dmem cur _) eqn:Em; [| done]. cbn [mbind res_mbind res_bind].
    unfold need at 1. destruct (is_in cur seen) eqn:Es; [done |]. cbn [negb mbind res_mbind res_bind].
    destruct (dget cur _) as [entry|]; [| done]. cbn [of_option mbind res_mbind res_bind].
    destruct (fold_res _ _ _) as [cfg1|e] eqn:Ec.
    + apply IH.
      * apply NoDup_app. split_and!; [done | | apply NoDup_singleton]. intros i Hi ->%list_elem_of_singleton.
        apply is_in_elem in Hi. congruence.
      * intros i. rewrite elem_of_app, list_elem_of_singleton. intros [?| ->]; [by apply Hk | by apply dmem_spec].
      * rewrite length_app. simpl. lia.
    + cbn [mbind res_mbind res_bind]. intros [= ->]. clear -Ec. revert Ec. generalize (q_config (requires_of entry)).
      intros items. revert cfg. induction items as [|[s v] items IH]; intros cfg; [done |]. simpl.
      unfold need. destruct (_ == _); [apply IH | done].
Qed.

Lemma requirements_Ok reg ident ps cfg :
  requirements reg ident = Ok (ps, cfg) ↔
  ∃ l, base_chain reg (Some ident) l ∧ agree (chain_config reg l) ∧
    ps = sorted (elements (list_to_set (chain_patches reg l) : gset pystr)) ∧
    cfg = merge_sort item_le (dset_all [] (chain_config reg l)).
Proof.
  unfold requirements. split.
  - intros H. bind_inv H as [ps1 cfg1] Hl. injection H as <- <-.
    apply requirements_loop_Ok in Hl as (l & ? & ? & -> & ->); [| by intros ? ? ? ?%elem_of_nil].
    exists l. rewrite (right_id_L ∅ (∪)). done.
  - intros (l & Hl & Ha & -> & ->). rewrite (requirements_loop_chain _ _ _ _ _ _ _ l); [| done | | done | | ].
    + cbn [mbind res_mbind res_bind]. by rewrite (right_id_L ∅ (∪)).
    + by intros ? ? ? ?%elem_of_nil.
    + set_solver.
    + pose proof (NoDup_submseteq l (r_dtbs reg).*1 (base_chain_NoDup _ _ _ Hl) (base_chain_keys _ _ _ Hl)) as Hle%submseteq_length.
      rewrite length_fmap in Hle. lia.
Qed.

(** ** What a valid bundle list is *)
Definition bundle_ok (reg : registry) (e : bundle_entry) : Prop :=
  loader_name_ok (b_name e) = true ∧ b_role e ∈ ROLES ∧ b_dtb e ∈ reg.(r_dtbs).*1 ∧
  b_status e ∈ STATUSES ∧ b_healthy e ∈ HEALTHY ∧ fullmatch SHA (b_manifest_sha256 e) = true ∧
  (∃ k, dget (b_kernel e) reg.(r_kernels) = Some k ∧ b_release e = k_release k) ∧
  match new_name_groups (b_name e) with
  | Some groups => groups = (b_role e, b_kernel e, b_dtb e)
  | None => startswith (b_name e) "production-" = true
  end.

Lemma validate_bundle_Ok reg names e names' :
  validate_bundle reg names e = Ok names' ↔ bundle_ok reg e ∧ (b_name e ∉ names) ∧ names' = names ++ [b_name e].
Proof.
  unfold validate_bundle, bundle_ok. split.
  - intros H. guard_inv H as H1. guard_inv H as H2. guard_inv H as H3. guard_inv H as H4. guard_inv H as H5.
    guard_inv H as H6. guard_inv H as H7. guard_inv H as H8. bind_inv H as k Hk. guard_inv H as H9.
    guard_inv H as H10. injection H as <-. apply of_option_Ok in Hk.
    apply negb_true_iff in H2. apply not_true_iff_false in H2. rewrite is_in_elem in H2.
    rewrite is_in_elem in H3, H6, H7. rewrite dmem_spec in H5. apply bool_decide_eq_true in H9.
    split_and!; [done | done | done | done | done | done | by exists k | | done | done].
    destruct (new_name_groups _); [| by apply need_Ok in H10].
    apply need_Ok, bool_decide_eq_true in H10. done.
  - intros ((H1 & H3 & H5 & H6 & H7 & H8 & (k & Hk & H9) & H10) & H2 & ->).
    rewrite need_pass by done. rewrite need_pass.
    2: { apply negb_true_iff, not_true_iff_false. by rewrite is_in_elem. }
    rewrite need_pass by by apply is_in_elem. rewrite need_pass by (apply dmem_spec, dget_mem; eauto).
    rewrite need_pass by by apply dmem_spec. rewrite need_pass by by apply is_in_elem.
    rewrite need_pass by by apply is_in_elem. rewrite need_pass by done. rewrite Hk.
    cbn [of_option mbind res_mbind res_bind]. rewrite need_pass by by apply bool_decide_eq_true.
    destruct (new_name_groups _); rewrite need_pass; [done | by apply bool_decide_eq_true | done | done].
Qed.

Lemma validate_bundles_Ok reg l names names' :
  fold_res (validate_bundle reg) names l = Ok names' ↔
  Forall (bundle_ok reg) l ∧ NoDup (map b_name l) ∧ (∀ e, e ∈ l → b_name e ∉ names) ∧ names' = names ++ map b_name l.
Proof.
  revert names. induction l as [|e l IH]; intros names; simpl.
  { rewrite app_nil_r. split; [intros [= ->]; split_and!; [constructor | constructor | set_solver | done] | by intros (_ & _ & _ & ->)]. }
  rewrite bind_Ok. setoid_rewrite validate_bundle_Ok. setoid_rewrite IH.
  rewrite Forall_cons, NoDup_cons. split.
  - intros (n & (He & Hn & ->) & Hl & Hnd & Hd & ->). rewrite <-app_assoc. split_and!; try done.
    + intros Hin. apply list_elem_of_fmap in Hin as (e' & Heq & Hin). apply (Hd e' Hin). rewrite <-Heq. set_solver.
    + intros e'. rewrite elem_of_cons. intros [->|Hin]; [done |]. intros Hn'. apply (Hd e' Hin). set_solver.
  - intros ((He & Hl) & (Hn & Hnd) & Hd & ->). exists (names ++ [b_name e]). split_and!; try done.
    + apply Hd. by left.
    + intros e' Hin. rewrite elem_of_app, list_elem_of_singleton. intros [Hn'|Heq].
      * apply (Hd e'); [by right | done].
      * apply Hn. rewrite <-Heq. apply list_elem_of_fmap. by exists e'.
    + by rewrite <-app_assoc.
Qed.

(** The part of a registry's validity that the bundle list does not touch. *)
Definition tables_ok (patch_exists : pystr → bool) (reg : registry) : Prop :=
  r_dtbs_format reg = Some ("rog5-dtb-registry-v1" : pystr) ∧ r_format reg = Some ("rog5-bundle-registry-v1" : pystr) ∧
  (∃ paths, fold_res (validate_dtb patch_exists reg) [] reg.(r_dtbs) = Ok paths) ∧
  Forall (λ item, is_ok (requirements reg item.1) = true) reg.(r_dtbs) ∧
  Forall (λ item, validate_kernel item = Ok ()) reg.(r_kernels).
Definition bundles_ok (reg : registry) : Prop :=
  Forall (bundle_ok reg) reg.(r_bundles) ∧ NoDup (map b_name reg.(r_bundles)) ∧
  ∀ s, is_installed s = true → count_status s reg.(r_bundles) ≤ 1.

Lemma validate_Ok patch_exists reg :
  validate patch_exists reg = Ok () ↔ tables_ok patch_exists reg ∧ bundles_ok reg.
Proof.
  unfold validate, tables_ok, bundles_ok. split.
  - intros H. guard_inv H as H1%bool_decide_eq_true. guard_inv H as H2%bool_decide_eq_true.
    bind_inv H as paths H3. bind_inv H as [] H4. bind_inv H as [] H5. bind_inv H as names H6.
    apply for_each_Ok in H, H4, H5. apply validate_bundles_Ok in H6 as (H6 & H7 & _ & _).
    split_and!; [done | done | by exists paths | | done | done | done |].
    + eapply Forall_impl; [exact H4 |]. intros item Hi. bind_inv Hi as r Hr. by rewrite Hr.
    + intros s Hs. rewrite !Forall_cons in H. destruct H as (Ha & Hb & _).
      apply need_Ok in Ha, Hb. unfold is_installed in Hs. apply orb_true_iff in Hs.
      rewrite !bool_decide_eq_true in Hs. destruct Hs as [-> | ->]; lia.
  - intros ((H1 & H2 & (paths & H3) & H4 & H5) & H6 & H7 & H8).
    rewrite need_pass by by apply bool_decide_eq_true. rewrite need_pass by by apply bool_decide_eq_true.
    rewrite H3. cbn [mbind res_mbind res_bind].
    rewrite (proj2 (for_each_Ok _ (r_dtbs reg) ())); cbn [mbind res_mbind res_bind].
    2: { eapply Forall_impl; [exact H4 |]. intros item Hi. cbv beta in *. revert Hi. destruct (requirements reg item.1); [done | by intros]. }
    rewrite (proj2 (for_each_Ok _ (r_kernels reg) ())) by done. cbn [mbind res_mbind res_bind].
    rewrite (proj2 (validate_bundles_Ok reg (r_bundles reg) [] (map b_name (r_bundles reg)))); cbn [mbind res_mbind res_bind].
    2: { split_and!; [done | done | set_solver | done]. }
    apply for_each_Ok. repeat constructor; apply need_Ok, Z.leb_le, H8; reflexivity.
Qed.

(** ** [set] *)
Definition set_one (name : pystr) (a : set_args) (e : bundle_entry) : bundle_entry :=
  if b_name e == name then apply_set a e else retire_other a e.

Lemma set_one_fixed name a e :
  let e' := set_one name a e in
  b_name e' = b_name e ∧ b_role e' = b_role e ∧ b_kernel e' = b_kernel e ∧ b_dtb e' = b_dtb e ∧
  b_manifest_sha256 e' = b_manifest_sha256 e ∧ b_release e' = b_release e.
Proof.
  unfold set_one, retire_other. case_bool_decide; [done |].
  destruct (a_status a); [| done]. by destruct (_ && _).
Qed.

Lemma set_one_status name a e :
  b_status (set_one name a e) = b_status e ∨ b_status (set_one name a e) = "retired" ∨
  (b_name e = name ∧ a_status a = Some (b_status (set_one name a e))).
Proof.
  unfold set_one, retire_other, apply_set. case_bool_decide; simpl; destruct (a_status a); simpl; auto.
  destruct (_ && _); auto.
Qed.
Lemma set_one_healthy name a e :
  b_healthy (set_one name a e) = b_healthy e ∨ a_healthy a = Some (b_healthy (set_one name a e)).
Proof.
  unfold set_one, retire_other, apply_set. case_bool_decide; simpl; [destruct (a_healthy a); auto |].
  destruct (a_status a); simpl; auto. destruct (_ && _); auto.
Qed.

Lemma filter_length_map {A} (P Q : A → Prop) `{∀ x, Decision (P x)} `{∀ x, Decision (Q x)} (f : A → A) l :
  (∀ x, P (f x) → Q x) → (length (filter P (map f l)) ≤ length (filter Q l))%nat.
Proof.
  intros Hf. induction l as [|x l IH]; [done |]. simpl. rewrite !filter_cons.
  destruct (decide (P (f x))) as [Hp|]; destruct (decide (Q x)) as [|Hq]; simpl; try lia. by destruct Hq; apply Hf.
Qed.

(** Entries of one name in a list of distinct names. *)
Lemma filter_one_name (P : bundle_entry → Prop) `{∀ x, Decision (P x)} name l :
  NoDup (map b_name l) → (∀ e, e ∈ l → P e → b_name e = name) → (length (filter P l) ≤ 1)%nat.
Proof.
  intros Hnd Hp. assert (Hf : ∀ l', NoDup (map b_name l') → (∀ e, e ∈ l' → b_name e = name) → (length l' ≤ 1)%nat).
  { intros [|e1 [|e2 l']]; simpl; try lia. intros Hn He. apply NoDup_cons in Hn as [Hn _].
    destruct Hn. assert (b_name e1 = name) as -> by (apply He; by left).
    assert (b_name e2 = name) as <- by (apply He; right; by left). by left. }
  apply Hf.
  - eapply sublist_NoDup; [exact Hnd |]. apply (fmap_sublist b_name), sublist_filter.
  - intros e [? ?]%list_elem_of_filter. auto.
Qed.

Lemma change_set_Ok reg name a reg' :
  change_set reg name a = Ok reg' →
  reg' = with_bundles (map (set_one name a) reg.(r_bundles)) reg ∧ ∃ e, e ∈ reg.(r_bundles) ∧ b_name e = name.
Proof.
  unfold change_set, bundle. intros H. bind_inv H as e He. injection H as <-. split; [done |].
  guard_inv He as Hl. apply of_option_Ok in He. exists e.
  destruct (filter _ _) as [|e' l] eqn:Ef; [done |]. injection He as ->.
  assert (e ∈ filter (λ e, b_name e = name) (r_bundles reg)) as Hin by (rewrite Ef; by left).
  apply list_elem_of_filter in Hin. tauto.
Qed.

Lemma count_after_set reg name a s :
  NoDup (map b_name reg.(r_bundles)) → is_installed s = true → count_status s reg.(r_bundles) ≤ 1 →
  count_status s (map (set_one name a) reg.(r_bundles)) ≤ 1.
Proof.
  intros Hnd Hs Hc. assert (s ≠ ("retired" : pystr)) as Hr by (by intros ->).
  destruct (decide (a_status a = Some s)) as [Ha|Ha].
  - pose proof (filter_one_name (λ e, b_status e = s) name (map (set_one name a) (r_bundles reg))) as H.
    unfold count_status, len. enough (length (filter (λ e, b_status e = s) (map (set_one name a) (r_bundles reg))) ≤ 1)%nat by lia.
    apply H.
    + rewrite map_map. erewrite map_ext; [exact Hnd |]. intros e. apply set_one_fixed.
    + intros e' (e & -> & He)%list_elem_of_fmap. unfold set_one at 1, retire_other. rewrite Ha.
      case_bool_decide as Hn; simpl; [by intros; unfold set_one; rewrite bool_decide_true |].
      intros Hst. exfalso. rewrite Hs in Hst. simpl in Hst.
      case_bool_decide as Hst'; simpl in Hst; [congruence | done].
  - unfold count_status, len in *.
    enough (length (filter (λ e, b_status e = s) (map (set_one name a) (r_bundles reg)))
            ≤ length (filter (λ e, b_status e = s) (r_bundles reg)))%nat by lia.
    apply (filter_length_map (λ e, b_status e = s) (λ e, b_status e = s)). intros e Hst.
    destruct (set_one_status name a e) as [H|[H|[_ H]]]; congruence.
Qed.

Lemma change_set_bundles_ok reg name a reg' :
  bundles_ok reg → (∀ s, a_status a = Some s → s ∈ STATUSES) → (∀ h, a_healthy a = Some h → h ∈ HEALTHY) →
  change_set reg name a = Ok reg' → bundles_ok reg'.
Proof.
  intros (Hb & Hnd & Hc) Hs Hh (-> & _)%change_set_Ok. split_and!; simpl.
  - apply Forall_fmap. eapply Forall_impl; [exact Hb |]. intros e (H1 & H2 & H3 & H4 & H5 & H6 & H7 & H8).
    destruct (set_one_fixed name a e) as (Hn & Hro & Hk & Hd & Hm & Hrel). unfold bundle_ok. simpl.
    rewrite Hn, Hro, Hk, Hd, Hm, Hrel. split_and!; [done | done | done | | | done | done | done].
    + destruct (set_one_status name a e) as [->|[->|[_ ?]]]; [done | by apply is_in_elem | by apply Hs].
    + destruct (set_one_healthy name a e) as [->|?]; [done | by apply Hh].
  - rewrite map_map. erewrite map_ext; [exact Hnd |]. intros e. apply set_one_fixed.
  - intros s His. by apply count_after_set, Hc.
Qed.

(** ** Names *)
Lemma number_lang s : lang number_1_9999 s ↔ ∃ c t, s = c :: t ∧ is_nonzero c = true ∧ (length t ≤ 3)%nat ∧ Forall (λ c, is_digit c = true) t.
Proof.
  rewrite <-fullmatch_lang. unfold number_1_9999. rewrite fullmatch_cls_seq.
  f_equiv. intros c. f_equiv. intros t. rewrite fullmatch_rep. intuition lia.
Qed.
Lemma tagged_number_lang w s : fullmatch (RSeq (lit w) number_1_9999) s = true ↔ ∃ n, s = w ++ n ∧ lang number_1_9999 n.
Proof.
  rewrite fullmatch_lang. split; [intros (s1 & s2 & -> & ->%lang_lit & ?); eauto |].
  intros (n & -> & ?). exists w, n. split; [done |]. split; [by apply lang_lit | done].
Qed.

(** No character of a number, date, letter or role is a hyphen or a dot. *)
Definition plain (c : ascii) : bool := is_lower c || is_digit c.
Lemma plain_not_hyphen s : Forall (λ c, plain c = true) s → ("-"%char ∉ s) ∧ ("."%char ∉ s).
Proof. rewrite Forall_forall. intros H. split; intros Hin; by apply H in Hin. Qed.
Lemma number_plain s : lang number_1_9999 s → Forall (λ c, plain c = true) s ∧ (length s ≤ 4)%nat.
Proof.
  intros (c & t & -> & Hc & Hl & Ht)%number_lang. split; [| simpl; lia]. constructor.
  - revert Hc. unfold plain, is_nonzero, is_lower, is_digit. rewrite orb_true_iff, !between_true.
    cbv [ord]. simpl. intros. right. lia.
  - eapply Forall_impl; [exact Ht |]. intros d Hd. unfold plain. by rewrite Hd, orb_true_r.
Qed.

Lemma no_dots s : "."%char ∉ s → contains ".." s = false.
Proof.
  intros H. apply not_true_iff_false. rewrite contains_spec. intros (a & b & ->). apply H.
  rewrite !elem_of_app. right. left. by left.
Qed.

Section name.
Context (role kernel dtb day letter : pystr).
Context (Hrole : role ∈ ROLES) (Hkernel : fullmatch KERNEL kernel = true) (Hdtb : fullmatch DTB dtb = true).
Context (Hday : fullmatch (rep 6 0 is_digit) day = true) (Hletter : fullmatch (RCls is_lower) letter = true).
Let name := role ++ "-" ++ kernel ++ "-" ++ dtb ++ "-" ++ day ++ letter.

Lemma role_cases : role = "main" ∨ role = "safe".
Proof using All. unfold ROLES in Hrole. rewrite !elem_of_cons, elem_of_nil in Hrole. tauto. Qed.

Lemma name_parts : ∃ nk nd c, kernel = "k" ++ nk ∧ dtb = "d" ++ nd ∧ letter = [c] ∧
  lang number_1_9999 nk ∧ lang number_1_9999 nd ∧ is_lower c = true ∧ length day = 6%nat ∧
  Forall (λ c, is_digit c = true) day.
Proof using All.
  apply tagged_number_lang in Hkernel as (nk & -> & ?). apply tagged_number_lang in Hdtb as (nd & -> & ?).
  apply fullmatch_lang in Hletter as (c & -> & ?). apply fullmatch_rep in Hday as [? ?].
  exists nk, nd, c. split_and!; try done. lia.
Qed.

Lemma new_name_lang : fullmatch NEW_NAME name = true.
Proof using All.
  destruct name_parts as (nk & nd & c & Hk & Hd & Hl & ? & ? & ? & ? & ?). apply fullmatch_lang.
  unfold name. rewrite Hk, Hd, Hl. exists role, ("-k" ++ nk ++ "-d" ++ nd ++ "-" ++ day ++ [c]).
  split; [by rewrite <-?app_assoc |]. split; [destruct role_cases as [-> | ->]; [left | right]; by apply lang_lit |].
  exists "-k", (nk ++ "-d" ++ nd ++ "-" ++ day ++ [c]). split; [done |]. split; [by apply lang_lit |].
  exists nk, ("-d" ++ nd ++ "-" ++ day ++ [c]). split; [done |]. split; [done |].
  exists "-d", (nd ++ "-" ++ day ++ [c]). split; [done |]. split; [by apply lang_lit |].
  exists nd, ("-" ++ day ++ [c]). split; [done |]. split; [done |].
  exists "-", (day ++ [c]). split; [done |]. split; [by apply lang_lit |].
  exists day, [c]. split; [done |]. split; [by apply fullmatch_lang | by exists c].
Qed.

(** Every part is plain. *)
Lemma parts_plain : Forall (λ s, Forall (λ c, plain c = true) s) [role; kernel; dtb; day ++ letter] ∧
  (length name ≤ 64)%nat.
Proof using All.
  destruct name_parts as (nk & nd & c & Hk & Hd & Hl & Hnk & Hnd & Hc & Hday6 & Hdig).
  apply number_plain in Hnk as [Hnk Hlk]. apply number_plain in Hnd as [Hnd Hld].
  split.
  - repeat (apply Forall_cons; split); [| | | | done].
    + destruct role_cases as [-> | ->]; by repeat constructor.
    + rewrite Hk. apply Forall_app. split; [by repeat constructor | done].
    + rewrite Hd. apply Forall_app. split; [by repeat constructor | done].
    + rewrite Hl. apply Forall_app. split; [| constructor; [unfold plain; by rewrite Hc | done]].
      eapply Forall_impl; [exact Hdig |]. intros d Hd'. unfold plain. by rewrite Hd', orb_true_r.
  - unfold name. rewrite Hk, Hd, Hl, !length_app. simpl.
    assert (length role = 4)%nat as -> by (destruct role_cases as [-> | ->]; done). lia.
Qed.

Lemma name_loader_ok : loader_name_ok name = true.
Proof using All.
  destruct parts_plain as [Hp Hlen]. rewrite !Forall_cons in Hp. destruct Hp as (Hr & Hk & Hd & Hl & _).
  assert (Forall (λ c, loader_char c = true) name) as Hall.
  { assert (∀ s, Forall (λ c, plain c = true) s → Forall (λ c, loader_char c = true) s) as Hpl.
    { intros s Hs. eapply Forall_impl; [exact Hs |]. intros c Hc. unfold loader_char. unfold plain in Hc. by rewrite Hc. }
    assert (Forall (λ c, loader_char c = true) "-") as Hh by (by repeat constructor).
    apply Hpl in Hr, Hk, Hd, Hl. unfold name. do 6 (apply Forall_app; split; [done |]). done. }
  unfold loader_name_ok. apply andb_true_iff. split.
  - unfold LOADER_NAME. apply fullmatch_cls_seq.
    assert (∃ c t, name = c :: t ∧ loader_start c = true) as (c & t & Hn & Hc).
    { unfold name. destruct role_cases as [-> | ->]; eexists _, _; (split; [reflexivity | done]). }
    exists c, t. rewrite Hn in Hall, Hlen. apply Forall_cons in Hall as [_ Hall].
    split_and!; [done | done |]. apply fullmatch_rep. simpl in Hlen. split; [lia | done].
  - apply negb_true_iff, no_dots. unfold name. rewrite !not_elem_of_app.
    pose proof (plain_not_hyphen _ Hr). pose proof (plain_not_hyphen _ Hk). pose proof (plain_not_hyphen _ Hd).
    apply plain_not_hyphen in Hl. rewrite !not_elem_of_app in Hl.
    assert ("."%char ∉ ("-" : pystr)) by (by apply (bool_decide_eq_true_1 _)). tauto.
Qed.

Lemma name_groups : new_name_groups name = Some (role, kernel, dtb).
Proof using All.
  unfold new_name_groups. rewrite new_name_lang.
  destruct parts_plain as [Hp _]. rewrite !Forall_cons in Hp. destruct Hp as (Hr & Hk & Hd & _ & _).
  change name with (role ++ "-"%char :: kernel ++ "-"%char :: dtb ++ "-"%char :: day ++ letter).
  rewrite split_on_app by by apply plain_not_hyphen. rewrite split_on_app by by apply plain_not_hyphen.
  rewrite split_on_app by by apply plain_not_hyphen. done.
Qed.
End name.

(** The requirements depend on the DTBs alone. *)
Lemma requirements_loop_dtbs fuel reg reg' ident ps cfg seen cur : r_dtbs reg' = r_dtbs reg →
  requirements_loop fuel reg' ident ps cfg seen cur = requirements_loop fuel reg ident ps cfg seen cur.
Proof.
  intros Hd. revert ps cfg seen cur. induction fuel as [|fuel IH]; intros ps cfg seen [cur|]; try done.
  cbn [requirements_loop]. rewrite Hd. destruct (need _ _); [| done]. cbn [mbind res_mbind res_bind].
  destruct (need _ _); [| done]. cbn [mbind res_mbind res_bind].
  destruct (of_option _ _ _); [| done]. cbn [mbind res_mbind res_bind].
  destruct (fold_res _ _ _); [| done]. apply IH.
Qed.
Lemma requirements_dtbs reg reg' ident : r_dtbs reg' = r_dtbs reg → requirements reg' ident = requirements reg ident.
Proof. intros Hd. unfold requirements. by rewrite (requirements_loop_dtbs _ reg reg'), Hd. Qed.

(** ** Fresh identifiers *)
Lemma foldl_max_ge l a : a ≤ foldl Z.max a l ∧ ∀ x, x ∈ l → x ≤ foldl Z.max a l.
Proof.
  revert a. induction l as [|y l IH]; intros a; simpl; [split; [lia | set_solver] |].
  destruct (IH (Z.max a y)) as [H1 H2]. split; [lia |]. intros x. rewrite elem_of_cons. intros [->|?]; [lia | auto].
Qed.
Lemma foldl_max_bound l a b : a ≤ b → (∀ x, x ∈ l → x ≤ b) → foldl Z.max a l ≤ b.
Proof. revert a. induction l as [|y l IH]; intros a Ha Hl; simpl; [done |]. apply IH; [| set_solver]. assert (y ≤ b) by (apply Hl; by left). lia. Qed.

Lemma number_matches n : 1 ≤ n ≤ 9999 → lang number_1_9999 (str_of_Z n).
Proof.
  intros H. apply number_lang. pose proof (str_canonical n ltac:(lia)) as Hc.
  pose proof (str_length n 3 ltac:(lia)) as Hl. unfold canonical_decimal in Hc.
  apply andb_true_iff in Hc as [Hd Hz]. unfold isdecimal in Hd. apply andb_true_iff in Hd as [Hne Hd].
  destruct (str_of_Z n) as [|c t] eqn:E; [done |]. simpl in Hd. apply andb_true_iff in Hd as [Hc Ht].
  exists c, t. split_and!; [done | | simpl in Hl; lia | by apply forallb_Forall].
  assert (c ≠ "0"%char) as Hc0.
  { intros ->. simpl in Hz. destruct t as [|c t]; [| done].
    assert (n = 0); [| lia]. apply str_of_Z_inj; [lia | lia |]. rewrite E. done. }
  revert Hc. unfold is_nonzero, is_digit. rewrite !between_true. intros Hb.
  assert (ord c ≠ 48) by (intros Ho; apply Hc0; by apply (ord_inj c "0"%char)).
  change (ord "0"%char) with 48 in Hb. change (ord "1"%char) with 49. change (ord "9"%char) with 57 in *. lia.
Qed.

(** ** Runs *)
Definition expand_run (r : Z * Z) : list Z := seqZ r.1 (r.2 - r.1 + 1).

Lemma add_run_expand runs n :
  Forall (λ r, r.1 ≤ r.2) runs →
  Forall (λ r, r.1 ≤ r.2) (add_run runs n) ∧
  concat (map expand_run (reverse (add_run runs n))) = concat (map expand_run (reverse runs)) ++ [n].
Proof.
  intros Hr. assert (expand_run (n, n) = [n]) as Hn by (unfold expand_run; simpl; by replace (n - n + 1) with 1 by lia).
  destruct runs as [|[a b] rest]; simpl.
  - rewrite Hn. split; [by repeat constructor | done].
  - apply Forall_cons in Hr as [Hab Hr]. simpl in Hab. destruct (n =? b + 1) eqn:E; b2p.
    + split; [constructor; [simpl; lia | done] |]. subst n. rewrite !reverse_cons, !map_app, !concat_app. simpl.
      rewrite !app_nil_r, <-app_assoc. f_equal. unfold expand_run. simpl.
      replace (b + 1 - a + 1) with ((b - a + 1) + 1) by lia. rewrite seqZ_app by lia. f_equal.
      replace (a + (b - a + 1)) with (b + 1) by lia. done.
    + split; [constructor; [simpl; lia | by constructor] |].
      rewrite (reverse_cons _ (n, n)), map_app, concat_app. simpl. by rewrite Hn.
Qed.

Lemma runs_expand l runs :
  Forall (λ r, r.1 ≤ r.2) runs →
  concat (map expand_run (reverse (foldl add_run runs l))) = concat (map expand_run (reverse runs)) ++ l.
Proof.
  revert runs. induction l as [|n l IH]; intros runs Hr; simpl; [by rewrite app_nil_r |].
  destruct (add_run_expand runs n Hr) as [Hr' He]. rewrite IH by done. by rewrite He, <-app_assoc.
Qed.

(** ** One line per entry *)
Lemma replace_char_absent c w s : c ∉ w → c ∉ replace_char c w s.
Proof.
  intros Hw. unfold replace_char. intros Hin. apply list_elem_of_In, in_concat in Hin as (x & Hx & Hc%list_elem_of_In).
  apply in_map_iff in Hx as (d & <- & _). revert Hc. case_bool_decide; [done |]. rewrite list_elem_of_singleton. congruence.
Qed.
Lemma cell_no_lf v : LF ∉ cell v.
Proof. unfold cell. apply replace_char_absent. by apply (bool_decide_eq_true_1 _). Qed.
Lemma join_no_lf sep l : LF ∉ sep → Forall (λ w, LF ∉ w) l → LF ∉ join sep l.
Proof.
  intros Hs. induction l as [|w [|w' ws] IH]; intros Hl; [set_solver | |].
  - by apply Forall_cons in Hl as [? _].
  - apply Forall_cons in Hl as [Hw Hl]. change (join sep (w :: w' :: ws)) with (w ++ sep ++ join sep (w' :: ws)).
    rewrite !not_elem_of_app. auto.
Qed.
Lemma row_no_lf cells : LF ∉ row cells.
Proof.
  unfold row. rewrite !not_elem_of_app. split_and!; try by apply (bool_decide_eq_true_1 _).
  apply join_no_lf; [by apply (bool_decide_eq_true_1 _) |]. apply Forall_fmap, Forall_true. intros. apply cell_no_lf.
Qed.
Lemma map_res_Forall {A B} (f : A → res B) (P : B → Prop) l r :
  (∀ x y, f x = Ok y → P y) → map_res f l = Ok r → Forall P r ∧ length r = length l.
Proof.
  intros Hf. revert r. induction l as [|x l IH]; intros r H; simpl in H; [by injection H as <- |].
  bind_inv H as y Hy. bind_inv H as ys Hys. injection H as <-. destruct (IH ys Hys). simpl.
  split; [constructor; eauto | congruence].
Qed.

Lemma first_name_no_lf s reg : Forall (bundle_ok reg) reg.(r_bundles) → LF ∉ first_name s reg.
Proof.
  intros H. unfold first_name. destruct (filter _ _) as [|e l] eqn:E; [by apply (bool_decide_eq_true_1 _) |].
  assert (e ∈ r_bundles reg) as He.
  { assert (e ∈ filter (λ e, b_status e = s) (r_bundles reg)) as Hin by (rewrite E; by left).
    by apply list_elem_of_filter in Hin as [_ ?]. }
  rewrite Forall_forall in H. destruct (H e He) as (Hl & _). unfold loader_name_ok in Hl.
  apply andb_true_iff in Hl as [Hl _]. apply fullmatch_cls_seq in Hl as (c & t & -> & Hc & Ht).
  apply fullmatch_rep in Ht as [_ Ht]. rewrite Forall_forall in Ht. rewrite elem_of_cons.
  intros [<-|Hin]; [done |]. by specialize (Ht _ Hin).
Qed.

Lemma const_no_lf (l : list pystr) : bool_decide (Forall (λ w, LF ∉ w) l) = true → Forall (λ w, LF ∉ w) l.
Proof. apply bool_decide_eq_true_1. Qed.
Lemma render_head_no_lf : Forall (λ w, LF ∉ w) render_head.
Proof. apply const_no_lf. vm_compute. reflexivity. Qed.
Ltac lit_no_lf := solve [by apply (bool_decide_eq_true_1 _)].

Lemma join_snoc_nil sep ls : ls ≠ [] → join sep (ls ++ [[]]) = join sep ls ++ sep.
Proof.
  induction ls as [|w [|w' ws] IH]; intros Hne; [done | simpl; by rewrite app_nil_r |].
  change (join sep ((w :: w' :: ws) ++ [[]])) with (w ++ sep ++ join sep ((w' :: ws) ++ [[]])).
  rewrite IH by done. change (join sep (w :: w' :: ws)) with (w ++ sep ++ join sep (w' :: ws)).
  by rewrite <-!app_assoc.
Qed.

(** ** Theorems *)

(** What a DTB requires is what its base chain requires.  [requirements]
    ends for every registry (its bound is never met); it succeeds exactly when
    the chain of bases is finite and no two DTBs of it disagree on a symbol;
    and it then lists exactly the patches and settings of the chain. *)
Theorem requirements_chain reg ident :
  (∀ msg, requirements reg ident ≠ Raise (Exn OutOfFuel msg)) ∧
  (is_ok (requirements reg ident) = true ↔
     ∃ l, base_chain reg (Some ident) l ∧ agree (chain_config reg l)) ∧
  (∀ ps cfg l, requirements reg ident = Ok (ps, cfg) → base_chain reg (Some ident) l →
     (∀ p, p ∈ ps ↔ p ∈ chain_patches reg l) ∧ (∀ kv, kv ∈ cfg ↔ kv ∈ chain_config reg l)).
Proof.
  split_and!.
  - intros msg H. unfold requirements in H. apply bind_Raise in H as [H|([? ?] & _ & ?)]; [| done].
    revert H. apply requirements_loop_fuel; [constructor | set_solver | simpl; lia].
  - rewrite is_ok_true. split.
    + intros [[ps cfg] (l & ? & ? & _)%requirements_Ok]. by exists l.
    + intros (l & ? & ?). eexists (_, _). apply requirements_Ok. by exists l.
  - intros ps cfg l (l' & Hl' & Ha & -> & ->)%requirements_Ok Hl.
    rewrite (base_chain_unique _ _ _ _ Hl Hl'). split.
    + intros p. unfold sorted. rewrite merge_sort_Permutation, elem_of_elements, elem_of_list_to_set. done.
    + intros kv. rewrite merge_sort_Permutation, dset_all_elem; done.
Qed.

(** C19. [set] keeps the registry valid and moves a slot atomically: after
    setting a bundle to [installed-main] or [installed-fallback] that bundle,
    and no other, has the status. *)
Theorem change_set_valid patch_exists reg name a reg' :
  validate patch_exists reg = Ok () →
  (∀ s, a_status a = Some s → s ∈ STATUSES) → (∀ h, a_healthy a = Some h → h ∈ HEALTHY) →
  change_set reg name a = Ok reg' →
  validate patch_exists reg' = Ok () ∧
  ∀ s, a_status a = Some s → is_installed s = true →
    ∀ e, e ∈ reg'.(r_bundles) → b_status e = s ↔ b_name e = name.
Proof.
  intros [Ht Hb]%validate_Ok Hs Hh Hc. split.
  - apply validate_Ok. split; [| by eapply change_set_bundles_ok].
    apply change_set_Ok in Hc as (-> & _). destruct Ht as (H1 & H2 & H3 & H4 & H5).
    split_and!; [done | done | done | | done].
    eapply Forall_impl; [exact H4 |]. intros item Hi. cbv beta in *. by rewrite (requirements_dtbs reg).
  - apply change_set_Ok in Hc as (-> & _). intros s Ha Hi e (e0 & -> & Hin)%list_elem_of_fmap.
    destruct (set_one_fixed name a e0) as (-> & _). unfold set_one, retire_other, apply_set. rewrite Ha.
    case_bool_decide as Hn; simpl; [done |]. rewrite Hi. simpl. case_bool_decide as Hst; simpl.
    + split; [by intros <- | done].
    + done.
Qed.

(** Names round-trip.  Every role, kernel, DTB, date and letter of the
    scheme gives a name ([bundle_name] cannot fail its last check), the
    loader accepts it, and reading its groups gives role, kernel and DTB
    back. *)
Theorem bundle_name_round_trip role kernel dtb day letter :
  role ∈ ROLES → fullmatch KERNEL kernel = true → fullmatch DTB dtb = true →
  fullmatch (rep 6 0 is_digit) day = true → fullmatch (RCls is_lower) letter = true →
  ∃ name, bundle_name role kernel dtb day letter = Ok name ∧ loader_name_ok name = true ∧
    new_name_groups name = Some (role, kernel, dtb).
Proof.
  intros Hr Hk Hd Hy Hl. exists (role ++ "-" ++ kernel ++ "-" ++ dtb ++ "-" ++ day ++ letter).
  split_and!; [| by apply name_loader_ok | by apply name_groups].
  unfold bundle_name. rewrite !need_pass; try done; [| by apply is_in_elem].
  by rewrite new_name_lang, name_loader_ok.
Qed.

(** [next_dtb_id] is fresh, numbered from d10 on, and a valid id while
    the numbers in use stay below 9999. *)
Theorem next_dtb_id_fresh reg :
  dmem (next_dtb_id reg) reg.(r_dtbs) = false ∧ FIRST_NEW_DTB ≤ dtb_number (next_dtb_id reg) ∧
  ((∀ i, i ∈ reg.(r_dtbs).*1 → dtb_number i < 9999) → fullmatch DTB (next_dtb_id reg) = true).
Proof.
  unfold next_dtb_id. set (l := map dtb_number (r_dtbs reg).*1).
  destruct (foldl_max_ge l (FIRST_NEW_DTB - 1)) as [Hlo Hge]. set (n := foldl Z.max (FIRST_NEW_DTB - 1) l) in *.
  unfold FIRST_NEW_DTB in *. assert (dtb_number ("d" ++ str_of_Z (n + 1)) = n + 1) as Hn.
  { unfold dtb_number. change (drop 1 ("d" ++ ?x)) with x. apply int10_str. lia. }
  split_and!.
  - apply not_true_iff_false. rewrite dmem_spec. intros Hin.
    assert (n + 1 ≤ n); [| lia]. rewrite <-Hn at 1. apply Hge. apply list_elem_of_fmap. eauto.
  - rewrite Hn. lia.
  - intros Hb. apply tagged_number_lang. exists (str_of_Z (n + 1)). split; [done |]. apply number_matches.
    assert (n ≤ 9998); [| lia]. apply foldl_max_bound; [lia |].
    intros x (i & -> & Hi)%list_elem_of_fmap. specialize (Hb i Hi). lia.
Qed.

(** The Needs cell loses nothing: expanding the runs of a list of patch
    numbers gives the list back. *)
Theorem number_runs_round_trip numbers : concat (map expand_run (number_runs numbers)) = numbers.
Proof. unfold number_runs. rewrite runs_expand by constructor. done. Qed.

(** The document has one line per entry: with a valid registry and a
    root path of one line, splitting the rendered text at newlines gives back
    the lines it was joined from, a row per bundle, kernel and DTB, whatever
    the free-text cells hold. *)
Theorem render_one_line_per_entry patch_exists reg text :
  validate patch_exists reg = Ok () → LF ∉ reg.(r_root) → render reg = Ok text →
  ∃ lines, render_lines reg = Ok lines ∧ split_on LF text = lines ++ [[]] ∧
    length lines = (length render_head + 18 + length reg.(r_bundles) + length reg.(r_kernels) + length reg.(r_dtbs))%nat.
Proof.
  intros [_ [Hb _]]%validate_Ok Hroot H. unfold render in H. bind_inv H as lines Hl. injection H as <-.
  exists lines. split; [done |]. unfold render_lines in Hl. bind_inv Hl as rows Hrows. assert (lines = document_lines reg rows) as -> by congruence. clear Hl.
  destruct (map_res_Forall (dtb_row reg) (λ r, LF ∉ r) (merge_sort newer (r_dtbs reg)) rows) as [Hrow Hlen]; [| done |].
  { intros [ident d] y. unfold dtb_row. intros Hy. bind_inv Hy as needs Hn. injection Hy as <-. apply row_no_lf. }
  rewrite merge_sort_Permutation in Hlen.
  set (lines := document_lines reg rows).
  assert (Forall (λ w, LF ∉ w) (lines ++ [[]])) as Hall.
  { unfold lines, document_lines. rewrite !Forall_app. split_and!.
    - apply render_head_no_lf.
    - repeat (apply Forall_cons; split); try apply Forall_nil_2; try lit_no_lf.
      rewrite !not_elem_of_app. split_and!; try lit_no_lf; by apply first_name_no_lf.
    - apply Forall_fmap, Forall_true. intros. apply row_no_lf.
    - by apply const_no_lf.
    - apply Forall_fmap, Forall_true. intros [? ?]. apply row_no_lf.
    - repeat (apply Forall_cons; split); try apply Forall_nil_2; try lit_no_lf.
      rewrite !not_elem_of_app. split_and!; try lit_no_lf; done.
    - done.
    - by apply const_no_lf. }
  assert (length lines = (length render_head + 18 + length reg.(r_bundles) + length reg.(r_kernels) + length reg.(r_dtbs))%nat) as Hlines.
  { unfold lines, document_lines. rewrite !length_app, !length_map, length_reverse, merge_sort_Permutation, Hlen. simpl. lia. }
  clearbody lines. split; [| exact Hlines].
  rewrite <-(split_join LF (lines ++ [[]])); [| by destruct lines | exact Hall]. f_equal.
  symmetry. apply join_snoc_nil. intros ->. change (length (@nil pystr)) with 0%nat in Hlines. lia.
Qed.

(** A kernel passes for a DTB exactly when its build carries every patch
    of the DTB's base chain and its .config gives every setting one of the
    accepted values. *)
Theorem check_kernel_complete reg ident kernel applied config_text ps cfg :
  check_kernel reg ident kernel applied config_text = Ok (ps, cfg) ↔
  requirements reg ident = Ok (ps, cfg) ∧ (∀ p, p ∈ ps → p ∈ applied) ∧
  (cfg ≠ [] → ∃ text, config_text = Some text ∧ ∀ kv, kv ∈ cfg → config_wrong (config_values text) kv = false).
Proof.
  unfold check_kernel.
  split.
  - intros H. bind_inv H as [ps1 cfg1] Hr. guard_inv H as H1. guard_inv H as H2%bool_decide_eq_true.
    bind_inv H as [] H3. injection H as -> ->. split_and!; [done | |].
    + intros p Hp. rewrite filter_none in H2. apply dec_stable. by apply H2.
    + intros Hne. rewrite bool_decide_false in H3 by done. bind_inv H3 as text Ht. apply of_option_Ok in Ht.
      exists text. split; [done |]. apply need_Ok, bool_decide_eq_true in H3. intros kv Hkv.
      rewrite filter_none in H3. by apply not_true_iff_false, H3.
  - intros (Hr & Hp & Hc). rewrite Hr. cbn [mbind res_mbind res_bind]. rewrite need_pass.
    2: { destruct ps as [|p ps]; [by rewrite orb_true_r |]. apply orb_true_iff. left. apply negb_true_iff, bool_decide_eq_false.
         intros ->. specialize (Hp p ltac:(by left)). by apply elem_of_nil in Hp. }
    rewrite need_pass.
    2: { apply bool_decide_eq_true, filter_none. intros x Hx Hn. by apply Hn, Hp. }
    case_bool_decide as Hne; [by subst |]. destruct (Hc Hne) as (text & -> & Hw).
    cbn [of_option mbind res_mbind res_bind]. rewrite need_pass; [done |].
    apply bool_decide_eq_true, filter_none. intros kv Hkv. by rewrite Hw.
Qed.

(** ** A registry the theorems apply to *)
Definition ZERO_SHA : pystr := replicate 64 "0"%char.
Definition sample_dtbs : dict dtb_entry :=
  [("d1" : pystr, DtbEntry "stock/board.dtb" ZERO_SHA "dts" None (Some (Requires [] [] [])) None None None);
   ("d10" : pystr, DtbEntry "display/board.dtb" ZERO_SHA "dts,display" (Some ("d1" : pystr))
      (Some (Requires ["0001-panel.patch" : pystr] [("CONFIG_DRM" : pystr, "y|m" : pystr)] [])) None (Some ("one|two" : pystr)) (Some ("2026-01-01" : pystr)))].
Definition sample_kernels : dict kernel_entry :=
  [("k111" : pystr, KernelEntry "rog5-kernel-7.2-build-r111" ZERO_SHA "7.2.7-rog5-k111" (Some ("14" : pystr)) None None (Some ("0123456789ab" : pystr)) (Some false))].
Definition sample_bundle (name role status : pystr) : bundle_entry :=
  BundleEntry name role "k111" "d10" status "unknown" ZERO_SHA "7.2.7-rog5-k111" None None None (Some ("2026-01-01" : pystr)) (Some ("package-" ++ name : pystr)) (Some ("0123456789ab" : pystr)).
Definition sample_registry : registry :=
  Registry (Some ("rog5-dtb-registry-v1" : pystr)) "/data" sample_dtbs (Some ("rog5-bundle-registry-v1" : pystr))
    [sample_bundle "main-k111-d10-260101a" "main" "installed-main"; sample_bundle "main-k111-d10-260102a" "main" "built"]
    sample_kernels.
Definition sample_set : set_args := SetArgs (Some ("installed-main" : pystr)) (Some ("yes" : pystr)) None None None.
Definition only_panel (name : pystr) : bool := name == "0001-panel.patch".

Lemma change_set_valid_witness :
  validate only_panel sample_registry = Ok () ∧
  ∃ reg', change_set sample_registry "main-k111-d10-260102a" sample_set = Ok reg' ∧ validate only_panel reg' = Ok () ∧
    map b_status reg'.(r_bundles) = ["retired" : pystr; "installed-main" : pystr].
Proof.
  assert (validate only_panel sample_registry = Ok ()) as Hv by (vm_compute; reflexivity).
  split; [exact Hv |].
  destruct (change_set sample_registry "main-k111-d10-260102a" sample_set) as [reg'|e] eqn:E; [| vm_compute in E; discriminate].
  destruct (change_set_valid only_panel sample_registry "main-k111-d10-260102a" sample_set reg') as [Hr _]; try done.
  - intros s [= <-]. by apply is_in_elem.
  - intros s [= <-]. by apply is_in_elem.
  - exists reg'. split_and!; [done | done |]. vm_compute in E. injection E as <-. reflexivity.
Defined.

Lemma bundle_name_round_trip_witness :
  ∃ name, bundle_name "main" "k111" "d10" "260102" "a" = Ok name ∧ loader_name_ok name = true ∧
    new_name_groups name = Some ("main" : pystr, "k111" : pystr, "d10" : pystr).
Proof. apply bundle_name_round_trip; [by apply is_in_elem | | | |]; vm_compute; reflexivity. Defined.

Definition sample_text : pystr := Eval vm_compute in match render sample_registry with Ok t => t | Raise _ => [] end.
Lemma render_one_line_per_entry_witness :
  ∃ lines, render_lines sample_registry = Ok lines ∧ split_on LF sample_text = lines ++ [[]] ∧ length lines = (length render_head + 23)%nat.
Proof.
  destruct (render_one_line_per_entry only_panel sample_registry sample_text) as (lines & H1 & H2 & H3).
  - vm_compute. reflexivity.
  - by apply (bool_decide_eq_true_1 _).
  - vm_compute. reflexivity.
  - exists lines. split_and!; [exact H1 | exact H2 | rewrite H3; vm_compute; reflexivity].
Defined.
