(* ===== verification/RegistryStore.v ===== *)
(** * The registry's files under concurrent changes

    scripts/host/rog5-bundle-registry.py: [change], [Registry.save],
    [write_json], [write_features] and [locked], and the change
    scripts/host/rog5-make-bundle.py makes under [locked] when a bundle is
    built ([kernel_pin] and the registration).  Any number of processes run
    one command each; they interleave between any two calls, every call may
    fail with [OSError] and a process may be killed anywhere, which releases
    its lock.  A JSON text is a value of type [T]: [json.dumps] and
    [json.loads] are parameters that round-trip.  A temporary file is counted,
    not named ([mkstemp] makes fresh names).  A features file is created first
    and then filled by any number of writes, so that a failure or a kill leaves
    a part of it.  The comment each document starts with is left out: nothing
    changes it. *)

From stdpp Require Import sorting.
From S2P Require Import Prelude PyStr PyData Regex Registry.

(** ** The two documents *)
Record dtbs_doc := DtbsDoc { dd_format : option pystr; dd_root : pystr; dd_dtbs : dict dtb_entry }.
Record bundles_doc := BundlesDoc { bd_format : option pystr; bd_bundles : list bundle_entry; bd_kernels : dict kernel_entry }.
Definition dtbs_of (reg : registry) : dtbs_doc := DtbsDoc reg.(r_dtbs_format) reg.(r_root) reg.(r_dtbs).
Definition data_of (reg : registry) : bundles_doc := BundlesDoc reg.(r_format) reg.(r_bundles) reg.(r_kernels).
Definition assemble (d : dtbs_doc) (b : bundles_doc) : registry :=
  Registry d.(dd_format) d.(dd_root) d.(dd_dtbs) b.(bd_format) b.(bd_bundles) b.(bd_kernels).

(** ** The changes *)

(** A bundle in use keeps its kernel's bytes. *)
Definition kernel_pin (reg : registry) (kernel : pystr) (entry : kernel_entry) : res kernel_entry :=
  match dget kernel reg.(r_kernels) with
  | Some known =>
      need ((known.(k_build) == entry.(k_build)) && (known.(k_release) == entry.(k_release)) && (known.(k_image_sha256) == entry.(k_image_sha256)))
        (kernel ++ " in bundles.json names other bytes than " ++ entry.(k_build)) ;; Ok entry
  | None => Ok entry
  end.
Definition register_bundle (reg : registry) (name role kernel dtb release manifest changes date package source_commit : pystr) (notes : option pystr) (entry : kernel_entry) : res registry :=
  need (forallb (λ b, b_name b != name) reg.(r_bundles)) (name ++ " was registered meanwhile") ;;
  pin ← kernel_pin reg kernel entry;
  let kernels := if dmem kernel reg.(r_kernels) then reg.(r_kernels) else dset kernel pin reg.(r_kernels) in
  Ok (with_bundles (reg.(r_bundles) ++ [BundleEntry name role kernel dtb "built" "unknown" manifest release None (Some changes) notes (Some date) (Some package) (Some source_commit)])
        (with_kernels kernels reg)).

Inductive command :=
  | SetBundle (name : pystr) (a : set_args)
  | Describe (ident text : pystr)
  | AddDtb (today relative digest features : pystr) (base : option pystr) (kernel_requires notes : pystr) (patches config modules : list pystr)
  | Render
  | Register (name role kernel dtb release manifest changes date package source_commit : pystr) (notes : option pystr) (entry : kernel_entry).

(** ** The processes *)

(** Where a process is.  [Loaded] to [Finished] hold the lock; a registry is
    what the process has in memory. *)
Inductive pc :=
  | Start
  | Locked
  | Half (d : dtbs_doc)
  | Loaded (reg : registry)
  | Changed (ident : pystr) (reg : registry) (* [add-dtb]: the features file comes next *)
  | Featuring (path rest : pystr) (reg : registry) (* it exists; [rest] is still to be written *)
  | Ready (reg : registry)
  | Temp1 (reg : registry)                   (* the new dtbs.json under a temporary name *)
  | First (reg : registry)
  | Temp2 (reg : registry)
  | Second (reg : registry)
  | Writing (text : pystr)                   (* docs/bundles.md is truncated *)
  | Finished (r : res unit)
  | Done (r : res unit)
  | Killed.
Definition holds (p : pc) : bool := match p with Start | Done _ | Killed => false | _ => true end.

Section store.
Context (patch_exists : pystr → bool) (cmd : Z → command).
Context {T : Type} (dump_dtbs : dtbs_doc → T) (load_dtbs : T → res dtbs_doc) (dump_data : bundles_doc → T) (load_data : T → res bundles_doc).

Record store := Store {
  dtbs_json : T; bundles_json : T; doc : option pystr; features : gmap pystr pystr; temporaries : nat;
  lock : option Z; procs : gmap Z pc
}.
Definition at_pc (s : store) (p : Z) : pc := default Start (s.(procs) !! p).
Definition goto (p : Z) (c : pc) (s : store) : store :=
  Store s.(dtbs_json) s.(bundles_json) s.(doc) s.(features) s.(temporaries) s.(lock) (<[p := c]> s.(procs)).
Definition set_lock (l : option Z) (s : store) : store :=
  Store s.(dtbs_json) s.(bundles_json) s.(doc) s.(features) s.(temporaries) l s.(procs).
Definition set_temporaries (n : nat) (s : store) : store :=
  Store s.(dtbs_json) s.(bundles_json) s.(doc) s.(features) n s.(lock) s.(procs).
Definition set_doc (d : option pystr) (s : store) : store :=
  Store s.(dtbs_json) s.(bundles_json) d s.(features) s.(temporaries) s.(lock) s.(procs).
Definition replace_dtbs (d : dtbs_doc) (s : store) : store :=
  Store (dump_dtbs d) s.(bundles_json) s.(doc) s.(features) (pred s.(temporaries)) s.(lock) s.(procs).
Definition replace_data (b : bundles_doc) (s : store) : store :=
  Store s.(dtbs_json) (dump_data b) s.(doc) s.(features) (pred s.(temporaries)) s.(lock) s.(procs).

Definition change (c : command) (reg : registry) : res registry :=
  match c with
  | SetBundle name a => change_set reg name a
  | Describe ident text => change_describe reg ident text
  | AddDtb today relative digest features base kernel_requires notes patches config modules =>
      change_add_dtb patch_exists reg today relative digest features base kernel_requires notes patches config modules
  | Render => Ok reg
  | Register name role kernel dtb release manifest changes date package source_commit notes entry =>
      register_bundle reg name role kernel dtb release manifest changes date package source_commit notes entry
  end.
Definition is_add (c : command) : bool := match c with AddDtb _ _ _ _ _ _ _ _ _ _ => true | _ => false end.

(** The file stands beside the DTB it describes: the text to write, or none
    when it is there already. *)
Definition write_features (ident : pystr) (reg : registry) (files : gmap pystr pystr) : res (pystr * option pystr) :=
  entry ← dtb reg ident;
  let text := features_text ident entry in
  match files !! entry.(d_path) with
  | Some old => need (old == text) "features exists with other content" ;; Ok (entry.(d_path), None)
  | None => Ok (entry.(d_path), Some text)
  end.
(** A beginning of the text reaches the file. *)
Definition put_features (path text : pystr) (s : store) : store :=
  Store s.(dtbs_json) s.(bundles_json) s.(doc) (<[path := default [] (s.(features) !! path) ++ text]> s.(features)) s.(temporaries) s.(lock) s.(procs).

Definition continue {A} (p : Z) (r : res A) (k : A → store → store) (s : store) : store :=
  match r with Ok a => k a s | Raise e => goto p (Finished (Raise e)) s end.
(** The next call of process [p] succeeds. *)
Definition run (p : Z) (s : store) : option store :=
  match at_pc s p with
  | Start => match s.(lock) with None => Some (goto p Locked (set_lock (Some p) s)) | Some _ => None end
  | Locked => Some (continue p (load_dtbs s.(dtbs_json)) (λ d, goto p (Half d)) s)
  | Half d =>
      Some (continue p (data ← load_data s.(bundles_json); let reg := assemble d data in validate patch_exists reg ;; Ok reg)
        (λ reg, goto p (Loaded reg)) s)
  | Loaded reg =>
      Some (continue p (change (cmd p) reg)
        (λ reg', goto p (if is_add (cmd p) then Changed (next_dtb_id reg) reg' else Ready reg')) s)
  | Changed ident reg =>
      Some (continue p (write_features ident reg s.(features))
        (λ '(path, text) s, match text with
           | Some text => goto p (Featuring path text reg) (put_features path [] s)
           | None => goto p (Ready reg) s
           end) s)
  | Featuring path rest reg => Some (goto p (Ready reg) (put_features path rest s))
  | Ready reg => Some (continue p (validate patch_exists reg) (λ _ s, goto p (Temp1 reg) (set_temporaries (S s.(temporaries)) s)) s)
  | Temp1 reg => Some (goto p (First reg) (replace_dtbs (dtbs_of reg) s))
  | First reg => Some (goto p (Temp2 reg) (set_temporaries (S s.(temporaries)) s))
  | Temp2 reg => Some (goto p (Second reg) (replace_data (data_of reg) s))
  | Second reg => Some (continue p (render reg) (λ text s, goto p (Writing text) (set_doc None s)) s)
  | Writing text => Some (goto p (Finished (Ok ())) (set_doc (Some text) s))
  | Finished r => Some (goto p (Done r) (set_lock None s))
  | Done _ | Killed => None
  end.
(** The next call of [p] raises [OSError]; [write_json] removes its temporary
    file. *)
Definition fail (p : Z) (s : store) : option store :=
  let stop := Finished (Raise (Exn OSError "")) in
  match at_pc s p with
  | Start => Some (goto p (Done (Raise (Exn OSError ""))) s)
  | Temp1 _ | Temp2 _ => Some (goto p stop (set_temporaries (pred s.(temporaries)) s))
  | Finished _ | Done _ | Killed => None
  | _ => Some (goto p stop s)
  end.
Definition kill (p : Z) (s : store) : option store :=
  match at_pc s p with
  | Done _ | Killed => None
  | c => Some (goto p Killed (if holds c then set_lock None s else s))
  end.
(** A write takes [n] bytes of the features file. *)
Definition put (p : Z) (n : nat) (s : store) : option store :=
  match at_pc s p with
  | Featuring path rest reg => Some (goto p (Featuring path (drop n rest) reg) (put_features path (take n rest) s))
  | _ => None
  end.
Inductive action := Run (p : Z) | Puts (p : Z) (n : nat) | Fails (p : Z) | Kill (p : Z).
Definition step (a : action) (s : store) : option store :=
  match a with Run p => run p s | Puts p n => put p n s | Fails p => fail p s | Kill p => kill p s end.
Fixpoint execute (l : list action) (s : store) : option store :=
  match l with [] => Some s | a :: l => s ← step a s; execute l s end.

(** ** The specification: one command after another *)
Fixpoint replay (h : list Z) (reg : registry) : res registry :=
  match h with [] => Ok reg | p :: h => reg ← change (cmd p) reg; replay h reg end.
End store.

(** ** Rendering cannot fail after validation *)
Lemma chain_length reg o l : base_chain reg o l → (length l ≤ length reg.(r_dtbs))%nat.
Proof.
  intros H. rewrite <- (length_fmap fst reg.(r_dtbs)). apply submseteq_length, NoDup_submseteq; [by eapply base_chain_NoDup |].
  by eapply base_chain_keys.
Qed.
Lemma required_modules_loop_ok reg ident o l : base_chain reg o l → ∀ fuel modules seen, (length l ≤ fuel)%nat → (∀ i, i ∈ l → i ∉ seen) →
  is_ok (required_modules_loop fuel reg ident modules seen o) = true.
Proof.
  induction 1 as [|cur entry l He H IH]; intros fuel modules seen Hf Hseen; [by destruct fuel |].
  destruct fuel as [|fuel]; [simpl in Hf; lia |]. simpl in Hf |- *. rewrite need_pass.
  2: { apply negb_true_iff, not_true_iff_false. rewrite is_in_elem. apply Hseen. by left. }
  rewrite He. simpl. apply IH; [lia |]. intros i Hi. rewrite elem_of_app, list_elem_of_singleton. intros [Hs| ->].
  - eapply Hseen; [by right | done].
  - assert (Hn : NoDup (cur :: l)) by (eapply base_chain_NoDup; by econstructor). by apply NoDup_cons in Hn as [Hn _].
Qed.
Lemma needs_text_ok reg ident : is_ok (requirements reg ident) = true → is_ok (needs_text reg ident) = true.
Proof.
  rewrite is_ok_true. intros [[ps cfg] Hr]. pose proof Hr as (l & Hl & _)%requirements_Ok. unfold needs_text. rewrite Hr. simpl.
  assert (Hm : is_ok (required_modules reg ident) = true).
  { unfold required_modules. pose proof (required_modules_loop_ok reg ident _ l Hl (S (length (r_dtbs reg))) ∅ []) as Hm.
    pose proof (chain_length _ _ _ Hl). destruct (required_modules_loop _ _ _ _ _ _); [done |]. apply Hm; [lia | set_solver]. }
  destruct (required_modules reg ident) as [ms|]; [simpl | done]. inversion Hl as [|? entry l' He]; subst. by rewrite He.
Qed.
Lemma map_res_ok {A B} (f : A → res B) l : Forall (λ x, is_ok (f x) = true) l → is_ok (map_res f l) = true.
Proof.
  induction 1 as [|x l Hx Hl IH]; [done |]. simpl. destruct (f x); [| done]. simpl. by destruct (map_res f l).
Qed.
Lemma render_ok patch_exists reg : validate patch_exists reg = Ok () → ∃ text, render reg = Ok text.
Proof.
  intros [(_ & _ & _ & Hreq & _) _]%validate_Ok. apply is_ok_true. unfold render, render_lines.
  assert (H : is_ok (map_res (dtb_row reg) (merge_sort newer (r_dtbs reg))) = true).
  { apply map_res_ok. rewrite merge_sort_Permutation. eapply Forall_impl; [exact Hreq |]. intros [ident d] Hi. simpl in Hi.
    apply needs_text_ok in Hi. unfold dtb_row. by destruct (needs_text reg ident). }
  by destruct (map_res _ _).
Qed.

(** ** A command changes one of the two documents *)
Lemma assemble_halves reg : assemble (dtbs_of reg) (data_of reg) = reg.
Proof. by destruct reg. Qed.
Lemma halves_eq reg reg' : dtbs_of reg' = dtbs_of reg → data_of reg' = data_of reg → reg' = reg.
Proof. intros H1 H2. by rewrite <- (assemble_halves reg), <- (assemble_halves reg'), H1, H2. Qed.
Lemma change_one_half patch_exists c reg reg' : change patch_exists c reg = Ok reg' → dtbs_of reg' = dtbs_of reg ∨ data_of reg' = data_of reg.
Proof.
  destruct c; simpl; intros H.
  - unfold change_set in H. bind_inv H as b Hb. injection H as <-. by left.
  - unfold change_describe in H. destruct (fullmatch KERNEL ident).
    + guard_inv H as Hg. injection H as <-. by left.
    + bind_inv H as d Hd. injection H as <-. by right.
  - unfold change_add_dtb in H. bind_inv H as u Hu. guard_inv H as Hg. bind_inv H as q Hq. bind_inv H as v Hv. injection H as <-. by right.
  - injection H as <-. by left.
  - unfold register_bundle in H. guard_inv H as Hg. bind_inv H as pin Hp. injection H as <-. by left.
Qed.

(** ** Registering a bundle *)
Lemma validate_kernels patch_exists kernels reg : tables_ok patch_exists reg → Forall (λ item, validate_kernel item = Ok ()) kernels →
  tables_ok patch_exists (with_kernels kernels reg).
Proof.
  intros (H1 & H2 & H3 & H4 & _) Hk. split_and!; [done | done | done | | done].
  eapply Forall_impl; [exact H4 |]. intros item Hi. cbv beta in *. by rewrite (requirements_dtbs reg).
Qed.
Lemma kernel_pin_Ok reg kernel entry pin : kernel_pin reg kernel entry = Ok pin → pin = entry ∧
  ∀ known, dget kernel reg.(r_kernels) = Some known → k_build known = k_build entry ∧ k_release known = k_release entry ∧ k_image_sha256 known = k_image_sha256 entry.
Proof.
  unfold kernel_pin. destruct (dget kernel _) as [known|]; [| intros [= <-]; by split].
  intros H. guard_inv H as [[H1%bool_decide_eq_true H2%bool_decide_eq_true]%andb_true_iff H3%bool_decide_eq_true]%andb_true_iff.
  injection H as <-. split; [done |]. by intros ? [= <-].
Qed.
(** A bundle of a fresh name of the scheme, for a known DTB and a kernel the
    registry accepts, is registered, and the registry stays valid. *)
Lemma register_valid patch_exists reg name role kernel dtb release manifest changes date package source_commit notes entry pin :
  validate patch_exists reg = Ok () → (∀ b, b ∈ reg.(r_bundles) → b_name b ≠ name) → kernel_pin reg kernel entry = Ok pin →
  validate_kernel (kernel, entry) = Ok () → k_release entry = release → loader_name_ok name = true → new_name_groups name = Some (role, kernel, dtb) →
  role ∈ ROLES → dtb ∈ reg.(r_dtbs).*1 → fullmatch SHA manifest = true →
  ∃ reg', register_bundle reg name role kernel dtb release manifest changes date package source_commit notes entry = Ok reg' ∧ validate patch_exists reg' = Ok ().
Proof.
  intros [Ht Hb]%validate_Ok Hfresh Hpin Hk Hrel Hload Hgroups Hrole Hdtb Hman. unfold register_bundle.
  rewrite need_pass; [| apply forallb_forall; intros b Hin; apply negb_true_iff, bool_decide_eq_false, Hfresh; by apply list_elem_of_In].
  rewrite Hpin, Ok_bind. apply kernel_pin_Ok in Hpin as [-> Hknown]. eexists. split; [reflexivity |].
  set (kernels := if dmem kernel (r_kernels reg) then _ else _).
  assert (Forall (λ item, validate_kernel item = Ok ()) kernels ∧ (∀ k v, dget k reg.(r_kernels) = Some v → dget k kernels = Some v) ∧
    ∃ k, dget kernel kernels = Some k ∧ k_release k = release) as (Hks & Hkeep & Hget).
  { unfold kernels. destruct Ht as (_ & _ & _ & _ & Hold). destruct (dmem kernel (r_kernels reg)) eqn:Hm.
    - split_and!; [done | done |]. apply dmem_spec, dget_mem in Hm as [known Hkn]. exists known. split; [done |]. by destruct (Hknown known Hkn) as (_ & -> & _).
    - apply dmem_false in Hm. assert (dget kernel (r_kernels reg) = None) as Hn by (by apply eq_None_not_Some; rewrite <- dget_mem).
      split_and!.
      + rewrite dset_fresh by done. apply Forall_app. split; [done |]. by apply Forall_singleton.
      + intros k v Hkv. rewrite dget_dset. case_bool_decide; [congruence | done].
      + exists entry. rewrite dget_dset, bool_decide_eq_true_2 by done. done. }
  apply validate_Ok. split.
  - destruct (validate_kernels patch_exists kernels reg Ht Hks) as (H1 & H2 & H3 & H4 & H5). split_and!; [done | done | done | | done].
    eapply Forall_impl; [exact H4 |]. intros item Hi. cbv beta in *. by rewrite (requirements_dtbs (with_kernels kernels reg)).
  - destruct Hb as (Hall & Hnd & Hcount). split_and!; simpl.
    + apply Forall_app. split.
      * eapply Forall_impl; [exact Hall |]. intros b (G1 & G2 & G3 & G4 & G5 & G6 & (k & Hkk & Hkr) & G8). split_and!; try done. exists k. split; [by apply Hkeep | done].
      * apply Forall_singleton. destruct Hget as (k & Hkk & Hkr). split_and!; simpl; try done; [by left | by do 2 right; left | by exists k |]. by rewrite Hgroups.
    + rewrite map_app. simpl. apply NoDup_snoc. split; [| done]. intros (b & Hbn & Hin)%list_elem_of_fmap. by apply (Hfresh b Hin).
    + intros s Hs. unfold count_status. rewrite filter_app, len_app, filter_cons_False; [simpl; change (len []) with 0; rewrite Z.add_0_r; by apply Hcount |].
      simpl. intros <-. done.
Qed.

(** ** Serialization *)
Section serial.
Context (patch_exists : pystr → bool) (cmd : Z → command).
Context {T : Type} (dump_dtbs : dtbs_doc → T) (load_dtbs : T → res dtbs_doc) (dump_data : bundles_doc → T) (load_data : T → res bundles_doc).
Context (Hdtbs : ∀ d, load_dtbs (dump_dtbs d) = Ok d) (Hdata : ∀ b, load_data (dump_data b) = Ok b).
Context (reg0 : registry).
Abbreviation change := (change patch_exists).
Abbreviation validate := (validate patch_exists).
Abbreviation replay := (replay patch_exists cmd).
Abbreviation step := (step patch_exists cmd dump_dtbs load_dtbs dump_data load_data).

(** What process [p] at [c] knows when the commands [h] are in the files, with
    registry [cur] and document [d]. *)
Definition pc_ok (h : list Z) (cur : registry) (d : option pystr) (p : Z) (c : pc) : Prop :=
  match c with
  | Start | Locked => p ∉ h
  | Half dtbs => (p ∉ h) ∧ dtbs = dtbs_of cur
  | Loaded reg => (p ∉ h) ∧ reg = cur
  | Changed _ reg | Featuring _ _ reg | Ready reg => (p ∉ h) ∧ change (cmd p) cur = Ok reg
  | Temp1 reg => (p ∉ h) ∧ change (cmd p) cur = Ok reg ∧ validate reg = Ok ()
  | First reg | Temp2 reg => ((p ∉ h) ∧ change (cmd p) cur = Ok reg ∧ validate reg = Ok () ∧ dtbs_of reg = dtbs_of cur) ∨ (p ∈ h ∧ cur = reg)
  | Second reg => p ∈ h ∧ cur = reg
  | Writing text => p ∈ h ∧ render cur = Ok text
  | Finished (Ok _) => p ∈ h ∧ ∃ text, d = Some text ∧ render cur = Ok text
  | Done (Ok _) => p ∈ h
  | Finished (Raise e) | Done (Raise e) => e.(exn_cls) = OSError ∨ p ∉ h
  | Killed => True
  end.
Record serial (s : store) (h : list Z) (cur : registry) : Prop := {
  ser_replay : replay h reg0 = Ok cur;
  ser_once : NoDup h;
  ser_valid : validate cur = Ok ();
  ser_dtbs : s.(dtbs_json) = dump_dtbs (dtbs_of cur);
  ser_data : s.(bundles_json) = dump_data (data_of cur);
  ser_lock p : holds (at_pc s p) = true ↔ s.(lock) = Some p;
  ser_pc p : pc_ok h cur s.(doc) p (at_pc s p)
}.

Lemma at_pc_goto (s s' : store (T := T)) p c q : s'.(procs) = <[p := c]> s.(procs) → at_pc s' q = if decide (q = p) then c else at_pc s q.
Proof. intros H. unfold at_pc. rewrite H. case_decide as Hq; [subst; by rewrite lookup_insert_eq | by rewrite lookup_insert_ne]. Qed.
(** A process without the lock knows only whether its command is done. *)
Lemma pc_ok_idle h h' cur cur' d d' p c : holds c = false → (p ∈ h ↔ p ∈ h') → pc_ok h cur d p c → pc_ok h' cur' d' p c.
Proof. intros Hc Hh. destruct c as [| | | | | | | | | | | | |[]|]; simpl in *; try done; by rewrite Hh. Qed.

(** The lock after [p] has gone to [c]. *)
Definition lock_after (s s' : store (T := T)) (p : Z) (c : pc) : Prop :=
  if holds c then s'.(lock) = Some p ∧ (s.(lock) = Some p ∨ s.(lock) = None)
  else s'.(lock) = if holds (at_pc s p) then None else s.(lock).
Lemma lock_goto (s s' : store (T := T)) p c : (∀ q, holds (at_pc s q) = true ↔ s.(lock) = Some q) → s'.(procs) = <[p := c]> s.(procs) →
  lock_after s s' p c → ∀ q, holds (at_pc s' q) = true ↔ s'.(lock) = Some q.
Proof.
  intros Hs Hp Hl q. rewrite (at_pc_goto s s' p c q Hp). unfold lock_after in Hl. destruct (holds c) eqn:Hc.
  - destruct Hl as [-> Hl]. case_decide as Hq; [subst; by rewrite Hc |]. rewrite (Hs q). split; [| intros [= ->]; done].
    destruct Hl as [Hl|Hl]; rewrite Hl; [by intros [= ->] | done].
  - destruct (holds (at_pc s p)) eqn:Hpp; rewrite Hl; case_decide as Hq; subst; rewrite ?Hc; try rewrite (Hs q); try done.
    + apply Hs in Hpp as ->. split; [by intros [= ->] | done].
    + split; [done |]. intros H. apply Hs in H. congruence.
Qed.

(** A step that changes no command's standing. *)
Lemma serial_move s s' h cur p c : serial s h cur → s'.(dtbs_json) = s.(dtbs_json) → s'.(bundles_json) = s.(bundles_json) →
  s'.(procs) = <[p := c]> s.(procs) → lock_after s s' p c → (s'.(doc) = s.(doc) ∨ s.(lock) = Some p) → pc_ok h cur s'.(doc) p c → serial s' h cur.
Proof.
  intros Hs H1 H2 H3 H4 H5 H6. split; try apply Hs; rewrite ?H1, ?H2; try apply Hs.
  - eapply lock_goto; [apply Hs | done | done].
  - intros q. rewrite (at_pc_goto s s' p c q H3). case_decide as Hq; [by subst |]. destruct H5 as [->|H5]; [apply Hs |].
    eapply (pc_ok_idle h h cur cur (doc s)); [| done | apply Hs]. apply not_true_iff_false. rewrite (ser_lock _ _ _ Hs q), H5. by intros [= ->].
Qed.
Lemma replay_snoc h p cur reg : replay h reg0 = Ok cur → change (cmd p) cur = Ok reg → replay (h ++ [p]) reg0 = Ok reg.
Proof.
  generalize reg0. induction h as [|q h IH]; intros r; simpl.
  - intros [= ->] H. by rewrite H.
  - intros H Hc. bind_inv H as r1 Hr1. rewrite Hr1. simpl. by apply IH.
Qed.
(** A step that commits the command of [p]. *)
Lemma serial_commit s s' h cur p c reg : serial s h cur → s.(lock) = Some p → p ∉ h → change (cmd p) cur = Ok reg → validate reg = Ok () →
  s'.(dtbs_json) = dump_dtbs (dtbs_of reg) → s'.(bundles_json) = dump_data (data_of reg) → s'.(procs) = <[p := c]> s.(procs) →
  lock_after s s' p c → pc_ok (h ++ [p]) reg s'.(doc) p c → serial s' (h ++ [p]) reg.
Proof.
  intros Hs Hl Hp Hc Hv H1 H2 H3 H4 H5. split; try done.
  - eapply replay_snoc; [apply Hs | done].
  - apply NoDup_app. split_and!; [apply Hs | | apply NoDup_singleton]. intros q Hq. rewrite list_elem_of_singleton. by intros ->.
  - eapply lock_goto; [apply Hs | done | done].
  - intros q. rewrite (at_pc_goto s s' p c q H3). case_decide as Hq; [by subst |].
    eapply (pc_ok_idle h); [| | apply Hs]; [apply not_true_iff_false; rewrite (ser_lock _ _ _ Hs q), Hl; by intros [= ->] |].
    rewrite elem_of_app, list_elem_of_singleton. naive_solver.
Qed.

Definition extends (s' : store) (h : list Z) (cur : registry) : Prop := ∃ h' cur', serial s' (h ++ h') cur' ∧ (h' = [] → cur' = cur).
Lemma extends_same s' h cur : serial s' h cur → extends s' h cur.
Proof. intros H. exists [], cur. by rewrite app_nil_r. Qed.

Lemma held_lock s h cur p : serial s h cur → holds (at_pc s p) = true → s.(lock) = Some p.
Proof. intros Hs H. by apply (ser_lock _ _ _ Hs). Qed.
Lemma continue_serial {A} s s' h cur p (r : res A) k : serial s h cur → holds (at_pc s p) = true → (∀ e, r = Raise e → p ∉ h) →
  (∀ a, r = Ok a → serial (k a s) h cur) → continue p r k s = s' → serial s' h cur.
Proof.
  intros Hs Hh Hp Hk H. pose proof (held_lock _ _ _ _ Hs Hh) as Hl. destruct r as [a|e]; simpl in H; subst s'; [by apply Hk |].
  eapply serial_move; [done | done | done | done | split; [done | by left] | by left |]. right. by eapply Hp.
Qed.

Lemma serial_run s s' h cur p : serial s h cur → step (Run p) s = Some s' → extends s' h cur.
Proof using Hdtbs Hdata.
  intros Hs H. pose proof (ser_pc _ _ _ Hs p) as Hpc. simpl in H. unfold run in H.
  assert (Hheld : holds (at_pc s p) = true → lock s = Some p) by (intros; by eapply held_lock).
  assert (Hmove : ∀ s1 c, dtbs_json s1 = dtbs_json s → bundles_json s1 = bundles_json s → procs s1 = <[p := c]> (procs s) →
    lock_after s s1 p c → doc s1 = doc s → pc_ok h cur (doc s1) p c → serial s1 h cur).
  { intros s1 c H1 H2 H3 H4 H5 H6. eapply serial_move; [done..| by left | done]. }
  destruct (at_pc s p) as [| |d|reg|ident reg|path rest reg|reg|reg|reg|reg|reg|text|r|r|] eqn:Hat; simpl in Hpc, Hheld; try specialize (Hheld eq_refl).
  - destruct (lock s) eqn:Hl; [done |]. injection H as <-. apply extends_same. eapply Hmove; [done | done | done | split; [done | by right] | done | done].
  - injection H as H. apply extends_same. eapply continue_serial; [done | by rewrite Hat | by intros; first [apply Hpc | apply Hp] | | exact H].
    intros d Hd. rewrite (ser_dtbs _ _ _ Hs), Hdtbs in Hd. injection Hd as <-.
    eapply Hmove; [done | done | done | split; [done | by left] | done | done].
  - destruct Hpc as [Hp ->]. injection H as H. apply extends_same. eapply continue_serial; [done | by rewrite Hat | by intros; first [apply Hpc | apply Hp] | | exact H].
    intros reg Hr. rewrite (ser_data _ _ _ Hs), Hdata in Hr. simpl in Hr. rewrite assemble_halves, (ser_valid _ _ _ Hs) in Hr.
    injection Hr as <-. eapply Hmove; [done | done | done | split; [done | by left] | done | done].
  - destruct Hpc as [Hp ->]. injection H as H. apply extends_same. eapply continue_serial; [done | by rewrite Hat | by intros; first [apply Hpc | apply Hp] | | exact H].
    intros reg' Hr. destruct (is_add (cmd p)); (eapply Hmove; [done | done | done | split; [done | by left] | done | done]).
  - injection H as H. apply extends_same. eapply continue_serial; [done | by rewrite Hat | by intros; first [apply Hpc | apply Hp] | | exact H].
    intros [path [text|]] _; (eapply Hmove; [done | done | done | split; [done | by left] | done | done]).
  - injection H as <-. apply extends_same. eapply Hmove; [done | done | done | split; [done | by left] | done | done].
  - injection H as H. apply extends_same. eapply continue_serial; [done | by rewrite Hat | by intros; first [apply Hpc | apply Hp] | | exact H].
    intros [] Hv. eapply Hmove; [done | done | done | split; [done | by left] | done | by destruct Hpc].
  - injection H as <-. destruct Hpc as (Hp & Hc & Hv). destruct (change_one_half _ _ _ _ Hc) as [Hhalf|Hhalf].
    + apply extends_same. eapply Hmove; [| done | done | split; [done | by left] | done | by left]. simpl. by rewrite Hhalf, (ser_dtbs _ _ _ Hs).
    + exists [p], reg. split; [| done]. eapply serial_commit; [done.. | | done | split; [done | by left] |].
      * simpl. by rewrite Hhalf, (ser_data _ _ _ Hs).
      * right. split; [set_solver | done].
  - injection H as <-. apply extends_same. eapply Hmove; [done | done | done | split; [done | by left] | done | done].
  - injection H as <-. destruct Hpc as [(Hp & Hc & Hv & Hhalf)|[Hp ->]].
    + exists [p], reg. split; [| done]. eapply serial_commit; [done.. | | done | done | split; [done | by left] |].
      * simpl. by rewrite Hhalf, (ser_dtbs _ _ _ Hs).
      * split; [set_solver | done].
    + apply extends_same. eapply Hmove; [done | | done | split; [done | by left] | done | done]. simpl. by rewrite (ser_data _ _ _ Hs).
  - destruct Hpc as [Hp ->]. injection H as H. apply extends_same. eapply continue_serial; [done | by rewrite Hat | | | exact H].
    { intros e He. destruct (render_ok patch_exists reg) as [text Ht]; [apply Hs | congruence]. }
    intros text Ht. eapply serial_move; [done | done | done | done | split; [done | by left] | by right | done].
  - injection H as <-. apply extends_same. eapply serial_move; [done | done | done | done | split; [done | by left] | by right |].
    destruct Hpc as [Hp Ht]. by split; [| exists text].
  - injection H as <-. apply extends_same. eapply Hmove; [done | done | done | | done |].
    + unfold lock_after. simpl. by rewrite Hat.
    + destruct r; [by destruct Hpc | done].
  - done.
  - done.
Qed.
Lemma serial_step a s s' h cur : serial s h cur → step a s = Some s' → extends s' h cur.
Proof using Hdtbs Hdata.
  destruct a as [p|p n|p|p]; intros Hs H; [by eapply serial_run | | |].
  all: pose proof (held_lock _ _ _ p Hs) as Hheld; pose proof (ser_pc _ _ _ Hs p) as Hpc; simpl in H; unfold put, fail, kill in H; apply extends_same.
  - destruct (at_pc s p) eqn:Hat; try discriminate. injection H as <-. eapply serial_move; [done | done | done | done | (split; [by apply Hheld | left; by apply Hheld]) | by left | done].
  - destruct (at_pc s p) eqn:Hat; try discriminate; injection H as <-; simpl in Hheld; try specialize (Hheld eq_refl).
    all: (eapply serial_move; [done | done | done | done | | by left | by left]); first [by split; [| left] | unfold lock_after; by rewrite Hat].
  - assert (Hk : s' = goto p Killed (if holds (at_pc s p) then set_lock None s else s)) by (destruct (at_pc s p); congruence).
    subst s'. clear H. eapply (serial_move s _ h cur p Killed); [done | by destruct (holds _).. | | left; by destruct (holds _) | done].
    unfold lock_after. simpl. by destruct (holds _).
Qed.

Definition starts (s : store) : Prop :=
  s.(dtbs_json) = dump_dtbs (dtbs_of reg0) ∧ s.(bundles_json) = dump_data (data_of reg0) ∧ s.(lock) = None ∧ s.(procs) = ∅.
Lemma serial_start s : starts s → validate reg0 = Ok () → serial s [] reg0.
Proof.
  intros (H1 & H2 & H3 & H4) Hv. assert (Hpc : ∀ p, at_pc s p = Start) by (intros p; unfold at_pc; by rewrite H4, lookup_empty).
  split; try done; [constructor | intros p; by rewrite Hpc, H3 | intros p; rewrite Hpc; apply not_elem_of_nil].
Qed.
Abbreviation execute := (execute patch_exists cmd dump_dtbs load_dtbs dump_data load_data).
Lemma serial_execute l s s' h cur : serial s h cur → execute l s = Some s' → ∃ h' cur', serial s' (h ++ h') cur'.
Proof using Hdtbs Hdata.
  revert s h cur. induction l as [|a l IH]; intros s h cur Hs; simpl; [intros [= <-]; exists [], cur; by rewrite app_nil_r |].
  intros (s1 & H1 & H)%bind_Some. destruct (serial_step _ _ _ _ _ Hs H1) as (h1 & cur1 & Hs1 & _).
  destruct (IH _ _ _ Hs1 H) as (h2 & cur2 & Hs2). exists (h1 ++ h2), cur2. by rewrite app_assoc.
Qed.
Lemma replay_app h1 h2 r r1 : replay h1 r = Ok r1 → replay (h1 ++ h2) r = replay h2 r1.
Proof.
  revert r. induction h1 as [|p h1 IH]; intros r; simpl; [by intros [= ->] |]. intros H. bind_inv H as r' Hr. rewrite Hr. simpl. by apply IH.
Qed.

(** C8. Registry changes serialize, whatever calls fail and whichever
    processes are killed.  At every moment the two files hold a valid registry
    that is the result of some commands run one after another, each process's
    at most once; no update is lost or torn.  The order is that of real time:
    what is in the files after [l1] comes before what [l2] adds, a process
    that has ended normally is in it and one that has not started is not.  A
    process that ends with a refusal has changed nothing, and one that is about
    to end normally has left the document of exactly the current registry. *)
Theorem transactions_serialize s0 l1 s1 l2 s2 : starts s0 → validate reg0 = Ok () → execute l1 s0 = Some s1 → execute l2 s1 = Some s2 →
  ∃ h1 h2 cur1 cur2, replay h1 reg0 = Ok cur1 ∧ replay h2 cur1 = Ok cur2 ∧ NoDup (h1 ++ h2) ∧
    s2.(dtbs_json) = dump_dtbs (dtbs_of cur2) ∧ s2.(bundles_json) = dump_data (data_of cur2) ∧ validate cur2 = Ok () ∧
    (∀ p, (at_pc s1 p = Done (Ok ()) → p ∈ h1) ∧ (at_pc s1 p = Start → p ∉ h1)) ∧
    (∀ p, (at_pc s2 p = Done (Ok ()) → p ∈ h1 ++ h2) ∧
          (∀ e, at_pc s2 p = Done (Raise e) → e.(exn_cls) ≠ OSError → p ∉ h1 ++ h2) ∧
          (at_pc s2 p = Finished (Ok ()) → ∃ text, s2.(doc) = Some text ∧ render cur2 = Ok text)).
Proof using Hdtbs Hdata.
  intros Hs0 Hv H1 H2. destruct (serial_execute _ _ _ _ _ (serial_start _ Hs0 Hv) H1) as (h1 & cur1 & Hs1).
  destruct (serial_execute _ _ _ _ _ Hs1 H2) as (h2 & cur2 & Hs2). exists h1, h2, cur1, cur2.
  split_and!; try apply Hs1; try apply Hs2.
  - rewrite <- (replay_app h1 h2 reg0); [apply Hs2 | apply Hs1].
  - intros p. pose proof (ser_pc _ _ _ Hs1 p) as Hp. split; intros Hat; rewrite Hat in Hp; done.
  - intros p. pose proof (ser_pc _ _ _ Hs2 p) as Hp. split_and!; [intros Hat | intros e Hat He | intros Hat]; rewrite Hat in Hp; simpl in Hp.
    + done.
    + by destruct Hp.
    + apply Hp.
Qed.
End serial.

(** ** Three processes, one killed between its two writes *)
Definition text : Type := dtbs_doc + bundles_doc.
Definition as_dtbs (t : text) : res dtbs_doc := match t with inl d => Ok d | inr _ => Raise (Exn ValueError "") end.
Definition as_data (t : text) : res bundles_doc := match t with inr b => Ok b | inl _ => Raise (Exn ValueError "") end.
Definition sample_commands (p : Z) : command :=
  if p =? 1 then SetBundle "main-k111-d10-260102a" sample_set
  else if p =? 2 then Register "main-k112-d11-260103a" "main" "k112" "d11" "7.2.7-rog5-k112" ZERO_SHA "audio" "2026-01-03" "package-main-k112-d11-260103a" "0123456789ab" None
    (KernelEntry "rog5-kernel-7.2-build-r112" ZERO_SHA "7.2.7-rog5-k112" None None None None None)
  else if p =? 3 then AddDtb "2026-01-03" "audio/board.dtb" (replicate 64 "1"%char) "dts,audio" (Some ("d10" : pystr)) "" "" [] ["CONFIG_SND=y" : pystr] []
  else Describe "k999" "unknown".
Definition sample_store : store (T := text) :=
  Store (inl (dtbs_of sample_registry)) (inr (data_of sample_registry)) None ∅ 0 None ∅.
Definition sample_execute (l : list action) (s : store (T := text)) : store (T := text) :=
  default s (execute only_panel sample_commands inl as_dtbs inr as_data l s).
(** 1 runs to its end while 2 fails to open the directory; then 3 is killed
    after its first [os.replace], 4 is refused and 5 keeps waiting. *)
Definition first_actions : list action := Fails 2 :: replicate 11 (Run 1).
Definition later_actions : list action := replicate 5 (Run 3) ++ [Puts 3 4] ++ replicate 3 (Run 3) ++ [Kill 3] ++ replicate 5 (Run 4).
Definition sample_s1 : store (T := text) := sample_execute first_actions sample_store.
Definition sample_s2 : store (T := text) := sample_execute later_actions sample_s1.
Lemma transactions_serialize_witness :
  at_pc sample_s1 1 = Done (Ok ()) ∧ at_pc sample_s2 3 = Killed ∧ sample_s2.(temporaries) = 0%nat ∧
  ∃ h1 h2 cur2, replay only_panel sample_commands (h1 ++ h2) sample_registry = Ok cur2 ∧ 1 ∈ h1 ∧ (3 ∉ h1) ∧ (4 ∉ h1 ++ h2) ∧
    validate only_panel cur2 = Ok () ∧ sample_s2.(dtbs_json) = inl (dtbs_of cur2) ∧ dmem "d11" cur2.(r_dtbs) = true.
Proof.
  assert (E1 : execute only_panel sample_commands inl as_dtbs inr as_data first_actions sample_store = Some sample_s1) by (vm_compute; reflexivity).
  assert (E2 : execute only_panel sample_commands inl as_dtbs inr as_data later_actions sample_s1 = Some sample_s2) by (vm_compute; reflexivity).
  assert (Hv : validate only_panel sample_registry = Ok ()) by (vm_compute; reflexivity).
  assert (P1 : at_pc sample_s1 1 = Done (Ok ())) by (vm_compute; reflexivity).
  assert (P3 : at_pc sample_s1 3 = Start) by (vm_compute; reflexivity).
  assert (P4 : ∃ e, at_pc sample_s2 4 = Done (Raise e) ∧ e.(exn_cls) ≠ OSError) by (eexists; split; [vm_compute; reflexivity | discriminate]).
  split; [exact P1 | split; [vm_compute; reflexivity | split; [vm_compute; reflexivity |]]].
  destruct (transactions_serialize only_panel sample_commands inl as_dtbs inr as_data (λ d, eq_refl) (λ b, eq_refl) sample_registry
    sample_store first_actions sample_s1 later_actions sample_s2 (conj eq_refl (conj eq_refl (conj eq_refl eq_refl))) Hv E1 E2)
    as (h1 & h2 & cur1 & cur2 & R1 & R2 & _ & Hd & _ & Hv2 & Hp & Hp2).
  exists h1, h2, cur2. destruct P4 as (e & P4 & He).
  split; [rewrite (replay_app _ _ _ _ _ _ R1); exact R2 | split; [exact (proj1 (Hp 1) P1) | split; [exact (proj2 (Hp 3) P3) |]]].
  split; [exact (proj1 (proj2 (Hp2 4)) e P4 He) | split; [exact Hv2 | split; [exact Hd |]]].
  assert (D : ∀ t : text, t = inl (dtbs_of cur2) → r_dtbs cur2 = match t with inl d => dd_dtbs d | inr _ => [] end) by (intros t ->; reflexivity).
  rewrite (D _ Hd). vm_compute. reflexivity.
Defined.
