(* ===== verification/Json.v ===== *)
(** * JSON values as Python holds them

    What [json.loads] returns and the operations the host tools apply to it:
    [dict.get], [isinstance], [str], [int] and [==].  Only integers occur as
    numbers in the documents modelled, so there is no constructor for floats;
    an object is the list of its members in the order of the text, the last
    of two equal keys counting. *)

From S2P Require Import Prelude PyStr.

Unset Elimination Schemes.
Inductive json :=
  | JNull
  | JBool (b : bool)
  | JInt (n : Z)
  | JStr (s : pystr)
  | JList (l : list json)
  | JObj (members : list (pystr * json)).
Set Elimination Schemes.

(** The induction principle with the hypotheses for the members. *)
Section json_ind.
Variable P : json → Prop.
Hypotheses (Hnull : P JNull) (Hbool : ∀ b, P (JBool b)) (Hint : ∀ n, P (JInt n)) (Hstr : ∀ s, P (JStr s)).
Hypothesis Hlist : ∀ l, Forall P l → P (JList l).
Hypothesis Hobj : ∀ o, Forall (λ kv, P kv.2) o → P (JObj o).
Fixpoint json_induction (j : json) : P j :=
  match j with
  | JNull => Hnull
  | JBool b => Hbool b
  | JInt n => Hint n
  | JStr s => Hstr s
  | JList l => Hlist l ((fix go l := match l return Forall P l with
                                     | [] => Forall_nil_2 _
                                     | x :: l => Forall_cons_2 _ _ _ (json_induction x) (go l) end) l)
  | JObj o => Hobj o ((fix go o := match o return Forall (λ kv, P kv.2) o with
                                   | [] => Forall_nil_2 _
                                   | x :: o => Forall_cons_2 _ _ _ (json_induction x.2) (go o) end) o)
  end.
End json_ind.

(** ** Members *)
Fixpoint member (k : pystr) (o : list (pystr * json)) : option json :=
  match o with
  | [] => None
  | (k', v) :: o => match member k o with Some v' => Some v' | None => if k' == k then Some v else None end
  end.

(** [d.get(k, default)] for a [dict]; other values have no such method. *)
Definition get_or (d : json) (k : pystr) (dflt : json) : res json :=
  match d with
  | JObj o => Ok (default dflt (member k o))
  | _ => Raise (Exn AttributeError "get")
  end.
Definition get (d : json) (k : pystr) : res json := get_or d k JNull.

(** [d[k]] for a [dict]. *)
Definition item (d : json) (k : pystr) : res json :=
  match d with
  | JObj o => of_option (member k o) KeyError k
  | JList _ | JStr _ => Raise (Exn TypeError "indices must be integers")
  | _ => Raise (Exn TypeError "not subscriptable")
  end.

Definition is_dict (j : json) : bool := match j with JObj _ => true | _ => false end.
Definition is_list (j : json) : bool := match j with JList _ => true | _ => false end.
Definition is_true (j : json) : bool := match j with JBool true => true | _ => false end.

(** ** [str] and [int]
    The text of a list or an object is only its opening bracket: every use
    matches it against a pattern of word characters. *)
Definition py_str (j : json) : pystr :=
  match j with
  | JNull => "None"
  | JBool true => "True"
  | JBool false => "False"
  | JInt n => str_of_Z n
  | JStr s => s
  | JList _ => "["
  | JObj _ => "{"
  end.

(** [int(text)]: surrounding whitespace, a sign, and single underscores
    between digits are accepted. *)
Fixpoint digits_ok (s : pystr) (after_digit : bool) : bool :=
  match s with
  | [] => after_digit
  | c :: s => if is_digit c then digits_ok s true
              else (c == "_"%char) && after_digit && digits_ok s false
  end.
Definition int_of_str (s : pystr) : res Z :=
  let t := strip s in
  let '(sign, body) := match t with
                       | c :: r => if c == "-"%char then (-1, r) else if c == "+"%char then (1, r) else (1, t)
                       | [] => (1, t) end in
  need (digits_ok body false) "invalid literal for int() with base 10" ;;
  Ok (sign * int10 (filter (λ c, c ≠ "_"%char) body)).
Definition py_int (j : json) : res Z :=
  match j with
  | JInt n => Ok n
  | JBool b => Ok (if b then 1 else 0)
  | JStr s => int_of_str s
  | _ => Raise (Exn TypeError "int() argument must be a string or a number")
  end.

(** ** [==]
    Objects are equal when they hold the same members in any order, and
    booleans are the integers 0 and 1. *)
Definition num (j : json) : option Z :=
  match j with JInt n => Some n | JBool b => Some (if b then 1 else 0) | _ => None end.
Definition keys_unique (o : list (pystr * json)) : bool := bool_decide (NoDup o.*1).
Fixpoint json_eq (a b : json) {struct a} : bool :=
  match a, b with
  | JNull, JNull => true
  | JStr s, JStr t => s == t
  | JList l, JList m =>
      (fix go l m {struct l} := match l, m with
        | [], [] => true
        | x :: l, y :: m => json_eq x y && go l m
        | _, _ => false
        end) l m
  | JObj o, JObj p =>
      (len o =? len p) &&
      (fix go o {struct o} := match o with
        | [] => true
        | (k, v) :: o => match member k p with Some w => json_eq v w | None => false end && go o
        end) o
  | _, _ => match num a, num b with Some n, Some m => n =? m | _, _ => false end
  end.

(** Objects without repeated keys, which is what [json.loads] and a [dict]
    display give. *)
Fixpoint well_keyed (j : json) : Prop :=
  match j with
  | JList l => (fix go l := match l with [] => True | x :: l => well_keyed x ∧ go l end) l
  | JObj o => NoDup o.*1 ∧ (fix go o := match o with [] => True | kv :: o => well_keyed kv.2 ∧ go o end) o
  | _ => True
  end.

Lemma member_in k o v : NoDup o.*1 → (k, v) ∈ o → member k o = Some v.
Proof.
  induction o as [|[k' v'] o IH]; simpl; [set_solver |]. intros [Hn Hd]%NoDup_cons [[= -> ->]|Hin]%elem_of_cons.
  - assert (member k' o = None) as ->; [| by rewrite bool_decide_true].
    clear -Hn. induction o as [|[k v] o IH]; [done |]. simpl in *. rewrite not_elem_of_cons in Hn.
    destruct Hn as [Hk Hn]. rewrite (IH Hn), bool_decide_false; naive_solver.
  - by rewrite (IH Hd Hin).
Qed.

Lemma json_eq_refl j : well_keyed j → json_eq j j = true.
Proof.
  induction j as [| | | |l IH|o IH] using json_induction; try done.
  - intros _. destruct b; done.
  - intros _. simpl. by apply Z.eqb_refl.
  - intros _. simpl. by apply bool_decide_eq_true.
  - simpl. induction IH as [|x l Hx _ IHl]; [done |]. intros [Hw Hl]. rewrite Hx by done. simpl. auto.
  - simpl. intros [Hn Hw]. rewrite Z.eqb_refl. simpl.
    assert (∀ p, Forall (λ kv, well_keyed kv.2 → json_eq kv.2 kv.2 = true) p → p ⊆ o →
      (fix go o := match o with [] => True | kv :: o => well_keyed kv.2 ∧ go o end) p →
      (fix go p := match p with
        | [] => true
        | (k, v) :: p => match member k o with Some w => json_eq v w | None => false end && go p end) p = true) as H.
    { intros p Hp. induction Hp as [|[k v] p Hv _ IHp]; intros Hs; [done |]. intros [Hw1 Hw2].
      rewrite (member_in k o v) by (done || (apply Hs; by left)). simpl in Hv. rewrite (Hv Hw1). simpl.
      apply IHp; [| done]. intros x Hx. apply Hs. by right. }
    by apply H.
Qed.
