(* ===== verification/Gpt.v ===== *)
(** * GUID partition tables

    The on-disk part of scripts/device/collect-readonly-storage-inventory.py:
    [read_at], [parse_gpt_header] and [parse_gpt] over the contents of a block
    device, with CRC-32, GUID texts and UTF-16 names computed.  A name is held
    as its UTF-8 encoding.  Reads go through [read_at] only, and a device of
    the given contents answers every read inside it in full. *)

From S2P Require Import Prelude PyStr Json.

Definition NUL : ascii := "000"%char.

(** ** [binascii.crc32] *)
Definition CRC_POLY : Z := 3988292384. (* 0xEDB88320 *)
Definition crc_bit (c : Z) : Z :=
  if Z.testbit c 0 then Z.lxor (Z.shiftr c 1) CRC_POLY else Z.shiftr c 1.
Definition crc_byte (crc : Z) (b : ascii) : Z := Nat.iter 8 crc_bit (Z.lxor crc (ord b)).
Definition crc32 (data : bytes) : Z := Z.lxor (foldl crc_byte 4294967295 data) 4294967295.

(** ** [str(uuid.UUID(bytes_le=b))] *)
Definition uuid_le (b : bytes) : pystr :=
  hex_fixed 8 (le_int (slice b 0 4)) ++ "-" ++ hex_fixed 4 (le_int (slice b 4 2)) ++ "-"
  ++ hex_fixed 4 (le_int (slice b 6 2)) ++ "-" ++ hex_fixed 4 (be_int (slice b 8 2)) ++ "-"
  ++ hex_fixed 12 (be_int (slice b 10 6)).

(** ** [bytes.decode("utf-16-le", errors="strict")] *)
Fixpoint units (b : bytes) : option (list Z) :=
  match b with
  | [] => Some []
  | [_] => None
  | lo :: hi :: b => us ← units b; Some (ord lo + 256 * ord hi :: us)
  end.
Definition utf8 (c : Z) : pystr :=
  if c <? 128 then [chr c]
  else if c <? 2048 then [chr (192 + c / 64); chr (128 + c mod 64)]
  else if c <? 65536 then [chr (224 + c / 4096); chr (128 + c / 64 mod 64); chr (128 + c mod 64)]
  else [chr (240 + c / 262144); chr (128 + c / 4096 mod 64); chr (128 + c / 64 mod 64); chr (128 + c mod 64)].
Definition is_high (u : Z) : bool := (55296 <=? u) && (u <? 56320).
Definition is_low (u : Z) : bool := (56320 <=? u) && (u <? 57344).
Fixpoint decode_units (us : list Z) : option pystr :=
  match us with
  | [] => Some []
  | u :: us =>
      if is_high u then
        match us with
        | v :: us => if is_low v
                     then s ← decode_units us; Some (utf8 (65536 + (u - 55296) * 1024 + (v - 56320)) ++ s)
                     else None
        | [] => None
        end
      else if is_low u then None
      else s ← decode_units us; Some (utf8 u ++ s)
  end.
Definition decode_utf16le (b : bytes) : res pystr := of_option (units b ≫= decode_units) UnicodeError "utf-16-le".

(** ** The header *)
Definition GPT_HEADER_SIZE : Z := 92.
Definition ZERO_GUID : bytes := replicate 16 NUL.
Definition MAX_GPT_TABLE_BYTES : Z := 16 * 1024 * 1024.
Definition SIGNATURE : bytes := "EFI PART".

(** [os.pread] of a file descriptor whose file has these contents. *)
Definition read_at (image : bytes) (offset size : Z) : res bytes :=
  refuse_if (2 ^ 63 <=? offset) OverflowError "Python int too large to convert to C long" ;;
  let data := if len image <=? offset then [] else slice image offset size in
  refuse_if (negb (len data =? size)) InventoryError
    ("short block read at offset " ++ str_of_Z offset ++ ": expected " ++ str_of_Z size ++ ", got " ++ str_of_Z (len data)) ;;
  Ok data.

Record gpt_header := GptHeader {
  g_revision : pystr;
  g_header_size : Z;
  g_header_crc32 : pystr;
  g_header_crc32_valid : bool;
  g_current_lba : Z;
  g_backup_lba : Z;
  g_first_usable_lba : Z;
  g_last_usable_lba : Z;
  g_disk_guid : pystr;
  g_entries_lba : Z;
  g_entry_count : Z;
  g_entry_size : Z;
  g_entries_crc32 : pystr;
  g_table_bytes : Z
}.
#[export] Instance gpt_header_eq_dec : EqDecision gpt_header.
Proof. solve_decision. Defined.

(** [struct.Struct("<8sIIIIQQQQ16sQIII")], field by field. *)
Definition parse_gpt_header (raw : bytes) (logical_block_bytes : Z) : res gpt_header :=
  refuse_if (negb (len raw =? logical_block_bytes)) InventoryError "GPT header block has the wrong size" ;;
  refuse_if (len raw <? GPT_HEADER_SIZE) StructError "unpack_from requires a buffer of at least 92 bytes" ;;
  let signature := slice raw 0 8 in
  let revision := le_int (slice raw 8 4) in
  let header_size := le_int (slice raw 12 4) in
  let stored_crc32 := le_int (slice raw 16 4) in
  let reserved := le_int (slice raw 20 4) in
  let current_lba := le_int (slice raw 24 8) in
  let backup_lba := le_int (slice raw 32 8) in
  let first_usable_lba := le_int (slice raw 40 8) in
  let last_usable_lba := le_int (slice raw 48 8) in
  let disk_guid := slice raw 56 16 in
  let entries_lba := le_int (slice raw 72 8) in
  let entry_count := le_int (slice raw 80 4) in
  let entry_size := le_int (slice raw 84 4) in
  let entries_crc32 := le_int (slice raw 88 4) in
  refuse_if (signature != SIGNATURE) InventoryError "GPT signature is absent" ;;
  refuse_if (negb ((GPT_HEADER_SIZE <=? header_size) && (header_size <=? logical_block_bytes)))
    InventoryError "GPT header size is invalid" ;;
  refuse_if (negb (reserved =? 0)) InventoryError "GPT reserved field is nonzero" ;;
  refuse_if (negb ((1 <=? entry_count) && (entry_count <=? 4096))) InventoryError
    "GPT entry count is outside the reviewed bound" ;;
  refuse_if ((entry_size <? 128) || (4096 <? entry_size) || negb (entry_size mod 8 =? 0)) InventoryError
    "GPT entry size is outside the reviewed bound" ;;
  let table_bytes := entry_count * entry_size in
  refuse_if (MAX_GPT_TABLE_BYTES <? table_bytes) InventoryError "GPT entry table exceeds the reviewed bound" ;;
  let checked := slice raw 0 16 ++ replicate 4 NUL ++ slice raw 20 (header_size - 20) in
  let actual_crc32 := crc32 checked in
  Ok (GptHeader ("0x" ++ hex_fixed 8 revision) header_size (hex_fixed 8 stored_crc32) (actual_crc32 =? stored_crc32)
        current_lba backup_lba first_usable_lba last_usable_lba (uuid_le disk_guid) entries_lba entry_count
        entry_size (hex_fixed 8 entries_crc32) table_bytes).

(** ** The entries *)
Record gpt_entry := GptEntry {
  e_number : Z;
  e_type_guid : pystr;
  e_unique_guid : pystr;
  e_first_lba : Z;
  e_last_lba : Z;
  e_size_lba : Z;
  e_offset_bytes : Z;
  e_size_bytes : Z;
  e_attributes : pystr;
  e_name : pystr
}.
#[export] Instance gpt_entry_eq_dec : EqDecision gpt_entry.
Proof. solve_decision. Defined.

Record gpt := Gpt {
  primary : gpt_header;
  backup : gpt_header;
  primary_entries_crc32_valid : bool;
  primary_backup_crosscheck : bool;
  partitions : list gpt_entry
}.

Definition parse_entry (table : bytes) (entry_size logical_block_bytes : Z) (acc : list gpt_entry) (number : Z)
    : res (list gpt_entry) :=
  let entry := slice table ((number - 1) * entry_size) entry_size in
  let type_guid := slice entry 0 16 in
  let unique_guid := slice entry 16 16 in
  let first_lba := le_int (slice entry 32 8) in
  let last_lba := le_int (slice entry 40 8) in
  let attributes := le_int (slice entry 48 8) in
  if type_guid == ZERO_GUID then Ok acc
  else
    refuse_if (last_lba <? first_lba) InventoryError ("GPT partition " ++ str_of_Z number ++ " has reversed bounds") ;;
    name ← decode_utf16le (slice entry 56 (entry_size - 56));
    let name := default [] (head (split_on NUL name)) in
    Ok (acc ++ [GptEntry number (uuid_le type_guid) (uuid_le unique_guid) first_lba last_lba (last_lba - first_lba + 1)
                  (first_lba * logical_block_bytes) ((last_lba - first_lba + 1) * logical_block_bytes)
                  ("0x" ++ hex_fixed 16 attributes) name]).

Definition crosscheck (p b : gpt_header) : bool :=
  (p.(g_disk_guid) == b.(g_disk_guid)) && (p.(g_current_lba) =? b.(g_backup_lba))
  && (p.(g_backup_lba) =? b.(g_current_lba)) && (p.(g_first_usable_lba) =? b.(g_first_usable_lba))
  && (p.(g_last_usable_lba) =? b.(g_last_usable_lba)) && (p.(g_entry_count) =? b.(g_entry_count))
  && (p.(g_entry_size) =? b.(g_entry_size)) && (p.(g_entries_crc32) == b.(g_entries_crc32)).

Definition parse_gpt (device : bytes) (logical_block_bytes size_bytes : Z) : res gpt :=
  primary_raw ← read_at device logical_block_bytes logical_block_bytes;
  p ← parse_gpt_header primary_raw logical_block_bytes;
  let table_offset := p.(g_entries_lba) * logical_block_bytes in
  table ← read_at device table_offset p.(g_table_bytes);
  let table_crc32 := crc32 table in
  entries ← fold_res (parse_entry table p.(g_entry_size) logical_block_bytes) [] (seqZ 1 p.(g_entry_count));
  let backup_offset := p.(g_backup_lba) * logical_block_bytes in
  refuse_if (size_bytes <? backup_offset + logical_block_bytes) InventoryError "backup GPT header lies beyond the disk" ;;
  backup_raw ← read_at device backup_offset logical_block_bytes;
  b ← parse_gpt_header backup_raw logical_block_bytes;
  Ok (Gpt p b (table_crc32 =? int16 p.(g_entries_crc32)) (crosscheck p b) entries).

(** ** As JSON *)
Definition header_json (h : gpt_header) : json := JObj [
  ("revision" : pystr, JStr h.(g_revision)); ("header_size" : pystr, JInt h.(g_header_size));
  ("header_crc32" : pystr, JStr h.(g_header_crc32)); ("header_crc32_valid" : pystr, JBool h.(g_header_crc32_valid));
  ("current_lba" : pystr, JInt h.(g_current_lba)); ("backup_lba" : pystr, JInt h.(g_backup_lba));
  ("first_usable_lba" : pystr, JInt h.(g_first_usable_lba)); ("last_usable_lba" : pystr, JInt h.(g_last_usable_lba));
  ("disk_guid" : pystr, JStr h.(g_disk_guid)); ("entries_lba" : pystr, JInt h.(g_entries_lba));
  ("entry_count" : pystr, JInt h.(g_entry_count)); ("entry_size" : pystr, JInt h.(g_entry_size));
  ("entries_crc32" : pystr, JStr h.(g_entries_crc32)); ("table_bytes" : pystr, JInt h.(g_table_bytes))].

Definition entry_members (e : gpt_entry) : list (pystr * json) := [
  ("number" : pystr, JInt e.(e_number)); ("type_guid" : pystr, JStr e.(e_type_guid));
  ("unique_guid" : pystr, JStr e.(e_unique_guid)); ("first_lba" : pystr, JInt e.(e_first_lba));
  ("last_lba" : pystr, JInt e.(e_last_lba)); ("size_lba" : pystr, JInt e.(e_size_lba));
  ("offset_bytes" : pystr, JInt e.(e_offset_bytes)); ("size_bytes" : pystr, JInt e.(e_size_bytes));
  ("attributes" : pystr, JStr e.(e_attributes)); ("name" : pystr, JStr e.(e_name))].
Definition entry_json (e : gpt_entry) : json := JObj (entry_members e).

(** ** A reference writer
    What a partitioning tool writes: the header block and the entry of a
    partition, in the layout of the UEFI specification. *)
Record raw_header := RawHeader {
  w_revision : Z; w_header_size : Z; w_current : Z; w_backup : Z; w_first : Z; w_last : Z;
  w_guid : bytes; w_entries_lba : Z; w_count : Z; w_size : Z; w_entries_crc : Z
}.
Definition header_with_crc (h : raw_header) (crc : Z) : bytes :=
  SIGNATURE ++ le_bytes 4 h.(w_revision) ++ le_bytes 4 h.(w_header_size) ++ le_bytes 4 crc ++ replicate 4 NUL
  ++ le_bytes 8 h.(w_current) ++ le_bytes 8 h.(w_backup) ++ le_bytes 8 h.(w_first) ++ le_bytes 8 h.(w_last)
  ++ h.(w_guid) ++ le_bytes 8 h.(w_entries_lba) ++ le_bytes 4 h.(w_count) ++ le_bytes 4 h.(w_size)
  ++ le_bytes 4 h.(w_entries_crc).
(** The CRC covers the first [header_size] bytes with its own field zero; the
    rest of the block is zero. *)
Definition header_block (h : raw_header) (logical : Z) : bytes :=
  let zero := header_with_crc h 0 ++ replicate (Z.to_nat (logical - GPT_HEADER_SIZE)) NUL in
  header_with_crc h (crc32 (slice zero 0 h.(w_header_size))) ++ replicate (Z.to_nat (logical - GPT_HEADER_SIZE)) NUL.

(** ** CRC range *)
Definition u32 (n : Z) : Prop := 0 ≤ n < 2 ^ 32.
Lemma u32_testbit n : u32 n ↔ 0 ≤ n ∧ ∀ i, 32 ≤ i → Z.testbit n i = false.
Proof.
  unfold u32. split.
  - intros H. split; [lia |]. intros i Hi. rewrite Z.testbit_eqb by lia.
    rewrite Z.div_small; [done |]. split; [lia |]. apply Z.lt_le_trans with (2 ^ 32); [lia |]. apply Z.pow_le_mono_r; lia.
  - intros [H0 Hb]. split; [done |]. destruct (decide (n = 0)) as [->|Hn]; [lia |].
    apply Z.log2_lt_pow2; [lia |]. destruct (decide (Z.log2 n < 32)) as [|Hl]; [done |].
    specialize (Hb (Z.log2 n) ltac:(lia)). rewrite Z.bit_log2 in Hb by lia. done.
Qed.
Lemma u32_lxor a b : u32 a → u32 b → u32 (Z.lxor a b).
Proof.
  rewrite !u32_testbit. intros [Ha Hia] [Hb Hib]. split; [by apply Z.lxor_nonneg |].
  intros i Hi. by rewrite Z.lxor_spec, Hia, Hib.
Qed.
Lemma u32_shiftr a : u32 a → u32 (Z.shiftr a 1).
Proof. unfold u32. rewrite Z.shiftr_div_pow2 by lia. intros. split; [apply Z.div_pos; lia |]. apply Z.div_lt_upper_bound; lia. Qed.
Lemma u32_crc_bit c : u32 c → u32 (crc_bit c).
Proof. intros H. unfold crc_bit. destruct (Z.testbit c 0); [apply u32_lxor |]; try by apply u32_shiftr. by cbv. Qed.
Lemma u32_crc_byte c b : u32 c → u32 (crc_byte c b).
Proof.
  intros H. unfold crc_byte. assert (u32 (Z.lxor c (ord b))) as Hx.
  { apply u32_lxor; [done |]. pose proof (ord_range b). unfold u32. lia. }
  revert Hx. generalize (Z.lxor c (ord b)). intros z Hz.
  apply (Nat.iter_invariant 8 _ crc_bit u32); [apply u32_crc_bit | done].
Qed.
Lemma crc32_u32 data : u32 (crc32 data).
Proof.
  unfold crc32. apply u32_lxor; [| by cbv].
  assert (∀ d c, u32 c → u32 (foldl crc_byte c d)) as H; [| by apply H].
  induction d as [|b d IH]; intros c Hc; [done |]. simpl. by apply IH, u32_crc_byte.
Qed.

(** ** The header round trip *)
Record header_fields_ok (h : raw_header) (logical : Z) : Prop := HeaderFieldsOk {
  ok_logical : 512 ≤ logical;
  ok_revision : u32 h.(w_revision);
  ok_size : GPT_HEADER_SIZE ≤ h.(w_header_size) ≤ logical ∧ u32 h.(w_header_size);
  ok_lbas : Forall (λ n, 0 ≤ n < 2 ^ 64) [h.(w_current); h.(w_backup); h.(w_first); h.(w_last); h.(w_entries_lba)];
  ok_guid : len h.(w_guid) = 16;
  ok_count : 1 ≤ h.(w_count) ≤ 4096;
  ok_entry : 128 ≤ h.(w_size) ≤ 4096 ∧ h.(w_size) mod 8 = 0;
  ok_crc : u32 h.(w_entries_crc)
}.

Lemma header_with_crc_len h crc : len h.(w_guid) = 16 → len (header_with_crc h crc) = GPT_HEADER_SIZE.
Proof. intros H. unfold header_with_crc. rewrite !len_app, !le_bytes_len, H, len_replicate. done. Qed.
Lemma le_u32 n : u32 n → le_int (le_bytes 4 n) = n.
Proof. intros H. rewrite le_int_bytes. apply Z.mod_small. exact H. Qed.
Lemma le_u64 n : 0 ≤ n < 2 ^ 64 → le_int (le_bytes 8 n) = n.
Proof. intros H. rewrite le_int_bytes. apply Z.mod_small. exact H. Qed.

(** Only the CRC field differs between two headers with the same fields. *)
Lemma header_zeroed h crc pad n :
  len h.(w_guid) = 16 → 20 ≤ n →
  let raw := header_with_crc h crc ++ pad in
  slice raw 0 16 ++ replicate 4 NUL ++ slice raw 20 (n - 20) = slice (header_with_crc h 0 ++ pad) 0 n.
Proof.
  intros Hg Hn raw. unfold raw, header_with_crc.
  set (a := SIGNATURE ++ le_bytes 4 (w_revision h) ++ le_bytes 4 (w_header_size h)).
  set (t := replicate 4 NUL ++ le_bytes 8 (w_current h) ++ le_bytes 8 (w_backup h) ++ le_bytes 8 (w_first h)
    ++ le_bytes 8 (w_last h) ++ w_guid h ++ le_bytes 8 (w_entries_lba h) ++ le_bytes 4 (w_count h)
    ++ le_bytes 4 (w_size h) ++ le_bytes 4 (w_entries_crc h)).
  assert (len a = 16) as Ha by (unfold a; rewrite !len_app, !le_bytes_len; done).
  assert (∀ c, (SIGNATURE ++ le_bytes 4 (w_revision h) ++ le_bytes 4 (w_header_size h) ++ le_bytes 4 c ++ t) ++ pad
               = a ++ le_bytes 4 c ++ t ++ pad) as Hs by (intros c; unfold a; by rewrite <-!app_assoc).
  rewrite !Hs, slice_here by done.
  rewrite slice_skip, slice_skip by (rewrite ?le_bytes_len, ?Ha; lia).
  rewrite le_bytes_len, Ha. change (20 - 16 - Z.of_nat 4) with 0.
  change (le_bytes 4 0) with (replicate 4 NUL).
  set (b := replicate 4 NUL). unfold slice. change (Z.to_nat 0) with 0%nat. rewrite !drop_0.
  assert (length (a ++ b) = 20%nat) as Hab by (unfold len in Ha; rewrite length_app; subst b; rewrite length_replicate; lia).
  rewrite !(app_assoc a b). rewrite (take_app_ge (a ++ b)) by lia. rewrite Hab. do 2 f_equal. lia.
Qed.

Ltac lens := rewrite ?len_app, ?le_bytes_len, ?len_replicate; change (len SIGNATURE) with 8.
(** Reads the next field of a packed header. *)
Ltac field_at :=
  repeat (rewrite slice_skip by (lens; lia)); rewrite slice_first by (lens; lia).

Lemma header_fields h crc pad :
  len h.(w_guid) = 16 →
  let raw := header_with_crc h crc ++ pad in
  slice raw 0 8 = SIGNATURE ∧ slice raw 8 4 = le_bytes 4 h.(w_revision) ∧
  slice raw 12 4 = le_bytes 4 h.(w_header_size) ∧ slice raw 16 4 = le_bytes 4 crc ∧
  slice raw 20 4 = replicate 4 NUL ∧ slice raw 24 8 = le_bytes 8 h.(w_current) ∧
  slice raw 32 8 = le_bytes 8 h.(w_backup) ∧ slice raw 40 8 = le_bytes 8 h.(w_first) ∧
  slice raw 48 8 = le_bytes 8 h.(w_last) ∧ slice raw 56 16 = h.(w_guid) ∧
  slice raw 72 8 = le_bytes 8 h.(w_entries_lba) ∧ slice raw 80 4 = le_bytes 4 h.(w_count) ∧
  slice raw 84 4 = le_bytes 4 h.(w_size) ∧ slice raw 88 4 = le_bytes 4 h.(w_entries_crc).
Proof.
  intros Hg raw. unfold raw, header_with_crc. rewrite <-!app_assoc. split_and!; by field_at.
Qed.

(** Reading a header block written by a partitioning tool gives back every
    field, and its checksum is found valid.  The block is refused for nothing
    but the reviewed bounds. *)
Theorem gpt_header_round_trip h logical :
  header_fields_ok h logical →
  parse_gpt_header (header_block h logical) logical
  = Ok (GptHeader ("0x" ++ hex_fixed 8 h.(w_revision)) h.(w_header_size)
          (hex_fixed 8 (crc32 (slice (header_with_crc h 0 ++ replicate (Z.to_nat (logical - GPT_HEADER_SIZE)) NUL)
                                 0 h.(w_header_size))))
          true h.(w_current) h.(w_backup) h.(w_first) h.(w_last) (uuid_le h.(w_guid)) h.(w_entries_lba) h.(w_count)
          h.(w_size) (hex_fixed 8 h.(w_entries_crc)) (h.(w_count) * h.(w_size))).
Proof.
  intros [Hl Hr [[Hs1 Hs2] Hs] Hlbas Hg Hc [He Hm] Hcrc]. unfold header_block.
  set (pad := replicate _ NUL). set (crc := crc32 _). pose proof (crc32_u32 (slice (header_with_crc h 0 ++ pad) 0 (w_header_size h))) as Hu.
  fold crc in Hu. assert (len (header_with_crc h crc ++ pad) = logical) as Hlen.
  { unfold pad, GPT_HEADER_SIZE in *. rewrite len_app, header_with_crc_len, len_replicate by done. unfold GPT_HEADER_SIZE. lia. }
  destruct (header_fields h crc pad Hg) as (F1 & F2 & F3 & F4 & F5 & F6 & F7 & F8 & F9 & F10 & F11 & F12 & F13 & F14).
  rewrite !Forall_cons in Hlbas. destruct Hlbas as (H1 & H2 & H3 & H4 & H5 & _).
  unfold parse_gpt_header. rewrite Hlen. rewrite F1, F2, F3, F4, F5, F6, F7, F8, F9, F10, F11, F12, F13, F14.
  unfold GPT_HEADER_SIZE in *. unfold u32 in Hs, Hcrc, Hr.
  rewrite !le_u64, !le_u32 by (unfold u32; lia || done). change (le_int (replicate 4 NUL)) with 0.
  rewrite header_zeroed by (done || lia). fold crc.
  repeat (rewrite refuse_if_pass;
    [| first [done | by rewrite bool_decide_true | apply negb_false_iff; b2pg; lia | b2pg; lia
             | rewrite Hm; b2pg; split; [split |]; (done || lia)]]).
  rewrite refuse_if_pass by (unfold MAX_GPT_TABLE_BYTES; b2pg; nia).
  by rewrite Z.eqb_refl.
Qed.

Definition sample_header : raw_header :=
  RawHeader 65536 92 1 63 6 58 (map chr (seqZ 1 16)) 2 16 128 305419896.
Lemma gpt_header_round_trip_witness :
  header_fields_ok sample_header 512 ∧
  match parse_gpt_header (header_block sample_header 512) 512 with
  | Ok g => g.(g_header_crc32_valid) = true ∧ g.(g_backup_lba) = 63 ∧ g.(g_disk_guid) = "04030201-0605-0807-090a-0b0c0d0e0f10"
  | Raise _ => False
  end.
Proof.
  assert (header_fields_ok sample_header 512) as H.
  { constructor; unfold u32, GPT_HEADER_SIZE; simpl; [lia | lia | lia | | reflexivity | lia | done | lia].
    repeat (apply Forall_cons; split; [lia |]). apply Forall_nil_2. }
  split; [exact H |]. rewrite (gpt_header_round_trip sample_header 512 H). cbv beta iota. split_and!; reflexivity.
Defined.
