(* ===== verification/Inventory.v ===== *)
(** * The read-only storage inventory

    scripts/device/collect-readonly-storage-inventory.py around the partition
    tables of [Gpt]: sysfs texts, [uevent] and [blkid] parsing, the partition
    map of a disk, and the inventory document as a JSON value.  What the
    script reads of the running phone is the record [phone]. *)

From S2P Require Import Prelude PyStr Regex Json Gpt.

(** [p_text path] is [Path.read_text(encoding="utf-8", errors="strict")],
    [p_device] opens a block device and gives its contents, [p_blkid] is the
    [subprocess.run] of [blkid]: exit status, standard output and standard
    error, or the exception it raises. *)
Record phone := Phone {
  p_text : pystr → res pystr;
  p_exists : pystr → bool;
  p_children : pystr → list pystr;
  p_glob : pystr → pystr → list pystr;
  p_resolve : pystr → pystr;
  p_device : pystr → res bytes;
  p_blkid : pystr → res (Z * pystr * pystr);
  p_release : pystr;
  p_utc : pystr
}.

(** ** [shlex.split(line, posix=True)]
    The states of the tokenizer: between tokens, in a token, in a quotation,
    after a backslash (with the state to return to). *)
Inductive shlex_state := SBetween | SToken | SQuote (q : ascii) | SEscape (back : shlex_state).
Definition SINGLE : ascii := "'"%char.
Definition DOUBLE : ascii := "034"%char.
Definition BACKSLASH : ascii := "\"%char.
Definition shlex_space (c : ascii) : bool := (c == " "%char) || (c == "009"%char) || (c == LF) || (c == CR).
Definition is_quote (c : ascii) : bool := (c == SINGLE) || (c == DOUBLE).

(** A token is emitted when it holds a character or was quoted. *)
Definition emit (token : pystr) (quoted : bool) : list pystr := if (token != []) || quoted then [token] else [].

Fixpoint shlex (state : shlex_state) (token : pystr) (quoted : bool) (s : pystr) : res (list pystr) :=
  match s with
  | [] =>
      match state with
      | SBetween => Ok []
      | SToken => Ok (emit token quoted)
      | SQuote _ => Raise (Exn ValueError "No closing quotation")
      | SEscape _ => Raise (Exn ValueError "No escaped character")
      end
  | c :: s =>
      match state with
      | SBetween =>
          if shlex_space c then shlex SBetween [] false s
          else if c == BACKSLASH then shlex (SEscape SToken) [] false s
          else if is_quote c then shlex (SQuote c) [] false s
          else shlex SToken [c] false s
      | SToken =>
          if shlex_space c then ts ← shlex SBetween [] false s; Ok (emit token quoted ++ ts)
          else if is_quote c then shlex (SQuote c) token quoted s
          else if c == BACKSLASH then shlex (SEscape SToken) token quoted s
          else shlex SToken (token ++ [c]) quoted s
      | SQuote q =>
          if c == q then shlex SToken token true s
          else if (c == BACKSLASH) && (q == DOUBLE) then shlex (SEscape (SQuote q)) token true s
          else shlex (SQuote q) (token ++ [c]) true s
      | SEscape back =>
          match back with
          | SQuote q =>
              if (c != BACKSLASH) && (c != q) then shlex back (token ++ [BACKSLASH; c]) quoted s
              else shlex back (token ++ [c]) quoted s
          | _ => shlex back (token ++ [c]) quoted s
          end
      end
  end.
Definition shlex_split (s : pystr) : res (list pystr) := shlex SBetween [] false s.

(** ** Key-value texts
    The first occurrence of a key counts. *)
Definition first_value (values : list (pystr * pystr)) (field : pystr) : list (pystr * pystr) :=
  let '(key, separator, value) := partition "=" field in
  if separator && (key != []) && negb (bool_decide (key ∈ values.*1)) then values ++ [(key, value)] else values.

Definition uevent_values (payload : pystr) : list (pystr * pystr) := foldl first_value [] (splitlines payload).

(** [": " in line] and [line.split(": ", 1)]. *)
Fixpoint split_label (line : pystr) : option pystr :=
  match line with
  | [] => None
  | c :: line' => if startswith line ": " then Some (drop 2 line) else split_label line'
  end.
Definition blkid_line (values : list (pystr * pystr)) (line : pystr) : res (list (pystr * pystr)) :=
  match split_label line with
  | Some rest =>
      match shlex_split rest with
      | Ok fields => Ok (foldl first_value values fields)
      | Raise e => if bool_decide (exn_cls e = ValueError)
                   then Raise (Exn InventoryError "blkid returned malformed quoting") else Raise e
      end
  | None => Ok (first_value values line)
  end.
Definition parse_blkid_output (payload : pystr) : res (list (pystr * pystr)) :=
  fold_res blkid_line [] (splitlines payload).

Definition lookup_value (k : pystr) (values : list (pystr * pystr)) : option pystr :=
  snd <$> head (filter (λ kv, kv.1 = k) values).

(** ** Reading sysfs *)
Definition read_text (ph : phone) (path : pystr) (required : bool) : res (option pystr) :=
  match ph.(p_text) path with
  | Ok text => Ok (Some (strip text))
  | Raise e =>
      if bool_decide (exn_cls e = FileNotFoundError) then
        if required then Raise (Exn InventoryError ("required path is absent: " ++ path)) else Ok None
      else if is_oserror (exn_cls e) then
        if required then Raise (Exn InventoryError ("cannot read required path: " ++ path)) else Ok None
      else Raise e
  end.
Definition required_text (ph : phone) (path : pystr) : res pystr :=
  text ← read_text ph path true;
  of_option text AssertionError "".
Definition unsigned (ph : phone) (path : pystr) : res Z :=
  value ← required_text ph path;
  refuse_if (negb (isdecimal value)) InventoryError ("expected unsigned integer in " ++ path) ;;
  Ok (int10 value).
Definition uevent (ph : phone) (path : pystr) : res (list (pystr * pystr)) :=
  payload ← read_text ph path false;
  Ok (match payload with Some text => uevent_values text | None => [] end).

Definition opt_json (o : option pystr) : json := match o with Some s => JStr s | None => JNull end.
Definition values_json (values : list (pystr * pystr)) : json := JObj (map (λ kv, (kv.1, JStr kv.2)) values).

Definition probe_blkid (ph : phone) (device : pystr) : res json :=
  match ph.(p_blkid) device with
  | Raise e =>
      if bool_decide (exn_cls e = FileNotFoundError) then Ok (JObj [("status" : pystr, JStr "tool-unavailable")])
      else if bool_decide (exn_cls e = SubprocessError) then Ok (JObj [("status" : pystr, JStr "timeout")])
      else Raise e
  | Ok (returncode, stdout, stderr) =>
      values ← parse_blkid_output stdout;
      Ok (JObj [("status" : pystr, JStr (if returncode =? 0 then "identified" else "unidentified"));
                ("returncode" : pystr, JInt returncode); ("values" : pystr, values_json values);
                ("stderr" : pystr, JStr (strip stderr))])
  end.

(** ** One disk *)
Record sys_entry := SysEntry {
  s_name : pystr;
  s_number : Z;
  s_partition_name : option pystr;
  s_major_minor : pystr;
  s_read_only : Z;
  s_start_512_sectors : Z;
  s_size_512_sectors : Z;
  s_devtype : option pystr
}.
Definition sys_entry_json (s : sys_entry) : json := JObj [
  ("name" : pystr, JStr s.(s_name)); ("partition_number" : pystr, JInt s.(s_number));
  ("partition_name" : pystr, opt_json s.(s_partition_name)); ("major_minor" : pystr, JStr s.(s_major_minor));
  ("read_only" : pystr, JInt s.(s_read_only)); ("start_512_sectors" : pystr, JInt s.(s_start_512_sectors));
  ("size_512_sectors" : pystr, JInt s.(s_size_512_sectors)); ("devtype" : pystr, opt_json s.(s_devtype))].

(** [sorted(sys_block.glob(f"{disk}*"))]. *)
Definition block_names (ph : phone) (sys_block prefix : pystr) : list pystr :=
  sorted (filter (λ n, startswith n prefix = true) (ph.(p_children) sys_block)).

Definition partition_entry (ph : phone) (sys_block : pystr) (result : gmap Z sys_entry) (name : pystr)
    : res (gmap Z sys_entry) :=
  let candidate := sys_block ++ "/" ++ name in
  if negb (ph.(p_exists) (candidate ++ "/partition")) then Ok result
  else
    number ← unsigned ph (candidate ++ "/partition");
    values ← uevent ph (candidate ++ "/uevent");
    major_minor ← required_text ph (candidate ++ "/dev");
    read_only ← unsigned ph (candidate ++ "/ro");
    start ← unsigned ph (candidate ++ "/start");
    size ← unsigned ph (candidate ++ "/size");
    Ok (<[number := SysEntry name number (lookup_value "PARTNAME" values) major_minor read_only start size
                      (lookup_value "DEVTYPE" values)]> result).
Definition sysfs_partition_map (ph : phone) (sys_block disk : pystr) : res (gmap Z sys_entry) :=
  fold_res (partition_entry ph sys_block) ∅ (block_names ph sys_block disk).

(** An entry of the table with what sysfs says of it. *)
Definition geometry_match (s : sys_entry) (e : gpt_entry) : bool :=
  (s.(s_start_512_sectors) * 512 =? e.(e_offset_bytes)) && (s.(s_size_512_sectors) * 512 =? e.(e_size_bytes)).
Definition annotate (ph : phone) (dev_root : pystr) (m : gmap Z sys_entry) (acc : list json) (e : gpt_entry)
    : res (list json) :=
  match m !! e.(e_number) with
  | None => Ok (acc ++ [JObj (entry_members e ++ [("sysfs" : pystr, JNull)])])
  | Some s =>
      probe ← probe_blkid ph (dev_root ++ "/" ++ s.(s_name));
      Ok (acc ++ [JObj (entry_members e ++ [("sysfs" : pystr, sys_entry_json s);
             ("sysfs_gpt_geometry_match" : pystr, JBool (geometry_match s e)); ("filesystem_probe" : pystr, probe)])])
  end.

Definition gpt_json (g : gpt) (entries : list json) : json := JObj [
  ("primary" : pystr, header_json g.(primary)); ("backup" : pystr, header_json g.(backup));
  ("primary_entries_crc32_valid" : pystr, JBool g.(primary_entries_crc32_valid));
  ("primary_backup_crosscheck" : pystr, JBool g.(primary_backup_crosscheck)); ("partitions" : pystr, JList entries)].

Definition scsi_member (ph : phone) (device key : pystr) : res (pystr * json) :=
  text ← read_text ph (device ++ "/" ++ key) false; Ok (key, opt_json text).
Fixpoint map_m {A B} (f : A → res B) (l : list A) : res (list B) :=
  match l with [] => Ok [] | x :: l => y ← f x; ys ← map_m f l; Ok (y :: ys) end.

Definition inventory_disk (ph : phone) (sys_block dev_root name : pystr) : res json :=
  let disk_path := sys_block ++ "/" ++ name in
  logical_block_bytes ← unsigned ph (disk_path ++ "/queue/logical_block_size");
  size_512_sectors ← unsigned ph (disk_path ++ "/size");
  let size_bytes := size_512_sectors * 512 in
  parts ← sysfs_partition_map ph sys_block name;
  image ← ph.(p_device) (dev_root ++ "/" ++ name);
  g ← parse_gpt image logical_block_bytes size_bytes;
  entries ← fold_res (annotate ph dev_root parts) [] g.(partitions);
  major_minor ← required_text ph (disk_path ++ "/dev");
  read_only ← unsigned ph (disk_path ++ "/ro");
  physical ← unsigned ph (disk_path ++ "/queue/physical_block_size");
  scsi ← map_m (scsi_member ph (disk_path ++ "/device"))
           ["vendor" : pystr; "model" : pystr; "rev" : pystr; "type" : pystr; "wwid" : pystr];
  probe ← probe_blkid ph (dev_root ++ "/" ++ name);
  Ok (JObj [("name" : pystr, JStr name); ("major_minor" : pystr, JStr major_minor); ("read_only" : pystr, JInt read_only);
            ("size_512_sectors" : pystr, JInt size_512_sectors); ("size_bytes" : pystr, JInt size_bytes);
            ("logical_block_bytes" : pystr, JInt logical_block_bytes); ("physical_block_bytes" : pystr, JInt physical);
            ("sysfs_path" : pystr, JStr (ph.(p_resolve) disk_path)); ("scsi" : pystr, JObj scsi);
            ("disk_probe" : pystr, probe); ("gpt" : pystr, gpt_json g entries)]).

(** ** The document *)
Definition lines_json (text : pystr) : json := JList (map JStr (splitlines text)).
Definition mount_inventory (ph : phone) (proc_root : pystr) : res json :=
  mounts ← required_text ph (proc_root ++ "/mounts");
  mountinfo ← required_text ph (proc_root ++ "/self/mountinfo");
  swaps ← required_text ph (proc_root ++ "/swaps");
  Ok (JObj [("mounts" : pystr, lines_json mounts); ("mountinfo" : pystr, lines_json mountinfo);
            ("swaps" : pystr, lines_json swaps)]).

Definition CMDLINE_PREFIXES : list pystr :=
  ["androidboot.slot_suffix=" : pystr; "androidboot.bootdevice=" : pystr; "androidboot.boot_devices=" : pystr;
   "androidboot.vbmeta." : pystr; "androidboot.verifiedbootstate=" : pystr; "androidboot.device_state=" : pystr;
   "androidboot.serialno=" : pystr; "androidboot.fused" : pystr; "androidboot.bootreason=" : pystr].
(** [selected.setdefault(key, []).append(value)]. *)
Fixpoint append_value (key value : pystr) (d : list (pystr * list pystr)) : list (pystr * list pystr) :=
  match d with
  | [] => [(key, [value])]
  | (k, vs) :: d => if k == key then (k, vs ++ [value]) :: d else (k, vs) :: append_value key value d
  end.
Definition cmdline_token (selected : list (pystr * list pystr)) (token : pystr) : list (pystr * list pystr) :=
  if existsb (startswith token) CMDLINE_PREFIXES then
    let '(key, separator, value) := partition "=" token in append_value key (if separator then value else []) selected
  else selected.
Definition cmdline_fields (cmdline : pystr) : list (pystr * list pystr) := foldl cmdline_token [] (split_ws cmdline).

Definition list_paths (ph : phone) (root pattern : pystr) : json :=
  JList (map (λ p, JStr (ph.(p_resolve) p)) (sorted (ph.(p_glob) root pattern))).

Definition is_disk_name (name : pystr) : bool := fullmatch (RSeq (lit "sd") (plus is_lower)) name.
Definition is_disk (ph : phone) (sys_block name : pystr) : bool :=
  is_disk_name name && ph.(p_exists) (sys_block ++ "/" ++ name ++ "/device")
  && negb (ph.(p_exists) (sys_block ++ "/" ++ name ++ "/partition")).

Definition collect (ph : phone) (sys_root dev_root proc_root : pystr) : res json :=
  let sys_block := sys_root ++ "/class/block" in
  let disks := filter (λ n, is_disk ph sys_block n = true) (block_names ph sys_block "sd") in
  refuse_if (bool_decide (disks = [])) InventoryError "no SCSI/UFS disks were found" ;;
  cmdline ← required_text ph (proc_root ++ "/cmdline");
  boot_id ← required_text ph (proc_root ++ "/sys/kernel/random/boot_id");
  entries ← map_m (inventory_disk ph sys_block dev_root) disks;
  mounts ← mount_inventory ph proc_root;
  Ok (JObj [("format" : pystr, JStr "rog5-readonly-storage-inventory-v1"); ("captured_utc" : pystr, JStr ph.(p_utc));
            ("kernel_release" : pystr, JStr ph.(p_release)); ("boot_id" : pystr, JStr boot_id);
            ("cmdline" : pystr, JStr cmdline);
            ("boot_fields" : pystr, JObj (map (λ kv, (kv.1, JList (map JStr kv.2))) (cmdline_fields cmdline)));
            ("ufs" : pystr, JObj [
               ("platform_controllers" : pystr, list_paths ph (sys_root ++ "/bus/platform/drivers") "ufshcd-qcom/*");
               ("scsi_hosts" : pystr, list_paths ph (sys_root ++ "/class/scsi_host") "host*");
               ("scsi_disks" : pystr, list_paths ph (sys_root ++ "/class/scsi_disk") "*");
               ("rpmb_devices" : pystr, list_paths ph (sys_root ++ "/class") "rpmb/rpmb*")]);
            ("disks" : pystr, JList entries); ("mounts" : pystr, mounts)]).
