(* ===== verification/BackupPlan.v ===== *)
(** * The storage backup plan

    [backup_plan] and [gpt_backup_plan] of
    scripts/host/backup-readonly-storage-inventory.py over the inventory
    document, with the commands that read one planned range from the phone. *)

From S2P Require Import Prelude PyStr Regex Json Gpt.

Definition EXCLUDED_PARTITIONS : list pystr := ["super" : pystr; "userdata" : pystr].
Definition DISK_RE : rx := RSeq (lit "sd") (plus is_lower).
Definition DEVICE_RE : rx := RSeq (lit "sd") (RSeq (plus is_lower) (plus is_digit)).
Definition label_char (c : ascii) : bool := is_alnum c || one_of "_.+-" c.
Definition LABEL_RE : rx := rep 1 71 label_char.
Definition SHA256_RE : rx := rep 64 0 is_hex.
Definition UUID_RE : rx :=
  RSeq (rep 8 0 is_hex) (RSeq (times 3 (RSeq (lit "-") (rep 4 0 is_hex))) (RSeq (lit "-") (rep 12 0 is_hex))).

Record part_record := PartRecord {
  r_node : pystr;
  r_label : pystr;
  r_unique_guid : pystr;
  r_size_bytes : Z;
  r_size_512_sectors : Z;
  r_start_512_sectors : Z
}.

(** The local variables of the loop: [plan], [total], [seen_labels] and
    [seen_guids]. *)
Record plan_state := PlanState {
  ps_plan : list part_record;
  ps_total : Z;
  ps_labels : list pystr;
  ps_guids : list pystr
}.

Definition refuse (bad : bool) (msg : pystr) : res unit := refuse_if bad BackupError msg.
Definition is_in (x : pystr) (l : list pystr) : bool := bool_decide (x ∈ l).

Definition plan_entry (s : plan_state) (entry : json) : res plan_state :=
  refuse (negb (is_dict entry)) "inventory partition entry is invalid" ;;
  name ← get_or entry "name" (JStr "");
  let label := py_str name in
  refuse (negb (fullmatch LABEL_RE label)) ("unsafe partition label: " ++ label) ;;
  refuse (is_in label s.(ps_labels)) ("duplicate partition label: " ++ label) ;;
  let s := PlanState s.(ps_plan) s.(ps_total) (s.(ps_labels) ++ [label]) s.(ps_guids) in
  if is_in label EXCLUDED_PARTITIONS then Ok s
  else
    unique_guid ← get_or entry "unique_guid" (JStr "");
    let guid := py_str unique_guid in
    refuse (is_in guid s.(ps_guids) || negb (fullmatch UUID_RE guid)) ("invalid or duplicate partition GUID: " ++ guid) ;;
    sysfs ← get entry "sysfs";
    geometry ← get entry "sysfs_gpt_geometry_match";
    refuse (negb (is_dict sysfs) || negb (is_true geometry)) ("partition geometry is not exact: " ++ label) ;;
    node ← get_or sysfs "name" (JStr "");
    let node := py_str node in
    size_bytes ← get_or entry "size_bytes" (JInt (-1)); size_bytes ← py_int size_bytes;
    size_sectors ← get_or sysfs "size_512_sectors" (JInt (-1)); size_sectors ← py_int size_sectors;
    start_sectors ← get_or sysfs "start_512_sectors" (JInt (-1)); start_sectors ← py_int start_sectors;
    refuse (negb (fullmatch DEVICE_RE node) || (size_bytes <=? 0) || negb (size_bytes =? size_sectors * 512)
            || (start_sectors <? 0)) ("partition geometry is invalid: " ++ label) ;;
    Ok (PlanState (s.(ps_plan) ++ [PartRecord node label guid size_bytes size_sectors start_sectors])
          (s.(ps_total) + size_bytes) s.(ps_labels) (s.(ps_guids) ++ [guid])).

Definition list_of (j : json) : list json := match j with JList l => l | _ => [] end.

Definition plan_disk (s : plan_state) (disk : json) : res plan_state :=
  refuse (negb (is_dict disk)) "inventory disk name is invalid" ;;
  name ← get_or disk "name" (JStr "");
  refuse (negb (fullmatch DISK_RE (py_str name))) "inventory disk name is invalid" ;;
  gpt ← get disk "gpt";
  refuse (negb (is_dict gpt)) "inventory GPT record is invalid" ;;
  for_each (λ key, v ← get gpt key; refuse (negb (is_true v)) ("inventory GPT check failed: " ++ key))
    ["primary_entries_crc32_valid" : pystr; "primary_backup_crosscheck" : pystr] ;;
  primary ← get gpt "primary";
  backup ← get gpt "backup";
  refuse (negb (is_dict primary) || negb (is_dict backup)) "inventory GPT headers are invalid" ;;
  pv ← get primary "header_crc32_valid";
  bv ← get backup "header_crc32_valid";
  refuse (negb (is_true pv) || negb (is_true bv)) "inventory GPT header CRC is invalid" ;;
  partitions ← get gpt "partitions";
  refuse (negb (is_list partitions)) "inventory GPT partitions are invalid" ;;
  fold_res plan_entry s (list_of partitions).

Definition backup_plan (inventory : json) : res (list part_record * Z) :=
  disks ← get inventory "disks";
  refuse (negb (is_list disks) || negb (len (list_of disks) =? 7)) "inventory does not contain exactly seven UFS LUNs" ;;
  s ← fold_res plan_disk (PlanState [] 0 [] []) (list_of disks);
  refuse (negb (len s.(ps_labels) =? 109) || negb (len s.(ps_plan) =? 107))
    "partition selection is not the exact 109-minus-2 map" ;;
  Ok (s.(ps_plan), s.(ps_total)).

(** ** The GPT ranges *)
Record gpt_record := GptRecord {
  q_disk : pystr;
  q_disk_guid : json;
  q_disk_size_512_sectors : Z;
  q_logical_block_bytes : Z;
  q_role : pystr;
  q_offset_bytes : Z;
  q_size_bytes : Z
}.

Definition gpt_plan_disk (acc : list gpt_record * Z) (disk : json) : res (list gpt_record * Z) :=
  let '(plan, total) := acc in
  refuse (negb (is_dict disk)) "inventory disk record is invalid" ;;
  name ← get_or disk "name" (JStr "");
  let name := py_str name in
  refuse (negb (fullmatch DISK_RE name)) "inventory disk name is invalid" ;;
  logical ← get_or disk "logical_block_bytes" (JInt (-1)); logical ← py_int logical;
  size_bytes ← get_or disk "size_bytes" (JInt (-1)); size_bytes ← py_int size_bytes;
  size_sectors ← get_or disk "size_512_sectors" (JInt (-1)); size_sectors ← py_int size_sectors;
  gpt ← get disk "gpt";
  refuse ((logical <? 512) || (65536 <? logical) || negb (Z.land logical (logical - 1) =? 0)
          || negb (size_bytes =? size_sectors * 512) || negb (is_dict gpt)) ("invalid GPT disk geometry: " ++ name) ;;
  primary ← get gpt "primary";
  backup ← get gpt "backup";
  refuse (negb (is_dict primary) || negb (is_dict backup)) ("invalid GPT header record: " ++ name) ;;
  entries_lba ← item primary "entries_lba"; entries_lba ← py_int entries_lba;
  table_bytes ← item primary "table_bytes"; table_bytes ← py_int table_bytes;
  let primary_end := entries_lba * logical + table_bytes in
  let primary_bytes := (primary_end + logical - 1) / logical * logical in
  backup_lba ← item backup "entries_lba"; backup_lba ← py_int backup_lba;
  let backup_offset := backup_lba * logical in
  let backup_bytes := size_bytes - backup_offset in
  refuse ((primary_bytes <=? 2 * logical) || (1024 * 1024 <? primary_bytes) || (backup_offset <=? primary_bytes)
          || (backup_bytes <=? logical) || (1024 * 1024 <? backup_bytes) || negb (primary_bytes mod logical =? 0)
          || negb (backup_offset mod logical =? 0) || negb (backup_bytes mod logical =? 0))
    ("GPT backup range is invalid: " ++ name) ;;
  disk_guid ← item primary "disk_guid";
  let record role offset length := GptRecord name disk_guid size_sectors logical role offset length in
  Ok (plan ++ [record "primary" 0 primary_bytes; record "backup" backup_offset backup_bytes],
      total + primary_bytes + backup_bytes).

Definition gpt_backup_plan (inventory : json) : res (list gpt_record * Z) :=
  disks ← get inventory "disks";
  refuse (negb (is_list disks) || negb (len (list_of disks) =? 7)) "inventory does not contain exactly seven UFS LUNs" ;;
  fold_res gpt_plan_disk ([], 0) (list_of disks).

(** ** The commands *)
(** [shlex.quote]. *)
Definition quote_safe (c : ascii) : bool := is_alnum c || one_of "_@%+=:,./-" c.
Definition SINGLE : ascii := "'"%char.
Definition DQ : ascii := "034"%char.
Definition shlex_quote (s : pystr) : pystr :=
  if s == [] then [SINGLE; SINGLE]
  else if forallb quote_safe s then s
  else SINGLE :: concat (map (λ c, if c == SINGLE then [SINGLE; DQ; SINGLE; DQ; SINGLE] else [c]) s) ++ [SINGLE].

(** [[ "$(command)" = value ]; ] *)
Definition test_eq (command value : pystr) : pystr :=
  "[ " ++ DQ :: "$(" ++ command ++ ")" ++ DQ :: " = " ++ value ++ " ]; ".

Definition validation_prefix (boot_id : pystr) (r : part_record) : pystr :=
  "set -eu; " ++ test_eq "cat /proc/sys/kernel/random/boot_id" (shlex_quote boot_id)
  ++ test_eq ("cat /sys/class/block/" ++ r.(r_node) ++ "/size") (str_of_Z r.(r_size_512_sectors))
  ++ test_eq ("cat /sys/class/block/" ++ r.(r_node) ++ "/start") (str_of_Z r.(r_start_512_sectors))
  ++ test_eq ("sed -n 's/^PARTNAME=//p' /sys/class/block/" ++ r.(r_node) ++ "/uevent") (shlex_quote r.(r_label)).
Definition source_command (boot_id : pystr) (r : part_record) : pystr :=
  validation_prefix boot_id r ++ "exec sha256sum /dev/" ++ r.(r_node).
Definition stream_command (boot_id : pystr) (r : part_record) : pystr :=
  validation_prefix boot_id r ++ "exec dd if=/dev/" ++ r.(r_node) ++ " bs=4194304 status=none".

Definition gpt_validation_prefix (boot_id : pystr) (r : gpt_record) : pystr :=
  "set -eu; " ++ test_eq "cat /proc/sys/kernel/random/boot_id" (shlex_quote boot_id)
  ++ test_eq ("cat /sys/class/block/" ++ r.(q_disk) ++ "/size") (str_of_Z r.(q_disk_size_512_sectors))
  ++ test_eq ("cat /sys/class/block/" ++ r.(q_disk) ++ "/queue/logical_block_size") (str_of_Z r.(q_logical_block_bytes)).
Definition gpt_read_command (boot_id : pystr) (r : gpt_record) : pystr :=
  let logical := r.(q_logical_block_bytes) in
  gpt_validation_prefix boot_id r ++ "dd if=/dev/" ++ r.(q_disk) ++ " bs=" ++ str_of_Z logical
  ++ " skip=" ++ str_of_Z (r.(q_offset_bytes) / logical) ++ " count=" ++ str_of_Z (r.(q_size_bytes) / logical)
  ++ " status=none".

Lemma refuse_pass {A} bad msg (k : () → res A) : bad = false → (refuse bad msg ≫= k) = k ().
Proof. by intros ->. Qed.

(** ** The partition plan against a reference
    The record of one entry, read without any check. *)
Definition text_of (d : json) (k : pystr) : pystr :=
  match d with JObj o => py_str (default (JStr []) (member k o)) | _ => [] end.
Definition int_of (d : json) (k : pystr) : Z :=
  match d with JObj o => match py_int (default (JInt (-1)) (member k o)) with Ok n => n | Raise _ => -1 end | _ => -1 end.
Definition sub (d : json) (k : pystr) : json := match d with JObj o => default JNull (member k o) | _ => JNull end.
Definition entry_record (entry : json) : part_record :=
  PartRecord (text_of (sub entry "sysfs") "name") (text_of entry "name") (text_of entry "unique_guid")
    (int_of entry "size_bytes") (int_of (sub entry "sysfs") "size_512_sectors")
    (int_of (sub entry "sysfs") "start_512_sectors").
Definition excluded (entry : json) : bool := is_in (text_of entry "name") EXCLUDED_PARTITIONS.
Definition planned (entries : list json) : list part_record :=
  map entry_record (filter (λ e, excluded e = false) entries).
Definition disk_entries (disk : json) : list json := list_of (sub (sub disk "gpt") "partitions").
Definition all_entries (inventory : json) : list json := concat (map disk_entries (list_of (sub inventory "disks"))).

Definition record_ok (r : part_record) : Prop :=
  fullmatch DEVICE_RE r.(r_node) = true ∧ fullmatch LABEL_RE r.(r_label) = true ∧
  fullmatch UUID_RE r.(r_unique_guid) = true ∧ (r.(r_label) ∉ EXCLUDED_PARTITIONS) ∧
  0 < r.(r_size_bytes) ∧ r.(r_size_bytes) = r.(r_size_512_sectors) * 512 ∧ 0 ≤ r.(r_start_512_sectors).
Definition entry_exact (e : json) : Prop := is_true (sub e "sysfs_gpt_geometry_match") = true.

Definition total_size (l : list part_record) : Z := foldr Z.add 0 (map r_size_bytes l).

(** What the loop's variables are after the entries [es]. *)
Definition plan_inv (es : list json) (s : plan_state) : Prop :=
  s.(ps_plan) = planned es ∧ s.(ps_total) = total_size s.(ps_plan) ∧
  s.(ps_labels) = map (λ e, text_of e "name") es ∧ NoDup s.(ps_labels) ∧
  s.(ps_guids) = map r_unique_guid s.(ps_plan) ∧ NoDup s.(ps_guids) ∧ Forall record_ok s.(ps_plan) ∧
  Forall (λ e, excluded e = false → entry_exact e) es.

Lemma get_or_Ok d k dflt v : get_or d k dflt = Ok v ↔ is_dict d = true ∧ v = default dflt (match d with JObj o => member k o | _ => None end).
Proof. destruct d; simpl; naive_solver. Qed.
Lemma get_sub d k v : get d k = Ok v → v = sub d k.
Proof. unfold get. rewrite get_or_Ok. intros [Hd ->]. by destruct d. Qed.
Lemma get_text d k v : get_or d k (JStr "") = Ok v → py_str v = text_of d k.
Proof. rewrite get_or_Ok. intros [Hd ->]. by destruct d. Qed.
Lemma get_int d k v n : get_or d k (JInt (-1)) = Ok v → py_int v = Ok n → int_of d k = n.
Proof. rewrite get_or_Ok. intros [Hd ->]. destruct d; try done. simpl. by intros ->. Qed.

Lemma total_size_snoc l r : total_size (l ++ [r]) = total_size l + r.(r_size_bytes).
Proof. unfold total_size. rewrite map_app. induction (map r_size_bytes l) as [|x m IH]; simpl in *; lia. Qed.

Lemma planned_snoc es e :
  planned (es ++ [e]) = planned es ++ (if excluded e then [] else [entry_record e]).
Proof.
  unfold planned. rewrite filter_app, map_app. f_equal. rewrite filter_cons, filter_nil.
  destruct (excluded e); by case_decide.
Qed.

Ltac open_get H :=
  let v := fresh "v" in let Hv := fresh "Hget" in bind_inv H as v Hv.

Lemma plan_entry_inv es s e s' : plan_inv es s → plan_entry s e = Ok s' → plan_inv (es ++ [e]) s'.
Proof.
  intros (Hp & Ht & Hl & Hld & Hg & Hgd & Hok & Hx) H. unfold plan_entry, refuse in H.
  guard_inv H as _. bind_inv H as name Hn. apply get_text in Hn. rewrite Hn in H.
  guard_inv H as Hlab%negb_false_iff. guard_inv H as Hdup%bool_decide_eq_false. cbn [ps_labels ps_guids ps_plan ps_total] in H.
  assert (NoDup (ps_labels s ++ [text_of e "name"])) as Hld'.
  { apply NoDup_app. split_and!; [done | set_solver | apply NoDup_singleton]. }
  destruct (is_in (text_of e "name") EXCLUDED_PARTITIONS) eqn:Hex.
  - injection H as <-. unfold plan_inv. cbn [ps_labels ps_guids ps_plan ps_total].
    assert (excluded e = true) as He by done.
    rewrite planned_snoc, He, app_nil_r, map_app, Forall_app, Hl. split_and!; try done; [by rewrite <-Hl |].
    constructor; [congruence | done].
  - bind_inv H as guid Hgu. apply get_text in Hgu. rewrite Hgu in H. guard_inv H as Hgu2%orb_false_iff.
    destruct Hgu2 as [Hfresh%bool_decide_eq_false Hre%negb_false_iff].
    bind_inv H as sysfs Hsy. apply get_sub in Hsy. subst sysfs. bind_inv H as geo Hgeo. apply get_sub in Hgeo. subst geo.
    guard_inv H as Hg2%orb_false_iff. destruct Hg2 as [_ Hgeo%negb_false_iff].
    bind_inv H as node Hno. apply get_text in Hno. rewrite Hno in H.
    bind_inv H as v1 G1. bind_inv H as n1 I1. bind_inv H as v2 G2. bind_inv H as n2 I2. bind_inv H as v3 G3. bind_inv H as n3 I3.
    pose proof (get_int _ _ _ _ G1 I1) as E1. pose proof (get_int _ _ _ _ G2 I2) as E2. pose proof (get_int _ _ _ _ G3 I3) as E3.
    guard_inv H as Hlast. injection H as <-. repeat (apply orb_false_iff in Hlast as [Hlast ?]). b2p.
    assert (excluded e = false) as He by done.
    assert (entry_record e = PartRecord (text_of (sub e "sysfs") "name") (text_of e "name") (text_of e "unique_guid") n1 n2 n3) as Hrec
      by (unfold entry_record; by rewrite E1, E2, E3).
    unfold plan_inv. cbn [ps_labels ps_guids ps_plan ps_total].
    rewrite planned_snoc, He, Hrec, Hp, <-Hp, total_size_snoc, !map_app, !Forall_app. simpl.
    split_and!; try done; [by rewrite Ht | by rewrite Hl | by rewrite Hg | | | by repeat constructor].
    + apply NoDup_app. split_and!; [done | set_solver | apply NoDup_singleton].
    + constructor; [| done]. split_and!; simpl; try done. by apply bool_decide_eq_false in Hex.
Qed.

Lemma plan_entries_inv es s l s' : plan_inv es s → fold_res plan_entry s l = Ok s' → plan_inv (es ++ l) s'.
Proof.
  intros Hs. apply fold_res_ind with (P := λ l s, plan_inv (es ++ l) s); [by rewrite app_nil_r |].
  intros done_ e a a' Ha _ H. rewrite app_assoc. by eapply plan_entry_inv.
Qed.
Lemma plan_disk_inv es s d s' : plan_inv es s → plan_disk s d = Ok s' → plan_inv (es ++ disk_entries d) s'.
Proof.
  intros Hs H. unfold plan_disk, refuse in H. guard_inv H as _. bind_inv H as n Hn. guard_inv H as _.
  bind_inv H as g Hg. apply get_sub in Hg. subst g. guard_inv H as _. bind_inv H as u Hu.
  bind_inv H as p Hp. bind_inv H as b Hb. guard_inv H as _. bind_inv H as pv Hpv. bind_inv H as bv Hbv. guard_inv H as _.
  bind_inv H as parts Hparts. apply get_sub in Hparts. subst parts. guard_inv H as _. by eapply plan_entries_inv.
Qed.
Lemma plan_disks_inv es s l s' :
  plan_inv es s → fold_res plan_disk s l = Ok s' → plan_inv (es ++ concat (map disk_entries l)) s'.
Proof.
  intros Hs. apply fold_res_ind with (P := λ l s, plan_inv (es ++ concat (map disk_entries l)) s); [by rewrite app_nil_r |].
  intros done_ e a a' Ha _ H. rewrite map_app, concat_app, app_assoc. simpl. rewrite app_nil_r. by eapply plan_disk_inv.
Qed.

Lemma planned_length es : len (filter (λ e, excluded e = true) es) + len (planned es) = len es.
Proof.
  unfold planned, len. rewrite length_map. induction es as [|e es IH]; [done |]. rewrite !filter_cons.
  destruct (excluded e) eqn:E; case_decide; try done; case_decide; try done; simpl; lia.
Qed.
(** Two distinct labels among the excluded ones are both of them. *)
Lemma two_excluded es :
  NoDup (map (λ e, text_of e "name") es) → len (filter (λ e, excluded e = true) es) = 2 →
  ∀ l, l ∈ EXCLUDED_PARTITIONS → ∃ e, e ∈ es ∧ text_of e "name" = l.
Proof.
  intros Hd Hl. set (f := filter _ es) in *. assert (NoDup (map (λ e, text_of e "name") f)) as Hf.
  { by apply NoDup_map_filter. }
  assert (∀ e, e ∈ f → e ∈ es ∧ text_of e "name" ∈ EXCLUDED_PARTITIONS) as Hin.
  { intros e [He ?]%list_elem_of_filter. by apply bool_decide_eq_true in He. }
  destruct f as [|a [|b [|? ?]]]; try (cbv in Hl; lia). 2: { unfold len in Hl. simpl in Hl. lia. }
  destruct (Hin a ltac:(by left)) as [Ha1 Ha2], (Hin b ltac:(by right; left)) as [Hb1 Hb2].
  simpl in Hf. apply NoDup_cons in Hf as [Hab _]. rewrite list_elem_of_singleton in Hab.
  intros l Hll. assert (text_of a "name" = l ∨ text_of b "name" = l) as [|]; [| by exists a | by exists b].
  revert Ha2 Hb2 Hll Hab. unfold EXCLUDED_PARTITIONS. rewrite !elem_of_cons, !elem_of_nil. intros Ha Hb Hx Hab.
  destruct Ha as [Ha|[Ha|[]]], Hb as [Hb|[Hb|[]]], Hx as [Hx|[Hx|[]]]; first [left; congruence | right; congruence | congruence].
Qed.

(** The partition plan.  An accepted inventory lists 109 partitions with
    distinct labels, [super] and [userdata] among them; the plan is the
    records of the other 107 in the order of the inventory, with distinct
    labels and GUIDs, each with a node name and a positive size that is a
    whole number of sectors and was found equal to the kernel's view; and the
    total is the sum of the sizes. *)
Theorem backup_plan_exact inventory plan total :
  backup_plan inventory = Ok (plan, total) →
  plan = planned (all_entries inventory) ∧ total = total_size plan ∧
  len plan = 107 ∧ len (all_entries inventory) = 109 ∧
  NoDup (map (λ e, text_of e "name") (all_entries inventory)) ∧
  (∀ l, l ∈ EXCLUDED_PARTITIONS → ∃ e, e ∈ all_entries inventory ∧ text_of e "name" = l) ∧
  NoDup (map r_label plan) ∧ NoDup (map r_unique_guid plan) ∧ Forall record_ok plan ∧
  (∀ e, e ∈ all_entries inventory → excluded e = false → entry_exact e).
Proof.
  intros H. unfold backup_plan, refuse in H. bind_inv H as disks Hd. apply get_sub in Hd. subst disks.
  guard_inv H as _. bind_inv H as s Hs. guard_inv H as Hc. injection H as <- <-.
  apply (plan_disks_inv []) in Hs; [| split_and!; try done; constructor].
  destruct Hs as (Hp & Ht & Hl & Hld & Hg & Hgd & Hok & Hx). rewrite app_nil_l in *. fold (all_entries inventory) in *.
  apply orb_false_iff in Hc as [Hc1%negb_false_iff Hc2%negb_false_iff]. b2p.
  assert (len (all_entries inventory) = 109) as H109.
  { rewrite <-Hc1, Hl. unfold len. by rewrite length_map. }
  rewrite Hl in Hld. split_and!; try done.
  - apply two_excluded; [done |]. pose proof (planned_length (all_entries inventory)). rewrite <-Hp in *. lia.
  - rewrite Hp. unfold planned. rewrite map_map. change (λ x, r_label (entry_record x)) with (λ e, text_of e "name").
    by apply NoDup_map_filter.
  - by rewrite <-Hg.
  - by rewrite Forall_forall in Hx.
Qed.

(** ** The GPT ranges of a disk *)
(** What the two records of a disk are, given what its JSON record says: the
    primary range starts the disk and holds the header and its table, the
    backup range ends the disk, and both are small whole blocks that do not
    meet. *)
Definition disk_logical (disk : json) : Z := int_of disk "logical_block_bytes".
Definition disk_size (disk : json) : Z := int_of disk "size_bytes".
Definition disk_primary (disk : json) : json := sub (sub disk "gpt") "primary".
Definition disk_backup (disk : json) : json := sub (sub disk "gpt") "backup".
Record gpt_pair (disk : json) (p b : gpt_record) : Prop := GptPair {
  pair_disk : p.(q_disk) = text_of disk "name" ∧ b.(q_disk) = text_of disk "name";
  pair_role : p.(q_role) = "primary" ∧ b.(q_role) = "backup";
  pair_guid : p.(q_disk_guid) = sub (disk_primary disk) "disk_guid" ∧ b.(q_disk_guid) = sub (disk_primary disk) "disk_guid";
  pair_logical : p.(q_logical_block_bytes) = disk_logical disk ∧ b.(q_logical_block_bytes) = disk_logical disk;
  pair_sectors : p.(q_disk_size_512_sectors) * 512 = disk_size disk ∧ b.(q_disk_size_512_sectors) * 512 = disk_size disk;
  pair_start : p.(q_offset_bytes) = 0;
  pair_table : int_of (disk_primary disk) "entries_lba" * disk_logical disk + int_of (disk_primary disk) "table_bytes" ≤ p.(q_size_bytes);
  pair_header : 2 * disk_logical disk < p.(q_size_bytes);
  pair_backup : b.(q_offset_bytes) = int_of (disk_backup disk) "entries_lba" * disk_logical disk;
  pair_end : b.(q_offset_bytes) + b.(q_size_bytes) = disk_size disk;
  pair_backup_size : disk_logical disk < b.(q_size_bytes);
  pair_disjoint : p.(q_size_bytes) < b.(q_offset_bytes);
  pair_small : p.(q_size_bytes) ≤ 1024 * 1024 ∧ b.(q_size_bytes) ≤ 1024 * 1024;
  pair_block : 512 ≤ disk_logical disk ≤ 65536 ∧ ∃ k, 0 ≤ k ∧ disk_logical disk = 2 ^ k;
  pair_whole : (disk_logical disk | p.(q_size_bytes)) ∧ (disk_logical disk | b.(q_offset_bytes)) ∧
    (disk_logical disk | b.(q_size_bytes))
}.

Lemma land_pred_pow2 n : 0 < n → Z.land n (n - 1) = 0 → ∃ k, 0 ≤ k ∧ n = 2 ^ k.
Proof.
  intros Hn H. exists (Z.log2 n). split; [apply Z.log2_nonneg |].
  destruct (Z.log2_spec n Hn) as [Hlo Hhi]. destruct (decide (n = 2 ^ Z.log2 n)) as [|Hne]; [done |].
  exfalso. assert (Z.log2 (n - 1) = Z.log2 n) as Hl.
  { apply Z.log2_unique; [apply Z.log2_nonneg | lia]. }
  assert (1 ≤ 2 ^ Z.log2 n) by (apply (Z.pow_le_mono_r 2 0); [lia | apply Z.log2_nonneg]).
  assert (Z.testbit (Z.land n (n - 1)) (Z.log2 n) = true) as Hb.
  { rewrite Z.land_spec, Z.bit_log2 by done. rewrite <-Hl, Z.bit_log2; [done | lia]. }
  by rewrite H, Z.testbit_0_l in Hb.
Qed.
Lemma item_sub d k v : item d k = Ok v → v = sub d k.
Proof. unfold item. destruct d; try done. intros Hm%of_option_Ok. simpl. by rewrite Hm. Qed.
Lemma item_int d k v n : item d k = Ok v → py_int v = Ok n → int_of d k = n.
Proof. unfold item. destruct d; try done. intros Hm%of_option_Ok Hi. simpl. rewrite Hm. simpl. by rewrite Hi. Qed.
Lemma round_up n m : 0 < m → n ≤ (n + m - 1) / m * m.
Proof. intros H. pose proof (Z.mul_div_le (n + m - 1) m H). pose proof (Z.mod_pos_bound (n + m - 1) m H).
  rewrite Z.mod_eq in * by lia. lia. Qed.

Lemma gpt_plan_disk_inv plan total d plan' total' :
  gpt_plan_disk (plan, total) d = Ok (plan', total') →
  ∃ p b, gpt_pair d p b ∧ plan' = plan ++ [p; b] ∧ total' = total + p.(q_size_bytes) + b.(q_size_bytes).
Proof.
  unfold gpt_plan_disk, refuse. intros H. guard_inv H as _. bind_inv H as name Hn. apply get_text in Hn. rewrite Hn in H.
  guard_inv H as _. bind_inv H as v1 G1. bind_inv H as n1 I1. bind_inv H as v2 G2. bind_inv H as n2 I2.
  bind_inv H as v3 G3. bind_inv H as n3 I3.
  pose proof (get_int _ _ _ _ G1 I1) as E1. pose proof (get_int _ _ _ _ G2 I2) as E2.
  bind_inv H as g Hg. apply get_sub in Hg. subst g. guard_inv H as Hgeo.
  bind_inv H as pr Hpr. apply get_sub in Hpr. subst pr. bind_inv H as ba Hba. apply get_sub in Hba. subst ba. guard_inv H as _.
  bind_inv H as v4 G4. bind_inv H as n4 I4. bind_inv H as v5 G5. bind_inv H as n5 I5. bind_inv H as v6 G6. bind_inv H as n6 I6.
  pose proof (item_int _ _ _ _ G4 I4) as E4. pose proof (item_int _ _ _ _ G5 I5) as E5. pose proof (item_int _ _ _ _ G6 I6) as E6.
  guard_inv H as Hr. bind_inv H as v7 G7. apply item_sub in G7. subst v7. injection H as <- <-.
  repeat (apply orb_false_iff in Hgeo as [Hgeo ?]). repeat (apply orb_false_iff in Hr as [Hr ?]). b2p.
  eexists _, _. split; [| done].
  constructor; cbn [q_disk q_role q_disk_guid q_logical_block_bytes q_disk_size_512_sectors q_offset_bytes q_size_bytes];
    unfold disk_logical, disk_size, disk_primary, disk_backup; rewrite ?E1, ?E2, ?E4, ?E5, ?E6; try done; try lia.
  - apply round_up. lia.
  - split; [lia |]. apply land_pred_pow2; [lia | done].
  - split_and!; (apply Z.mod_divide; [lia | done]).
Qed.

Definition gpt_total (l : list gpt_record) : Z := foldr Z.add 0 (map q_size_bytes l).

(** The GPT plan.  An accepted inventory has seven disks and the plan is a
    pair of records for each: the first range starts the disk and covers the
    protective block, the header and the whole entry table, the second runs
    from the backup table to the end of the disk; both are whole blocks of at
    most 1 MiB and they do not meet; and the total is the sum of the sizes. *)
Theorem gpt_backup_plan_ranges inventory plan total :
  gpt_backup_plan inventory = Ok (plan, total) →
  len (list_of (sub inventory "disks")) = 7 ∧ total = gpt_total plan ∧
  ∃ pairs, plan = concat (map (λ pb, [pb.1; pb.2]) pairs) ∧
    Forall2 (λ disk pb, gpt_pair disk pb.1 pb.2) (list_of (sub inventory "disks")) pairs.
Proof.
  intros H. unfold gpt_backup_plan, refuse in H. bind_inv H as disks Hd. apply get_sub in Hd. subst disks.
  guard_inv H as Hc. apply orb_false_iff in Hc as [_ Hc%negb_false_iff]. b2p. split; [done |].
  revert H. apply fold_res_ind with (P := λ ds (a : list gpt_record * Z), a.2 = gpt_total a.1 ∧
    ∃ pairs, a.1 = concat (map (λ pb, [pb.1; pb.2]) pairs) ∧ Forall2 (λ disk pb, gpt_pair disk pb.1 pb.2) ds pairs).
  - split; [done |]. exists []. split; [done | constructor].
  - intros ds d [pl to] [pl' to'] (Ht & pairs & Hpl & Hf) _ Hs. simpl in *.
    apply gpt_plan_disk_inv in Hs as (p & b & Hpb & -> & ->). split.
    + unfold gpt_total in *. rewrite Ht, map_app. simpl. rewrite foldr_app. simpl. clear.
      induction (map q_size_bytes pl) as [|x m IH]; simpl; lia.
    + exists (pairs ++ [(p, b)]). rewrite map_app, concat_app, Hpl. split; [done |].
      apply Forall2_app; [done |]. constructor; [done | constructor].
Qed.

(** ** An inventory the plans accept *)
Definition sample_entry (n : Z) (label : pystr) : json := JObj [
  ("name" : pystr, JStr label); ("unique_guid" : pystr, JStr (hex_fixed 8 n ++ "-0000-0000-0000-000000000000"));
  ("size_bytes" : pystr, JInt 4096); ("sysfs_gpt_geometry_match" : pystr, JBool true);
  ("sysfs" : pystr, JObj [("name" : pystr, JStr ("sda" ++ str_of_Z n)); ("size_512_sectors" : pystr, JInt 8);
                          ("start_512_sectors" : pystr, JInt (8 * n))])].
Definition sample_gpt_header (entries_lba : Z) : json := JObj [
  ("header_crc32_valid" : pystr, JBool true); ("entries_lba" : pystr, JInt entries_lba);
  ("table_bytes" : pystr, JInt 16384); ("disk_guid" : pystr, JStr "guid")].
Definition sample_disk (name : pystr) (entries : list json) : json := JObj [
  ("name" : pystr, JStr name); ("logical_block_bytes" : pystr, JInt 4096); ("size_bytes" : pystr, JInt 16777216);
  ("size_512_sectors" : pystr, JInt 32768);
  ("gpt" : pystr, JObj [("primary_entries_crc32_valid" : pystr, JBool true); ("primary_backup_crosscheck" : pystr, JBool true);
     ("primary" : pystr, sample_gpt_header 2); ("backup" : pystr, sample_gpt_header 4091); ("partitions" : pystr, JList entries)])].
Definition sample_inventory : json := JObj [("disks" : pystr, JList
  (sample_disk "sda" (map (λ n, sample_entry n ("part" ++ str_of_Z n)) (seqZ 1 107)
                      ++ [sample_entry 108 "super"; sample_entry 109 "userdata"])
   :: map (λ c, sample_disk ("sd" ++ [c]) []) ("bcdefg" : pystr)))].

Definition sample_plan : list part_record * Z :=
  Eval vm_compute in match backup_plan sample_inventory with Ok p => p | Raise _ => ([], 0) end.
Lemma backup_plan_exact_witness :
  backup_plan sample_inventory = Ok sample_plan ∧ len sample_plan.1 = 107 ∧ sample_plan.2 = total_size sample_plan.1.
Proof.
  assert (backup_plan sample_inventory = Ok sample_plan) as H by (vm_compute; reflexivity).
  split; [exact H |]. destruct (backup_plan_exact sample_inventory sample_plan.1 sample_plan.2 H) as (_ & Ht & Hl & _).
  split; [exact Hl | exact Ht].
Defined.

Definition sample_gpt_plan : list gpt_record * Z :=
  Eval vm_compute in match gpt_backup_plan sample_inventory with Ok p => p | Raise _ => ([], 0) end.
Lemma gpt_backup_plan_ranges_witness :
  gpt_backup_plan sample_inventory = Ok sample_gpt_plan ∧ len sample_gpt_plan.1 = 14 ∧
  sample_gpt_plan.2 = gpt_total sample_gpt_plan.1.
Proof.
  assert (gpt_backup_plan sample_inventory = Ok sample_gpt_plan) as H by (vm_compute; reflexivity).
  split; [exact H |]. split; [vm_compute; reflexivity |].
  exact (proj1 (proj2 (gpt_backup_plan_ranges sample_inventory sample_gpt_plan.1 sample_gpt_plan.2 H))).
Defined.
