(* ===== verification/BackupRehearsal.v ===== *)
(** * The offline GPT restore rehearsal

    scripts/host/verify-readonly-storage-backup.py: the two saved ranges of
    every disk are written to an empty image of the disk's size, and the
    image must read back as the inventoried partition table. *)

From S2P Require Import Prelude PyStr Json Gpt Inventory BackupPlan.

Definition zeros (n : Z) : bytes := replicate (Z.to_nat n) NUL.

(** [os.pwrite] of a whole string; a hole before it reads as zeros. *)
Definition pwrite (image data : bytes) (position : Z) : bytes :=
  take (Z.to_nat position) (image ++ zeros (position - len image)) ++ data
  ++ drop (Z.to_nat (position + len data)) image.

(** [write_range]: the file's chunks land one after the other, so the whole
    file lands at [offset]. *)
Definition write_range (image source : bytes) (offset : Z) : bytes := pwrite image source offset.

Definition PROJECTION_KEYS : list pystr :=
  ["number" : pystr; "type_guid" : pystr; "unique_guid" : pystr; "first_lba" : pystr; "last_lba" : pystr;
   "size_lba" : pystr; "offset_bytes" : pystr; "size_bytes" : pystr; "attributes" : pystr; "name" : pystr].
Definition project (entry : json) : res json :=
  members ← map_m (λ key, v ← item entry key; Ok (key, v)) PROJECTION_KEYS;
  Ok (JObj members).
Definition partition_projection (entries : list json) : res (list json) := map_m project entries.

(** [h_file path] reads a file below the backup directory, [h_blocks] is
    [st_blocks] of the image and [h_mode] its permission bits. *)
Record host := Host {
  h_file : pystr → res bytes;
  h_blocks : bytes → Z;
  h_mode : Z
}.

Definition differs (parsed : json) (expected : json) (key : pystr) (msg : pystr) : res unit :=
  p ← item parsed key;
  e ← item expected key;
  refuse (negb (json_eq p e)) msg.

Definition write_record (h : host) (name : pystr) (image : bytes) (r : gpt_record) : res bytes :=
  source ← h.(h_file) ("gpt/" ++ name ++ "-" ++ r.(q_role) ++ ".bin");
  Ok (write_range image source r.(q_offset_bytes)).

(** The checks on the parsed image. *)
Definition check_restored (name : pystr) (disk : json) (image : bytes) (logical : Z) (parsed : gpt) : res unit :=
  expected ← item disk "gpt";
  refuse_if (negb (is_dict expected)) AssertionError "" ;;
  let parsed_json := gpt_json parsed (map entry_json parsed.(partitions)) in
  for_each (λ key, differs parsed_json expected key ("restored GPT " ++ key ++ " differs from inventory for " ++ name))
    ["primary" : pystr; "backup" : pystr; "primary_entries_crc32_valid" : pystr; "primary_backup_crosscheck" : pystr] ;;
  expected_partitions ← item expected "partitions";
  refuse_if (negb (is_list expected_partitions)) AssertionError "" ;;
  projection ← partition_projection (list_of expected_partitions);
  refuse (negb (json_eq (JList (map entry_json parsed.(partitions))) (JList projection)))
    ("restored GPT partition map differs from inventory for " ++ name) ;;
  let b := parsed.(backup) in
  let offset := b.(g_entries_lba) * logical in
  refuse_if (2 ^ 63 <=? offset) OverflowError "" ;;
  let backup_table := if len image <=? offset then [] else slice image offset b.(g_table_bytes) in
  refuse (negb (len backup_table =? b.(g_table_bytes)) || negb (crc32 backup_table =? int16 b.(g_entries_crc32)))
    ("restored backup GPT entry table CRC differs for " ++ name).

Definition rehearse_disk (h : host) (plan : list gpt_record) (disk : json) : res unit :=
  name ← item disk "name";
  let name := py_str name in
  let records := filter (λ r, q_disk r = name) plan in
  refuse (negb (len records =? 2)
          || negb (bool_decide ((list_to_set (map q_role records) : gset pystr) = {[ "primary" : pystr; "backup" : pystr ]})))
    ("GPT rehearsal plan is incomplete for " ++ name) ;;
  size ← item disk "size_bytes"; size_bytes ← py_int size;
  image ← fold_res (write_record h name) (zeros size_bytes) records;
  let restored_bytes := foldr Z.add 0 (map q_size_bytes records) in
  refuse (negb (h.(h_mode) =? 384)) "GPT rehearsal image is not private" ;;
  refuse (restored_bytes + 1024 * 1024 <? h.(h_blocks) image * 512) "GPT rehearsal image was not created sparsely" ;;
  logical ← item disk "logical_block_bytes"; logical ← py_int logical;
  parsed ← parse_gpt image logical size_bytes;
  check_restored name disk image logical parsed.

Definition rehearse_gpt_restore (h : host) (inventory : json) (plan : list gpt_record) : res unit :=
  disks ← item inventory "disks";
  refuse_if (negb (is_list disks)) AssertionError "" ;;
  for_each (λ disk, refuse_if (negb (is_dict disk)) AssertionError "" ;; rehearse_disk h plan disk) (list_of disks).

(** ** The restored image *)
Lemma pwrite_inside image data pos :
  0 ≤ pos → pos + len data ≤ len image →
  pwrite image data pos = take (Z.to_nat pos) image ++ data ++ drop (Z.to_nat (pos + len data)) image.
Proof.
  intros Hp Hl. pose proof (len_nonneg data). unfold pwrite, zeros.
  replace (Z.to_nat (pos - len image)) with 0%nat by lia. by rewrite app_nil_r.
Qed.

(** The image holds the disk's bytes in the two ranges and zeros between. *)
Lemma restored_image D psz boff :
  0 ≤ psz → psz ≤ boff → boff ≤ len D →
  write_range (write_range (zeros (len D)) (slice D 0 psz) 0) (slice D boff (len D - boff)) boff
  = slice D 0 psz ++ zeros (boff - psz) ++ slice D boff (len D - boff).
Proof.
  intros Hp Hb Hl. assert (len (slice D 0 psz) = psz) as H1 by (apply slice_length; lia).
  assert (len (slice D boff (len D - boff)) = len D - boff) as H2 by (apply slice_length; lia).
  assert (len (zeros (len D)) = len D) as H3 by (unfold zeros; rewrite len_replicate; lia).
  unfold write_range. rewrite (pwrite_inside (zeros (len D))) by lia. rewrite H1.
  change (take (Z.to_nat 0) (zeros (len D))) with (@nil ascii). rewrite app_nil_l.
  rewrite pwrite_inside; [| lia |].
  2: { rewrite len_app, H1, H2. unfold zeros, len at 2. rewrite drop_replicate, length_replicate. lia. }
  rewrite H2. unfold zeros at 1 2. rewrite drop_replicate. replace (boff + (len D - boff)) with (len D) by lia.
  rewrite (drop_ge (_ ++ _)); [| rewrite length_app, length_replicate; unfold len in *; lia].
  rewrite app_nil_r, take_app_ge by (unfold len in *; lia). rewrite <-app_assoc. do 2 f_equal.
  rewrite take_replicate. unfold zeros. f_equal. unfold len in *. lia.
Qed.

Section restored.
Context (D : bytes) (psz boff : Z) (Hp : 0 ≤ psz) (Hb : psz ≤ boff) (Hl : boff ≤ len D).
Definition restored : bytes := slice D 0 psz ++ zeros (boff - psz) ++ slice D boff (len D - boff).

Lemma restored_len : len restored = len D.
Proof using All.
  unfold restored, zeros. rewrite !len_app, len_replicate, !slice_length by lia. lia.
Qed.
Lemma restored_primary off n : 0 ≤ off → 0 ≤ n → off + n ≤ psz → slice restored off n = slice D off n.
Proof using All.
  intros. unfold restored. rewrite slice_in by (rewrite ?slice_length; lia). rewrite slice_slice by lia. f_equal.
Qed.
Lemma restored_backup off n : boff ≤ off → 0 ≤ n → off + n ≤ len D → slice restored off n = slice D off n.
Proof using All.
  intros. unfold restored, zeros. rewrite !slice_skip by (rewrite ?len_replicate, ?slice_length by lia; lia).
  rewrite len_replicate, slice_length, slice_slice by lia. f_equal. lia.
Qed.
Lemma restored_hole off n : psz ≤ off → 0 ≤ n → off + n ≤ boff → slice restored off n = zeros n.
Proof using All.
  intros. unfold restored, zeros. rewrite slice_skip by (rewrite slice_length; lia).
  rewrite slice_length, slice_in by (rewrite ?len_replicate; lia). unfold slice.
  rewrite drop_replicate, take_replicate. f_equal. lia.
Qed.
Lemma restored_read off n :
  0 ≤ off → 0 ≤ n → off + n ≤ psz ∨ boff ≤ off → read_at restored off n = read_at D off n.
Proof using All.
  intros. unfold read_at. rewrite restored_len. destruct (2 ^ 63 <=? off); [done |]. simpl.
  destruct (len D <=? off) eqn:E; [done |]. b2p.
  destruct (decide (off + n ≤ psz)); [by rewrite restored_primary by lia |].
  destruct (decide (off + n ≤ len D)); [by rewrite restored_backup by lia |].
  (* a read past the end is short on both *)
  assert (∀ (x : bytes), len x = len D → len (slice x off n) ≠ n) as Hshort.
  { intros x Hx. unfold slice, len in *. rewrite length_take, length_drop. lia. }
  assert (len (slice restored off n) = len (slice D off n)) as Hsame.
  { unfold slice, len. rewrite !length_take, !length_drop. pose proof restored_len. unfold len in *. lia. }
  rewrite Hsame. pose proof (Hshort D eq_refl) as Hs. apply Z.eqb_neq in Hs. rewrite Hs. done.
Qed.
End restored.

(** ** What the inventory records of a disk *)
Lemma annotate_projects ph dev_root m es acc r :
  fold_res (annotate ph dev_root m) acc es = Ok r →
  ∃ js, r = acc ++ js ∧ map_m project js = Ok (map entry_json es).
Proof.
  revert acc. induction es as [|e es IH]; intros acc H; simpl in H.
  - injection H as <-. exists []. by rewrite app_nil_r.
  - bind_inv H as acc' Ha. apply IH in H as (js & -> & Hjs). unfold annotate in Ha.
    destruct (m !! e_number e) as [s|].
    + bind_inv Ha as probe Hp. injection Ha as <-. eexists (_ :: js). rewrite <-app_assoc. split; [done |].
      simpl. rewrite Hjs. reflexivity.
    + injection Ha as <-. eexists (_ :: js). rewrite <-app_assoc. split; [done |]. simpl. rewrite Hjs. reflexivity.
Qed.

Lemma inventory_disk_shape ph sys_block dev_root name disk :
  inventory_disk ph sys_block dev_root name = Ok disk →
  ∃ L size image g js,
    is_dict disk = true ∧ item disk "name" = Ok (JStr name) ∧ item disk "size_bytes" = Ok (JInt size) ∧
    item disk "logical_block_bytes" = Ok (JInt L) ∧ item disk "gpt" = Ok (gpt_json g js) ∧
    ph.(p_device) (dev_root ++ "/" ++ name) = Ok image ∧ parse_gpt image L size = Ok g ∧
    map_m project js = Ok (map entry_json g.(partitions)).
Proof.
  unfold inventory_disk. intros H. bind_inv H as L HL. bind_inv H as n Hn. bind_inv H as m Hm.
  bind_inv H as image Hi. bind_inv H as g Hg. bind_inv H as js Hjs. bind_inv H as mm Hmm. bind_inv H as ro Hro.
  bind_inv H as phy Hphy. bind_inv H as scsi Hscsi. bind_inv H as probe Hprobe.
  assert (disk = JObj [("name" : pystr, JStr name); ("major_minor" : pystr, JStr mm); ("read_only" : pystr, JInt ro);
            ("size_512_sectors" : pystr, JInt n); ("size_bytes" : pystr, JInt (n * 512));
            ("logical_block_bytes" : pystr, JInt L); ("physical_block_bytes" : pystr, JInt phy);
            ("sysfs_path" : pystr, JStr (ph.(p_resolve) (sys_block ++ "/" ++ name))); ("scsi" : pystr, JObj scsi);
            ("disk_probe" : pystr, probe); ("gpt" : pystr, gpt_json g js)]) as -> by congruence.
  apply annotate_projects in Hjs as (js' & -> & Hjs).
  exists L, (n * 512), image, g, js'. split_and!; done.
Qed.

(** ** Reading the restored image *)
Lemma zero_block_refused L : 512 ≤ L → ∃ e, parse_gpt_header (zeros L) L = Raise e.
Proof.
  intros HL. unfold parse_gpt_header. assert (len (zeros L) = L) as Hz by (unfold zeros; rewrite len_replicate; lia).
  rewrite Hz. rewrite refuse_if_pass by (apply negb_false_iff, Z.eqb_refl).
  rewrite refuse_if_pass by (unfold GPT_HEADER_SIZE; b2pg; lia).
  assert (slice (zeros L) 0 8 = replicate 8 NUL) as ->.
  { unfold slice, zeros. change (Z.to_nat 0) with 0%nat. rewrite drop_0, take_replicate. f_equal. lia. }
  eexists. reflexivity.
Qed.

Lemma read_at_length D off n r : read_at D off n = Ok r → len r = n ∧ off < 2 ^ 63.
Proof. unfold read_at. intros H. guard_inv H as H1. guard_inv H as H2. injection H as <-. b2p. done. Qed.

Lemma header_table L h raw : parse_gpt_header raw L = Ok h → 0 ≤ h.(g_table_bytes) ∧ 0 ≤ h.(g_entries_lba) ∧ 0 ≤ h.(g_backup_lba).
Proof.
  unfold parse_gpt_header. intros H. guard_inv H as _. guard_inv H as _. guard_inv H as _. guard_inv H as _.
  guard_inv H as _. guard_inv H as Hc. guard_inv H as He. guard_inv H as _. injection H as <-. simpl.
  repeat (apply orb_false_iff in He as [He ?]). b2p. split_and!; try apply le_int_bound. apply Z.mul_nonneg_nonneg; lia.
Qed.

Section reading.
Context (D : bytes) (L psz boff : Z) (g : gpt).
Context (HL : 512 ≤ L) (Hpsz : 2 * L < psz) (Hb : psz ≤ boff) (Hl : boff ≤ len D).
Context (HmL : (L | psz)) (HmB : (L | boff)).
Context (Hg : parse_gpt D L (len D) = Ok g).
Context (Htable : g.(primary).(g_entries_lba) * L + g.(primary).(g_table_bytes) ≤ psz).
Abbreviation R := (restored D psz boff).
Abbreviation header_at := (g.(primary).(g_backup_lba) * L).

(** A block lies in one range or in the hole between them. *)
Lemma block_cases k : 0 ≤ k → k * L < psz → k * L + L ≤ psz.
Proof using All. intros. destruct HmL as [q ->]. assert (k < q) by nia. nia. Qed.
Lemma hole_cases k : k * L < boff → k * L + L ≤ boff.
Proof using All. intros. destruct HmB as [q ->]. assert (k < q) by nia. nia. Qed.

(** Everything but the backup header is read as from the disk. *)
Lemma restored_prefix :
  0 ≤ header_at ∧ header_at + L ≤ len D ∧ header_at < 2 ^ 63 ∧
  parse_gpt R L (len D)
  = (raw ← read_at R header_at L; b ← parse_gpt_header raw L;
     Ok (Gpt g.(primary) b g.(primary_entries_crc32_valid) (crosscheck g.(primary) b) g.(partitions))) ∧
  (raw ← read_at D header_at L; parse_gpt_header raw L) = Ok g.(backup) ∧
  crosscheck g.(primary) g.(backup) = g.(primary_backup_crosscheck).
Proof using All.
  pose proof Hg as H. unfold parse_gpt in H |- *. bind_inv H as praw Hpr. bind_inv H as p Hp.
  bind_inv H as table Ht. bind_inv H as entries Hes. guard_inv H as Hend. bind_inv H as braw Hbr. bind_inv H as b Hbb.
  assert (g = Gpt p b (crc32 table =? int16 (g_entries_crc32 p)) (crosscheck p b) entries) as Heq by congruence.
  rewrite Heq in *. cbn [primary backup] in *. clear H Heq. destruct (header_table L p praw Hp) as (? & ? & ?). b2p.
  destruct (read_at_length _ _ _ _ Hbr) as [_ Hoff].
  rewrite (restored_read D psz boff) with (off := L) by lia. rewrite Hpr. cbn [mbind res_mbind res_bind].
  rewrite Hp. cbn [mbind res_mbind res_bind].
  rewrite (restored_read D psz boff) with (off := g_entries_lba p * L) by nia. rewrite Ht. cbn [mbind res_mbind res_bind].
  rewrite Hes. cbn [mbind res_mbind res_bind]. rewrite refuse_if_pass by (b2pg; lia). rewrite Hbr.
  split_and!; try done. nia.
Qed.

Lemma restored_parse :
  (header_at < psz ∨ boff ≤ header_at) → parse_gpt R L (len D) = Ok g.
Proof using All.
  intros Hc. destruct restored_prefix as (H0 & H1 & _ & Heq & H & Hcc). rewrite Heq.
  rewrite (restored_read D psz boff); try lia.
  2: { destruct Hc; [left; apply block_cases; nia | by right]. }
  bind_inv H as raw Hraw. rewrite Hraw. cbn [mbind res_mbind res_bind]. rewrite H. cbn [mbind res_mbind res_bind].
  rewrite Hcc. by destruct g.
Qed.

Lemma restored_hole_refused :
  psz ≤ header_at → header_at < boff → ∃ e, parse_gpt R L (len D) = Raise e.
Proof using All.
  intros H1 H2. destruct restored_prefix as (_ & _ & Hoff & Heq & _). rewrite Heq. pose proof (hole_cases _ H2).
  assert (read_at R header_at L = Ok (zeros L)) as ->.
  { unfold read_at. rewrite restored_len by lia. rewrite refuse_if_pass by (b2pg; lia).
    assert ((len D <=? header_at) = false) as -> by (b2pg; lia). rewrite restored_hole by lia.
    rewrite refuse_if_pass; [done |]. apply negb_false_iff, Z.eqb_eq. unfold zeros. rewrite len_replicate. lia. }
  cbn [mbind res_mbind res_bind]. destruct (zero_block_refused L HL) as [e ->]. by exists e.
Qed.
End reading.

(** ** The rehearsal *)
Definition backup_table_intact (D : bytes) (disk : json) : Prop :=
  let b := disk_backup disk in
  let off := int_of b "entries_lba" * disk_logical disk in
  let n := int_of b "table_bytes" in
  off + n ≤ len D ∧ crc32 (slice D off n) = int16 (text_of b "entries_crc32").
(** The backup header of the disk lies in one of the saved ranges. *)
Definition backup_header_saved (disk : json) (p b : gpt_record) : Prop :=
  let offset := int_of (disk_primary disk) "backup_lba" * disk_logical disk in
  offset < p.(q_size_bytes) ∨ b.(q_offset_bytes) ≤ offset.

Lemma item_int_of d k n : item d k = Ok (JInt n) → int_of d k = n.
Proof. intros H. by eapply item_int. Qed.

Lemma header_json_eq_refl h : json_eq (header_json h) (header_json h) = true.
Proof. apply json_eq_refl. simpl. split; [by apply (bool_decide_eq_true_1 _) | by repeat split]. Qed.
Lemma entries_json_eq_refl l : json_eq (JList (map entry_json l)) (JList (map entry_json l)) = true.
Proof.
  apply json_eq_refl. simpl. induction l as [|e l IH]; simpl; [done |]. split; [| done].
  split; [by apply (bool_decide_eq_true_1 _) | by repeat split].
Qed.

(** The checks after the parse, when the parse gives the inventoried table. *)
Lemma rehearsal_checks g js key :
  map_m project js = Ok (map entry_json g.(partitions)) →
  key ∈ ["primary" : pystr; "backup" : pystr; "primary_entries_crc32_valid" : pystr; "primary_backup_crosscheck" : pystr] →
  ∀ msg, differs (gpt_json g (map entry_json g.(partitions))) (gpt_json g js) key msg = Ok ().
Proof.
  intros Hjs Hk msg. rewrite !elem_of_cons, elem_of_nil in Hk. destruct Hk as [->|[->|[->|[->|[]]]]].
  - change (differs _ _ _ msg) with (refuse (negb (json_eq (header_json g.(primary)) (header_json g.(primary)))) msg).
    by rewrite header_json_eq_refl.
  - change (differs _ _ _ msg) with (refuse (negb (json_eq (header_json g.(backup)) (header_json g.(backup)))) msg).
    by rewrite header_json_eq_refl.
  - unfold differs. simpl. by rewrite Z.eqb_refl.
  - unfold differs. simpl. by rewrite Z.eqb_refl.
Qed.

Record saved (h : host) (D : bytes) (name : pystr) (p b : gpt_record) : Prop := Saved {
  saved_primary : h.(h_file) ("gpt/" ++ name ++ "-primary.bin") = Ok (slice D p.(q_offset_bytes) p.(q_size_bytes));
  saved_backup : h.(h_file) ("gpt/" ++ name ++ "-backup.bin") = Ok (slice D b.(q_offset_bytes) b.(q_size_bytes));
  saved_mode : h.(h_mode) = 384;
  saved_sparse : ∀ image, h.(h_blocks) image * 512 ≤ p.(q_size_bytes) + b.(q_size_bytes) + 1024 * 1024
}.

Lemma rehearse_disk_image h plan disk D name p b size :
  saved h D name p b → filter (λ r, q_disk r = name) plan = [p; b] → gpt_pair disk p b →
  item disk "name" = Ok (JStr name) → item disk "size_bytes" = Ok (JInt size) → len D = size →
  fold_res (write_record h name) (zeros size) [p; b] = Ok (restored D p.(q_size_bytes) b.(q_offset_bytes)).
Proof.
  intros [Hfp Hfb _ _] _ Hpair _ Hs <-.
  destruct (pair_role _ _ _ Hpair) as [Hr1 Hr2]. pose proof (pair_start _ _ _ Hpair) as Ho.
  pose proof (pair_end _ _ _ Hpair) as Hend. pose proof (pair_header _ _ _ Hpair) as H2L.
  pose proof (pair_disjoint _ _ _ Hpair) as Hdis. destruct (pair_block _ _ _ Hpair) as [HL _].
  pose proof (pair_backup_size _ _ _ Hpair) as Hbs.
  apply item_int_of in Hs. unfold disk_size in Hend. rewrite Hs in Hend.
  simpl. unfold write_record. rewrite Hr1, Hr2, Ho in *.
  change ("gpt/" ++ name ++ "-" ++ "primary" ++ ".bin") with ("gpt/" ++ name ++ "-primary.bin").
  change ("gpt/" ++ name ++ "-" ++ "backup" ++ ".bin") with ("gpt/" ++ name ++ "-backup.bin").
  rewrite Hfp. cbn [mbind res_mbind res_bind]. rewrite Hfb. cbn [mbind res_mbind res_bind]. f_equal.
  replace (q_size_bytes b) with (len D - q_offset_bytes b) by lia. apply restored_image; lia.
Qed.

Lemma rehearse_disk_parse h plan disk D name p b L :
  saved h D name p b → filter (λ r, q_disk r = name) plan = [p; b] → gpt_pair disk p b →
  item disk "name" = Ok (JStr name) → item disk "size_bytes" = Ok (JInt (len D)) →
  item disk "logical_block_bytes" = Ok (JInt L) →
  let image := restored D p.(q_size_bytes) b.(q_offset_bytes) in
  rehearse_disk h plan disk = (parsed ← parse_gpt image L (len D); check_restored name disk image L parsed).
Proof.
  intros Hsaved Hrec Hpair Hname Hsize HLog image. pose proof (pair_role _ _ _ Hpair) as [Hr1 Hr2].
  unfold rehearse_disk. rewrite Hname, Ok_bind. change (py_str (JStr name)) with name. rewrite Hrec.
  rewrite refuse_pass; [| simpl; rewrite Hr1, Hr2; vm_compute; reflexivity].
  rewrite Hsize, Ok_bind. cbn [py_int]. rewrite Ok_bind.
  rewrite (rehearse_disk_image h plan disk D name p b (len D)) by done. rewrite Ok_bind. fold image.
  destruct Hsaved as [_ _ Hm Hsp]. specialize (Hsp image).
  rewrite refuse_pass by (by rewrite Hm). rewrite refuse_pass; [| simpl; b2pg; lia].
  rewrite HLog, Ok_bind. cbn [py_int]. by rewrite Ok_bind.
Qed.

Lemma check_restored_same name disk image L g js :
  item disk "gpt" = Ok (gpt_json g js) → map_m project js = Ok (map entry_json g.(partitions)) →
  let off := g.(backup).(g_entries_lba) * L in
  off < len image → len image < 2 ^ 63 → 0 ≤ off → 0 ≤ g.(backup).(g_table_bytes) →
  check_restored name disk image L g = Ok () ↔
  off + g.(backup).(g_table_bytes) ≤ len image ∧
  crc32 (slice image off g.(backup).(g_table_bytes)) = int16 g.(backup).(g_entries_crc32).
Proof.
  intros Hgpt Hjs off Hoff H63 Hoff0 Htb. unfold check_restored. rewrite Hgpt, Ok_bind. rewrite refuse_if_pass by done. cbv zeta.
  assert (∀ ks, (∀ k, k ∈ ks → k ∈ ["primary" : pystr; "backup" : pystr; "primary_entries_crc32_valid" : pystr; "primary_backup_crosscheck" : pystr]) →
    for_each (λ key, differs (gpt_json g (map entry_json (partitions g))) (gpt_json g js) key
      ("restored GPT " ++ key ++ " differs from inventory for " ++ name)) ks = Ok ()) as Hall.
  { intros ks Hks. apply for_each_Ok, Forall_forall. intros k Hk. by apply rehearsal_checks, Hks. }
  rewrite Hall, Ok_bind by done.
  change (item (gpt_json g js) "partitions") with (Ok (JList js)). rewrite Ok_bind, refuse_if_pass by done.
  unfold partition_projection. cbn [list_of]. rewrite Hjs, Ok_bind, entries_json_eq_refl, refuse_pass by done. fold off.
  rewrite refuse_if_pass by (b2pg; lia). assert ((len image <=? off) = false) as -> by (b2pg; lia).
  unfold refuse. rewrite refuse_if_Ok, orb_false_iff, !negb_false_iff, !Z.eqb_eq.
  split; intros [H1 H2]; (split; [| exact H2]).
  - revert H1. unfold slice, len in *. rewrite length_take, length_drop. lia.
  - apply slice_length; lia.
Qed.

(** C25. The rehearsal is exact.  Take a disk as it was inventoried, ranges as
    they were planned for it, and files that hold those ranges of the disk.
    Then the rehearsal passes if and only if the disk's backup header lies in
    a saved range and the disk's backup table is whole and matches its
    checksum: restoring gives back the partition table that was inventoried,
    and nothing else passes. *)
Theorem rehearsal_exact ph sys_block dev_root h plan name disk D p b :
  inventory_disk ph sys_block dev_root name = Ok disk →
  ph.(p_device) (dev_root ++ "/" ++ name) = Ok D → len D = disk_size disk → len D < 2 ^ 63 →
  filter (λ r, q_disk r = name) plan = [p; b] → gpt_pair disk p b → saved h D name p b →
  rehearse_disk h plan disk = Ok () ↔ backup_header_saved disk p b ∧ backup_table_intact D disk.
Proof.
  intros Hinv Hdev HD H63 Hrec Hpair Hsaved.
  apply inventory_disk_shape in Hinv as (L & size & image & g & js & Hdict & Hname & Hsize & HLog & Hgpt & Hdev' & Hg & Hjs).
  rewrite Hdev in Hdev'. injection Hdev' as <-.
  assert (size = len D) as -> by (rewrite HD; unfold disk_size; by rewrite (item_int_of _ _ _ Hsize)).
  assert (disk_logical disk = L) as HL by (apply (item_int_of _ _ _ HLog)).
  assert (sub disk "gpt" = gpt_json g js) as Hsub by (symmetry; by apply item_sub).
  assert (disk_primary disk = header_json g.(primary)) as Hprim by (unfold disk_primary; by rewrite Hsub).
  assert (disk_backup disk = header_json g.(backup)) as Hback by (unfold disk_backup; by rewrite Hsub).
  pose proof (pair_role _ _ _ Hpair) as [Hr1 Hr2]. pose proof (pair_table _ _ _ Hpair) as Htab.
  pose proof (pair_header _ _ _ Hpair) as H2L. pose proof (pair_backup _ _ _ Hpair) as Hboff.
  pose proof (pair_end _ _ _ Hpair) as Hend. pose proof (pair_backup_size _ _ _ Hpair) as Hbs.
  pose proof (pair_disjoint _ _ _ Hpair) as Hdis. destruct (pair_block _ _ _ Hpair) as [HLb _].
  destruct (pair_whole _ _ _ Hpair) as (Hw1 & Hw2 & _).
  unfold backup_header_saved, backup_table_intact. rewrite HL, Hprim, Hback in *. rewrite <-HD in Hend.
  change (int_of (header_json (primary g)) "backup_lba") with (g_backup_lba (primary g)).
  change (int_of (header_json (backup g)) "entries_lba") with (g_entries_lba (backup g)) in *.
  change (int_of (header_json (backup g)) "table_bytes") with (g_table_bytes (backup g)).
  change (text_of (header_json (backup g)) "entries_crc32") with (g_entries_crc32 (backup g)).
  change (int_of (header_json (primary g)) "entries_lba") with (g_entries_lba (primary g)) in *.
  change (int_of (header_json (primary g)) "table_bytes") with (g_table_bytes (primary g)) in *.
  rewrite (rehearse_disk_parse h plan disk D name p b L) by done.
  set (psz := q_size_bytes p) in *. set (boff := q_offset_bytes b) in *.
  destruct (restored_prefix D L psz boff g) as (_ & _ & _ & _ & Hb2 & _); try done; try lia.
  bind_inv Hb2 as raw Hraw. apply header_table in Hb2 as [Htb _]. clear raw Hraw.
  destruct (decide (g_backup_lba (primary g) * L < psz ∨ boff ≤ g_backup_lba (primary g) * L)) as [Hc|Hc].
  - rewrite (restored_parse D L psz boff g), Ok_bind by (done || lia).
    rewrite (check_restored_same name disk _ L g js) by (rewrite ?restored_len by lia; done || lia).
    rewrite restored_len by lia. rewrite <-Hboff.
    destruct (decide (boff + g_table_bytes (backup g) ≤ len D)) as [Hle|Hgt]; [| split; intros H; exfalso; naive_solver lia].
    rewrite restored_backup by lia. split; [intros H; by split | intros [_ H]; done].
  - destruct (restored_hole_refused D L psz boff g) as [e He]; try done; try lia.
    rewrite He. split; [done |]. intros [Hx _]. by destruct Hc.
Qed.

(** ** A disk the theorem applies to
    Sixteen 512-byte sectors with one partition. *)
Definition sample_table : bytes :=
  replicate 16 "001"%char ++ replicate 16 "002"%char ++ le_bytes 8 6 ++ le_bytes 8 9 ++ le_bytes 8 0
  ++ concat (map (λ c, [c; NUL]) ("boot" : pystr)) ++ replicate 64 NUL.
Definition sample_gpt (current other entries : Z) : raw_header :=
  RawHeader 65536 92 current other 3 13 (replicate 16 "003"%char) entries 1 128 (crc32 sample_table).
Definition sample_table_block : bytes := sample_table ++ replicate 384 NUL.
Definition sample_image : bytes := Eval vm_compute in
  replicate 512 NUL ++ header_block (sample_gpt 1 15 2) 512 ++ sample_table_block ++ replicate 5632 "x"%char
  ++ sample_table_block ++ header_block (sample_gpt 15 1 14) 512.
Definition sample_texts : list (pystr * pystr) := [
  ("/s/sda/queue/logical_block_size" : pystr, "512" : pystr); ("/s/sda/size" : pystr, "16" : pystr);
  ("/s/sda/dev" : pystr, "8:0" : pystr); ("/s/sda/ro" : pystr, "0" : pystr);
  ("/s/sda/queue/physical_block_size" : pystr, "512" : pystr); ("/s/sda1/partition" : pystr, "1" : pystr);
  ("/s/sda1/uevent" : pystr, "PARTNAME=boot" : pystr); ("/s/sda1/dev" : pystr, "8:1" : pystr);
  ("/s/sda1/ro" : pystr, "0" : pystr); ("/s/sda1/start" : pystr, "6" : pystr); ("/s/sda1/size" : pystr, "4" : pystr)].
Definition text_at (path : pystr) : res pystr := of_option (lookup_value path sample_texts) FileNotFoundError path.
Definition sample_phone : phone :=
  Phone text_at (λ p, is_ok (text_at p)) (λ _, ["sda" : pystr; "sda1" : pystr]) (λ _ _, []) (λ p, p)
    (λ _, Ok sample_image) (λ _, Raise (Exn FileNotFoundError "blkid")) "7.2.7" "2026-01-01T00:00:00+00:00".
Definition sample_inventory_disk : json := Eval vm_compute in
  match inventory_disk sample_phone "/s" "/d" "sda" with Ok d => d | Raise _ => JNull end.
Definition sample_ranges : list gpt_record := Eval vm_compute in
  match gpt_plan_disk ([], 0) sample_inventory_disk with Ok (l, _) => l | Raise _ => [] end.
Definition range (i : nat) : gpt_record := nth i sample_ranges (GptRecord [] JNull 0 0 [] 0 0).
Definition sample_host : host :=
  Host (λ p, if p == "gpt/sda-primary.bin" then Ok (slice sample_image 0 (q_size_bytes (range 0)))
             else Ok (slice sample_image (q_offset_bytes (range 1)) (q_size_bytes (range 1))))
    (λ _, 16) 384.

Lemma sample_pair : gpt_pair sample_inventory_disk (range 0) (range 1).
Proof.
  destruct (gpt_plan_disk_inv [] 0 sample_inventory_disk sample_ranges (q_size_bytes (range 0) + q_size_bytes (range 1)))
    as (p & b & Hp & Heq & _); [vm_compute; reflexivity |].
  change (sample_ranges) with ([] ++ [range 0; range 1]) in Heq. injection Heq as <- <-. exact Hp.
Qed.

Lemma rehearsal_exact_witness :
  rehearse_disk sample_host sample_ranges sample_inventory_disk = Ok () ∧
  backup_table_intact sample_image sample_inventory_disk.
Proof.
  assert (rehearse_disk sample_host sample_ranges sample_inventory_disk = Ok ()) as H by (vm_compute; reflexivity).
  split; [exact H |].
  refine (proj2 (proj1 (rehearsal_exact sample_phone "/s" "/d" sample_host sample_ranges "sda" sample_inventory_disk
    sample_image (range 0) (range 1) _ _ _ _ _ sample_pair _) H)).
  - vm_compute. reflexivity.
  - reflexivity.
  - vm_compute. reflexivity.
  - vm_compute. reflexivity.
  - vm_compute. reflexivity.
  - constructor; [reflexivity | reflexivity | reflexivity |]. intros. vm_compute. discriminate.
Defined.
