(* ===== verification/BackupRun.v ===== *)
(** * Running, resuming and verifying a storage backup

    The transaction of scripts/host/backup-readonly-storage-inventory.py: the
    output directory with its two manifests, streaming one range at a time
    over SSH, resuming from an accepted prefix, and [main]; and [main] of
    scripts/host/verify-readonly-storage-backup.py.

    The GPT ranges and the partitions are saved by two copies of the same
    code; here they are two instances of the interface [Saved_kind].  The
    output directory is a private store: nothing else writes to it.  Every
    local call may fail ([e_fails], by a counter of the calls made), and the
    phone may answer anything.  A write of a row that fails may have put a
    part of it ([e_part]). *)

From S2P Require Import Prelude PyStr Regex Sha256 Json Gpt BackupPlan.
From S2P Require BackupRehearsal.

Definition TAB : ascii := "009"%char.
Abbreviation path := (pystr * pystr)%type.

Inductive node :=
  | NFile (uid mode : Z) (data : bytes)
  | NLink (dangling : bool)
  | NOther.
Inductive dnode := DDir (uid mode : Z) | DOther.

(** [s_dirs]: the output directory [""] and its subdirectories; [s_nodes]:
    what they hold, by directory and name. *)
Record store := Store {
  s_dirs : gmap pystr dnode;
  s_nodes : gmap path node;
  s_tick : nat
}.
Definition with_nodes (f : gmap path node → gmap path node) (s : store) : store := Store s.(s_dirs) (f s.(s_nodes)) s.(s_tick).
Definition with_dirs (f : gmap pystr dnode → gmap pystr dnode) (s : store) : store := Store (f s.(s_dirs)) s.(s_nodes) s.(s_tick).
Definition tick (s : store) : store := Store s.(s_dirs) s.(s_nodes) (S s.(s_tick)).

(** [e_text] and [e_stream] are SSH running a command: the exit status and
    what it printed, or the exception [subprocess] raises; [e_stream] also
    gives the bytes that reached the file before an exception. *)
Record env := Env {
  e_euid : Z;
  e_umask : Z;
  e_fails : nat → bool;
  e_part : nat → nat;
  e_text : nat → pystr → res (Z * pystr * pystr);
  e_stream : nat → pystr → bytes * res (Z * pystr);
  e_free : nat → Z
}.
Definition created_mode (e : env) (mode : Z) : Z := Z.land mode (Z.lnot e.(e_umask)).

(** ** The interface of a saved kind *)
Class Saved_kind (R : Type) := SavedKind {
  k_dir : pystr;
  k_manifest : pystr;
  k_header : pystr;
  k_file : Z → R → pystr;
  k_fields : Z → R → list pystr;
  k_size : R → Z;
  k_hash_command : pystr → R → pystr;
  k_stream_command : pystr → R → pystr;
  k_what : pystr
}.
Definition tabs (l : list pystr) : pystr := join [TAB] l.

#[export] Instance gpt_kind : Saved_kind gpt_record := SavedKind _ "gpt" "GPT-SHA256SUMS.tsv"
  (tabs ["file" : pystr; "disk" : pystr; "role" : pystr; "offset_bytes" : pystr; "bytes" : pystr; "disk_guid" : pystr;
         "source_sha256" : pystr; "host_sha256" : pystr])
  (λ _ r, r.(q_disk) ++ "-" ++ r.(q_role) ++ ".bin")
  (λ _ r, ["gpt/" ++ r.(q_disk) ++ "-" ++ r.(q_role) ++ ".bin"; r.(q_disk); r.(q_role); str_of_Z r.(q_offset_bytes);
           str_of_Z r.(q_size_bytes); py_str r.(q_disk_guid)])
  q_size_bytes
  (λ boot_id r, gpt_read_command boot_id r ++ " | sha256sum")
  gpt_read_command "GPT".

Definition pad3 (n : Z) : pystr := let s := str_of_Z n in replicate (3 - length s) "0"%char ++ s.
#[export] Instance partition_kind : Saved_kind part_record := SavedKind _ "partitions" "SHA256SUMS.tsv"
  (tabs ["file" : pystr; "label" : pystr; "node" : pystr; "bytes" : pystr; "unique_guid" : pystr;
         "source_sha256" : pystr; "host_sha256" : pystr])
  (λ index r, pad3 index ++ "-" ++ r.(r_label) ++ ".img")
  (λ index r, ["partitions/" ++ pad3 index ++ "-" ++ r.(r_label) ++ ".img"; r.(r_label); r.(r_node);
               str_of_Z r.(r_size_bytes); r.(r_unique_guid)])
  r_size_bytes source_command stream_command "partition".

(** ** Checks of existing files *)
Definition canonical_file (e : env) (s : store) (p : path) (label : pystr) (private : bool) : res (Z * bytes) :=
  match s.(s_nodes) !! p with
  | None | Some (NLink true) => Raise (Exn FileNotFoundError label)
  | Some (NLink false) | Some NOther => Raise (Exn BackupError (label ++ " is not a regular non-symlink file"))
  | Some (NFile uid mode data) =>
      refuse (negb (uid =? e.(e_euid))) (label ++ " is not caller-owned") ;;
      refuse (private && negb (Z.land mode 63 =? 0)) (label ++ " is accessible by another user") ;;
      Ok (mode, data)
  end.
Definition canonical_private_directory (e : env) (s : store) (d label : pystr) : res unit :=
  match s.(s_dirs) !! d with
  | None => Raise (Exn FileNotFoundError label)
  | Some DOther => Raise (Exn BackupError (label ++ " is not a non-symlink directory"))
  | Some (DDir uid mode) =>
      refuse (negb (uid =? e.(e_euid)) || negb (mode =? 448)) (label ++ " is not caller-owned mode 0700")
  end.

Definition verified_resume_file (e : env) (s : store) (p : path) (size : Z) (digest label : pystr) : res unit :=
  '(mode, data) ← canonical_file e s p label true;
  refuse (negb (mode =? 384)) (label ++ " is not mode 0600") ;;
  refuse (negb (len (data : bytes) =? size)) (label ++ " has the wrong size") ;;
  refuse (negb (sha256 data == digest)) (label ++ " does not match its accepted hash").

(** A text that is not ASCII is taken as unreadable. *)
Definition manifest_lines (e : env) (s : store) (p : path) (header label : pystr) : res (list (list pystr)) :=
  '(mode, data) ← canonical_file e s p label true;
  refuse (negb (mode =? 384)) (label ++ " is not mode 0600") ;;
  refuse (negb (isascii data)) (label ++ " cannot be read") ;;
  match splitlines data with
  | [] => Raise (Exn BackupError (label ++ " header or records are invalid"))
  | first :: rest =>
      refuse (negb (first == header) || existsb (λ line, line == []) rest) (label ++ " header or records are invalid") ;;
      Ok (map (split_on TAB) rest)
  end.

(** [directory.iterdir()], the names as a set. *)
Definition names_in (s : store) (d : pystr) : gset pystr :=
  set_map snd (filter (λ p : path, p.1 = d) (dom s.(s_nodes))).

Section kind.
Context {R : Type} `{Saved_kind R}.

(** One row against the record of its position, counted from 1. *)
Definition check_row (e : env) (s : store) (index : Z) (row : list pystr) (r : R) : res pystr :=
  let filename := k_file index r in
  refuse (negb (len row =? len (k_fields index r) + 2) || negb (take (length (k_fields index r)) row == k_fields index r))
    (k_what ++ " manifest record " ++ str_of_Z index ++ " is not the exact plan prefix") ;;
  let source := nth (length (k_fields index r)) row [] in
  let digest := nth (S (length (k_fields index r))) row [] in
  refuse (negb (fullmatch SHA256_RE source) || (source != digest))
    (k_what ++ " manifest record " ++ str_of_Z index ++ " has invalid hashes") ;;
  verified_resume_file e s (k_dir, filename) (k_size r) digest (k_what ++ " file " ++ filename) ;;
  Ok filename.

Fixpoint check_rows (e : env) (s : store) (index : Z) (rows : list (list pystr)) (plan : list R) : res (list pystr) :=
  match rows, plan with
  | row :: rows, r :: plan =>
      filename ← check_row e s index row r;
      rest ← check_rows e s (index + 1) rows plan;
      Ok (filename :: rest)
  | _, _ => Ok []
  end.

Definition verify_resume (e : env) (s : store) (plan : list R) : res Z :=
  rows ← manifest_lines e s ([], k_manifest) k_header (k_what ++ " manifest");
  refuse (len plan <? len rows) (k_what ++ " manifest contains more records than the exact plan") ;;
  accepted ← check_rows e s 1 rows plan;
  refuse (negb (bool_decide (names_in s k_dir = list_to_set accepted)))
    (k_what ++ " directory is not the exact accepted manifest prefix") ;;
  Ok (len rows).
End kind.

Definition verify_gpt_resume : env → store → list gpt_record → res Z := verify_resume.
Definition verify_partition_resume : env → store → list part_record → res Z := verify_resume.

(** ** Saving one range *)
Abbreviation io := (M store).
Section run.
Context (e : env).

(** A local call: it fails or does what it says. *)
Definition call (f : store → store) : io unit := λ s,
  if e.(e_fails) s.(s_tick) then (Raise (Exn OSError "local call"), tick s) else (Ok (), f (tick s)).
Definition read_store {A} (f : store → res A) : io A := λ s, (f s, s).

Definition run_text (command : pystr) : io pystr := λ s,
  (match e.(e_text) s.(s_tick) command with
   | Raise x => Raise x
   | Ok (code, out, err) =>
       if code =? 0 then Ok (strip out)
       else Raise (Exn BackupError ("remote read failed (" ++ str_of_Z code ++ "): " ++ strip err))
   end, tick s).

(** [output.split(maxsplit=1)[0]] of a stripped text. *)
Definition first_word (output : pystr) : pystr := default [] (head (split_ws output)).

Section kind_run.
Context {R : Type} `{Saved_kind R}.

Definition source_sha256 (boot_id : pystr) (r : R) : io pystr :=
  output ← run_text (k_hash_command boot_id r);
  let digest := first_word output in
  lift (refuse (negb (fullmatch SHA256_RE digest)) (k_what ++ " source hash is invalid")) ;;
  mret digest.

Definition partial (name : pystr) : pystr := name ++ ".partial".

(** [os.open(partial, O_CREAT | O_EXCL, 0o600)]. *)
Definition create (p : path) : io unit := λ s,
  if e.(e_fails) s.(s_tick) then (Raise (Exn OSError "open"), tick s)
  else match s.(s_nodes) !! p with
       | Some _ => (Raise (Exn FileExistsError "open"), tick s)
       | None => (Ok (), with_nodes <[p := NFile e.(e_euid) (created_mode e 384) []]> (tick s))
       end.
(** The child's output reaches the file whatever its exit status. *)
Definition stream_into (command : pystr) (p : path) : io unit := λ s,
  let '(data, outcome) := e.(e_stream) s.(s_tick) command in
  let s' := with_nodes <[p := NFile e.(e_euid) (created_mode e 384) data]> (tick s) in
  match outcome with
  | Raise x => (Raise x, s')
  | Ok (code, err) => if code =? 0 then (Ok (), s') else (Raise (Exn BackupError (k_what ++ " stream failed: " ++ strip err)), s')
  end.
Definition file_size (p : path) : io Z := read_store (λ s,
  match s.(s_nodes) !! p with Some (NFile _ _ data) => Ok (len data) | _ => Raise (Exn FileNotFoundError "stat") end).
(** [os.rename] replaces what has the new name. *)
Definition rename (p q : path) : io unit := λ s,
  if e.(e_fails) s.(s_tick) then (Raise (Exn OSError "rename"), tick s)
  else match s.(s_nodes) !! p with
       | Some n => (Ok (), with_nodes (λ m, <[q := n]> (delete p m)) (tick s))
       | None => (Raise (Exn FileNotFoundError "rename"), tick s)
       end.
Definition unlink (p : path) : io unit := λ s,
  if e.(e_fails) s.(s_tick) then (Raise (Exn OSError "unlink"), tick s)
  else match s.(s_nodes) !! p with
       | Some _ => (Ok (), with_nodes (delete p) (tick s))
       | None => (Raise (Exn FileNotFoundError "unlink"), tick s)
       end.
Definition fsync : io unit := call (λ s, s).
Definition fsync_directory : io unit := call (λ s, s).

Definition stream_range (boot_id : pystr) (r : R) (name : pystr) : io unit :=
  create (k_dir, partial name) ;;
  on_error
    (stream_into (k_stream_command boot_id r) (k_dir, partial name) ;;
     fsync ;;
     size ← file_size (k_dir, partial name);
     lift (refuse (negb (size =? k_size r)) (k_what ++ " size mismatch")) ;;
     rename (k_dir, partial name) (k_dir, name) ;;
     fsync_directory)
    (catch (unlink (k_dir, partial name)) (λ c, c == FileNotFoundError) (λ _, pass)).

Definition file_sha256 (p : path) : io pystr := λ s,
  if e.(e_fails) s.(s_tick) then (Raise (Exn OSError "read"), tick s)
  else (match s.(s_nodes) !! p with
        | Some (NFile _ _ data) => Ok (sha256 data)
        | _ => Raise (Exn FileNotFoundError "read")
        end, tick s).

Definition append_text (p : path) (text : pystr) (s : store) : store :=
  with_nodes (alter (λ n, match n with NFile uid mode data => NFile uid mode (data ++ text) | n => n end) p) s.
(** [records.flush()]: what is left in the buffer.  A write that fails may have
    put a part of it ([e_part]) before. *)
Definition flush (p : path) (buffer : bytes) : store → res unit * bytes * store := λ s,
  if e.(e_fails) s.(s_tick) then
    let n := e.(e_part) s.(s_tick) in (Raise (Exn OSError "write"), drop n buffer, append_text p (take n buffer) (tick s))
  else (Ok (), [], append_text p buffer (tick s)).
(** [records.write(row); records.flush(); os.fsync(...)].  When the flush
    fails the rest of the row stays in the buffer and leaving the [with] block
    flushes it once more. *)
Definition write_row (p : path) (row : pystr) : io unit := λ s,
  match flush p (row ++ [LF]) s with
  | (Ok _, _, s1) => fsync s1
  | (Raise x, buffer, s1) => let '(r, _, s2) := flush p buffer s1 in (match r with Ok _ => Raise x | Raise y => Raise y end, s2)
  end.

Definition row_text (index : Z) (r : R) (source digest : pystr) : pystr := tabs (k_fields index r ++ [source; digest]).

Definition save_one (boot_id : pystr) (index : Z) (r : R) : io Z :=
  let name := k_file index r in
  source_digest ← source_sha256 boot_id r;
  stream_range boot_id r name ;;
  host_digest ← file_sha256 (k_dir, name);
  lift (refuse (source_digest != host_digest) ("source/host hash mismatch: " ++ name)) ;;
  write_row ([], k_manifest) (row_text index r source_digest host_digest) ;;
  mret (index + 1).

(** The manifest opened for appending and the loop over the rest of the plan,
    [done] records being accepted. *)
Definition save_all (boot_id : pystr) (plan : list R) (done : Z) : io Z :=
  call (λ s, s) ;;
  fold_m (save_one boot_id) (done + 1) (drop (Z.to_nat done) plan).

(** A fresh manifest: created exclusively, made private, its header written. *)
Definition new_manifest : io unit :=
  create ([], k_manifest) ;;
  call (with_nodes (alter (λ n, match n with NFile uid _ data => NFile uid 384 data | n => n end) ([], k_manifest))) ;;
  write_row ([], k_manifest) k_header.
End kind_run.

(** [path.mkdir(mode=0o700)]. *)
Definition mkdir (d : pystr) : io unit := λ s,
  if e.(e_fails) s.(s_tick) then (Raise (Exn OSError "mkdir"), tick s)
  else match s.(s_dirs) !! d with
       | Some _ => (Raise (Exn FileExistsError "mkdir"), tick s)
       | None => (Ok (), with_dirs <[d := DDir e.(e_euid) (created_mode e 448)]> (tick s))
       end.

Definition BOOT_ID_COMMAND : pystr :=
  "set -eu; printf '%s\n' " ++ DQ :: "$(cat /proc/sys/kernel/random/boot_id)" ++ [DQ].
Definition HEADROOM : Z := 1024 * 1024 * 1024.

(** [main] once the inventory and the key files are read: the output
    directory is prepared or resumed, then both kinds are saved. *)
Definition open_output (resume : bool) (plan : list part_record) (gpt_plan : list gpt_record) : io (Z * Z) :=
  if resume then
    read_store (λ s,
      canonical_private_directory e s [] "backup output" ;;
      canonical_private_directory e s "partitions" "partition backup directory" ;;
      canonical_private_directory e s "gpt" "GPT backup directory" ;;
      gpt_done ← verify_gpt_resume e s gpt_plan;
      partition_done ← verify_partition_resume e s plan;
      Ok (gpt_done, partition_done))
  else
    read_store (λ s, refuse (bool_decide (is_Some (s.(s_dirs) !! ([] : pystr)))) "backup output already exists") ;;
    mkdir [] ;;
    mkdir "partitions" ;;
    mkdir "gpt" ;;
    new_manifest (R := gpt_record) ;;
    new_manifest (R := part_record) ;;
    mret (0, 0).

Definition sum_sizes {R} `{Saved_kind R} (l : list R) : Z := foldr Z.add 0 (map k_size l).

Definition backup_body (resume : bool) (boot_id : pystr) (plan : list part_record) (gpt_plan : list gpt_record) : io unit :=
  '(gpt_done, partition_done) ← open_output resume plan gpt_plan;
  read_store (λ s, refuse (e.(e_free) s.(s_tick) <? sum_sizes (drop (Z.to_nat gpt_done) gpt_plan)
                           + sum_sizes (drop (Z.to_nat partition_done) plan) + HEADROOM)
                     "less than the required remaining backup headroom is free") ;;
  remote_id ← run_text BOOT_ID_COMMAND;
  lift (refuse (remote_id != boot_id) "phone boot identity changed before backup") ;;
  save_all boot_id gpt_plan gpt_done ;;
  save_all boot_id plan partition_done ;;
  mret ().

(** What [main] answers with exit status 1. *)
Definition reported (c : exn_class) : bool :=
  is_oserror c || bool_decide (c ∈ [BackupError; SubprocessError; ValueError; UnicodeError]).

Definition main (resume : bool) (inventory : json) : io Z :=
  catch
    (boot_id ← lift (get inventory "boot_id");
     '(plan, _) ← lift (backup_plan inventory);
     '(gpt_plan, _) ← lift (gpt_backup_plan inventory);
     backup_body resume (py_str boot_id) plan gpt_plan ;;
     mret 0)
    reported (λ _, mret 1).
End run.

(** [main] of the verifier; the files are those of the store. *)
Definition verify_backup (e : env) (s : store) (blocks : bytes → Z) (mode : Z) (inventory : json) : res unit :=
  canonical_private_directory e s [] "backup output" ;;
  canonical_private_directory e s "partitions" "partition backup directory" ;;
  canonical_private_directory e s "gpt" "GPT backup directory" ;;
  '(plan, _) ← backup_plan inventory;
  '(gpt_plan, _) ← gpt_backup_plan inventory;
  gpt_count ← verify_gpt_resume e s gpt_plan;
  partition_count ← verify_partition_resume e s plan;
  refuse (negb (gpt_count =? len gpt_plan) || negb (partition_count =? len plan)) "backup is only a prefix, not complete" ;;
  BackupRehearsal.rehearse_gpt_restore
    (BackupRehearsal.Host (λ p, match s.(s_nodes) !! ("gpt" : pystr, drop 4 p) with
                                | Some (NFile _ _ data) => Ok data
                                | _ => Raise (Exn FileNotFoundError p) end) blocks mode)
    inventory gpt_plan.

(** ** The manifest as data *)
Section progress.
Context {R : Type} `{Saved_kind R} (e : env) (plan : list R).

Fixpoint rows_from (index : Z) (plan : list R) (hs : list pystr) : list pystr :=
  match plan, hs with
  | r :: plan, h :: hs => row_text index r h h :: rows_from (index + 1) plan hs
  | _, _ => []
  end.
Fixpoint names_from (index : Z) (plan : list R) : list pystr :=
  match plan with [] => [] | r :: plan => k_file index r :: names_from (index + 1) plan end.

(** The file of one record is there, private and whole, and has the hash. *)
Definition file_ok (s : store) (index : Z) (r : R) (h : pystr) : Prop :=
  ∃ data, s.(s_nodes) !! ((k_dir : pystr), k_file index r) = Some (NFile e.(e_euid) 384 data) ∧
    len data = k_size r ∧ sha256 data = h.

(** The manifest lists exactly the first records of the plan with the hashes
    [hs], and every file it lists is there with its hash. *)
Record progress (s : store) (hs : list pystr) : Prop := Progress {
  pr_length : (length hs ≤ length plan)%nat;
  pr_manifest : ∃ data, s.(s_nodes) !! ([] : pystr, k_manifest : pystr) = Some (NFile e.(e_euid) 384 data) ∧
    isascii data = true ∧ splitlines data = k_header :: rows_from 1 plan hs;
  pr_files : ∀ i r h, plan !! i = Some r → hs !! i = Some h → file_ok s (Z.of_nat i + 1) r h
}.
(** Its last line is terminated, so a row can be appended. *)
Definition terminated (s : store) : Prop :=
  ∃ uid mode data, s.(s_nodes) !! ([] : pystr, k_manifest : pystr) = Some (NFile uid mode data) ∧ last data = Some LF.
(** Nothing else is in the directory. *)
Definition exact (s : store) (hs : list pystr) : Prop :=
  progress s hs ∧ ∀ n, is_Some (s.(s_nodes) !! ((k_dir : pystr), n)) ↔ n ∈ names_from 1 (take (length hs) plan).

(** A plan whose fields can be written in a row and read back, and whose
    files have names of their own. *)
Definition plain_field (f : pystr) : Prop := (TAB ∉ f) ∧ one_line f ∧ isascii f = true.
Record plan_ok : Prop := PlanOk {
  ok_fields : ∀ i r, plan !! i = Some r → Forall plain_field (k_fields (Z.of_nat i + 1) r);
  ok_names : NoDup (names_from 1 plan);
  ok_partial : ∀ i r, plan !! i = Some r → partial (k_file (Z.of_nat i + 1) r) ∉ names_from 1 plan;
  ok_header : one_line k_header ∧ isascii k_header = true;
  ok_dir : (k_dir : pystr) ≠ []
}.
Context (Hplan : plan_ok).

(** ** Rows *)
Lemma sha_field h : fullmatch SHA256_RE h = true → plain_field h.
Proof.
  intros [Hl Hh]%fullmatch_rep. rewrite Forall_forall in Hh. split_and!.
  - intros Hin. by specialize (Hh _ Hin).
  - apply Forall_forall. intros c Hc. specialize (Hh c Hc). unfold is_hex, is_digit, is_linebreak in *.
    unfold between in *. apply orb_true_iff in Hh.
    change (ord "0"%char) with 48 in Hh. change (ord "9"%char) with 57 in Hh. change (ord "a"%char) with 97 in Hh.
    change (ord "f"%char) with 102 in Hh. change (ord "010"%char) with 10. change (ord "013"%char) with 13.
    change (ord "028"%char) with 28. change (ord "030"%char) with 30.
    apply orb_false_iff; split; [apply orb_false_iff; split; apply andb_false_iff |]; b2p; rewrite ?Z.leb_gt, ?Z.eqb_neq; lia.
  - unfold isascii. apply forallb_Forall, Forall_forall. intros c Hc. specialize (Hh c Hc). unfold is_hex, is_digit, between in *.
    change (ord "0"%char) with 48 in Hh. change (ord "9"%char) with 57 in Hh. change (ord "a"%char) with 97 in Hh.
    change (ord "f"%char) with 102 in Hh. apply orb_true_iff in Hh. b2pg. lia.
Qed.
Lemma sha256_field d : fullmatch SHA256_RE (sha256 d) = true.
Proof. apply fullmatch_rep. split; [rewrite sha256_length; lia | apply sha256_is_hex]. Qed.

Lemma split_row index r h : Forall plain_field (k_fields index r) → fullmatch SHA256_RE h = true →
  split_on TAB (row_text index r h h) = k_fields index r ++ [h; h].
Proof.
  intros Hf Hh. unfold row_text, tabs. apply split_join; [by destruct (k_fields index r) |].
  apply Forall_app. split; [by eapply Forall_impl; [exact Hf |]; intros ? [? _] |].
  destruct (sha_field h Hh) as [? _]. by repeat constructor.
Qed.
Lemma join_plain l : Forall plain_field l → one_line (tabs l) ∧ isascii (tabs l) = true.
Proof.
  intros Hl. unfold tabs. induction l as [|w [|w' ws] IH]; [split; [constructor | done] | |].
  - apply Forall_cons in Hl as [(_ & ? & ?) _]. done.
  - apply Forall_cons in Hl as [(_ & H1 & H2) Hl]. destruct (IH Hl) as [I1 I2].
    change (join [TAB] (w :: w' :: ws)) with (w ++ [TAB] ++ join [TAB] (w' :: ws)). unfold one_line, isascii in *.
    rewrite !Forall_app, !forallb_app, H2, I2. split; [split_and!; try done; by repeat constructor | done].
Qed.
Lemma row_plain index r h : Forall plain_field (k_fields index r) → fullmatch SHA256_RE h = true →
  one_line (row_text index r h h) ∧ isascii (row_text index r h h) = true.
Proof. intros Hf Hh. apply join_plain, Forall_app. split; [done |]. pose proof (sha_field h Hh).
  do 2 (apply Forall_cons_2; [done |]). apply Forall_nil_2. Qed.

Lemma resume_file_Ok s p size digest label :
  verified_resume_file e s p size digest label = Ok () ↔
  ∃ data, s.(s_nodes) !! p = Some (NFile e.(e_euid) 384 data) ∧ len data = size ∧ sha256 data = digest.
Proof.
  unfold verified_resume_file, canonical_file, refuse. split.
  - intros H1. bind_inv H1 as [mode data] Hc. guard_inv H1 as Hm. guard_inv H1 as Hs. apply refuse_if_Ok in H1.
    destruct (s_nodes s !! p) as [[uid m d|[]|]|]; try done. guard_inv Hc as Hu. guard_inv Hc as Hp. injection Hc as -> ->.
    b2p. subst. eauto.
  - intros (data & -> & <- & <-). rewrite (Z.eqb_refl (e_euid e)). simpl. rewrite (Z.eqb_refl (len data)). simpl. by rewrite bool_decide_true.
Qed.

Lemma check_row_Ok s index row r name :
  check_row e s index row r = Ok name ↔
  name = k_file index r ∧ ∃ h, row = k_fields index r ++ [h; h] ∧ file_ok s index r h.
Proof.
  unfold check_row, refuse. set (f := k_fields index r). split.
  - intros H1. guard_inv H1 as Hl. guard_inv H1 as Hh. guard_inv H1 as Hv. injection H1 as <-. split; [done |].
    apply orb_false_iff in Hl as [Hl%negb_false_iff Hf%negb_false_iff]. apply orb_false_iff in Hh as [Hh%negb_false_iff Hd%negb_false_iff].
    b2p. assert (∃ a b, row = f ++ [a; b]) as (a & b & ->).
    { rewrite <-(take_drop (length f) row), Hf. unfold len in Hl. destruct (drop (length f) row) as [|a [|b [|c t]]] eqn:Ed;
        apply (f_equal length) in Ed; rewrite length_drop in Ed; simpl in Ed; try lia. eauto. }
    assert (nth (length f) (f ++ [a; b]) [] = a) as Ea by (rewrite app_nth2 by lia; by rewrite Nat.sub_diag).
    assert (nth (S (length f)) (f ++ [a; b]) [] = b) as Eb by (rewrite app_nth2 by lia; by replace (S (length f) - length f)%nat with 1%nat by lia).
    rewrite Ea, Eb in *. subst b. exists a. split; [done |].
    apply resume_file_Ok in Hv. exact Hv.
  - intros (-> & h & -> & Hfile).
    assert (nth (length f) (f ++ [h; h]) [] = h) as -> by (rewrite app_nth2 by lia; by rewrite Nat.sub_diag).
    assert (nth (S (length f)) (f ++ [h; h]) [] = h) as -> by (rewrite app_nth2 by lia; by replace (S (length f) - length f)%nat with 1%nat by lia).
    rewrite refuse_if_pass. 2: { apply orb_false_iff. rewrite !negb_false_iff, take_app_length. split; [| by apply bool_decide_eq_true].
      unfold len. rewrite length_app. simpl. b2pg. lia. }
    assert (fullmatch SHA256_RE h = true) as -> by (destruct Hfile as (d & _ & _ & <-); apply sha256_field).
    rewrite refuse_if_pass by (simpl; by rewrite bool_decide_true).
    destruct (proj2 (resume_file_Ok s (k_dir, k_file index r) (k_size r) h (k_what ++ " file " ++ k_file index r)) Hfile).
    assert (verified_resume_file e s (k_dir, k_file index r) (k_size r) h (k_what ++ " file " ++ k_file index r) = Ok ()) as ->; [| done].
    by apply resume_file_Ok.
Qed.

Fixpoint fields_from (index : Z) (plan : list R) (hs : list pystr) : list (list pystr) :=
  match plan, hs with
  | r :: plan, h :: hs => (k_fields index r ++ [h; h]) :: fields_from (index + 1) plan hs
  | _, _ => []
  end.
Definition files_from (s : store) (index : Z) (pl : list R) (hs : list pystr) : Prop :=
  ∀ i r h, pl !! i = Some r → hs !! i = Some h → file_ok s (Z.of_nat i + index) r h.

Lemma files_from_cons s index r pl h hs :
  files_from s index (r :: pl) (h :: hs) ↔ file_ok s index r h ∧ files_from s (index + 1) pl hs.
Proof.
  unfold files_from. split.
  - intros Hf. split; [by apply (Hf 0%nat) |]. intros i r' h' Hr Hh. specialize (Hf (S i) r' h' Hr Hh).
    by replace (Z.of_nat i + (index + 1)) with (Z.of_nat (S i) + index) by lia.
  - intros [Hf Hr] [|i] r' h'; simpl.
    + intros [= <-] [= <-]. done.
    + intros H1 H2. specialize (Hr i r' h' H1 H2). by replace (Z.of_nat (S i) + index) with (Z.of_nat i + (index + 1)) by lia.
Qed.

Lemma check_rows_Ok s index rows pl names :
  (length rows ≤ length pl)%nat →
  check_rows e s index rows pl = Ok names ↔
  names = names_from index (take (length rows) pl) ∧
  ∃ hs, length hs = length rows ∧ rows = fields_from index pl hs ∧ files_from s index pl hs.
Proof.
  revert index pl names. induction rows as [|row rows IH]; intros index [|r pl] names Hl; simpl in Hl; try lia; simpl.
  - split; [intros [= <-]; split; [done |]; by exists [] | by intros [-> _]].
  - split; [intros [= <-]; split; [done |]; by exists [] | by intros [-> _]].
  - rewrite bind_Ok. split.
    + intros (name & Hrow & Hk). bind_inv Hk as rest Hrest. injection Hk as <-.
      apply check_row_Ok in Hrow as (-> & h & -> & Hf). apply IH in Hrest as (-> & hs & Hhs & -> & Hfs); [| lia].
      split; [done |]. exists (h :: hs). simpl. split_and!; [lia | done | by apply files_from_cons].
    + intros (-> & [|h hs] & Hhs & Heq & Hfs); simpl in *; [lia |]. injection Heq as -> ->.
      apply files_from_cons in Hfs as [Hf Hfs]. eexists. split; [apply check_row_Ok; eauto |].
      assert (check_rows e s (index + 1) (fields_from (index + 1) pl hs) pl = Ok (names_from (index + 1) (take (length (fields_from (index + 1) pl hs)) pl))) as ->; [| done].
      apply IH; [lia |]. split; [done |]. exists hs. split_and!; [lia | done | done].
Qed.

Lemma names_in_spec s d n : n ∈ names_in s d ↔ is_Some (s.(s_nodes) !! (d, n)).
Proof.
  unfold names_in. rewrite elem_of_map. split.
  - intros ([d' n'] & -> & [Hd Hin]%elem_of_filter). simpl in *. subst. by apply elem_of_dom in Hin.
  - intros Hs. exists (d, n). split; [done |]. apply elem_of_filter. split; [done | by apply elem_of_dom].
Qed.

Lemma tabs_fields index pl hs : map tabs (fields_from index pl hs) = rows_from index pl hs.
Proof.
  revert index hs. induction pl as [|r pl IH]; intros index [|h hs]; simpl; try done. by rewrite IH.
Qed.
Lemma rows_length index pl hs : (length hs ≤ length pl)%nat → length (rows_from index pl hs) = length hs.
Proof. revert index hs. induction pl as [|r pl IH]; intros index [|h hs] Hl; simpl in *; try lia. rewrite IH; lia. Qed.
Lemma fields_rows s index pl hs :
  (∀ i r, pl !! i = Some r → Forall plain_field (k_fields (Z.of_nat i + index) r)) → files_from s index pl hs →
  map (split_on TAB) (rows_from index pl hs) = fields_from index pl hs ∧
  Forall (λ row, row ≠ []) (rows_from index pl hs).
Proof.
  revert index hs. induction pl as [|r pl IH]; intros index [|h hs] Hp Hf; simpl; try done.
  apply files_from_cons in Hf as [(data & _ & _ & Hd) Hf].
  assert (split_on TAB (row_text index r h h) = k_fields index r ++ [h; h]) as Hs.
  { apply split_row; [apply (Hp 0%nat); done | rewrite <-Hd; apply sha256_field]. }
  destruct (IH (index + 1) hs) as [-> Hne]; [| done |].
  - intros i r' Hr. replace (Z.of_nat i + (index + 1)) with (Z.of_nat (S i) + index) by lia. by apply (Hp (S i)).
  - rewrite Hs. split; [done |]. constructor; [| done]. intros Hnil. rewrite Hnil in Hs. simpl in Hs.
    apply (f_equal length) in Hs. rewrite length_app in Hs. simpl in Hs. lia.
Qed.

(** Resuming accepts exactly a true prefix. *)
Lemma verify_resume_exact s n : verify_resume e s plan = Ok n ↔ ∃ hs, n = len hs ∧ exact s hs.
Proof using Hplan.
  unfold verify_resume, refuse. split.
  - intros H1. bind_inv H1 as rows Hm. guard_inv H1 as Hle. bind_inv H1 as names Hc. guard_inv H1 as Hn. injection H1 as <-. b2p.
    assert (length rows ≤ length plan)%nat as Hlen by (unfold len in Hle; lia).
    apply check_rows_Ok in Hc as (-> & hs & Hhs & Hrows & Hfs); [| done].
    unfold manifest_lines, refuse in Hm. bind_inv Hm as [mode data] Hf. guard_inv Hm as Hmode. guard_inv Hm as Hasc.
    unfold canonical_file, refuse in Hf. destruct (s_nodes s !! _) as [[uid m d|[]|]|] eqn:En; try done.
    guard_inv Hf as Hu. guard_inv Hf as Hp. injection Hf as -> ->.
    destruct (splitlines data) as [|first rest] eqn:Esp; [done |]. guard_inv Hm as Hh. injection Hm as Hrest. b2p. subst.
    exists hs. split; [unfold len; by rewrite <-Hhs |]. split; [constructor |].
    + lia.
    + exists data. split_and!; try done. rewrite Esp. f_equal. rewrite <-tabs_fields, <-Hrows, map_map.
      rewrite <-(map_id rest) at 1. apply map_ext. intros l. symmetry. apply join_split.
    + exact Hfs.
    + intros m. rewrite <-names_in_spec, Hn, elem_of_list_to_set, Hhs. done.
  - intros (hs & -> & [Hl (data & Hd & Ha & Hsp) Hfs] & Hnames).
    destruct (fields_rows s 1 plan hs) as [Hmap Hne]; [intros i r Hr; by apply ok_fields | done |].
    unfold manifest_lines, canonical_file, refuse. rewrite Hd. rewrite (Z.eqb_refl (e_euid e)). simpl. rewrite Ha. simpl.
    rewrite Hsp. rewrite bool_decide_true by done.
    assert (existsb (λ line, line == []) (rows_from 1 plan hs) = false) as ->.
    { apply existsb_false. eapply Forall_impl; [exact Hne |]. intros l Hx. by apply bool_decide_eq_false. }
    simpl. rewrite Hmap. assert (length (fields_from 1 plan hs) = length hs) as Hlf by (rewrite <-Hmap, length_map; by apply rows_length).
    rewrite refuse_if_pass by (unfold len; b2pg; lia).
    assert (check_rows e s 1 (fields_from 1 plan hs) plan = Ok (names_from 1 (take (length hs) plan))) as ->.
    { apply check_rows_Ok; [lia |]. rewrite Hlf. split; [done |]. exists hs. done. }
    simpl. rewrite refuse_if_pass; [unfold len; by rewrite Hlf |]. apply negb_false_iff, bool_decide_eq_true.
    apply set_eq. intros m. by rewrite names_in_spec, Hnames, elem_of_list_to_set.
Qed.
End progress.

(** ** What one call does to the store *)
Definition unchanged (s s' : store) : Prop := s'.(s_nodes) = s.(s_nodes) ∧ s'.(s_dirs) = s.(s_dirs).
Definition changed (f : gmap path node → gmap path node) (s s' : store) : Prop :=
  s'.(s_nodes) = f s.(s_nodes) ∧ s'.(s_dirs) = s.(s_dirs).

Section calls.
Context (e : env).

Lemma call_wp f (Q : res unit → store → Prop) s :
  (∀ x s', unchanged s s' → Q (Raise x) s') → Q (Ok ()) (f (tick s)) → wp (call e f) Q s.
Proof. intros Hr Hok. unfold wp, call. destruct (e_fails e _); [by apply Hr | done]. Qed.
Lemma store_fsync_wp (Q : res unit → store → Prop) s :
  (∀ r s', unchanged s s' → Q r s') → wp (call e (λ s, s)) Q s.
Proof. intros HQ. apply call_wp; intros; by apply HQ. Qed.
Lemma create_wp p (Q : res unit → store → Prop) s :
  (∀ x s', unchanged s s' → Q (Raise x) s') →
  (s.(s_nodes) !! p = None → ∀ s', changed <[p := NFile e.(e_euid) (created_mode e 384) []]> s s' → Q (Ok ()) s') →
  wp (create e p) Q s.
Proof.
  intros Hr Hok. unfold wp, create. destruct (e_fails e _); [by apply Hr |].
  destruct (s_nodes s !! p) eqn:E; [by apply Hr | by apply Hok].
Qed.
Lemma stream_wp {R} `{Saved_kind R} command p (Q : res unit → store → Prop) s :
  (∀ r s' data, changed <[p := NFile e.(e_euid) (created_mode e 384) data]> s s' → Q r s') →
  wp (stream_into e command p) Q s.
Proof.
  intros HQ. unfold wp, stream_into. destruct (e_stream e _ _) as [data [[code err]|x]]; [destruct (code =? 0) |];
    simpl; by apply (HQ _ _ data).
Qed.
Lemma rename_wp p q (Q : res unit → store → Prop) s :
  (∀ x s', unchanged s s' → Q (Raise x) s') →
  (∀ n s', s.(s_nodes) !! p = Some n → changed (λ m, <[q := n]> (delete p m)) s s' → Q (Ok ()) s') →
  wp (rename e p q) Q s.
Proof.
  intros Hr Hok. unfold wp, rename. destruct (e_fails e _); [by apply Hr |].
  destruct (s_nodes s !! p) eqn:E; [by eapply Hok | by apply Hr].
Qed.
Lemma unlink_wp p (Q : res unit → store → Prop) s :
  (∀ x s', unchanged s s' → Q (Raise x) s') →
  (∀ s', changed (delete p) s s' → Q (Ok ()) s') →
  wp (unlink e p) Q s.
Proof.
  intros Hr Hok. unfold wp, unlink. destruct (e_fails e _); [by apply Hr |].
  destruct (s_nodes s !! p) eqn:E; [by apply Hok | by apply Hr].
Qed.
Lemma text_wp command (Q : res pystr → store → Prop) s :
  (∀ r s', unchanged s s' → Q r s') → wp (run_text e command) Q s.
Proof. intros HQ. unfold wp, run_text. by apply HQ. Qed.
Lemma sha256_wp p (Q : res pystr → store → Prop) s :
  (∀ x s', unchanged s s' → Q (Raise x) s') →
  (∀ uid mode data s', s.(s_nodes) !! p = Some (NFile uid mode data) → unchanged s s' → Q (Ok (sha256 data)) s') →
  wp (file_sha256 e p) Q s.
Proof.
  intros Hr Hok. unfold wp, file_sha256. destruct (e_fails e _); [by apply Hr |].
  destruct (s_nodes s !! p) as [[uid mode data| |]|] eqn:E; simpl; try by apply Hr. by apply (Hok uid mode data).
Qed.
Definition appended (p : path) (text : bytes) : gmap path node → gmap path node :=
  alter (λ n, match n with NFile uid mode data => NFile uid mode (data ++ text) | n => n end) p.
Lemma appended_twice p a b m : appended p b (appended p a m) = appended p (a ++ b) m.
Proof.
  unfold appended. apply map_eq. intros q. destruct (decide (q = p)) as [->|]; [| by rewrite !lookup_alter_ne].
  rewrite !lookup_alter_eq. destruct (m !! p) as [[uid mode data| |]|]; simpl; by rewrite <- ?app_assoc.
Qed.
Lemma flush_changes p buffer s : let '(r, rest, s') := flush e p buffer s in
  ∃ t, t ++ rest = buffer ∧ changed (appended p t) s s' ∧ (is_ok r = true → t = buffer).
Proof.
  unfold flush. destruct (e_fails e _); [| by exists buffer; rewrite app_nil_r].
  exists (take (e_part e (s_tick s)) buffer). by rewrite take_drop.
Qed.
(** A beginning of the row is written, and all of it if no exception is
    raised. *)
Lemma write_row_wp p row (Q : res unit → store → Prop) s :
  (∀ t rest r s', t ++ rest = row ++ [LF] → (rest ≠ [] → is_ok r = false) → changed (appended p t) s s' → Q r s') →
  wp (write_row e p row) Q s.
Proof.
  intros HQ. unfold wp, write_row. pose proof (flush_changes p (row ++ [LF]) s) as H1. destruct (flush e p (row ++ [LF]) s) as [[r rest] s1].
  destruct H1 as (t & Ht & H1 & Hok). destruct r as [[]|x].
  - apply (store_fsync_wp (λ r s', Q r s')). intros r s' [Hn Hd]. apply (HQ t []); [by rewrite app_nil_r, (Hok eq_refl) | done |].
    destruct H1 as [H1 H2]. split; congruence.
  - pose proof (flush_changes p rest s1) as H2. destruct (flush e p rest s1) as [[r2 rest2] s2]. destruct H2 as (t2 & Ht2 & H2 & _).
    apply (HQ (t ++ t2) rest2); [by rewrite <- app_assoc, Ht2 | by destruct r2 |]. destruct H1 as [H1 D1], H2 as [H2 D2].
    simpl. split; [| congruence]. by rewrite H2, H1, appended_twice.
Qed.
End calls.

(** Only the paths [ps] differ. *)
Definition same_but (ps : list path) (s s' : store) : Prop :=
  s'.(s_dirs) = s.(s_dirs) ∧ ∀ p, p ∉ ps → s'.(s_nodes) !! p = s.(s_nodes) !! p.
Lemma same_but_refl ps s : same_but ps s s.
Proof. done. Qed.
Lemma same_but_unchanged ps s0 s s' : same_but ps s0 s → unchanged s s' → same_but ps s0 s'.
Proof. intros [Hd Hn] [Hn' Hd']. split; [congruence |]. intros p Hp. rewrite Hn'. by apply Hn. Qed.
Lemma same_but_changed ps s0 s s' f :
  same_but ps s0 s → changed f s s' → (∀ m p, p ∉ ps → f m !! p = m !! p) → same_but ps s0 s'.
Proof. intros [Hd Hn] [Hn' Hd'] Hf. split; [congruence |]. intros p Hp. rewrite Hn', Hf by done. by apply Hn. Qed.

(** Calls on the paths [ps] leave the others alone. *)
Section keeps.
Context (e : env) (ps : list path) (s0 : store).
Abbreviation keeps := (preserves (same_but ps s0)).
Lemma store_keeps_fsync : keeps (call e (λ s, s)).
Proof. intros s Hs. apply (store_fsync_wp e (λ _ s', same_but ps s0 s')). intros. by eapply same_but_unchanged. Qed.
Lemma keeps_fsync_file : keeps (fsync e).
Proof. exact store_keeps_fsync. Qed.
Lemma keeps_fsync_directory : keeps (fsync_directory e).
Proof. exact store_keeps_fsync. Qed.
Lemma store_keeps_create p : p ∈ ps → keeps (create e p).
Proof.
  intros Hp s Hs. apply (create_wp e p (λ _ s', same_but ps s0 s')); intros; [by eapply same_but_unchanged |].
  eapply same_but_changed; [done | done |]. intros m q Hq. apply lookup_insert_ne. set_solver.
Qed.
Lemma keeps_stream_into {R} `{Saved_kind R} command p : p ∈ ps → keeps (stream_into e command p).
Proof.
  intros Hp s Hs. apply (stream_wp e command p (λ _ s', same_but ps s0 s')). intros.
  eapply same_but_changed; [done | done |]. intros m q Hq. apply lookup_insert_ne. set_solver.
Qed.
Lemma store_keeps_rename p q : p ∈ ps → q ∈ ps → keeps (rename e p q).
Proof.
  intros Hp Hq s Hs. apply (rename_wp e p q (λ _ s', same_but ps s0 s')); intros; [by eapply same_but_unchanged |].
  eapply same_but_changed; [done | done |]. intros m q' Hq'. simpl.
  rewrite lookup_insert_ne by set_solver. apply lookup_delete_ne. set_solver.
Qed.
Lemma store_keeps_unlink p : p ∈ ps → keeps (unlink e p).
Proof.
  intros Hp s Hs. apply (unlink_wp e p (λ _ s', same_but ps s0 s')); intros; [by eapply same_but_unchanged |].
  eapply same_but_changed; [done | done |]. intros m q Hq. apply lookup_delete_ne. set_solver.
Qed.
Lemma keeps_text command : keeps (run_text e command).
Proof. intros s Hs. apply (text_wp e command (λ _ s', same_but ps s0 s')). intros. by eapply same_but_unchanged. Qed.
Lemma keeps_sha256 p : keeps (file_sha256 e p).
Proof. intros s Hs. apply (sha256_wp e p (λ _ s', same_but ps s0 s')); intros; by eapply same_but_unchanged. Qed.
Lemma keeps_file_size p : keeps (file_size p).
Proof. intros s Hs. exact Hs. Qed.
Lemma keeps_write_row p row : p ∈ ps → keeps (write_row e p row).
Proof.
  intros Hp s Hs. apply (write_row_wp e p row (λ _ s', same_but ps s0 s')); intros.
  eapply same_but_changed; [done | done |]. intros m q Hq. apply lookup_alter_ne. set_solver.
Qed.
End keeps.

Create HintDb store.
#[export] Hint Resolve store_keeps_fsync keeps_fsync_file keeps_fsync_directory store_keeps_create keeps_stream_into store_keeps_rename store_keeps_unlink keeps_text keeps_sha256
  keeps_file_size keeps_write_row preserves_lift preserves_mret preserves_pass : store.

Section stream.
Context {R : Type} `{Saved_kind R} (e : env).
Abbreviation at_ name := ((k_dir : pystr), (name : pystr)).

Lemma keeps_stream_range ps s0 boot_id (r : R) name :
  at_ (partial name) ∈ ps → at_ name ∈ ps → preserves (same_but ps s0) (stream_range e boot_id r name).
Proof.
  intros Hp Hn. unfold stream_range.
  apply preserves_bind; [auto with store |]. intros _. apply preserves_catch; [| intros x s Hs].
  - repeat (apply preserves_bind; [solve [auto with store] | intros ?]). apply store_keeps_fsync.
  - assert (preserves (same_but ps s0) (catch (unlink e (at_ (partial name))) (λ c, c == FileNotFoundError) (λ _, pass))) as Hc
      by (apply preserves_catch; auto with store).
    specialize (Hc s Hs). by destruct (catch _ _ _ s) as [[]].
Qed.
Lemma partial_ne name : partial name ≠ name.
Proof. unfold partial. intros Hn. apply (f_equal length) in Hn. rewrite length_app in Hn. simpl in Hn. lia. Qed.

Lemma stream_range_done boot_id (r : R) name s s' :
  created_mode e 384 = 384 → stream_range e boot_id r name s = (Ok (), s') →
  s'.(s_nodes) !! at_ (partial name) = None ∧
  ∃ data, s'.(s_nodes) !! at_ name = Some (NFile e.(e_euid) 384 data) ∧ len data = k_size r.
Proof.
  intros Hmask Hrun.
  assert (wp (stream_range e boot_id r name) (λ res s', match res with
    | Ok _ => s'.(s_nodes) !! at_ (partial name) = None ∧
              ∃ data, s'.(s_nodes) !! at_ name = Some (NFile e.(e_euid) 384 data) ∧ len data = k_size r
    | Raise _ => True end) s) as Hwp; [| by unfold wp in Hwp; rewrite Hrun in Hwp].
  clear Hrun s'. unfold stream_range. apply wp_bind, create_wp; [done |]. intros _ s1 _.
  apply wp_on_error. eapply wp_mono with (Q := λ res s', match res with
    | Ok _ => s'.(s_nodes) !! at_ (partial name) = None ∧
              ∃ data, s'.(s_nodes) !! at_ name = Some (NFile e.(e_euid) 384 data) ∧ len data = k_size r
    | Raise _ => True end).
  2: { intros [?|x] s'; [done |]. intros _. unfold wp. by destruct (catch _ _ _ s') as [[]]. }
  apply wp_bind, stream_wp. intros [[]|] s2 data [H2 _]; [| done].
  apply wp_bind, store_fsync_wp. intros [[]|] s3 [H3 _]; [| done].
  apply wp_bind. unfold wp at 1, file_size, read_store. rewrite H3, H2, lookup_insert_eq. simpl.
  apply wp_bind, wp_lift. unfold refuse, refuse_if. destruct (negb _) eqn:Es; [done |]. b2p.
  apply wp_bind, rename_wp; [done |]. intros n s4. rewrite H3, H2, lookup_insert_eq. intros [= <-] [H4 _].
  apply store_fsync_wp. intros [[]|] s5 [H5 _]; [| done]. rewrite H5, H4, H3, H2, Hmask. split.
  - rewrite lookup_insert_ne; [apply lookup_delete_eq |]. intros [= Heq]. by apply (partial_ne name).
  - exists data. split; [apply lookup_insert_eq | done].
Qed.
End stream.

(** ** The loop over the plan *)
Section loop.
Context {R : Type} `{Saved_kind R} (e : env) (plan : list R).
Context (Hplan : plan_ok plan) (Hmask : created_mode e 384 = 384).
Abbreviation at_ name := ((k_dir : pystr), (name : pystr)).
Abbreviation manifest := ([] : pystr, (k_manifest : pystr)).

Lemma names_lookup index pl i : names_from index pl !! i = (λ r, k_file (Z.of_nat i + index) r) <$> pl !! i.
Proof.
  revert index i. induction pl as [|r pl IH]; intros index [|i]; simpl; [done | done | done |].
  rewrite IH. by replace (Z.of_nat i + (index + 1)) with (Z.of_nat (S i) + index) by lia.
Qed.
Lemma names_take index pl n m : m ∈ names_from index (take n pl) → m ∈ names_from index pl.
Proof.
  revert index n. induction pl as [|r pl IH]; intros index [|n]; simpl; [done | done | by intros ?%elem_of_nil |].
  rewrite !elem_of_cons. intros [->|Hm]; [by left | right; eauto].
Qed.
Lemma names_snoc n r : plan !! n = Some r →
  names_from 1 (take (S n) plan) = names_from 1 (take n plan) ++ [k_file (Z.of_nat n + 1) r].
Proof.
  intros Hr. apply list_eq. intros i. assert (length (names_from 1 (take n plan)) = n) as Hl.
  { apply lookup_lt_Some in Hr. assert (∀ k pl, length (names_from k pl) = length pl) as Hlen.
    { intros k pl. revert k. induction pl as [|x pl IH]; intros k; simpl; [done | by rewrite IH]. }
    rewrite Hlen, length_take. lia. }
  destruct (decide (i < n)%nat) as [Hi|Hi].
  - rewrite lookup_app_l by lia. rewrite !names_lookup, !lookup_take_lt by lia. done.
  - rewrite lookup_app_r, Hl by lia. rewrite names_lookup. destruct (decide (i = n)) as [->|Hne].
    + rewrite Nat.sub_diag, lookup_take_lt, Hr by lia. done.
    + rewrite lookup_take_ge by lia. replace (i - n)%nat with (S (i - n - 1)) by lia. done.
Qed.
(** A later record's file, and its partial, are not earlier files. *)
Lemma fresh_names i n r r' : plan !! i = Some r → plan !! n = Some r' → (i < n)%nat →
  k_file (Z.of_nat i + 1) r ≠ k_file (Z.of_nat n + 1) r' ∧ k_file (Z.of_nat i + 1) r ≠ partial (k_file (Z.of_nat n + 1) r').
Proof using Hplan.
  intros Hi Hn Hlt. split.
  - intros Heq. assert (i = n); [| lia]. apply (NoDup_lookup (names_from 1 plan) i n (k_file (Z.of_nat i + 1) r)); [by apply ok_names | |].
    + by rewrite names_lookup, Hi.
    + by rewrite names_lookup, Hn, Heq.
  - intros Heq. apply (ok_partial plan Hplan n r' Hn). rewrite <-Heq. apply list_elem_of_lookup. exists i. by rewrite names_lookup, Hi.
Qed.

Lemma rows_snoc index pl hs h r : pl !! length hs = Some r →
  rows_from index pl (hs ++ [h]) = rows_from index pl hs ++ [row_text (Z.of_nat (length hs) + index) r h h].
Proof.
  revert index hs. induction pl as [|x pl IH]; intros index [|h' hs] Hr; simpl in *; try done.
  - injection Hr as ->. by destruct pl.
  - rewrite IH by done. simpl. by replace (Z.of_nat (length hs) + (index + 1)) with (Z.of_nat (S (length hs)) + index) by lia.
Qed.

Context (hs : list pystr) (r : R) (Hr : plan !! length hs = Some r).
Abbreviation index := (Z.of_nat (length hs) + 1).
Abbreviation name := (k_file index r).

Lemma progress_same s s' : progress e plan s hs → same_but [at_ (partial name); at_ name] s s' → progress e plan s' hs.
Proof using Hplan Hr.
  intros [Hl (data & Hd & Ha & Hsp) Hf] [_ Hn]. pose proof (ok_dir plan Hplan) as Hdir. constructor; [done | |].
  - exists data. split_and!; try done. rewrite Hn; [done |]. rewrite !elem_of_cons, elem_of_nil. intros [[=]|[[=]|[]]]; congruence.
  - intros i r' h Hi Hh. destruct (Hf i r' h Hi Hh) as (d & Hd' & Hx). exists d. split; [| done].
    rewrite Hn; [done |]. apply lookup_lt_Some in Hh. destruct (fresh_names i (length hs) r' r) as [H1 H2]; try done.
    rewrite !elem_of_cons, elem_of_nil. intros [[=]|[[=]|[]]]; congruence.
Qed.
Lemma terminated_same s s' : terminated s → same_but [at_ (partial name); at_ name] s s' → terminated s'.
Proof using Hplan.
  intros (uid & mode & data & Hd & Hl) [_ Hn]. exists uid, mode, data. split; [| done]. rewrite Hn; [done |].
  pose proof (ok_dir plan Hplan) as Hdir. rewrite !elem_of_cons, elem_of_nil. intros [[=]|[[=]|[]]]; congruence.
Qed.

Lemma progress_row s s' h :
  progress e plan s hs → terminated s → file_ok e s index r h →
  changed (appended manifest (row_text index r h h ++ [LF])) s s' →
  progress e plan s' (hs ++ [h]) ∧ terminated s'.
Proof using Hplan Hr.
  intros [Hl (data & Hd & Ha & Hsp) Hf] (uid & mode & data' & Hd' & Hlast) Hfile [Hn _].
  rewrite Hd in Hd'. injection Hd' as <- <- <-. pose proof (ok_dir plan Hplan) as Hdir.
  assert (∀ name, s_nodes s' !! at_ name = s_nodes s !! at_ name) as Hother by (intros nm; rewrite Hn; apply lookup_alter_ne; congruence).
  assert (s_nodes s' !! manifest = Some (NFile e.(e_euid) 384 (data ++ row_text index r h h ++ [LF]))) as Hm
    by (rewrite Hn; unfold appended; rewrite lookup_alter_eq, Hd; done).
  destruct (row_plain index r h) as [Hone Hasc].
  { by apply (ok_fields plan Hplan). }
  { destruct Hfile as (d & _ & _ & <-). apply sha256_field. }
  split; [constructor |].
  - rewrite length_app. simpl. apply lookup_lt_Some in Hr. lia.
  - eexists. split; [exact Hm |]. split.
    + unfold isascii in *. by rewrite !forallb_app, Ha, Hasc.
    + rewrite splitlines_append, Hsp by done. rewrite (rows_snoc _ _ _ _ r) by done. done.
  - intros i r' h' Hi Hh. destruct (decide (i < length hs)%nat) as [Hlt|Hge].
    + rewrite lookup_app_l in Hh by done. destruct (Hf i r' h' Hi Hh) as (d & Hdd & Hx). exists d. by rewrite Hother.
    + rewrite lookup_app_r in Hh by lia. destruct (i - length hs)%nat eqn:Ei; [| done]. assert (i = length hs) as -> by lia.
      injection Hh as <-. rewrite Hr in Hi. injection Hi as <-. destruct Hfile as (d & Hdd & Hx). exists d. by rewrite Hother.
  - exists e.(e_euid), 384. eexists. split; [exact Hm |]. rewrite app_assoc. apply last_snoc.
Qed.

(** What the loop may leave behind after an exception: more rows perhaps, each
    with its file, and at the end of the manifest the beginning of the next row
    when writing it failed half-way. *)
Definition begun (hs' : list pystr) (t : bytes) : Prop := ∃ r h rest,
  plan !! length hs' = Some r ∧ rest ≠ [] ∧ t ++ rest = row_text (Z.of_nat (length hs') + 1) r h h ++ [LF].
Definition kept (s : store) : Prop := ∃ hs' s1 t, progress e plan s1 hs' ∧ hs `prefix_of` hs' ∧
  (t = [] ∨ terminated s1 ∧ begun hs' t) ∧
  s.(s_nodes) !! manifest = appended manifest t s1.(s_nodes) !! manifest ∧ ∀ name, s.(s_nodes) !! at_ name = s1.(s_nodes) !! at_ name.
Lemma progress_kept s hs' : progress e plan s hs' → hs `prefix_of` hs' → kept s.
Proof.
  intros Hp Hpre. exists hs', s, []. split_and!; [done | done | by left | | done]. unfold appended. rewrite lookup_alter_eq.
  destruct (s_nodes s !! manifest) as [[uid mode data| |]|]; simpl; by rewrite ?app_nil_r.
Qed.

Lemma save_one_wp boot_id s :
  exact e plan s hs → terminated s →
  wp (save_one e boot_id index r) (λ res s', match res with
    | Ok i => i = index + 1 ∧ ∃ h, exact e plan s' (hs ++ [h]) ∧ terminated s'
    | Raise _ => kept s'
    end) s.
Proof using Hplan Hmask Hr.
  intros [Hpr Hex] Hterm. assert (∀ s', same_but [at_ (partial name); at_ name] s s' → kept s') as Hkept.
  { intros s' Hs. apply (progress_kept s' hs); [by eapply progress_same | done]. }
  assert (∀ s1 s2, same_but [at_ (partial name); at_ name] s s1 → unchanged s1 s2 → same_but [at_ (partial name); at_ name] s s2) as Hun
    by (intros; by eapply same_but_unchanged).
  unfold save_one, source_sha256. apply wp_bind, wp_bind, text_wp. intros [out|x] s1 H1; [| by apply Hkept, (Hun s)].
  apply wp_bind, wp_lift. unfold refuse, refuse_if. destruct (negb _); [by apply Hkept, (Hun s) |]. apply wp_mret.
  pose proof (Hun s s1 (same_but_refl _ _) H1) as S1.
  apply wp_bind. unfold wp at 1. destruct (stream_range e boot_id r name s1) as [res s2] eqn:Est. cbn [fst snd].
  assert (same_but [at_ (partial name); at_ name] s s2) as S2.
  { pose proof (keeps_stream_range e [at_ (partial name); at_ name] s boot_id r name ltac:(set_solver) ltac:(set_solver) s1 S1) as Hk.
    by rewrite Est in Hk. }
  destruct res as [[]|x]; [| by apply Hkept].
  destruct (stream_range_done e boot_id r name s1 s2 Hmask Est) as (Hpart & data & Hdata & Hsize).
  apply wp_bind, sha256_wp; [intros; by eapply Hkept, Hun |]. intros uid mode d s3 Hd H3.
  rewrite Hdata in Hd. injection Hd as <- <- <-. pose proof (Hun s2 s3 S2 H3) as S3.
  apply wp_bind, wp_lift. destruct (_ != _) eqn:Ehash; [by apply Hkept |].
  apply negb_false_iff, bool_decide_eq_true in Ehash.
  assert (file_ok e s3 index r (sha256 data)) as Hfile by (exists data; destruct H3 as [Hn3 _]; by rewrite Hn3).
  pose proof (progress_same s s3 Hpr S3) as Hp3. pose proof (terminated_same s s3 Hterm S3) as Ht3.
  apply wp_bind, write_row_wp. rewrite Ehash. intros t rest res s4 Htr Hres H4. destruct (decide (rest = [])) as [->|Hrest].
  2: { destruct res as [[]|x]; [by specialize (Hres Hrest) |]. exists hs, s3, t. split_and!; [done | done | | | ].
    - right. split; [done |]. by exists r, (sha256 data), rest.
    - by destruct H4 as [-> _].
    - intros m. destruct H4 as [-> _]. apply lookup_alter_ne. pose proof (ok_dir plan Hplan). congruence. }
  rewrite app_nil_r in Htr. subst t. destruct (progress_row s3 s4 (sha256 data)) as [Hp4 Ht4]; try done.
  destruct res as [[]|x]; [| apply (progress_kept s4 (hs ++ [sha256 data])); [done | by eexists]].
  apply wp_mret. split; [done |]. exists (sha256 data). split; [| done]. split; [done |].
  intros m. rewrite length_app. simpl. rewrite Nat.add_1_r, (names_snoc _ r Hr), elem_of_app, <-Hex, list_elem_of_singleton.
  pose proof (ok_dir plan Hplan) as Hdir.
  assert (s_nodes s4 !! at_ m = s_nodes s2 !! at_ m) as ->.
  { destruct H4 as [-> _], H3 as [-> _]. apply lookup_alter_ne. congruence. }
  destruct (decide (m = name)) as [->|Hne]; [rewrite Hdata; naive_solver |].
  destruct (decide (m = partial name)) as [->|Hnp].
  - rewrite Hpart. split; [by intros [? ?] |]. intros [Hs|?]; [| done]. apply Hex in Hs. exfalso.
    apply (ok_partial plan Hplan _ r Hr). by eapply names_take.
  - destruct S2 as [_ S2]. rewrite S2 by (rewrite !elem_of_cons, elem_of_nil; intros [[=]|[[=]|[]]]; congruence). naive_solver.
Qed.
End loop.

Section save.
Context {R : Type} `{Saved_kind R} (e : env) (plan : list R).
Context (Hplan : plan_ok plan) (Hmask : created_mode e 384 = 384).

Lemma kept_exact s hs : exact e plan s hs → kept e plan hs s.
Proof. intros [Hp _]. by eapply progress_kept. Qed.

Lemma save_loop boot_id hs s :
  exact e plan s hs → terminated s →
  wp (fold_m (save_one e boot_id) (len hs + 1) (drop (length hs) plan)) (λ res s', match res with
    | Ok _ => ∃ hs', exact e plan s' hs' ∧ terminated s' ∧ length hs' = length plan ∧ hs `prefix_of` hs'
    | Raise _ => kept e plan hs s'
    end) s.
Proof using Hplan Hmask.
  remember (drop (length hs) plan) as rest eqn:Erest. revert hs s Erest.
  induction rest as [|r rest IH]; intros hs s Erest Hex Hterm.
  - unfold wp. simpl. exists hs. split_and!; [done | done | | done]. destruct Hex as [[Hl _ _] _].
    apply (f_equal length) in Erest. rewrite length_drop in Erest. simpl in Erest. lia.
  - assert (plan !! length hs = Some r) as Hr.
    { replace (length hs) with (length hs + 0)%nat by lia. rewrite <-lookup_drop, <-Erest. done. }
    pose proof (save_one_wp e plan Hplan Hmask hs r Hr boot_id s Hex Hterm) as Hone.
    unfold wp in *. simpl. unfold len in *. destruct (save_one e boot_id _ r s) as [[i|x] s1]; simpl in *; [| done].
    destruct Hone as (-> & h & Hex1 & Hterm1).
    specialize (IH (hs ++ [h]) s1). rewrite length_app in IH. simpl in IH.
    replace (Z.of_nat (length hs + 1) + 1) with (Z.of_nat (length hs) + 1 + 1) in IH by lia.
    destruct (fold_m _ _ rest s1) as [res s2]. simpl in *. destruct res as [z|x].
    + destruct IH as (hs' & Hx & Ht & Hlen & Hpre); try done.
      { rewrite <-drop_drop, <-Erest. done. }
      exists hs'. split_and!; try done. etrans; [by eexists | done].
    + destruct IH as (hs' & s' & t & Hx & Hpre & Hrest); try done.
      { rewrite <-drop_drop, <-Erest. done. }
      exists hs', s', t. split; [done |]. split; [etrans; [by eexists | done] | done].
Qed.
Lemma exact_unchanged s s' hs : exact e plan s hs → unchanged s s' → exact e plan s' hs.
Proof.
  intros [[Hl Hm Hf] Hn] [Hs _]. split; [constructor |].
  - done.
  - by rewrite Hs.
  - intros i r h Hi Hh. destruct (Hf i r h Hi Hh) as (d & Hd & ?). exists d. by rewrite Hs.
  - intros n. by rewrite Hs.
Qed.
Lemma terminated_unchanged s s' : terminated s → unchanged s s' → terminated s'.
Proof. intros (u & m & d & Hd & ?) [Hs _]. exists u, m, d. by rewrite Hs. Qed.

Lemma save_all_wp boot_id hs s :
  exact e plan s hs → terminated s →
  wp (save_all e boot_id plan (len hs)) (λ res s', match res with
    | Ok _ => ∃ hs', exact e plan s' hs' ∧ terminated s' ∧ length hs' = length plan ∧ hs `prefix_of` hs'
    | Raise _ => kept e plan hs s'
    end) s.
Proof using Hplan Hmask.
  intros Hex Hterm. unfold save_all. apply wp_bind, store_fsync_wp. intros [[]|x] s1 H1.
  - unfold len at 2. rewrite Nat2Z.id. apply save_loop; [by eapply exact_unchanged | by eapply terminated_unchanged].
  - by eapply kept_exact, exact_unchanged.
Qed.
End save.

(** ** One kind leaves the other alone *)
Definition own {R} `{Saved_kind R} (p : path) : Prop := p.1 = k_dir ∨ p = ([] : pystr, k_manifest).

Section frame.
Context {R : Type} `{Saved_kind R} (e : env).

Lemma keeps_path {A} ps (m : io A) p v d :
  (∀ s0, preserves (same_but ps s0) m) → p ∉ ps → preserves (λ s, s.(s_nodes) !! p = v ∧ s.(s_dirs) = d) m.
Proof.
  intros Hk Hp s [<- <-]. destruct (Hk s s (same_but_refl _ _)) as [Hd Hn]. split; [by apply Hn | done].
Qed.
Lemma keeps_save_one ps boot_id index (r : R) s0 :
  (∀ n, ((k_dir : pystr), n) ∈ ps ∨ (n ≠ k_file index r ∧ n ≠ partial (k_file index r))) →
  ([] : pystr, (k_manifest : pystr)) ∈ ps →
  preserves (same_but ps s0) (save_one e boot_id index r).
Proof.
  intros Hn Hm. unfold save_one, source_sha256.
  apply preserves_bind; [repeat (apply preserves_bind; [auto with store | intros ?]); auto with store |]. intros digest.
  apply preserves_bind.
  - apply keeps_stream_range; [destruct (Hn (partial (k_file index r))) as [|[? ?]] | destruct (Hn (k_file index r)) as [|[? ?]]]; done.
  - intros _. repeat (apply preserves_bind; [solve [auto with store] | intros ?]). auto with store.
Qed.
Lemma save_one_frame boot_id index (r : R) p v d :
  ¬ own p → preserves (λ s, s.(s_nodes) !! p = v ∧ s.(s_dirs) = d) (save_one e boot_id index r).
Proof.
  intros Hp. apply keeps_path with (ps := [((k_dir : pystr), k_file index r); ((k_dir : pystr), partial (k_file index r)); ([] : pystr, (k_manifest : pystr))]).
  - intros s0. apply keeps_save_one; [| set_solver]. intros n. rewrite !elem_of_cons.
    destruct (decide (n = k_file index r)) as [->|]; [by left; left |].
    destruct (decide (n = partial (k_file index r))) as [->|]; [left; right; by left | by right].
  - rewrite !elem_of_cons, elem_of_nil. intros [->|[->|[->|[]]]]; apply Hp; [by left | by left | by right].
Qed.
Lemma save_all_frame boot_id (plan : list R) done_ p v d :
  ¬ own p → preserves (λ s, s.(s_nodes) !! p = v ∧ s.(s_dirs) = d) (save_all e boot_id plan done_).
Proof.
  intros Hp. unfold save_all. apply preserves_bind.
  - apply keeps_path with (ps := []); [intros; apply store_keeps_fsync | set_solver].
  - intros _. apply preserves_fold. intros. by apply save_one_frame.
Qed.
Lemma exact_own plan s s' hs :
  (∀ p, own p → s'.(s_nodes) !! p = s.(s_nodes) !! p) → exact e plan s hs → exact e plan s' hs.
Proof.
  intros Hs [[Hl Hm Hf] Hn]. assert (∀ n, s_nodes s' !! ((k_dir : pystr), n) = s_nodes s !! ((k_dir : pystr), n)) as Hd by (intros n; apply Hs; by left).
  split; [constructor |].
  - done.
  - rewrite Hs by (by right). done.
  - intros i r h Hi Hh. destruct (Hf i r h Hi Hh) as (d & Hdd & ?). exists d. by rewrite Hd.
  - intros n. by rewrite Hd.
Qed.
Lemma terminated_own s s' : (∀ p, own p → s'.(s_nodes) !! p = s.(s_nodes) !! p) → terminated s → terminated s'.
Proof. intros Hs (u & m & d & Hd & ?). exists u, m, d. by rewrite Hs by (by right). Qed.
Lemma kept_own plan hs s s' : (∀ p, own p → s'.(s_nodes) !! p = s.(s_nodes) !! p) → kept e plan hs s → kept e plan hs s'.
Proof.
  intros Hs (hs' & s1 & t & Hp & Hpre & Ht & Hm & Hn). exists hs', s1, t. split_and!; [done | done | done | |].
  - by rewrite Hs by (by right).
  - intros n. by rewrite Hs by (by left).
Qed.
End frame.

Lemma own_disjoint p : own (R := gpt_record) p → ¬ own (R := part_record) p.
Proof. unfold own. destruct p as [d n]. simpl. intros [->|[= -> ->]] [Hx|[=]]; by inversion Hx. Qed.
Lemma own_disjoint' p : own (R := part_record) p → ¬ own (R := gpt_record) p.
Proof. intros H1 H2. by apply (own_disjoint p). Qed.

(** ** The whole run *)
Section whole.
Context (e : env) (plan : list part_record) (gpt_plan : list gpt_record).
Context (Hp : plan_ok plan) (Hg : plan_ok gpt_plan) (Hmask : created_mode e 384 = 384) (Hmask7 : created_mode e 448 = 448).

Definition private (s : store) : Prop :=
  ∀ d, d ∈ [[]; "partitions" : pystr; "gpt" : pystr] → s.(s_dirs) !! d = Some (DDir e.(e_euid) 448).
(** Both prefixes as they are accepted. *)
Definition accepted (gs ps : list pystr) (s : store) : Prop :=
  exact e gpt_plan s gs ∧ terminated (R := gpt_record) s ∧ exact e plan s ps ∧ terminated (R := part_record) s ∧ private s.

Lemma frame_all {R} `{Saved_kind R} boot_id (pl : list R) n s p : ¬ own (R := R) p →
  (save_all e boot_id pl n s).2.(s_nodes) !! p = s.(s_nodes) !! p ∧ (save_all e boot_id pl n s).2.(s_dirs) = s.(s_dirs).
Proof. intros Hn. by apply (save_all_frame e boot_id pl n p (s_nodes s !! p) (s_dirs s) Hn s). Qed.

Lemma save_both boot_id gs ps s :
  accepted gs ps s →
  wp (save_all e boot_id gpt_plan (len gs) ;; save_all e boot_id plan (len ps)) (λ res s', match res with
    | Ok _ => ∃ gs' ps', accepted gs' ps' s' ∧ length gs' = length gpt_plan ∧ length ps' = length plan
    | Raise _ => kept e gpt_plan gs s' ∧ kept e plan ps s'
    end) s.
Proof using Hp Hg Hmask.
  intros (Hgx & Hgt & Hpx & Hpt & Hpriv). apply wp_bind.
  pose proof (save_all_wp e gpt_plan Hg Hmask boot_id gs s Hgx Hgt) as H1.
  pose proof (frame_all boot_id gpt_plan (len gs) s) as F1.
  unfold wp in H1 |- *. destruct (save_all e boot_id gpt_plan (len gs) s) as [[u|x] s1]; cbn [fst snd] in *.
  - destruct H1 as (gs' & Hgx1 & Hgt1 & Hlen & Hpre).
    assert (∀ p, own (R := part_record) p → s1.(s_nodes) !! p = s.(s_nodes) !! p) as Fn by (intros p Ho; by apply F1, own_disjoint').
    assert (s1.(s_dirs) = s.(s_dirs)) as Fd by (apply (F1 ("partitions" : pystr, [])); intros [[=]|[=]]).
    pose proof (save_all_wp e plan Hp Hmask boot_id ps s1 ltac:(by eapply exact_own) ltac:(by eapply terminated_own)) as H2.
    pose proof (frame_all boot_id plan (len ps) s1) as F2.
    unfold wp in H2. destruct (save_all e boot_id plan (len ps) s1) as [[u'|x] s2]; cbn [fst snd] in *.
    + destruct H2 as (ps' & Hpx2 & Hpt2 & Hlen2 & _). exists gs', ps'. split; [| done].
      assert (∀ p, own (R := gpt_record) p → s2.(s_nodes) !! p = s1.(s_nodes) !! p) as Gn by (intros p Ho; by apply F2, own_disjoint).
      assert (s2.(s_dirs) = s1.(s_dirs)) as Gd by (apply (F2 ("gpt" : pystr, [])); intros [[=]|[=]]).
      split_and!; [by eapply exact_own | by eapply terminated_own | done | done |].
      intros d Hd. rewrite Gd, Fd. by apply Hpriv.
    + split; [| done]. apply (progress_kept e gpt_plan gs s2 gs'); [| done].
      assert (∀ p, own (R := gpt_record) p → s2.(s_nodes) !! p = s1.(s_nodes) !! p) as Gn by (intros p Ho; by apply F2, own_disjoint).
      by apply (exact_own e gpt_plan s1 s2 gs').
  - split; [done |]. eapply kept_exact, exact_own; [| exact Hpx]. intros p Ho. by apply F1, own_disjoint'.
Qed.

Lemma wp_read {A} (f : store → res A) (Q : res A → store → Prop) s : Q (f s) s → wp (read_store f) Q s.
Proof. done. Qed.
Lemma accepted_unchanged gs ps s s' : accepted gs ps s → unchanged s s' → accepted gs ps s'.
Proof.
  intros (H1 & H2 & H3 & H4 & H5) Hu. split_and!; [by eapply exact_unchanged | by eapply terminated_unchanged |
    by eapply exact_unchanged | by eapply terminated_unchanged |]. intros d Hd. destruct Hu as [_ ->]. by apply H5.
Qed.
Lemma accepted_kept gs ps s : accepted gs ps s → kept e gpt_plan gs s ∧ kept e plan ps s.
Proof. intros (H1 & _ & H3 & _). split; by eapply kept_exact. Qed.

(** After the output is open. *)
Lemma rest_wp boot_id gs ps s (Q : res unit → store → Prop) :
  accepted gs ps s →
  (∀ gs' ps' s', accepted gs' ps' s' → length gs' = length gpt_plan → length ps' = length plan → Q (Ok ()) s') →
  (∀ x s', kept e gpt_plan gs s' → kept e plan ps s' → Q (Raise x) s') →
  wp (read_store (λ s, refuse (e.(e_free) s.(s_tick) <? sum_sizes (drop (Z.to_nat (len gs)) gpt_plan)
                           + sum_sizes (drop (Z.to_nat (len ps)) plan) + HEADROOM)
                     "less than the required remaining backup headroom is free") ;;
      remote_id ← run_text e BOOT_ID_COMMAND;
      lift (refuse (remote_id != boot_id) "phone boot identity changed before backup") ;;
      save_all e boot_id gpt_plan (len gs) ;;
      save_all e boot_id plan (len ps) ;;
      mret ()) Q s.
Proof using Hp Hg Hmask.
  intros Ha Hok Hbad. assert (∀ s' x, unchanged s s' → Q (Raise x) s') as Hr.
  { intros s' x Hu. destruct (accepted_kept gs ps s'); [by eapply accepted_unchanged | by apply Hbad]. }
  apply wp_bind, wp_read. unfold refuse, refuse_if. destruct (_ <? _); [by apply Hr |].
  apply wp_bind, text_wp. intros [id|x] s1 H1; [| by apply Hr].
  apply wp_bind, wp_lift. destruct (_ != _); [by apply Hr |].
  pose proof (save_both boot_id gs ps s1 (accepted_unchanged gs ps s s1 Ha H1)) as Hs.
  assert (∀ {A B C} (m : io A) (k : io B) (j : io C) (P : res C → store → Prop) t,
    wp (m ;; k) (λ r t', match r with Ok _ => wp j P t' | Raise x => P (Raise x) t' end) t → wp (m ;; k ;; j) P t) as Hassoc.
  { intros A B C m k j P t. unfold wp, mbind, M_mbind. destruct (m t) as [[a|x] t1]; [| done]. by destruct (k t1) as [[b|x] t2]. }
  apply Hassoc. eapply wp_mono; [exact Hs |]. intros [u|x] s2.
  - intros (gs' & ps' & Ha' & Hl1 & Hl2). apply wp_mret. by eapply Hok.
  - intros [? ?]. by apply Hbad.
Qed.

(** ** Opening the output *)
Lemma open_resume gs ps s : accepted gs ps s → open_output e true plan gpt_plan s = (Ok (len gs, len ps), s).
Proof using All.
  intros (H1 & _ & H3 & _ & H5). unfold open_output, read_store, canonical_private_directory, refuse.
  rewrite !H5 by set_solver. rewrite (Z.eqb_refl (e_euid e)). simpl.
  unfold verify_gpt_resume, verify_partition_resume.
  rewrite (proj2 (verify_resume_exact e gpt_plan Hg s (len gs)) (ex_intro _ gs (conj eq_refl H1))). simpl.
  by rewrite (proj2 (verify_resume_exact e plan Hp s (len ps)) (ex_intro _ ps (conj eq_refl H3))).
Qed.

Lemma mkdir_wp d (Q : res unit → store → Prop) s :
  (∀ x s', Q (Raise x) s') →
  (∀ s', s'.(s_nodes) = s.(s_nodes) → s'.(s_dirs) = <[d := DDir e.(e_euid) 448]> s.(s_dirs) → Q (Ok ()) s') →
  wp (mkdir e d) Q s.
Proof using All.
  intros Hr Hok. unfold wp, mkdir. destruct (e_fails e _); [apply Hr |].
  destruct (s_dirs s !! d) eqn:E; [apply Hr | apply Hok; simpl; congruence].
Qed.

Lemma new_manifest_wp {R} `{Saved_kind R} (pl : list R) (Q : res unit → store → Prop) s :
  plan_ok pl → (∀ p, own (R := R) p → s.(s_nodes) !! p = None) →
  (∀ x s', Q (Raise x) s') →
  (∀ s', exact e pl s' [] → terminated s' → s'.(s_dirs) = s.(s_dirs) →
     (∀ p, p ≠ ([] : pystr, (k_manifest : pystr)) → s'.(s_nodes) !! p = s.(s_nodes) !! p) → Q (Ok ()) s') →
  wp (new_manifest e) Q s.
Proof using All.
  intros Hpl Hnone Hr Hok. unfold new_manifest. apply wp_bind, create_wp; [intros; apply Hr |]. intros _ s1 [Hn1 Hd1].
  apply wp_bind, call_wp; [intros; apply Hr |]. apply write_row_wp.
  intros t rest [[]|x] s3 Htr Hres [Hn3 Hd3]; [| apply Hr]. simpl in Hn3, Hd3.
  destruct rest as [|c rest]; [rewrite app_nil_r in Htr; subst t | by discriminate Hres]. unfold appended in Hn3. pose proof (ok_dir pl Hpl) as Hdir.
  assert (∀ p, p ≠ ([] : pystr, (k_manifest : pystr)) → s_nodes s3 !! p = s_nodes s !! p) as Hother.
  { intros p Hpn. rewrite Hn3, lookup_alter_ne, lookup_alter_ne, Hn1, lookup_insert_ne by done. done. }
  assert (s_nodes s3 !! ([] : pystr, (k_manifest : pystr)) = Some (NFile e.(e_euid) 384 (k_header ++ [LF]))) as Hm
    by (rewrite Hn3, lookup_alter_eq, lookup_alter_eq, Hn1, lookup_insert_eq; done).
  destruct (ok_header pl Hpl) as [Hone Hasc]. apply Hok; [| | by rewrite Hd3 | exact Hother].
  - split; [constructor |].
    + simpl. lia.
    + eexists. split; [exact Hm |]. split; [unfold isascii in *; by rewrite forallb_app, Hasc |].
      pose proof (splitlines_unlines [k_header]) as Hs. unfold unlines in Hs. simpl in Hs. rewrite app_nil_r in Hs.
      rewrite Hs by (by constructor). by destruct pl.
    + intros i r h _ Hh. done.
    + intros n. rewrite Hother by congruence. rewrite Hnone by (by left). simpl. split; [by intros [? ?] | set_solver].
  - exists e.(e_euid), 384. eexists. split; [exact Hm |]. apply last_snoc.
Qed.

Lemma open_fresh s : s.(s_nodes) = ∅ → s.(s_dirs) = ∅ →
  wp (open_output e false plan gpt_plan) (λ res s', match res with
    | Ok x => x = (0, 0) ∧ accepted [] [] s'
    | Raise _ => True end) s.
Proof using All.
  intros Hn Hd. unfold open_output. apply wp_bind, wp_read. rewrite Hd. simpl.
  apply wp_bind, mkdir_wp; [done |]. intros s1 Hn1 Hd1. apply wp_bind, mkdir_wp; [done |]. intros s2 Hn2 Hd2.
  apply wp_bind, mkdir_wp; [done |]. intros s3 Hn3 Hd3. assert (s_nodes s3 = ∅) as He by congruence.
  apply wp_bind, (new_manifest_wp gpt_plan); [done | intros; by rewrite He | done |]. intros s4 Hg4 Ht4 Hd4 Ho4.
  apply wp_bind, (new_manifest_wp plan); [done | | done |].
  { intros p Ho. rewrite Ho4, He; [done |]. destruct Ho as [Hx| ->]; [intros -> | ]; done. }
  intros s5 Hp5 Ht5 Hd5 Ho5. apply wp_mret. split; [done |].
  assert (∀ p, own (R := gpt_record) p → s5.(s_nodes) !! p = s4.(s_nodes) !! p) as Hgo.
  { intros p Ho. apply Ho5. intros ->. by apply (own_disjoint ([], "SHA256SUMS.tsv" : pystr)); [| right]. }
  split_and!; [by eapply exact_own | by eapply terminated_own | done | done |].
  intros d Hdd. rewrite Hd5, Hd4, Hd3, Hd2, Hd1, Hd. rewrite !elem_of_cons, elem_of_nil in Hdd.
  by destruct Hdd as [->|[->|[->|[]]]].
Qed.

Definition startable (resume : bool) (s : store) : Prop :=
  if resume then ∃ gs ps, accepted gs ps s else s.(s_nodes) = ∅ ∧ s.(s_dirs) = ∅.

Lemma backup_body_wp resume boot_id s :
  startable resume s →
  wp (backup_body e resume boot_id plan gpt_plan) (λ res s', match res with
    | Ok _ => ∃ gs ps, accepted gs ps s' ∧ length gs = length gpt_plan ∧ length ps = length plan
    | Raise _ => resume = true → ∃ gs ps, accepted gs ps s ∧ kept e gpt_plan gs s' ∧ kept e plan ps s'
    end) s.
Proof using All.
  intros Hs. unfold backup_body. destruct resume.
  - destruct Hs as (gs & ps & Ha). apply wp_bind. unfold wp at 1. rewrite (open_resume gs ps s Ha). cbn [fst snd].
    apply (rest_wp boot_id gs ps); [done | by eauto |]. intros x s' H1 H2 _. exists gs, ps. done.
  - destruct Hs as [Hn Hd]. apply wp_bind. eapply wp_mono; [by apply open_fresh |]. intros [[a b]|x] s1; [| done].
    intros [[= -> ->] Ha]. apply (rest_wp boot_id [] []); [done | by eauto | done].
Qed.
End whole.

(** C24. Resuming is exact.  The verifier of either kind accepts a store with
    the count [n] if and only if the manifest lists exactly the first [n]
    records of the plan, each listed file is there, regular, private, of the
    planned size and with the listed hash, and the directory holds nothing
    else. *)
Theorem resume_exact {R} `{Saved_kind R} e (plan : list R) s n :
  plan_ok plan → verify_resume e s plan = Ok n ↔ ∃ hs, n = len hs ∧ exact e plan s hs.
Proof. intros Hplan. by apply verify_resume_exact. Qed.


(** ** The accepted partition plan can be run *)
Definition plain_char (c : ascii) : bool := is_alnum c || one_of "_.+-/" c.
Lemma plain_char_ok c : plain_char c = true → c ≠ TAB ∧ is_linebreak c = false ∧ (ord c <? 128) = true.
Proof. destruct c as [[] [] [] [] [] [] [] []]; vm_compute; (discriminate || (intros _; split_and!; (done || discriminate))). Qed.
Lemma plain_chars f : Forall (λ c, plain_char c = true) f → plain_field f.
Proof.
  intros Hf. rewrite Forall_forall in Hf. split_and!.
  - intros Hin. by destruct (plain_char_ok _ (Hf _ Hin)) as [? _].
  - apply Forall_forall. intros c Hc. by destruct (plain_char_ok _ (Hf c Hc)) as (_ & ? & _).
  - apply forallb_Forall, Forall_forall. intros c Hc. by destruct (plain_char_ok _ (Hf c Hc)) as (_ & _ & ?).
Qed.
Lemma str_plain n : 0 ≤ n → Forall (λ c, plain_char c = true) (str_of_Z n).
Proof.
  intros Hn. pose proof (str_isdecimal n Hn) as Hd. unfold isdecimal in Hd. apply andb_true_iff in Hd as [_ Hd].
  apply forallb_Forall in Hd. eapply Forall_impl; [exact Hd |]. intros c. simpl.
  destruct c as [[] [] [] [] [] [] [] []]; vm_compute; (discriminate || done).
Qed.

Lemma pad3_plain n : 0 ≤ n → Forall (λ c, plain_char c = true) (pad3 n).
Proof.
  intros Hn. unfold pad3. apply Forall_app. split; [| by apply str_plain]. apply Forall_replicate. done.
Qed.
Lemma pad3_length n : 0 ≤ n < 1000 → length (pad3 n) = 3%nat.
Proof.
  intros Hn. unfold pad3. pose proof (str_length n 2 ltac:(lia)). rewrite length_app, length_replicate. lia.
Qed.
Lemma pad3_inj n m : 0 ≤ n → 0 ≤ m → pad3 n = pad3 m → n = m.
Proof.
  intros Hn Hm Heq. assert (∀ k, 0 ≤ k → int10 (pad3 k) = k) as Hi.
  { intros k Hk. unfold pad3. rewrite <-(int10_str k) at 3 by done. generalize (3 - length (str_of_Z k))%nat. generalize (str_of_Z k).
    intros s. unfold int10. induction n0 as [|j IH]; simpl; [done |]. exact IH. }
  by rewrite <-(Hi n), <-(Hi m), Heq.
Qed.

Lemma accepted_plan_ok inventory plan total : backup_plan inventory = Ok (plan, total) → plan_ok plan.
Proof.
  intros H. apply backup_plan_exact in H as (_ & _ & Hlen & _ & _ & _ & _ & _ & Hok & _).
  assert (∀ i r, plan !! i = Some r → 0 ≤ Z.of_nat i + 1 < 1000 ∧ record_ok r) as Hrec.
  { intros i r Hr. split; [| by eapply Forall_lookup_1]. apply lookup_lt_Some in Hr. unfold len in Hlen. lia. }
  assert (∀ i r, k_file (Z.of_nat i + 1) r = pad3 (Z.of_nat i + 1) ++ "-" ++ r_label r ++ ".img") as Hfile by done.
  constructor.
  - intros i r Hr. destruct (Hrec i r Hr) as [Hi (Hnode & Hlab & Huuid & _ & Hpos & _)].
    assert (Forall (λ c, plain_char c = true) (r_label r)) as Hl
      by (eapply (fullmatch_within plain_char LABEL_RE); [vm_compute; reflexivity | done]).
    simpl. apply Forall_cons_2; [| apply Forall_cons_2; [| apply Forall_cons_2; [| apply Forall_cons_2; [| apply Forall_cons_2; [| apply Forall_nil_2]]]]];
      apply plain_chars.
    + change (Forall (λ c, plain_char c = true)
        (("partitions/" : pystr) ++ pad3 (Z.of_nat i + 1) ++ ("-" : pystr) ++ r_label r ++ (".img" : pystr))).
      rewrite !Forall_app. split_and!; try done.
      * by apply (bool_decide_eq_true_1 _).
      * apply pad3_plain. lia.
      * by apply (bool_decide_eq_true_1 _).
      * by apply (bool_decide_eq_true_1 _).
    + done.
    + eapply (fullmatch_within plain_char DEVICE_RE); [vm_compute; reflexivity | done].
    + apply str_plain. lia.
    + eapply (fullmatch_within plain_char UUID_RE); [vm_compute; reflexivity | done].
  - apply NoDup_alt. intros i j n. rewrite !names_lookup.
    destruct (plan !! i) as [r|] eqn:Ei; [| done]. destruct (plan !! j) as [r'|] eqn:Ej; [| done].
    intros Hn Hn'. assert (Some (k_file (Z.of_nat i + 1) r) = Some (k_file (Z.of_nat j + 1) r')) as Heq by (etrans; [exact Hn | by symmetry]).
    apply (inj Some) in Heq. rewrite !Hfile in Heq. clear Hn Hn'. rename Heq into Hn.
    destruct (Hrec i r Ei) as [Hi _], (Hrec j r' Ej) as [Hj _].
    apply app_inj_1 in Hn as [Hpad _]; [| by rewrite !pad3_length]. apply pad3_inj in Hpad; lia.
  - intros i r Hr Hin. apply list_elem_of_lookup in Hin as [j Hj]. rewrite names_lookup in Hj.
    destruct (plan !! j) as [r'|] eqn:Ej; [| done]. apply (inj Some) in Hj. rewrite !Hfile in Hj. unfold partial in Hj.
    apply (f_equal last) in Hj. rewrite !app_assoc in Hj. change (".img" : pystr) with ((".im" : pystr) ++ ["g"%char]) in Hj.
    change (".partial" : pystr) with ((".partia" : pystr) ++ ["l"%char]) in Hj. rewrite !app_assoc, !last_snoc in Hj. done.
  - split; [| done]. apply Forall_forall. intros c Hc. revert c Hc. apply Forall_forall. by apply (bool_decide_eq_true_1 _).
  - done.
Qed.

(** An accepted partition plan can be written down: every field of its
    rows survives the tab-separated manifest and the names of its files, and
    of their partial files, are all different. *)
Theorem partition_plan_ok inventory plan total : backup_plan inventory = Ok (plan, total) → plan_ok plan.
Proof. apply accepted_plan_ok. Qed.
Lemma partition_plan_ok_witness : backup_plan sample_inventory = Ok sample_plan ∧ plan_ok sample_plan.1.
Proof.
  assert (backup_plan sample_inventory = Ok sample_plan) as H by (vm_compute; reflexivity).
  split; [exact H |]. exact (partition_plan_ok sample_inventory sample_plan.1 sample_plan.2 H).
Defined.

(** ** A run the theorems apply to *)
Definition small_gpt (role : pystr) (offset size : Z) : gpt_record := GptRecord "sda" (JStr "guid") 16 512 role offset size.
Definition small_gpt_plan : list gpt_record := [small_gpt "primary" 0 3; small_gpt "backup" 7168 2].
Definition small_plan : list part_record := [PartRecord "sda1" "boot" "00000001-0000-0000-0000-000000000000" 1 1 6].
Lemma fields_plain l : forallb (forallb plain_char) l = true → Forall plain_field l.
Proof. intros Hl. apply forallb_Forall in Hl. eapply Forall_impl; [exact Hl |]. intros f Hf. by apply plain_chars, forallb_Forall. Qed.
Lemma header_plain h : forallb (λ c, plain_char c || (c == TAB)) h = true → one_line h ∧ isascii h = true.
Proof.
  intros Hh. apply forallb_Forall in Hh. rewrite Forall_forall in Hh. assert (∀ c, c ∈ h → is_linebreak c = false ∧ (ord c <? 128) = true) as Hc.
  { intros c Hc. specialize (Hh c Hc). apply orb_true_iff in Hh as [Hp|Ht].
    - by destruct (plain_char_ok c Hp) as (_ & ? & ?).
    - apply bool_decide_eq_true in Ht. by subst c. }
  split; [apply Forall_forall; intros c Hin; by apply Hc | apply forallb_Forall, Forall_forall; intros c Hin; by apply Hc].
Qed.
Lemma small_gpt_plan_ok : plan_ok small_gpt_plan.
Proof.
  constructor.
  - intros [|[|i]] r; [intros [= <-] | intros [= <-] | done]; apply fields_plain; vm_compute; reflexivity.
  - by apply (bool_decide_eq_true_1 _).
  - intros [|[|i]] r; [intros [= <-] | intros [= <-] | done]; by apply (bool_decide_eq_true_1 _).
  - apply header_plain. vm_compute. reflexivity.
  - done.
Qed.
Lemma small_plan_ok : plan_ok small_plan.
Proof.
  constructor.
  - intros [|i] r; [intros [= <-] | done]; apply fields_plain; vm_compute; reflexivity.
  - by apply (bool_decide_eq_true_1 _).
  - intros [|i] r; [intros [= <-] | done]; by apply (bool_decide_eq_true_1 _).
  - apply header_plain. vm_compute. reflexivity.
  - done.
Qed.
Definition small_contents : list (pystr * pystr * bytes) :=
  map (λ r, (k_hash_command "boot" r, k_stream_command "boot" r, replicate (Z.to_nat (k_size r)) "a"%char)) small_gpt_plan
  ++ map (λ r, (k_hash_command "boot" r, k_stream_command "boot" r, replicate (Z.to_nat (k_size r)) "b"%char)) small_plan.
Definition small_env : env := {|
  e_euid := 0; e_umask := 63; e_fails := λ _, false; e_part := λ _, 0%nat;
  e_text := λ _ command,
    match filter (λ c, c.1.1 = command) small_contents with
    | (_, _, data) :: _ => Ok (0, sha256 data ++ "  -" ++ [LF], [])
    | [] => Ok (0, "boot" ++ [LF], [])
    end;
  e_stream := λ _ command,
    match filter (λ c, c.1.2 = command) small_contents with
    | (_, _, data) :: _ => (data, Ok (0, []))
    | [] => ([], Ok (1, "no such command" : pystr))
    end;
  e_free := λ _, 2 ^ 40
|}.

Definition small_store : store := (backup_body small_env false "boot" small_plan small_gpt_plan (Store ∅ ∅ 0)).2.
(** A row that was written but for its newline is accepted by a resume, which
    then appends the next row to the same line. *)
Example unterminated_row_accepted :
  verify_resume small_env (with_nodes (alter (λ n, match n with NFile uid mode data => NFile uid mode (take (length data - 1) data) | n => n end)
    ([] : pystr, k_manifest (R := part_record))) small_store) small_plan = Ok 1.
Proof. vm_compute. reflexivity. Qed.
Lemma resume_exact_witness :
  verify_resume small_env small_store small_plan = Ok 1 ∧ ∃ hs, 1 = len hs ∧ exact small_env small_plan small_store hs.
Proof.
  assert (verify_resume small_env small_store small_plan = Ok 1) as H by (vm_compute; reflexivity).
  split; [exact H |]. exact (proj1 (resume_exact small_env small_plan small_store 1 small_plan_ok) H).
Defined.

