(* ===== verification/DeviceTree.v ===== *)
(** * Flattened device trees and the recovery delta

    scripts/device/verify-recovery-dtb-delta.py: the bounded parser of a
    flattened device tree ([parse_dtb]) and the comparison that accepts a
    recovery DTB only if it changes nothing but the reviewed properties
    ([compare]).  A node is a
    map from property names to values, a tree a map from paths to nodes. *)

From stdpp Require Import sorting.
From S2P Require Import Prelude PyStr.

Definition FDT_MAGIC : Z := 3490578157. (* 0xD00DFEED *)
Definition FDT_BEGIN_NODE : Z := 1.
Definition FDT_END_NODE : Z := 2.
Definition FDT_PROP : Z := 3.
Definition FDT_NOP : Z := 4.
Definition FDT_END : Z := 9.
Definition HEADER_WORDS : Z := 10.
Definition HEADER_SIZE : Z := HEADER_WORDS * 4.
Definition MAX_DTB_SIZE : Z := 2 * 1024 * 1024.
Definition NUL : ascii := "000"%char.
Definition SLASH : ascii := "/"%char.

Abbreviation tree := (gmap pystr (gmap pystr bytes)).

Definition fail {A} (message : pystr) : res A := Raise (Exn ValueError message).
Definition fail_if (bad : bool) (message : pystr) : res unit := refuse_if bad ValueError message.

Definition aligned (value : Z) : Z := Z.land (value + 3) (Z.lnot 3).

Definition bounded_slice (data : bytes) (offset size : Z) (label : pystr) : res bytes :=
  fail_if ((offset <? 0) || (size <? 0) || (len data - size <? offset)) (label ++ " is outside the DTB") ;;
  Ok (slice data offset size).

(** [data.find(b"\0", offset)] and the text before it. *)
Fixpoint until_nul (b : bytes) : option bytes :=
  match b with [] => None | c :: b => if c == NUL then Some [] else t ← until_nul b; Some (c :: t) end.
Definition c_string (data : bytes) (offset : Z) (label : pystr) : res (pystr * Z) :=
  fail_if ((offset <? 0) || (len data <=? offset)) (label ++ " offset is outside its block") ;;
  value ← of_option (until_nul (drop (Z.to_nat offset) data)) ValueError (label ++ " is not NUL terminated");
  fail_if (negb (isascii value)) (label ++ " is not ASCII") ;;
  Ok (value, offset + len value + 1).

(** [struct.unpack_from(">I", data, position)] inside the data. *)
Definition word (data : bytes) (position : Z) : Z := be_int (slice data position 4).
Definition quad (data : bytes) (position : Z) : Z := be_int (slice data position 8).

(** ** The reservation map *)
Fixpoint reservation_loop (fuel : nat) (data : bytes) (total_size reservation_end : Z) (label : pystr) : res Z :=
  if reservation_end <=? total_size - 16 then
    match fuel with
    | O => Raise (Exn OutOfFuel "")
    | S fuel =>
        let address := quad data reservation_end in
        let size := quad data (reservation_end + 8) in
        let reservation_end := reservation_end + 16 in
        if (address =? 0) && (size =? 0) then Ok reservation_end
        else reservation_loop fuel data total_size reservation_end label
    end
  else fail ("DTB reservation map is unterminated: " ++ label).

(** ** The structure block *)
Record pstate := PState {
  nodes : tree;
  stack : list pystr;
  position : Z
}.

(** [f"/{name}" if parent == "/" else f"{parent}/{name}"] *)
Definition child_path (parent name : pystr) : pystr :=
  if parent == [SLASH] then SLASH :: name else parent ++ SLASH :: name.

Definition begin_node (structure : bytes) (s : pstate) (position : Z) : res pstate :=
  '(name, next_position) ← c_string structure position "DTB node name";
  path_name ← match s.(stack) with
              | [] =>
                  fail_if (negb (bool_decide (s.(nodes) = ∅)) || (name != [])) "DTB does not begin with one empty root node" ;;
                  Ok [SLASH]
              | parent :: _ =>
                  fail_if ((name == []) || has_char SLASH name) "DTB contains an invalid child node name" ;;
                  Ok (child_path parent name)
              end;
  fail_if (bool_decide (is_Some (s.(nodes) !! path_name))) ("DTB contains a duplicate node: " ++ path_name) ;;
  Ok (PState (<[path_name := ∅]> s.(nodes)) (path_name :: s.(stack)) (aligned next_position)).

Definition property (structure strings : bytes) (s : pstate) (position : Z) : res pstate :=
  match s.(stack) with
  | [] => fail "DTB property appears outside a node or is truncated"
  | current :: _ =>
      fail_if (len structure - 8 <? position) "DTB property appears outside a node or is truncated" ;;
      let size := word structure position in
      let name_offset := word structure (position + 4) in
      let position := position + 8 in
      value ← bounded_slice structure position size "DTB property value";
      '(name, _) ← c_string strings name_offset "DTB property name";
      fail_if ((name == []) || has_char SLASH name) "DTB contains an invalid property name" ;;
      let properties := default ∅ (s.(nodes) !! current) in
      fail_if (bool_decide (is_Some (properties !! name))) ("DTB contains a duplicate property: " ++ current ++ ":" ++ name) ;;
      Ok (PState (<[current := <[name := value]> properties]> s.(nodes)) s.(stack) (aligned (position + size)))
  end.

(** One round of the loop: the next state, or the nodes at [FDT_END]. *)
Definition structure_step (structure strings : bytes) (s : pstate) : res (pstate + tree) :=
  fail_if (len structure - 4 <? s.(position)) "truncated DTB structure token" ;;
  let token := word structure s.(position) in
  let position := s.(position) + 4 in
  if token =? FDT_BEGIN_NODE then s' ← begin_node structure s position; Ok (inl s')
  else if token =? FDT_END_NODE then
    match s.(stack) with
    | [] => fail "DTB closes a node outside the root"
    | _ :: rest => Ok (inl (PState s.(nodes) rest position))
    end
  else if token =? FDT_PROP then s' ← property structure strings s position; Ok (inl s')
  else if token =? FDT_NOP then Ok (inl (PState s.(nodes) s.(stack) position))
  else if token =? FDT_END then
    fail_if (negb (bool_decide (s.(stack) = []))) "DTB ended with unclosed nodes" ;;
    fail_if (existsb (λ c, c != NUL) (drop (Z.to_nat position) structure)) "DTB structure has nonzero data after its end token" ;;
    Ok (inr s.(nodes))
  else fail ("DTB contains an unknown structure token: " ++ str_of_Z token).

Fixpoint structure_loop (fuel : nat) (structure strings : bytes) (s : pstate) : res tree :=
  if s.(position) <? len structure then
    match fuel with
    | O => Raise (Exn OutOfFuel "")
    | S fuel =>
        r ← structure_step structure strings s;
        match r with inl s' => structure_loop fuel structure strings s' | inr ns => Ok ns end
    end
  else fail "DTB structure has no complete root".

(** ** The blob *)
Abbreviation block := (Z * Z * pystr)%type.
Definition block_le (a b : block) : Prop :=
  a.1.1 < b.1.1 ∨ (a.1.1 = b.1.1 ∧ (a.1.2 < b.1.2 ∨ (a.1.2 = b.1.2 ∧ pystr_le a.2 b.2))).
#[export] Instance block_le_dec : RelDecision block_le.
Proof. intros a b. unfold block_le. apply _. Defined.
Fixpoint adjacent {A} (l : list A) : list (A * A) :=
  match l with x :: (y :: _) as l' => (x, y) :: adjacent l' | _ => [] end.

Definition parse_dtb (data : bytes) (label : pystr) : res tree :=
  fail_if ((len data <? HEADER_SIZE) || (MAX_DTB_SIZE <? len data)) ("DTB has an invalid size: " ++ label) ;;
  let magic := word data 0 in
  let total_size := word data 4 in
  let structure_offset := word data 8 in
  let strings_offset := word data 12 in
  let reservation_offset := word data 16 in
  let version := word data 20 in
  let compatible_version := word data 24 in
  let strings_size := word data 32 in
  let structure_size := word data 36 in
  fail_if (negb (magic =? FDT_MAGIC)) ("DTB has an invalid magic: " ++ label) ;;
  fail_if (negb (total_size =? len data)) ("DTB total size does not equal its file size: " ++ label) ;;
  fail_if (negb (version =? 17) || negb (compatible_version =? 16)) ("DTB has an unsupported format version: " ++ label) ;;
  fail_if ((reservation_offset <? HEADER_SIZE) || negb (reservation_offset mod 8 =? 0)
           || (total_size - 16 <? reservation_offset) || negb (structure_offset mod 4 =? 0))
    ("DTB reservation map offset is invalid: " ++ label) ;;
  reservation_end ← reservation_loop (Z.to_nat total_size) data total_size reservation_offset label;
  let blocks := merge_sort block_le
    [(reservation_offset, reservation_end, "reservation map" : pystr);
     (structure_offset, structure_offset + structure_size, "structure block" : pystr);
     (strings_offset, strings_offset + strings_size, "strings block" : pystr)] in
  for_each (λ '(start, stop, block_label),
      fail_if ((start <? HEADER_SIZE) || (stop <? start) || (total_size <? stop))
        ("DTB " ++ block_label ++ " range is invalid: " ++ label)) blocks ;;
  for_each (λ '(first, second), fail_if (second.1.1 <? first.1.2)
        ("DTB blocks overlap: " ++ first.2 ++ " and " ++ second.2)) (adjacent blocks) ;;
  structure ← bounded_slice data structure_offset structure_size "structure block";
  strings ← bounded_slice data strings_offset strings_size "strings block";
  ns ← structure_loop (S (length structure)) structure strings (PState ∅ [] 0);
  fail_if (negb (bool_decide (is_Some (ns !! [SLASH])))) "DTB structure has no complete root" ;;
  Ok ns.

(** ** Comparing *)
Definition GPU : pystr := "/soc@0/gpu@3d00000".
Definition GMU : pystr := "/soc@0/gmu@3d6a000".
Definition GPUCC : pystr := "/soc@0/clock-controller@3d90000".
Definition ADRENO_SMMU : pystr := "/soc@0/iommu@3da0000".
Definition RMTFS : pystr := "/reserved-memory/memory@9b800000".
Definition USB : pystr := "/soc@0/usb@a6f8800".
Definition USB_DWC3 : pystr := USB ++ "/usb@a600000".
Definition USB_HSPHY : pystr := "/soc@0/phy@88e3000".
Definition cstr (s : pystr) : bytes := s ++ [NUL].

Abbreviation key := (pystr * pystr)%type.
Definition FIXED_PROPERTIES : gmap key bytes := list_to_map [
  ((RMTFS, "status" : pystr), cstr "disabled"); ((GPU, "status" : pystr), cstr "disabled");
  ((GMU, "status" : pystr), cstr "disabled"); ((GPUCC, "status" : pystr), cstr "disabled");
  ((ADRENO_SMMU, "status" : pystr), cstr "disabled"); ((USB, "qcom,select-utmi-as-pipe-clk" : pystr), []);
  ((USB, "status" : pystr), cstr "okay"); ((USB_DWC3, "maximum-speed" : pystr), cstr "high-speed");
  ((USB_DWC3, "phy-names" : pystr), cstr "usb2-phy"); ((USB_HSPHY, "status" : pystr), cstr "okay")].

Definition prop (t : tree) (path name : pystr) : option bytes := t !! path ≫= λ n, n !! name.
Definition IDENTITY : bytes := cstr "asus,rog-phone5" ++ cstr "qcom,sm8350".
Definition require_board_identity (t : tree) (label : pystr) : res unit :=
  fail_if (negb (bool_decide (prop t [SLASH] "compatible" = Some IDENTITY)))
    (label ++ " lacks the exact ROG Phone 5 compatible identity").

Definition phandle (hsphy : gmap pystr bytes) : option bytes :=
  match hsphy !! ("phandle" : pystr) with Some v => Some v | None => hsphy !! ("linux,phandle" : pystr) end.

Definition names_of (base candidate : tree) (path : pystr) : list pystr :=
  sorted (elements (dom (default ∅ (base !! path)) ∪ dom (default ∅ (candidate !! path)))).
Definition all_keys (base candidate : tree) : list key :=
  sorted (elements (dom base)) ≫= λ path, (λ name, (path, name)) <$> names_of base candidate path.

Definition compare_property (base candidate : tree) (expected : gmap key bytes) (changed : Z) (k : key) : res Z :=
  let before := prop base k.1 k.2 in
  let after := prop candidate k.1 k.2 in
  match expected !! k with
  | Some value => fail_if (negb (bool_decide (after = Some value))) ("candidate recovery property is wrong: " ++ k.1 ++ ":" ++ k.2)
  | None => fail_if (negb (bool_decide (before = after))) ("recovery overlay changed an unapproved property: " ++ k.1 ++ ":" ++ k.2)
  end ;;
  Ok (if bool_decide (before = after) then changed else changed + 1).

Definition expected_properties (handle : bytes) : gmap key bytes :=
  <[(USB_DWC3, "phys" : pystr) := handle]> FIXED_PROPERTIES.

Definition compare (base candidate : tree) : res Z :=
  require_board_identity base "base DTB" ;;
  require_board_identity candidate "candidate DTB" ;;
  let added := sorted (elements (dom candidate ∖ dom base)) in
  let removed := sorted (elements (dom base ∖ dom candidate)) in
  fail_if (negb (bool_decide (dom base = dom candidate)))
    ("recovery overlay changed DTB nodes: added=" ++ repr_list added ++ " removed=" ++ repr_list removed) ;;
  hsphy ← of_option (candidate !! USB_HSPHY) ValueError "candidate lacks the USB2 PHY node";
  handle ← match phandle hsphy with
           | Some h => fail_if (negb (len h =? 4)) "candidate USB2 PHY has no exact one-cell phandle" ;; Ok h
           | None => fail "candidate USB2 PHY has no exact one-cell phandle"
           end;
  let expected := expected_properties handle in
  changed ← fold_res (compare_property base candidate expected) 0 (all_keys base candidate);
  for_each (λ '(k, value), fail_if (negb (bool_decide (prop candidate k.1 k.2 = Some value)))
      ("candidate lacks an approved recovery property: " ++ k.1 ++ ":" ++ k.2)) (map_to_list expected) ;;
  fail_if (changed =? 0) "recovery overlay made no semantic change" ;;
  Ok changed.

(** ** The parser ends *)
Lemma aligned_eq v : aligned v = (v + 3) / 4 * 4.
Proof.
  unfold aligned. apply Z.bits_inj'. intros i Hi. rewrite Z.land_spec, Z.lnot_spec by done.
  change 4 with (2 ^ 2) at 2. rewrite <-Z.shiftl_mul_pow2 by lia. change ((v + 3) / 4) with ((v + 3) / 2 ^ 2).
  rewrite <-Z.shiftr_div_pow2 by lia. destruct (decide (i < 2)) as [Hlt|Hge].
  - rewrite Z.shiftl_spec_low by done. assert (Z.testbit 3 i = true) as ->; [| apply andb_false_r].
    assert (i = 0 ∨ i = 1) as [->| ->] by lia; done.
  - rewrite Z.shiftl_spec, Z.shiftr_spec by lia. replace (i - 2 + 2) with i by lia.
    assert (Z.testbit 3 i = false) as ->; [| apply andb_true_r].
    apply Z.bits_above_log2; [lia |]. change (Z.log2 3) with 1. lia.
Qed.
Lemma aligned_bounds v : v ≤ aligned v ≤ v + 3 ∧ aligned v mod 4 = 0.
Proof. rewrite aligned_eq. pose proof (Z.div_mod (v + 3) 4). pose proof (Z.mod_pos_bound (v + 3) 4). rewrite Z.mod_mul by lia. lia. Qed.

Lemma c_string_Ok data offset label v n :
  c_string data offset label = Ok (v, n) → 0 ≤ offset ∧ n = offset + len v + 1 ∧ isascii v = true.
Proof.
  unfold c_string, fail_if. intros H. guard_inv H as Ho. bind_inv H as value Hv. guard_inv H as Ha. injection H as -> <-. b2p. done.
Qed.
Lemma structure_step_moves structure strings s s' :
  structure_step structure strings s = Ok (inl s') → s.(position) + 4 ≤ s'.(position).
Proof.
  unfold structure_step, fail_if. intros H. guard_inv H as _. destruct (_ =? FDT_BEGIN_NODE).
  { bind_inv H as x Hx. injection H as <-. unfold begin_node, fail_if in Hx. bind_inv Hx as [name next] Hc.
    apply c_string_Ok in Hc as (_ & -> & _). bind_inv Hx as p Hp. guard_inv Hx as _. injection Hx as <-. simpl.
    pose proof (aligned_bounds (position s + 4 + len name + 1)). pose proof (len_nonneg name). lia. }
  destruct (_ =? FDT_END_NODE); [destruct (stack s); [done | by injection H as <-] |].
  destruct (_ =? FDT_PROP).
  { bind_inv H as x Hx. injection H as <-. unfold property, fail_if in Hx. destruct (stack s); [done |].
    guard_inv Hx as _. bind_inv Hx as value Hv. bind_inv Hx as [name nn] Hc. guard_inv Hx as _. guard_inv Hx as _.
    injection Hx as <-. simpl. pose proof (aligned_bounds (position s + 4 + 8 + word structure (position s + 4))).
    pose proof (be_int_bound (slice structure (position s + 4) 4)). unfold word in *. lia. }
  destruct (_ =? FDT_NOP); [by injection H as <- |]. destruct (_ =? FDT_END); [| done]. by guard_inv H as _; guard_inv H as _.
Qed.
Lemma structure_step_fuel structure strings s m : structure_step structure strings s ≠ Raise (Exn OutOfFuel m).
Proof.
  assert (∀ {A} b msg (k : () → res A), (fail_if b msg ≫= k) = Raise (Exn OutOfFuel m) → k () = Raise (Exn OutOfFuel m)) as Hf
    by (intros A [|] msg k; simpl; [done | auto]).
  assert (∀ d o l, c_string d o l ≠ Raise (Exn OutOfFuel m)) as Hc.
  { intros d o l H. unfold c_string in H. apply Hf in H. destruct (until_nul _); [| done]. simpl in H. by apply Hf in H. }
  intros H. unfold structure_step in H. apply Hf in H. destruct (_ =? FDT_BEGIN_NODE).
  { apply bind_Raise in H as [H|(? & _ & ?)]; [| done]. unfold begin_node in H.
    apply bind_Raise in H as [H|([name next] & _ & H)]; [by apply Hc in H |].
    apply bind_Raise in H as [H|(p & _ & H)]; [destruct (stack s); by apply Hf in H | by apply Hf in H]. }
  destruct (_ =? FDT_END_NODE); [by destruct (stack s) |]. destruct (_ =? FDT_PROP).
  { apply bind_Raise in H as [H|(? & _ & ?)]; [| done]. unfold property in H. destruct (stack s); [done |]. apply Hf in H.
    apply bind_Raise in H as [H|(v & _ & H)]; [unfold bounded_slice in H; by apply Hf in H |].
    apply bind_Raise in H as [H|([name n] & _ & H)]; [by apply Hc in H |]. by do 2 apply Hf in H. }
  destruct (_ =? FDT_NOP); [done |]. destruct (_ =? FDT_END); [| done]. by do 2 apply Hf in H.
Qed.
Lemma structure_loop_fuel structure strings fuel s m :
  len structure < s.(position) + 4 * Z.of_nat fuel → structure_loop fuel structure strings s ≠ Raise (Exn OutOfFuel m).
Proof.
  revert s. induction fuel as [|fuel IH]; intros s Hf; simpl; destruct (_ <? _) eqn:E; try done; b2p; [lia |].
  intros H. apply bind_Raise in H as [H|([s'|ns] & Hs & H)]; [by apply structure_step_fuel in H | | done].
  apply structure_step_moves in Hs. revert H. apply IH. lia.
Qed.
Lemma reservation_loop_fuel data total fuel e l m :
  total < e + 16 * Z.of_nat fuel → reservation_loop fuel data total e l ≠ Raise (Exn OutOfFuel m).
Proof.
  revert e. induction fuel as [|fuel IH]; intros e Hf; simpl; destruct (_ <=? _) eqn:E; try done; b2p; [lia |].
  destruct (_ && _); [done |]. apply IH. lia.
Qed.

Lemma fail_if_fuel {A} b msg (k : () → res A) m :
  (refuse_if b ValueError msg ≫= k) = Raise (Exn OutOfFuel m) → b = false ∧ k () = Raise (Exn OutOfFuel m).
Proof. by destruct b. Qed.

Lemma fail_if_fuel0 b msg m : fail_if b msg ≠ Raise (Exn OutOfFuel m).
Proof. by destruct b. Qed.

(** The parser ends on every input: it returns a tree or refuses, and its
    two loops never meet the bounds of the model. *)
Theorem parse_dtb_ends data label m : parse_dtb data label ≠ Raise (Exn OutOfFuel m).
Proof.
  intros H. unfold parse_dtb in H. apply fail_if_fuel in H as [_ H]. cbv zeta in H.
  do 3 apply fail_if_fuel in H as [_ H]. apply fail_if_fuel in H as [Ho H].
  apply bind_Raise in H as [H|(re & _ & H)].
  { revert H. apply reservation_loop_fuel. b2p. unfold HEADER_SIZE, HEADER_WORDS in *. lia. }
  apply bind_Raise in H as [H|(u1 & _ & H)].
  { apply for_each_Raise in H as ([[start stop] bl] & _ & H). cbv beta iota in H. by apply fail_if_fuel0 in H. }
  apply bind_Raise in H as [H|(u2 & _ & H)].
  { apply for_each_Raise in H as ([first second] & _ & H). by apply fail_if_fuel0 in H. }
  apply bind_Raise in H as [H|(structure & _ & H)]; [by apply fail_if_fuel in H as [_ H] |].
  apply bind_Raise in H as [H|(strings & _ & H)]; [by apply fail_if_fuel in H as [_ H] |].
  apply bind_Raise in H as [H|(ns & _ & H)]; [| by apply fail_if_fuel in H as [_ H]].
  revert H. apply structure_loop_fuel. unfold len. simpl. lia.
Qed.

(** ** What the comparison accepts *)
#[local] Opaque expected_properties.
Definition changed_key (base candidate : tree) (k : key) : Prop := prop base k.1 k.2 ≠ prop candidate k.1 k.2.
#[export] Instance changed_key_dec base candidate k : Decision (changed_key base candidate k) := not_dec _.

Definition key_ok (base candidate : tree) (expected : gmap key bytes) (k : key) : Prop :=
  match expected !! k with
  | Some value => prop candidate k.1 k.2 = Some value
  | None => prop base k.1 k.2 = prop candidate k.1 k.2
  end.

Lemma compare_property_Ok base candidate expected acc k n :
  compare_property base candidate expected acc k = Ok n ↔
  key_ok base candidate expected k ∧ n = acc + len (filter (changed_key base candidate) [k]).
Proof.
  assert (len (filter (changed_key base candidate) [k]) = if bool_decide (prop base k.1 k.2 = prop candidate k.1 k.2) then 0 else 1) as Hl.
  { rewrite filter_cons, filter_nil. unfold changed_key. case_bool_decide; case_decide; done. }
  unfold compare_property, key_ok, fail_if. rewrite Hl, bind_Ok. split.
  - intros (u & Hu & [= <-]). split; [| by destruct (bool_decide _); lia].
    destruct (expected !! k); apply refuse_if_Ok in Hu; by b2p.
  - intros [Hk ->]. exists (). split.
    + destruct (expected !! k); apply refuse_if_Ok; by b2pg.
    + f_equal. destruct (bool_decide _); lia.
Qed.

Lemma compare_properties_Ok base candidate expected l acc n :
  fold_res (compare_property base candidate expected) acc l = Ok n ↔
  Forall (key_ok base candidate expected) l ∧ n = acc + len (filter (changed_key base candidate) l).
Proof.
  revert acc. induction l as [|k l IH]; intros acc; simpl.
  - split; [intros [= <-]; split; [constructor | unfold len; simpl; lia] | intros [_ ->]; unfold len; simpl; f_equal; lia].
  - rewrite bind_Ok, Forall_cons. setoid_rewrite compare_property_Ok.
    change (k :: l) with ([k] ++ l). rewrite filter_app, len_app. split.
    + intros (a & [Hk ->] & [Hl ->]%IH). split; [done | lia].
    + intros [[Hk Hl] ->]. eexists. split; [done |]. apply IH. split; [done | lia].
Qed.

Lemma elem_of_names base candidate path name :
  name ∈ names_of base candidate path ↔ is_Some (prop base path name) ∨ is_Some (prop candidate path name).
Proof.
  assert (∀ t : tree, name ∈ dom (default ∅ (t !! path)) ↔ is_Some (prop t path name)) as Hd.
  { intros t. rewrite elem_of_dom. unfold prop. destruct (t !! path); simpl; [done |]. by rewrite lookup_empty. }
  unfold names_of, sorted. rewrite merge_sort_Permutation, elem_of_elements, elem_of_union, !Hd. done.
Qed.
Lemma elem_of_all_keys base candidate k : dom base = dom candidate →
  k ∈ all_keys base candidate ↔ is_Some (prop base k.1 k.2) ∨ is_Some (prop candidate k.1 k.2).
Proof.
  intros Hdom. unfold all_keys. rewrite list_elem_of_bind. setoid_rewrite list_elem_of_fmap. setoid_rewrite elem_of_names.
  setoid_rewrite (merge_sort_Permutation pystr_le). setoid_rewrite elem_of_elements. split.
  - intros (path & (name & -> & Hn) & Hp). done.
  - intros Hk. exists k.1. split; [exists k.2; by destruct k |]. destruct Hk as [Hk|Hk]; unfold prop in Hk.
    + apply elem_of_dom. destruct (base !! k.1); [done | by destruct Hk].
    + rewrite Hdom. apply elem_of_dom. destruct (candidate !! k.1); [done | by destruct Hk].
Qed.
Lemma NoDup_sorted_elements (X : gset pystr) : NoDup (sorted (elements X)).
Proof. unfold sorted. rewrite merge_sort_Permutation. apply NoDup_elements. Qed.
Lemma all_keys_NoDup base candidate : NoDup (all_keys base candidate).
Proof.
  apply NoDup_bind; [| | apply NoDup_sorted_elements].
  - intros p1 p2 k _ _ (? & -> & _)%list_elem_of_fmap (? & [= -> ->] & _)%list_elem_of_fmap. done.
  - intros p _. apply NoDup_fmap_2; [intros ?? [=]; done | apply NoDup_sorted_elements].
Qed.

(** The approved keys whose value the candidate changes. *)
Definition approved_changes (base : tree) (expected : gmap key bytes) : gmap key bytes :=
  filter (λ kv, prop base kv.1.1 kv.1.2 ≠ Some kv.2) expected.

Lemma changed_count base candidate expected : dom base = dom candidate →
  (∀ k v, expected !! k = Some v → prop candidate k.1 k.2 = Some v) →
  (∀ k, expected !! k = None → prop base k.1 k.2 = prop candidate k.1 k.2) →
  length (filter (changed_key base candidate) (all_keys base candidate)) = size (approved_changes base expected).
Proof.
  intros Hdom Hin Hout. rewrite <-(size_list_to_set (C := gset key)) by apply NoDup_filter, all_keys_NoDup.
  rewrite <-(size_dom (D := gset key)). f_equal. apply set_eq. intros k.
  rewrite elem_of_list_to_set, list_elem_of_filter, elem_of_all_keys, elem_of_dom by done. unfold approved_changes, changed_key. split.
  - intros [Hc _]. destruct (expected !! k) as [v|] eqn:Hk; [| by specialize (Hout k Hk)].
    exists v. apply map_lookup_filter_Some. split; [done |]. simpl. by rewrite <-(Hin k v Hk).
  - intros (v & [Hk Hn]%map_lookup_filter_Some). simpl in Hn. rewrite (Hin k v Hk). split; [done |]. right. eauto.
Qed.

Lemma fail_if_pass {A} b msg (k : () → res A) : b = false → (fail_if b msg ≫= k) = k ().
Proof. apply refuse_if_pass. Qed.

Lemma compare_tail_Ok base candidate expected n : dom base = dom candidate →
  (changed ← fold_res (compare_property base candidate expected) 0 (all_keys base candidate);
   for_each (λ '(k, value), fail_if (negb (bool_decide (prop candidate k.1 k.2 = Some value)))
      ("candidate lacks an approved recovery property: " ++ k.1 ++ ":" ++ k.2)) (map_to_list expected) ;;
   fail_if (changed =? 0) "recovery overlay made no semantic change" ;;
   Ok changed) = Ok n ↔
  (∀ path name v, expected !! (path, name) = Some v → prop candidate path name = Some v) ∧
  (∀ path name, expected !! (path, name) = None → prop base path name = prop candidate path name) ∧
  n = Z.of_nat (size (approved_changes base expected)) ∧ n ≠ 0.
Proof.
  intros Hd. unfold fail_if. split.
  - intros H. bind_inv H as changed Hf. bind_inv H as u He. guard_inv H as Hn. injection H as <-. b2p.
    apply for_each_Ok in He. rewrite Forall_forall in He. apply compare_properties_Ok in Hf as [Hk Hf].
    assert (∀ k v, expected !! k = Some v → prop candidate k.1 k.2 = Some v) as Hin.
    { intros k v Hkv. specialize (He (k, v) (proj2 (elem_of_map_to_list _ _ _) Hkv)). simpl in He. apply refuse_if_Ok in He. by b2p. }
    assert (∀ k, expected !! k = None → prop base k.1 k.2 = prop candidate k.1 k.2) as Hout.
    { intros k Hkn. destruct (decide (k ∈ all_keys base candidate)) as [Hin'|Hni].
      - rewrite Forall_forall in Hk. specialize (Hk k Hin'). unfold key_ok in Hk. by rewrite Hkn in Hk.
      - rewrite elem_of_all_keys in Hni by done. destruct (prop base k.1 k.2), (prop candidate k.1 k.2); naive_solver. }
    repeat split; [intros path name v; apply (Hin (path, name)) | intros path name; apply (Hout (path, name)) | | done].
    rewrite Hf, <-(changed_count base candidate) by done. unfold len. lia.
  - intros (Hin & Hout & Hn & Hnz). apply bind_Ok. exists n. split.
    { apply compare_properties_Ok. rewrite <-(changed_count base candidate) in Hn by (done || by intros []; auto).
      split; [| unfold len; lia]. apply Forall_forall. intros [path name] _. unfold key_ok.
      destruct (expected !! (path, name)) eqn:E; auto. }
    apply bind_Ok. exists (). split; [| by rewrite refuse_if_pass by (b2pg; done)].
    apply for_each_Ok, Forall_forall. intros [[path name] v] Hv%elem_of_map_to_list. apply refuse_if_Ok. b2pg. by apply Hin.
Qed.

(** C15. The comparison accepts exactly the reviewed delta: both trees carry the
    board's identity and the same nodes, the candidate's USB2 PHY has a
    one-cell phandle, every approved property has its approved value in the
    candidate, no other property differs, and the count that is returned is
    the number of approved properties the base did not already have, at least
    one. *)
Theorem compare_exact base candidate n :
  compare base candidate = Ok n ↔
  prop base [SLASH] "compatible" = Some IDENTITY ∧ prop candidate [SLASH] "compatible" = Some IDENTITY ∧
  dom base = dom candidate ∧
  ∃ hsphy handle, candidate !! USB_HSPHY = Some hsphy ∧ phandle hsphy = Some handle ∧ len handle = 4 ∧
    (∀ path name v, expected_properties handle !! (path, name) = Some v → prop candidate path name = Some v) ∧
    (∀ path name, expected_properties handle !! (path, name) = None → prop base path name = prop candidate path name) ∧
    n = Z.of_nat (size (approved_changes base (expected_properties handle))) ∧ n ≠ 0.
Proof.
  unfold compare, require_board_identity. cbv zeta. split.
  - intros H. guard_inv H as Hb. guard_inv H as Hc. guard_inv H as Hd. bind_inv H as hsphy Hh. bind_inv H as handle Hp.
    apply negb_false_iff, bool_decide_eq_true in Hb, Hc, Hd. apply compare_tail_Ok in H; [| done]. apply of_option_Ok in Hh.
    destruct (phandle hsphy) as [h|] eqn:Eh; [| discriminate Hp]. guard_inv Hp as Hl. injection Hp as <-.
    apply negb_false_iff, Z.eqb_eq in Hl. do 3 (split; [assumption |]). exists hsphy, h. auto.
  - intros (Hb & Hc & Hd & hsphy & handle & Hh & Hp & Hl & H).
    rewrite !fail_if_pass by (apply negb_false_iff, bool_decide_eq_true; assumption).
    rewrite Hh. cbn [of_option]. rewrite Ok_bind, Hp.
    rewrite fail_if_pass by (apply negb_false_iff, Z.eqb_eq; assumption). rewrite Ok_bind.
    apply compare_tail_Ok; assumption.
Qed.

(** ** What the parser returns *)
Definition name_ok (name : pystr) : Prop := name ≠ [] ∧ has_char SLASH name = false ∧ isascii name = true.
Definition path_ok (ns : tree) (path : pystr) : Prop :=
  path = [SLASH] ∨ ∃ parent name, parent ∈ dom ns ∧ name_ok name ∧ path = child_path parent name.
Definition tree_ok (ns : tree) : Prop :=
  (∀ path, path ∈ dom ns → path_ok ns path) ∧
  (∀ path properties name, ns !! path = Some properties → is_Some (properties !! name) → name_ok name).
Definition pstate_ok (s : pstate) : Prop := tree_ok s.(nodes) ∧ Forall (λ path, path ∈ dom s.(nodes)) s.(stack).

Lemma path_ok_mono ns ns' path : dom ns ⊆ dom ns' → path_ok ns path → path_ok ns' path.
Proof. intros Hd [->|(parent & name & Hp & Hn & ->)]; [by left |]. right. exists parent, name. auto. Qed.
Lemma dom_insert_sub (ns : tree) k v : dom ns ⊆ dom (<[k := v]> ns).
Proof. rewrite dom_insert_L. apply union_subseteq_r. Qed.
Lemma stack_mono (ns ns' : tree) st :
  dom ns ⊆ dom ns' → Forall (λ path, path ∈ dom ns) st → Forall (λ path, path ∈ dom ns') st.
Proof. intros Hd H. eapply Forall_impl; [exact H | auto]. Qed.

Lemma begin_node_ok structure s position s' :
  pstate_ok s → begin_node structure s position = Ok s' → pstate_ok s'.
Proof.
  intros [[Hp Hn] Hs] H. unfold begin_node in H. bind_inv H as [name next] Hc. bind_inv H as path Hpath. guard_inv H as Hdup.
  injection H as <-. apply c_string_Ok in Hc as (_ & _ & Ha). b2p. apply eq_None_not_Some in Hdup.
  assert (path_ok (nodes s) path) as Hpok.
  { destruct (stack s) as [|parent st]; guard_inv Hpath as Hg; injection Hpath as <-; [by left |]. right.
    b2p. apply Forall_cons in Hs as [Hs _]. exists parent, name. done. }
  split; simpl; [split |].
  - intros q. rewrite dom_insert_L, elem_of_union, elem_of_singleton. intros [->|Hq];
      (eapply path_ok_mono; [apply dom_insert_sub |]); auto.
  - intros q props pn [[<- <-]|[_ Hq]]%lookup_insert_Some; [by intros [? ?] | eauto].
  - apply Forall_cons. split; [rewrite dom_insert_L; set_solver | by eapply stack_mono, Hs; apply dom_insert_sub].
Qed.

Lemma property_ok structure strings s position s' :
  pstate_ok s → property structure strings s position = Ok s' → pstate_ok s'.
Proof.
  intros [[Hp Hn] Hs] H. unfold property in H. destruct (stack s) as [|current st] eqn:Est; [done |]. cbv zeta in H.
  guard_inv H as _. bind_inv H as value _. bind_inv H as [name next] Hc. guard_inv H as Hname. guard_inv H as _.
  injection H as <-. apply c_string_Ok in Hc as (_ & _ & Ha). b2p. apply Forall_cons in Hs as [Hcur Hs].
  split; simpl; [split |].
  - intros q. rewrite dom_insert_L, elem_of_union, elem_of_singleton. intros [->|Hq];
      (eapply path_ok_mono; [apply dom_insert_sub |]); auto.
  - intros q props pn [[<- <-]|[_ Hq]]%lookup_insert_Some; [| eauto].
    intros [v [[<- _]|[_ Hv]]%lookup_insert_Some]; [done |].
    destruct (nodes s !! current) eqn:E; [by eapply Hn; eauto | done].
  - eapply stack_mono; [apply dom_insert_sub |]. by apply Forall_cons.
Qed.

Lemma structure_step_ok structure strings s r : pstate_ok s → structure_step structure strings s = Ok r →
  match r with inl s' => pstate_ok s' | inr ns => tree_ok ns end.
Proof.
  intros Hs H. unfold structure_step in H. guard_inv H as _. cbv zeta in H.
  destruct (_ =? FDT_BEGIN_NODE); [bind_inv H as s' H'; injection H as <-; by eapply begin_node_ok |].
  destruct (_ =? FDT_END_NODE).
  { destruct s as [ns [|p st] pos]; [done |]. injection H as <-. destruct Hs as [? [_ ?]%Forall_cons]. done. }
  destruct (_ =? FDT_PROP); [bind_inv H as s' H'; injection H as <-; by eapply property_ok |].
  destruct (_ =? FDT_NOP); [by injection H as <- |].
  destruct (_ =? FDT_END); [| done]. guard_inv H as _. guard_inv H as _. injection H as <-. apply Hs.
Qed.
Lemma structure_loop_ok fuel structure strings s ns :
  pstate_ok s → structure_loop fuel structure strings s = Ok ns → tree_ok ns.
Proof.
  revert s. induction fuel as [|fuel IH]; intros s Hs H; simpl in H; destruct (_ <? _); try done.
  bind_inv H as r Hr. apply structure_step_ok in Hr; [| done]. destruct r as [s'|ns']; [eauto | by injection H as <-].
Qed.

(** What the parser returns is a tree: it has the root, every other node
    hangs below a node of the result under a non-empty ASCII name without a
    slash, and so are the names of its properties. *)
Theorem parse_dtb_tree data label ns : parse_dtb data label = Ok ns → [SLASH] ∈ dom ns ∧ tree_ok ns.
Proof.
  intros H. unfold parse_dtb in H. guard_inv H as _. cbv zeta in H. do 4 guard_inv H as _.
  bind_inv H as re _. bind_inv H as u1 _. bind_inv H as u2 _. bind_inv H as structure _. bind_inv H as strings _.
  bind_inv H as ns' Hl. guard_inv H as Hr. injection H as <-. b2p. split; [by apply elem_of_dom |].
  eapply structure_loop_ok, Hl. split; [| constructor]. split; simpl; [intros p Hp | intros p props name]; [| done].
  by rewrite dom_empty_L in Hp.
Qed.

(** ** A sample blob: a root with one property and one child *)
Definition be32 (z : Z) : bytes := be_bytes 4 z.
Definition sample_structure : bytes :=
  be32 FDT_BEGIN_NODE ++ be32 0 ++ be32 FDT_PROP ++ be32 4 ++ be32 0 ++ be32 7 ++
  be32 FDT_BEGIN_NODE ++ "cpus" ++ be32 0 ++ be32 FDT_NOP ++ be32 FDT_END_NODE ++ be32 FDT_END_NODE ++ be32 FDT_END.
Definition sample_dtb : bytes :=
  let n := len sample_structure in
  concat (map be32 [FDT_MAGIC; 40 + 16 + n + 4; 56; 56 + n; 40; 17; 16; 0; 4; n]) ++
  concat (map be32 [0; 0; 0; 0]) ++ sample_structure ++ cstr "reg".
Definition sample_tree : tree := {[ [SLASH] := {[ ("reg" : pystr) := be32 7 ]}; ("/cpus" : pystr) := ∅ ]}.

Lemma parse_dtb_tree_witness : parse_dtb sample_dtb "sample" = Ok sample_tree ∧ tree_ok sample_tree.
Proof.
  assert (parse_dtb sample_dtb "sample" = Ok sample_tree) as H by (vm_compute; reflexivity).
  split; [exact H | exact (proj2 (parse_dtb_tree _ _ _ H))].
Defined.
