(* ===== verification/DtbFormat.v ===== *)
(** * The flattened-device-tree format, written

    A reference writer for the format [parse_dtb] reads, as the Devicetree
    specification lays it out: a header, an empty reservation map, a
    structure block of tokens and a block of property names.  What a list of
    tokens means is a function of its own, with no offset, padding or
    alignment in it, and the parser is proved to compute it. *)

From stdpp Require Import sorting.
From S2P Require Import Prelude PyStr DeviceTree.

(** ** Tokens and what they mean *)
Inductive token := Begin (name : pystr) | Prop_ (name : pystr) (value : bytes) | End_ | Nop.
Definition node_name (name : pystr) : bool := negb ((name == []) || has_char SLASH name).

(** The nodes so far and the open ones, innermost first. *)
Definition enter_node (s : tree * list pystr) (path : pystr) : option (tree * list pystr) :=
  if bool_decide (is_Some (s.1 !! path)) then None else Some (<[path := ∅]> s.1, path :: s.2).
Definition meaning_step (s : tree * list pystr) (t : token) : option (tree * list pystr) :=
  match t, s.2 with
  | Begin name, [] => if bool_decide (s.1 = ∅) && (name == []) then enter_node s [SLASH] else None
  | Begin name, parent :: _ => if node_name name then enter_node s (child_path parent name) else None
  | Prop_ name value, current :: _ =>
      let properties := default ∅ (s.1 !! current) in
      if node_name name && negb (bool_decide (is_Some (properties !! name)))
      then Some (<[current := <[name := value]> properties]> s.1, s.2) else None
  | Prop_ _ _, [] => None
  | End_, _ :: rest => Some (s.1, rest)
  | End_, [] => None
  | Nop, _ => Some s
  end.
Fixpoint meaning_from (s : tree * list pystr) (l : list token) : option (tree * list pystr) :=
  match l with [] => Some s | t :: l => s ← meaning_step s t; meaning_from s l end.
Definition meaning (l : list token) : option tree :=
  s ← meaning_from (∅, []) l;
  if bool_decide (s.2 = []) && bool_decide (is_Some (s.1 !! [SLASH])) then Some s.1 else None.

(** ** Writing *)
Definition pad (b : bytes) : bytes := b ++ replicate (Z.to_nat (aligned (len b) - len b)) NUL.
Definition property_names (l : list token) : list pystr := omap (λ t, match t with Prop_ name _ => Some name | _ => None end) l.
Fixpoint name_offset (table : list pystr) (name : pystr) : Z :=
  match table with [] => 0 | n :: table => if n == name then 0 else len (cstr n) + name_offset table name end.
Definition write_token (table : list pystr) (t : token) : bytes :=
  match t with
  | Begin name => be32 FDT_BEGIN_NODE ++ pad (cstr name)
  | Prop_ name value => be32 FDT_PROP ++ be32 (len value) ++ be32 (name_offset table name) ++ pad value
  | End_ => be32 FDT_END_NODE
  | Nop => be32 FDT_NOP
  end.
Definition write_strings (table : list pystr) : bytes := concat (map cstr table).
Definition write_structure (table : list pystr) (l : list token) : bytes := concat (map (write_token table) l) ++ be32 FDT_END.
Definition write_dtb (boot_cpu : Z) (l : list token) : bytes :=
  let table := property_names l in
  let structure := write_structure table l in
  let strings := write_strings table in
  concat (map be32 [FDT_MAGIC; 56 + len structure + len strings; 56; 56 + len structure; 40; 17; 16; boot_cpu; len strings; len structure])
  ++ concat (map be32 [0; 0; 0; 0]) ++ structure ++ strings.

(** What bytes can say: names of nodes and properties are ASCII without NUL. *)
Definition plain (name : pystr) : bool := isascii name && negb (has_char NUL name).
Definition writable (t : token) : bool := match t with Begin name | Prop_ name _ => plain name | _ => true end.

(** ** Reading back what was written *)
Lemma len_be32 z : len (be32 z) = 4.
Proof. unfold be32, len. by rewrite be_bytes_length. Qed.
Lemma word_here pre z post p : p = len pre → 0 ≤ z < 2 ^ 32 → word (pre ++ be32 z ++ post) p = z.
Proof.
  intros -> Hz. unfold word. rewrite slice_skip, Z.sub_diag by lia. rewrite slice_here by by rewrite len_be32.
  unfold be32. rewrite be_int_bytes. apply Z.mod_small. by change (256 ^ Z.of_nat 4) with (2 ^ 32).
Qed.
Lemma until_nul_app s post : NUL ∉ s → until_nul (s ++ NUL :: post) = Some s.
Proof.
  induction s as [|c s IH]; intros Hs; simpl; [done |]. apply not_elem_of_cons in Hs as [Hc Hs].
  rewrite bool_decide_false by done. by rewrite IH.
Qed.
Lemma plain_spec name : plain name = true → isascii name = true ∧ (NUL ∉ name).
Proof. unfold plain. intros [Ha Hn%negb_true_iff]%andb_true_iff. split; [done |]. by apply has_char_false. Qed.
Lemma len_cstr name : len (cstr name) = len name + 1.
Proof. unfold cstr. by rewrite len_app. Qed.
Lemma c_string_here pre name post p label : p = len pre → plain name = true →
  c_string (pre ++ cstr name ++ post) p label = Ok (name, p + len name + 1).
Proof.
  intros -> [Ha Hn]%plain_spec. unfold c_string, fail_if, refuse_if. pose proof (len_nonneg pre). pose proof (len_nonneg name). pose proof (len_nonneg post).
  rewrite (proj2 (Z.ltb_ge _ _)) by lia. rewrite !len_app, len_cstr, (proj2 (Z.leb_gt _ _)) by lia. simpl.
  assert (Hl : Z.to_nat (len pre) = length pre) by (unfold len; lia). rewrite Hl, drop_app_length. unfold cstr. rewrite <- app_assoc. cbn [app]. rewrite until_nul_app by done. simpl. by rewrite Ha.
Qed.
Lemma len_pad b : len (pad b) = aligned (len b).
Proof. unfold pad. rewrite len_app, len_replicate. pose proof (aligned_bounds (len b)). lia. Qed.
Lemma aligned_add p x : p mod 4 = 0 → aligned (p + x) = p + aligned x.
Proof.
  intros Hp. rewrite !aligned_eq. pose proof (Z.div_mod p 4). replace (p + x + 3) with (x + 3 + p / 4 * 4) by lia.
  rewrite Z.div_add by lia. lia.
Qed.
Lemma name_offset_split table name : name ∈ table → ∃ a b, write_strings table = a ++ cstr name ++ b ∧ name_offset table name = len a.
Proof.
  induction table as [|n table IH]; [by intros ?%elem_of_nil |]. intros Hin. simpl. case_bool_decide as Hn.
  - subst n. by exists [], (write_strings table).
  - destruct IH as (a & b & Ha & Ho); [set_solver |]. exists (cstr n ++ a), b. unfold write_strings in *. simpl. rewrite Ha, Ho, len_app, app_assoc. done.
Qed.

(** A prefix of whole words, followed by one token. *)
Section token.
Context (table : list pystr) (pre post : bytes) (Hpre : len pre mod 4 = 0).
Context (strings : bytes) (Hstrings : strings = write_strings table) (Hsmall : len strings < 2 ^ 32).
Abbreviation at_ s p := (PState s.1 s.2 p).

Lemma token_word tag rest p : 0 ≤ tag < 2 ^ 32 → p = len pre → let structure := pre ++ (be32 tag ++ rest) ++ post in
  (len structure - 4 <? p) = false ∧ word structure p = tag.
Proof using Type.
  intros Ht -> structure. unfold structure. rewrite <- (app_assoc (be32 tag)). split; [| by apply word_here].
  rewrite !len_app, len_be32. pose proof (len_nonneg rest). pose proof (len_nonneg post). apply Z.ltb_ge. lia.
Qed.
Lemma begin_node_here s name : plain name = true → let structure := pre ++ write_token table (Begin name) ++ post in
  match meaning_step s (Begin name) with
  | Some s' => begin_node structure (at_ s (len pre)) (len pre + 4) = Ok (at_ s' (len pre + len (write_token table (Begin name))))
  | None => ∃ e, begin_node structure (at_ s (len pre)) (len pre + 4) = Raise e
  end.
Proof using Hpre.
  intros Hn structure. unfold begin_node, structure, write_token.
  assert (Hlen : len pre + 4 = len (pre ++ be32 FDT_BEGIN_NODE)) by (by rewrite len_app, len_be32).
  assert (Hs : ∃ rest, pre ++ (be32 FDT_BEGIN_NODE ++ pad (cstr name)) ++ post = (pre ++ be32 FDT_BEGIN_NODE) ++ cstr name ++ rest).
  { eexists. unfold pad. by rewrite <- !app_assoc. }
  destruct Hs as [rest Hs]. rewrite Hs, (c_string_here _ _ _ _ _ Hlen Hn). cbn [mbind res_mbind res_bind].
  assert (Hnext : aligned (len pre + 4 + len name + 1) = len pre + len (be32 FDT_BEGIN_NODE ++ pad (cstr name))).
  { rewrite len_app, len_be32, len_pad, len_cstr. replace (len pre + 4 + len name + 1) with (len pre + 4 + (len name + 1)) by lia.
    rewrite aligned_add; [lia |]. rewrite Z.add_mod, Hpre by lia. done. }
  rewrite <- Hnext. unfold meaning_step, enter_node, node_name, fail_if, refuse_if. destruct (s.2) as [|parent st]; cbn [stack nodes].
  - destruct (bool_decide (s.1 = ∅)); simpl; [| by eexists]. case_bool_decide; simpl; [| by eexists].
    by case_bool_decide; simpl; [by eexists |].
  - destruct ((name == []) || has_char SLASH name); simpl; [by eexists |]. by case_bool_decide; simpl; [by eexists |].
Qed.

Lemma property_here s name value : plain name = true → name ∈ table → len value < 2 ^ 32 →
  let structure := pre ++ write_token table (Prop_ name value) ++ post in
  match meaning_step s (Prop_ name value) with
  | Some s' => property structure strings (at_ s (len pre)) (len pre + 4) = Ok (at_ s' (len pre + len (write_token table (Prop_ name value))))
  | None => ∃ e, property structure strings (at_ s (len pre)) (len pre + 4) = Raise e
  end.
Proof using Hpre Hstrings Hsmall.
  intros Hn Hin Hv structure. destruct (name_offset_split table name Hin) as (a & b & Hab & Ho). rewrite <- Hstrings in Hab.
  pose proof (len_nonneg a). pose proof (len_nonneg b). pose proof (len_nonneg value). pose proof (len_nonneg name). pose proof (len_nonneg post).
  assert (Hoff : 0 ≤ name_offset table name < 2 ^ 32) by (rewrite Hab, !len_app, len_cstr in Hsmall; lia).
  assert (Hlen : len (write_token table (Prop_ name value)) = 12 + aligned (len value)) by (unfold write_token; rewrite !len_app, !len_be32, len_pad; lia).
  pose proof (aligned_bounds (len value)) as Hal.
  assert (W1 : ∃ rest, structure = (pre ++ be32 FDT_PROP) ++ be32 (len value) ++ rest).
  { eexists. unfold structure, write_token. by rewrite <- !app_assoc. }
  assert (W2 : ∃ rest, structure = (pre ++ be32 FDT_PROP ++ be32 (len value)) ++ be32 (name_offset table name) ++ rest).
  { eexists. unfold structure, write_token. by rewrite <- !app_assoc. }
  assert (W3 : ∃ rest, structure = (pre ++ be32 FDT_PROP ++ be32 (len value) ++ be32 (name_offset table name)) ++ value ++ rest).
  { eexists. unfold structure, write_token, pad. by rewrite <- !app_assoc. }
  assert (Htotal : len structure = len pre + (12 + aligned (len value)) + len post) by (unfold structure; rewrite !len_app, Hlen; lia).
  assert (Hsize : word structure (len pre + 4) = len value) by (destruct W1 as [rest ->]; apply word_here; [rewrite len_app, len_be32; lia | lia]).
  assert (Hname : word structure (len pre + 4 + 4) = name_offset table name) by (destruct W2 as [rest ->]; apply word_here; [rewrite !len_app, !len_be32; lia | done]).
  assert (Hvalue : bounded_slice structure (len pre + 4 + 8) (len value) "DTB property value" = Ok value).
  { unfold bounded_slice, fail_if, refuse_if. pose proof (len_nonneg pre).
    rewrite (proj2 (Z.ltb_ge (len pre + 4 + 8) 0)), (proj2 (Z.ltb_ge (len value) 0)), (proj2 (Z.ltb_ge (len structure - len value) _)) by lia. simpl.
    f_equal. destruct W3 as [rest ->]. rewrite slice_skip by (rewrite !len_app, !len_be32; lia).
    apply slice_first; [rewrite !len_app, !len_be32; lia | done]. }
  assert (Hnext : aligned (len pre + 4 + 8 + len value) = len pre + len (write_token table (Prop_ name value))).
  { rewrite Hlen. replace (len pre + 4 + 8 + len value) with (len pre + (12 + len value)) by lia. rewrite aligned_add by done.
    f_equal. by apply aligned_add. }
  rewrite <- Hnext. unfold property, meaning_step, node_name, fail_if, refuse_if. destruct (s.2) as [|current st]; cbn [stack nodes]; [by eexists |].
  rewrite (proj2 (Z.ltb_ge (len structure - 8) _)) by lia. cbn [mbind res_mbind res_bind]. rewrite Hsize, Hname, Hvalue. cbn [mbind res_mbind res_bind].
  rewrite Hab, (c_string_here a name b _ _ Ho Hn). cbn [mbind res_mbind res_bind].
  destruct ((name == []) || has_char SLASH name); cbn [negb andb mbind res_mbind res_bind]; [by eexists |].
  case_bool_decide; cbn [negb andb mbind res_mbind res_bind]; [by eexists | done].
Qed.

(** One round of the parser's loop is one token's meaning. *)
Lemma structure_step_here s t : writable t = true → (∀ name value, t = Prop_ name value → name ∈ table ∧ len value < 2 ^ 32) →
  let structure := pre ++ write_token table t ++ post in
  match meaning_step s t with
  | Some s' => structure_step structure strings (at_ s (len pre)) = Ok (inl (at_ s' (len pre + len (write_token table t))))
  | None => ∃ e, structure_step structure strings (at_ s (len pre)) = Raise e
  end.
Proof using Hpre Hstrings Hsmall.
  intros Hw Ht structure.
  assert (Hword : ∀ tag rest, write_token table t = be32 tag ++ rest → 0 ≤ tag < 2 ^ 32 →
    (len structure - 4 <? len pre) = false ∧ word structure (len pre) = tag).
  { intros tag rest Heq Htag. unfold structure. rewrite Heq. by apply token_word. }
  unfold structure_step. cbn [position nodes stack]. destruct t as [name|name value| |].
  - destruct (Hword _ _ eq_refl) as [-> ->]; [done |]. cbn [fail_if refuse_if mbind res_mbind res_bind]. rewrite Z.eqb_refl.
    pose proof (begin_node_here s name Hw) as H. cbv zeta in H. fold structure in H.
    destruct (meaning_step s (Begin name)); [by rewrite H | destruct H as [e H]; exists e; by rewrite H].
  - destruct (Hword _ _ eq_refl) as [-> ->]; [done |]. cbn [fail_if refuse_if mbind res_mbind res_bind].
    change (FDT_PROP =? FDT_BEGIN_NODE) with false. change (FDT_PROP =? FDT_END_NODE) with false. rewrite Z.eqb_refl.
    destruct (Ht name value eq_refl) as [Hin Hv]. pose proof (property_here s name value Hw Hin Hv) as H. cbv zeta in H. fold structure in H.
    destruct (meaning_step s (Prop_ name value)); [by rewrite H | destruct H as [e H]; exists e; by rewrite H].
  - destruct (Hword FDT_END_NODE [] (eq_sym (app_nil_r _))) as [-> ->]; [done |]. cbn. destruct (s.2); [by eexists | done].
  - destruct (Hword FDT_NOP [] (eq_sym (app_nil_r _))) as [-> ->]; [done |]. done.
Qed.
End token.

Lemma write_token_len table t : len (write_token table t) mod 4 = 0 ∧ 4 ≤ len (write_token table t).
Proof.
  destruct t as [name|name value| |]; unfold write_token; rewrite ?len_app, ?len_be32, ?len_pad; try done.
  - pose proof (aligned_bounds (len (cstr name))) as [H1 H2]. pose proof (len_nonneg (cstr name)). split; [| lia]. by rewrite Z.add_mod, H2 by lia.
  - pose proof (aligned_bounds (len value)) as [H1 H2]. pose proof (len_nonneg value). split; [| lia].
    rewrite (Z.add_mod 4), (Z.add_mod 4 (4 + _)), (Z.add_mod 4 (aligned _)), H2 by lia. done.
Qed.
Definition closed (s : option (tree * list pystr)) : option tree := s ← s; if bool_decide (s.2 = []) then Some s.1 else None.
(** The loop of the parser on a structure block from the token at [pre] on. *)
Section loop.
Context (table : list pystr) (strings : bytes) (Hstrings : strings = write_strings table) (Hsmall : len strings < 2 ^ 32).
Abbreviation at_ s p := (PState s.1 s.2 p).
Definition tokens_ok (l : list token) : Prop :=
  Forall (λ t, writable t = true ∧ ∀ name value, t = Prop_ name value → name ∈ table ∧ len value < 2 ^ 32) l.
Lemma structure_end pre s fuel : len pre mod 4 = 0 →
  match closed (Some s) with
  | Some t => structure_loop (S fuel) (pre ++ be32 FDT_END) strings (at_ s (len pre)) = Ok t
  | None => ∃ e, structure_loop (S fuel) (pre ++ be32 FDT_END) strings (at_ s (len pre)) = Raise e
  end.
Proof.
  intros Hpre. simpl structure_loop. rewrite len_app, len_be32, (proj2 (Z.ltb_lt _ _)) by lia. unfold structure_step. cbn [position nodes stack].
  destruct (token_word pre [] FDT_END [] (len pre)) as [H1 H2]; [done | done |]. rewrite !app_nil_r in H1, H2. rewrite H1, H2.
  cbn [fail_if refuse_if mbind res_mbind res_bind]. change (FDT_END =? FDT_BEGIN_NODE) with false. change (FDT_END =? FDT_END_NODE) with false.
  change (FDT_END =? FDT_PROP) with false. change (FDT_END =? FDT_NOP) with false. rewrite Z.eqb_refl. unfold closed. cbn [mbind option_bind].
  case_bool_decide as Hs; cbn; [| by eexists]. rewrite drop_ge; [done |]. rewrite length_app. simpl length. unfold len. lia.
Qed.
Lemma structure_loop_here l : ∀ pre s fuel, len pre mod 4 = 0 → tokens_ok l → len (write_structure table l) ≤ 4 * Z.of_nat fuel →
  match closed (meaning_from s l) with
  | Some t => structure_loop fuel (pre ++ write_structure table l) strings (at_ s (len pre)) = Ok t
  | None => ∃ e, structure_loop fuel (pre ++ write_structure table l) strings (at_ s (len pre)) = Raise e
  end.
Proof using Hstrings Hsmall.
  induction l as [|t l IH]; intros pre s fuel Hpre Hl Hf; unfold write_structure in *; simpl concat in *; simpl map in *.
  - destruct fuel as [|fuel]; [rewrite app_nil_l, len_be32 in Hf; simpl in Hf; lia |]. by apply structure_end.
  - apply Forall_cons in Hl as [[Hw Ht] Hl]. destruct (write_token_len table t) as [Hmod Hge].
    set (rest := concat (map (write_token table) l) ++ be32 FDT_END) in *. rewrite <- app_assoc in *. fold rest in Hf |- *.
    pose proof (len_nonneg rest). rewrite len_app in Hf.
    destruct fuel as [|fuel]; [simpl in Hf; lia |]. cbn [meaning_from structure_loop].
    rewrite !len_app. cbn [position]. rewrite (proj2 (Z.ltb_lt _ _)) by lia.
    pose proof (structure_step_here table pre rest Hpre strings Hstrings Hsmall s t Hw Ht) as Hstep. cbv zeta in Hstep.
    destruct (meaning_step s t) as [s'|]; cbn [mbind option_bind].
    + rewrite Hstep. cbn [mbind res_mbind res_bind].
      specialize (IH (pre ++ write_token table t) s' fuel). rewrite len_app, <- app_assoc in IH. apply IH; [| done | lia].
      by rewrite Z.add_mod, Hpre, Hmod by lia.
    + destruct Hstep as [e He]. exists e. by rewrite He.
Qed.
End loop.

(** ** The header *)
Lemma words_len ws : len (concat (map be32 ws)) = 4 * len ws.
Proof. induction ws as [|w ws IH]; [done |]. cbn [map concat]. rewrite len_app, len_be32, IH. unfold len. simpl. lia. Qed.
Lemma word_nth ws rest i z : ws !! i = Some z → 0 ≤ z < 2 ^ 32 → word (concat (map be32 ws) ++ rest) (4 * Z.of_nat i) = z.
Proof.
  intros Hi Hz. rewrite <- (take_drop_middle ws i z Hi), map_app, concat_app. cbn [map concat]. rewrite <- !app_assoc. apply word_here; [| done].
  rewrite words_len. unfold len. rewrite length_take_le; [done |]. apply lookup_lt_Some in Hi. lia.
Qed.
Lemma blocks_sorted n m : 0 < n → 0 ≤ m → let l : list block := [(40, 56, "reservation map" : pystr); (56, 56 + n, "structure block" : pystr); (56 + n, 56 + n + m, "strings block" : pystr)] in
  merge_sort block_le l = l.
Proof.
  intros Hn Hm l. unfold l, merge_sort. cbn -[block_le decide Z.add].
  rewrite decide_True by (left; cbn [fst]; lia). cbn -[block_le decide Z.add]. by rewrite !decide_False by (unfold block_le; cbn [fst snd]; lia).
Qed.

Section whole.
Context (boot_cpu : Z) (l : list token).
Let table := property_names l.
Let structure := write_structure table l.
Let strings := write_strings table.
Let n := len structure.
Let m := len strings.
Context (Hboot : 0 ≤ boot_cpu < 2 ^ 32) (Hl : Forall (λ t, writable t = true) l) (Hmax : 56 + n + m ≤ MAX_DTB_SIZE).
Let header := concat (map be32 [FDT_MAGIC; 56 + n + m; 56; 56 + n; 40; 17; 16; boot_cpu; m; n]).
Let zeros := concat (map be32 [0; 0; 0; 0]).
Let data := write_dtb boot_cpu l.
Lemma data_split : data = header ++ zeros ++ structure ++ strings.
Proof using Type. done. Qed.
Lemma structure_bounds : 4 ≤ n ∧ n mod 4 = 0 ∧ 0 ≤ m.
Proof using Type.
  pose proof (len_nonneg strings). enough (4 ≤ n ∧ n mod 4 = 0) by (unfold m; lia). unfold n, structure, write_structure. clear. generalize table. intros tb.
  induction l as [|t l' IH]; cbn [map concat]; [rewrite app_nil_l, len_be32; done |]. destruct (write_token_len tb t) as [H1 H2].
  rewrite <- app_assoc, len_app. destruct IH as [IH1 IH2]. split; [lia |]. by rewrite Z.add_mod, H1, IH2 by lia.
Qed.
Lemma header_len : len header = 40.
Proof using Type. unfold header. by rewrite words_len. Qed.
Lemma zeros_len : len zeros = 16.
Proof using Type. unfold zeros. by rewrite words_len. Qed.
Lemma len_data : len data = 56 + n + m.
Proof using Type. rewrite data_split, !len_app, header_len, zeros_len. unfold n, m. lia. Qed.
Lemma data_word i z : [FDT_MAGIC; 56 + n + m; 56; 56 + n; 40; 17; 16; boot_cpu; m; n] !! i = Some z → 0 ≤ z < 2 ^ 32 → word data (4 * Z.of_nat i) = z.
Proof using Type. intros Hi Hz. rewrite data_split. by apply word_nth. Qed.
Lemma data_quad k : k = 0 ∨ k = 8 → quad data (40 + k) = 0.
Proof using Type.
  intros Hk. unfold quad. rewrite data_split. pose proof header_len. pose proof zeros_len. rewrite slice_skip, header_len by lia. replace (40 + k - 40) with k by lia.
  rewrite slice_in by lia. destruct Hk as [->| ->]; vm_compute; reflexivity.
Qed.
Lemma reservation_here label : reservation_loop (Z.to_nat (len data)) data (len data) 40 label = Ok 56.
Proof using Type.
  pose proof structure_bounds. destruct (Z.to_nat (len data)) as [|fuel] eqn:Hf; [rewrite len_data in Hf; lia |].
  cbn [reservation_loop]. rewrite (proj2 (Z.leb_le 40 _)) by (rewrite len_data; lia).
  pose proof (data_quad 0 (or_introl eq_refl)) as H0. pose proof (data_quad 8 (or_intror eq_refl)) as H8.
  change (40 + 0) with 40 in H0. by rewrite H0, H8.
Qed.

Lemma tokens_writable : tokens_ok table l.
Proof using boot_cpu Hl Hmax.
  pose proof structure_bounds. unfold tokens_ok. rewrite Forall_forall in *. intros t Ht. split; [by apply Hl |]. intros name value ->. split.
  - apply list_elem_of_omap. by exists (Prop_ name value).
  - assert (len (write_token table (Prop_ name value)) ≤ n).
    { unfold n, structure, write_structure. apply list_elem_of_split in Ht as (l1 & l2 & ->). rewrite map_app, concat_app. cbn [map concat].
      rewrite !len_app. pose proof (len_nonneg (concat (map (write_token table) l1))). pose proof (len_nonneg (concat (map (write_token table) l2))).
      rewrite len_be32. lia. }
    assert (Hw : len (write_token table (Prop_ name value)) = 12 + aligned (len value)) by (unfold write_token; rewrite !len_app, !len_be32, len_pad; lia).
    pose proof (aligned_bounds (len value)). unfold MAX_DTB_SIZE in Hmax. lia.
Qed.
Lemma block_slices : slice data 56 n = structure ∧ slice data (56 + n) m = strings.
Proof using Type.
  pose proof header_len. pose proof zeros_len. pose proof structure_bounds. rewrite data_split. split.
  - rewrite slice_skip, slice_skip, header_len, zeros_len by (rewrite ?header_len, ?zeros_len; lia). by apply slice_first.
  - rewrite slice_skip, slice_skip, slice_skip, header_len, zeros_len by (rewrite ?header_len, ?zeros_len; unfold n; lia).
    replace (56 + n - 40 - 16 - len structure) with 0 by (unfold n; lia). by apply slice_all.
Qed.
Ltac passes := rewrite fail_if_pass by (repeat (apply orb_false_iff; split); rewrite ?negb_false_iff, ?Z.ltb_ge, ?Z.eqb_eq; (done || lia)).
Lemma parse_written label :
  match meaning l with
  | Some t => parse_dtb data label = Ok t
  | None => ∃ e, parse_dtb data label = Raise e
  end.
Proof using Hboot Hl Hmax.
  pose proof structure_bounds as (Hn & Hn4 & Hm). pose proof len_data as Hlen. unfold MAX_DTB_SIZE in Hmax.
  assert (Hword : ∀ i z p, [FDT_MAGIC; 56 + n + m; 56; 56 + n; 40; 17; 16; boot_cpu; m; n] !! i = Some z → p = 4 * Z.of_nat i → 0 ≤ z < 2 ^ 32 → word data p = z).
  { intros i z p Hi -> Hz. by apply data_word. }
  pose proof (reservation_here label) as Hr. pose proof (blocks_sorted n m ltac:(lia) Hm) as Hb. cbv zeta in Hb. destruct block_slices as [Hs1 Hs2].
  unfold parse_dtb. cbv zeta.
  rewrite (Hword 0%nat FDT_MAGIC 0), (Hword 1%nat (56 + n + m) 4), (Hword 2%nat 56 8), (Hword 3%nat (56 + n) 12), (Hword 4%nat 40 16), (Hword 5%nat 17 20),
    (Hword 6%nat 16 24), (Hword 8%nat m 32), (Hword 9%nat n 36) by (done || lia).
  rewrite Hlen in *. change HEADER_SIZE with 40. change MAX_DTB_SIZE with 2097152.
  do 5 passes. rewrite Hr. cbn [mbind res_mbind res_bind]. rewrite Hb. cbn [for_each adjacent fst snd].
  do 3 passes. cbn [mbind res_mbind res_bind]. do 2 passes. cbn [mbind res_mbind res_bind]. unfold bounded_slice. rewrite Hlen, Hs1, Hs2.
  do 2 passes. cbn [mbind res_mbind res_bind].
  pose proof (structure_loop_here table strings eq_refl ltac:(unfold m in *; lia) l [] (∅, []) (S (length structure)) eq_refl tokens_writable) as Hloop.
  unfold meaning. fold structure in Hloop. rewrite app_nil_l in Hloop. unfold closed in Hloop. cbn [fst snd] in Hloop. change (len []) with 0 in Hloop.
  specialize (Hloop ltac:(unfold len; lia)). destruct (meaning_from (∅, []) l) as [[t st]|]; cbn [mbind option_bind fst snd] in *.
  - destruct (bool_decide (st = [])); cbn [andb]; [| destruct Hloop as [e ->]; by exists e]. rewrite Hloop. cbn [mbind res_mbind res_bind].
    case_bool_decide; [done | by eexists].
  - destruct Hloop as [e ->]. by exists e.
Qed.
End whole.

(** C16. The parser computes the meaning of the format: a blob written from
    tokens parses exactly when the tokens mean a tree (one root, nodes closed,
    no node or property twice, names without a slash), and then to that tree,
    whatever the order of nodes, properties and padding tokens. *)
Theorem parse_dtb_written boot_cpu l label t : 0 ≤ boot_cpu < 2 ^ 32 → Forall (λ t, writable t = true) l →
  len (write_dtb boot_cpu l) ≤ MAX_DTB_SIZE → parse_dtb (write_dtb boot_cpu l) label = Ok t ↔ meaning l = Some t.
Proof.
  intros Hb Hl Hmax. rewrite len_data in Hmax. pose proof (parse_written boot_cpu l Hb Hl Hmax label) as H.
  destruct (meaning l) as [t'|]; [rewrite H; split; congruence | destruct H as [e ->]; done].
Qed.

Definition sample_tokens : list token := [Begin []; Prop_ "reg" (be32 7); Begin "cpus"; Nop; End_; End_].
Lemma parse_dtb_written_witness :
  parse_dtb (write_dtb 0 sample_tokens) "sample" = Ok sample_tree ∧ ∀ t, parse_dtb (write_dtb 0 (Nop :: Begin [] :: sample_tokens)) "sample" ≠ Ok t.
Proof.
  split.
  - apply (parse_dtb_written 0 sample_tokens "sample" sample_tree); [done | repeat constructor | apply Z.leb_le; vm_compute; reflexivity |].
    apply (bool_decide_eq_true_1 _). vm_compute. reflexivity.
  - intros t H. apply (parse_dtb_written 0 (Nop :: Begin [] :: sample_tokens) "sample" t) in H; [| done | repeat constructor | apply Z.leb_le; vm_compute; reflexivity].
    assert (N : meaning (Nop :: Begin [] :: sample_tokens) = None) by (vm_compute; reflexivity). congruence.
Defined.
