(* ===== verification/DisplayDelta.v ===== *)
(** * The 60 Hz display delta

    scripts/device/verify-display-60hz-dtb-delta.py: [compare] accepts a
    candidate tree only if it is the base tree with the reviewed panel nodes
    and property changes.  The parser and the board identity come from
    DeviceTree.v, as the script loads them from the recovery verifier. *)

From stdpp Require Import sorting.
From S2P Require Import Prelude PyStr Sha256 DeviceTree.

Definition BASE_SHA256 : pystr := "8b1250cefd69870662edb9131190f005f492b4c93c192ee7e2b89b9a121f22da".
Definition BASE_SIZE : Z := 107194.
Definition SYMBOLS : pystr := "/__symbols__".
Definition REGULATORS : pystr := "/soc@0/rsc@18200000/regulators-1".
Definition BOB : pystr := REGULATORS ++ "/bob".
Definition L5B : pystr := "/soc@0/rsc@18200000/regulators-0/ldo5".
Definition L6B : pystr := "/soc@0/rsc@18200000/regulators-0/ldo6".
Definition L12 : pystr := REGULATORS ++ "/ldo12".
Definition L13 : pystr := REGULATORS ++ "/ldo13".
Definition TLMM : pystr := "/soc@0/pinctrl@f100000".
Definition PINCTRL : pystr := TLMM ++ "/rog5-panel-default-state".
Definition RESET_PIN : pystr := PINCTRL ++ "/reset-pins".
Definition TE_PIN : pystr := PINCTRL ++ "/te-pins".
Definition IRIS_WAKE_PIN : pystr := PINCTRL ++ "/iris-wakeup-pins".
Definition IRIS_READY_PIN : pystr := PINCTRL ++ "/iris-ready-pins".
Definition DISPCC : pystr := "/soc@0/clock-controller@af00000".
Definition MDSS : pystr := "/soc@0/display-subsystem@ae00000".
Definition MDP : pystr := MDSS ++ "/display-controller@ae01000".
Definition DSI : pystr := MDSS ++ "/dsi@ae94000".
Definition DSI_OUT : pystr := DSI ++ "/ports/port@1/endpoint".
Definition DSI_PHY : pystr := MDSS ++ "/phy@ae94400".
Definition PANEL : pystr := DSI ++ "/panel@0".
Definition PANEL_PORT : pystr := PANEL ++ "/port".
Definition PANEL_IN : pystr := PANEL_PORT ++ "/endpoint".

Definition cell (value : Z) : bytes := be_bytes 4 value.
Definition cells (values : list Z) : bytes := concat (map cell values).
Definition string (value : pystr) : bytes := value ++ [NUL].

Definition node_phandle (nodes : tree) (path : pystr) : res bytes :=
  properties ← of_option (nodes !! path) ValueError ("missing phandle node: " ++ path);
  match DeviceTree.phandle properties with
  | Some value => fail_if (negb (len value =? 4) || (value == cell 0)) ("invalid phandle: " ++ path) ;; Ok value
  | None => fail ("invalid phandle: " ++ path)
  end.
Abbreviation props := (gmap pystr bytes).
Definition require_properties (nodes : tree) (path : pystr) (expected : props) : res unit :=
  fail_if (negb (bool_decide (nodes !! path = Some expected))) ("wrong exact properties: " ++ path).

(** The phandles [compare] reads from the candidate. *)
Record handles := Handles {
  panel_in : bytes; dsi_out : bytes; pinctrl : bytes; l12 : bytes; l13 : bytes; l5b : bytes; l6b : bytes; tlmm : bytes; bob : bytes
}.
Definition read_handles (candidate : tree) : res handles :=
  panel_in ← node_phandle candidate PANEL_IN;
  dsi_out ← node_phandle candidate DSI_OUT;
  pinctrl ← node_phandle candidate PINCTRL;
  l12 ← node_phandle candidate L12;
  l13 ← node_phandle candidate L13;
  l5b ← node_phandle candidate L5B;
  l6b ← node_phandle candidate L6B;
  tlmm ← node_phandle candidate TLMM;
  bob ← node_phandle candidate BOB;
  Ok (Handles panel_in dsi_out pinctrl l12 l13 l5b l6b tlmm bob).

Definition expected_added : gset pystr :=
  list_to_set [L12; L13; PINCTRL; RESET_PIN; TE_PIN; IRIS_WAKE_PIN; IRIS_READY_PIN; PANEL; PANEL_PORT; PANEL_IN].
Definition expected_list (h : handles) : list (key * bytes) := [
  ((SYMBOLS, "rog5_panel_default" : pystr), string PINCTRL);
  ((SYMBOLS, "rog5_panel_in" : pystr), string PANEL_IN);
  ((SYMBOLS, "vreg_l12c_1p8" : pystr), string L12);
  ((SYMBOLS, "vreg_l13c_3p0" : pystr), string L13);
  ((DISPCC, "status" : pystr), string "okay");
  ((MDSS, "status" : pystr), string "okay");
  ((MDP, "status" : pystr), string "okay");
  ((DSI, "status" : pystr), string "okay");
  ((DSI, "vdda-supply" : pystr), h.(l6b));
  ((DSI_OUT, "data-lanes" : pystr), cells [0; 1; 2; 3]);
  ((DSI_OUT, "remote-endpoint" : pystr), h.(panel_in));
  ((DSI_PHY, "status" : pystr), string "okay");
  ((DSI_PHY, "vdds-supply" : pystr), h.(l5b));
  ((REGULATORS, "vdd-l3-l4-l5-l7-l13-supply" : pystr), h.(bob))].
Definition expected_changes (h : handles) : gmap key bytes := list_to_map (expected_list h).

(** The loop over the nodes both trees have. *)
Definition shared_keys (base candidate : tree) : list key :=
  sorted (elements (dom base ∩ dom candidate)) ≫= λ path, (λ name, (path, name)) <$> names_of base candidate path.
Definition actual_changes (base candidate : tree) : gmap key (option bytes) :=
  foldl (λ changes k,
    let before := prop base k.1 k.2 in
    let after := prop candidate k.1 k.2 in
    if bool_decide (before = after) then changes else <[k := after]> changes) ∅ (shared_keys base candidate).

(** The nodes [compare] requires exactly, in its order. *)
Definition new_nodes (h : handles) (input_direction : pystr) : list (pystr * props) :=
  let gpio := string "gpio" in
  [(L12, list_to_map [("phandle" : pystr, h.(l12)); ("regulator-initial-mode" : pystr, cell 3);
      ("regulator-max-microvolt" : pystr, cell 1800000); ("regulator-min-microvolt" : pystr, cell 1800000);
      ("regulator-name" : pystr, string "vreg_l12c_1p8")]);
   (L13, list_to_map [("phandle" : pystr, h.(l13)); ("regulator-initial-mode" : pystr, cell 3);
      ("regulator-max-microvolt" : pystr, cell 3000000); ("regulator-min-microvolt" : pystr, cell 3000000);
      ("regulator-name" : pystr, string "vreg_l13c_3p0")]);
   (PINCTRL, list_to_map [("phandle" : pystr, h.(pinctrl))]);
   (RESET_PIN, list_to_map [("bias-disable" : pystr, []); ("drive-strength" : pystr, cell 8); ("function" : pystr, gpio);
      ("pins" : pystr, string "gpio24")]);
   (TE_PIN, list_to_map [("bias-pull-down" : pystr, []); ("drive-strength" : pystr, cell 2); ("function" : pystr, gpio);
      (input_direction, []); ("pins" : pystr, string "gpio82")]);
   (IRIS_WAKE_PIN, list_to_map [("bias-disable" : pystr, []); ("drive-strength" : pystr, cell 8); ("function" : pystr, gpio);
      ("pins" : pystr, string "gpio92")]);
   (IRIS_READY_PIN, list_to_map [("bias-disable" : pystr, []); ("drive-strength" : pystr, cell 8); ("function" : pystr, gpio);
      (input_direction, []); ("pins" : pystr, string "gpio84")]);
   (PANEL, list_to_map [("compatible" : pystr, string "asus,rog5-ams678-er2"); ("height-mm" : pystr, cell 157);
      ("iris-bypass-ready-gpios" : pystr, h.(tlmm) ++ cells [84; 0]); ("iris-wakeup-gpios" : pystr, h.(tlmm) ++ cells [92; 0]);
      ("pinctrl-0" : pystr, h.(pinctrl)); ("pinctrl-names" : pystr, string "default"); ("reg" : pystr, cell 0);
      ("reset-gpios" : pystr, h.(tlmm) ++ cells [24; 1]); ("te-gpios" : pystr, h.(tlmm) ++ cells [82; 0]);
      ("vdd-supply" : pystr, h.(l13)); ("vddio-supply" : pystr, h.(l12)); ("width-mm" : pystr, cell 69)]);
   (PANEL_PORT, ∅);
   (PANEL_IN, list_to_map [("phandle" : pystr, h.(panel_in)); ("remote-endpoint" : pystr, h.(dsi_out))])].

Definition directions : list pystr := ["input-enable" : pystr; "output-disable" : pystr].

Definition compare (base candidate : tree) (input_direction : pystr) : res (Z * Z) :=
  fail_if (negb (bool_decide (input_direction ∈ directions))) "unknown input direction contract" ;;
  require_board_identity base "base DTB" ;;
  require_board_identity candidate "candidate DTB" ;;
  let added := dom candidate ∖ dom base in
  let removed := dom base ∖ dom candidate in
  fail_if (negb (bool_decide (added = expected_added)) || negb (bool_decide (removed = ∅)))
    ("unapproved node delta added=" ++ repr_list (sorted (elements added)) ++ " removed=" ++ repr_list (sorted (elements removed))) ;;
  h ← read_handles candidate;
  let changes := actual_changes base candidate in
  fail_if (negb (bool_decide (changes = Some <$> expected_changes h)))
    ("unapproved property delta: " ++ repr_pairs (merge_sort pair_le (elements (dom changes)))) ;;
  for_each (λ '(path, expected), require_properties candidate path expected) (new_nodes h input_direction) ;;
  Ok (Z.of_nat (size added), Z.of_nat (size changes)).

(** The base blob is pinned by size and digest. *)
Definition base_tree (base_data : bytes) (base_path : pystr) : res tree :=
  let digest := sha256 base_data in
  fail_if (negb (len base_data =? BASE_SIZE) || (digest != BASE_SHA256))
    ("base DTB identity changed: size=" ++ str_of_Z (len base_data) ++ " sha256=" ++ digest) ;;
  parse_dtb base_data base_path.

(** ** The candidate the delta describes *)
Definition by_path (m : gmap key bytes) : tree := map_curry (M1 := gmap pystr) (M2 := gmap pystr) m.
Definition changed_node (expected : gmap key bytes) (path : pystr) (ps : props) : props :=
  default ∅ ((by_path expected) !! path) ∪ ps.
Definition patched (base : tree) (expected : gmap key bytes) (new : list (pystr * props)) : tree :=
  list_to_map new ∪ map_imap (λ path ps, Some (changed_node expected path ps)) base.
(** Every change is one to a node the base has, and is a change. *)
Definition applicable (base : tree) (expected : gmap key bytes) : Prop :=
  ∀ k v, expected !! k = Some v → k.1 ∈ dom base ∧ prop base k.1 k.2 ≠ Some v.

Lemma changed_node_lookup expected path ps name :
  changed_node expected path ps !! name = match expected !! (path, name) with Some v => Some v | None => ps !! name end.
Proof.
  unfold changed_node, by_path. rewrite lookup_union. rewrite <-(lookup_map_curry (M1 := gmap pystr) (M2 := gmap pystr)).
  destruct (map_curry expected !! path) as [m|]; simpl; [| by rewrite lookup_empty, option_union_left_id].
  destruct (m !! name), (ps !! name); done.
Qed.
Lemma patched_lookup base expected new path :
  patched base expected new !! path =
  match (list_to_map new : tree) !! path with Some e => Some e | None => changed_node expected path <$> base !! path end.
Proof.
  unfold patched. rewrite lookup_union, map_lookup_imap.
  destruct ((list_to_map new : tree) !! path), (base !! path); done.
Qed.

Lemma elem_of_shared base candidate k :
  k ∈ shared_keys base candidate ↔
  k.1 ∈ dom base ∧ k.1 ∈ dom candidate ∧ (is_Some (prop base k.1 k.2) ∨ is_Some (prop candidate k.1 k.2)).
Proof.
  unfold shared_keys, sorted. rewrite list_elem_of_bind. setoid_rewrite list_elem_of_fmap. setoid_rewrite elem_of_names.
  setoid_rewrite (merge_sort_Permutation pystr_le). setoid_rewrite elem_of_elements. setoid_rewrite elem_of_intersection. split.
  - intros (path & (name & -> & Hn) & Hb & Hc). done.
  - intros (Hb & Hc & Hn). exists k.1. split; [| done]. exists k.2. by destruct k.
Qed.
Lemma actual_changes_lookup base candidate k o :
  actual_changes base candidate !! k = Some o ↔
  k.1 ∈ dom base ∧ k.1 ∈ dom candidate ∧ prop base k.1 k.2 ≠ prop candidate k.1 k.2 ∧ o = prop candidate k.1 k.2.
Proof.
  assert (∀ l (m : gmap key (option bytes)), foldl (λ changes k,
    if bool_decide (prop base k.1 k.2 = prop candidate k.1 k.2) then changes else <[k := prop candidate k.1 k.2]> changes) m l !! k =
    if decide (k ∈ l ∧ prop base k.1 k.2 ≠ prop candidate k.1 k.2) then Some (prop candidate k.1 k.2) else m !! k) as Hf.
  { induction l as [|x l IH]; intros m; [by rewrite decide_False by (by intros [?%not_elem_of_nil _]) | cbn [foldl]].
    rewrite IH. destruct (decide (k = x)) as [->|Hne].
    - destruct (decide (prop base x.1 x.2 = prop candidate x.1 x.2)) as [E|N].
      + rewrite bool_decide_true by done. by rewrite !decide_False by naive_solver.
      + rewrite bool_decide_false by done. rewrite (decide_True (P := x ∈ x :: l ∧ _)) by (split; [by left | done]).
        case_decide; [done |]. by rewrite lookup_insert_eq.
    - assert (k ∈ x :: l ↔ k ∈ l) as Hk by (rewrite elem_of_cons; naive_solver). 
      assert ((if bool_decide (prop base x.1 x.2 = prop candidate x.1 x.2) then m else <[x:=prop candidate x.1 x.2]> m) !! k = m !! k) as ->
        by (case_bool_decide; [done | by rewrite lookup_insert_ne]).
      repeat case_decide; try done; exfalso; naive_solver. }
  unfold actual_changes. rewrite Hf, lookup_empty. case_decide as Hd; rewrite elem_of_shared in Hd; [naive_solver |].
  split; [done |]. intros (Hb & Hc & Hne & _). exfalso. apply Hd. split_and!; try done. clear Hf Hd.
  destruct (prop base k.1 k.2), (prop candidate k.1 k.2); try done; eauto.
Qed.

Lemma changes_exact base candidate expected :
  actual_changes base candidate = Some <$> expected ↔
  (∀ k v, expected !! k = Some v → k.1 ∈ dom base ∧ k.1 ∈ dom candidate ∧ prop base k.1 k.2 ≠ Some v ∧ prop candidate k.1 k.2 = Some v) ∧
  (∀ k, k.1 ∈ dom base → k.1 ∈ dom candidate → expected !! k = None → prop base k.1 k.2 = prop candidate k.1 k.2).
Proof.
  assert (∀ k o, (Some <$> expected) !! k = Some o ↔ ∃ v, expected !! k = Some v ∧ o = Some v) as He.
  { intros k o. rewrite lookup_fmap, fmap_Some. naive_solver. }
  split.
  - intros H. split.
    + intros k v Hk. assert ((Some <$> expected) !! k = Some (Some v)) as Ha by (apply He; eauto).
      rewrite <-H in Ha. apply actual_changes_lookup in Ha as (Hb & Hc & Hne & Ho). by rewrite Ho.
    + intros k Hb Hc Hk. apply dec_stable. intros Hne.
      assert (actual_changes base candidate !! k = Some (prop candidate k.1 k.2)) as Ha by (by apply actual_changes_lookup).
      rewrite H in Ha. apply He in Ha as (v & Hv & _). congruence.
  - intros [Hin Hout]. apply map_eq. intros k. apply option_eq. intros o. rewrite actual_changes_lookup, He. split.
    + intros (Hb & Hc & Hne & ->). destruct (expected !! k) as [v|] eqn:E; [| by apply Hout in E].
      apply Hin in E as (_ & _ & _ & E). eauto.
    + intros (v & Hv & ->). apply Hin in Hv as (? & ? & ? & Hv). by rewrite Hv.
Qed.

Lemma prop_Some (t : tree) path ps name : t !! path = Some ps → prop t path name = ps !! name.
Proof. unfold prop. by intros ->. Qed.

Lemma delta_exact base candidate expected new : NoDup (map fst new) →
  (dom candidate ∖ dom base = list_to_set (map fst new) ∧ dom base ∖ dom candidate = ∅ ∧
   actual_changes base candidate = Some <$> expected ∧ Forall (λ pe, candidate !! pe.1 = Some pe.2) new) ↔
  ((list_to_set (map fst new) : gset pystr) ## dom base ∧ applicable base expected ∧ candidate = patched base expected new).
Proof.
  intros Hnd. rewrite changes_exact.
  assert (∀ path, (list_to_map new : tree) !! path = None → path ∉ map fst new) as Hno by (intros path; apply not_elem_of_list_to_map_2).
  assert (∀ path e, (list_to_map new : tree) !! path = Some e ↔ (path, e) ∈ new) as Hyes by (intros; symmetry; by apply elem_of_list_to_map).
  split.
  - intros (Hadd & Hrem & [Hin Hout] & Hnew). rewrite Forall_forall in Hnew.
    assert (∀ path, path ∈ map fst new ↔ path ∈ dom candidate ∧ path ∉ dom base) as Ha.
    { intros path. rewrite <-elem_of_difference, Hadd. by rewrite elem_of_list_to_set. }
    split; [intros path; rewrite elem_of_list_to_set, Ha; naive_solver |].
    split; [intros k v Hk; naive_solver |]. apply map_eq. intros path. rewrite patched_lookup.
    destruct ((list_to_map new : tree) !! path) as [e|] eqn:E; [apply Hyes, Hnew in E; done |]. apply Hno in E. rewrite Ha in E.
    destruct (base !! path) as [ps|] eqn:Eb; simpl.
    + assert (path ∈ dom base) as Hb by (by apply elem_of_dom; eauto).
      assert (path ∈ dom candidate) as Hc by (apply dec_stable; intros Hn; apply (not_elem_of_empty (C := gset pystr) path); rewrite <-Hrem; set_solver).
      pose proof Hc as [cs Ec]%elem_of_dom. rewrite Ec. f_equal. apply map_eq. intros name. rewrite changed_node_lookup.
      rewrite <-(prop_Some _ _ _ name Ec), <-(prop_Some _ _ _ name Eb).
      destruct (expected !! (path, name)) as [v|] eqn:Ev; [by apply Hin in Ev as (_ & _ & _ & ?) |].
      symmetry. by apply (Hout (path, name)).
    + apply not_elem_of_dom. apply not_elem_of_dom in Eb. tauto.
  - intros (Hdis & Happ & ->).
    assert (∀ path, path ∈ dom (patched base expected new) ↔ path ∈ map fst new ∨ path ∈ dom base) as Hdom.
    { intros path. rewrite elem_of_dom, patched_lookup. destruct ((list_to_map new : tree) !! path) as [e|] eqn:E.
      - apply Hyes in E. split; [| eauto]. intros _. left. apply list_elem_of_fmap. by exists (path, e).
      - apply Hno in E. rewrite fmap_is_Some, elem_of_dom. naive_solver. }
    assert (∀ path, path ∈ dom base → (list_to_map new : tree) !! path = None) as Hbase.
    { intros path Hb. apply not_elem_of_list_to_map_1. intros Hn. apply (Hdis path); [by apply elem_of_list_to_set | done]. }
    assert (∀ k, k.1 ∈ dom base → prop (patched base expected new) k.1 k.2 =
      match expected !! k with Some v => Some v | None => prop base k.1 k.2 end) as Hprop.
    { intros [path name] Hb. simpl in *. pose proof Hb as [ps Eb]%elem_of_dom. unfold prop at 1. rewrite patched_lookup, Hbase, Eb by done.
      simpl. by rewrite changed_node_lookup, (prop_Some _ _ _ name Eb). }
    split_and!.
    + apply set_eq. intros path. rewrite elem_of_difference, elem_of_list_to_set, Hdom. split; [tauto |]. intros Hn. split; [by left |].
      intros Hb. apply (Hdis path); [by apply elem_of_list_to_set | done].
    + apply set_eq. intros path. rewrite elem_of_difference, Hdom. set_solver.
    + intros k v Hk. destruct (Happ k v Hk) as [Hb Hne]. rewrite Hdom, Hprop, Hk by done. auto.
    + intros k Hb _ Hk. by rewrite Hprop, Hk.
    + apply Forall_forall. intros [path e] He. simpl. apply Hyes in He. by rewrite patched_lookup, He.
Qed.

Lemma patched_prop base expected new path name : path ∈ dom base → path ∉ map fst new → expected !! (path, name) = None →
  prop (patched base expected new) path name = prop base path name.
Proof.
  intros [ps Eb]%elem_of_dom Hn He. unfold prop. rewrite patched_lookup, not_elem_of_list_to_map_1 by done. rewrite Eb. simpl.
  by rewrite changed_node_lookup, He.
Qed.
Definition new_paths : list pystr := [L12; L13; PINCTRL; RESET_PIN; TE_PIN; IRIS_WAKE_PIN; IRIS_READY_PIN; PANEL; PANEL_PORT; PANEL_IN].
Lemma new_nodes_paths h d : map fst (new_nodes h d) = new_paths.
Proof. done. Qed.
Lemma new_paths_NoDup : NoDup new_paths.
Proof. apply (bool_decide_unpack _). vm_compute. exact I. Qed.
Lemma expected_changes_size h : size (expected_changes h) = 14%nat.
Proof. unfold expected_changes. rewrite map_size_list_to_map; [done |]. apply (bool_decide_unpack _). vm_compute. exact I. Qed.
Lemma expected_changes_root h name : expected_changes h !! ([SLASH], name) = None.
Proof.
  unfold expected_changes. apply not_elem_of_list_to_map_1. intros (e & He & Hin)%list_elem_of_fmap.
  assert (Forall (λ e, negb (e.1.1 == [SLASH]) = true) (expected_list h)) as Hf.
  { repeat (apply Forall_cons; split; [vm_compute; reflexivity |]). by apply Forall_nil. }
  rewrite Forall_forall in Hf. specialize (Hf e Hin). rewrite <-He in Hf. by rewrite bool_decide_true in Hf.
Qed.

(** C17. The comparison accepts exactly the base tree with the reviewed delta:
    the ten panel nodes added with exactly their reviewed properties, the
    fourteen reviewed properties changed, each to a value it did not have,
    and nothing else; it then always reports ten nodes and fourteen
    properties. *)
Theorem compare_patched base candidate d r :
  compare base candidate d = Ok r ↔
  d ∈ directions ∧ prop base [SLASH] "compatible" = Some IDENTITY ∧
  (list_to_set new_paths : gset pystr) ## dom base ∧
  ∃ h, read_handles candidate = Ok h ∧ applicable base (expected_changes h) ∧
    candidate = patched base (expected_changes h) (new_nodes h d) ∧ r = (10, 14).
Proof.
  pose proof (λ h, delta_exact base candidate (expected_changes h) (new_nodes h d)) as Hdelta.
  setoid_rewrite new_nodes_paths in Hdelta.
  unfold compare, require_board_identity. cbv zeta. split.
  - intros H. guard_inv H as Hd. guard_inv H as Hb. guard_inv H as Hc. guard_inv H as Hn. bind_inv H as h Hh.
    guard_inv H as Hp. bind_inv H as u Hf. injection H as <-. apply orb_false_iff in Hn as [Ha Hr].
    apply negb_false_iff, bool_decide_eq_true in Hd, Hb, Hc, Hp, Ha, Hr. apply for_each_Ok in Hf.
    destruct (proj1 (Hdelta h new_paths_NoDup)) as (Hdis & Happ & Heq).
    { split; [exact Ha |]. split; [exact Hr |]. split; [exact Hp |]. eapply Forall_impl; [exact Hf |]. intros [path e] He.
      apply refuse_if_Ok in He. by apply negb_false_iff, bool_decide_eq_true in He. }
    split_and!; [done .. |]. exists h. split_and!; try done. rewrite Ha, Hp, map_size_fmap, expected_changes_size.
    unfold expected_added. rewrite size_list_to_set by exact new_paths_NoDup. done.
  - intros (Hd & Hb & Hdis & h & Hh & Happ & Heq & ->).
    destruct (proj2 (Hdelta h new_paths_NoDup)) as (Ha & Hr & Hp & Hnew); [auto |].
    assert (prop candidate [SLASH] "compatible" = Some IDENTITY) as Hc.
    { rewrite Heq, patched_prop; [done | | | apply expected_changes_root].
      - unfold prop in Hb. apply elem_of_dom. destruct (base !! [SLASH]); [eauto | done].
      - rewrite new_nodes_paths. apply (bool_decide_unpack _). vm_compute. exact I. }
    rewrite !fail_if_pass; try (apply negb_false_iff, bool_decide_eq_true; done).
    2: { apply orb_false_iff. split; apply negb_false_iff, bool_decide_eq_true; done. }
    rewrite Hh, Ok_bind. rewrite fail_if_pass by (apply negb_false_iff, bool_decide_eq_true; done).
    apply bind_Ok. exists (). split.
    + apply for_each_Ok. eapply Forall_impl; [exact Hnew |]. intros [path e] He. apply refuse_if_Ok. by apply negb_false_iff, bool_decide_eq_true.
    + rewrite Ha, Hp, map_size_fmap, expected_changes_size. unfold new_paths. rewrite size_list_to_set by exact new_paths_NoDup. done.
Qed.

(** A base tree and its candidate, through the parser's types. *)
Definition sample_handle (z : Z) : props := {[ ("phandle" : pystr) := cell z ]}.
Definition sample_handles : handles := Handles (cell 1) (cell 2) (cell 3) (cell 4) (cell 5) (cell 6) (cell 7) (cell 8) (cell 9).
Definition sample_base : tree := list_to_map [
  ([SLASH], {[ ("compatible" : pystr) := IDENTITY ]}); (SYMBOLS, ∅); (DISPCC, {[ ("status" : pystr) := string "disabled" ]});
  (MDSS, ∅); (MDP, ∅); (DSI, ∅); (DSI_OUT, sample_handle 2); (DSI_PHY, ∅); (REGULATORS, ∅);
  (L5B, sample_handle 6); (L6B, sample_handle 7); (TLMM, sample_handle 8); (BOB, sample_handle 9)].
Example compare_sample :
  compare sample_base (patched sample_base (expected_changes sample_handles) (new_nodes sample_handles "output-disable")) "output-disable" = Ok (10, 14).
Proof. vm_compute. reflexivity. Qed.
