(* ===== verification/DtbFile.v ===== *)
(** * Reading device-tree blobs and running the two checks

    [read_dtb_bytes], [read_dtb] and [main] of
    scripts/device/verify-recovery-dtb-delta.py and [main] of
    scripts/device/verify-display-60hz-dtb-delta.py, over the POSIX model.
    [os.path.abspath], [Path.is_symlink] and [Path.resolve] are parameters;
    parsing the command line and printing are left out. *)

From S2P Require Import Prelude PyStr Posix DeviceTree DtbFormat DisplayDelta.

Section read.
Context (abspath : pystr → pystr) (is_symlink : pystr → io bool) (realpath : pystr → io pystr).

(** [stream.read(n)] of a buffered file: raw reads until [n] bytes or the end. *)
Definition stream_step (descriptor n : Z) (data : bytes) : io (bytes + bytes) :=
  block ← read descriptor (n - len data);
  mret (if (block == []) || (n <=? len (data ++ block)) then inr (data ++ block) else inl (data ++ block)).
Definition stream_read (descriptor n : Z) : io bytes := while (Z.to_pos (n + 1)) (stream_step descriptor n) [].

Definition invalid_size (before : stat_result) : bool :=
  (before.(st_kind) != Reg) || (before.(st_size) <? HEADER_SIZE) || (MAX_DTB_SIZE <? before.(st_size)).
Definition changed_while_read (data : bytes) (before after : stat_result) : bool :=
  (len data != before.(st_size)) || (before.(st_dev) != after.(st_dev)) || (before.(st_ino) != after.(st_ino))
  || (before.(st_size) != after.(st_size)) || (before.(st_mtime_ns) != after.(st_mtime_ns)) || (before.(st_ctime_ns) != after.(st_ctime_ns)).
(** What is read of an opened file, up to its close. *)
Definition read_open (path : pystr) (descriptor : Z) : io (stat_result * bytes * stat_result) :=
  finally
    (before ← fstat descriptor;
     Prelude.check (invalid_size before) ValueError ("DTB has an invalid size: " ++ path) ;;
     data ← stream_read descriptor (MAX_DTB_SIZE + 1);
     after ← fstat descriptor;
     mret (before, data, after))
    (close descriptor).
Definition read_dtb_bytes (path : pystr) : io bytes :=
  let lexical := abspath path in
  linked ← is_symlink lexical;
  Prelude.check linked ValueError ("DTB is not an ordinary file: " ++ path) ;;
  resolved ← realpath lexical;
  Prelude.check (lexical != resolved) ValueError ("DTB contains a linked path component: " ++ path) ;;
  descriptor ← open_ None resolved [O_NOFOLLOW] 0;
  '(before, data, after) ← read_open path descriptor;
  Prelude.check (changed_while_read data before after) ValueError ("DTB changed while it was read: " ++ path) ;;
  mret data.
Definition read_dtb (path : pystr) : io tree := data ← read_dtb_bytes path; lift (parse_dtb data path).

(** The recovery check. *)
Definition main (base candidate : pystr) : io Z :=
  b ← read_dtb base; c ← read_dtb candidate; lift (DeviceTree.compare b c).
(** The display check reads its base once, for the digest and the tree. *)
Definition display_main (base candidate input_direction : pystr) : io (Z * Z) :=
  base_data ← read_dtb_bytes base;
  b ← lift (base_tree base_data base);
  c ← read_dtb candidate;
  lift (DisplayDelta.compare b c input_direction).

(** ** Descriptors *)
Context (Hlink : ∀ p, keeps (is_symlink p)) (Hreal : ∀ p, keeps (realpath p)).
Lemma keeps_stream_read d n : keeps (stream_read d n).
Proof. apply keeps_while. intros data. apply keeps_bind; [apply keeps_read |]. intros. apply keeps_mret. Qed.
Lemma keeps_read_dtb_bytes path : keeps (read_dtb_bytes path).
Proof using Hlink Hreal.
  apply keeps_bind; [apply Hlink |]. intros linked. apply keeps_bind; [apply keeps_lift |]. intros _.
  apply keeps_bind; [apply Hreal |]. intros resolved. apply keeps_bind; [apply keeps_lift |]. intros _.
  apply keeps_of_wp. intros w. apply wp_bind, open_wp; [done |]. intros d w1 Hd Hw1.
  apply wp_bind, wp_finally, keeps_wp.
  - apply keeps_bind; [apply keeps_fstat |]. intros before. apply keeps_bind; [apply keeps_lift |]. intros _.
    apply keeps_bind; [apply keeps_stream_read |]. intros data. apply keeps_bind; [apply keeps_fstat |]. intros. apply keeps_mret.
  - intros r w2 Hw2. apply close_wp. intros w3 Hw3. assert (fds w3 = fds w) as Hf by (rewrite Hw3, Hw2, Hw1; set_solver).
    destruct r as [[[before data] after]|e]; [| done]. apply wp_bind, wp_check; intros _; [done | by apply wp_mret].
Qed.

(** ** In a quiet world *)
Section stream.
Context (w : world) (Hq : quiet w) (d n : Z) (f : fd) (Hd : w_fds w !! d = Some f) (Hoff : f.(d_off) = 0%nat).
Let data := i_data (inode_of w (d_key f)).
Context (Hsize : len data < n).
Definition stream_inv (acc : bytes) (w' : world) : Prop :=
  same w w' ∧ w_fds w' = <[d := Fd (d_key f) (length acc) (d_lock f)]> (w_fds w) ∧ ∃ rest, data = acc ++ rest.
Lemma stream_q (Q : res bytes → world → Prop) :
  (∀ w', same w w' → w_fds w' = <[d := Fd (d_key f) (length data) (d_lock f)]> (w_fds w) → Q (Ok data) w') → wp (stream_read d n) Q w.
Proof using Hq Hd Hoff Hsize.
  intros HQ. pose proof (len_nonneg data) as Hpos. apply (wp_while _ stream_inv (λ acc _, n - len acc)).
  2: { refine (conj _ (conj _ _)); [done | | by exists data]. rewrite insert_id; [done |]. rewrite Hd. f_equal. destruct f; simpl in *; by subst. }
  2: { simpl. rewrite Z2Pos.id by lia. change (len []) with 0. lia. }
  intros acc w' (Hs & Hf & rest & Hrest).
  assert (Hlen : len data = len acc + len rest) by (rewrite Hrest; apply len_app). pose proof (len_nonneg rest). pose proof (len_nonneg acc). split; [lia |].
  apply wp_bind. eapply (read_q w' (same_quiet _ _ Hs Hq) d); [by rewrite Hf, lookup_insert_eq |].
  intros w2 block Hs2. cbn [d_key d_off d_lock]. rewrite (inode_of_same w w') by done. fold data. intros Hblock Hf2.
  assert (Hdrop : drop (length acc) data = rest) by (by rewrite Hrest, drop_app_length). rewrite Hdrop in Hblock.
  set (m := Z.min (n - len acc) (Z.max 1 (w_chunk w' (w_tick w')))) in *.
  destruct (take_all_min rest m) as (He & _ & Hne); [unfold m; lia |]. rewrite <- Hblock in He, Hne.
  assert (Hsplit : rest = block ++ drop (length block) rest) by (rewrite Hblock; apply read_split).
  assert (Hs' : same w w2) by (by transitivity w'). rewrite Hf, insert_insert_eq in Hf2.
  assert (Hlen2 : len (acc ++ block) ≤ len data). { assert (Hr : len rest = len block + len (drop (length block) rest)) by (by rewrite <- len_app, <- Hsplit).
    rewrite len_app, Hlen, Hr. pose proof (len_nonneg (drop (length block) rest)). lia. }
  rewrite (proj2 (Z.leb_gt _ _)), orb_false_r by lia. apply wp_mret. case_bool_decide as Hb.
  - specialize (He Hb). assert (Hacc : acc = data) by (by rewrite Hrest, He, app_nil_r). rewrite Hb, app_nil_r, Hacc. apply HQ; [done |].
    by rewrite Hf2, Hb, Hacc, Nat.add_0_r.
  - refine (conj (conj Hs' (conj _ _)) _); [by rewrite length_app | exists (drop (length block) rest); by rewrite <- app_assoc, <- Hsplit |].
    rewrite len_app. assert (0 < len block) by (destruct block; [done | unfold len; simpl; lia]). lia.
Qed.
End stream.

Context (linked : pystr → bool) (real : pystr → option pystr).
(** The library looks and changes nothing. *)
Context (Hlinked : ∀ p w (Q : res bool → world → Prop), quiet w → (∀ w', same w w' → w_fds w' = w_fds w → Q (Ok (linked p)) w') → wp (is_symlink p) Q w).
Context (Hresolved : ∀ p w (Q : res pystr → world → Prop), quiet w →
  (∀ w' e, same w w' → w_fds w' = w_fds w → is_oserror e.(exn_cls) = true →
     Q (match real p with Some q => Ok q | None => Raise e end) w') → wp (realpath p) Q w).

(** The file a path names when no component of it is a link, and its blob. *)
Definition plain_file (w : world) (path : pystr) : option inode :=
  let p := abspath path in
  if linked p || negb (bool_decide (real p = Some p)) then None
  else k ← w.(w_fs).(f_names) !! p; i ← w.(w_fs).(f_inodes) !! k; if i.(i_kind) == Lnk then None else Some i.
Definition blob (w : world) (path : pystr) : option bytes :=
  i ← plain_file w path;
  if (i.(i_kind) == Reg) && (HEADER_SIZE <=? len i.(i_data)) && (len i.(i_data) <=? MAX_DTB_SIZE) then Some i.(i_data) else None.
Definition refusal (e : exn) : Prop := is_oserror e.(exn_cls) = true ∨ e.(exn_cls) = ValueError.

Lemma open_path_q w p flags (Q : res Z → world → Prop) : quiet w → O_EXCL ∉ flags → O_DIRECTORY ∉ flags →
  (∀ k i h w', w.(w_fs).(f_names) !! p = Some k → w.(w_fs).(f_inodes) !! k = Some i → i.(i_kind) ≠ Lnk → (h ∉ fds w) →
     same w w' → w_fds w' = <[h := Fd k 0 None]> (w_fds w) → Q (Ok h) w') →
  ((∀ k i, w.(w_fs).(f_names) !! p = Some k → w.(w_fs).(f_inodes) !! k = Some i → i.(i_kind) = Lnk) →
     ∀ e w', is_oserror e.(exn_cls) = true → same w w' → w_fds w' = w_fds w → Q (Raise e) w') →
  wp (open_ None p flags 0) Q w.
Proof.
  intros Hq He Hdir HO HR. apply syscall_may_q; [done |]. unfold wp, resolve. pose proof (same_enter w Hq) as Hs.
  rewrite (proj1 Hs). destruct (f_names (w_fs w) !! p) as [k|] eqn:Ek; [| by apply HR].
  rewrite (bool_decide_false _ He). destruct (f_inodes (w_fs w) !! k) as [i|] eqn:Ei.
  2: { apply HR; [| done | done | done]. intros k' i' Hk Hi. congruence. }
  case_bool_decide as Hl; [apply HR; [| done | done | done]; intros k' i' Hk Hi; congruence |].
  rewrite (bool_decide_false _ Hdir). simpl. destruct (new_fd_fresh k (enter w)) as (h & Hh & Hnew & _). simpl in Hh. injection Hh as <-.
  by eapply HO.
Qed.

Definition good_blob (i : inode) : bool := (i.(i_kind) == Reg) && (HEADER_SIZE <=? len i.(i_data)) && (len i.(i_data) <=? MAX_DTB_SIZE).
Lemma invalid_size_blob k i : invalid_size (stat_of k i) = negb (good_blob i).
Proof.
  unfold invalid_size, good_blob, stat_of. cbn. rewrite !negb_andb, <- !Z.ltb_antisym. done.
Qed.
Lemma stat_unchanged data k i : len data = len i.(i_data) → changed_while_read data (stat_of k i) (stat_of k i) = false.
Proof. intros H. unfold changed_while_read, stat_of. cbn. by rewrite !bool_decide_true. Qed.

Lemma close_q w w0 h k o (Q : res unit → world → Prop) : quiet w → same w w0 → h ∉ fds w → w_fds w0 = <[h := Fd k o None]> (w_fds w) →
  (∀ w', same w w' → w_fds w' = w_fds w → Q (Ok ()) w') → wp (close h) Q w0.
Proof.
  intros Hq Hs Hh Hf HQ. apply HQ.
  - transitivity w0; [done |]. transitivity (enter w0); [apply same_enter; by eapply same_quiet | done].
  - simpl. rewrite Hf, delete_insert_id; [done |]. by apply not_elem_of_dom.
Qed.
Lemma read_open_q w w0 path h k i (Q : res (stat_result * bytes * stat_result) → world → Prop) : quiet w → same w w0 →
  h ∉ fds w → w_fds w0 = <[h := Fd k 0 None]> (w_fds w) → inode_of w k = i →
  (∀ w' r, same w w' → w_fds w' = w_fds w →
     match r with Ok x => good_blob i = true ∧ x = (stat_of k i, i.(i_data), stat_of k i) | Raise e => good_blob i = false ∧ refusal e end → Q r w') →
  wp (read_open path h) Q w0.
Proof.
  intros Hq Hs Hh Hf Hi HQ. assert (Hnode : ∀ w', same w w' → inode_of w' k = i) by (intros w' Hw; by rewrite (inode_of_same w w' k Hw)).
  assert (Hq0 : quiet w0) by by eapply same_quiet. assert (Hd : w_fds w0 !! h = Some (Fd k 0 None)) by by rewrite Hf, lookup_insert_eq.
  apply wp_finally, wp_bind, (fstat_q w0 Hq0 h _ _ Hd). cbn [d_key]. rewrite (Hnode w0 Hs). intros w1 Hs1 Hf1.
  assert (Hs01 : same w w1) by (by transitivity w0). assert (Hd1 : w_fds w1 !! h = Some (Fd k 0 None)) by by rewrite Hf1.
  apply wp_bind, wp_check; rewrite invalid_size_blob; intros Hbad.
  { eapply (close_q w); [done | done | done | by rewrite Hf1 |]. intros w2 Hs2 Hf2. apply HQ; [done | done |].
    apply negb_true_iff in Hbad. split; [done | by right]. }
  apply negb_false_iff in Hbad. pose proof Hbad as Hsize. unfold good_blob in Hsize. apply andb_true_iff in Hsize as [_ Hsize%Z.leb_le].
  apply wp_bind, (stream_q w1 (same_quiet _ _ Hs01 Hq) h _ _ Hd1); [done | cbn [d_key]; rewrite (Hnode w1 Hs01); lia |].
  cbn [d_key d_lock]. rewrite (Hnode w1 Hs01). intros w2 Hs2 Hf2. assert (Hs02 : same w w2) by (by transitivity w1).
  apply wp_bind, (fstat_q w2 (same_quiet _ _ Hs02 Hq) h (Fd k (length (i_data i)) None)); [by rewrite Hf2, lookup_insert_eq |].
  cbn [d_key]. rewrite (Hnode w2 Hs02). intros w3 Hs3 Hf3. apply wp_mret.
  eapply (close_q w); [done | by transitivity w2 | done | by rewrite Hf3, Hf2, Hf1, Hf, insert_insert_eq |].
  intros w4 Hs4 Hf4. by apply HQ.
Qed.

Lemma blob_of w path : blob w path = (i ← plain_file w path; if good_blob i then Some i.(i_data) else None).
Proof. done. Qed.
Lemma read_dtb_bytes_q w path (Q : res bytes → world → Prop) : quiet w →
  (∀ w' r, same w w' → w_fds w' = w_fds w →
     match r with Ok data => blob w path = Some data | Raise e => blob w path = None ∧ refusal e end → Q r w') →
  wp (read_dtb_bytes path) Q w.
Proof using Hlinked Hresolved.
  intros Hq HQ. unfold read_dtb_bytes. set (p := abspath path). apply wp_bind, Hlinked; [done |]. intros w1 Hs1 Hf1.
  apply wp_bind, wp_check; intros Hl.
  { apply HQ; [done | done |]. unfold blob, plain_file. fold p. rewrite Hl. split; [done | by right]. }
  apply wp_bind, Hresolved; [by eapply same_quiet |]. intros w2 e Hs2 Hf2 He. assert (Hs : same w w2) by (by transitivity w1).
  assert (Hf : w_fds w2 = w_fds w) by congruence.
  destruct (real p) as [q|] eqn:Hr.
  2: { apply HQ; [done | done |]. unfold blob, plain_file. fold p. rewrite Hl, Hr. split; [done | by left]. }
  apply wp_bind, wp_check; intros Hpq.
  { apply negb_true_iff, bool_decide_eq_false in Hpq. apply HQ; [done | done |]. unfold blob, plain_file. fold p. rewrite Hl, Hr.
    rewrite bool_decide_false by congruence. split; [done | by right]. }
  apply negb_false_iff, bool_decide_eq_true in Hpq as <-.
  assert (Hplain : plain_file w path = (k ← w.(w_fs).(f_names) !! p; i ← w.(w_fs).(f_inodes) !! k; if i.(i_kind) == Lnk then None else Some i)).
  { unfold plain_file. fold p. by rewrite Hl, Hr, bool_decide_true. }
  apply wp_bind, (open_path_q w2); [by eapply same_quiet | by rewrite list_elem_of_singleton | by rewrite list_elem_of_singleton | |].
  2: { rewrite (proj1 Hs). intros Hnone e' w3 He' Hs3 Hf3. apply HQ; [by transitivity w2 | congruence |]. split; [| by left].
       unfold blob. rewrite Hplain. destruct (f_names (w_fs w) !! p) as [k|] eqn:Ek; [simpl | done].
       destruct (f_inodes (w_fs w) !! k) as [i|] eqn:Ei; [simpl | done]. rewrite bool_decide_true; [done | by eapply Hnone]. }
  intros k i h w3 Hk Hi Hlnk Hh Hs3 Hf3. rewrite (proj1 Hs) in Hk, Hi. rewrite Hk in Hplain. simpl in Hplain. rewrite Hi in Hplain. simpl in Hplain.
  rewrite bool_decide_false in Hplain by done. apply wp_bind.
  eapply (read_open_q w w3 path h k i); [done | by transitivity w2 | by unfold fds in *; rewrite <- Hf | by rewrite Hf3, Hf | unfold inode_of; by rewrite Hi |].
  intros w4 r Hs4 Hf4 Hres. destruct r as [x|e'].
  - destruct Hres as [Hgood ->]. apply wp_bind, wp_check; rewrite stat_unchanged by done; [done |]. intros _. apply wp_mret, HQ; [done | done |].
    rewrite blob_of, Hplain. simpl. by rewrite Hgood.
  - destruct Hres as [Hgood He']. apply HQ; [done | done |]. split; [| done]. rewrite blob_of, Hplain. simpl. by rewrite Hgood.
Qed.

Lemma read_dtb_q w path : quiet w → wp (read_dtb path) (λ r w', same w w' ∧ w_fds w' = w_fds w ∧
  ∀ t, r = Ok t ↔ ∃ data, blob w path = Some data ∧ parse_dtb data path = Ok t) w.
Proof using Hlinked Hresolved.
  intros Hq. apply wp_bind, read_dtb_bytes_q; [done |]. intros w' [data|e] Hs Hf Hr.
  - apply wp_lift. refine (conj Hs (conj Hf _)). intros t. rewrite Hr. split; [by exists data | by intros (d' & [= <-] & H)].
  - refine (conj Hs (conj Hf _)). intros t. split; [done |]. intros (data & Hb & _). destruct Hr as [Hr _]. congruence.
Qed.
Lemma blob_same w w' path : same w w' → blob w' path = blob w path.
Proof. intros (Hf & _). unfold blob, plain_file. by rewrite Hf. Qed.

(** The recovery check passes with [n] exactly when both paths name, with
    no link in them, regular files of an allowed size that parse to trees the
    comparison accepts with [n].  Whatever other processes do and whichever
    calls fail, it leaves no descriptor open. *)
Theorem recovery_main_exact base candidate :
  keeps (main base candidate) ∧
  ∀ w n, quiet w → (main base candidate w).1 = Ok n ↔
    ∃ b c tb tc, blob w base = Some b ∧ blob w candidate = Some c ∧ parse_dtb b base = Ok tb ∧ parse_dtb c candidate = Ok tc ∧
      DeviceTree.compare tb tc = Ok n.
Proof using Hlink Hreal Hlinked Hresolved.
  split.
  - assert (Hk : ∀ p, keeps (read_dtb p)) by (intros p; apply keeps_bind; [by apply keeps_read_dtb_bytes | intros; apply keeps_lift]).
    apply keeps_bind; [done |]. intros b. apply keeps_bind; [done |]. intros c. apply keeps_lift.
  - intros w n Hq. revert n. change (wp (main base candidate) (λ r _, ∀ n, r = Ok n ↔ ∃ b c tb tc, blob w base = Some b ∧ blob w candidate = Some c ∧
      parse_dtb b base = Ok tb ∧ parse_dtb c candidate = Ok tc ∧ DeviceTree.compare tb tc = Ok n) w).
    unfold main. apply wp_bind. eapply wp_mono; [by apply read_dtb_q |]. intros [tb|e] w1 (Hs1 & Hf1 & Hr1).
    2: { intros n. split; [done |]. intros (b & c & tb & tc & Hb & _ & Hpb & _). by discriminate (proj2 (Hr1 tb) (ex_intro _ b (conj Hb Hpb))). }
    destruct (proj1 (Hr1 tb) eq_refl) as (b & Hb & Hpb).
    apply wp_bind. eapply wp_mono; [apply read_dtb_q; by eapply same_quiet |]. intros [tc|e] w2 (Hs2 & Hf2 & Hr2).
    2: { intros n. split; [done |]. intros (b' & c & tb' & tc & _ & Hc & _ & Hpc & _). rewrite <- (blob_same w w1) in Hc by done.
         by discriminate (proj2 (Hr2 tc) (ex_intro _ c (conj Hc Hpc))). }
    destruct (proj1 (Hr2 tc) eq_refl) as (c & Hc & Hpc). rewrite (blob_same w w1) in Hc by done.
    apply wp_lift. intros n. split; [intros H; by exists b, c, tb, tc |]. intros (b' & c' & tb' & tc' & Hb' & Hc' & Hpb' & Hpc' & H). congruence.
Qed.
End read.

(** ** A file system with a base, its recovery delta and a link *)
Definition d_status (recovery : bool) (status : pystr) : token := Prop_ "status" (cstr (if recovery then status else "okay")).
Definition d_node (name : pystr) (inside : list token) : list token := Begin name :: inside ++ [End_].
Definition d_tokens (recovery : bool) : list token :=
  d_node [] (Prop_ "compatible" IDENTITY ::
    d_node "reserved-memory" (d_node "memory@9b800000" [d_status recovery "disabled"]) ++
    d_node "soc@0" (d_node "gpu@3d00000" [d_status recovery "disabled"] ++ d_node "gmu@3d6a000" [d_status recovery "disabled"] ++
      d_node "clock-controller@3d90000" [d_status recovery "disabled"] ++ d_node "iommu@3da0000" [d_status recovery "disabled"] ++
      d_node "usb@a6f8800" (d_status recovery "okay" :: (if recovery then [Prop_ "qcom,select-utmi-as-pipe-clk" []] else []) ++
        d_node "usb@a600000" (if recovery then [Prop_ "phys" (be32 5); Prop_ "maximum-speed" (cstr "high-speed"); Prop_ "phy-names" (cstr "usb2-phy")]
                              else [Prop_ "phys" (be32 5 ++ be32 6)])) ++
      d_node "phy@88e3000" [d_status recovery "okay"; Prop_ "phandle" (be32 5)])).
Definition d_link (p : pystr) : bool := p == "/link.dtb".
Definition d_real (p : pystr) : option pystr := if p == "/link.dtb" then Some ("/base.dtb" : pystr) else Some p.
Definition d_is_symlink (p : pystr) : io bool := mret (d_link p).
Definition d_realpath (p : pystr) : io pystr := λ w, (of_option (d_real p) FileNotFoundError p, w).
Definition d_file (data : bytes) : inode := Inode Reg 420 0 1 0 0 data ∅.
Definition d_world : world :=
  World (Fs {[ (1, 1) := d_file (write_dtb 0 (d_tokens false)); (1, 2) := d_file (write_dtb 0 (d_tokens true)) ]}
    {[ ("/base.dtb" : pystr) := (1, 1); ("/link.dtb" : pystr) := (1, 1); ("/recovery.dtb" : pystr) := (1, 2) ]} ∅ 0) ∅ 0 0 (λ _ f, f) (λ _, false) (λ _, 4096).
Definition d_main : pystr → pystr → io Z := main (λ p, p) d_is_symlink d_realpath.
Definition d_count : option Z :=
  b ← meaning (d_tokens false); c ← meaning (d_tokens true); match DeviceTree.compare b c with Ok n => Some n | Raise _ => None end.
Lemma recovery_main_exact_witness :
  ((d_main "/base.dtb" "/recovery.dtb" d_world).1 = Ok 9) ∧ (∀ n, (d_main "/link.dtb" "/recovery.dtb" d_world).1 ≠ Ok n) ∧
  fds (d_main "/link.dtb" "/recovery.dtb" d_world).2 = ∅.
Proof.
  assert (Hq : quiet d_world) by (split; reflexivity).
  assert (H : ∀ base candidate, keeps (d_main base candidate) ∧ ∀ w n, quiet w → (d_main base candidate w).1 = Ok n ↔ ∃ b c tb tc,
    blob (λ p, p) d_link d_real w base = Some b ∧ blob (λ p, p) d_link d_real w candidate = Some c ∧
    parse_dtb b base = Ok tb ∧ parse_dtb c candidate = Ok tc ∧ DeviceTree.compare tb tc = Ok n).
  { intros base candidate. apply recovery_main_exact.
    - intros p w. reflexivity.
    - intros p w. reflexivity.
    - intros p w Q _ HQ. apply HQ; reflexivity.
    - intros p w Q _ HQ. unfold wp, d_realpath. simpl. specialize (HQ w (Exn FileNotFoundError p)). destruct (d_real p); apply HQ; reflexivity. }
  split; [| split].
  - assert (D : d_count = Some 9) by (vm_compute; reflexivity).
    unfold d_count in D. apply bind_Some in D as (tb & Mb & (tc & Mc & C)%bind_Some).
    assert (T : ∀ recovery label t, meaning (d_tokens recovery) = Some t → parse_dtb (write_dtb 0 (d_tokens recovery)) label = Ok t).
    { intros recovery label t Ht. apply parse_dtb_written; [lia | apply (proj1 (forallb_Forall writable _)); destruct recovery; vm_compute; reflexivity | destruct recovery; apply Z.leb_le; vm_compute; reflexivity | exact Ht]. }
    apply (H "/base.dtb" "/recovery.dtb"); [exact Hq |].
    exists (write_dtb 0 (d_tokens false)), (write_dtb 0 (d_tokens true)), tb, tc.
    split; [vm_compute; reflexivity | split; [vm_compute; reflexivity |]]. split; [by apply T | split; [by apply T |]].
    destruct (DeviceTree.compare tb tc); congruence.
  - intros n Hn. apply (proj2 (H "/link.dtb" "/recovery.dtb") d_world n Hq) in Hn as (b & c & tb & tc & Hb & _).
    assert (N : blob (λ p, p) d_link d_real d_world "/link.dtb" = None) by (vm_compute; reflexivity). congruence.
  - exact (proj1 (H "/link.dtb" "/recovery.dtb") d_world).
Defined.
