(* ===== verification/PersistentRoot.v ===== *)
(** * The sealed persistent root tree

    scripts/host/persistent-root-tool.py, commands seal and verify: the walk
    of a root tree ([walk_tree]), the digest of everything it finds
    ([seal_tree]), the seal file ([read_seal]) and the comparison of the two
    ([verify_tree]).

    The operating system is a record of the calls the tool makes.  Every call
    gets its number, so that two equal calls may answer differently; a call
    may raise.  [os.fsencode] and [os.fsdecode] of names are the identity
    here: a name is its bytes. *)

From stdpp Require Import sorting.
From S2P Require Import Prelude PyStr Sha256.

Definition SEAL_NAME : bytes := ".rog5-persistent-seal".
Definition UNSEALED : list bytes := [SEAL_NAME; ("boot/rog5-linux" : bytes)].
Definition TREE_KEYS : list pystr :=
  ["tree_format" : pystr; "tree_entries" : pystr; "tree_regular_files" : pystr; "tree_directories" : pystr;
   "tree_symlinks" : pystr; "tree_bytes" : pystr; "tree_xattrs" : pystr; "tree_sha256" : pystr].
Definition SEAL_KEYS : list pystr :=
  ["seal_format" : pystr; "generation" : pystr; "source_archive_size" : pystr; "source_archive_sha256" : pystr;
   "promotion_state" : pystr] ++ TREE_KEYS.

(** ** The operating system *)
Inductive ftype := S_REG | S_DIR | S_LNK | S_OTHER.
#[export] Instance ftype_eq_dec : EqDecision ftype.
Proof. solve_decision. Defined.
Record stat_result := Stat {
  st_dev : Z; st_ino : Z; st_type : ftype; st_perm : Z; st_uid : Z; st_gid : Z; st_size : Z; st_mtime_ns : Z; st_nlink : Z
}.

Record os := Os {
  is_symlink : nat → bytes → res bool; (* pathlib *)
  is_dir : nat → bytes → res bool;
  read_text : nat → bytes → res bytes; (* the file's bytes, before decoding *)
  lstat : nat → bytes → res stat_result;
  scandir : nat → bytes → res (list bytes);
  readlink : nat → bytes → res bytes;
  listxattr : nat → bytes → res (option (list bytes)); (* None: ENOTSUP *)
  getxattr : nat → bytes → bytes → res bytes;
  open_fd : nat → bytes → res Z; (* O_RDONLY | O_CLOEXEC | O_NOFOLLOW *)
  fstat : nat → Z → res stat_result;
  read_fd : nat → Z → Z → Z → res bytes; (* descriptor, offset, size *)
  close_fd : nat → Z → res unit
}.
Abbreviation io := (M nat).
Definition call {A} (f : nat → res A) : io A := λ n, (f n, S n).
Definition refuse {A} (message : pystr) : io A := raise ContractError message.
Definition refuse_when (bad : bool) (message : pystr) : io unit := check bad ContractError message.

Definition put_field (value : bytes) : bytes := be_bytes 8 (len value) ++ value.
Definition join_path (path name : bytes) : bytes :=
  if endswith path "/" then path ++ name else path ++ "/" ++ name.
Definition child_relative (relative name : bytes) : bytes :=
  if relative == "." then name else relative ++ "/" ++ name.

Section tool.
Context (o : os).

(** ** Reading one entry *)
Definition CHUNK : Z := 1024 * 1024.
Definition READS : positive := 2 ^ 63.
Definition read_step (fd : Z) (content : bytes) : io (bytes + bytes) :=
  chunk ← call (λ n, o.(read_fd) n fd (len content) CHUNK);
  mret (if chunk == [] then inr content else inl (content ++ chunk)).
Definition file_digest (path : bytes) (expected : stat_result) : io bytes :=
  descriptor ← call (λ n, o.(open_fd) n path);
  finally
    (actual ← call (λ n, o.(fstat) n descriptor);
     refuse_when (negb ((actual.(st_dev) =? expected.(st_dev)) && (actual.(st_ino) =? expected.(st_ino))
                        && (actual.(st_type) == expected.(st_type)) && (actual.(st_perm) =? expected.(st_perm))
                        && (actual.(st_size) =? expected.(st_size))))
       "tree entry changed while it was being sealed" ;;
     content ← while READS (read_step descriptor) [];
     mret (sha256_digest content))
    (call (λ n, o.(close_fd) n descriptor)).

Definition entry_xattrs (path : bytes) : io (list (bytes * bytes)) :=
  names ← call (λ n, o.(listxattr) n path);
  match names with
  | None => refuse "the staging filesystem does not support xattrs"
  | Some names =>
      result ← fold_m (λ result name, value ← call (λ n, o.(getxattr) n path name); mret (result ++ [(name, value)])) [] names;
      mret (merge_sort pair_le result)
  end.

(** ** The walk *)
Abbreviation walked := (bytes * bytes * stat_result)%type.
Fixpoint visit (fuel : nat) (path relative : bytes) : io (list walked) :=
  match fuel with
  | O => raise OutOfFuel ""
  | S fuel =>
      metadata ← call (λ n, o.(lstat) n path);
      let result := [(relative, path, metadata)] in
      if negb (metadata.(st_type) == S_DIR) then mret result
      else
        entries ← call (λ n, o.(scandir) n path);
        fold_m (λ result name,
          let child := child_relative relative name in
          if decide (child ∈ UNSEALED) then mret result
          else below ← visit fuel (join_path path name) child; mret (result ++ below)) result (sorted entries)
  end.
Definition walk_tree (fuel : nat) (root : bytes) : io (list walked) := visit fuel root ".".

(** ** The seal of a tree *)
Record seal := Seal {
  digest : bytes; (* everything [digest.update] was given *)
  tree_entries : Z; tree_regular_files : Z; tree_directories : Z; tree_symlinks : Z; tree_bytes : Z; tree_xattrs : Z
}.
Definition new_seal : seal := Seal ("rog5-persistent-tree-v1" ++ ["000"%char]) 0 0 0 0 0 0.

Definition seal_step (root_device : Z) (s : seal) (e : walked) : io seal :=
  let '(relative, entry_path, metadata) := e in
  refuse_when (negb (metadata.(st_dev) =? root_device)) ("tree crosses a filesystem boundary: " ++ relative) ;;
  '(kind, content_hash, link_target) ←
    match metadata.(st_type) with
    | S_REG => content_hash ← file_digest entry_path metadata; mret ("file" : bytes, content_hash, [])
    | S_DIR => mret ("directory" : bytes, [], [])
    | S_LNK => link_target ← call (λ n, o.(readlink) n entry_path); mret ("symlink" : bytes, [], link_target)
    | S_OTHER => refuse ("tree contains an unsupported entry: " ++ relative)
    end;
  xattrs ← entry_xattrs entry_path;
  let one t := if metadata.(st_type) == t then 1 else 0 in
  mret (Seal
    (s.(digest) ++ put_field relative ++ put_field kind ++
     concat (map (λ number, put_field (str_of_Z number))
       [metadata.(st_perm); metadata.(st_uid); metadata.(st_gid); metadata.(st_size); metadata.(st_mtime_ns); metadata.(st_nlink)]) ++
     put_field content_hash ++ put_field link_target ++ put_field (str_of_Z (len xattrs)) ++
     concat (map (λ '(name, value), put_field name ++ put_field value) xattrs))
    (s.(tree_entries) + 1) (s.(tree_regular_files) + one S_REG) (s.(tree_directories) + one S_DIR)
    (s.(tree_symlinks) + one S_LNK) (s.(tree_bytes) + (if metadata.(st_type) == S_REG then metadata.(st_size) else 0))
    (s.(tree_xattrs) + len xattrs)).

Definition seal_fields (s : seal) : list (pystr * pystr) :=
  zip TREE_KEYS
    ["rog5-persistent-tree-v1" : pystr; str_of_Z s.(tree_entries); str_of_Z s.(tree_regular_files);
     str_of_Z s.(tree_directories); str_of_Z s.(tree_symlinks); str_of_Z s.(tree_bytes); str_of_Z s.(tree_xattrs);
     sha256 s.(digest)].

(** [path] is absolute already ([os.path.abspath]). *)
Definition seal_tree (fuel : nat) (path : bytes) : io (list (pystr * pystr)) :=
  link ← call (λ n, o.(is_symlink) n path);
  directory ← (if (link : bool) then mret false else call (λ n, o.(is_dir) n path));
  refuse_when (link || negb directory) "tree root is not a real directory" ;;
  root_metadata ← call (λ n, o.(lstat) n path);
  walk ← walk_tree fuel path;
  s ← fold_m (seal_step root_metadata.(st_dev)) new_seal walk;
  mret (seal_fields s).

(** ** The seal file *)
Definition seal_line (fields : list (pystr * pystr)) (line : pystr) : res (list (pystr * pystr)) :=
  refuse_if (negb (has_char "=" line)) ContractError "seal contains a malformed record" ;;
  let '(key, _, value) := partition "=" line in
  refuse_if ((key == []) || (value == []) || existsb (λ kv, kv.1 == key) fields) ContractError
    "seal contains an empty or duplicate record" ;;
  Ok (fields ++ [(key, value)]).
Definition seal_value (fields : list (pystr * pystr)) (key : pystr) : pystr :=
  default [] (snd <$> List.find (λ kv, kv.1 == key) fields).
Definition check_seal (fields : list (pystr * pystr)) : res unit :=
  let size := seal_value fields "source_archive_size" in
  let hash := seal_value fields "source_archive_sha256" in
  refuse_if (map fst fields != SEAL_KEYS) ContractError "seal fields or ordering changed" ;;
  refuse_if (seal_value fields "seal_format" != "rog5-persistent-root-v1") ContractError "seal format changed" ;;
  refuse_if (seal_value fields "generation" != "arch-a") ContractError "seal generation changed" ;;
  refuse_if (seal_value fields "promotion_state" != "UNBOOTED") ContractError "staged root is not explicitly unbooted" ;;
  refuse_if (negb (isdecimal size) || (int10 size =? 0) || negb (len hash =? 64) || existsb (λ c, negb (is_hex c)) hash)
    ContractError "seal archive identity is malformed".
(** The text [read_text(encoding="ascii")] returns, or the codec's message. *)
Fixpoint universal_newlines (s : bytes) : pystr :=
  match s with
  | [] => []
  | c :: s' => if c == CR then LF :: match s' with d :: s'' => if d == LF then universal_newlines s'' else universal_newlines s' | [] => [] end
               else c :: universal_newlines s'
  end.
Fixpoint codec_error (position : Z) (s : bytes) : pystr :=
  match s with
  | c :: s => if ord c <? 128 then codec_error (position + 1) s
              else "'ascii' codec can't decode byte 0x" ++ hex_fixed 2 (ord c) ++ " in position " ++ str_of_Z position ++
                   ": ordinal not in range(128)"
  | [] => []
  end.
Definition parse_seal (data : bytes) : res (list (pystr * pystr)) :=
  refuse_if (negb (isascii data)) ContractError ("cannot read seal: " ++ codec_error 0 data) ;;
  fields ← fold_res seal_line [] (splitlines (universal_newlines data));
  check_seal fields ;;
  Ok fields.
Definition read_seal (path : bytes) : io (list (pystr * pystr)) :=
  metadata ← call (λ n, o.(lstat) n path);
  link ← call (λ n, o.(is_symlink) n path);
  refuse_when (link || negb (metadata.(st_type) == S_REG)) "seal is not a regular, non-linked file" ;;
  refuse_when (negb (metadata.(st_perm) =? 292)) "seal mode changed" ;; (* 0o444 *)
  data ← catch (call (λ n, o.(read_text) n path)) is_oserror (λ e, refuse ("cannot read seal: " ++ exn_msg e));
  lift (parse_seal data).

Definition verify_tree (fuel : nat) (root path : bytes) : io unit :=
  expected ← read_seal path;
  actual ← seal_tree fuel root;
  each (λ key, refuse_when (seal_value actual key != seal_value expected key) ("sealed tree changed: " ++ key)) TREE_KEYS.
End tool.

(** ** The tree that is sealed *)
Inductive node := Node (n_meta : stat_result) (n_xattrs : list (bytes * bytes)) (n_content n_target : bytes)
  (n_entries : list (bytes * node)).
Definition n_meta (t : node) := let 'Node m _ _ _ _ := t in m.
Definition n_xattrs (t : node) := let 'Node _ x _ _ _ := t in x.
Definition n_content (t : node) := let 'Node _ _ c _ _ := t in c.
Definition n_target (t : node) := let 'Node _ _ _ l _ := t in l.
Definition n_entries (t : node) := let 'Node _ _ _ _ es := t in es.

(** The nodes the seal covers, each with its relative name and its path, in
    the order of the walk. *)
Fixpoint nodes (path relative : bytes) (t : node) : list (bytes * bytes * node) :=
  (relative, path, t) ::
  match t with
  | Node m _ _ _ es =>
      if negb (m.(st_type) == S_DIR) then []
      else concat (map (λ '(name, c),
             if decide (child_relative relative name ∈ UNSEALED) then []
             else nodes (join_path path name) (child_relative relative name) c) es)
  end.

(** What the digest holds of one node. *)
Record item := Item { i_relative : bytes; i_kind : bytes; i_numbers : list Z; i_hash : bytes; i_link : bytes; i_xattrs : list (bytes * bytes) }.
Definition item_of (relative : bytes) (t : node) : item :=
  let m := n_meta t in
  Item relative
    (match m.(st_type) with S_REG => "file" | S_DIR => "directory" | S_LNK => "symlink" | S_OTHER => "other" end)
    [m.(st_perm); m.(st_uid); m.(st_gid); m.(st_size); m.(st_mtime_ns); m.(st_nlink)]
    (if m.(st_type) == S_REG then sha256_digest (n_content t) else [])
    (if m.(st_type) == S_LNK then n_target t else [])
    (n_xattrs t).
Definition sealed_items (path : bytes) (t : node) : list item := map (λ '(relative, _, n), item_of relative n) (nodes path "." t).

Definition item_stream (i : item) : bytes :=
  put_field i.(i_relative) ++ put_field i.(i_kind) ++ concat (map (λ number, put_field (str_of_Z number)) i.(i_numbers)) ++
  put_field i.(i_hash) ++ put_field i.(i_link) ++ put_field (str_of_Z (len i.(i_xattrs))) ++
  concat (map (λ '(name, value), put_field name ++ put_field value) i.(i_xattrs)).
Definition tree_stream (items : list item) : bytes := new_seal.(digest) ++ concat (map item_stream items).

#[local] Opaque item_stream put_field.
Definition sum_of (l : list Z) : Z := foldr Z.add 0 l.
Definition of_type (ty : ftype) (ns : list (bytes * bytes * node)) : list (bytes * bytes * node) :=
  filter (λ e, st_type (n_meta e.2) = ty) ns.
Definition tree_seal (path : bytes) (t : node) : seal :=
  let ns := nodes path "." t in
  Seal (tree_stream (sealed_items path t)) (len ns) (len (of_type S_REG ns)) (len (of_type S_DIR ns)) (len (of_type S_LNK ns))
    (sum_of (map (λ e, st_size (n_meta e.2)) (of_type S_REG ns))) (sum_of (map (λ e, len (n_xattrs e.2)) ns)).

(** The calls on the path of one node answer from that node, whenever they
    are made: names come in any order, a read may be short. *)
Definition stable_file (o : os) (path : bytes) (m : stat_result) (content : bytes) : Prop :=
  len content < Zpos READS ∧
  ∀ k, ∃ fd, o.(open_fd) k path = Ok fd ∧ (∀ k, o.(fstat) k fd = Ok m) ∧ (∀ k, o.(close_fd) k fd = Ok ()) ∧
    ∀ k off, 0 ≤ off ≤ len content → ∃ chunk rest,
      o.(read_fd) k fd off CHUNK = Ok chunk ∧ drop (Z.to_nat off) content = chunk ++ rest ∧ (chunk = [] → off = len content).
Definition node_at (o : os) (path : bytes) (t : node) : Prop :=
  (∀ k, o.(lstat) k path = Ok (n_meta t)) ∧
  (∀ k, ∃ names, o.(listxattr) k path = Ok (Some names) ∧ names ≡ₚ map fst (n_xattrs t)) ∧
  (∀ k name value, (name, value) ∈ n_xattrs t → o.(getxattr) k path name = Ok value) ∧
  match st_type (n_meta t) with
  | S_REG => stable_file o path (n_meta t) (n_content t)
  | S_DIR => ∀ k, ∃ names, o.(scandir) k path = Ok names ∧ names ≡ₚ map fst (n_entries t)
  | S_LNK => ∀ k, o.(readlink) k path = Ok (n_target t)
  | S_OTHER => False
  end.
(** Directories and attributes are written in the order of their names. *)
Definition ordered (t : node) : Prop :=
  sorted (map fst (n_entries t)) = map fst (n_entries t) ∧
  merge_sort pair_le (n_xattrs t) = n_xattrs t ∧ NoDup (map fst (n_xattrs t)).

Definition holds_tree (o : os) (path : bytes) (t : node) : Prop :=
  (∀ k, o.(is_symlink) k path = Ok false) ∧ (∀ k, o.(is_dir) k path = Ok true) ∧
  Forall (λ e, node_at o e.1.2 e.2 ∧ ordered e.2 ∧ st_dev (n_meta e.2) = st_dev (n_meta t)) (nodes path "." t).

(** ** Code that gives one value whenever it runs *)
Definition yields {A} (m : io A) (a : A) : Prop := ∀ k, ∃ k', m k = (Ok a, k').
Lemma yields_mret {A} (a : A) : yields (mret a) a.
Proof. intros k. by exists k. Qed.
Lemma yields_call {A} (f : nat → res A) a : (∀ k, f k = Ok a) → yields (call f) a.
Proof. intros H k. exists (S k). unfold call. by rewrite H. Qed.
Lemma yields_bind {A B} (m : io A) (f : A → io B) a b : yields m a → yields (f a) b → yields (m ≫= f) b.
Proof. intros Hm Hf k. destruct (Hm k) as [k' H]. destruct (Hf k') as [k'' H']. exists k''. unfold mbind, M_mbind. by rewrite H. Qed.
Lemma yields_check bad c msg : bad = false → yields (check bad c msg) ().
Proof. intros -> k. by exists k. Qed.
Lemma yields_finally {A} (m : io A) f a : yields m a → yields f () → yields (finally m f) a.
Proof. intros Hm Hf k. destruct (Hm k) as [k' H]. destruct (Hf k') as [k'' H']. exists k''. unfold finally. by rewrite H, H'. Qed.
Lemma yields_fold {A B} (f : B → A → io B) (g : B → A → B) acc l :
  (∀ acc x, x ∈ l → yields (f acc x) (g acc x)) → yields (fold_m f acc l) (foldl g acc l).
Proof.
  revert acc. induction l as [|x l IH]; intros acc Hf k; [by exists k |]. simpl.
  destruct (Hf acc x ltac:(by left) k) as [k' H]. rewrite H. apply IH. intros. apply Hf. by right.
Qed.
Lemma yields_while {S A} p (step : S → io (S + A)) s a : (∀ k, wp (while p step s) (λ r _, r = Ok a) k) → yields (while p step s) a.
Proof. intros H k. specialize (H k). unfold wp in H. destruct (while p step s k) as [r k']. exists k'. simpl in H. by subst. Qed.
Lemma assoc_unique {A B} (l : list (A * B)) a b c : NoDup (map fst l) → (a, b) ∈ l → (a, c) ∈ l → b = c.
Proof.
  induction l as [|[x y] l IH]; simpl; [by intros _ ?%not_elem_of_nil |]. intros [Hn Hd]%NoDup_cons.
  assert (∀ z, (x, z) ∉ l) as Hx by (intros z Hz; apply Hn, list_elem_of_fmap; by exists (x, z)).
  intros H1 H2. apply elem_of_cons in H1 as [H1|H1], H2 as [H2|H2]; simplify_eq; auto; by edestruct Hx.
Qed.
Create HintDb yields.
#[export] Hint Resolve yields_mret yields_call yields_check : yields.

(** ** The tool on a tree that holds still *)
Section still.
Context (o : os).

Lemma file_digest_yields path t :
  st_type (n_meta t) = S_REG → node_at o path t → yields (file_digest o path (n_meta t)) (sha256_digest (n_content t)).
Proof.
  intros Hty (_ & _ & _ & Hf). rewrite Hty in Hf. destruct Hf as [Hlen Hf] . unfold file_digest. intros k.
  destruct (Hf k) as (fd & Ho & Hs & Hc & Hr). revert k Ho.
  enough (yields (finally
    (actual ← call (λ n, o.(fstat) n fd);
     refuse_when (negb ((actual.(st_dev) =? st_dev (n_meta t)) && (actual.(st_ino) =? st_ino (n_meta t))
                        && (actual.(st_type) == st_type (n_meta t)) && (actual.(st_perm) =? st_perm (n_meta t))
                        && (actual.(st_size) =? st_size (n_meta t))))
       "tree entry changed while it was being sealed" ;;
     content ← while READS (read_step o fd) [];
     mret (sha256_digest content))
    (call (λ n, o.(close_fd) n fd))) (sha256_digest (n_content t))) as Hy.
  { intros k Ho. destruct (Hy (S k)) as [k' Hk]. exists k'. unfold mbind at 1, M_mbind at 1, call at 1. rewrite Ho. exact Hk. }
  apply yields_finally; [| by apply yields_call]. eapply yields_bind; [by apply yields_call |].
  eapply yields_bind; [apply yields_check; by rewrite !Z.eqb_refl, bool_decide_true |].
  eapply yields_bind; [| apply yields_mret]. apply yields_while. intros k.
  apply (wp_while _ (λ c _, ∃ rest, n_content t = c ++ rest) (λ c _, len (n_content t) - len c)); [| by exists (n_content t) | unfold len at 2; simpl; lia].
  intros c k' [rest Hc']. split; [rewrite Hc', len_app; pose proof (len_nonneg rest); lia |].
  destruct (Hr k' (len c)) as (chunk & rest' & Hk & Hd & He).
  { rewrite Hc', len_app. pose proof (len_nonneg rest). pose proof (len_nonneg c). lia. }
  unfold wp, read_step, mbind, M_mbind, call. rewrite Hk. simpl. case_bool_decide as Hch.
  - subst chunk. specialize (He eq_refl). simpl. f_equal. rewrite Hc', len_app in He.
    assert (rest = []) as -> by (destruct rest; [done | unfold len in He; simpl in He; lia]). by rewrite Hc', app_nil_r.
  - simpl. rewrite Hc' in Hd. unfold len in Hd. rewrite Nat2Z.id, drop_app_length in Hd. subst rest.
    split; [exists rest'; by rewrite Hc', app_assoc |].
    rewrite len_app. destruct chunk; [done |]. unfold len. simpl. lia.
Qed.

Lemma entry_xattrs_yields path t : node_at o path t → ordered t → yields (entry_xattrs o path) (n_xattrs t).
Proof.
  intros (_ & Hl & Hg & _) (_ & Hs & Hd) k. destruct (Hl k) as (names & Hk & Hp). unfold entry_xattrs, mbind at 1, M_mbind at 1, call at 1.
  rewrite Hk. set (value_of := λ name, default [] (snd <$> List.find (λ kv, kv.1 == name) (n_xattrs t))).
  assert (∀ name, name ∈ names → (name, value_of name) ∈ n_xattrs t) as Hv.
  { intros name Hn. rewrite Hp in Hn. apply list_elem_of_fmap in Hn as ([n v] & -> & Hin). subst value_of. simpl.
    destruct (List.find _ _) as [[n' v']|] eqn:E; simpl.
    - apply List.find_some in E as [E1%list_elem_of_In E2]. b2p. simpl in E2. by subst.
    - pose proof (List.find_none _ _ E (n, v) (proj1 (list_elem_of_In _ _) Hin)) as Hf. simpl in Hf. b2p. done. }
  assert (yields (fold_m (λ result name, value ← call (λ n, o.(getxattr) n path name); mret (result ++ [(name, value)])) [] names)
    (foldl (λ result name, result ++ [(name, value_of name)]) [] names)) as Hy.
  { apply yields_fold. intros acc name Hn. eapply yields_bind; [apply yields_call; intros k'; apply Hg, Hv, Hn | apply yields_mret]. }
  destruct (Hy (S k)) as [k' Hk']. exists k'. unfold mbind at 1, M_mbind at 1. rewrite Hk'. unfold mret, M_mret. do 2 f_equal.
  assert (∀ l acc, foldl (λ result name, result ++ [(name, value_of name)]) acc l = acc ++ map (λ name, (name, value_of name)) l) as Hfold.
  { induction l as [|n l IH]; intros acc; simpl; [by rewrite app_nil_r | by rewrite IH, <-app_assoc]. }
  rewrite Hfold. simpl. rewrite <-Hs. apply (StronglySorted_unique pair_le); [apply (StronglySorted_merge_sort pair_le) .. |].
  rewrite !merge_sort_Permutation. rewrite Hp, map_map.
  assert (∀ l, (∀ kv, kv ∈ l → value_of kv.1 = kv.2) → map (λ x, (x.1, value_of x.1)) l = l) as Hid.
  { induction l as [|[n v] l IH]; intros Hl'; [done |]. simpl. f_equal; [| apply IH; intros; apply Hl'; by right].
    f_equal. apply (Hl' (n, v)). by left. }
  rewrite Hid; [done |]. intros [n v] Hin. simpl. assert ((n, value_of n) ∈ n_xattrs t) as Hin'.
  { apply Hv. rewrite Hp. apply list_elem_of_fmap. by exists (n, v). }
  eapply assoc_unique; eauto.
Qed.

Definition walked_of (e : bytes * bytes * node) : bytes * bytes * stat_result := (e.1, n_meta e.2).

Lemma visit_children (below : bytes → bytes → io (list (bytes * bytes * stat_result))) path relative es acc :
  (∀ name c, (name, c) ∈ es → child_relative relative name ∉ UNSEALED →
    yields (below (join_path path name) (child_relative relative name))
      (map walked_of (nodes (join_path path name) (child_relative relative name) c))) →
  yields (fold_m (λ result name,
      let child := child_relative relative name in
      if decide (child ∈ UNSEALED) then mret result
      else b ← below (join_path path name) child; mret (result ++ b)) acc (map fst es))
    (acc ++ map walked_of (concat (map (λ '(name, c),
      if decide (child_relative relative name ∈ UNSEALED) then []
      else nodes (join_path path name) (child_relative relative name) c) es))).
Proof.
  revert acc. induction es as [|[name c] es IH]; intros acc Hb k; [exists k; by rewrite app_nil_r |]. simpl.
  rewrite map_app. cbv zeta. destruct (decide _) as [Hu|Hu]; simpl.
  - apply IH. intros. apply Hb; [by right | done].
  - destruct (Hb name c ltac:(by left) Hu k) as [k' Hk]. unfold mbind at 1, M_mbind at 1. rewrite Hk. unfold mret at 1, M_mret at 1.
    rewrite app_assoc. apply IH. intros. apply Hb; [by right | done].
Qed.

Lemma visit_yields fuel path relative t :
  Forall (λ e, node_at o e.1.2 e.2 ∧ ordered e.2) (nodes path relative t) → (length (nodes path relative t) ≤ fuel)%nat →
  yields (visit o fuel path relative) (map walked_of (nodes path relative t)).
Proof.
  revert path relative t. induction fuel as [|fuel IH]; intros path relative [m xs content target es] Hall Hfuel; [simpl in Hfuel; lia |].
  cbn [nodes] in *. apply Forall_cons in Hall as [[Hat Hord] Hall]. simpl in Hat, Hord.
  cbn [visit]. eapply yields_bind; [apply yields_call, Hat |]. cbn [n_meta]. destruct (st_type m == S_DIR) eqn:Ety; simpl negb in *; cbv iota in *; [| apply yields_mret].
  apply bool_decide_eq_true in Ety. destruct Hat as (_ & _ & _ & Hdir). simpl in Hdir. rewrite Ety in Hdir.
  intros k. destruct (Hdir k) as (names & Hk & Hp). unfold mbind at 1, M_mbind at 1, call at 1. rewrite Hk.
  apply sorted_eq in Hp. destruct Hord as (Hs & _). simpl in Hs. rewrite Hp, Hs.
  apply (visit_children (visit o fuel) path relative es [(relative, path, m)]). intros name c Hin Hu.
  assert (∃ l1 l2, concat (map (λ '(name, c), if decide (child_relative relative name ∈ UNSEALED) then []
             else nodes (join_path path name) (child_relative relative name) c) es) =
           l1 ++ nodes (join_path path name) (child_relative relative name) c ++ l2) as (l1 & l2 & Hc).
  { apply list_elem_of_split in Hin as (e1 & e2 & ->). rewrite map_app, concat_app. simpl. rewrite decide_False by done. eauto. }
  rewrite Hc in Hall, Hfuel. simpl in Hfuel. rewrite !length_app in Hfuel. apply Forall_app in Hall as [_ [Hall _]%Forall_app].
  apply IH; [done | lia].
Qed.

(** One entry of the second pass. *)
Definition add_node (s : seal) (e : bytes * bytes * node) : seal :=
  let t := e.2 in
  let one ty := if st_type (n_meta t) == ty then 1 else 0 in
  Seal (s.(digest) ++ item_stream (item_of e.1.1 t)) (s.(tree_entries) + 1) (s.(tree_regular_files) + one S_REG)
    (s.(tree_directories) + one S_DIR) (s.(tree_symlinks) + one S_LNK)
    (s.(tree_bytes) + (if st_type (n_meta t) == S_REG then st_size (n_meta t) else 0)) (s.(tree_xattrs) + len (n_xattrs t)).

Lemma seal_step_yields device s e :
  node_at o e.1.2 e.2 → ordered e.2 → st_dev (n_meta e.2) = device → yields (seal_step o device s (walked_of e)) (add_node s e).
Proof.
  destruct e as [[relative path] t]. simpl. intros Hat Hord Hdev. unfold seal_step, walked_of. simpl.
  eapply yields_bind; [apply yields_check; by rewrite Hdev, Z.eqb_refl |].
  eapply (yields_bind _ _ (i_kind (item_of relative t), i_hash (item_of relative t), i_link (item_of relative t))).
  { pose proof Hat as (_ & _ & _ & Hb). unfold item_of. simpl. destruct (st_type (n_meta t)) eqn:Ety; [| | | done]; simpl.
    - eapply yields_bind; [by apply file_digest_yields | apply yields_mret].
    - apply yields_mret.
    - eapply yields_bind; [by apply yields_call | apply yields_mret]. }
  simpl. eapply yields_bind; [by apply entry_xattrs_yields |]. unfold add_node. simpl. apply yields_mret.
Qed.

Lemma add_nodes ns s :
  foldl add_node s ns =
  Seal (s.(digest) ++ concat (map (λ e, item_stream (item_of e.1.1 e.2)) ns)) (s.(tree_entries) + len ns)
    (s.(tree_regular_files) + len (of_type S_REG ns)) (s.(tree_directories) + len (of_type S_DIR ns))
    (s.(tree_symlinks) + len (of_type S_LNK ns)) (s.(tree_bytes) + sum_of (map (λ e, st_size (n_meta e.2)) (of_type S_REG ns)))
    (s.(tree_xattrs) + sum_of (map (λ e, len (n_xattrs e.2)) ns)).
Proof.
  revert s. induction ns as [|e ns IH]; intros s; simpl.
  { destruct s. unfold len. simpl. rewrite app_nil_r. f_equal; lia. }
  rewrite IH. unfold add_node, of_type. simpl. rewrite <-app_assoc, !filter_cons.
  destruct (st_type (n_meta e.2)); cbn; unfold len, sum_of; simpl; f_equal; lia.
Qed.

Lemma seal_steps_yield device s ns :
  Forall (λ e, node_at o e.1.2 e.2 ∧ ordered e.2 ∧ st_dev (n_meta e.2) = device) ns →
  yields (fold_m (seal_step o device) s (map walked_of ns)) (foldl add_node s ns).
Proof.
  revert s. induction ns as [|e ns IH]; intros s; [intros _ k; by exists k |].
  intros [(Ha & Ho & Hd) Hns]%Forall_cons k. cbn [map fold_m foldl].
  destruct (seal_step_yields device s e Ha Ho Hd k) as [k' ->]. by apply IH.
Qed.

Lemma seal_tree_yields fuel path t :
  holds_tree o path t → (length (nodes path "." t) ≤ fuel)%nat →
  yields (seal_tree o fuel path) (seal_fields (tree_seal path t)).
Proof.
  intros (Hlink & Hdir & Hall) Hfuel. unfold seal_tree.
  eapply yields_bind; [apply yields_call, Hlink |]. eapply yields_bind; [apply yields_call, Hdir |].
  eapply yields_bind; [by apply yields_check |].
  assert (∀ k, lstat o k path = Ok (n_meta t)) as Hroot.
  { destruct t. simpl in Hall. by apply Forall_cons in Hall as [[[? _] _] _]. }
  eapply yields_bind; [apply yields_call, Hroot |].
  eapply yields_bind; [apply visit_yields; [| done]; eapply Forall_impl; [exact Hall | naive_solver] |].
  eapply yields_bind; [by apply seal_steps_yield |]. rewrite add_nodes.
  assert (tree_seal path t = Seal (new_seal.(digest) ++ concat (map (λ e, item_stream (item_of e.1.1 e.2)) (nodes path "." t)))
    (0 + len (nodes path "." t)) (0 + len (of_type S_REG (nodes path "." t))) (0 + len (of_type S_DIR (nodes path "." t)))
    (0 + len (of_type S_LNK (nodes path "." t)))
    (0 + sum_of (map (λ e, st_size (n_meta e.2)) (of_type S_REG (nodes path "." t))))
    (0 + sum_of (map (λ e, len (n_xattrs e.2)) (nodes path "." t)))) as ->; [| apply yields_mret].
  unfold tree_seal, tree_stream, sealed_items. rewrite map_map, !Z.add_0_l. do 3 f_equal. apply map_ext. by intros [[? ?] ?].
Qed.
End still.

(** Sealing a tree that holds still succeeds and gives exactly the
    reference seal of the tree, in whatever order the kernel lists names and
    attributes and however it splits reads; what lies below an unsealed path
    does not enter. *)
Theorem seal_tree_exact o fuel path t k :
  holds_tree o path t → (length (nodes path "." t) ≤ fuel)%nat →
  (seal_tree o fuel path k).1 = Ok (seal_fields (tree_seal path t)).
Proof. intros Ht Hf. destruct (seal_tree_yields o fuel path t Ht Hf k) as [k' ->]. done. Qed.

(** ** The digest determines the tree *)
Lemma put_field_inj a b x y :
  len a < 2 ^ 64 → len b < 2 ^ 64 → put_field a ++ x = put_field b ++ y → a = b ∧ x = y.
Proof.
  #[local] Transparent put_field.
  unfold put_field. rewrite <-!app_assoc. intros Ha Hb H. apply app_inj_1 in H as [Hl H]; [| by rewrite !be_bytes_length].
  apply (f_equal be_int) in Hl. rewrite !be_int_bytes in Hl. change (256 ^ Z.of_nat 8) with (2 ^ 64) in Hl.
  pose proof (len_nonneg a). pose proof (len_nonneg b). rewrite !Z.mod_small in Hl by lia.
  apply app_inj_1 in H; [done | unfold len in Hl; lia].
  #[local] Opaque put_field.
Qed.

Definition field_ok (b : bytes) : Prop := len b < 2 ^ 64.
Lemma put_fields_inj l1 l2 x y :
  Forall field_ok l1 → Forall field_ok l2 → length l1 = length l2 →
  concat (map put_field l1) ++ x = concat (map put_field l2) ++ y → l1 = l2 ∧ x = y.
Proof.
  revert l2. induction l1 as [|a l1 IH]; intros [|b l2] H1 H2 Hl H; try done. cbn [map concat] in H. rewrite <-!app_assoc in H.
  apply Forall_cons in H1 as [Ha H1], H2 as [Hb H2]. apply put_field_inj in H as [-> H]; [| done ..].
  injection Hl as Hl. by apply IH in H as [-> ->].
Qed.

Lemma str_of_Z_injective n m : str_of_Z n = str_of_Z m → n = m.
Proof.
  assert (∀ a, a < 0 → str_of_Z a = "-"%char :: str_of_Z (- a)) as Hneg.
  { intros a Ha. unfold str_of_Z. destruct (a <? 0) eqn:E, (- a <? 0) eqn:E'; b2p; try lia. done. }
  assert (∀ a b, 0 ≤ a → str_of_Z a ≠ "-"%char :: b) as Hpos.
  { intros a b Ha H. pose proof (str_isdecimal a Ha) as Hd. rewrite H in Hd. by unfold isdecimal in Hd. }
  intros H. destruct (decide (n < 0)), (decide (m < 0)).
  - rewrite (Hneg n), (Hneg m) in H by done. injection H as H. apply str_of_Z_inj in H; lia.
  - rewrite (Hneg n) in H by done. symmetry in H. apply Hpos in H; [done | lia].
  - rewrite (Hneg m) in H by done. apply Hpos in H; [done | lia].
  - apply str_of_Z_inj in H; lia.
Qed.
Lemma str_field n : - 2 ^ 64 < n < 2 ^ 64 → field_ok (str_of_Z n).
Proof.
  assert (∀ a, 0 ≤ a < 2 ^ 64 → len (str_of_Z a) ≤ 20) as Hp.
  { intros a Ha. pose proof (str_length a 19). unfold len. change (10 ^ Z.of_nat 20) with (10 ^ 20) in H. lia. }
  intros Hn. unfold field_ok. destruct (decide (n < 0)) as [H|H].
  - assert (str_of_Z n = "-"%char :: str_of_Z (- n)) as ->.
    { unfold str_of_Z. destruct (n <? 0) eqn:E, (- n <? 0) eqn:E'; b2p; try lia. done. }
    pose proof (Hp (- n)). unfold len in *. simpl length. lia.
  - pose proof (Hp n). lia.
Qed.

Definition item_head (i : item) : list bytes :=
  [i.(i_relative); i.(i_kind)] ++ map str_of_Z i.(i_numbers) ++ [i.(i_hash); i.(i_link); str_of_Z (len i.(i_xattrs))].
Definition item_tail (i : item) : list bytes := concat (map (λ '(name, value), [name; value]) i.(i_xattrs)).
Definition item_ok (i : item) : Prop :=
  length i.(i_numbers) = 6%nat ∧ Forall field_ok (item_head i) ∧ Forall field_ok (item_tail i).

Lemma item_stream_fields i : item_stream i = concat (map put_field (item_head i)) ++ concat (map put_field (item_tail i)).
Proof.
  #[local] Transparent item_stream.
  unfold item_stream, item_head, item_tail. rewrite !map_app, !concat_app, map_map. simpl. rewrite !app_nil_r, <-!app_assoc.
  do 6 f_equal. induction (i_xattrs i) as [|[n v] l IH]; [done |]. simpl. by rewrite IH, <-app_assoc.
Qed.
Lemma item_tail_length i : length (item_tail i) = (2 * length i.(i_xattrs))%nat.
Proof. unfold item_tail. induction (i_xattrs i) as [|[n v] l IH]; [done |]. simpl. rewrite IH. lia. Qed.
Lemma pairs_inj (l1 l2 : list (bytes * bytes)) :
  concat (map (λ '(name, value), [name; value]) l1) = concat (map (λ '(name, value), [name; value]) l2) → l1 = l2.
Proof.
  revert l2. induction l1 as [|[n v] l1 IH]; intros [|[n' v'] l2] H; try done. simpl in H. injection H as -> -> H. by rewrite (IH _ H).
Qed.
Lemma item_stream_inj i j x y : item_ok i → item_ok j → item_stream i ++ x = item_stream j ++ y → i = j ∧ x = y.
Proof.
  intros (Ln & Hh & Ht) (Ln' & Hh' & Ht') H. rewrite !item_stream_fields, <-!app_assoc in H.
  apply put_fields_inj in H as [Eh H]; [| done .. |]; last by (unfold item_head; rewrite !length_app, !length_map, Ln, Ln').
  unfold item_head in Eh. simpl in Eh. injection Eh as Er Ek Eh. apply app_inj_1 in Eh as [En Eh]; [| by rewrite !length_map, Ln, Ln'].
  injection Eh as Ehash El Ex. apply str_of_Z_injective in Ex.
  apply put_fields_inj in H as [Et H]; [| done .. |]; last by (rewrite !item_tail_length; unfold len in Ex; lia).
  apply pairs_inj in Et. split; [| done]. destruct i, j. simpl in *. subst. f_equal.
  clear -En. revert i_numbers1 En. induction i_numbers0 as [|a l IH]; intros [|b l'] H; try done.
  injection H as Ha Hl. apply str_of_Z_injective in Ha as ->. by rewrite (IH _ Hl).
Qed.
Lemma item_stream_nonempty i : item_stream i ≠ [].
Proof.
  intros H. apply (f_equal length) in H. rewrite item_stream_fields in H. unfold item_head in H. simpl in H.
  #[local] Transparent put_field.
  unfold put_field in H. rewrite !length_app, be_bytes_length in H. simpl in H. lia.
  #[local] Opaque put_field item_stream.
Qed.
Lemma tree_stream_inj l1 l2 : Forall item_ok l1 → Forall item_ok l2 → tree_stream l1 = tree_stream l2 → l1 = l2.
Proof.
  unfold tree_stream. intros H1 H2 H%app_inv_head. revert l2 H2 H.
  induction l1 as [|i l1 IH]; intros [|j l2] H2 H; cbn [map concat] in H; [done | | |].
  - symmetry in H. by apply app_eq_nil in H as [H%item_stream_nonempty _].
  - by apply app_eq_nil in H as [H%item_stream_nonempty _].
  - apply Forall_cons in H1 as [Hi H1], H2 as [Hj H2]. apply item_stream_inj in H as [-> H]; [| done ..].
    f_equal. by apply IH.
Qed.

(** ** Verifying *)
Lemma each_keys_Ok (f g : pystr → pystr) (l : list pystr) k :
  (each (λ key, refuse_when (f key != g key) ("sealed tree changed: " ++ key)) l k).1 = Ok () ↔ Forall (λ key, f key = g key) l.
Proof.
  induction l as [|key l IH]; simpl; [split; [constructor | done] |]. rewrite Forall_cons, <-IH. unfold refuse_when, check, lift.
  destruct (decide (f key = g key)) as [E|N]; [rewrite bool_decide_true by done | rewrite bool_decide_false by done]; naive_solver.
Qed.

(** C9. A tree that holds still and passes verification against the seal of
    another tree has that tree's entries: names, kinds, modes, owners, sizes,
    times, link counts, file hashes, link targets and attributes are all the
    same, unless the two streams are a SHA-256 collision. *)
Theorem verify_tree_sound o fuel root path k t path0 t0 k' fields :
  holds_tree o root t → (length (nodes root "." t) ≤ fuel)%nat →
  Forall item_ok (sealed_items root t) → Forall item_ok (sealed_items path0 t0) →
  read_seal o path k = (Ok fields, k') →
  Forall (λ key, seal_value fields key = seal_value (seal_fields (tree_seal path0 t0)) key) TREE_KEYS →
  (verify_tree o fuel root path k).1 = Ok () →
  sealed_items root t = sealed_items path0 t0 ∨
  (tree_stream (sealed_items root t) ≠ tree_stream (sealed_items path0 t0) ∧
   sha256 (tree_stream (sealed_items root t)) = sha256 (tree_stream (sealed_items path0 t0))).
Proof.
  intros Ht Hf Hok Hok0 Hr Hs H. unfold verify_tree, mbind at 1, M_mbind at 1 in H. rewrite Hr in H.
  destruct (seal_tree_yields o fuel root t Ht Hf k') as [k'' Hk]. unfold mbind, M_mbind in H. rewrite Hk in H.
  apply (each_keys_Ok (seal_value (seal_fields (tree_seal root t))) (seal_value fields)) in H.
  assert (seal_value (seal_fields (tree_seal root t)) "tree_sha256" = seal_value (seal_fields (tree_seal path0 t0)) "tree_sha256") as Hsha.
  { rewrite Forall_forall in H, Hs. rewrite H, Hs; [done | ..]; apply list_elem_of_In; simpl; tauto. }
  change (sha256 (tree_stream (sealed_items root t)) = sha256 (tree_stream (sealed_items path0 t0))) in Hsha.
  destruct (decide (tree_stream (sealed_items root t) = tree_stream (sealed_items path0 t0))) as [E|N]; [left | right; done].
  by apply tree_stream_inj.
Qed.

(** ** The seal file is read back *)
Definition field_line (f : pystr * pystr) : pystr := f.1 ++ ("="%char :: f.2).
Definition print_fields (fields : list (pystr * pystr)) : bytes := unlines (map field_line fields).
Definition printable_field (f : pystr * pystr) : Prop :=
  f.1 ≠ [] ∧ f.2 ≠ [] ∧ ("="%char ∉ f.1) ∧ one_line (field_line f) ∧ isascii (field_line f) = true.

Lemma seal_lines_Ok fields acc :
  Forall printable_field fields → NoDup (map fst (acc ++ fields)) →
  fold_res seal_line acc (map field_line fields) = Ok (acc ++ fields).
Proof.
  revert acc. induction fields as [|[key value] fields IH]; intros acc Hp Hd; [by rewrite app_nil_r |].
  apply Forall_cons in Hp as [(Hk & Hv & Heq & _ & _) Hp]. cbn [map fold_res]. simpl in Hk, Hv, Heq.
  assert (seal_line acc (field_line (key, value)) = Ok (acc ++ [(key, value)])) as ->.
  { unfold seal_line, field_line. simpl fst. simpl snd. rewrite partition_first by done.
    rewrite refuse_if_pass by (apply negb_false_iff, existsb_exists; exists "="%char; split; [apply in_app_iff; right; by left | by rewrite bool_decide_true]).
    rewrite refuse_if_pass; [done |]. rewrite !bool_decide_false by done. simpl. apply existsb_false, Forall_forall.
    intros kv Hin. apply bool_decide_false. intros <-. rewrite map_app in Hd. apply NoDup_app in Hd as (_ & Hd & _).
    apply (Hd kv.1); [by apply list_elem_of_fmap; eauto | by left]. }
  rewrite Ok_bind, IH; rewrite <-?app_assoc; done.
Qed.
Lemma universal_newlines_id s : CR ∉ s → universal_newlines s = s.
Proof.
  induction s as [|c s IH]; [done |]. intros [Hc Hs]%not_elem_of_cons. simpl. rewrite bool_decide_false by done. by rewrite IH.
Qed.

(** Reading a seal file gives back exactly the fields that were printed
    into it, for every seal that meets the contract. *)
Theorem parse_seal_round_trip fields :
  Forall printable_field fields → check_seal fields = Ok () → parse_seal (print_fields fields) = Ok fields.
Proof.
  intros Hp Hc. unfold parse_seal. assert (Forall one_line (map field_line fields)) as Hl.
  { apply Forall_map. eapply Forall_impl; [exact Hp |]. by intros f (_ & _ & _ & ? & _). }
  assert (CR ∉ print_fields fields) as Hcr.
  { unfold print_fields, unlines. intros (l & Hm & Hin)%list_elem_of_In%in_concat. apply in_map_iff in Hm as (w & <- & Hw).
    apply list_elem_of_In, elem_of_app in Hin as [Hin|Hin]; [| by apply list_elem_of_singleton in Hin].
    rewrite Forall_forall in Hl. apply list_elem_of_In, Hl in Hw. unfold one_line in Hw. rewrite Forall_forall in Hw.
    by specialize (Hw CR Hin). }
  rewrite refuse_if_pass.
  2: { apply negb_false_iff. unfold isascii, print_fields, unlines. apply forallb_forall. intros c (l & Hm & Hin)%in_concat.
       apply in_map_iff in Hm as (w & <- & (f & <- & Hf)%in_map_iff). apply in_app_iff in Hin as [Hin|[<-|[]]]; [| done].
       rewrite Forall_forall in Hp. apply list_elem_of_In, Hp in Hf as (_ & _ & _ & _ & Ha). unfold isascii in Ha. rewrite forallb_forall in Ha. auto. }
  rewrite universal_newlines_id by done. unfold print_fields. rewrite splitlines_unlines by done.
  rewrite (seal_lines_Ok fields []); [change ([] ++ fields) with fields; rewrite Ok_bind, Hc; done | done |]. simpl.
  unfold check_seal in Hc. guard_inv Hc as Hk. apply negb_false_iff, bool_decide_eq_true in Hk. rewrite Hk.
  apply (bool_decide_unpack _). vm_compute. exact I.
Qed.

(** ** A sample tree and its seal *)
Definition sample_dir : stat_result := Stat 1 2 S_DIR 493 0 0 4096 1700000000000000000 2.
Definition sample_file : stat_result := Stat 1 3 S_REG 420 0 0 2 (-1) 1.
Definition sample_link : stat_result := Stat 1 4 S_LNK 511 0 0 1 0 1.
Definition sample_content : bytes := "hi".
Definition sample_tree : node :=
  Node sample_dir [] [] [] [
    (SEAL_NAME, Node sample_file [] [] [] []);
    ("a" : bytes, Node sample_file [("user.tag" : bytes, "1" : bytes)] sample_content [] []);
    ("l" : bytes, Node sample_link [] [] "a" [])].
Definition sample_fields : list (pystr * pystr) :=
  [("seal_format" : pystr, "rog5-persistent-root-v1" : pystr); ("generation" : pystr, "arch-a" : pystr);
   ("source_archive_size" : pystr, "10" : pystr); ("source_archive_sha256" : pystr, sha256 []);
   ("promotion_state" : pystr, "UNBOOTED" : pystr)] ++ seal_fields (tree_seal "/r" sample_tree).
Definition sample_seal_path : bytes := "/r/" ++ SEAL_NAME.
Definition sample_os : os := {|
  is_symlink := λ _ _, Ok false;
  is_dir := λ _ _, Ok true;
  read_text := λ _ _, Ok (print_fields sample_fields);
  lstat := λ _ p, Ok (if p == "/r" then sample_dir else if p == sample_seal_path then Stat 1 9 S_REG 292 0 0 1 0 1
                      else if p == "/r/a" then sample_file else sample_link);
  (* the order of the names changes between calls *)
  scandir := λ k _, Ok (if Nat.even k then ["l" : bytes; "a" : bytes; SEAL_NAME] else ["a" : bytes; SEAL_NAME; "l" : bytes]);
  readlink := λ _ _, Ok ("a" : bytes);
  listxattr := λ _ p, Ok (Some (if p == "/r/a" then ["user.tag" : bytes] else []));
  getxattr := λ _ _ _, Ok ("1" : bytes);
  open_fd := λ _ _, Ok 3;
  fstat := λ _ _, Ok sample_file;
  read_fd := λ _ _ off _, Ok (take 1 (drop (Z.to_nat off) sample_content)); (* short reads *)
  close_fd := λ _ _, Ok ()
|}.

Lemma sample_holds : holds_tree sample_os "/r" sample_tree.
Proof.
  split; [done |]. split; [done |]. change (nodes "/r" "." sample_tree) with
    [("." : bytes, "/r" : bytes, sample_tree);
     ("a" : bytes, "/r/a" : bytes, Node sample_file [("user.tag" : bytes, "1" : bytes)] sample_content [] []);
     ("l" : bytes, "/r/l" : bytes, Node sample_link [] [] "a" [])].
  assert (∀ t, ordered t ↔ bool_decide (sorted (map fst (n_entries t)) = map fst (n_entries t)) &&
    (bool_decide (merge_sort pair_le (n_xattrs t) = n_xattrs t) && bool_decide (NoDup (map fst (n_xattrs t)))) = true) as Ho
    by (intros t; unfold ordered; b2pg; done).
  apply Forall_cons; split; [| apply Forall_cons; split; [| apply Forall_cons; split; [| by apply Forall_nil]]];
    (split; [split; [by intros k |] | split; [apply Ho; vm_compute; reflexivity | done]]).
  - split; [intros k; by exists [] |]. split; [by intros ??? ?%not_elem_of_nil |]. simpl. intros k.
    destruct (Nat.even k); eexists; (split; [done |]); apply (bool_decide_unpack _); vm_compute; exact I.
  - split; [intros k; by exists ["user.tag" : bytes] |].
    split; [intros k name value [= -> ->]%list_elem_of_singleton; done |]. split; [done |]. intros k. exists 3.
    repeat (split; [done |]). intros k' off Hoff. exists (take 1 (drop (Z.to_nat off) sample_content)), (drop 1 (drop (Z.to_nat off) sample_content)).
    split; [done |]. split; [by rewrite take_drop |]. intros He. apply (f_equal length) in He.
    rewrite length_take, length_drop in He. change (length sample_content) with 2%nat in He. cbn [n_content fst snd] in *. change (len sample_content) with 2 in *. change (length []) with 0%nat in He. lia.
  - split; [intros k; by exists [] |]. split; [by intros ??? ?%not_elem_of_nil | done].
Qed.

Lemma seal_tree_exact_witness :
  holds_tree sample_os "/r" sample_tree ∧ (seal_tree sample_os 4 "/r" 7%nat).1 = Ok (seal_fields (tree_seal "/r" sample_tree)).
Proof. split; [exact sample_holds |]. apply (seal_tree_exact sample_os 4 "/r" sample_tree 7%nat sample_holds). vm_compute. lia. Defined.

Lemma parse_seal_round_trip_witness : parse_seal (print_fields sample_fields) = Ok sample_fields.
Proof.
  apply parse_seal_round_trip; [| vm_compute; reflexivity].
  apply (bool_decide_unpack (Forall (λ f, f.1 ≠ [] ∧ f.2 ≠ [] ∧ ("="%char ∉ f.1) ∧
    Forall (λ c, is_linebreak c = false) (field_line f) ∧ isascii (field_line f) = true) sample_fields)).
  vm_compute. exact I.
Defined.

Lemma verify_tree_sound_witness :
  (verify_tree sample_os 4 "/r" sample_seal_path 0%nat).1 = Ok () ∧
  (sealed_items "/r" sample_tree = sealed_items "/r" sample_tree ∨
   tree_stream (sealed_items "/r" sample_tree) ≠ tree_stream (sealed_items "/r" sample_tree) ∧
   sha256 (tree_stream (sealed_items "/r" sample_tree)) = sha256 (tree_stream (sealed_items "/r" sample_tree))).
Proof.
  assert ((verify_tree sample_os 4 "/r" sample_seal_path 0%nat).1 = Ok ()) as H by (vm_compute; reflexivity).
  assert (Forall item_ok (sealed_items "/r" sample_tree)) as Hok.
  { apply (bool_decide_unpack (Forall (λ i, length i.(i_numbers) = 6%nat ∧ Forall (λ b, len b < 2 ^ 64) (item_head i) ∧
      Forall (λ b, len b < 2 ^ 64) (item_tail i)) (sealed_items "/r" sample_tree))). vm_compute. exact I. }
  split; [exact H |].
  eapply (verify_tree_sound sample_os 4 "/r" sample_seal_path 0%nat sample_tree "/r" sample_tree 3%nat sample_fields);
    [exact sample_holds | vm_compute; lia | exact Hok | exact Hok | vm_compute; reflexivity | | exact H].
  apply (bool_decide_unpack _). vm_compute. exact I.
Defined.
