(* ===== verification/PersistentArchive.v ===== *)
(** * The archive a persistent root is made from

    scripts/host/persistent-root-tool.py, command archive: the paths an
    archive may hold ([clean_archive_path]), the credentials it must not carry
    ([has_embedded_credential]) and the check of every member
    ([inspect_archive]).  The members come from [tarfile]; what it raises
    while reading ends the list of members. *)

From S2P Require Import Prelude PyStr PyData PersistentRoot.

(** ** Paths *)
Definition DOT : pystr := ".".
Definition DOTDOT : pystr := "..".
Definition escapes (normalized : pystr) : bool := (normalized == DOTDOT) || startswith normalized "../".

Fixpoint strip_dot_slash (fuel : nat) (name : pystr) : pystr :=
  match fuel with
  | S fuel => if startswith name "./" then strip_dot_slash fuel (drop 2 name) else name
  | O => name
  end.
Definition clean_archive_path (name0 : pystr) : res pystr :=
  let name := strip_dot_slash (length name0) name0 in
  if (name == []) || (name == ".") then Ok ("." : pystr)
  else
    refuse_if (has_char "000" name || startswith name "/") ContractError ("unsafe archive path: " ++ repr name) ;;
    refuse_if (existsb (λ part, (part == []) || (part == ".") || (part == "..")) (parts name)) ContractError
      ("unsafe archive path: " ++ repr name) ;;
    Ok (as_posix (parts name)).

Definition has_embedded_credential (path : pystr) : bool :=
  startswith path "etc/ssh/ssh_host_" || (path == "etc/wireguard/wg0.conf")
  || startswith path "etc/NetworkManager/system-connections/" || (path == "home/rog5/.config/krdpserverrc")
  || startswith path "home/rog5/.local/share/kwalletd/" || startswith path "var/lib/rog5-agent/private/"
  || startswith path "etc/pacman.d/gnupg/".

(** [os.path.normpath] of a relative path given by its parts: [..] removes
    the part before it, or stays when there is none to remove. *)
Definition norm_step (comps : list pystr) (part : pystr) : list pystr :=
  if part == DOTDOT then
    match comps with
    | [] => [part]
    | top :: rest => if top == DOTDOT then part :: comps else rest
    end
  else part :: comps.
Definition normpath (ps : list pystr) : pystr := as_posix (reverse (foldl norm_step [] ps)).

(** ** Members *)
Inductive member_type := IsFile | IsDir | IsSym | IsLnk | IsDev | IsOther.
Record member := Member { m_name : pystr; m_type : member_type; m_sparse : bool; m_linkname : pystr }.
Record counts := Counts {
  archive_entries : Z; archive_regular_files : Z; archive_directories : Z; archive_symlinks : Z; archive_hardlinks : Z
}.

Definition check_symlink (name linkname : pystr) : res unit :=
  refuse_if (linkname == []) ContractError ("empty symbolic-link target: " ++ name) ;;
  if startswith linkname "/" then Ok ()
  else
    let resolved := removelast (parts name) ++ parts linkname in
    if existsb (λ p, p == DOTDOT) resolved then
      refuse_if (escapes (normpath resolved)) ContractError ("symbolic link escapes the root: " ++ name)
    else Ok ().

Definition count_member (c : counts) (name : pystr) (m : member) : res counts :=
  let (e, f, d, s, h) := c in
  match m.(m_type) with
  | IsFile => Ok (Counts (e + 1) (f + 1) d s h)
  | IsDir => Ok (Counts (e + 1) f (d + 1) s h)
  | IsSym => check_symlink name m.(m_linkname) ;; Ok (Counts (e + 1) f d (s + 1) h)
  | IsLnk =>
      target ← clean_archive_path m.(m_linkname);
      refuse_if (target == DOT) ContractError ("invalid hard-link target: " ++ name) ;;
      Ok (Counts (e + 1) f d s (h + 1))
  | IsDev => Raise (Exn ContractError ("archive contains a device or FIFO: " ++ name))
  | IsOther => Raise (Exn ContractError ("archive contains an unsupported entry: " ++ name))
  end.
Definition inspect_member (st : gset pystr * counts) (m : member) : res (gset pystr * counts) :=
  name ← clean_archive_path m.(m_name);
  refuse_if (bool_decide (name ∈ st.1)) ContractError ("duplicate archive path: " ++ name) ;;
  refuse_if (name == SEAL_NAME) ContractError "archive contains the reserved persistent seal path" ;;
  refuse_if (has_embedded_credential name) ContractError ("archive embeds a deployment credential: " ++ name) ;;
  refuse_if m.(m_sparse) ContractError ("sparse archive member is unsupported: " ++ name) ;;
  c ← count_member st.2 name m;
  Ok ({[ name ]} ∪ st.1, c).

(** [regular]: the archive is a regular file and no link; [failure]: what
    [tarfile] raised after the members, if it raised. *)
Definition inspect_archive (regular : bool) (members : list member) (failure : option pystr) : res (list (pystr * pystr)) :=
  refuse_if (negb regular) ContractError "archive is not a regular, non-linked file" ;;
  st ← fold_res inspect_member (∅, Counts 0 0 0 0 0) members;
  match failure with
  | Some error => Raise (Exn ContractError ("cannot inspect archive: " ++ error))
  | None =>
      let c := st.2 in
      refuse_if (c.(archive_entries) =? 0) ContractError "archive is empty" ;;
      Ok [("archive_entries" : pystr, str_of_Z c.(archive_entries));
          ("archive_regular_files" : pystr, str_of_Z c.(archive_regular_files));
          ("archive_directories" : pystr, str_of_Z c.(archive_directories));
          ("archive_symlinks" : pystr, str_of_Z c.(archive_symlinks));
          ("archive_hardlinks" : pystr, str_of_Z c.(archive_hardlinks))]
  end.

(** ** Clean paths *)
Definition part_ok (p : pystr) : Prop := p ≠ [] ∧ p ≠ "." ∧ p ≠ DOTDOT ∧ (SLASH ∉ p) ∧ ("000"%char ∉ p).
Definition clean_path (path : pystr) : Prop :=
  path = "." ∨ ∃ ps, ps ≠ [] ∧ Forall part_ok ps ∧ path = join [SLASH] ps.

Lemma parts_join_ok ps : Forall part_ok ps → ps ≠ [] → parts (join [SLASH] ps) = ps.
Proof. intros Hp. apply parts_join. eapply Forall_impl; [exact Hp |]. intros p (? & ? & _ & ? & _). done. Qed.
Lemma join_first p ps : join [SLASH] (p :: ps) = p ∨ ∃ t, join [SLASH] (p :: ps) = p ++ SLASH :: t.
Proof. destruct ps as [|q ps]; [by left |]. right. by exists (join [SLASH] (q :: ps)). Qed.
Lemma first_part_prefix p ps (pre : pystr) : SLASH ∉ p → SLASH ∉ pre →
  startswith (join [SLASH] (p :: ps)) (pre ++ [SLASH]) = true → p = pre.
Proof.
  intros Hp Hpre (t & H)%startswith_spec. rewrite <-app_assoc in H. change ([SLASH] ++ t) with (SLASH :: t) in H.
  destruct (join_first p ps) as [Hj|[t' Hj]]; rewrite Hj in H.
  - exfalso. apply Hp. rewrite H. set_solver.
  - pose proof (partition_first SLASH p t' Hp) as H1. pose proof (partition_first SLASH pre t Hpre) as H2.
    rewrite H, H2 in H1. by injection H1.
Qed.
Lemma strip_dot_slash_done fuel name : (length name ≤ fuel)%nat → startswith (strip_dot_slash fuel name) "./" = false.
Proof.
  revert name. induction fuel as [|fuel IH]; intros name Hf; [by destruct name; [| simpl in Hf; lia] |]. cbn [strip_dot_slash].
  destruct (startswith name "./") eqn:E; [| done]. apply IH. rewrite length_drop. apply startswith_spec in E as [t ->].
  rewrite length_app in *. simpl in *. lia.
Qed.

(** What a name in an archive denotes, without reference to the code: it has
    no NUL and no [..] component, does not start at the root, not even after
    leading [./], and names the components that are neither empty nor [.], or
    the root of the archive when there are none. *)
Definition dot_slashes (k : nat) : pystr := concat (replicate k ("./" : pystr)).
Definition components (name : pystr) : list pystr := filter (λ p, p ≠ [] ∧ p ≠ DOT) (split_on SLASH name).
Definition denotes (name path : pystr) : Prop :=
  ("000"%char ∉ name) ∧ (DOTDOT ∉ split_on SLASH name) ∧ (∀ k t, name ≠ dot_slashes k ++ SLASH :: t) ∧
  path = match components name with [] => DOT | ps => join [SLASH] ps end.

Lemma dots_cons k s : dot_slashes (S k) ++ s = "."%char :: SLASH :: dot_slashes k ++ s.
Proof. done. Qed.
Lemma split_dots k s : split_on SLASH (dot_slashes k ++ s) = replicate k DOT ++ split_on SLASH s.
Proof. induction k as [|k IH]; [done |]. rewrite dots_cons. simpl. by rewrite IH. Qed.
Lemma components_dots k s : components (dot_slashes k ++ s) = components s.
Proof. unfold components. rewrite split_dots, filter_app. induction k as [|k IH]; [done |]. simpl. rewrite filter_cons_False by naive_solver. exact IH. Qed.
Lemma dots_unique k k' s s' : startswith s "./" = false → startswith s' "./" = false → dot_slashes k ++ s = dot_slashes k' ++ s' → s = s'.
Proof.
  intros Hs Hs'. revert k'. induction k as [|k IH]; intros [|k'] H; rewrite ?dots_cons in H; [done | | |].
  - change (s = "."%char :: SLASH :: dot_slashes k' ++ s') in H. by rewrite H in Hs.
  - change ("."%char :: SLASH :: dot_slashes k ++ s = s') in H. by rewrite <- H in Hs'.
  - injection H as H. by eapply IH.
Qed.
Lemma strip_dots fuel name : ∃ k, name = dot_slashes k ++ strip_dot_slash fuel name.
Proof.
  revert name. induction fuel as [|fuel IH]; intros name; [by exists 0%nat |]. cbn [strip_dot_slash].
  destruct (startswith name "./") eqn:E; [| by exists 0%nat]. apply startswith_spec in E as [t ->].
  destruct (IH (drop 2 ("./" ++ t))) as [k Hk]. exists (S k). rewrite dots_cons, <- Hk. done.
Qed.
Lemma clean_archive_path_denotes name path : clean_archive_path name = Ok path ↔ denotes name path.
Proof.
  unfold clean_archive_path. cbv zeta. pose proof (strip_dot_slash_done (length name) name (le_n _)) as Hdone.
  destruct (strip_dots (length name) name) as [k Hk]. set (s := strip_dot_slash (length name) name) in *. clearbody s. subst name.
  assert (∀ c, c ≠ "."%char → c ≠ SLASH → c ∈ dot_slashes k ++ s ↔ c ∈ s) as Hchar.
  { intros c H1 H2. rewrite elem_of_app. split; [| by right]. intros [Hin|?]; [| done]. exfalso. induction k as [|k IH]; [by apply not_elem_of_nil in Hin |].
    apply elem_of_cons in Hin as [|[|Hin]%elem_of_cons]; [done | done | by apply IH]. }
  assert (DOTDOT ∈ split_on SLASH (dot_slashes k ++ s) ↔ DOTDOT ∈ split_on SLASH s) as Hdd.
  { rewrite split_dots, elem_of_app. split; [| by right]. intros [[Hin _]%elem_of_replicate|?]; done. }
  assert ((∀ k' t, dot_slashes k ++ s ≠ dot_slashes k' ++ SLASH :: t) ↔ startswith s "/" = false) as Habs.
  { rewrite <- not_true_iff_false, startswith_spec. split.
    - intros H [t ->]. by apply (H k t).
    - intros H k' t Heq. apply H. exists t. by eapply dots_unique. }
  unfold denotes. rewrite (Hchar "000"%char), Hdd, Habs, components_dots by done. clear Hchar Hdd Habs.
  assert (as_posix (parts s) = match components s with [] => DOT | ps => join [SLASH] ps end) as Hposix.
  { change (parts s) with (components s). by destruct (components s). }
  destruct ((s == []) || (s == ".")) eqn:E.
  { apply orb_true_iff in E as [->%bool_decide_eq_true | ->%bool_decide_eq_true]; (split; [intros [= <-] | by intros (_ & _ & _ & ->)]);
      (split_and!; [by apply has_char_false | by apply (bool_decide_unpack _) | done | done]). }
  assert (existsb (λ part, (part == []) || (part == ".") || (part == "..")) (parts s) = false ↔ DOTDOT ∉ split_on SLASH s) as Hparts.
  { rewrite existsb_false, Forall_forall. split.
    - intros H Hin. assert (DOTDOT ∈ parts s) as Hp by (by apply list_elem_of_filter). by specialize (H _ Hp).
    - intros H p [[H1 H2] Hin]%list_elem_of_filter. rewrite (bool_decide_false (p = [])), (bool_decide_false (p = ".")), (bool_decide_false (p = "..")); [done | | done | done].
      intros Heq. apply H. change (p = DOTDOT) in Heq. by subst p. }
  rewrite <- Hparts, <- Hposix, <- has_char_false, bind_Ok. setoid_rewrite bind_Ok. setoid_rewrite refuse_if_Ok. setoid_rewrite orb_false_iff. split.
  - intros ([] & [? ?] & [] & ? & [= <-]). done.
  - intros (? & ? & ? & ->). exists (). split; [done |]. by exists ().
Qed.

(** Every path an archive may hold is the root or a relative path of
    ordinary names: no empty, [.] or [..] part, no leading slash, no NUL. *)
Theorem clean_archive_path_safe name path : clean_archive_path name = Ok path → clean_path path.
Proof.
  unfold clean_archive_path. cbv zeta. pose proof (strip_dot_slash_done (length name) name (le_n _)) as Hdone.
  set (s := strip_dot_slash (length name) name) in *. intros H.
  destruct ((s == []) || (s == ".")) eqn:E; [injection H as <-; by left |].
  guard_inv H as Hg. guard_inv H as Hp. injection H as <-. b2p. right. exists (parts s).
  assert (Forall part_ok (parts s)) as Hok.
  { rewrite existsb_false in Hp. rewrite Forall_forall in Hp |- *. intros p Hin. specialize (Hp p Hin). b2p.
    apply list_elem_of_filter in Hin as [_ Hin]. pose proof (split_on_no_sep SLASH s) as Hs. pose proof (split_on_chars SLASH s) as Hc.
    rewrite Forall_forall in Hs, Hc. repeat split; try done; [by apply Hs |]. intros Hz.
    apply has_char_false in H as []. by eapply Hc. }
  assert (parts s ≠ []) as Hne.
  { destruct (split_on SLASH s) as [|p ps] eqn:Es; [by apply split_on_nonempty in Es |].
    assert (SLASH ∉ p) as Hsp by (pose proof (split_on_no_sep SLASH s) as Hs; rewrite Es in Hs; by apply Forall_cons in Hs as [? _]).
    pose proof (join_split SLASH s) as Hj. rewrite Es in Hj. unfold parts. rewrite Es, filter_cons.
    case_decide as Hd; [done |]. exfalso. apply not_and_l in Hd as [Hd|Hd]; apply dec_stable in Hd; subst p.
    - destruct ps as [|q ps]; [by destruct H1 |]. apply not_true_iff_false in H0 as []. apply startswith_spec.
      exists (join [SLASH] (q :: ps)). by rewrite <-Hj.
    - destruct ps as [|q ps]; [by destruct H2 |]. apply not_true_iff_false in Hdone as []. apply startswith_spec.
      exists (join [SLASH] (q :: ps)). by rewrite <-Hj. }
  split; [done |]. split; [done |]. unfold as_posix. by rewrite bool_decide_false.
Qed.

(** ** Relative symbolic links *)
Definition depth (ps : list pystr) : Z := foldr (λ p d, if p == DOTDOT then d - 1 else d + 1) 0 ps.
(** Following the parts one by one never climbs above the root. *)
Definition stays_inside (ps : list pystr) : Prop := ∀ k, 0 ≤ depth (take k ps).

Lemma depth_snoc ps p : depth (ps ++ [p]) = depth ps + (if p == DOTDOT then -1 else 1).
Proof. unfold depth. induction ps as [|q ps IH]; simpl; [case_bool_decide; lia |]. rewrite IH. do 2 case_bool_decide; lia. Qed.
Lemma stays_inside_snoc ps p : stays_inside (ps ++ [p]) ↔ stays_inside ps ∧ 0 ≤ depth (ps ++ [p]).
Proof.
  split.
  - intros H. split; [| specialize (H (length (ps ++ [p]))); by rewrite take_ge in H].
    intros k. destruct (decide (k ≤ length ps)%nat) as [Hk|Hk].
    + specialize (H k). by rewrite take_app_le in H.
    + rewrite take_ge by lia. specialize (H (length ps)). by rewrite take_app_length in H.
  - intros [H Hd] k. destruct (decide (k ≤ length ps)%nat) as [Hk|Hk]; [rewrite take_app_le by done; apply H |].
    rewrite take_ge; [done |]. rewrite length_app. simpl. lia.
Qed.

(** The stack of [normpath]: what stands above the root, then the [..] that
    could not be removed. *)
Lemma norm_stack ps : ∃ up k, foldl norm_step [] ps = up ++ replicate k DOTDOT ∧ (DOTDOT ∉ up) ∧
  (k = 0%nat ↔ stays_inside ps) ∧ (k = 0%nat → len up = depth ps) ∧ (∀ p, p ∈ up → p ∈ ps).
Proof.
  induction ps as [|p ps (up & k & Hf & Hu & Hk & Hd & Hin)] using rev_ind.
  { exists [], 0%nat. split_and!; try done; try apply not_elem_of_nil; try (by intros ? ?%not_elem_of_nil). split; [intros _ k; by rewrite take_nil | done]. }
  setoid_rewrite stays_inside_snoc. setoid_rewrite <-Hk. rewrite foldl_app, Hf, depth_snoc. simpl. unfold norm_step. case_bool_decide as Hp.
  - subst p. destruct up as [|top up].
    + destruct k as [|k]; simpl.
      * exists [], 1%nat. specialize (Hd eq_refl). change (len []) with 0 in Hd. split_and!; try done; try apply not_elem_of_nil; try (by intros ? ?%not_elem_of_nil). split; [done | intros [_ ?]; lia].
      * exists [], (S (S k)). split_and!; try done; try apply not_elem_of_nil; try (by intros ? ?%not_elem_of_nil). split; [done | by intros [? _]].
    + apply not_elem_of_cons in Hu as [Ht Hu]. simpl. rewrite bool_decide_false by done. exists up, k.
      assert (k = 0%nat → 1 ≤ depth ps) as Hdp.
      { intros Hz. specialize (Hd Hz). unfold len in Hd. simpl in Hd. lia. }
      split_and!; try done; [split; [intros Hz; split; [done | specialize (Hdp Hz); lia] | by intros [? _]] | | intros q Hq; apply elem_of_app; left; apply Hin; by right].
      intros Hz. specialize (Hd Hz). unfold len in *. simpl in Hd. lia.
  - exists (p :: up), k. assert (k = 0%nat → 0 ≤ depth ps) as Hdp by (intros Hz; rewrite <-(Hd Hz); apply len_nonneg).
    split_and!; try done; [by apply not_elem_of_cons | split; [intros Hz; split; [done | specialize (Hdp Hz); lia] | by intros [? _]] | |].
    + intros Hz. specialize (Hd Hz). unfold len in *. simpl. lia.
    + intros q [->|Hq]%elem_of_cons; apply elem_of_app; [right; by left | left; auto].
Qed.

Lemma no_slash_dotdot : SLASH ∉ DOTDOT.
Proof. by apply has_char_false. Qed.
Lemma escapes_exact ps : Forall (λ p, SLASH ∉ p) ps → escapes (normpath ps) = false ↔ stays_inside ps.
Proof.
  intros Hs. destruct (norm_stack ps) as (up & k & Hf & Hu & Hk & _ & Hin). unfold normpath. rewrite Hf, <-Hk, reverse_app, reverse_replicate.
  unfold escapes, as_posix. destruct k as [|k]; simpl.
  - split; [done |]. intros _. destruct (reverse up) as [|p qs] eqn:Er; [done |].
    rewrite (bool_decide_false (p :: qs = [])) by done. apply orb_false_iff. assert (p ∈ up) as Hp by (apply elem_of_reverse; rewrite Er; by left).
    assert (SLASH ∉ p) as Hsp by (rewrite Forall_forall in Hs; auto). split.
    + apply bool_decide_false. intros Hj. destruct (join_first p qs) as [E|[t E]]; rewrite E in Hj; [by subst |].
      apply no_slash_dotdot. rewrite <-Hj. set_solver.
    + apply not_true_iff_false. intros Hst. apply (first_part_prefix p qs DOTDOT) in Hst; [by subst | done | exact no_slash_dotdot].
  - split; [| done]. destruct (replicate k DOTDOT ++ reverse up); [done |]. by intros [_ H]%orb_false_iff.
Qed.

(** ** What an archive may hold *)
(** The credentials of a deployment, by their places below the root. *)
Definition credential (name : pystr) : Prop :=
  name ∈ ["etc/wireguard/wg0.conf" : pystr; "home/rog5/.config/krdpserverrc" : pystr] ∨
  ∃ place rest, place ∈ ["etc/ssh/ssh_host_" : pystr; "etc/NetworkManager/system-connections/" : pystr; "home/rog5/.local/share/kwalletd/" : pystr;
    "var/lib/rog5-agent/private/" : pystr; "etc/pacman.d/gnupg/" : pystr] ∧ name = place ++ rest.
Lemma credential_spec name : has_embedded_credential name = false ↔ ¬ credential name.
Proof.
  rewrite <- not_true_iff_false. apply not_iff_compat. unfold has_embedded_credential, credential.
  rewrite !orb_true_iff, !bool_decide_eq_true, !startswith_spec. split.
  - intros [[[[[[H|H]|H]|H]|H]|H]|H]; try (left; rewrite H; repeat constructor); destruct H as [t ->]; right; eexists _, t; (split; [| reflexivity]); repeat constructor.
  - intros [Hin|(place & t & Hin & ->)]; rewrite !elem_of_cons, elem_of_nil in Hin; destruct_or?; subst; try done; eauto 10.
Qed.
Definition member_ok (name : pystr) (m : member) : Prop :=
  name ≠ SEAL_NAME ∧ ¬ credential name ∧ m.(m_sparse) = false ∧
  match m.(m_type) with
  | IsFile | IsDir => True
  | IsSym => m.(m_linkname) ≠ [] ∧
      (startswith m.(m_linkname) "/" = true ∨ stays_inside (removelast (parts name) ++ parts m.(m_linkname)))
  | IsLnk => ∃ target, denotes m.(m_linkname) target ∧ target ≠ DOT
  | IsDev | IsOther => False
  end.
#[export] Instance member_type_eq_dec : EqDecision member_type.
Proof. solve_decision. Defined.
Definition typed (t : member_type) (ms : list member) : Z := len (filter (λ m, m.(m_type) = t) ms).
Definition count_all (c : counts) (ms : list member) : counts :=
  let (e, f, d, s, h) := c in
  Counts (e + len ms) (f + typed IsFile ms) (d + typed IsDir ms) (s + typed IsSym ms) (h + typed IsLnk ms).

Lemma depth_no_dotdot ps : existsb (λ p, p == DOTDOT) ps = false → stays_inside ps.
Proof.
  intros H k. assert (existsb (λ p, p == DOTDOT) (take k ps) = false) as Hk.
  { rewrite existsb_false in *. by apply Forall_take. }
  revert Hk. unfold depth. generalize (take k ps). induction l as [|p l IH]; simpl; [lia |]. intros [Hp Hl]%orb_false_iff.
  rewrite Hp. specialize (IH Hl). lia.
Qed.
Lemma parts_no_slash s : Forall (λ p, SLASH ∉ p) (parts s).
Proof. apply Forall_forall. intros p [_ Hin]%list_elem_of_filter. pose proof (split_on_no_sep SLASH s) as H. rewrite Forall_forall in H. auto. Qed.
Lemma removelast_sub {A} (l : list A) x : x ∈ removelast l → x ∈ l.
Proof. rewrite !list_elem_of_In. induction l as [|y l IH]; [done |]. simpl. destruct l; [done |]. intros [->|H]; [by left | right; auto]. Qed.

Lemma check_symlink_Ok name linkname u :
  check_symlink name linkname = Ok u ↔
  linkname ≠ [] ∧ (startswith linkname "/" = true ∨ stays_inside (removelast (parts name) ++ parts linkname)).
Proof.
  destruct u. unfold check_symlink. rewrite bind_Ok. setoid_rewrite refuse_if_Ok. setoid_rewrite bool_decide_eq_false.
  assert (Forall (λ p, SLASH ∉ p) (removelast (parts name) ++ parts linkname)) as Hs.
  { apply Forall_app. split; [| apply parts_no_slash]. pose proof (parts_no_slash name) as H. rewrite Forall_forall in *.
    intros p Hp. by apply H, removelast_sub. }
  destruct (startswith linkname "/"); [naive_solver |]. cbv zeta. destruct (existsb _ _) eqn:E.
  - setoid_rewrite refuse_if_Ok. setoid_rewrite (escapes_exact _ Hs). naive_solver.
  - apply depth_no_dotdot in E. naive_solver.
Qed.
Lemma count_member_Ok c name m c' :
  name ≠ SEAL_NAME → ¬ credential name → m.(m_sparse) = false →
  count_member c name m = Ok c' ↔ member_ok name m ∧ c' = count_all c [m].
Proof.
  intros H1 H2 H3. unfold count_member, member_ok, count_all, typed. destruct c as [e f d s h]. rewrite !filter_cons, !filter_nil.
  destruct (m_type m); simpl; change (len [m]) with 1; change (len []) with 0; rewrite ?Z.add_0_r.
  - naive_solver.
  - naive_solver.
  - rewrite bind_Ok. setoid_rewrite check_symlink_Ok. naive_solver.
  - rewrite bind_Ok. setoid_rewrite bind_Ok. setoid_rewrite refuse_if_Ok. setoid_rewrite bool_decide_eq_false. setoid_rewrite clean_archive_path_denotes. naive_solver.
  - naive_solver.
  - naive_solver.
Qed.

(** The names the members get, in order. *)
Definition named (members : list member) (names : list pystr) : Prop :=
  Forall2 (λ m name, denotes m.(m_name) name ∧ member_ok name m) members names ∧ NoDup names.
Definition archive_fields (c : counts) : list (pystr * pystr) :=
  [("archive_entries" : pystr, str_of_Z c.(archive_entries)); ("archive_regular_files" : pystr, str_of_Z c.(archive_regular_files));
   ("archive_directories" : pystr, str_of_Z c.(archive_directories)); ("archive_symlinks" : pystr, str_of_Z c.(archive_symlinks));
   ("archive_hardlinks" : pystr, str_of_Z c.(archive_hardlinks))].

Lemma inspect_member_Ok st m st' :
  inspect_member st m = Ok st' ↔
  ∃ name, denotes m.(m_name) name ∧ (name ∉ st.1) ∧ member_ok name m ∧ st' = ({[ name ]} ∪ st.1, count_all st.2 [m]).
Proof.
  unfold inspect_member. split.
  - intros H. bind_inv H as name Hn. guard_inv H as Hd. guard_inv H as Hs. guard_inv H as Hc%credential_spec. guard_inv H as Hsp.
    apply clean_archive_path_denotes in Hn. bind_inv H as c Hm. injection H as <-. b2p. apply count_member_Ok in Hm as [Hm ->]; [| done ..]. by exists name.
  - intros (name & Hn%clean_archive_path_denotes & Hni & Hm & ->). rewrite Hn, Ok_bind. pose proof Hm as (H1 & H2%credential_spec & H3 & _).
    rewrite !refuse_if_pass by (rewrite ?bool_decide_eq_false; done). apply bind_Ok. eexists. split; [| done]. apply count_member_Ok; [done | by apply credential_spec | done..].
Qed.
Lemma count_all_cons c m ms : count_all (count_all c [m]) ms = count_all c (m :: ms).
Proof.
  destruct c. unfold count_all, typed, len. rewrite !filter_cons, !filter_nil. simpl length.
  f_equal; repeat case_decide; simpl length; lia.
Qed.
Lemma inspect_members_Ok members ns c c' :
  (∃ ns', fold_res inspect_member (ns, c) members = Ok (ns', c')) ↔
  ∃ names, named members names ∧ Forall (λ n, n ∉ ns) names ∧ c' = count_all c members.
Proof.
  revert ns c. induction members as [|m ms IH]; intros ns c; simpl.
  - split.
    + intros (ns' & [= <- <-]). exists []. split; [split; [constructor | apply NoDup_nil_2] |]. split; [by apply Forall_nil |].
      destruct c. unfold count_all, typed, len. simpl. f_equal; lia.
    + intros (names & _ & _ & ->). exists ns. destruct c. unfold count_all, typed, len. simpl. repeat f_equal; lia.
  - setoid_rewrite bind_Ok. setoid_rewrite inspect_member_Ok. split.
    + intros (ns' & a & (name & Hn & Hni & Hm & ->) & Hf). simpl in Hf.
      destruct (proj1 (IH _ _) (ex_intro _ ns' Hf)) as (names & [H2 Hd] & Hall & ->). exists (name :: names).
      rewrite count_all_cons. split; [split; [by constructor | apply NoDup_cons; split; [| done]] | split; [| done]].
      * intros Hin. rewrite Forall_forall in Hall. specialize (Hall name Hin). set_solver.
      * apply Forall_cons. split; [done |]. eapply Forall_impl; [exact Hall | set_solver].
    + intros (names & [H2 Hd] & Hall & Hc'). rewrite <-count_all_cons in Hc'. inversion H2 as [|? name ? names' [Hn Hm] H2' E1 E2]; subst names.
      apply NoDup_cons in Hd as [Hni Hd]. apply Forall_cons in Hall as [Hnn Hall].
      destruct (proj2 (IH ({[ name ]} ∪ ns) (count_all c [m]))) as [ns' Hf].
      { exists names'. split; [done |]. split; [| done]. rewrite Forall_forall in *. intros n Hin. specialize (Hall n Hin).
        apply not_elem_of_union. split; [| done]. intros ->%elem_of_singleton. done. }
      exists ns'. eexists. split; [| exact Hf]. by exists name.
Qed.

(** C18. The archive check accepts exactly the archives that are regular files
    read to their end, hold at least one member, whose members denote
    different paths, each without NUL or [..] and not from the root of the
    host, of which none is the seal, a deployment credential, sparse, a device
    or of unknown type, whose relative symbolic links never climb above the
    root and whose hard links denote a path below it; it reports how many of
    each kind there are. *)
Theorem inspect_archive_exact regular members failure fields :
  inspect_archive regular members failure = Ok fields ↔
  regular = true ∧ failure = None ∧ members ≠ [] ∧
  (∃ names, named members names) ∧ fields = archive_fields (count_all (Counts 0 0 0 0 0) members).
Proof.
  assert (∀ c, archive_entries (count_all c members) = archive_entries c + len members) as Hlen by (by intros []).
  unfold inspect_archive. split.
  - intros H. guard_inv H as Hr. bind_inv H as [ns c] Hf. destruct failure as [error|]; [done |]. cbv zeta in H.
    guard_inv H as He. injection H as <-. b2p.
    destruct (proj1 (inspect_members_Ok members ∅ (Counts 0 0 0 0 0) c) (ex_intro _ ns Hf)) as (names & Hn & _ & ->).
    split_and!; [done | done | | eauto | done]. intros ->. by apply He.
  - intros (-> & -> & Hne & (names & Hn) & ->). rewrite refuse_if_pass by done.
    destruct (proj2 (inspect_members_Ok members ∅ (Counts 0 0 0 0 0) (count_all (Counts 0 0 0 0 0) members))) as [ns Hf].
    { exists names. split; [done |]. split; [| reflexivity]. apply Forall_forall. intros n _. apply not_elem_of_empty. }
    rewrite Hf, Ok_bind. cbv zeta. cbn [snd]. rewrite refuse_if_pass; [done |]. rewrite Hlen. apply Z.eqb_neq.
    destruct members; [done |]. unfold len. simpl. lia.
Qed.

Lemma clean_archive_path_safe_witness : clean_archive_path "././etc//./ssh/" = Ok ("etc/ssh" : pystr) ∧ clean_path "etc/ssh".
Proof.
  assert (clean_archive_path "././etc//./ssh/" = Ok ("etc/ssh" : pystr)) as H by (vm_compute; reflexivity).
  split; [exact H | exact (clean_archive_path_safe _ _ H)].
Defined.
