(* ===== verification/CpuCap.v ===== *)
(** * The CPU frequency cap

    scripts/device/cpu-frequency-cap.py: lowering the maximum frequency of the
    three cpufreq policies for an experiment and putting it back ([run]), the
    wait for the kernel to follow a write ([settled]) and the check of what
    sysfs shows ([validate]).  The backend (sysfs), the guard, the action and
    the clock are parameters: code over an unknown world that may raise at any
    call.  Time is in nanoseconds. *)

From S2P Require Import Prelude PyStr.

Definition CAPS : list (pystr * Z) := [("policy0" : pystr, 1209600); ("policy4" : pystr, 1555200); ("policy7" : pystr, 1555200)].
Definition CPUS : list (pystr * pystr) :=
  [("policy0" : pystr, "0 1 2 3" : pystr); ("policy4" : pystr, "4 5 6" : pystr); ("policy7" : pystr, "7" : pystr)].
Definition SETTLE_SECONDS : Z := 1000000000.
Definition POLL : Z := 20000000. (* .02 s *)
Definition SETTLE_ROUNDS : positive := 2 ^ 31.

Definition names : list pystr := map fst CAPS.
Definition lookup_in {A} (l : list (pystr * A)) (name : pystr) : option A := snd <$> List.find (λ kv, kv.1 == name) l.
Definition cap (name : pystr) : Z := default 0 (lookup_in CAPS name).

(** The fields of one policy, of the types [Sysfs.snapshot] builds. *)
Record policy := Policy {
  cpus : pystr; driver : pystr; governor : pystr; minimum : Z; maximum : Z; frequencies : list Z
}.
#[export] Instance policy_eq_dec : EqDecision policy.
Proof. solve_decision. Defined.
Abbreviation snap := (gmap pystr policy).
Definition with_maximum (v : Z) (p : policy) : policy := Policy p.(cpus) p.(driver) p.(governor) p.(minimum) v p.(frequencies).

Definition validate_policy (name : pystr) (p : policy) : res unit :=
  need ((p.(cpus) == default [] (lookup_in CPUS name)) && (p.(driver) == "qcom-cpufreq-hw") && (p.(governor) == "schedutil")) "policy identity" ;;
  need ((0 <? p.(minimum)) && (p.(minimum) <=? cap name) && (cap name <=? p.(maximum))) "cap must only lower maximum above minimum" ;;
  need (forallb (λ v, 0 <? v) p.(frequencies) && bool_decide (cap name ∈ p.(frequencies))) "cap absent from hardware frequency table".
Definition validate (value : snap) : res unit :=
  need (dom value == list_to_set names) "unexpected CPU policy set" ;;
  for_each (λ name, match value !! name with Some p => validate_policy name p | None => Raise (Exn KeyError name) end) names.

Section cap_run.
Context {W A : Type}.
Context (snapshot : M W snap) (set_maximum : pystr → Z → M W unit) (guard : M W unit) (action : M W A).
Context (monotonic : M W Z) (sleep : Z → M W unit).

Definition require (ok : bool) (why : pystr) : M W unit := lift (need ok why).

(** ** Waiting for the kernel *)
Definition settle_round {P} `{EqDecision P} (read : M W P) (before after : P) (deadline : Z) (_ : unit) : M W (unit + unit) :=
  current ← read;
  t ← monotonic;
  require (t <=? deadline) "CPU policy update deadline" ;;
  if current == after then mret (inr ())
  else
    require (current == before) "unexpected CPU policy during update" ;;
    t ← monotonic;
    sleep (Z.min POLL (Z.max 0 (deadline - t))) ;;
    mret (inl ()).
Definition settled {P} `{EqDecision P} (read : M W P) (before after : P) : M W unit :=
  t ← monotonic;
  while SETTLE_ROUNDS (settle_round read before after (t + SETTLE_SECONDS)) ().

(** ** The transaction *)
Record vars := Vars { entered : list pystr; during : option snap; result : option A; retained : bool }.
Abbreviation proc := (M (vars * W)).
Definition sys {B} (m : M W B) : proc B := λ '(v, w), let '(r, w') := m w in (r, (v, w')).
Definition get {B} (k : vars → proc B) : proc B := λ '(v, w), k v (v, w).
Definition assign (f : vars → vars) : proc unit := λ '(v, w), (Ok (), (f v, w)).

(** [{n: dict(p, maximum=CAPS[n] if n in entered else p['maximum'])}] *)
Definition capped (entered : list pystr) (original : snap) : snap :=
  map_imap (λ n p, Some (if decide (n ∈ entered) then with_maximum (cap n) p else p)) original.

Definition apply_one (original : snap) (name : pystr) (limit : Z) : proc unit := get (λ v,
  sys guard ;;
  current ← sys snapshot;
  let expected := capped v.(entered) original in
  sys (require (current == expected) "policy changed before apply") ;;
  assign (λ v, Vars (v.(entered) ++ [name]) v.(during) v.(result) v.(retained)) ;;
  sys (set_maximum name limit) ;;
  sys (settled snapshot current (alter (with_maximum limit) name expected))).

Definition try_body (original : snap) (retain_on_success : bool) : proc unit :=
  each (λ '(name, limit), apply_one original name limit) CAPS ;;
  sys guard ;;
  observed ← sys snapshot;
  assign (λ v, Vars v.(entered) (Some observed) v.(result) v.(retained)) ;;
  answer ← sys action;
  assign (λ v, Vars v.(entered) v.(during) (Some answer) v.(retained)) ;;
  if (retain_on_success : bool) then
    sys guard ;;
    now ← sys snapshot;
    sys (require (now == observed) "policy changed before retention") ;;
    assign (λ v, Vars v.(entered) v.(during) v.(result) true)
  else mret ().

Definition snapshot_of (name : pystr) : M W policy :=
  s ← snapshot;
  lift (of_option (s !! name) KeyError name).
Definition restore_body (original : snap) (name : pystr) : M W unit :=
  current ← snapshot_of name;
  prior ← lift (of_option (original !! name) KeyError name);
  require (with_maximum 0 current == with_maximum 0 prior) "policy identity changed" ;;
  require ((current.(maximum) =? cap name) || (current.(maximum) =? prior.(maximum))) "external maximum change" ;;
  set_maximum name prior.(maximum) ;;
  settled (snapshot_of name) current prior.
Definition recorded (c : exn_class) : bool :=
  is_oserror c || match c with ValueError | UnicodeError | KeyError | TypeError => true | _ => false end.
Definition restore_one (original : snap) (errors : list pystr) (name : pystr) : M W (list pystr) :=
  catch (restore_body original name ;; mret errors) recorded (λ e, mret (errors ++ [name ++ ": " ++ exn_msg e])).
Definition restore (original : snap) : proc unit := get (λ v,
  errors ← sys (fold_m (restore_one original) [] (if v.(retained) then [] else reverse v.(entered)));
  match errors with
  | [] => mret ()
  | _ => raise ValueError ("restoration incomplete: " ++ join "; " errors)
  end).

Record outcome := Outcome {
  o_before : snap; o_during : option snap; o_after : snap; o_action : option A; o_restoration : pystr; o_policy_retained : bool
}.
Definition transaction (original : snap) (retain_on_success : bool) : proc outcome :=
  finally (try_body original retain_on_success) (restore original) ;;
  get (λ v,
    after ← sys snapshot;
    sys (require ((if v.(retained) then v.(during) else Some original) == Some after) "post-transaction policy changed") ;;
    mret (Outcome original v.(during) after v.(result) (if v.(retained) then "NOT REQUESTED" else "PASS") v.(retained))).
Definition local_vars {B} (m : proc B) : M W B := λ w, let '(r, (_, w')) := m (Vars [] None None false, w) in (r, w').
Definition run (retain_on_success : bool) : M W outcome :=
  guard ;;
  original ← snapshot;
  lift (validate original) ;;
  local_vars (transaction original retain_on_success).
End cap_run.

(** ** The kernel's side
    [visible] is what a snapshot shows, [requested] the limit last stored.
    The kernel takes a request over at a moment of its own, a failed store may
    or may not have reached it, and any call may be interrupted. *)
Section laws.
Context {W A : Type}.
Context (snapshot : M W snap) (set_maximum : pystr → Z → M W unit) (guard : M W unit) (action : M W A).
Context (monotonic : M W Z) (sleep : Z → M W unit).
(** [ready] says that the backend can be used: its descriptors are open. *)
Context (visible : W → snap) (requested : W → pystr → Z) (now : W → Z) (ready : W → Prop).
(** What an answer of the action says. *)
Context (answers : A → Prop).

(** Every maximum shown in [w'] is the one of [w] or one of [choices]. *)
Definition shows (w w' : W) (choices : pystr → list Z) : Prop :=
  ∀ n, match visible w !! n with
       | Some q => ∃ m, visible w' !! n = Some (with_maximum m q) ∧ (m = q.(maximum) ∨ m ∈ choices n)
       | None => visible w' !! n = None
       end.
Definition evolves (w w' : W) : Prop :=
  (∀ n, requested w' n = requested w n) ∧ now w ≤ now w' ∧ shows w w' (λ n, [requested w n]) ∧ ready w'.
(** A failure the restoration survives: a refusal, a failing call, a signal. *)
Definition interrupted {B} (r : res B) : Prop := match r with Ok _ => True | Raise e => recorded e.(exn_cls) = true end.
Definition ended {B} (r : res B) : Prop := match r with Ok _ => True | Raise e => e.(exn_cls) ≠ OutOfFuel end.
(** What a snapshot shows of a policy was visible at some moment of it: the
    attributes are read one by one. *)
Definition seen (w w' : W) (n : pystr) (p : option policy) : Prop := ∃ u, evolves w u ∧ evolves u w' ∧ visible u !! n = p.

Record backend : Prop := {
  law_snapshot : ∀ w, ready w → wp snapshot (λ r w', evolves w w' ∧ now w < now w' ∧ interrupted r ∧
    ∀ s, r = Ok s → ∀ n, seen w w' n (s !! n)) w;
  law_write : ∀ w n v, ready w → wp (set_maximum n v) (λ r w', ready w' ∧ interrupted r ∧ now w ≤ now w' ∧
    (∀ m, m ≠ n → requested w' m = requested w m) ∧
    (requested w' n = v ∨ requested w' n = requested w n ∧ r ≠ Ok ()) ∧
    shows w w' (λ m, [requested w m; requested w' m])) w
}.
Record cpufreq : Prop := {
  law_backend : backend;
  law_guard : ∀ w, ready w → wp guard (λ r w', evolves w w' ∧ ended r) w;
  law_action : ∀ w, ready w → wp action (λ r w', evolves w w' ∧ ended r ∧ ∀ a, r = Ok a → answers a) w;
  law_clock : ∀ w, ready w → wp monotonic (λ r w', evolves w w' ∧ interrupted r ∧ ∀ t, r = Ok t → now w ≤ t ≤ now w') w;
  law_sleep : ∀ w d, ready w → wp (sleep d) (λ r w', evolves w w' ∧ interrupted r) w
}.
Context (Laws : cpufreq).

Lemma evolves_ready w w' : evolves w w' → ready w'.
Proof. by intros (_ & _ & _ & H). Qed.
Lemma interrupted_recorded {B} (e : exn) : @interrupted B (Raise e) → recorded e.(exn_cls) = true.
Proof. done. Qed.
Lemma interrupted_ended {B} (r : res B) : interrupted r → ended r.
Proof. destruct r as [|e]; [done |]. simpl. intros H Hc. by rewrite Hc in H. Qed.

Lemma settled_wp {P} `{EqDecision P} (read : M W P) before after (I I' : W → Prop) w :
  (∀ w, I w → ready w) → (∀ w w', evolves w w' → I w → I w') → (∀ w w', evolves w w' → I' w → I' w') →
  (∀ w, I w → wp read (λ r w', I w' ∧ now w < now w' ∧
    match r with Ok x => x = after → I' w' | Raise e => recorded e.(exn_cls) = true end) w) →
  I w → wp (settled monotonic sleep read before after)
    (λ r w', I w' ∧ match r with Ok _ => I' w' | Raise e => recorded e.(exn_cls) = true end) w.
Proof using Laws.
  intros Hrdy HI HI' Hread Hw. unfold settled. apply wp_bind. eapply wp_mono; [by apply (law_clock Laws), Hrdy |].
  intros [t0|e] w0 (Hev & Hi & Ht); [| split; [by eapply HI | by eapply interrupted_recorded]].
  specialize (Ht t0 eq_refl). set (deadline := t0 + SETTLE_SECONDS).
  apply (wp_while _ (λ _ w, I w) (λ _ w, Z.max 0 (deadline + 1 - now w))); [| by eapply HI |].
  2: { change (Z.pos SETTLE_ROUNDS) with 2147483648. unfold deadline, SETTLE_SECONDS. lia. }
  clear w Hw Hev Ht Hi w0. intros [] w Hw. split; [lia |]. unfold settle_round. apply wp_bind.
  eapply wp_mono; [by apply Hread |]. intros [x|e] w1 (H1 & Hn1 & Hx); [| done].
  apply wp_bind. eapply wp_mono; [by apply (law_clock Laws), Hrdy |].
  intros [t|e] w2 (Hev2 & Hi2 & Ht2); [| split; [by eapply HI | by eapply interrupted_recorded]]. specialize (Ht2 t eq_refl).
  apply wp_bind, wp_lift. unfold need. destruct (t <=? deadline) eqn:Ed; [| split; [by eapply HI | done]]. b2p.
  case_bool_decide as Hx'; [apply wp_mret; split; [by eapply HI | eapply HI'; eauto] |].
  apply wp_bind, wp_lift. unfold need. case_bool_decide; [| split; [by eapply HI | done]].
  apply wp_bind. eapply wp_mono; [by eapply (law_clock Laws), evolves_ready |].
  intros [t'|e] w3 (Hev3 & Hi3 & _); [| split; [eapply HI; [done |]; by eapply HI | by eapply interrupted_recorded]].
  apply wp_bind. eapply wp_mono; [by eapply (law_sleep Laws), evolves_ready |].
  assert (I w3) as H3 by (eapply HI; [done |]; by eapply HI).
  intros [[]|e] w4 (Hev4 & Hi4); [| split; [by eapply HI | by eapply interrupted_recorded]].
  apply wp_mret. split; [by eapply HI |]. destruct Hev2 as (_ & ? & _), Hev3 as (_ & ? & _), Hev4 as (_ & ? & _). lia.
Qed.

(** ** What holds while the caps go in and out
    Policies that are not [touched] show and request their original maximum;
    the touched ones the original or the cap. *)
Definition one_of (name : pystr) (p : policy) (m : Z) : Prop := m = p.(maximum) ∨ m = cap name.
Definition holding (original : snap) (touched : list pystr) (w : W) : Prop := ready w ∧ ∀ n,
  match original !! n with
  | Some p => ∃ m, visible w !! n = Some (with_maximum m p) ∧ one_of n p m ∧ one_of n p (requested w n) ∧
                (n ∉ touched → m = p.(maximum) ∧ requested w n = p.(maximum))
  | None => visible w !! n = None
  end.
Definition restored (original : snap) (w : W) : Prop :=
  visible w = original ∧ (∀ n p, original !! n = Some p → requested w n = p.(maximum)) ∧ ready w.

Lemma with_maximum_self p : with_maximum p.(maximum) p = p.
Proof. by destruct p. Qed.
Lemma holding_restored original w : holding original [] w ↔ restored original w.
Proof.
  split.
  - intros [Hrdy H]. split; [| split; [| done]].
    + apply map_eq. intros n. specialize (H n). destruct (original !! n) as [p|]; [| done].
      destruct H as (m & Hv & _ & _ & Hm). destruct Hm as [-> _]; [by apply not_elem_of_nil |]. by rewrite Hv, with_maximum_self.
    + intros n p Hp. specialize (H n). rewrite Hp in H. destruct H as (m & _ & _ & _ & Hm). by destruct Hm as [_ ?]; [apply not_elem_of_nil |].
  - intros (Hv & Hr & Hrdy). split; [done |]. intros n. destruct (original !! n) as [p|] eqn:E; [| by rewrite Hv]. exists p.(maximum).
    rewrite Hv, E, with_maximum_self, (Hr n p E). unfold one_of. auto.
Qed.
Lemma holding_mono original t1 t2 w : (∀ n, n ∈ t1 → n ∈ t2) → holding original t1 w → holding original t2 w.
Proof.
  intros Ht [Hrdy H]. split; [done |]. intros n. specialize (H n). destruct (original !! n) as [p|]; [| done].
  destruct H as (m & H1 & H2 & H3 & H4). exists m. split_and!; auto.
Qed.
Lemma holding_evolves original touched w w' : evolves w w' → holding original touched w → holding original touched w'.
Proof.
  intros (Hr & _ & Hs & Hrdy) [_ H]. split; [done |]. intros n. specialize (H n). specialize (Hs n). rewrite Hr. destruct (original !! n) as [p|]; [| by rewrite H in Hs].
  destruct H as (m & Hv & Hm & Hq & Hu). rewrite Hv in Hs. destruct Hs as (m' & Hv' & Hm'). exists m'. split; [done |].
  rewrite list_elem_of_singleton in Hm'. simpl in Hm'. unfold one_of in *. split_and!; [naive_solver | done |].
  intros Hn. specialize (Hu Hn). naive_solver.
Qed.
(** The policies of [l] show and request their cap. *)
Definition applied (original : snap) (l : list pystr) (w : W) : Prop := ∀ n p, n ∈ l → original !! n = Some p →
  requested w n = cap n ∧ visible w !! n = Some (with_maximum (cap n) p).
Lemma applied_shows original l w w' choices : (∀ n, n ∈ l → requested w' n = requested w n) →
  (∀ n m, n ∈ l → m ∈ choices n → m = requested w n) → shows w w' choices → applied original l w → applied original l w'.
Proof.
  intros Hr Hc Hs H n p Hn Hp. destruct (H n p Hn Hp) as [Hq Hv]. split; [by rewrite Hr |]. specialize (Hs n). rewrite Hv in Hs.
  destruct Hs as (m & -> & Hm). change (with_maximum m (with_maximum (cap n) p)) with (with_maximum m p).
  destruct Hm as [->|Hm]; [done |]. by rewrite (Hc n m Hn Hm), Hq.
Qed.
Lemma applied_evolves original l w w' : evolves w w' → applied original l w → applied original l w'.
Proof.
  intros (Hr & _ & Hs & _). apply (applied_shows _ _ _ _ _ (λ n _, Hr n)) with (2 := Hs). by intros n m _ ->%list_elem_of_singleton.
Qed.

Lemma holding_write original touched w n v p :
  original !! n = Some p → one_of n p v → n ∈ touched → holding original touched w →
  wp (set_maximum n v) (λ r w', interrupted r ∧ holding original touched w' ∧ (r = Ok () → requested w' n = v) ∧
    ∀ l, n ∉ l → applied original l w → applied original l w') w.
Proof using Laws.
  intros Hp Hv Hn [Hrdy H]. eapply wp_mono; [by apply (law_write (law_backend Laws)) |]. intros r w' (Hrdy' & Hi & _ & Hother & Hself & Hs).
  split; [done |]. split; [| split; [intros ->; destruct Hself as [?|[_ ?]]; done |]].
  2: { intros l Hl. apply (applied_shows _ _ _ _ _) with (3 := Hs); [intros m Hm; apply Hother; by intros -> |].
       intros m c Hm. rewrite (Hother m) by (by intros ->). rewrite !elem_of_cons, elem_of_nil. tauto. }
  split; [done |]. intros k. specialize (H k). specialize (Hs k).
  destruct (original !! k) as [q|] eqn:E; [| by rewrite H in Hs]. destruct H as (m & Hvis & Hm & Hq & Hu). rewrite Hvis in Hs.
  destruct Hs as (m' & Hv' & Hm'). exists m'. split; [done |]. simpl in Hm'. rewrite !elem_of_cons in Hm'.
  assert (one_of k q (requested w' k)) as Hrk.
  { destruct (decide (k = n)) as [->|Hne]; [| by rewrite Hother]. simplify_eq. by destruct Hself as [->|[-> _]]. }
  unfold one_of in *. split_and!; [| done |].
  - destruct Hm' as [->|[->|[->|?%not_elem_of_nil]]]; done.
  - intros Hk. destruct (decide (k = n)) as [->|Hne]; [done |]. specialize (Hu Hk). rewrite Hother in * by done.
    destruct Hm' as [->|[->|[->|?%not_elem_of_nil]]]; naive_solver.
Qed.
Lemma snapshot_of_wp original touched n p w : original !! n = Some p → holding original touched w →
  wp (snapshot_of snapshot n) (λ r w', holding original touched w' ∧ evolves w w' ∧ now w < now w' ∧
    match r with Ok q => seen w w' n (Some q) | Raise e => recorded e.(exn_cls) = true end) w.
Proof using Laws.
  intros Hp H. unfold snapshot_of. apply wp_bind. eapply wp_mono; [by apply (law_snapshot (law_backend Laws)), H |].
  intros [s|e] w' (Hev & Hn & Hi & Hs); [| split_and!; [by eapply holding_evolves | done | done | by eapply interrupted_recorded]].
  apply wp_lift. specialize (Hs s eq_refl n). assert (holding original touched w') as H' by (by eapply holding_evolves).
  destruct Hs as (u & Hu & Hu' & Hs). pose proof (proj2 (holding_evolves _ _ _ _ Hu H) n) as Hn'. rewrite Hp in Hn'. destruct Hn' as (m & Hm & _).
  rewrite Hm in Hs. rewrite <- Hs. split_and!; [done | done | done |]. by exists u.
Qed.

(** Once a policy shows and requests its original maximum it is untouched. *)
Lemma holding_settled original touched n p u w : original !! n = Some p → requested u n = p.(maximum) → visible u !! n = Some p →
  evolves u w → holding original touched u → holding original (filter (λ m, m ≠ n) touched) w.
Proof.
  intros Hp Hr Hv Hev [Hrdy Hh]. apply (holding_evolves _ _ _ _ Hev). split; [done |]. intros k. specialize (Hh k).
  destruct (original !! k) as [q|] eqn:E; [| done]. destruct Hh as (m & Hm & H1 & H2 & Hu).
  exists m. split_and!; try done. intros Hk. destruct (decide (k = n)) as [->|Hne].
  - assert (q = p) as -> by congruence. split; [| done]. rewrite Hv in Hm. apply (f_equal (fmap maximum)) in Hm. simpl in Hm. congruence.
  - apply Hu. intros Hk'. apply Hk. by apply list_elem_of_filter.
Qed.

(** Restoring one policy either records an error or leaves it untouched. *)
Lemma restore_one_wp original touched errors n p w : original !! n = Some p → n ∈ touched → holding original touched w →
  wp (restore_one snapshot set_maximum monotonic sleep original errors n)
    (λ r w', ∃ es, r = Ok es ∧ holding original touched w' ∧
      ((es = errors ∧ holding original (filter (λ m, m ≠ n) touched) w') ∨ (es ≠ []))) w.
Proof using Laws.
  intros Hp Hn H. set (rest := filter (λ m, m ≠ n) touched). unfold restore_one. apply wp_catch.
  assert (∀ message w', holding original touched w' →
    wp (mret (errors ++ [message]) : M W (list pystr))
      (λ r w', ∃ es, r = Ok es ∧ holding original touched w' ∧ ((es = errors ∧ holding original rest w') ∨ es ≠ [])) w') as Hfail.
  { intros message w' Hw. apply wp_mret. eexists. split; [done |]. split; [done |]. right. by destruct errors. }
  assert (∀ e w', recorded e.(exn_cls) = true → holding original touched w' →
    if recorded e.(exn_cls) then wp (mret (errors ++ [n ++ ": " ++ exn_msg e]) : M W (list pystr))
      (λ r w', ∃ es, r = Ok es ∧ holding original touched w' ∧ ((es = errors ∧ holding original rest w') ∨ es ≠ [])) w'
    else ∃ es, Raise e = Ok es ∧ holding original touched w' ∧ ((es = errors ∧ holding original rest w') ∨ es ≠ [])) as Hrec
    by (intros e w' -> Hw; by apply Hfail).
  apply wp_bind. unfold restore_body. apply wp_bind. eapply wp_mono; [by apply (snapshot_of_wp original touched n p) |].
  intros [current|e] w1 (H1 & _ & _ & Hc); [| by apply Hrec].
  apply wp_bind, wp_lift. rewrite Hp. simpl. apply wp_bind, wp_lift. unfold need. case_bool_decide; [| by apply Hfail].
  apply wp_bind, wp_lift. destruct (_ || _); [| by apply Hfail].
  apply wp_bind. eapply wp_mono; [apply (holding_write original touched w1 n p.(maximum) p); [done | by left | done | done] |].
  intros [[]|e] w2 (Hi & H2 & Hreq & _); [| apply Hrec; [by eapply interrupted_recorded | done]]. specialize (Hreq eq_refl).
  eapply wp_mono.
  { apply (settled_wp (snapshot_of snapshot n) current p (λ w, holding original touched w ∧ requested w n = p.(maximum)) (holding original rest)).
    - by intros u [[Hrdy _] _].
    - intros u u' Hev [Hh Hr]. split; [by eapply holding_evolves | by rewrite (proj1 Hev)].
    - intros u u'. apply holding_evolves.
    - intros u [Hh Hr]. eapply wp_mono; [by apply (snapshot_of_wp original touched n p) |].
      intros [q|e] u' (Hh' & Hev & Hlt & Hq); (split; [split; [done | by rewrite (proj1 Hev)] | split; [done |]]); [| done].
      intros ->. destruct Hq as (v & Hv & Hv' & Hq). apply (holding_settled original touched n p v); [done | | done | done | by eapply holding_evolves].
      by rewrite (proj1 Hv).
    - done. }
  intros [[]|e] w3 ([H3 _] & H3'); [| by apply Hrec].
  apply wp_mret. exists errors. split; [done |]. split; [done |]. by left.
Qed.

Lemma restore_all_wp original l : ∀ touched errors w,
  (errors = [] → ∀ n, n ∈ touched → n ∈ l) → (∀ n, n ∈ l → n ∈ touched ∧ is_Some (original !! n)) → NoDup l → holding original touched w →
  wp (fold_m (restore_one snapshot set_maximum monotonic sleep original) errors l)
    (λ r w', ∃ es, r = Ok es ∧ (es = [] → restored original w')) w.
Proof using Laws.
  induction l as [|n l IH]; intros touched errors w Hsub Hl Hnd H.
  { exists errors. split; [done |]. intros He. apply holding_restored. eapply holding_mono; [| exact H]. intros n Hn. by apply Hsub in Hn. }
  apply NoDup_cons in Hnd as [Hn Hnd]. destruct (Hl n ltac:(by left)) as [Hnt [p Hp]].
  pose proof (restore_one_wp original touched errors n p w Hp Hnt H) as Hone. unfold wp in Hone |- *. cbn [fold_m].
  destruct (restore_one _ _ _ _ _ _ _ w) as [r w1]. simpl in Hone. destruct Hone as (es & -> & H1 & Hes).
  destruct Hes as [[-> H1']|Hne].
  - apply (IH (filter (λ m, m ≠ n) touched)); try done.
    + intros He k [Hk Hkt]%list_elem_of_filter. apply (Hsub He) in Hkt as [->|?]%elem_of_cons; done.
    + intros k Hk. destruct (Hl k ltac:(by right)) as [? ?]. split; [| done]. apply list_elem_of_filter. split; [| done]. by intros ->.
  - apply (IH touched); try done. intros k Hk. apply Hl. by right.
Qed.

(** The body of the [try]: whatever happens, the policies hold still. *)
Definition going (original : snap) (v : @vars A) (w : W) : Prop :=
  holding original v.(entered) w ∧ NoDup v.(entered) ∧ (∀ n, n ∈ v.(entered) → n ∈ names).
Lemma evolves_refl w : ready w → evolves w w.
Proof.
  intros Hrdy.
  split; [done |]. split; [lia |]. split; [| done]. intros n. destruct (visible w !! n) as [q|] eqn:E; [| done].
  exists q.(maximum). rewrite with_maximum_self. auto.
Qed.
Lemma evolves_trans w1 w2 w3 : evolves w1 w2 → evolves w2 w3 → evolves w1 w3.
Proof.
  intros (R1 & N1 & S1 & _) (R2 & N2 & S2 & Hrdy). split; [intros n; by rewrite R2 |]. split; [lia |]. split; [| done]. intros n. specialize (S1 n). specialize (S2 n).
  destruct (visible w1 !! n) as [q|]; [| by rewrite S1 in S2]. destruct S1 as (m & E1 & Hm). rewrite E1 in S2.
  destruct S2 as (m' & E2 & Hm'). exists m'. split; [done |]. rewrite list_elem_of_singleton in *. simpl in Hm'. rewrite R1 in Hm'. naive_solver.
Qed.
Lemma wp_on_world {B} (m : M W B) Q (v : @vars A) w : wp m (λ r w', Q r (v, w')) w → wp (sys m) Q (v, w).
Proof. unfold wp, sys. by destruct (m w). Qed.
Lemma wp_locals {B} (k : @vars A → M (@vars A * W) B) Q v w : wp (k v) Q (v, w) → wp (get k) Q (v, w).
Proof. done. Qed.
Lemma wp_local_assign (f : @vars A → @vars A) Q v (w : W) : Q (Ok ()) (f v, w) → wp (assign f) Q (v, w).
Proof. done. Qed.

Lemma going_evolves original v w w' : evolves w w' → going original v w → going original v w'.
Proof. intros Hev (H & Hrest). split; [by eapply holding_evolves | done]. Qed.
Lemma going_enter original v w name : name ∉ v.(entered) → name ∈ names → going original v w →
  going original (Vars (v.(entered) ++ [name]) v.(during) v.(result) v.(retained)) w.
Proof.
  intros Hn Hin (H & Hnd & Hsub). split_and!; simpl.
  - eapply holding_mono; [| exact H]. intros k Hk. apply elem_of_app. by left.
  - apply NoDup_app. split_and!; [done | | apply NoDup_singleton]. by intros k Hk ->%list_elem_of_singleton.
  - intros k [Hk|Hk%list_elem_of_singleton]%elem_of_app; [auto | by subst].
Qed.

Lemma capped_lookup (l : list pystr) (original : snap) (n : pystr) :
  capped l original !! n = (λ p, if decide (n ∈ l) then with_maximum (cap n) p else p) <$> original !! n.
Proof. unfold capped. rewrite map_lookup_imap. by destruct (original !! n). Qed.
(** The wait after a write ends with the cap in force. *)
Lemma settled_applied original l name p current w :
  ready w → original !! name = Some p → name ∉ l → requested w name = cap name → applied original l w →
  wp (settled monotonic sleep snapshot current (alter (with_maximum (cap name)) name (capped l original)))
    (λ r w', evolves w w' ∧ ended r ∧ (r = Ok () → applied original (l ++ [name]) w')) w.
Proof using Laws.
  intros Hrdy Hp Hl Hr Ha. eapply wp_mono.
  { apply (settled_wp snapshot current _ (evolves w) (applied original (l ++ [name]))).
    - intros u. apply evolves_ready.
    - intros. by eapply evolves_trans.
    - intros u u'. apply applied_evolves.
    - intros u Hu. eapply wp_mono; [by eapply (law_snapshot (law_backend Laws)), evolves_ready |]. intros r u' (Hev & Hn & Hi & Hs).
      assert (evolves w u') as Hu' by (by eapply evolves_trans). split; [done |]. split; [done |].
      destruct r as [s|e]; [| by eapply interrupted_recorded]. intros Hsnap. destruct (Hs s eq_refl name) as (x & Hx & Hx' & Hv).
      rewrite Hsnap, lookup_alter_eq, capped_lookup, Hp in Hv. simpl in Hv. rewrite decide_False in Hv by done.
      assert (applied original l u') as Hau by exact (applied_evolves _ _ _ _ Hu' Ha).
      assert (applied original [name] u') as Han.
      { apply (applied_evolves _ _ _ _ Hx'). intros n q ->%list_elem_of_singleton Hq. simplify_eq. split; [| done].
        assert (requested x name = requested u name) as -> by apply (proj1 Hx). by rewrite (proj1 Hu). }
      intros n q [Hn'|Hn']%elem_of_app Hq; [by apply Hau | by apply Han].
    - by apply evolves_refl. }
  intros r w' [Hev Hr']. split; [done |]. destruct r as [[]|e]; [done |]. split; [by apply (interrupted_ended (Raise e)) | done].
Qed.

Definition enter (v : @vars A) (name : pystr) : @vars A := Vars (v.(entered) ++ [name]) v.(during) v.(result) v.(retained).
Lemma apply_one_wp original name p v w :
  going original v w → applied original v.(entered) w → name ∉ v.(entered) → name ∈ names → original !! name = Some p →
  wp (apply_one (A := A) snapshot set_maximum guard monotonic sleep original name (cap name))
    (λ r vw, going original vw.1 vw.2 ∧ ended r ∧ vw.1.(retained) = v.(retained) ∧
       (r = Ok () → vw.1 = enter v name ∧ applied original (v.(entered) ++ [name]) vw.2)) (v, w).
Proof using Laws.
  intros Hg Ha Hn Hin Hp. unfold apply_one. apply wp_locals, wp_bind, wp_on_world.
  eapply wp_mono; [apply (law_guard Laws), Hg |]. intros r w1 [Hev1 He1]. apply (going_evolves _ _ _ _ Hev1) in Hg.
  apply (applied_evolves _ _ _ _ Hev1) in Ha. destruct r as [[]|e]; [| done]. apply wp_bind, wp_on_world.
  eapply wp_mono; [apply (law_snapshot (law_backend Laws)), Hg |].
  intros r w2 (Hev2 & _ & Hi2 & _). apply interrupted_ended in Hi2. apply (going_evolves _ _ _ _ Hev2) in Hg.
  apply (applied_evolves _ _ _ _ Hev2) in Ha. destruct r as [current|e]; [| done]. cbv zeta.
  apply wp_bind, wp_on_world, wp_lift. unfold need at 1. destruct (_ == _); [| by split_and!].
  apply wp_bind, wp_local_assign. fold (enter v name). pose proof (going_enter _ _ _ name Hn Hin Hg) as Hg'.
  assert (name ∈ (enter v name).(entered)) as Hname by (apply elem_of_app; right; by left).
  apply wp_bind, wp_on_world. destruct Hg' as (H' & Hrest).
  eapply wp_mono; [by apply (holding_write original (entered (enter v name)) w2 name (cap name) p Hp (or_intror eq_refl)) |].
  intros r w3 (Hi3 & H3 & Hreq & Ha3). apply interrupted_ended in Hi3. assert (going original (enter v name) w3) as Hg3 by done.
  destruct r as [[]|e]; [| by split_and!]. apply wp_on_world.
  eapply wp_mono; [apply (settled_applied original (entered v) name p); [apply H3 | done | done | by apply Hreq | by apply Ha3] |].
  intros r w4 (Hev4 & He4 & Hok). split_and!; [by eapply going_evolves | done | done | intros Hr; by split; [| apply Hok]].
Qed.

Lemma apply_all_wp original (l : list (pystr * Z)) v w :
  going original v w → applied original v.(entered) w → (∀ n, n ∈ map fst l → n ∉ v.(entered)) → NoDup (map fst l) →
  (∀ n limit, (n, limit) ∈ l → n ∈ names ∧ is_Some (original !! n) ∧ limit = cap n) →
  wp (each (λ '(name, limit), apply_one (A := A) snapshot set_maximum guard monotonic sleep original name limit) l)
    (λ r vw, going original vw.1 vw.2 ∧ ended r ∧ vw.1.(retained) = v.(retained) ∧
       (r = Ok () → applied original (v.(entered) ++ map fst l) vw.2 ∧ vw.1.(entered) = v.(entered) ++ map fst l)) (v, w).
Proof using Laws.
  revert v w. induction l as [|[name limit] l IH]; intros v w Hg Ha Hfresh Hnd Hl.
  { apply wp_mret. simpl. rewrite app_nil_r. done. }
  destruct (Hl name limit ltac:(by left)) as (Hin & [p Hp] & ->). simpl in Hnd. apply NoDup_cons in Hnd as [Hnn Hnd].
  pose proof (apply_one_wp original name p v w Hg Ha (Hfresh name ltac:(by left)) Hin Hp) as H. unfold wp in H |- *. cbn [each].
  destruct (apply_one _ _ _ _ _ _ _ _ (v, w)) as [[[]|e] [v' w']]; destruct H as (H & He & Hret & Hok); [| by split_and!].
  destruct (Hok eq_refl) as [Hv Ha']. simpl in *. subst v'.
  replace (v.(entered) ++ name :: map fst l) with ((enter v name).(entered) ++ map fst l) by (simpl; by rewrite <- app_assoc).
  apply (IH (enter v name) w'); try done; [| intros n limit' Hn; apply Hl; by right].
  intros n Hn [Hin'|Hin'%list_elem_of_singleton]%elem_of_app; [by eapply Hfresh; [right |] | by subst].
Qed.

(** What a snapshot shows while every cap is in force. *)
Lemma seen_applied (original s : snap) (w w' : W) : dom original = list_to_set names → holding original names w →
  applied original names w → (∀ n, seen w w' n (s !! n)) → s = capped names original.
Proof.
  intros Hdom Hh Ha Hs. apply map_eq. intros n. destruct (Hs n) as (u & Hu & _ & Hv). rewrite capped_lookup, <- Hv.
  destruct (original !! n) as [p|] eqn:E; simpl.
  - assert (n ∈ names) as Hn.
    { assert (n ∈ dom original) as Hd by (by apply elem_of_dom_2 in E). rewrite Hdom in Hd. by apply elem_of_list_to_set in Hd. }
    rewrite decide_True by done. by apply (applied_evolves _ _ _ _ Hu Ha).
  - pose proof (proj2 (holding_evolves _ _ _ _ Hu Hh) n) as H. by rewrite E in H.
Qed.

Definition incomplete (e : exn) : Prop := e.(exn_cls) = ValueError ∧ ∃ errors, exn_msg e = "restoration incomplete: " ++ errors.

(** The caps stay only when the body of the [try] ended with them in force. *)
Lemma try_body_wp original retain v w :
  dom original = list_to_set names → going original v w → v.(entered) = [] → v.(retained) = false →
  wp (try_body snapshot set_maximum guard action monotonic sleep original retain)
    (λ r vw, going original vw.1 vw.2 ∧ ended r ∧ match r with
       | Ok _ => applied original names vw.2 ∧ vw.1.(entered) = names ∧ vw.1.(retained) = retain ∧
           vw.1.(during) = Some (capped names original) ∧ ∃ a, vw.1.(result) = Some a ∧ answers a
       | Raise _ => vw.1.(retained) = false
       end) (v, w).
Proof using Laws.
  intros Hdom Hg He Hret. unfold try_body. apply wp_bind. eapply wp_mono.
  { apply (apply_all_wp original CAPS v w Hg).
    - rewrite He. by intros n p ?%not_elem_of_nil.
    - intros n _. rewrite He. apply not_elem_of_nil.
    - apply (bool_decide_unpack _). vm_compute. exact I.
    - intros n limit Hn. assert (n ∈ names) as Hin by (apply list_elem_of_fmap; by exists (n, limit)). split; [done |]. split.
      + apply elem_of_dom. rewrite Hdom. by apply elem_of_list_to_set.
      + unfold CAPS in Hn. repeat (apply elem_of_cons in Hn as [Hn|Hn]; [by simplify_eq |]). by apply not_elem_of_nil in Hn. }
  intros [[]|e] [v1 w1] (H1 & Hend & Hret1 & Hok); cbn [fst snd] in *; [| by rewrite Hret in Hret1]. destruct (Hok eq_refl) as [Ha Hent].
  rewrite He in Ha, Hent. rewrite Hret in Hret1. clear Hok. change ([] ++ map fst CAPS) with names in *.
  assert (∀ w2, evolves w1 w2 → going original v1 w2 ∧ applied original names w2) as Hstep.
  { intros w2 Hev. split; [by eapply going_evolves | exact (applied_evolves _ _ _ _ Hev Ha)]. }
  apply wp_bind, wp_on_world. eapply wp_mono; [apply (law_guard Laws), H1 |]. intros r w2 [Hev2 He2].
  destruct (Hstep w2 Hev2) as [Hg2 Ha2]. destruct r as [[]|e]; [| done].
  apply wp_bind, wp_on_world. eapply wp_mono; [apply (law_snapshot (law_backend Laws)), (evolves_ready _ _ Hev2) |]. intros r w3 (Hev3 & _ & Hi3 & Hs3). apply interrupted_ended in Hi3.
  pose proof (evolves_trans _ _ _ Hev2 Hev3) as Hev13. destruct (Hstep w3 Hev13) as [Hg3 Ha3]. destruct r as [observed|e]; [| done].
  assert (observed = capped names original) as ->.
  { apply (seen_applied original observed w2 w3); [done | | done | by apply Hs3]. destruct Hg2 as [Hh _]. by rewrite Hent in Hh. }
  apply wp_bind, wp_local_assign, wp_bind, wp_on_world. eapply wp_mono; [apply (law_action Laws), (evolves_ready _ _ Hev13) |]. intros r w4 (Hev4 & He4 & Hans4).
  pose proof (evolves_trans _ _ _ Hev13 Hev4) as Hev14. destruct (Hstep w4 Hev14) as [Hg4 Ha4]. destruct r as [answer|e]; [| done].
  assert (∃ a, Some answer = Some a ∧ answers a) as Hanswer by (exists answer; auto).
  apply wp_bind, wp_local_assign. destruct retain; [| by apply wp_mret; split_and!].
  apply wp_bind, wp_on_world. eapply wp_mono; [apply (law_guard Laws), (evolves_ready _ _ Hev14) |]. intros r w5 [Hev5 He5].
  pose proof (evolves_trans _ _ _ Hev14 Hev5) as Hev15. destruct (Hstep w5 Hev15) as [Hg5 Ha5]. destruct r as [[]|e]; [| done].
  apply wp_bind, wp_on_world. eapply wp_mono; [apply (law_snapshot (law_backend Laws)), (evolves_ready _ _ Hev15) |]. intros r w6 (Hev6 & _ & Hi6 & _). apply interrupted_ended in Hi6.
  pose proof (evolves_trans _ _ _ Hev15 Hev6) as Hev16. destruct (Hstep w6 Hev16) as [Hg6 Ha6]. destruct r as [again|e]; [| done].
  apply wp_bind, wp_on_world, wp_lift. unfold need. case_bool_decide; [| done]. apply wp_local_assign. by split_and!.
Qed.

Lemma restore_wp original (v : @vars A) w Q :
  going original v w → v.(retained) = false → dom original = list_to_set names →
  (∀ w', restored original w' → Q (Ok ()) (v, w')) → (∀ e vw', incomplete e → Q (Raise e) vw') →
  wp (restore snapshot set_maximum monotonic sleep original) Q (v, w).
Proof using Laws.
  intros (H & Hnd & Hsub) Hr Hdom Hok Hbad. unfold restore. apply wp_locals, wp_bind, wp_on_world. rewrite Hr. eapply wp_mono.
  { apply (restore_all_wp original (reverse (entered v)) (entered v) [] w); [| | by rewrite reverse_Permutation | done].
    - intros _ n Hn. by apply elem_of_reverse.
    - intros n Hn. rewrite elem_of_reverse in Hn. split; [done |]. apply elem_of_dom. rewrite Hdom. apply elem_of_list_to_set. auto. }
  intros r w' (es & -> & Hes). destruct es as [|error es]; [apply wp_mret; auto |]. apply wp_lift, Hbad. split; [done |]. eexists. reflexivity.
Qed.

Lemma restored_evolves original w w' : evolves w w' → restored original w → restored original w'.
Proof. rewrite <-!holding_restored. apply holding_evolves. Qed.
Lemma seen_restored (original s : snap) (w w' : W) : restored original w → (∀ n, seen w w' n (s !! n)) → s = original.
Proof.
  intros H Hs. apply map_eq. intros n. destruct (Hs n) as (u & Hu & _ & <-). by destruct (restored_evolves _ _ _ Hu H) as [-> _].
Qed.

(** How a run ends: the caps put back, or kept as it was asked to. *)
Definition run_post (original : snap) (retain : bool) (r : res (@outcome A)) (w : W) : Prop :=
  ended r ∧ match r with
  | Ok o => o.(o_before) = original ∧ o.(o_during) = Some (capped names original) ∧ (∃ a, o.(o_action) = Some a ∧ answers a) ∧ o.(o_policy_retained) = retain ∧
      if retain then o.(o_after) = capped names original ∧ applied original names w else o.(o_after) = original ∧ restored original w
  | Raise e => restored original w ∨ incomplete e ∨ retain = true ∧ applied original names w
  end.
Lemma transaction_wp original retain w : restored original w → dom original = list_to_set names →
  wp (transaction snapshot set_maximum guard action monotonic sleep original retain)
    (λ r vw, run_post original retain r vw.2) (@Vars A [] None None false, w).
Proof using Laws.
  intros H0 Hdom. assert (going original (@Vars A [] None None false) w) as Hg.
  { split_and!; simpl; [by apply holding_restored | apply NoDup_nil_2 | by intros n ?%not_elem_of_nil]. }
  unfold transaction. apply wp_bind, wp_finally. eapply wp_mono; [by apply try_body_wp |].
  intros r [v3 w3] (Hg3 & Hr3 & Hbody). cbn [fst snd] in *. destruct (retained v3) eqn:Hret.
  { destruct r as [[]|e]; [| done]. destruct Hbody as (Ha & Hent & <- & Hd & Hres). unfold restore. apply wp_locals, wp_bind, wp_on_world.
    rewrite Hret. apply wp_mret, wp_mret, wp_locals, wp_bind, wp_on_world. rewrite Hret, Hd.
    eapply wp_mono; [apply (law_snapshot (law_backend Laws)), Hg3 |]. intros r w4 (Hev4 & _ & Hi4 & Hs4). apply interrupted_ended in Hi4.
    pose proof (applied_evolves _ _ _ _ Hev4 Ha) as Ha4. destruct r as [after|e]; [| by split; [| right; right]].
    apply wp_bind, wp_on_world, wp_lift. unfold need. case_bool_decide as Heq; [| by split; [| right; right]]. apply wp_mret.
    split; [done |]. cbn. injection Heq as <-. by split_and!. }
  apply restore_wp; [done | done | done | |].
  - intros w4 H4. destruct r as [[]|e]; [| by split; [| left]]. destruct Hbody as (_ & _ & Hretain & Hd & Hres).
    apply wp_locals, wp_bind, wp_on_world. rewrite Hret.
    eapply wp_mono; [apply (law_snapshot (law_backend Laws)), H4 |]. intros r w5 (Hev5 & _ & Hi5 & Hs5). apply interrupted_ended in Hi5.
    pose proof (restored_evolves _ _ _ Hev5 H4) as H5. destruct r as [after|e]; [| by split; [| left]].
    apply wp_bind, wp_on_world, wp_lift. unfold need. case_bool_decide as Ha; [| by split; [| left]]. apply wp_mret.
    split; [done |]. cbn. rewrite <- Hretain, Hd. injection Ha as <-. by split_and!.
  - intros e vw' He. split; [by destruct He as [Hc _]; simpl; rewrite Hc | right; by left].
Qed.
Lemma validate_ended s e : validate s = Raise e → e.(exn_cls) ≠ OutOfFuel.
Proof.
  unfold validate. rewrite bind_Raise. intros [H|(_ & _ & H)]; [unfold need in H; by case_match; simplify_eq |].
  apply for_each_Raise in H as (n & _ & H). destruct (s !! n) as [p|]; [| by simplify_eq]. unfold validate_policy, need in H.
  repeat (rewrite bind_Raise in H; destruct H as [H|(_ & _ & H)]); by case_match; simplify_eq.
Qed.
Lemma run_wp original retain w : restored original w →
  wp (run snapshot set_maximum guard action monotonic sleep retain) (run_post original retain) w.
Proof using Laws.
  intros H0. unfold run. apply wp_bind. eapply wp_mono; [apply (law_guard Laws), H0 |]. intros r w1 [Hev1 He1].
  apply (restored_evolves _ _ _ Hev1) in H0. destruct r as [[]|e]; [| by split; [| left]].
  apply wp_bind. eapply wp_mono; [apply (law_snapshot (law_backend Laws)), H0 |]. intros r w2 (Hev2 & _ & Hi2 & Hs). apply interrupted_ended in Hi2.
  pose proof (restored_evolves _ _ _ Hev2 H0) as H2. destruct r as [s|e]; [| by split; [| left]].
  rewrite (seen_restored original s _ _ H0 (Hs s eq_refl)). apply wp_bind, wp_lift.
  destruct (validate original) as [[]|e] eqn:Ev; [| split; [by eapply validate_ended | by left]].
  assert (dom original = list_to_set names) as Hdom.
  { unfold validate in Ev. guard_inv Ev as Hd. by apply bool_decide_eq_true in Hd. }
  pose proof (transaction_wp original retain w2 H2 Hdom) as Ht. unfold local_vars, wp in *.
  by destruct (transaction _ _ _ _ _ _ _ _ _) as [r [v' w']].
Qed.

(** C6. An experiment puts the policies back: whatever the guard, the action,
    the clock or the writes do, whenever the kernel takes a request over, and
    wherever an exception strikes, the run ends, with the original maxima both
    shown and requested, or says that the restoration is incomplete; a normal
    end means that the action ran while every policy showed its cap, and
    reports the original snapshot as before and after. *)
Theorem run_restores w :
  ready w → (∀ n p, visible w !! n = Some p → requested w n = p.(maximum)) →
  wp (run snapshot set_maximum guard action monotonic sleep false)
    (λ r w', ended r ∧ match r with
             | Ok o => restored (visible w) w' ∧ o.(o_before) = visible w ∧ o.(o_after) = visible w ∧
                 o.(o_during) = Some (capped names (visible w)) ∧ ∃ a, o.(o_action) = Some a ∧ answers a
             | Raise e => restored (visible w) w' ∨ incomplete e
             end) w.
Proof using Laws.
  intros Hrdy Hstable. eapply wp_mono; [by apply (run_wp (visible w) false) |]. intros [o|e] w' [He H]; (split; [done |]); naive_solver.
Qed.
End laws.

(** ** A kernel that lags
    A request is taken over at every second snapshot; the action is
    interrupted. *)
Record kernel := Kernel { k_visible : snap; k_requested : gmap pystr Z; k_now : Z; k_calls : nat }.
Definition k_request (k : kernel) (n : pystr) : Z := default 0 (k.(k_requested) !! n).
Definition k_snapshot : M kernel snap := λ k,
  let shown := if Nat.even k.(k_calls) then k.(k_visible)
               else map_imap (λ n q, Some (with_maximum (k_request k n) q)) k.(k_visible) in
  (Ok shown, Kernel shown k.(k_requested) (k.(k_now) + 1) (S k.(k_calls))).
Definition k_set_maximum (n : pystr) (v : Z) : M kernel unit := λ k,
  (Ok (), Kernel k.(k_visible) (<[n := v]> k.(k_requested)) k.(k_now) k.(k_calls)).
Definition k_interrupt : M kernel unit := raise OSError "CPU cap lease interrupted: 15".
Definition k_monotonic : M kernel Z := λ k, (Ok k.(k_now), k).
Definition k_sleep (d : Z) : M kernel unit := λ k, (Ok (), Kernel k.(k_visible) k.(k_requested) (k.(k_now) + Z.max 0 d) k.(k_calls)).

Definition sample_policy (name : pystr) : policy :=
  Policy (default [] (lookup_in CPUS name)) "qcom-cpufreq-hw" "schedutil" 300000 2000000 [300000; cap name; 2000000].
Definition sample_snap : snap := list_to_map (map (λ n, (n, sample_policy n)) names).
Definition sample_kernel : kernel := Kernel sample_snap (maximum <$> sample_snap) 0 0.

Definition k_ready (k : kernel) : Prop := True.
Lemma kernel_laws :
  cpufreq k_snapshot k_set_maximum (mret ()) k_interrupt k_monotonic k_sleep k_visible k_request k_now k_ready (λ _ : unit, True).
Proof.
  assert (∀ k c t, k_now k ≤ t → evolves k_visible k_request k_now k_ready k (Kernel (k_visible k) (k_requested k) t c)) as Hquiet.
  { intros k c t Ht. split; [done |]. split; [done |]. split; [| done]. intros n. simpl. destruct (k_visible k !! n) as [q|]; [| done].
    exists q.(maximum). rewrite with_maximum_self. auto. }
  assert (∀ k, evolves k_visible k_request k_now k_ready k k) as Hsame by (intros; by apply evolves_refl).
  split; [split | | | |].
  - intros k _. unfold wp, k_snapshot. simpl. set (k' := Kernel _ _ _ _). assert (evolves k_visible k_request k_now k_ready k k') as Hk'.
    { unfold k'. destruct (Nat.even _); [apply Hquiet; lia |]. split; [done |]. split; [simpl; lia |]. split; [| done]. intros n. simpl.
      rewrite map_lookup_imap. destruct (k_visible k !! n) as [q|]; [| done]. eexists. split; [done |]. right. apply list_elem_of_here. }
    split; [done |]. split; [simpl; lia |]. split; [done |]. intros s [= <-] n. by exists k'.
  - intros k n v _. unfold wp, k_set_maximum. simpl. split; [done |]. split; [done |]. split; [lia |]. unfold k_request. simpl.
    split; [intros m Hm; by rewrite lookup_insert_ne |]. split; [left; by rewrite lookup_insert_eq |].
    intros m. simpl. destruct (k_visible k !! m) as [q|]; [| done]. exists q.(maximum). rewrite with_maximum_self. auto.
  - intros k _. apply wp_mret. split; [apply Hsame | done].
  - intros k _. split; [apply Hsame | by split].
  - intros k _. unfold wp, k_monotonic. simpl. split; [apply Hsame |]. split; [done |]. intros t [= <-]. lia.
  - intros k d _. unfold wp, k_sleep. simpl. split; [apply Hquiet; lia | done].
Qed.

Lemma run_restores_witness :
  let r := run k_snapshot k_set_maximum (mret ()) k_interrupt k_monotonic k_sleep false sample_kernel in
  r.1 = Raise (Exn OSError "CPU cap lease interrupted: 15") ∧
  ended r.1 ∧ match r.1 with
  | Ok o => restored k_visible k_request k_ready sample_snap r.2 ∧ o_before o = sample_snap ∧ o_after o = sample_snap ∧
      o_during o = Some (capped names sample_snap) ∧ ∃ a, o_action o = Some a ∧ True
  | Raise e => restored k_visible k_request k_ready sample_snap r.2 ∨ incomplete e
  end.
Proof.
  intros r. split; [vm_compute; reflexivity |].
  refine (run_restores k_snapshot k_set_maximum (mret ()) k_interrupt k_monotonic k_sleep k_visible k_request k_now k_ready (λ _, True) kernel_laws sample_kernel I _).
  intros n p Hp. unfold k_request, sample_kernel. simpl. rewrite lookup_fmap. simpl in Hp. by rewrite Hp.
Defined.
