(* ===== verification/CpuSysfs.v ===== *)
(** * The cpufreq directory behind the frequency cap

    The class [Sysfs] of scripts/device/cpu-frequency-cap.py: descriptor-
    relative reading of the policies and writing of a maximum.  The system
    calls are parameters; what [sysfs] says of them is what the kernel's
    documentation says of sysfs and cpufreq.  [sysfs_backend] shows that the
    class is a backend of CpuCap, so the theorems on [run] hold for it. *)

From S2P Require Import Prelude PyStr PyData CpuCap.

Inductive access := READ | WRITE | DIRECTORY.
Record meta := Meta { is_dir : bool; is_reg : bool; uid : Z; gid : Z; permissions : Z; dev : Z; ino : Z }.
Record sysfs := Object { root : Z; policies : gmap pystr Z }.
Definition STATS_FIELD : pystr := "stats/time_in_state".

Section sysfs.
Context {W : Type}.
(** The calls of [os]: [O_NOFOLLOW] always, [O_NONBLOCK] on attributes. *)
Context (open_root : M W Z) (dup : Z → M W Z) (openat : Z → pystr → access → M W Z) (close : Z → M W unit).
Context (fstat : Z → M W meta) (statat : Z → pystr → M W meta) (listdir : Z → M W (list pystr)).
Context (os_read : Z → Z → M W bytes) (os_write : Z → bytes → M W Z).

Definition trusted (s : meta) : bool := (s.(uid) =? 0) && (s.(gid) =? 0) && (Z.land s.(permissions) 18 =? 0).
Definition directory (fd : Z) : M W unit :=
  s ← fstat fd;
  require (s.(is_dir) && trusted s) "unsafe CPU directory".
Definition policy_names (l : list pystr) : gset pystr := list_to_set (filter (λ n, startswith n "policy" = true) l).

(** ** The constructor and [close] *)
Definition close_object (o : sysfs) : M W unit :=
  each (λ '(_, fd), close fd) (map_to_list o.(policies)) ;;
  close o.(root).
Definition open_policy (root : Z) (name : pystr) : M (gmap pystr Z * W) unit := λ '(v, w),
  match openat root name DIRECTORY w with
  | (Ok fd, w) => let '(r, w) := directory fd w in (r, (<[name := fd]> v, w))
  | (Raise e, w) => (Raise e, (v, w))
  end.
Definition init_body (root : Z) : M (gmap pystr Z * W) unit := λ '(v, w),
  match (directory root ;; present ← listdir root; require (policy_names present == list_to_set names) "sysfs policy set") w with
  | (Ok _, w) => each (open_policy root) names (v, w)
  | (Raise e, w) => (Raise e, (v, w))
  end.
Definition init_at (root : Z) : M W sysfs := λ w,
  match init_body root (∅, w) with
  | (Ok _, (policies, w)) => (Ok (Object root policies), w)
  | (Raise e, (policies, w)) => (close_object (Object root policies) ;; lift (Raise e)) w
  end.
Definition init (root_fd : option Z) : M W sysfs :=
  root ← (match root_fd with None => open_root | Some fd => dup fd end);
  init_at root.

(** ** Attributes *)
Definition same (o : sysfs) (name : pystr) : M W Z :=
  fd ← lift (of_option (o.(policies) !! name) KeyError name);
  old ← fstat fd;
  now ← statat o.(root) name;
  require (now.(is_dir) && (old.(dev) =? now.(dev)) && (old.(ino) =? now.(ino))) "CPU policy pathname changed" ;;
  directory fd ;;
  mret fd.
Definition opened (o : sysfs) (name field : pystr) (flags : access) : M W Z :=
  parent ← same o name;
  '(parent, field, stats_fd) ←
    (if field == STATS_FIELD then
       stats_fd ← openat parent "stats" DIRECTORY;
       on_error (directory stats_fd) (close stats_fd) ;;
       mret (stats_fd, "time_in_state" : pystr, Some stats_fd)
     else mret (parent, field, None));
  fd ← finally (openat parent field flags) (match stats_fd with Some d => close d | None => mret () end);
  on_error (s ← fstat fd; require (s.(is_reg) && trusted s) "unsafe CPU attribute") (close fd) ;;
  mret fd.
Definition read (o : sysfs) (name field : pystr) : M W pystr :=
  fd ← opened o name field READ;
  finally
    (raw ← os_read fd 65537;
     require (len raw <=? 65536) "CPU attribute read bound" ;;
     same o name ;;
     text ← lift (decode_ascii raw);
     mret (strip text))
    (close fd).

(** ** The backend *)
Definition integer (o : sysfs) (name field : pystr) : M W Z :=
  value ← read o name field;
  require (isdecimal value) "CPU frequency integer" ;;
  mret (int10 value).
Definition frequency_pair (p : list pystr) : bool := (len p =? 2) && forallb isdecimal p.
Definition read_policy (o : sysfs) (name : pystr) : M W policy :=
  table ← read o name STATS_FIELD;
  let pairs := map split_ws (splitlines table) in
  require ((pairs != []) && forallb frequency_pair pairs) "hardware frequency table" ;;
  cpus ← read o name "related_cpus";
  driver ← read o name "scaling_driver";
  governor ← read o name "scaling_governor";
  minimum ← integer o name "scaling_min_freq";
  maximum ← integer o name "scaling_max_freq";
  mret (Policy cpus driver governor minimum maximum (map (λ p, int10 (default [] (head p))) pairs)).
Definition snapshot (o : sysfs) : M W snap :=
  present ← listdir o.(root);
  require (policy_names present == list_to_set names) "CPU policy set changed" ;;
  fold_m (λ rows name, p ← read_policy o name; mret (<[name := p]> rows)) ∅ names.
Definition set_maximum (o : sysfs) (name : pystr) (value : Z) : M W unit :=
  require (is_in name names && (0 <? value) && (value <=? 3000000)) "invalid maximum write" ;;
  fd ← opened o name "scaling_max_freq" WRITE;
  finally
    (let raw := str_of_Z value ++ [LF] in
     n ← os_write fd raw;
     require (n =? len raw) "short CPU maximum write" ;;
     same o name ;;
     mret ())
    (close fd).
End sysfs.

(** ** What sysfs promises
    [fds] is what each descriptor of the process is open on.  Any call may
    fail or be interrupted, time passes and the kernel takes requests over
    during it; [close] always closes. *)
Inductive object := Root | Directory (name : pystr) | Stats (name : pystr) | Attribute (name field : pystr) | Foreign.
Definition child (o : object) (name : pystr) : object :=
  match o with
  | Root => if is_in name names then Directory name else Foreign
  | Directory n => if name == "stats" then Stats n else Attribute n name
  | Stats n => if name == "time_in_state" then Attribute n STATS_FIELD else Foreign
  | _ => Foreign
  end.
Definition frequency_row (f t : Z) : pystr := str_of_Z f ++ " "%char :: str_of_Z t.
(** What the kernel prints of a policy. *)
Definition shown (p : policy) (field : pystr) (raw : bytes) : Prop :=
  (field = ("related_cpus" : pystr) → raw = p.(cpus) ++ [LF]) ∧
  (field = ("scaling_driver" : pystr) → raw = p.(driver) ++ [LF]) ∧
  (field = ("scaling_governor" : pystr) → raw = p.(governor) ++ [LF]) ∧
  (field = ("scaling_min_freq" : pystr) → raw = str_of_Z p.(minimum) ++ [LF]) ∧
  (field = ("scaling_max_freq" : pystr) → raw = str_of_Z p.(maximum) ++ [LF]) ∧
  (field = STATS_FIELD → ∃ times, length times = length p.(frequencies) ∧ Forall (λ t, 0 ≤ t) times ∧
     raw = unlines (zip_with frequency_row p.(frequencies) times)).
Definition word (s : pystr) : Prop := s ≠ [] ∧ tight s.
Definition plain (p : policy) : Prop :=
  word p.(cpus) ∧ word p.(driver) ∧ word p.(governor) ∧ 0 ≤ p.(minimum) ∧ 0 ≤ p.(maximum) ∧
  p.(frequencies) ≠ [] ∧ Forall (λ f, 0 ≤ f) p.(frequencies).

(** *** Reading what was printed *)
Lemma digits_tight s : forallb is_digit s = true → tight s ∧ Forall (λ c, is_space c = false) s ∧ one_line s.
Proof.
  rewrite forallb_Forall. intros Hs. assert (∀ c, is_digit c = true → is_space c = false ∧ is_linebreak c = false) as Hd by by_ascii.
  assert (Forall (λ c, is_space c = false) s) as Hsp by (eapply Forall_impl; [exact Hs |]; intros c Hc; by apply Hd).
  split_and!; [split | done | eapply Forall_impl; [exact Hs |]; intros c Hc; by apply Hd]; intros c Hc; rewrite Forall_forall in Hsp;
    apply Hsp; [destruct s; [done |]; simpl in Hc; simplify_eq; by left | by apply last_Some_elem_of].
Qed.
Lemma str_digits n : 0 ≤ n → forallb is_digit (str_of_Z n) = true ∧ str_of_Z n ≠ [].
Proof. intros H. apply str_isdecimal in H. unfold isdecimal in H. b2p. done. Qed.
Lemma strip_number n : 0 ≤ n → strip (str_of_Z n ++ [LF]) = str_of_Z n.
Proof. intros H. apply str_digits in H as [Hd Hn]. by apply strip_line, digits_tight. Qed.

Lemma unlines_word rows : rows ≠ [] → Forall word rows → ∃ s, unlines rows = s ++ [LF] ∧ word s.
Proof.
  destruct rows as [|row rows _] using rev_ind; [done |]. intros _ [Hrows [[Hn [Hh Hl]] _]%Forall_cons]%Forall_app.
  exists (unlines rows ++ row). split; [unfold unlines; by rewrite map_app, concat_app; simpl; rewrite app_nil_r, app_assoc |].
  split; [by destruct (unlines rows), row |]. split.
  - intros c. destruct rows as [|r rows]; [apply Hh |]. apply Forall_cons in Hrows as [[Hr [Hrh _]] _]. destruct r as [|d r]; [done |]. apply Hrh.
  - intros c. rewrite last_app. destruct (last row) as [d|] eqn:E; [apply Hl |]. by apply last_None in E.
Qed.
Lemma frequency_row_word f t : 0 ≤ f → 0 ≤ t → word (frequency_row f t) ∧ one_line (frequency_row f t).
Proof.
  intros [Hf Hfn]%str_digits [Ht Htn]%str_digits. apply digits_tight in Hf as ([Hh _] & _ & Hof), Ht as ([_ Hl] & _ & Hot). unfold frequency_row.
  split; [| by apply Forall_app; split; [| constructor]]. split; [by destruct (str_of_Z f) |]. split.
  - intros c. destruct (str_of_Z f); [done |]. apply Hh.
  - intros c. rewrite last_app_cons. change (" "%char :: str_of_Z t) with ([" "%char] ++ str_of_Z t). rewrite last_app.
    destruct (last (str_of_Z t)) eqn:E; [apply Hl | by apply last_None in E].
Qed.
Lemma table_rows freqs times : freqs ≠ [] → length times = length freqs → Forall (λ f, 0 ≤ f) freqs → Forall (λ t, 0 ≤ t) times →
  map split_ws (splitlines (strip (unlines (zip_with frequency_row freqs times)))) = zip_with (λ f t, [str_of_Z f; str_of_Z t]) freqs times.
Proof.
  intros Hne Hlen Hf Ht. set (rows := zip_with frequency_row freqs times).
  assert (Forall (λ r, word r ∧ one_line r) rows) as Hrows.
  { unfold rows. clear Hne rows. revert times Hlen Ht. induction Hf as [|f freqs Hf _ IH]; intros [|t times] Hlen Ht; try constructor.
    - apply Forall_cons in Ht as [Ht _]. by apply frequency_row_word.
    - apply Forall_cons in Ht as [_ Ht]. apply IH; [by injection Hlen | done]. }
  apply Forall_and in Hrows as [Hw Ho]. destruct (unlines_word rows) as (s & Hs & Hn & Hs').
  { unfold rows. by destruct freqs, times. } { done. }
  rewrite Hs, strip_line by done. unfold splitlines. rewrite <- splitlines_from_end.
  - rewrite <- Hs. change (splitlines_from [] (unlines rows)) with (splitlines (unlines rows)). rewrite splitlines_unlines by done.
    unfold rows. clear Hne Hw Ho Hs rows. revert times Hlen Ht. induction Hf as [|f freqs Hf _ IH]; intros [|t times] Hlen Ht; try done.
    apply Forall_cons in Ht as [Ht Hts]. simpl. rewrite IH; [| by injection Hlen | done]. f_equal.
    apply str_digits in Hf as [Hf ?], Ht as [Ht ?]. apply split_ws_two; [done | done | by apply digits_tight | by apply digits_tight].
  - destruct (last s) eqn:E; [done | by apply last_None in E].
  - intros c Hc. destruct Hs' as [_ Hl]. apply Hl in Hc. revert Hc. revert c. by_ascii.
Qed.
Lemma table_pairs freqs times : length times = length freqs → Forall (λ f, 0 ≤ f) freqs → Forall (λ t, 0 ≤ t) times →
  let pairs := zip_with (λ f t, [str_of_Z f; str_of_Z t]) freqs times in
  forallb frequency_pair pairs = true ∧ map (λ p, int10 (default [] (head p))) pairs = freqs.
Proof.
  intros Hlen Hf. revert times Hlen. induction Hf as [|f freqs Hf _ IH]; intros [|t times] Hlen Ht; try done.
  apply Forall_cons in Ht as [Ht Hts]. destruct (IH times) as [IH1 IH2]; [by injection Hlen | done |]. simpl in *. rewrite IH2.
  rewrite int10_str by done. split; [| done]. unfold frequency_pair at 1. simpl. by rewrite !str_isdecimal, IH1.
Qed.

(** *** The calls *)
Section laws.
Context {W : Type}.
Context (openat : Z → pystr → access → M W Z) (close : Z → M W unit).
Context (fstat : Z → M W meta) (statat : Z → pystr → M W meta) (listdir : Z → M W (list pystr)).
Context (os_read : Z → Z → M W bytes) (os_write : Z → bytes → M W Z).
Context (visible : W → snap) (requested : W → pystr → Z) (now : W → Z) (fds : W → gmap Z object).

Abbreviation moves := (evolves visible requested now (λ _, True)).
Abbreviation shows := (CpuCap.shows visible).
(** A call that touches no descriptor. *)
Definition calm {A} (m : M W A) (Q : A → W → W → Prop) : Prop := ∀ w,
  wp m (λ r w', moves w w' ∧ fds w' = fds w ∧ interrupted r ∧ ∀ a, r = Ok a → Q a w w') w.

Record kernel_sysfs : Prop := {
  sys_fstat : ∀ d, calm (fstat d) (λ _ _ _, True);
  sys_statat : ∀ d name, calm (statat d name) (λ _ _ _, True);
  sys_listdir : ∀ d, calm (listdir d) (λ _ _ _, True);
  sys_time : ∀ d w, now w < now (listdir d w).2;
  sys_openat : ∀ d name flags w, wp (openat d name flags) (λ r w', moves w w' ∧ interrupted r ∧
    match r with
    | Ok fd => fds w !! fd = None ∧ fds w' = <[fd := child (default Foreign (fds w !! d)) name]> (fds w)
    | Raise _ => fds w' = fds w
    end) w;
  sys_close : ∀ d w, wp (close d) (λ r w', moves w w' ∧ interrupted r ∧ fds w' = delete d (fds w)) w;
  sys_read : ∀ d n, calm (os_read d n) (λ raw w w', ∀ name field, fds w !! d = Some (Attribute name field) →
    ∃ u, moves w u ∧ moves u w' ∧ fds u = fds w ∧ ∀ p, visible u !! name = Some p → shown p field raw);
  sys_write : ∀ d name v w, fds w !! d = Some (Attribute name "scaling_max_freq") → 0 < v →
    wp (os_write d (str_of_Z v ++ [LF])) (λ r w', fds w' = fds w ∧ interrupted r ∧ now w ≤ now w' ∧
      (∀ m, m ≠ name → requested w' m = requested w m) ∧
      (requested w' name = v ∨ requested w' name = requested w name ∧ r ≠ Ok (len (str_of_Z v ++ [LF]))) ∧
      shows w w' (λ m, [requested w m; requested w' m])) w;
  sys_plain : ∀ w n p, visible w !! n = Some p → plain p
}.
Context (Sys : kernel_sysfs) (o : sysfs).

(** The object is open: its descriptors are on the directories. *)
Definition ready (w : W) : Prop :=
  fds w !! o.(root) = Some Root ∧ dom (visible w) = list_to_set names ∧
  ∀ n, n ∈ names → ∃ fd, o.(policies) !! n = Some fd ∧ fds w !! fd = Some (Directory n).
Abbreviation same := (same fstat statat).
Abbreviation opened := (opened openat close fstat statat).
Abbreviation read := (read openat close fstat statat os_read).
Abbreviation snapshot := (snapshot openat close fstat statat listdir os_read).
Abbreviation set_maximum := (set_maximum openat close fstat statat os_write).
Abbreviation evolves := (CpuCap.evolves visible requested now ready).

Lemma moves_refl w : moves w w.
Proof. by apply evolves_refl. Qed.
Lemma moves_trans w1 w2 w3 : moves w1 w2 → moves w2 w3 → moves w1 w3.
Proof. apply evolves_trans. Qed.
Lemma moves_dom w w' : moves w w' → dom (visible w') = dom (visible w).
Proof.
  intros (_ & _ & Hs & _). apply set_eq. intros n. rewrite !elem_of_dom. specialize (Hs n).
  destruct (visible w !! n); [destruct Hs as (m & -> & _); split; by eexists | by rewrite Hs].
Qed.
Lemma moves_visible w w' n p : moves w w' → visible w !! n = Some p → ∃ m, visible w' !! n = Some (with_maximum m p).
Proof. intros (_ & _ & Hs & _) Hp. specialize (Hs n). rewrite Hp in Hs. destruct Hs as (m & Hm & _). by exists m. Qed.
Lemma ready_moves w w' : ready w → moves w w' → fds w ⊆ fds w' → ready w'.
Proof.
  intros (Hr & Hd & Hp) Hm Hf. split; [by eapply lookup_weaken |]. split; [by rewrite (moves_dom _ _ Hm) |].
  intros n Hn. destruct (Hp n Hn) as (fd & ? & ?). exists fd. split; [done | by eapply lookup_weaken].
Qed.
Lemma moves_evolves w w' : ready w → moves w w' → fds w' = fds w → evolves w w'.
Proof. intros Hr Hm Hf. destruct Hm as (? & ? & ? & _). split_and!; try done. apply (ready_moves w); [done | by split_and! | by rewrite Hf]. Qed.

(** *** Calm code composes *)
Lemma calm_weaken {A} (m : M W A) Q R : (∀ a w w', Q a w w' → R a w w') → calm m Q → calm m R.
Proof. intros H Hm w. eapply wp_mono; [apply Hm |]. intros r w' (? & ? & ? & Hq). split_and!; auto. Qed.
Lemma calm_bind {A B} (m : M W A) (f : A → M W B) Q R S :
  calm m Q → (∀ a, calm (f a) (R a)) → (∀ a b w1 w2 w3, moves w1 w2 → moves w2 w3 → Q a w1 w2 → R a b w2 w3 → S b w1 w3) → calm (m ≫= f) S.
Proof.
  intros Hm Hf HS w. apply wp_bind. eapply wp_mono; [apply Hm |]. intros [a|e] w1 (Hm1 & Hf1 & Hi1 & Hq); [| done].
  eapply wp_mono; [apply Hf |]. intros r w2 (Hm2 & Hf2 & Hi2 & Hr). split_and!; [by eapply moves_trans | congruence | done |].
  intros b ->. eapply HS; eauto.
Qed.
Lemma calm_need ok why : calm (require ok why) (λ _ _ _, ok = true).
Proof. intros w. apply wp_lift. unfold need. destruct ok; (split_and!; [apply moves_refl | done | done | done]). Qed.
Lemma calm_mret {A} (a : A) : calm (mret a) (λ b w w', b = a ∧ w' = w).
Proof. intros w. apply wp_mret. split_and!; [apply moves_refl | done | done | by intros b [= <-]]. Qed.
Lemma calm_seq {A B} (m : M W A) (f : A → M W B) Q (P : B → Prop) : calm m Q → (∀ a, calm (f a) (λ b _ _, P b)) → calm (m ≫= f) (λ b _ _, P b).
Proof. intros Hm Hf. by apply (calm_bind m f Q (λ _ b _ _, P b) _ Hm Hf). Qed.
Lemma calm_directory fd : calm (directory fstat fd) (λ _ _ _, True).
Proof using Sys. eapply calm_bind; [apply (sys_fstat Sys) | intros s; apply calm_need | done]. Qed.
Lemma calm_same name : calm (same o name) (λ fd _ _, o.(policies) !! name = Some fd).
Proof using Sys.
  intros w. unfold same. apply wp_bind, wp_lift. destruct (policies o !! name) as [fd|] eqn:E; [| split_and!; [apply moves_refl | done | done | done]].
  simpl. revert w. apply (calm_weaken _ (λ b _ _, b = fd)); [by intros ? ? ? -> |].
  eapply calm_seq; [apply (sys_fstat Sys) | intros old]. eapply calm_seq; [apply (sys_statat Sys) | intros seen].
  eapply calm_seq; [apply calm_need | intros _]. eapply calm_seq; [apply calm_directory | intros _].
  eapply calm_weaken; [| apply calm_mret]. by intros ? ? ? [-> _].
Qed.

(** Opening an attribute opens one descriptor; only a failing call, or a
    signal during a [close], may leave another. *)
Definition opens (F : gmap Z object) (x : object) (w : W) (r : res Z) (w' : W) : Prop :=
  moves w w' ∧ interrupted r ∧ F ⊆ fds w' ∧ ∀ fd, r = Ok fd → F !! fd = None ∧ fds w' = <[fd := x]> F.
Lemma opens_moves F x w0 w r w' : moves w0 w → opens F x w r w' → opens F x w0 r w'.
Proof. intros Hm (H1 & H2 & H3 & H4). split_and!; try done. by eapply moves_trans. Qed.
Lemma checked_wp (fd : Z) (m : M W unit) F x w : calm m (λ _ _ _, True) → F !! fd = None → fds w = <[fd := x]> F →
  wp (on_error m (close fd)) (λ r w', moves w w' ∧ interrupted r ∧ F ⊆ fds w' ∧ (r = Ok () → fds w' = <[fd := x]> F)) w.
Proof using Sys.
  intros Hm Hfd Hw. apply wp_on_error. eapply wp_mono; [apply Hm |]. intros [[]|e] w1 (Hm1 & Hf1 & Hi1 & _).
  - split_and!; [done | done | rewrite Hf1, Hw; by apply insert_subseteq | by rewrite Hf1, Hw].
  - eapply wp_mono; [apply (sys_close Sys) |]. intros r w2 (Hm2 & Hi2 & Hf2). rewrite Hf1, Hw, delete_insert_id in Hf2 by done.
    destruct r; (split_and!; [by eapply moves_trans | done | by rewrite Hf2 | done]).
Qed.
Lemma checked_opens (fd : Z) (m : M W unit) F x w0 w : calm m (λ _ _ _, True) → F !! fd = None → fds w = <[fd := x]> F → moves w0 w →
  wp (on_error m (close fd) ;; mret fd) (opens F x w0) w.
Proof using Sys.
  intros Hm Hfd Hw Hw0. apply wp_bind. eapply wp_mono; [by apply (checked_wp fd m F x) |]. intros r w' (Hm' & Hi & Hs & Hok).
  assert (moves w0 w') as Hm0 by by eapply moves_trans. destruct r as [[]|e]; [| by split_and!].
  apply wp_mret. split_and!; try done. intros ? [= <-]. auto.
Qed.
Lemma openat_wp d name flags w x : child (default Foreign (fds w !! d)) name = x → wp (openat d name flags) (opens (fds w) x w) w.
Proof using Sys.
  intros Hx. eapply wp_mono; [apply (sys_openat Sys) |]. intros [fd|e] w' (Hm & Hi & Hf).
  - destruct Hf as [Hn Hf]. rewrite Hx in Hf. split_and!; [done | done | rewrite Hf; by apply insert_subseteq | by intros ? [= <-]].
  - split_and!; [done | done | by rewrite Hf | done].
Qed.
Lemma opened_wp name field flags w : ready w → name ∈ names → field ≠ ("stats" : pystr) →
  wp (opened o name field flags) (opens (fds w) (Attribute name field) w) w.
Proof using Sys.
  intros (_ & _ & Hp) Hn Hfield. unfold opened. apply wp_bind. eapply wp_mono; [apply calm_same |].
  intros [parent|e] w1 (Hm1 & Hf1 & Hi1 & Hq); [| split_and!; [done | done | by rewrite Hf1 | done]].
  destruct (Hp name Hn) as (pd & Hpd & Hd). rewrite (Hq parent eq_refl) in Hpd. injection Hpd as ->. rewrite <- Hf1 in Hd |- *.
  assert (∀ s, calm (s ← fstat s; require (is_reg s && trusted s) "unsafe CPU attribute") (λ _ _ _, True)) as Hcheck
    by (intros; eapply calm_bind; [apply (sys_fstat Sys) | intros; apply calm_need | done]).
  case_bool_decide as Hstats.
  - subst field. do 2 apply wp_bind. eapply wp_mono; [apply (openat_wp pd "stats" DIRECTORY w1 (Stats name)); by rewrite Hd |].
    intros [s|e] w2 (Hm2 & Hi2 & Hsub2 & Hok2); [| split_and!; [by eapply moves_trans | done | done | done]].
    destruct (Hok2 s eq_refl) as [Hs Hw2]. apply wp_bind. eapply wp_mono; [by apply (checked_wp s _ (fds w1) (Stats name)), Hw2; [apply calm_directory |] |].
    intros r w3 (Hm3 & Hi3 & Hsub3 & Hok3). assert (moves w w3) as Hm03 by (eapply moves_trans; [by eapply moves_trans | done]).
    destruct r as [[]|e]; [| by split_and!]. specialize (Hok3 eq_refl). apply wp_mret, wp_bind, wp_finally.
    eapply wp_mono; [apply (openat_wp s "time_in_state" flags w3 (Attribute name STATS_FIELD)); by rewrite Hok3, lookup_insert_eq |].
    intros r w4 (Hm4 & Hi4 & Hsub4 & Hok4). assert (moves w w4) as Hm04 by by eapply moves_trans.
    eapply wp_mono; [apply (sys_close Sys) |]. intros c w5 (Hm5 & Hi5 & Hf5). assert (moves w w5) as Hm05 by by eapply moves_trans.
    assert (fds w1 ⊆ fds w5) as Hsub5.
    { rewrite Hf5. rewrite Hok3 in Hsub4. apply map_subseteq_spec. intros k v Hk. rewrite lookup_delete_ne by (intros ->; congruence).
      eapply lookup_weaken; [| exact Hsub4]. rewrite lookup_insert_ne; [done | intros ->; congruence]. }
    destruct c as [[]|e]; [| by destruct r; split_and!]. destruct r as [fd|e]; [| by split_and!].
    destruct (Hok4 fd eq_refl) as [Hfd Hf4]. rewrite Hok3 in Hfd, Hf4. apply lookup_insert_None in Hfd as [Hfd Hne].
    apply (checked_opens fd _ (fds w1) (Attribute name STATS_FIELD)); [done | done | | done].
    by rewrite Hf5, Hf4, delete_insert_ne, delete_insert_id.
  - apply wp_bind, wp_mret, wp_bind, wp_finally.
    eapply wp_mono; [apply (openat_wp pd field flags w1 (Attribute name field)); rewrite Hd; simpl; by rewrite bool_decide_false |].
    intros [fd|e] w2 (Hm2 & Hi2 & Hsub2 & Hok2); apply wp_mret; [| split_and!; [by eapply moves_trans | done | done | done]].
    destruct (Hok2 fd eq_refl) as [Hfd Hw2]. apply (checked_opens fd _ (fds w1) (Attribute name field)); [done | done | done |]. by eapply moves_trans.
Qed.

(** *** Code that leaves the descriptors as they were *)
Definition neat {A} (m : M W A) (Q : A → W → W → Prop) : Prop := ∀ w, ready w →
  wp m (λ r w', moves w w' ∧ interrupted r ∧ fds w ⊆ fds w' ∧ ∀ a, r = Ok a → fds w' = fds w ∧ Q a w w') w.
Lemma neat_calm {A} (m : M W A) Q : calm m Q → neat m Q.
Proof. intros Hm w _. eapply wp_mono; [apply Hm |]. intros r w' (? & Hf & ? & ?). split_and!; [done | done | by rewrite Hf | auto]. Qed.
Lemma neat_bind {A B} (m : M W A) (f : A → M W B) Q R S : neat m Q → (∀ a, neat (f a) (R a)) →
  (∀ a b w1 w2 w3, moves w1 w2 → moves w2 w3 → fds w2 = fds w1 → fds w3 = fds w2 → Q a w1 w2 → R a b w2 w3 → S b w1 w3) → neat (m ≫= f) S.
Proof.
  intros Hm Hf HS w Hr. apply wp_bind. eapply wp_mono; [by apply Hm |]. intros [a|e] w1 (Hm1 & Hi1 & Hs1 & Hok1); [| done].
  destruct (Hok1 a eq_refl) as [Hf1 Hq]. eapply wp_mono; [apply Hf; by apply (ready_moves w); [| | rewrite Hf1] |].
  intros r w2 (Hm2 & Hi2 & Hs2 & Hok2). split_and!; [by eapply moves_trans | done | by rewrite <- Hf1 |].
  intros b ->. destruct (Hok2 b eq_refl) as [Hf2 Hrb]. split; [congruence |]. by apply (HS a b w w1 w2).
Qed.
(** What the kernel showed of a policy at some moment. *)
Definition glimpse (name field text : pystr) (w w' : W) : Prop :=
  ∃ u raw, moves w u ∧ moves u w' ∧ fds w ⊆ fds u ∧ text = strip raw ∧ ∀ p, visible u !! name = Some p → shown p field raw.
Lemma neat_read name field : name ∈ names → field ≠ ("stats" : pystr) → neat (read o name field) (glimpse name field).
Proof using Sys.
  intros Hn Hfield w Hr. unfold read. apply wp_bind. eapply wp_mono; [by apply opened_wp |].
  intros [fd|e] w1 (Hm1 & Hi1 & Hs1 & Hok1); [| done]. destruct (Hok1 fd eq_refl) as [Hfd Hf1]. apply wp_finally.
  enough (calm (raw ← os_read fd 65537; require (len raw <=? 65536) "CPU attribute read bound" ;; same o name ;;
      text ← lift (decode_ascii raw); mret (strip text))
    (λ text w w', fds w !! fd = Some (Attribute name field) → ∃ u raw, moves w u ∧ moves u w' ∧ fds u = fds w ∧ text = strip raw ∧
       ∀ p, visible u !! name = Some p → shown p field raw)) as Hbody.
  { eapply wp_mono; [apply Hbody |]. intros r w2 (Hm2 & Hf2 & Hi2 & Hq2). eapply wp_mono; [apply (sys_close Sys) |].
    intros c w3 (Hm3 & Hi3 & Hf3). rewrite Hf2, Hf1, delete_insert_id in Hf3 by done.
    assert (moves w w3) as Hm by (eapply moves_trans; [eapply moves_trans; [exact Hm1 | exact Hm2] | done]).
    destruct c as [[]|e]; [| by split_and!; [| | rewrite Hf3 |]]. split_and!; [done | done | by rewrite Hf3 |].
    intros text ->. split; [done |]. destruct (Hq2 text eq_refl) as (u & raw & Hu & Hu' & Hfu & -> & Hp); [by rewrite Hf1, lookup_insert_eq |].
    exists u, raw. split_and!; [exact (moves_trans _ _ _ Hm1 Hu) | exact (moves_trans _ _ _ Hu' Hm3) | by rewrite Hfu | done | done]. }
  apply (calm_bind _ _ _ (λ raw text _ _, text = strip raw) _ (sys_read Sys fd 65537)).
  - intros raw. eapply calm_seq; [apply calm_need | intros _]. eapply calm_seq; [apply calm_same | intros _].
    intros w'. apply wp_bind, wp_lift. unfold decode_ascii. destruct (isascii raw); cbn [negb].
    + apply wp_mret. split_and!; [apply moves_refl | done | done |]. by intros a [= <-].
    + split_and!; [apply moves_refl | done | done | done].
  - intros raw text w1' w2' w3' Hm Hm' Hq -> Ha. destruct (Hq name field Ha) as (u & Hu & Hu' & Hfu & Hp). exists u, raw. split_and!; try done.
    by eapply moves_trans.
Qed.

(** *** One policy *)
Section policy.
Context (name : pystr) (q : policy) (w0 : W).
Context (Hready : ready w0) (Hname : name ∈ names) (Hq : visible w0 !! name = Some q).
(** [w] is on the way from [w0], all descriptors closed again. *)
Definition track (w : W) : Prop := moves w0 w ∧ fds w = fds w0.
Definition broken (e : exn) (w : W) : Prop := moves w0 w ∧ @interrupted W (Raise e) ∧ fds w0 ⊆ fds w.

Lemma track_ready w : track w → ready w.
Proof using Hready. intros [Hm Hf]. apply (ready_moves w0); [done | done | by rewrite Hf]. Qed.
Lemma read_wp field (Q : res pystr → W → Prop) w : field ≠ ("stats" : pystr) → track w → (∀ e w', broken e w' → Q (Raise e) w') →
  (∀ u m raw w', track w' → moves w0 u → moves u w' → fds w0 ⊆ fds u → visible u !! name = Some (with_maximum m q) →
     shown (with_maximum m q) field raw → Q (Ok (strip raw)) w') →
  wp (read o name field) Q w.
Proof using Sys Hready Hname Hq.
  intros Hfield [Hm Hf] Hbad Hok. eapply wp_mono; [by apply neat_read, track_ready |]. intros r w' (Hm' & Hi & Hs & Ht). rewrite Hf in Hs.
  assert (moves w0 w') as Hm0 by by eapply moves_trans. destruct r as [text|e]; [| by apply Hbad].
  destruct (Ht text eq_refl) as (Hf' & u & raw & Hu & Hu' & Hfu & -> & Hp). rewrite Hf in Hfu.
  pose proof (moves_trans _ _ _ Hm Hu) as Hu0. destruct (moves_visible _ _ _ _ Hu0 Hq) as [m Hv].
  apply (Hok u m); auto. split; [done | congruence].
Qed.
Lemma require_wp ok why (Q : res unit → W → Prop) w : track w → (∀ e w', broken e w' → Q (Raise e) w') → (ok = true → Q (Ok ()) w) →
  wp (require ok why) Q w.
Proof. intros [Hm Hf] Hbad Hok. apply wp_lift. unfold need. destruct ok; [by apply Hok |]. apply Hbad. split_and!; [done | done | by rewrite Hf]. Qed.
Lemma plain_seen u m : visible u !! name = Some (with_maximum m q) → plain (with_maximum m q).
Proof using Sys. apply (sys_plain Sys). Qed.
Lemma integer_wp field (Q : res Z → W → Prop) w (value : policy → Z) : field ≠ ("stats" : pystr) → track w →
  (∀ p raw, plain p → shown p field raw → raw = str_of_Z (value p) ++ [LF] ∧ 0 ≤ value p) →
  (∀ e w', broken e w' → Q (Raise e) w') →
  (∀ u m w', track w' → moves w0 u → moves u w' → fds w0 ⊆ fds u → visible u !! name = Some (with_maximum m q) →
     Q (Ok (value (with_maximum m q))) w') →
  wp (integer openat close fstat statat os_read o name field) Q w.
Proof using Sys Hready Hname Hq.
  intros Hfield Htr Hval Hbad Hok. unfold integer. apply wp_bind, (read_wp field); [done | done | done |].
  intros u m raw w' Htr' Hu Hu' Hfu Hv Hsh. destruct (Hval _ raw (plain_seen u m Hv) Hsh) as [-> Hge].
  rewrite strip_number by done. apply wp_bind, require_wp; [done | done |]. intros _. apply wp_mret. rewrite int10_str by done. by apply (Hok u).
Qed.
(** The record read is what the kernel showed when it read the maximum. *)
Definition sighted (p : policy) (w' : W) : Prop := ∃ u, moves w0 u ∧ moves u w' ∧ fds w0 ⊆ fds u ∧ visible u !! name = Some p.
Lemma read_policy_wp :
  wp (read_policy openat close fstat statat os_read o name)
    (λ r w', match r with Ok p => track w' ∧ sighted p w' | Raise e => broken e w' end) w0.
Proof using Sys Hready Hname Hq.
  assert (track w0) as H0 by (split; [apply moves_refl | done]). pose proof (sys_plain Sys _ _ _ Hq) as Hplain.
  unfold read_policy. apply wp_bind, read_wp; [done | done | done |]. intros u1 m1 raw1 w1 H1 _ _ _ Hv1 (_ & _ & _ & _ & _ & Ht).
  destruct (Ht eq_refl) as (times & Hlen & Hts & ->). destruct Hplain as (Hc & Hd & Hg & Hmin & _ & Hfn & Hf). cbn [frequencies with_maximum] in *.
  cbv zeta. rewrite table_rows by done. destruct (table_pairs (frequencies q) times Hlen Hf Hts) as [Hpairs Hheads]. cbv zeta in Hpairs, Hheads.
  apply wp_bind, require_wp; [done | done |]. intros _.
  apply wp_bind, read_wp; [done | done | done |]. intros u2 m2 raw2 w2 H2 _ _ _ _ (Hs2 & _). rewrite (Hs2 eq_refl). cbn [cpus with_maximum]. rewrite strip_line by apply Hc.
  apply wp_bind, read_wp; [done | done | done |]. intros u3 m3 raw3 w3 H3 _ _ _ _ (_ & Hs3 & _). rewrite (Hs3 eq_refl). cbn [driver with_maximum]. rewrite strip_line by apply Hd.
  apply wp_bind, read_wp; [done | done | done |]. intros u4 m4 raw4 w4 H4 _ _ _ _ (_ & _ & Hs4 & _). rewrite (Hs4 eq_refl). cbn [governor with_maximum]. rewrite strip_line by apply Hg.
  apply wp_bind, (integer_wp _ _ _ minimum); [done | done | | done |].
  { intros p raw (_ & _ & _ & ? & _) (_ & _ & _ & Hs & _). split; [by apply Hs | done]. }
  intros u5 m5 w5 H5 _ _ _ _. apply wp_bind, (integer_wp _ _ _ maximum); [done | done | | done |].
  { intros p raw (_ & _ & _ & _ & ? & _) (_ & _ & _ & _ & Hs & _). split; [by apply Hs | done]. }
  intros u6 m6 w6 H6 Hu6 Hu6' Hfu6 Hv6. apply wp_mret. rewrite Hheads. split; [done |]. by exists u6.
Qed.
End policy.

(** *** The backend *)
Lemma evolves_of w w' : ready w → moves w w' → fds w ⊆ fds w' → evolves w w'.
Proof. intros Hr Hm Hf. pose proof (ready_moves _ _ Hr Hm Hf). destruct Hm as (? & ? & ? & _). by split_and!. Qed.
Lemma track_trans w0 w1 w2 : track w0 w1 → track w1 w2 → track w0 w2.
Proof. intros [H1 F1] [H2 F2]. split; [by eapply moves_trans | congruence]. Qed.
Lemma broken_track w0 w1 e w2 : track w0 w1 → broken w1 e w2 → broken w0 e w2.
Proof. intros [H1 F1] (H2 & Hi & F2). split_and!; [by eapply moves_trans | done | by rewrite <- F1]. Qed.
Lemma ready_visible w n : ready w → n ∈ names → ∃ q, visible w !! n = Some q.
Proof. intros (_ & Hd & _) Hn. assert (n ∈ dom (visible w)) as H by (rewrite Hd; by apply elem_of_list_to_set). by apply elem_of_dom in H. Qed.

Lemma rows_wp l : ∀ rows w, ready w → (∀ n, n ∈ l → n ∈ names) → NoDup l →
  wp (fold_m (λ (rows : snap) name, p ← read_policy openat close fstat statat os_read o name; mret (<[name := p]> rows)) rows l)
    (λ r w', match r with
      | Ok s => track w w' ∧ ∀ n, (n ∈ l → ∃ p, s !! n = Some p ∧ sighted n w p w') ∧ (n ∉ l → s !! n = rows !! n)
      | Raise e => broken w e w'
      end) w.
Proof using Sys.
  induction l as [|name l IH]; intros rows w Hr Hl Hnd.
  { split; [split; [apply moves_refl | done] |]. intros n. by split; [intros ?%elem_of_nil |]. }
  apply NoDup_cons in Hnd as [Hn Hnd]. assert (name ∈ names) as Hname by (apply Hl; by left). destruct (ready_visible w name Hr Hname) as [q Hq].
  pose proof (read_policy_wp name q w Hr Hname Hq) as Hone. unfold wp, mbind, M_mbind in Hone |- *. cbn [fold_m].
  destruct (read_policy _ _ _ _ _ _ _ w) as [[p|e] w1]; cbn [fst snd] in *; [| done]. destruct Hone as [Ht Hsight].
  assert (ready w1) as Hr1 by (by apply (track_ready w)). specialize (IH (<[name := p]> rows) w1 Hr1 ltac:(intros; apply Hl; by right) Hnd).
  unfold wp in IH. cbn. destruct (fold_m _ _ l w1) as [[s|e] w2]; cbn [fst snd] in *; [| by eapply broken_track].
  destruct IH as [Ht2 Hs]. split; [by eapply track_trans |]. intros n. destruct (Hs n) as [Hin Hout]. split.
  - intros [->|Hnl]%elem_of_cons.
    + exists p. split; [rewrite Hout by done; by rewrite lookup_insert_eq |]. destruct Hsight as (u & Hu & Hu' & Hf & Hv).
      exists u. split_and!; [done | exact (moves_trans _ _ _ Hu' (proj1 Ht2)) | done | done].
    + destruct (Hin Hnl) as (p' & Hp' & u & Hu & Hu' & Hf & Hv). exists p'. split; [done |]. exists u. destruct Ht as [Hm Hf1].
      split_and!; [exact (moves_trans _ _ _ Hm Hu) | done | by rewrite <- Hf1 | done].
  - intros [Hne Hnl]%not_elem_of_cons. rewrite Hout by done. by rewrite lookup_insert_ne.
Qed.

Lemma snapshot_law w : ready w → wp (snapshot o) (λ r w', (evolves w w' ∧ now w < now w' ∧ interrupted r ∧
  ∀ s, r = Ok s → ∀ n, seen visible requested now ready w w' n (s !! n)) ∧ ∀ s, r = Ok s → fds w' = fds w) w.
Proof using Sys.
  intros Hr. unfold snapshot. apply wp_bind. unfold wp at 1. pose proof (sys_time Sys (root o) w) as Htime. pose proof (sys_listdir Sys (root o) w) as Hlist.
  unfold wp in Hlist. destruct (listdir (root o) w) as [[present|e] w1]; cbn [fst snd] in *; destruct Hlist as (Hm1 & Hf1 & Hi1 & _).
  2: { split; [| done]. split_and!; [by apply moves_evolves | done | done | done]. }
  apply wp_bind, wp_lift. unfold need. case_bool_decide; [| split; [split_and!; [by apply moves_evolves | done | done | done] | done]].
  assert (track w w1) as Ht1 by done. assert (ready w1) as Hr1 by by apply (track_ready w).
  eapply wp_mono; [apply rows_wp; [done | done | apply (bool_decide_unpack _); vm_compute; exact I] |].
  intros [s|e] w2.
  - intros [Ht2 Hs]. destruct (track_trans _ _ _ Ht1 Ht2) as [Hm2 Hf2]. pose proof (proj1 (proj2 (proj1 Ht2))) as Hn2. cbn in Hn2.
    pose proof (moves_evolves _ _ Hr Hm2 Hf2) as Hev. split; [| intros; done]. split_and!; [done | lia | done |].
    intros s' [= <-] n. destruct (decide (n ∈ names)) as [Hn|Hn].
    + destruct (Hs n) as [Hin _]. destruct (Hin Hn) as (p & -> & u & Hu & Hu' & Hfu & Hv). exists u. rewrite (proj2 Ht1) in Hfu.
      split_and!; [apply evolves_of; [done | exact (moves_trans _ _ _ Hm1 Hu) | done] | | done].
      destruct Hu' as (? & ? & ? & _). split_and!; try done. by apply (evolves_ready _ _ _ _ _ _ Hev).
    + destruct (Hs n) as [_ ->]; [| done]. rewrite lookup_empty. exists w2. split_and!; [done | apply evolves_refl; by apply (evolves_ready _ _ _ _ _ _ Hev) |].
      apply not_elem_of_dom. rewrite (moves_dom _ _ Hm2). destruct Hr as (_ & -> & _). by rewrite elem_of_list_to_set.
  - intros Hb. destruct (broken_track _ _ _ _ Ht1 Hb) as (Hm2 & Hi2 & Hf2). pose proof (proj1 (proj2 (proj1 Hb))) as Hn2. cbn in Hn2.
    split; [| done]. split_and!; [by apply evolves_of | lia | done | done].
Qed.

Lemma shows_moves w1 w2 : moves w1 w2 → shows w1 w2 (λ m, [requested w1 m; requested w2 m]).
Proof.
  intros (Hr & _ & Hs & _) n. specialize (Hs n). destruct (visible w1 !! n); [| done]. destruct Hs as (m & Hm & Hc). exists m.
  split; [done |]. rewrite !elem_of_cons, elem_of_nil in *. tauto.
Qed.
Lemma shows_around w w1 w2 w3 : moves w w1 → shows w1 w2 (λ m, [requested w1 m; requested w2 m]) → moves w2 w3 →
  shows w w3 (λ m, [requested w m; requested w3 m]).
Proof.
  intros (R1 & _ & S1 & _) S2 (R3 & _ & S3 & _) n. specialize (S1 n). specialize (S2 n). specialize (S3 n). cbn beta in *. rewrite R3.
  rewrite R1 in S2.
  destruct (visible w !! n) as [q|]; [| rewrite S1 in S2; by rewrite S2 in S3]. destruct S1 as (m1 & E1 & H1). rewrite E1 in S2.
  destruct S2 as (m2 & E2 & H2). rewrite E2 in S3. destruct S3 as (m3 & E3 & H3). exists m3. split; [done |].
  rewrite !elem_of_cons, !elem_of_nil in *. cbn [maximum with_maximum] in *. intuition congruence.
Qed.
Definition wrote (n : pystr) (v : Z) (w : W) (r : res unit) (w' : W) : Prop :=
  ready w' ∧ interrupted r ∧ now w ≤ now w' ∧ (∀ m, m ≠ n → requested w' m = requested w m) ∧
  (requested w' n = v ∨ requested w' n = requested w n ∧ r ≠ Ok ()) ∧ shows w w' (λ m, [requested w m; requested w' m]).
Lemma refused_write n v w e w' : ready w → moves w w' → fds w ⊆ fds w' → @interrupted W (Raise e) → wrote n v w (Raise e) w'.
Proof.
  intros Hr Hm Hf Hi. split; [by eapply ready_moves |]. split; [done |]. split; [apply Hm |]. split; [intros m _; apply Hm |].
  split; [right; split; [apply Hm | done] | by apply shows_moves].
Qed.
Lemma write_law n v w : ready w → wp (set_maximum o n v) (λ r w', wrote n v w r w' ∧ (r = Ok () → fds w' = fds w)) w.
Proof using Sys.
  intros Hr. unfold set_maximum. apply wp_bind, wp_lift. unfold need.
  destruct (is_in n names && (0 <? v) && (v <=? 3000000)) eqn:E; [| by split; [apply refused_write; try done; apply moves_refl |]].
  b2p. assert (n ∈ names) as Hn by by apply is_in_elem. apply wp_bind. eapply wp_mono; [by apply opened_wp |].
  intros [fd|e] w1 (Hm1 & Hi1 & Hs1 & Hok1); [| by split; [apply refused_write |]]. destruct (Hok1 fd eq_refl) as [Hfd Hf1].
  cbv zeta. apply wp_finally, wp_bind. eapply wp_mono; [apply (sys_write Sys fd n v w1); [by rewrite Hf1, lookup_insert_eq | done] |].
  intros r2 w2 (Hf2 & Hi2 & Hn2 & Hother & Hself & Hsh2).
  assert (∀ r3 w3, moves w2 w3 → fds w3 = fds w2 → interrupted r3 → (r3 = Ok () → r2 = Ok (len (str_of_Z v ++ [LF]))) →
    wp (close fd) (λ c w4, match c with Ok _ => wrote n v w r3 w4 ∧ (r3 = Ok () → fds w4 = fds w)
                           | Raise e => wrote n v w (Raise e) w4 ∧ (@Raise unit e = Ok () → fds w4 = fds w) end) w3) as Hclose.
  { intros r3 w3 Hm3 Hf3 Hi3 Hr3. eapply wp_mono; [apply (sys_close Sys) |]. intros c w4 (Hm4 & Hi4 & Hf4).
    rewrite Hf3, Hf2, Hf1, delete_insert_id in Hf4 by done. pose proof (moves_trans _ _ _ Hm3 Hm4) as Hm24.
    assert (∀ r : res unit, interrupted r → (r = Ok () → r2 = Ok (len (str_of_Z v ++ [LF]))) → wrote n v w r w4) as Hw.
    { intros r Hir Hrr. pose proof (shows_around _ _ _ _ Hm1 Hsh2 Hm24) as Hsh. pose proof (proj1 Hm1) as R1. pose proof (proj1 Hm24) as R2.
      assert (dom (visible w4) = dom (visible w)) as Hdom.
      { apply set_eq. intros k. rewrite !elem_of_dom. specialize (Hsh k). destruct (visible w !! k); [destruct Hsh as (m & -> & _); split; by eexists | by rewrite Hsh]. }
      split. { destruct Hr as (? & Hd & ?). unfold ready. by rewrite Hf4, Hdom. }
      split; [done |]. split; [pose proof (proj1 (proj2 Hm1)); pose proof (proj1 (proj2 Hm24)); lia |].
      split; [intros m Hne; rewrite R2, Hother by done; apply R1 |]. split; [| done]. rewrite R2. destruct Hself as [->|[-> Hne]]; [by left |].
      right. split; [apply R1 |]. intros ->. by apply Hne, Hrr. }
    destruct c as [[]|e]; [split; [by apply Hw | done] | split; [by apply Hw | done]]. }
  destruct r2 as [k|e]; [| by apply Hclose; [apply moves_refl | | |]].
  apply wp_bind, wp_lift. unfold need. destruct (k =? _) eqn:Ek; [| by apply Hclose; [apply moves_refl | | |]]. b2p. subst k.
  apply wp_bind. eapply wp_mono; [apply calm_same |]. intros [p|e] w3 (Hm3 & Hf3 & Hi3 & _); [apply wp_mret; by apply Hclose | by apply Hclose].
Qed.

(** C36. The cpufreq directory is a backend of the transaction: every snapshot
    shows each policy as the kernel showed it at some moment of the call, and
    a write reaches the kernel or fails, while any call may fail or be
    interrupted, and the object stays usable. *)
Theorem sysfs_backend : backend (snapshot o) (set_maximum o) visible requested now ready.
Proof using Sys.
  split.
  - intros w Hr. eapply wp_mono; [by apply snapshot_law |]. by intros r w' [H _].
  - intros w n v Hr. eapply wp_mono; [by apply write_law |]. by intros r w' [H _].
Qed.
End laws.

(** ** A kernel that follows at once *)
Record machine := Machine { x_max : gmap pystr Z; x_req : gmap pystr Z; x_now : Z; x_fds : gmap Z object }.
Definition is_word (s : pystr) : bool :=
  match head s, last s with Some c, Some d => negb (is_space c) && negb (is_space d) | _, _ => false end.
Lemma is_word_word s : is_word s = true → word s.
Proof.
  unfold is_word. destruct (head s) as [c|] eqn:Eh; [| done]. destruct (last s) as [d|] eqn:El; [| done]. intros H. b2p.
  split; [by intros -> |]. split; intros x; [rewrite Eh | rewrite El]; by intros [= <-].
Qed.
Definition is_plain (p : policy) : bool :=
  is_word p.(cpus) && is_word p.(driver) && is_word p.(governor) && (0 <=? p.(minimum)) && (p.(frequencies) != []) && forallb (λ f, 0 <=? f) p.(frequencies).
Lemma sample_plain n p m : sample_snap !! n = Some p → 1 ≤ m → plain (with_maximum m p).
Proof.
  intros Hp Hm. unfold sample_snap in Hp. apply elem_of_list_to_map_2, list_elem_of_fmap in Hp as (k & [= -> ->] & Hk).
  assert (forallb (λ n, is_plain (sample_policy n)) names = true) as Hd by (vm_compute; reflexivity).
  rewrite forallb_Forall, Forall_forall in Hd. specialize (Hd k Hk). unfold is_plain in Hd. b2p.
  split_and!; try (by apply is_word_word); try done; cbn; [lia |]. rewrite forallb_Forall in *. eapply Forall_impl; [done |]. intros f Hf. cbn in Hf. by b2p.
Qed.
Section machine.
Context (base : snap).
Definition x_visible (w : machine) : snap :=
  map_imap (λ n p, Some (with_maximum (Z.max 1 (default p.(maximum) (w.(x_max) !! n))) p)) base.
Definition x_requested (w : machine) (n : pystr) : Z := default 0 (w.(x_req) !! n).
Definition tick (w : machine) : machine := Machine w.(x_max) w.(x_req) (w.(x_now) + 1) w.(x_fds).
Definition with_fds (f : gmap Z object → gmap Z object) (w : machine) : machine := Machine w.(x_max) w.(x_req) (w.(x_now) + 1) (f w.(x_fds)).
Definition printed (p : policy) (field : pystr) : bytes :=
  if field == STATS_FIELD then unlines (map (λ f, frequency_row f 0) p.(frequencies))
  else (if field == "related_cpus" then p.(cpus) else if field == "scaling_driver" then p.(driver)
        else if field == "scaling_governor" then p.(governor) else if field == "scaling_min_freq" then str_of_Z p.(minimum)
        else str_of_Z p.(maximum)) ++ [LF].
Definition x_openat (d : Z) (name : pystr) (flags : access) : M machine Z := λ w,
  let fd := fresh (dom w.(x_fds)) in
  (Ok fd, with_fds (insert fd (child (default Foreign (w.(x_fds) !! d)) name)) w).
Definition x_close (d : Z) : M machine unit := λ w, (Ok (), with_fds (delete d) w).
Definition x_fstat (d : Z) : M machine meta := λ w,
  (Ok match w.(x_fds) !! d with Some (Attribute _ _) => Meta false true 0 0 420 0 1 | _ => Meta true false 0 0 493 0 1 end, tick w).
Definition x_statat (d : Z) (name : pystr) : M machine meta := λ w, (Ok (Meta true false 0 0 493 0 1), tick w).
Definition x_listdir (d : Z) : M machine (list pystr) := λ w, (Ok (("boost" : pystr) :: names), tick w).
Definition x_read (d n : Z) : M machine bytes := λ w,
  (match w.(x_fds) !! d with
   | Some (Attribute name field) =>
       match x_visible w !! name with Some p => Ok (printed p field) | None => Raise (Exn OSError "No such device") end
   | _ => Raise (Exn OSError "Is a directory")
   end, tick w).
Definition x_write (d : Z) (raw : bytes) : M machine Z := λ w,
  match w.(x_fds) !! d with
  | Some (Attribute name _) =>
      let v := int10 (strip raw) in
      (Ok (len raw), Machine (<[name := v]> w.(x_max)) (<[name := v]> w.(x_req)) w.(x_now) w.(x_fds))
  | _ => (Raise (Exn OSError "Invalid argument"), w)
  end.

Definition same_kernel (w w' : machine) : Prop := w'.(x_max) = w.(x_max) ∧ w'.(x_req) = w.(x_req) ∧ w.(x_now) ≤ w'.(x_now).
Lemma same_kernel_moves w w' : same_kernel w w' → evolves x_visible x_requested x_now (λ _, True) w w'.
Proof.
  intros (Hm & Hr & Hn). split; [intros n; unfold x_requested; by rewrite Hr |]. split; [done |]. split; [| done]. intros n.
  unfold x_visible. rewrite Hm. destruct (_ !! n) as [q|]; [| done]. exists q.(maximum). rewrite with_maximum_self. auto.
Qed.
Lemma tick_moves w : evolves x_visible x_requested x_now (λ _, True) w (tick w).
Proof. apply same_kernel_moves. split_and!; simpl; [done | done | lia]. Qed.
Lemma printed_shown p field : shown p field (printed p field).
Proof.
  split_and!; intros ->; try done. exists (replicate (length p.(frequencies)) 0). rewrite length_replicate. split; [done |].
  split; [by apply Forall_replicate |]. unfold printed. rewrite bool_decide_true by done. f_equal.
  induction p.(frequencies) as [|f l IH]; [done |]. simpl. by rewrite IH.
Qed.
Context (Hbase : ∀ n p m, base !! n = Some p → 1 ≤ m → plain (with_maximum m p)).
Lemma x_calm {A} (f : machine → res A) Q : (∀ w, interrupted (f w) ∧ ∀ a, f w = Ok a → Q a w (tick w)) →
  calm x_visible x_requested x_now x_fds (λ w, (f w, tick w)) Q.
Proof. intros H w. destruct (H w) as [Hi Hq]. split_and!; [apply tick_moves | done | done | done]. Qed.
Lemma machine_laws : kernel_sysfs x_openat x_close x_fstat x_statat x_listdir x_read x_write x_visible x_requested x_now x_fds.
Proof using Hbase.
  split.
  - intros d. by apply x_calm.
  - intros d name. by apply x_calm.
  - intros d. by apply x_calm.
  - intros d w. simpl. lia.
  - intros d name flags w. split; [apply same_kernel_moves; split_and!; simpl; [done | done | lia] |]. split; [done |]. split; [| done].
    apply not_elem_of_dom, is_fresh.
  - intros d w. split; [apply same_kernel_moves; split_and!; simpl; [done | done | lia] | by split].
  - intros d n. apply x_calm. intros w. destruct (x_fds w !! d) as [[| | |name field|]|]; [by split | by split | by split | | by split | by split].
    destruct (x_visible w !! name) as [p|] eqn:E; [| split; [exact eq_refl | intros a Ha; discriminate Ha]].
    split; [exact I |]. intros raw [= <-] name' field' [= <- <-]. exists w.
    split; [apply evolves_refl; exact I |]. split; [apply tick_moves |]. split; [reflexivity |].
    intros p' Hp'. rewrite E in Hp'. injection Hp' as <-. apply printed_shown.
  - intros d name v w Hd Hv. unfold wp, x_write. rewrite Hd, strip_number, int10_str by lia. cbn [fst snd x_fds x_now].
    split_and!; [done | done | lia | | left; unfold x_requested; simpl; by rewrite lookup_insert_eq |].
    + intros m Hm. unfold x_requested. simpl. by rewrite lookup_insert_ne.
    + intros m. unfold x_visible, x_requested. simpl. rewrite !map_lookup_imap. destruct (base !! m) as [q|]; [| done]. simpl.
      destruct (decide (m = name)) as [->|Hne].
      * rewrite !lookup_insert_eq. simpl. exists v. split; [f_equal; unfold with_maximum; simpl; f_equal; lia | set_solver].
      * rewrite !lookup_insert_ne by done. eexists. split; [reflexivity | by left].
  - intros w n p Hp. unfold x_visible in Hp. rewrite map_lookup_imap in Hp. destruct (base !! n) as [q|] eqn:E; [| done].
    simpl in Hp. injection Hp as <-. apply (Hbase n); [done | lia].
Qed.

End machine.

Definition x_object : sysfs := Object 3 (list_to_map [("policy0" : pystr, 4); ("policy4" : pystr, 5); ("policy7" : pystr, 6)]).
Definition x_start : machine :=
  Machine ∅ ∅ 0 (list_to_map [(3, Root); (4, Directory "policy0"); (5, Directory "policy4"); (6, Directory "policy7")]).
Lemma sysfs_backend_witness :
  kernel_sysfs x_openat x_close x_fstat x_statat x_listdir (x_read sample_snap) x_write (x_visible sample_snap) x_requested x_now x_fds ∧
  ready (x_visible sample_snap) x_fds x_object x_start ∧
  backend (snapshot x_openat x_close x_fstat x_statat x_listdir (x_read sample_snap) x_object) (set_maximum x_openat x_close x_fstat x_statat x_write x_object)
    (x_visible sample_snap) x_requested x_now (ready (x_visible sample_snap) x_fds x_object).
Proof.
  split; [exact (machine_laws sample_snap sample_plain) |]. split; [| exact (sysfs_backend _ _ _ _ _ _ _ _ _ _ _ (machine_laws sample_snap sample_plain) x_object)].
  split; [reflexivity |]. split; [apply (bool_decide_unpack _); vm_compute; exact I |].
  intros n Hn. unfold names, CAPS in Hn. cbn [map fst] in Hn. repeat (apply elem_of_cons in Hn as [->|Hn]; [eexists; split; reflexivity |]). by apply elem_of_nil in Hn.
Defined.
