(* ===== verification/CpuPolicy.v ===== *)
(** * Running the frequency cap under signals

    The bounded lease of scripts/device/cpu-frequency-cap.py ([lease]) and the
    boot policy of scripts/device/headless-cpu-policy.py ([record], [guard],
    [apply], [main]), which both run the transaction of CpuCap with their own
    signal handlers and an alarm.  A handler raises [InterruptedError] in
    whatever call the signal strikes: the laws of CpuCap let every call do so.
    The last calls of the [finally], which put the handlers back, are taken to
    be uninterrupted. *)

From S2P Require Import Prelude PyStr PyData CpuCap.

Definition SECOND : Z := 1000000000.

(** ** Handlers and the alarm *)
Inductive handler := Before (name : pystr) | Interrupted.
Definition SIGALRM : Z := 14.
Definition SIGNALS : list Z := [SIGALRM; 15; 1; 2].
Record signals := Signals { handlers : gmap Z handler; timer : Z }.

Section signals.
Context {W A : Type}.
Abbreviation process := (M (signals * W)).
Definition on_world {B} (m : M W B) : process B := λ '(s, w), let '(r, w') := m w in (r, (s, w')).
Definition getitimer : process Z := λ '(s, w), (Ok s.(timer), (s, w)).
Definition setitimer (t : Z) : process unit := λ '(s, w), (Ok (), (Signals s.(handlers) t, w)).
Definition getsignal (n : Z) : process (option handler) := λ '(s, w), (Ok (s.(handlers) !! n), (s, w)).
Definition signal (n : Z) (h : option handler) : process unit := λ '(s, w),
  (Ok (), (Signals (partial_alter (λ _, h) n s.(handlers)) s.(timer), w)).
(** A signal that came in is delivered. *)
Context (strike : M W unit).

Definition previous_handlers : process (list (Z * option handler)) :=
  fold_m (λ previous n, h ← getsignal n; mret (previous ++ [(n, h)])) [] SIGNALS.
Definition guarded (limit : Z) (message : pystr) (m : M W A) : process A :=
  t ← getitimer;
  on_world (require (t =? 0) message) ;;
  previous ← previous_handlers;
  finally
    (each (λ n, signal n (Some Interrupted) ;; on_world strike) SIGNALS ;;
     setitimer limit ;;
     on_world strike ;;
     on_world m)
    (setitimer 0 ;; each (λ '(n, h), signal n h) previous).
End signals.

(** ** The lease *)
Section lease.
Context {W : Type}.
Context (snapshot : M W snap) (set_maximum : pystr → Z → M W unit) (guard : M W unit) (monotonic : M W Z) (sleep : Z → M W unit).
Context (strike : M W unit) (observe : Z → snap → M W unit) (clock : M W Z) (pause : Z → M W unit).

Definition capped_now (s : snap) : bool := (maximum <$> s) == list_to_map CAPS.
Definition lease_round (start deadline : Z) (count : Z) : M W (Z + Z) :=
  t ← clock;
  if t <? deadline then
    guard ;;
    current ← snapshot;
    require (capped_now current) "cap changed during lease" ;;
    elapsed ← clock;
    observe (elapsed - start) current ;;
    t ← clock;
    pause (Z.min SECOND (Z.max 0 (deadline - t))) ;;
    mret (inl (count + 1))
  else mret (inr count).
(** Every round takes a nanosecond or more. *)
Definition LEASE_ROUNDS : positive := 2 ^ 40.
Definition lease_action (seconds : Z) : M W (Z * Z) :=
  start ← clock;
  samples ← while LEASE_ROUNDS (lease_round start (start + seconds * SECOND)) 0;
  t ← clock;
  mret (t - start, samples).
Definition lease (seconds : Z) : M (signals * W) outcome :=
  on_world (require ((1 <=? seconds) && (seconds <=? 720)) "invalid cap lease duration") ;;
  guarded strike ((seconds + 15) * SECOND) "existing alarm cannot be replaced"
    (run snapshot set_maximum guard (lease_action seconds) monotonic sleep false).
End lease.

(** ** The boot policy *)
Record file_meta := FileMeta { f_regular : bool; f_uid : Z; f_gid : Z; f_perm : Z; f_nlink : Z }.
Definition private_file (perm : Z) (s : file_meta) : bool :=
  s.(f_regular) && (s.(f_uid) =? 0) && (s.(f_gid) =? 0) && (s.(f_perm) =? perm) && (s.(f_nlink) =? 1).
(** [int(text)] *)
Fixpoint decimal_body (acc : Z) (digit_before : bool) (s : pystr) : option Z :=
  match s with
  | [] => if digit_before then Some acc else None
  | c :: s' =>
      if is_digit c then decimal_body (acc * 10 + digit c) true s'
      else if (c == "_"%char) && digit_before then
        match s' with d :: _ => if is_digit d then decimal_body acc false s' else None | [] => None end
      else None
  end.
Definition int_10 (s : pystr) : option Z :=
  match strip s with
  | c :: t => if c == "-"%char then Z.opp <$> decimal_body 0 false t
              else if c == "+"%char then decimal_body 0 false t
              else decimal_body 0 false (c :: t)
  | [] => None
  end.
Definition to_int (s : pystr) : res Z := of_option (int_10 s) ValueError "invalid literal for int() with base 10".
Definition record_line (value : dict pystr) (line : pystr) : res (dict pystr) :=
  let '(k, sep, v) := partition "=" line in
  need (sep && negb (dmem k value)) "P2 record fields" ;;
  Ok (dset k v value).
Definition hex_or_dash (c : ascii) : bool := between "0" "9" c || between "a" "f" c || (c == "-"%char).
Definition BATTERY : pystr := "/sys/class/power_supply/qcom-battmgr-bat/".

Section policy.
Context {W : Type}.
Context (os_open : pystr → M W Z) (os_fstat : Z → M W file_meta) (os_read : Z → Z → M W bytes) (os_close : Z → M W unit) (lstat : pystr → M W file_meta).
Context (geteuid : M W Z) (release : M W pystr) (read_text : pystr → M W pystr) (read_bytes : pystr → M W bytes).
(** The directories that match [thermal_zone*] and [sd*]. *)
Context (thermal_zones blocks : M W (list pystr)) (type_name : exn → pystr).

Definition record (path : pystr) : M W (dict pystr) :=
  fd ← os_open path;
  raw ← finally
    (s ← os_fstat fd;
     require (private_file 292 s) "P2 record metadata" ;;
     raw ← os_read fd 4097;
     require ((0 <? len raw) && (len raw <=? 4096)) "P2 record bound" ;;
     mret raw)
    (os_close fd);
  text ← lift (decode_ascii raw);
  lift (fold_res record_line [] (splitlines text)).
Definition field_is (p2 : dict pystr) (k v : pystr) : bool := bool_decide (dget k p2 = Some v).
Definition stripped (path : pystr) : M W pystr := text ← read_text path; mret (strip text).
Definition unreadable (c : exn_class) : bool := is_oserror c || match c with ValueError | UnicodeError => true | _ => false end.
Definition check_zone (zone : pystr) : M W unit :=
  temperature ← catch (text ← read_text ("/sys/class/thermal/" ++ zone ++ "/temp"); lift (to_int text))
                  unreadable (λ e, raise ValueError (zone ++ " read error: " ++ type_name e));
  require (temperature <? 60000) (zone ++ "=" ++ str_of_Z temperature ++ " mC; required <60000 mC").
Definition WRITABLE : list pystr := ["sda" : pystr; "sda23" : pystr].
Definition guard : M W pystr :=
  euid ← geteuid;
  require (euid =? 0) "root required" ;;
  compatible ← read_bytes "/proc/device-tree/compatible";
  require (compatible == (("asus,rog-phone5" : pystr) ++ ["000"%char] ++ ("qcom,sm8350" : pystr) ++ ["000"%char])) "wrong device tree" ;;
  boot ← stripped "/proc/sys/kernel/random/boot_id";
  require ((len boot =? 36) && forallb hex_or_dash boot) "boot identity" ;;
  p2 ← record "/run/rog5-p2-ready";
  kernel ← release;
  require (field_is p2 "status" "PASS" && field_is p2 "attested_boot_id" boot && field_is p2 "kernel" kernel) "current P2 required" ;;
  require (field_is p2 "physical_blocks" "117" && field_is p2 "root_mount" "native-root-ro-noload") "native root attestation" ;;
  health ← stripped (BATTERY ++ "health");
  battery ← (if health == ("Good" : pystr) then
               text ← stripped (BATTERY ++ "temp");
               temp ← lift (to_int text);
               if (0 <=? temp) && (temp <? 400) then
                 text ← stripped (BATTERY ++ "voltage_now");
                 voltage ← lift (to_int text);
                 mret ((7500000 <=? voltage) && (voltage <=? 8800000))
               else mret false
             else mret false);
  require battery "unsafe battery" ;;
  online ← stripped "/sys/class/power_supply/qcom-battmgr-usb/online";
  require (online == ("1" : pystr)) "input power absent" ;;
  zones ← thermal_zones;
  require (zones != []) "unavailable thermal state: no thermal zones" ;;
  each check_zone zones ;;
  names ← blocks;
  states ← fold_m (λ states name, v ← stripped ("/sys/class/block/" ++ name ++ "/ro"); mret (dset name v states)) ([] : dict pystr) names;
  require ((len states =? 117) && forallb (λ kv : pystr * pystr, is_in kv.2 ["0" : pystr; "1" : pystr]) states
           && forallb (λ kv : pystr * pystr, (kv.2 != "0") || is_in kv.1 WRITABLE) states) "storage write scope" ;;
  mret boot.

(** The class [Sysfs] of the core. *)
Context {B : Type} (new_backend : M W B) (close_backend : B → M W unit).
Context (snapshot : B → M W snap) (set_maximum : B → pystr → Z → M W unit) (monotonic : M W Z) (sleep : Z → M W unit) (strike : M W unit).
Definition check : M W unit := guard ;; mret ().
Definition apply (b : B) : M (signals * W) outcome :=
  guarded strike (10 * SECOND) "existing timer" (run (snapshot b) (set_maximum b) check (mret ()) monotonic sleep true).
Definition CORE : pystr := "/run/rog5-native-wifi/cpu-frequency-cap.py".
Definition main : M (signals * W) (pystr * outcome) :=
  on_world guard ;;
  s ← on_world (lstat CORE);
  on_world (require (private_file 420 s) "core metadata") ;;
  b ← on_world new_backend;
  result ← finally (apply b) (on_world (close_backend b));
  boot_id ← on_world guard;
  mret (boot_id, result).
End policy.

(** ** The handlers come back *)
Section signals_wp.
Context {W A : Type} (strike : M W unit) (I : W → Prop).
Context (Hstrike : ∀ w, I w → wp strike (λ r w', I w' ∧ interrupted r) w).

Lemma wp_world {B} (m : M W B) (Q : res B → signals * W → Prop) s w : wp m (λ r w', Q r (s, w')) w → wp (on_world m) Q (s, w).
Proof. unfold wp, on_world. by destruct (m w). Qed.
(** Only the handlers of [SIGNALS] and the timer differ. *)
Definition touched (s s' : signals) : Prop := ∀ n, n ∉ SIGNALS → s'.(handlers) !! n = s.(handlers) !! n.
Lemma install_wp s l s1 w (Q : res unit → signals * W → Prop) : (∀ n, n ∈ l → n ∈ SIGNALS) → touched s s1 → I w →
  (∀ s2 w2, touched s s2 → I w2 → Q (Ok ()) (s2, w2)) → (∀ e s2 w2, touched s s2 → I w2 → @interrupted unit (Raise e) → Q (Raise e) (s2, w2)) →
  wp (each (λ n, signal n (Some Interrupted) ;; on_world strike) l) Q (s1, w).
Proof using Hstrike.
  revert s1 w. induction l as [|n l IH]; intros s1 w Hl Hs Hw Hok Hbad; [by apply Hok |].
  assert (touched s (Signals (partial_alter (λ _, Some Interrupted) n s1.(handlers)) s1.(timer))) as Hs1.
  { intros k Hk. simpl. rewrite lookup_partial_alter_ne; [by apply Hs |]. intros ->. apply Hk, Hl. by left. }
  unfold wp. cbn [each]. pose proof (Hstrike w Hw) as H. unfold wp in H. unfold mbind, M_mbind, signal, on_world.
  destruct (strike w) as [[[]|e] w1]; cbn [fst snd] in *; destruct H as [H1 Hi]; [| by apply Hbad].
  apply IH; [intros k Hk; apply Hl; by right | done..].
Qed.
Lemma restore_handlers s s1 w (Q : res unit → signals * W → Prop) : touched s s1 → Q (Ok ()) (Signals s.(handlers) 0, w) →
  wp (setitimer 0 ;; each (λ '(n, h), signal n h) (map (λ n, (n, s.(handlers) !! n)) SIGNALS)) Q (s1, w).
Proof.
  intros Hs HQ. unfold wp, setitimer, mbind, M_mbind. cbn [SIGNALS map each signal handlers timer fst snd pass].
  replace (partial_alter _ 2 _) with s.(handlers); [exact HQ |]. apply map_eq. intros n.
  assert (∀ k (h : option handler) (m : gmap Z handler), partial_alter (λ _, h) k m !! n = if decide (k = n) then h else m !! n) as Hlook.
  { intros k h m. case_decide as Hk; [subst; by rewrite lookup_partial_alter_eq | by rewrite lookup_partial_alter_ne]. }
  rewrite !Hlook. repeat (case_decide; [by subst |]). symmetry. apply Hs. unfold SIGNALS, SIGALRM. rewrite !elem_of_cons, elem_of_nil. unfold SIGALRM in *; intuition lia.
Qed.

Lemma guarded_wp limit message (m : M W A) (Q : res A → W → Prop) s w : I w →
  (∀ w, I w → wp m Q w) → (∀ e w, I w → @interrupted A (Raise e) → Q (Raise e) w) →
  wp (guarded strike limit message m) (λ r sw, sw.1 = s ∧ Q r sw.2 ∧ ∀ a, r = Ok a → s.(timer) = 0) (s, w).
Proof using Hstrike.
  intros Hw Hm Hbad. unfold guarded. apply wp_bind. unfold wp at 1, getitimer. cbn [fst snd].
  apply wp_bind, wp_world, wp_lift. unfold need. destruct (s.(timer) =? 0) eqn:Et; [| by split_and!; [| apply Hbad |]]. b2p.
  apply wp_bind. unfold wp at 1, previous_handlers. cbn [SIGNALS fold_m getsignal mbind M_mbind mret M_mret fst snd app].
  change (wp (finally (each (λ n, signal n (Some Interrupted) ;; on_world strike) SIGNALS ;; setitimer limit ;; on_world strike ;; on_world m)
    (setitimer 0 ;; each (λ '(n, h), signal n h) (map (λ n, (n, s.(handlers) !! n)) SIGNALS)))
    (λ r sw, sw.1 = s ∧ Q r sw.2 ∧ ∀ a, r = Ok a → s.(timer) = 0) (s, w)).
  apply wp_finally, wp_bind. assert (s = Signals s.(handlers) 0) as Hsame by (destruct s; simpl in *; by subst).
  assert (∀ (r : res A) s2 w2, touched s s2 → Q r w2 → wp (setitimer 0 ;; each (λ '(n, h), signal n h) (map (λ n, (n, s.(handlers) !! n)) SIGNALS))
    (λ r' sw, match r' with Ok _ => sw.1 = s ∧ Q r sw.2 ∧ ∀ a, r = Ok a → s.(timer) = 0
              | Raise e => sw.1 = s ∧ Q (Raise e) sw.2 ∧ ∀ a, @Raise A e = Ok a → s.(timer) = 0 end) (s2, w2)) as Hend.
  { intros r s2 w2 Hs2 Hq. apply (restore_handlers s); [done |]. cbn. split_and!; [by symmetry | done | done]. }
  apply (install_wp s); [done | done | done | |].
  - intros s2 w2 Hs2 H2. apply wp_bind. unfold wp at 1, setitimer at 1. cbn [fst snd]. assert (touched s (Signals s2.(handlers) limit)) as Hs2' by done.
    apply wp_bind, wp_world. eapply wp_mono; [by apply Hstrike |]. intros [[]|e] w3 [H3 Hi3]; [| by apply Hend; [| apply Hbad]].
    apply wp_world. eapply wp_mono; [by apply Hm |]. intros r w4 Hr. by apply Hend.
  - intros e s2 w2 Hs2 H2 Hi. by apply Hend; [| apply Hbad].
Qed.
End signals_wp.

(** ** What the lease relies on and promises *)
Section lease_laws.
Context {W : Type}.
Context (snapshot : M W snap) (set_maximum : pystr → Z → M W unit) (guard : M W unit) (monotonic : M W Z) (sleep : Z → M W unit).
Context (strike : M W unit) (observe : Z → snap → M W unit) (clock : M W Z) (pause : Z → M W unit).
Context (visible : W → snap) (requested : W → pystr → Z) (now : W → Z) (ready : W → Prop).
Abbreviation evolves := (evolves visible requested now ready).
Abbreviation restored := (restored visible requested ready).

(** The calls of the transaction, and the ones of the lease: [observe] is only
    ever called with every policy at its cap. *)
Record leasing : Prop := {
  lease_backend : backend snapshot set_maximum visible requested now ready;
  lease_guard : ∀ w, ready w → wp guard (λ r w', evolves w w' ∧ ended r) w;
  lease_monotonic : ∀ w, ready w → wp monotonic (λ r w', evolves w w' ∧ interrupted r ∧ ∀ t, r = Ok t → now w ≤ t ≤ now w') w;
  lease_sleep : ∀ w d, ready w → wp (sleep d) (λ r w', evolves w w' ∧ interrupted r) w;
  lease_strike : ∀ w, ready w → wp strike (λ r w', evolves w w' ∧ interrupted r) w;
  lease_clock : ∀ w, ready w → wp clock (λ r w', evolves w w' ∧ ended r ∧ ∀ t, r = Ok t → now w ≤ t ≤ now w') w;
  lease_pause : ∀ w d, ready w → wp (pause d) (λ r w', evolves w w' ∧ ended r) w;
  lease_observe : ∀ w t s, ready w → capped_now s = true → wp (observe t s) (λ r w', evolves w w' ∧ ended r) w
}.
Context (Laws : leasing).
Abbreviation trans := (evolves_trans visible requested now ready).

Lemma lease_round_wp start deadline count w0 w : ready w → evolves w0 w →
  wp (lease_round snapshot guard observe clock pause start deadline count)
    (λ r w', evolves w0 w' ∧ ended r ∧ match r with
      | Ok (inl c) => c = count + 1 ∧ now w < deadline ∧ now w < now w'
      | Ok (inr c) => c = count ∧ deadline ≤ now w'
      | Raise _ => True
      end) w.
Proof using Laws.
  intros Hr Hv0. unfold lease_round. apply wp_bind. eapply wp_mono; [by apply (lease_clock Laws) |].
  intros [t|e] w1 (Hv1 & He1 & Ht1); [| split_and!; [exact (trans _ _ _ Hv0 Hv1) | done | done]]. specialize (Ht1 t eq_refl).
  pose proof (trans _ _ _ Hv0 Hv1) as Hv01. pose proof (evolves_ready _ _ _ _ _ _ Hv1) as Hr1. destruct (t <? deadline) eqn:Et; b2p.
  2: { apply wp_mret. split_and!; [done | done | done | lia]. }
  apply wp_bind. eapply wp_mono; [by apply (lease_guard Laws) |]. intros [[]|e] w2 [Hv2 He2]; [| split_and!; [exact (trans _ _ _ Hv01 Hv2) | done | done]].
  pose proof (trans _ _ _ Hv01 Hv2) as Hv02. pose proof (evolves_ready _ _ _ _ _ _ Hv2) as Hr2.
  apply wp_bind. eapply wp_mono; [by apply (law_snapshot _ _ _ _ _ _ (lease_backend Laws)) |]. intros r w3 (Hv3 & Hn3 & Hi3 & _). apply interrupted_ended in Hi3.
  pose proof (trans _ _ _ Hv02 Hv3) as Hv03. pose proof (evolves_ready _ _ _ _ _ _ Hv3) as Hr3. destruct r as [current|e]; [| by split_and!].
  apply wp_bind, wp_lift. unfold need. destruct (capped_now current) eqn:Ec; [| by split_and!].
  apply wp_bind. eapply wp_mono; [by apply (lease_clock Laws) |]. intros r w4 (Hv4 & He4 & _).
  pose proof (trans _ _ _ Hv03 Hv4) as Hv04. pose proof (evolves_ready _ _ _ _ _ _ Hv4) as Hr4. destruct r as [elapsed|e]; [| by split_and!].
  apply wp_bind. eapply wp_mono; [by apply (lease_observe Laws) |]. intros r w5 [Hv5 He5].
  pose proof (trans _ _ _ Hv04 Hv5) as Hv05. pose proof (evolves_ready _ _ _ _ _ _ Hv5) as Hr5. destruct r as [[]|e]; [| by split_and!].
  apply wp_bind. eapply wp_mono; [by apply (lease_clock Laws) |]. intros r w6 (Hv6 & He6 & _).
  pose proof (trans _ _ _ Hv05 Hv6) as Hv06. pose proof (evolves_ready _ _ _ _ _ _ Hv6) as Hr6. destruct r as [t'|e]; [| by split_and!].
  apply wp_bind. eapply wp_mono; [by apply (lease_pause Laws) |]. intros r w7 [Hv7 He7].
  pose proof (trans _ _ _ Hv06 Hv7) as Hv07. destruct r as [[]|e]; [| by split_and!]. apply wp_mret.
  assert (∀ a b, evolves a b → now a ≤ now b) as Hnow by by intros a b (_ & ? & _).
  apply Hnow in Hv1, Hv2, Hv4, Hv5, Hv6, Hv7. split_and!; [done | done | done | lia | lia].
Qed.

(** What a finished lease says: the time it held the caps, and the samples. *)
Definition held (seconds : Z) (a : Z * Z) : Prop := seconds * SECOND ≤ a.1 ∧ 0 ≤ a.2.
Lemma lease_action_wp seconds w : 1 ≤ seconds ≤ 720 → ready w →
  wp (lease_action snapshot guard observe clock pause seconds) (λ r w', evolves w w' ∧ ended r ∧ ∀ a, r = Ok a → held seconds a) w.
Proof using Laws.
  intros Hsec Hr. unfold lease_action. apply wp_bind. eapply wp_mono; [by apply (lease_clock Laws) |].
  intros [start|e] w1 (H1 & He1 & Ht1); [| done]. specialize (Ht1 start eq_refl). apply wp_bind. set (deadline := start + seconds * SECOND).
  apply (wp_while _ (λ c w', 0 ≤ c ∧ evolves w w') (λ _ w', Z.max 0 (deadline - now w'))).
  - intros c w2 [Hc H2]. split; [lia |]. pose proof (evolves_ready _ _ _ _ _ _ H2) as Hr2.
    eapply wp_mono; [by apply (lease_round_wp start deadline c w) |]. intros [[c'|c']|e] w3 (H3 & He3 & Hcase).
    + destruct Hcase as (-> & Hlt & Hn). split; [split; [lia | done] | lia].
    + destruct Hcase as [-> Hn]. apply wp_bind. eapply wp_mono; [by eapply (lease_clock Laws), evolves_ready |].
      intros [t|e] w4 (H4 & He4 & Ht4); [| split_and!; [exact (trans _ _ _ H3 H4) | done | done]]. specialize (Ht4 t eq_refl).
      apply wp_mret. split_and!; [exact (trans _ _ _ H3 H4) | done |]. intros a [= <-]. unfold held, deadline in *. cbn. lia.
    + by split_and!.
  - by split.
  - change (Z.pos LEASE_ROUNDS) with 1099511627776. unfold deadline, SECOND. lia.
Qed.

(** A lease holds the caps for its whole time and then gives them back:
    wherever a signal strikes or a call fails, it ends with the process's
    signal handlers and alarm as they were, and with the original maxima shown
    and requested again, or says that the restoration is incomplete.  It ends
    normally only after the time asked for, and only if every policy was at
    its cap whenever it looked. *)
Theorem lease_restores seconds s w : ready w → (∀ n p, visible w !! n = Some p → requested w n = p.(maximum)) →
  wp (lease snapshot set_maximum guard monotonic sleep strike observe clock pause seconds)
    (λ r sw, sw.1 = s ∧ ended r ∧ match r with
      | Ok o => 1 ≤ seconds ≤ 720 ∧ s.(timer) = 0 ∧ restored (visible w) sw.2 ∧ o.(o_after) = visible w ∧
          o.(o_during) = Some (capped names (visible w)) ∧ ∃ a, o.(o_action) = Some a ∧ held seconds a
      | Raise e => restored (visible w) sw.2 ∨ incomplete e
      end) (s, w).
Proof using Laws.
  intros Hr Hstable. assert (restored (visible w) w) as H0 by by split_and!. unfold lease. apply wp_bind, wp_world, wp_lift. unfold need.
  destruct ((1 <=? seconds) && (seconds <=? 720)) eqn:Esec; [| by split_and!; [| | left]]. b2p.
  assert (cpufreq snapshot set_maximum guard (lease_action snapshot guard observe clock pause seconds) monotonic sleep visible requested now ready (held seconds)) as Hcpu.
  { destruct Laws. split; try done. intros u Hu. by apply lease_action_wp. }
  eapply wp_mono; [apply (guarded_wp strike) with (I := restored (visible w)) (Q := run_post visible requested ready (held seconds) (visible w) false); [| done | |] |].
  - intros u Hu. eapply wp_mono; [by apply (lease_strike Laws), Hu |]. intros r u' [Hev Hi]. split; [by eapply restored_evolves | done].
  - intros u Hu. by apply (run_wp _ _ _ _ _ _ _ _ _ _ _ Hcpu).
  - intros e u Hu Hi. split; [by apply interrupted_ended in Hi | by left].
  - intros [o|e] [s' w'] (Hs & [He Hpost] & Htimer); cbn in *; (split; [done |]); (split; [done |]); [| naive_solver].
    destruct Hpost as (_ & Hd & Ha & _ & Haf & Hres). split_and!; try done; try lia. by eapply Htimer.
Qed.
End lease_laws.

(** ** What the boot policy promises *)
Section policy_laws.
Context {W : Type}.
Context (os_open : pystr → M W Z) (os_fstat : Z → M W file_meta) (os_read : Z → Z → M W bytes) (os_close : Z → M W unit).
Context (geteuid : M W Z) (release : M W pystr) (read_text : pystr → M W pystr) (read_bytes : pystr → M W bytes).
Context (thermal_zones blocks : M W (list pystr)) (type_name : exn → pystr).
Context {B : Type} (snapshot : B → M W snap) (set_maximum : B → pystr → Z → M W unit) (monotonic : M W Z) (sleep : Z → M W unit) (strike : M W unit).
Context (visible : W → snap) (requested : W → pystr → Z) (now : W → Z) (ready : W → Prop).
Abbreviation checked := (check os_open os_fstat os_read os_close geteuid release read_text read_bytes thermal_zones blocks type_name).
Abbreviation restored := (restored visible requested ready).
Abbreviation applied := (applied visible requested).

(** C37. The boot policy leaves the handlers and the alarm of the process as
    they were, and the caps in force when it succeeds.  When it fails, the
    original maxima are shown and requested again, or the error says that the
    restoration is incomplete, or the caps stay in force: the snapshot that
    follows a retained success may fail, and nothing then restores. *)
Theorem apply_retains b s w : cpufreq (snapshot b) (set_maximum b) checked (mret ()) monotonic sleep visible requested now ready (λ _ : unit, True) →
  (∀ w, ready w → wp strike (λ r w', evolves visible requested now ready w w' ∧ interrupted r) w) →
  ready w → (∀ n p, visible w !! n = Some p → requested w n = p.(maximum)) →
  wp (apply os_open os_fstat os_read os_close geteuid release read_text read_bytes thermal_zones blocks type_name snapshot set_maximum monotonic sleep strike b)
    (λ r sw, sw.1 = s ∧ ended r ∧ match r with
      | Ok o => s.(timer) = 0 ∧ applied (visible w) names sw.2 ∧ o.(o_before) = visible w ∧ o.(o_after) = capped names (visible w)
      | Raise e => restored (visible w) sw.2 ∨ incomplete e ∨ applied (visible w) names sw.2
      end) (s, w).
Proof.
  intros Hcpu Hstrike Hr Hstable. assert (restored (visible w) w) as H0 by by split_and!. unfold apply.
  eapply wp_mono; [apply (guarded_wp strike) with (I := restored (visible w)) (Q := run_post visible requested ready (λ _, True) (visible w) true); [| done | |] |].
  - intros u Hu. eapply wp_mono; [by apply Hstrike, Hu |]. intros r u' [Hev Hi]. split; [by eapply restored_evolves | done].
  - intros u Hu. by apply (run_wp _ _ _ _ _ _ _ _ _ _ _ Hcpu).
  - intros e u Hu Hi. split; [by apply interrupted_ended in Hi | by left].
  - intros [o|e] [s' w'] (Hs & [He Hpost] & Htimer); cbn in *; (split; [done |]); (split; [done |]); [| naive_solver].
    destruct Hpost as (Hb & _ & _ & _ & Haf & Happ). split_and!; try done. by eapply Htimer.
Qed.
End policy_laws.

(** ** A policy whose last look fails
    The kernel of CpuCap, but the snapshot number [n] is interrupted. *)
Section example.
Context (n : nat).
Definition k_snapshot_but : M kernel snap := λ k,
  let '(r, k') := k_snapshot k in
  (if Nat.eqb k.(k_calls) n then Raise (Exn InterruptedError "CPU boot policy interrupted: 14") else r, k').
Lemma kernel_but : backend k_snapshot_but k_set_maximum k_visible k_request k_now k_ready.
Proof.
  destruct kernel_laws as [[Hs Hw] _ _ _ _]. split; [| exact Hw]. intros k Hk. specialize (Hs k Hk). unfold wp, k_snapshot_but in *.
  destruct (k_snapshot k) as [r k']. cbn [fst snd] in *. destruct Hs as (? & ? & ? & ?). by destruct (Nat.eqb _ _).
Qed.
End example.
Definition e_open (path : pystr) : M kernel Z := mret 3.
Definition e_fstat (d : Z) : M kernel file_meta := mret (FileMeta true 0 0 292 1).
Definition BOOT : pystr := "01234567-89ab-cdef-0123-456789abcdef".
Definition e_record : pystr := unlines ["status=PASS" : pystr; "attested_boot_id=" ++ BOOT; "kernel=7.2.7" : pystr; "physical_blocks=117" : pystr; "root_mount=native-root-ro-noload" : pystr].
Definition e_read (d n : Z) : M kernel bytes := mret e_record.
Definition e_text (path : pystr) : M kernel pystr :=
  mret ((if path == ("/proc/sys/kernel/random/boot_id" : pystr) then BOOT else if endswith path "health" then "Good"
         else if endswith path "voltage_now" then "8000000" else if endswith path "online" || endswith path "/ro" then "1" else "30") ++ [LF]).
Definition e_bytes (path : pystr) : M kernel bytes := mret (("asus,rog-phone5" : pystr) ++ ["000"%char] ++ ("qcom,sm8350" : pystr) ++ ["000"%char]).
Definition e_zones : M kernel (list pystr) := mret ["thermal_zone0" : pystr].
Definition e_blocks : M kernel (list pystr) := mret (map (λ i, ("sd" : pystr) ++ str_of_Z (Z.of_nat i)) (seq 0 117)).
Definition e_check : M kernel unit :=
  check e_open e_fstat e_read (λ _, mret ()) (mret 0) (mret ("7.2.7" : pystr)) e_text e_bytes e_zones e_blocks (λ _, "OSError").
Definition e_apply (n : nat) : M (signals * kernel) outcome :=
  apply e_open e_fstat e_read (λ _, mret ()) (mret 0) (mret ("7.2.7" : pystr)) e_text e_bytes e_zones e_blocks (λ _, "OSError")
    (λ _ : unit, k_snapshot_but n) (λ _, k_set_maximum) k_monotonic k_sleep (mret ()) ().
Lemma e_check_ok k : e_check k = (Ok (), k).
Proof. vm_compute. reflexivity. Qed.
Lemma e_laws n : cpufreq (k_snapshot_but n) k_set_maximum e_check (mret ()) k_monotonic k_sleep k_visible k_request k_now k_ready (λ _ : unit, True).
Proof.
  destruct kernel_laws as [_ Hg _ Hc Hs]. split; [apply kernel_but | | | exact Hc | exact Hs].
  - intros k Hk. unfold wp. rewrite e_check_ok. exact (Hg k Hk).
  - intros k Hk. split; [apply (Hg k Hk) | by split].
Qed.
(** The eleventh snapshot is the one after the retained success. *)
Lemma apply_retains_witness :
  let r := e_apply 10 (Signals {[15 := Before "default"]} 0, sample_kernel) in
  (r.1, maximum <$> k_visible r.2.2 !! ("policy0" : pystr)) = (Raise (Exn InterruptedError "CPU boot policy interrupted: 14"), Some 1209600) ∧
  r.2.1 = Signals {[15 := Before "default"]} 0 ∧ ended r.1 ∧ match r.1 with
    | Ok o => 0 = 0 ∧ applied k_visible k_request (k_visible sample_kernel) names r.2.2 ∧ o.(o_before) = k_visible sample_kernel ∧
        o.(o_after) = capped names (k_visible sample_kernel)
    | Raise e => restored k_visible k_request k_ready (k_visible sample_kernel) r.2.2 ∨ incomplete e ∨
        applied k_visible k_request (k_visible sample_kernel) names r.2.2
    end.
Proof.
  intros r. split; [vm_compute; reflexivity |].
  refine (apply_retains e_open e_fstat e_read (λ _, mret ()) (mret 0) (mret ("7.2.7" : pystr)) e_text e_bytes e_zones e_blocks (λ _, "OSError" : pystr)
    (λ _ : unit, k_snapshot_but 10) (λ _, k_set_maximum) k_monotonic k_sleep (mret ()) k_visible k_request k_now k_ready ()
    (Signals {[15 := Before "default"]} 0) sample_kernel (e_laws 10) _ I _).
  - intros k Hk. split; [by apply evolves_refl | done].
  - intros n p Hp. unfold k_request, sample_kernel. cbn [k_requested]. rewrite lookup_fmap. cbn [k_visible sample_kernel] in Hp. by rewrite Hp.
Defined.

(** A lease of one second on the same kernel. *)
Definition e_observe (t : Z) (s : snap) : M kernel unit := mret ().
Lemma e_leasing : leasing (k_snapshot_but 1000) k_set_maximum (mret ()) k_monotonic k_sleep (mret ()) e_observe k_monotonic k_sleep k_visible k_request k_now k_ready.
Proof.
  destruct kernel_laws as [_ Hg _ Hc Hs]. assert (∀ k, k_ready k → evolves k_visible k_request k_now k_ready k k) as Hrefl by (intros; by apply evolves_refl).
  split; [apply kernel_but | exact Hg | exact Hc | exact Hs | | | |].
  - intros k Hk. split; [by apply Hrefl | done].
  - intros k Hk. eapply wp_mono; [by apply Hc |]. intros r k' (? & Hi & ?). split_and!; [done | by apply interrupted_ended | done].
  - intros k d Hk. eapply wp_mono; [by apply Hs |]. intros r k' [? Hi]. split; [done | by apply interrupted_ended].
  - intros k t s Hk _. split; [by apply Hrefl | done].
Qed.
Definition e_lease : M (signals * kernel) outcome :=
  lease (k_snapshot_but 1000) k_set_maximum (mret ()) k_monotonic k_sleep (mret ()) e_observe k_monotonic k_sleep 1.
Lemma lease_restores_witness :
  let r := e_lease (Signals {[15 := Before "default"]} 0, sample_kernel) in
  r.2.1 = Signals {[15 := Before "default"]} 0 ∧ ended r.1 ∧ match r.1 with
    | Ok o => 1 ≤ 1 ≤ 720 ∧ 0 = 0 ∧ restored k_visible k_request k_ready (k_visible sample_kernel) r.2.2 ∧ o.(o_after) = k_visible sample_kernel ∧
        o.(o_during) = Some (capped names (k_visible sample_kernel)) ∧ ∃ a, o.(o_action) = Some a ∧ held 1 a
    | Raise e => restored k_visible k_request k_ready (k_visible sample_kernel) r.2.2 ∨ incomplete e
    end.
Proof.
  refine (lease_restores _ _ _ _ _ _ _ _ _ k_visible k_request k_now k_ready e_leasing 1 (Signals {[15 := Before "default"]} 0) sample_kernel I _).
  intros n p Hp. unfold k_request, sample_kernel. cbn [k_requested]. rewrite lookup_fmap. cbn [k_visible sample_kernel] in Hp. by rewrite Hp.
Defined.
