(* ===== verification/Healthd.v ===== *)
(** * The health endpoint

    scripts/device/rog5-healthd.py: the reply of [HealthHandler] and the
    threads of [HealthServer].  The accepting thread, the thread of each
    request and the timer of each request interleave; one transition is one
    action of one of them on what they share (the semaphore, the [_expired]
    flag, the connection, the deadline timer).  [http.server] and
    [socketserver] are followed where the two classes call them:
    [ThreadingMixIn.process_request] starts a thread or raises,
    [process_request_thread] closes the request whatever the handler does,
    [BaseRequestHandler] calls [finish] after [handle] but not after a failed
    [setup].  A request that is no GET
    is answered by [send_error]; which bytes make which request is not
    modelled.  A [KeyboardInterrupt] of the accepting thread ends the server
    and is not modelled. *)

From S2P Require Import Prelude PyStr.

(** ** The reply *)
Definition NEWLINE : pystr := [LF].
Definition CRLF : pystr := [CR; LF].
Definition HEALTH_BODY : bytes :=
  "{" ++ [DQUOTE] ++ "service" ++ [DQUOTE] ++ ":" ++ [DQUOTE] ++ "rog5-healthd" ++ [DQUOTE] ++ "," ++
  [DQUOTE] ++ "status" ++ [DQUOTE] ++ ":" ++ [DQUOTE] ++ "ok" ++ [DQUOTE] ++ "," ++ [DQUOTE] ++ "version" ++ [DQUOTE] ++ ":1}" ++ NEWLINE.
Definition NOT_FOUND_BODY : bytes := "not found" ++ NEWLINE.
Definition reason (status : Z) : pystr := if status =? 200 then "OK" else "Not Found".
(** [send_response] adds the server's name and the date. *)
Definition reply (date : pystr) (status : Z) (body : bytes) (content_type : pystr) : bytes :=
  concat (map (λ line, line ++ CRLF)
    ["HTTP/1.1 " ++ str_of_Z status ++ " " ++ reason status; ("Server: rog5-healthd/1 " : pystr); "Date: " ++ date;
     "Content-Type: " ++ content_type; "Content-Length: " ++ str_of_Z (len body); ("Cache-Control: no-store" : pystr); ("Connection: close" : pystr)])
  ++ CRLF ++ body.
Definition do_GET (date path : pystr) : bytes :=
  if path == "/healthz" then reply date 200 HEALTH_BODY "application/json"
  else reply date 404 NOT_FOUND_BODY "text/plain; charset=utf-8".

(** What [http.server] makes of the bytes it reads: a GET, with a version or in
    the form of HTTP/0.9, whose replies have no headers, or a request it
    refuses itself with [send_error]: a malformed or too long one, or another
    method, for which there is no [do_] method.  [page] is the text of its error
    page; a HEAD request gets none. *)
Inductive request :=
  | Get (old : bool) (path : pystr)
  | Refused (old head : bool) (code : Z) (message : pystr) (page : bytes).
Definition ERROR_CODES : list Z := [400; 414; 431; 501; 505].
Definition send_error (date : pystr) (code : Z) (message : pystr) (page : bytes) : bytes :=
  concat (map (λ line, line ++ CRLF)
    ["HTTP/1.1 " ++ str_of_Z code ++ " " ++ message; ("Server: rog5-healthd/1 " : pystr); "Date: " ++ date; ("Connection: close" : pystr);
     ("Content-Type: text/html;charset=utf-8" : pystr); "Content-Length: " ++ str_of_Z (len page)])
  ++ CRLF.
Definition answer (date : pystr) (q : request) : bytes :=
  match q with
  | Get false path => do_GET date path
  | Get true path => if path == "/healthz" then HEALTH_BODY else NOT_FOUND_BODY
  | Refused old head code message page => (if old then [] else send_error date code message page) ++ (if head then [] else page)
  end.
Definition understood (q : request) : bool := match q with Get _ _ => true | Refused _ _ code _ _ => bool_decide (code ∈ ERROR_CODES) end.

(** ** The semaphore *)
Definition CLIENTS : Z := 4.
Definition acquire (value : Z) : bool * Z := if 0 <? value then (true, value - 1) else (false, value).
Definition release (value : Z) : res Z :=
  refuse_if (CLIENTS <=? value) ValueError "Semaphore released too many times" ;; Ok (value + 1).

(** ** The state *)

(** The deadline timer: counting, past [self._expired = True] but before the
    [shutdown], or cancelled or done. *)
Inductive timer := Armed | Fired | Over.
Inductive phase := Entered | Reading | Replying (data : bytes) | Finishing | Closing | Releasing.
Record client := Client { at_ : phase; deadline : timer; expired : bool; cut : bool }.
(** What the accepting thread does next with request [r]. *)
Inductive main := Accepting | Deciding (r : Z) | Starting (r : Z) | Undoing (r : Z) | Refusing (r : Z).
(** [replies] are the replies begun and whether their last byte was written;
    [closed] lists the [shutdown_request] calls; [errors] counts the
    [ValueError]s of the semaphore. *)
Record server := Server {
  value : Z; doing : main; clients : gmap Z client; accepted : gset Z; closed : list Z; replies : list (Z * bytes * bool); errors : nat
}.
Definition initial : server := Server CLIENTS Accepting ∅ ∅ [] [] 0.

Definition set_doing (m : main) (s : server) : server := Server s.(value) m s.(clients) s.(accepted) s.(closed) s.(replies) s.(errors).
Definition set_client (r : Z) (c : client) (s : server) : server :=
  Server s.(value) s.(doing) (<[r := c]> s.(clients)) s.(accepted) s.(closed) s.(replies) s.(errors).
Definition close_request (r : Z) (s : server) : server :=
  Server s.(value) s.(doing) s.(clients) s.(accepted) (s.(closed) ++ [r]) s.(replies) s.(errors).
Definition note_reply (r : Z) (data : bytes) (complete : bool) (s : server) : server :=
  Server s.(value) s.(doing) s.(clients) s.(accepted) s.(closed) (s.(replies) ++ [(r, data, complete)]) s.(errors).
Definition release_client (s : server) : server :=
  match release s.(value) with
  | Ok v => Server v s.(doing) s.(clients) s.(accepted) s.(closed) s.(replies) s.(errors)
  | Raise _ => Server s.(value) s.(doing) s.(clients) s.(accepted) s.(closed) s.(replies) (S s.(errors))
  end.
Definition forget (r : Z) (s : server) : server :=
  Server s.(value) s.(doing) (delete r s.(clients)) s.(accepted) s.(closed) s.(replies) s.(errors).

(** ** The actions *)

(** The accepting thread: the socket server accepts, then [process_request]. *)
Inductive action :=
  | Accept (r : Z)
  | Acquire
  | Start (started : bool) (* [super().process_request] starts the thread or raises *)
  | Undo                   (* [except BaseException: release; raise] *)
  | Refuse                 (* [shutdown_request] *)
  (* the thread of request [r] *)
  | Setup (r : Z) (armed : bool)
  | Request (r : Z) (date : pystr) (q : request)
  | Hangup (r : Z)         (* end of input, a timeout or an exception while reading *)
  | Sent (r : Z)
  | Broken (r : Z)         (* an exception while writing *)
  | Finish (r : Z)
  | Close (r : Z)
  | Release (r : Z)
  (* the timer of request [r] *)
  | Expire (r : Z)
  | Cut (r : Z).

Definition process_request (a : action) (s : server) : option server :=
  match a, s.(doing) with
  | Accept r, Accepting =>
      if bool_decide (r ∈ s.(accepted)) then None
      else Some (Server s.(value) (Deciding r) s.(clients) ({[r]} ∪ s.(accepted)) s.(closed) s.(replies) s.(errors))
  | Acquire, Deciding r =>
      let '(got, v) := acquire s.(value) in
      Some (Server v (if got then Starting r else Refusing r) s.(clients) s.(accepted) s.(closed) s.(replies) s.(errors))
  | Start true, Starting r => Some (set_doing Accepting (set_client r (Client Entered Over false false) s))
  | Start false, Starting r => Some (set_doing (Undoing r) s)
  | Undo, Undoing r => Some (set_doing (Refusing r) (release_client s))
  | Refuse, Refusing r => Some (set_doing Accepting (close_request r s))
  | _, _ => None
  end.
Definition with_phase (p : phase) (c : client) : client := Client p c.(deadline) c.(expired) c.(cut).
(** [_reply]: nothing once the flag is set; [send_error] does not look at it.
    Either closes the connection.  An interim 100 Continue is not counted as a
    reply. *)
Definition reply_or_close (r : Z) (date : pystr) (q : request) (c : client) (s : server) : server :=
  if match q with Get _ _ => c.(expired) | Refused _ _ _ _ _ => false end then set_client r (with_phase Finishing c) s
  else set_client r (with_phase (Replying (answer date q)) c) s.
(** [finish] cancels a timer that still counts. *)
Definition cancel (t : timer) : timer := match t with Armed => Over | t => t end.
Definition process_request_thread (a : action) (r : Z) (c : client) (s : server) : option server :=
  match a, c.(at_) with
  | Setup _ armed, Entered => Some (set_client r (if armed then Client Reading Armed false false else with_phase Closing c) s)
  | Request _ date q, Reading => if c.(cut) || negb (understood q) then None else Some (reply_or_close r date q c s)
  | Hangup _, Reading => Some (set_client r (with_phase Finishing c) s)
  | Sent _, Replying data => if c.(cut) then None else Some (note_reply r data true (set_client r (with_phase Finishing c) s))
  | Broken _, Replying data => Some (note_reply r data false (set_client r (with_phase Finishing c) s))
  | Finish _, Finishing => Some (set_client r (Client Closing (cancel c.(deadline)) c.(expired) c.(cut)) s)
  | Close _, Closing => Some (close_request r (set_client r (with_phase Releasing c) s))
  | Release _, Releasing => Some (forget r (release_client s))
  | _, _ => None
  end.
Definition expire_request (a : action) (r : Z) (c : client) (s : server) : option server :=
  match a, c.(deadline) with
  | Expire _, Armed => Some (set_client r (Client c.(at_) Fired true c.(cut)) s)
  | Cut _, Fired => Some (set_client r (Client c.(at_) Over c.(expired) true) s)
  | _, _ => None
  end.
Definition thread_of (a : action) : option Z :=
  match a with
  | Setup r _ | Request r _ _ | Hangup r | Sent r | Broken r | Finish r | Close r | Release r => Some r
  | _ => None
  end.
Definition timer_of (a : action) : option Z := match a with Expire r | Cut r => Some r | _ => None end.
Definition step (a : action) (s : server) : option server :=
  match thread_of a, timer_of a with
  | Some r, _ => c ← s.(clients) !! r; process_request_thread a r c s
  | _, Some r => c ← s.(clients) !! r; expire_request a r c s
  | _, _ => process_request a s
  end.
Fixpoint execute (l : list action) (s : server) : option server :=
  match l with [] => Some s | a :: l => s ← step a s; execute l s end.

Inductive reachable : server → Prop :=
  | reachable_initial : reachable initial
  | reachable_step a s s' : reachable s → step a s = Some s' → reachable s'.

(** ** What holds of every state *)
Definition concerns (m : main) : option Z :=
  match m with Accepting => None | Deciding r | Starting r | Undoing r | Refusing r => Some r end.
(** The accepting thread holds a slot between [acquire] and the thread's start. *)
Definition main_slot (m : main) : Z := match m with Starting _ | Undoing _ => 1 | _ => 0 end.
Definition slots_held (s : server) : Z := main_slot s.(doing) + Z.of_nat (size s.(clients)).
Definition over (r : Z) (s : server) : Prop :=
  concerns s.(doing) ≠ Some r ∧ ∀ c, s.(clients) !! r = Some c → c.(at_) = Releasing.
Definition answering (p : phase) : bool := match p with Reading | Replying _ => true | _ => false end.
Definition answered (p : phase) : bool := match p with Finishing | Closing | Releasing => true | _ => false end.
(** While a request is read or answered its timer counts, or has set the flag,
    or has cut the connection. *)
Definition watched (c : client) : Prop :=
  answering c.(at_) = true → c.(deadline) = Armed ∨ c.(deadline) = Fired ∨ c.(cut) = true.
Definition served (data : bytes) : Prop := ∃ date q, understood q = true ∧ data = answer date q.

Record sane (s : server) : Prop := {
  sane_value : s.(value) + slots_held s = CLIENTS;
  sane_free : 0 ≤ s.(value);
  sane_errors : s.(errors) = 0%nat;
  sane_main r : concerns s.(doing) = Some r → r ∈ s.(accepted) ∧ s.(clients) !! r = None;
  sane_clients r : is_Some (s.(clients) !! r) → r ∈ s.(accepted);
  sane_watched r c : s.(clients) !! r = Some c → watched c;
  sane_closed r : r ∈ s.(closed) ↔ r ∈ s.(accepted) ∧ over r s;
  sane_once : NoDup s.(closed);
  sane_replies r data b : (r, data, b) ∈ s.(replies) → served data ∧ r ∈ s.(accepted) ∧ concerns s.(doing) ≠ Some r ∧
    ∀ c, s.(clients) !! r = Some c → answered c.(at_) = true;
  sane_replied : NoDup s.(replies).*1.*1;
  sane_replying r c data : s.(clients) !! r = Some c → c.(at_) = Replying data → served data
}.

Lemma sane_initial : sane initial.
Proof.
  split; simpl; try done; try (intros; by rewrite lookup_empty in *); try set_solver.
  all: try (by intros r [c Hc]; rewrite lookup_empty in Hc). all: constructor.
Qed.

Lemma release_below v : v < CLIENTS → release v = Ok (v + 1).
Proof. intros Hv. unfold release, refuse_if. destruct (CLIENTS <=? v) eqn:E; [| done]. apply Z.leb_le in E. lia. Qed.

(** A thread of [s] that keeps its slot and its phase's duties. *)
Lemma sane_set_client s r c c' : sane s → s.(clients) !! r = Some c → watched c' → (c.(at_) = Releasing ↔ c'.(at_) = Releasing) →
  (answered c.(at_) = true → answered c'.(at_) = true) → (∀ data, c'.(at_) = Replying data → served data) → sane (set_client r c' s).
Proof.
  intros Hs Hc Hw Hrel Hans Hserved. pose proof (sane_clients _ Hs r (mk_is_Some _ _ Hc)) as Hr.
  assert (Hmain : concerns (doing s) ≠ Some r) by (intros Hm; apply (sane_main _ Hs) in Hm as [_ Hm]; congruence).
  split; simpl.
  - rewrite <- (sane_value _ Hs). unfold slots_held. simpl. rewrite map_size_insert_Some; [done | by eexists].
  - apply Hs.
  - apply Hs.
  - intros q Hq. destruct (sane_main _ Hs q Hq) as [H1 H2]. split; [done |]. rewrite lookup_insert_ne; [done |]. by intros ->.
  - intros q. rewrite lookup_insert_is_Some. intros [<-|[_ Hq]]; [done | by apply (sane_clients _ Hs)].
  - intros q d. rewrite lookup_insert_Some. intros [[<- <-]|[_ Hq]]; [done | by eapply (sane_watched _ Hs)].
  - intros q. rewrite (sane_closed _ Hs q). apply and_iff_compat_l. unfold over. simpl. apply and_iff_compat_l. split.
    + intros Ho d. rewrite lookup_insert_Some. intros [[<- <-]|[_ Hq]]; [by apply Hrel, Ho | by apply Ho].
    + intros Ho d Hq. destruct (decide (q = r)) as [->|Hne]; [| apply Ho; by rewrite lookup_insert_ne].
      rewrite Hc in Hq. injection Hq as <-. apply Hrel, Ho. by rewrite lookup_insert_eq.
  - apply Hs.
  - intros q data b Hq. destruct (sane_replies _ Hs q data b Hq) as (H1 & H2 & H3 & H4). split_and!; [done..|].
    intros d. rewrite lookup_insert_Some. intros [[<- <-]|[_ Hd]]; [by apply Hans, H4 | by apply H4].
  - apply Hs.
  - intros q d data. rewrite lookup_insert_Some. intros [[<- <-]|[_ Hq]]; [apply Hserved | by eapply (sane_replying _ Hs)].
Qed.

(** What changes the slots, the list of closed requests or the replies. *)
Lemma sane_accept s r : sane s → s.(doing) = Accepting → r ∉ s.(accepted) →
  sane (Server s.(value) (Deciding r) s.(clients) ({[r]} ∪ s.(accepted)) s.(closed) s.(replies) s.(errors)).
Proof.
  intros Hs Hd Hr. assert (Hnone : s.(clients) !! r = None) by (apply eq_None_not_Some; intros Hc; by apply Hr, (sane_clients _ Hs)).
  split; simpl; try apply Hs.
  - rewrite <- (sane_value _ Hs). unfold slots_held. by rewrite Hd.
  - intros q [= <-]. split; [set_solver | done].
  - intros q Hq. apply (sane_clients _ Hs) in Hq. set_solver.
  - intros q. rewrite (sane_closed _ Hs q). unfold over. rewrite Hd. simpl. set_unfold. split; [intros (H1 & H2 & H3) | intros ([->|H1] & H2 & H3)];
      [split_and!; [by right | intros [= ->]; done | done] | done | done].
  - intros q data b Hq. destruct (sane_replies _ Hs q data b Hq) as (H1 & H2 & H3 & H4).
    split_and!; [done | set_solver | intros [= ->]; done | done].
Qed.

(** The accepting thread changes hands of the request it holds. *)
Lemma sane_main_moves s v m r : sane s → concerns s.(doing) = Some r → concerns m = Some r → 0 ≤ v →
  v + main_slot m = s.(value) + main_slot s.(doing) → sane (Server v m s.(clients) s.(accepted) s.(closed) s.(replies) s.(errors)).
Proof.
  intros Hs Hd Hm Hv Hsum. split; simpl; try apply Hs; try done.
  - rewrite <- (sane_value _ Hs). unfold slots_held. simpl. lia.
  - intros q. rewrite Hm, <- Hd. apply (sane_main _ Hs).
  - intros q. rewrite (sane_closed _ Hs q). unfold over. simpl. by rewrite Hm, Hd.
  - intros q data b Hq. destruct (sane_replies _ Hs q data b Hq) as (H1 & H2 & H3 & H4). rewrite Hm, <- Hd. done.
Qed.

Lemma sane_start s r : sane s → s.(doing) = Starting r → sane (set_doing Accepting (set_client r (Client Entered Over false false) s)).
Proof.
  intros Hs Hd. destruct (sane_main _ Hs r) as [Hr Hnone]; [by rewrite Hd |].
  split; simpl; try apply Hs.
  - rewrite <- (sane_value _ Hs). unfold slots_held. simpl. rewrite Hd, (map_size_insert_None _ _ _ Hnone). simpl. lia.
  - done.
  - intros q. rewrite lookup_insert_is_Some. intros [<-|[_ Hq]]; [done | by apply (sane_clients _ Hs)].
  - intros q c. rewrite lookup_insert_Some. intros [[<- <-]|[_ Hq]]; [done | by eapply (sane_watched _ Hs)].
  - intros q. rewrite (sane_closed _ Hs q). apply and_iff_compat_l. unfold over. rewrite Hd. simpl. split.
    + intros [H1 H2]. split; [done |]. intros c. rewrite lookup_insert_Some. intros [[<- <-]|[_ Hq]]; [done | by apply H2].
    + intros [_ H2]. assert (Hne : q ≠ r). { intros ->. specialize (H2 _ (lookup_insert_eq _ _ _)). done. }
      split; [congruence |]. intros c Hc. apply H2. by rewrite lookup_insert_ne.
  - intros q data b Hq. destruct (sane_replies _ Hs q data b Hq) as (H1 & H2 & H3 & H4). split_and!; [done..|].
    intros c. rewrite lookup_insert_Some. intros [[<- <-]|[_ Hc]]; [by rewrite Hd in H3 | by apply H4].
  - intros q c data. rewrite lookup_insert_Some. intros [[<- <-]|[_ Hq]]; [done | by eapply (sane_replying _ Hs)].
Qed.

Lemma sane_refuse s r : sane s → s.(doing) = Refusing r → sane (set_doing Accepting (close_request r s)).
Proof.
  intros Hs Hd. destruct (sane_main _ Hs r) as [Hr Hnone]; [by rewrite Hd |].
  split; simpl; try apply Hs.
  - rewrite <- (sane_value _ Hs). unfold slots_held. by rewrite Hd.
  - done.
  - intros q. rewrite elem_of_app, list_elem_of_singleton, (sane_closed _ Hs q). unfold over. rewrite Hd. simpl. split.
    + intros [(H1 & H2 & H3)| ->]; [done |]. split_and!; [done | done |]. intros c Hc. congruence.
    + intros (H1 & _ & H3). destruct (decide (q = r)) as [->|Hne]; [by right | left]. split_and!; [done | congruence | done].
  - apply NoDup_app. split_and!; [apply Hs | | apply NoDup_singleton]. intros q [Hq1 [Hq2 _]]%(sane_closed _ Hs).
    rewrite list_elem_of_singleton. intros ->. by rewrite Hd in Hq2.
  - intros q data b Hq. destruct (sane_replies _ Hs q data b Hq) as (H1 & H2 & H3 & H4). done.
Qed.

Lemma sane_close s r c : sane s → s.(clients) !! r = Some c → c.(at_) = Closing → sane (close_request r (set_client r (with_phase Releasing c) s)).
Proof.
  intros Hs Hc Hp. pose proof (sane_clients _ Hs r (mk_is_Some _ _ Hc)) as Hr.
  assert (Hmain : concerns (doing s) ≠ Some r) by (intros Hm; apply (sane_main _ Hs) in Hm as [_ Hm]; congruence).
  assert (Hnew : r ∉ s.(closed)). { intros [_ [_ H]]%(sane_closed _ Hs). rewrite (H _ Hc) in Hp. done. }
  split; simpl; try apply Hs.
  - rewrite <- (sane_value _ Hs). unfold slots_held. simpl. rewrite map_size_insert_Some; [done | by eexists].
  - intros q Hq. destruct (sane_main _ Hs q Hq) as [H1 H2]. split; [done |]. rewrite lookup_insert_ne; [done |]. by intros ->.
  - intros q. rewrite lookup_insert_is_Some. intros [<-|[_ Hq]]; [done | by apply (sane_clients _ Hs)].
  - intros q d. rewrite lookup_insert_Some. intros [[<- <-]|[_ Hq]]; [done | by eapply (sane_watched _ Hs)].
  - intros q. rewrite elem_of_app, list_elem_of_singleton, (sane_closed _ Hs q). unfold over. simpl. split.
    + intros [(H1 & H2 & H3)| ->].
      * split_and!; [done..|]. intros d. rewrite lookup_insert_Some. intros [[<- <-]|[_ Hd]]; [done | by apply H3].
      * split_and!; [done..|]. intros d. by rewrite lookup_insert_eq; intros [= <-].
    + intros (H1 & H2 & H3). destruct (decide (q = r)) as [->|Hne]; [by right | left]. split_and!; [done..|].
      intros d Hd. apply H3. by rewrite lookup_insert_ne.
  - apply NoDup_app. split_and!; [apply Hs | | apply NoDup_singleton]. intros q Hq. rewrite list_elem_of_singleton. by intros ->.
  - intros q data b Hq. destruct (sane_replies _ Hs q data b Hq) as (H1 & H2 & H3 & H4). split_and!; [done..|].
    intros d. rewrite lookup_insert_Some. intros [[<- <-]|[_ Hd]]; [done | by apply H4].
  - intros q d data. rewrite lookup_insert_Some. intros [[<- <-]|[_ Hq]]; [done | by eapply (sane_replying _ Hs)].
Qed.

Lemma sane_note s r c data b : sane s → s.(clients) !! r = Some c → c.(at_) = Replying data →
  sane (note_reply r data b (set_client r (with_phase Finishing c) s)).
Proof.
  intros Hs Hc Hp. pose proof (sane_clients _ Hs r (mk_is_Some _ _ Hc)) as Hr.
  assert (Hmain : concerns (doing s) ≠ Some r) by (intros Hm; apply (sane_main _ Hs) in Hm as [_ Hm]; congruence).
  assert (H : sane (set_client r (with_phase Finishing c) s)). { eapply sane_set_client; try done. by rewrite Hp. }
  split; simpl; try apply H.
  - intros q d e. rewrite elem_of_app, list_elem_of_singleton. intros [Hq|[= -> -> ->]]; [by apply (sane_replies _ H) in Hq |].
    split_and!; [by eapply (sane_replying _ Hs) | done | done |]. intros d. by rewrite lookup_insert_eq; intros [= <-].
  - rewrite !fmap_app. apply NoDup_app. split_and!; [apply Hs | | apply NoDup_singleton].
    intros q ([q' d] & -> & ([[q'' d'] e] & [= -> ->] & Hq)%list_elem_of_fmap)%list_elem_of_fmap. simpl. rewrite list_elem_of_singleton.
    intros ->. apply (sane_replies _ Hs) in Hq as (_ & _ & _ & Hq). specialize (Hq _ Hc). by rewrite Hp in Hq.
Qed.

Lemma sane_release s r c : sane s → s.(clients) !! r = Some c → c.(at_) = Releasing → sane (forget r (release_client s)).
Proof.
  intros Hs Hc Hp. pose proof (sane_clients _ Hs r (mk_is_Some _ _ Hc)) as Hr. pose proof (sane_value _ Hs) as Hv. unfold slots_held in Hv.
  assert (Hsize : size s.(clients) = S (size (delete r s.(clients)))).
  { rewrite map_size_delete_Some by (by eexists). assert (size s.(clients) ≠ 0%nat); [| lia]. intros H%map_size_empty_iff. by rewrite H in Hc. }
  assert (0 ≤ main_slot (doing s)) as Hslot by by destruct (doing s). pose proof (sane_free _ Hs) as Hfree.
  unfold release_client. rewrite release_below by lia. split; simpl; try apply Hs.
  - rewrite <- (sane_value _ Hs). unfold slots_held. simpl. lia.
  - lia.
  - intros q Hq. destruct (sane_main _ Hs q Hq) as [H1 H2]. split; [done |]. rewrite lookup_delete_ne; [done |]. intros ->. congruence.
  - intros q [d Hd]. apply lookup_delete_Some in Hd as [_ Hd]. apply (sane_clients _ Hs). by eexists.
  - intros q d [_ Hd]%lookup_delete_Some. by eapply (sane_watched _ Hs).
  - intros q. rewrite (sane_closed _ Hs q). apply and_iff_compat_l. unfold over. simpl. apply and_iff_compat_l. split.
    + intros Ho d [_ Hd]%lookup_delete_Some. by apply Ho.
    + intros Ho d Hd. destruct (decide (q = r)) as [->|Hne]; [congruence |]. apply Ho. by rewrite lookup_delete_ne.
  - intros q data b Hq. destruct (sane_replies _ Hs q data b Hq) as (H1 & H2 & H3 & H4). split_and!; [done..|].
    intros d [_ Hd]%lookup_delete_Some. by apply H4.
  - intros q d data [_ Hd]%lookup_delete_Some. by eapply (sane_replying _ Hs).
Qed.

Lemma sane_process_request a s s' : sane s → process_request a s = Some s' → sane s'.
Proof.
  intros Hs H. pose proof (sane_value _ Hs) as Hv. pose proof (sane_free _ Hs) as Hfree. unfold slots_held in Hv. unfold process_request in H.
  destruct a as [r| |[]| | | |? ? sent| | | | | | | |]; destruct (doing s) as [|q|q|q|q] eqn:Hd; try discriminate; simpl in Hv.
  - case_bool_decide as Hr; [done |]. injection H as <-. by apply sane_accept.
  - unfold acquire in H. destruct (Z.ltb_spec 0 s.(value)) as [Hlt|Hge]; injection H as <-;
      (apply (sane_main_moves s _ _ q); [done | by rewrite Hd | done | lia | rewrite Hd; simpl; lia]).
  - injection H as <-. by apply sane_start.
  - injection H as <-. apply (sane_main_moves s _ _ q); [done | by rewrite Hd | done | done | by rewrite Hd].
  - injection H as <-. unfold release_client. rewrite release_below by lia.
    apply (sane_main_moves s (s.(value) + 1) (Refusing q) q); [done | by rewrite Hd | done | lia | rewrite Hd; simpl; lia].
  - injection H as <-. by apply sane_refuse.
Qed.
Lemma sane_thread a r c s s' : sane s → s.(clients) !! r = Some c → process_request_thread a r c s = Some s' → sane s'.
Proof.
  intros Hs Hc H. pose proof (sane_watched _ Hs r c Hc) as Hw. unfold watched in Hw.
  destruct a; simpl in H; try discriminate; destruct (at_ c) as [| |data| | |] eqn:Hp; try discriminate.
  - injection H as <-. destruct armed; eapply sane_set_client; try done; try rewrite Hp; try done. by left.
  - destruct (cut c) eqn:Hcut; [done |]. destruct (understood q) eqn:Hq; [| done]. injection H as <-. unfold reply_or_close.
    destruct (match q with Get _ _ => expired c | _ => false end); (eapply sane_set_client; [done | done | | by rewrite Hp | by rewrite Hp |]); try done; [by intros _; simpl; rewrite Hcut; apply Hw |].
    intros data [= <-]. by exists date, q.
  - injection H as <-. eapply sane_set_client; try done; by rewrite Hp.
  - destruct (cut c); [done |]. injection H as <-. by apply sane_note.
  - injection H as <-. by apply sane_note.
  - injection H as <-. eapply sane_set_client; try done; by rewrite Hp.
  - injection H as <-. by apply sane_close.
  - injection H as <-. by eapply sane_release.
Qed.
Lemma sane_timer a r c s s' : sane s → s.(clients) !! r = Some c → expire_request a r c s = Some s' → sane s'.
Proof.
  intros Hs Hc H. destruct a; simpl in H; try discriminate; destruct (deadline c) eqn:Hp; try discriminate; injection H as <-.
  all: eapply sane_set_client; [done | done | | done | done | intros data; by eapply (sane_replying _ Hs r c)].
  - intros _. by right; left.
  - intros _. by right; right.
Qed.

(** An action belongs to the accepting thread, to a thread or to a timer. *)
Lemma step_cases a s s' : step a s = Some s' →
  process_request a s = Some s' ∨
  ∃ r c, s.(clients) !! r = Some c ∧ (process_request_thread a r c s = Some s' ∨ expire_request a r c s = Some s').
Proof.
  unfold step. destruct (thread_of a) as [r|] eqn:Ht; [| destruct (timer_of a) as [r|] eqn:Hm; [| by left]].
  all: intros (c & Hc & H)%bind_Some; right; exists r, c; auto.
Qed.
Lemma sane_step a s s' : sane s → step a s = Some s' → sane s'.
Proof.
  intros Hs [H|(r & c & Hc & [H|H])]%step_cases; [by eapply sane_process_request | by eapply sane_thread | by eapply sane_timer].
Qed.
Lemma reachable_sane s : reachable s → sane s.
Proof. induction 1; [apply sane_initial | by eapply sane_step]. Qed.
Lemma reachable_execute l s s' : reachable s → execute l s = Some s' → reachable s'.
Proof.
  revert s. induction l as [|a l IH]; intros s Hs; simpl; [by intros [= <-] |]. intros (s1 & H1 & H)%bind_Some.
  eapply IH; [by eapply reachable_step | done].
Qed.

(** ** Draining *)

(** The steps left without new connections. *)
Definition timer_work (t : timer) : nat := match t with Armed => 2 | Fired => 1 | Over => 0 end.
Definition phase_work (p : phase) : nat :=
  match p with Entered => 12 | Reading => 8 | Replying _ => 6 | Finishing => 4 | Closing => 3 | Releasing => 1 end.
Definition client_work (c : client) : nat := phase_work c.(at_) + timer_work c.(deadline).
Definition main_work (m : main) : nat :=
  match m with Accepting => 0 | Deciding _ => 15 | Starting _ => 14 | Undoing _ => 2 | Refusing _ => 1 end.
Definition clients_work (m : gmap Z client) : nat := map_fold (λ _ c n, (client_work c + n)%nat) 0%nat m.
Definition work (s : server) : nat := main_work s.(doing) + clients_work s.(clients).

Lemma clients_work_new r c (m : gmap Z client) : m !! r = None → clients_work (<[r := c]> m) = (client_work c + clients_work m)%nat.
Proof. intros Hr. unfold clients_work. rewrite map_fold_insert_L; [done | lia | done]. Qed.
Lemma clients_work_delete r c (m : gmap Z client) : m !! r = Some c → clients_work m = (client_work c + clients_work (delete r m))%nat.
Proof. intros Hr. rewrite <- (clients_work_new r c) by apply lookup_delete_eq. by rewrite insert_delete_id. Qed.
Lemma clients_work_set r c c' (m : gmap Z client) : m !! r = Some c →
  (clients_work (<[r := c']> m) + client_work c = clients_work m + client_work c')%nat.
Proof.
  intros Hr. rewrite (clients_work_delete r c' (<[r := c']> m)) by apply lookup_insert_eq.
  rewrite (clients_work_delete r c m Hr), delete_insert_eq. lia.
Qed.
Lemma work_set_client r c c' s : s.(clients) !! r = Some c → (client_work c' < client_work c)%nat → (work (set_client r c' s) < work s)%nat.
Proof. intros Hc Hlt. unfold work. simpl. pose proof (clients_work_set r c c' _ Hc). lia. Qed.

Definition is_accept (a : action) : bool := match a with Accept _ => true | _ => false end.
Lemma release_client_same s : (release_client s).(doing) = s.(doing) ∧ (release_client s).(clients) = s.(clients).
Proof. unfold release_client. by destruct (release (value s)). Qed.
Lemma work_step a s s' : sane s → step a s = Some s' → is_accept a = false → (work s' < work s)%nat.
Proof.
  intros Hs H Ha. apply step_cases in H as [H|(r & c & Hc & [H|H])].
  - unfold process_request in H. destruct a as [r| |[]| | | |? ? sent| | | | | | | |]; destruct (doing s) as [|q|q|q|q] eqn:Hd; try discriminate.
    + destruct (acquire (value s)) as [[] v]; injection H as <-; unfold work; rewrite Hd; simpl; lia.
    + injection H as <-. unfold work. rewrite Hd. simpl. rewrite clients_work_new; [simpl; lia |]. eapply (sane_main _ Hs). by rewrite Hd.
    + injection H as <-. unfold work. rewrite Hd. simpl. lia.
    + injection H as <-. unfold work. simpl. rewrite Hd, (proj2 (release_client_same s)). simpl. lia.
    + injection H as <-. unfold work. rewrite Hd. simpl. lia.
  - destruct a; simpl in H; try discriminate; destruct (at_ c) as [| |data| | |] eqn:Hp; try discriminate.
    + injection H as <-. destruct armed; (eapply work_set_client; [done |]); unfold client_work; simpl; rewrite Hp; simpl; lia.
    + destruct (cut c || _); [done |]. injection H as <-. unfold reply_or_close. destruct (match q with Get _ _ => expired c | _ => false end);
        (eapply work_set_client; [done |]); unfold client_work; simpl; rewrite Hp; simpl; lia.
    + injection H as <-. eapply work_set_client; [done |]. unfold client_work; simpl; rewrite Hp; simpl; lia.
    + destruct (cut c); [done |]. injection H as <-. change (work _) with (work (set_client r (with_phase Finishing c) s)) at 1.
      eapply work_set_client; [done |]. unfold client_work; simpl; rewrite Hp; simpl; lia.
    + injection H as <-. change (work _) with (work (set_client r (with_phase Finishing c) s)) at 1.
      eapply work_set_client; [done |]. unfold client_work; simpl; rewrite Hp; simpl; lia.
    + injection H as <-. eapply work_set_client; [done |]. unfold client_work; simpl; rewrite Hp. destruct (deadline c); simpl; lia.
    + injection H as <-. change (work _) with (work (set_client r (with_phase Releasing c) s)) at 1.
      eapply work_set_client; [done |]. unfold client_work; simpl; rewrite Hp; simpl; lia.
    + injection H as <-. unfold work. simpl. destruct (release_client_same s) as [-> ->]. rewrite (clients_work_delete r c (clients s) Hc).
      unfold client_work. rewrite Hp. simpl. lia.
  - destruct a; simpl in H; try discriminate; destruct (deadline c) eqn:Hp; try discriminate; injection H as <-.
    all: (eapply work_set_client; [done |]); unfold client_work; simpl; rewrite Hp; simpl; lia.
Qed.

Definition idle (s : server) : Prop := s.(doing) = Accepting ∧ s.(clients) = ∅.
(** What the server does without its peers: everything but accepting a
    connection, reading a request, writing a reply, and noticing before the
    timer cut the connection that a peer has gone. *)
Definition own (s : server) (a : action) : Prop :=
  match a with
  | Accept _ | Request _ _ _ | Sent _ => False
  | Hangup r | Broken r => ∃ c, s.(clients) !! r = Some c ∧ c.(cut) = true
  | _ => True
  end.
Lemma client_moves s r c : sane s → s.(clients) !! r = Some c → ∃ a s', own s a ∧ step a s = Some s'.
Proof.
  intros Hs Hc. pose proof (sane_watched _ Hs r c Hc) as Hw. unfold watched in Hw.
  destruct (at_ c) as [| |data| | |] eqn:Hp.
  2-3: destruct Hw as [Hw|[Hw|Hw]]; [done | exists (Expire r) | exists (Cut r) | ].
  all: try (eexists; split; [done |]; unfold step; simpl; rewrite Hc; simpl; by rewrite Hw).
  - exists (Setup r true). eexists. split; [done |]. unfold step. simpl. rewrite Hc. simpl. by rewrite Hp.
  - exists (Hangup r). eexists. split; [by exists c |]. unfold step. simpl. rewrite Hc. simpl. by rewrite Hp.
  - exists (Broken r). eexists. split; [by exists c |]. unfold step. simpl. rewrite Hc. simpl. by rewrite Hp.
  - exists (Finish r). eexists. split; [done |]. unfold step. simpl. rewrite Hc. simpl. by rewrite Hp.
  - exists (Close r). eexists. split; [done |]. unfold step. simpl. rewrite Hc. simpl. by rewrite Hp.
  - exists (Release r). eexists. split; [done |]. unfold step. simpl. rewrite Hc. simpl. by rewrite Hp.
Qed.
Lemma main_moves s : s.(doing) ≠ Accepting → ∃ a s', own s a ∧ step a s = Some s'.
Proof.
  intros Hd. destruct (doing s) as [|q|q|q|q] eqn:Hm; [done | | | |].
  - exists Acquire. destruct (acquire (value s)) as [got v] eqn:Ha. eexists. split; [done |]. unfold step. simpl. rewrite Hm, Ha. done.
  - exists (Start true). eexists. split; [done |]. unfold step. simpl. by rewrite Hm.
  - exists Undo. eexists. split; [done |]. unfold step. simpl. by rewrite Hm.
  - exists Refuse. eexists. split; [done |]. unfold step. simpl. by rewrite Hm.
Qed.
Lemma idle_or_moves s : sane s → idle s ∨ ∃ a s', own s a ∧ step a s = Some s'.
Proof.
  intros Hs. destruct (decide (clients s = ∅)) as [He|(r & c & Hc)%map_choose]; [| right; by eapply client_moves].
  destruct (doing s) as [|q|q|q|q] eqn:Hd; [by left | right; apply main_moves; by rewrite Hd..].
Qed.
Lemma idle_drained s : sane s → idle s → s.(value) = CLIENTS ∧ ∀ r, r ∈ s.(accepted) ↔ r ∈ s.(closed).
Proof.
  intros Hs [Hd Hc]. split.
  - pose proof (sane_value _ Hs) as Hv. unfold slots_held in Hv. rewrite Hd, Hc, map_size_empty in Hv. simpl in Hv. lia.
  - intros r. rewrite (sane_closed _ Hs r). split; [| by intros [? _]]. intros Hr. unfold over. rewrite Hd. simpl. split_and!; [done | done |].
    intros c. by rewrite Hc, lookup_empty.
Qed.


(** The server drains without its peers' help, so a client that trickles
    bytes or never reads its reply cannot hold a slot.  From every reachable
    state a run without new connections has at most [work] actions; until the
    server is idle it has an action of its own left, the timer's included; and
    when it is idle all four slots are free and every accepted request is
    closed. *)
Theorem server_drains s : reachable s →
  (∀ l s', execute l s = Some s' → Forall (λ a, is_accept a = false) l → (length l + work s' ≤ work s)%nat) ∧
  (idle s ∨ ∃ a s', own s a ∧ step a s = Some s') ∧
  (idle s → s.(value) = CLIENTS ∧ ∀ r, r ∈ s.(accepted) ↔ r ∈ s.(closed)).
Proof.
  intros Hs%reachable_sane. split_and!; [| by apply idle_or_moves | by apply idle_drained].
  intros l. revert s Hs. induction l as [|a l IH]; intros s Hs s'; simpl; [by intros [= <-] |].
  intros (s1 & H1 & H)%bind_Some [Ha Hl]%Forall_cons. pose proof (work_step a s s1 Hs H1 Ha).
  specialize (IH s1 (sane_step _ _ _ Hs H1) s' H Hl). lia.
Qed.

(** ** Five connections, of which one trickles and one comes too late *)
Definition serve_request (r : Z) : list action := [Accept r; Acquire; Start true; Setup r true].
Definition busy : list action :=
  serve_request 1 ++ serve_request 2 ++ serve_request 3 ++ serve_request 4 ++ [Request 2 "today" (Get false "/healthz"); Accept 5; Acquire].
Definition busy_server : server := default initial (execute busy initial).
Lemma busy_reachable : reachable busy_server.
Proof. apply (reachable_execute busy initial); [constructor | vm_compute; reflexivity]. Qed.


Definition drain : list action :=
  [Refuse; Sent 2; Finish 2; Close 2; Release 2; Expire 1; Cut 1; Hangup 1; Finish 1; Close 1; Release 1; Hangup 3; Finish 3; Close 3; Release 3;
   Expire 4; Request 4 "today" (Get false "/"); Finish 4; Close 4; Release 4].
Definition drained_server : server := default initial (execute drain busy_server).
Lemma drained_reachable : reachable drained_server.
Proof. apply (reachable_execute drain busy_server); [exact busy_reachable | vm_compute; reflexivity]. Qed.
Lemma server_drains_witness : idle drained_server ∧ drained_server.(value) = CLIENTS ∧ (∀ r, r ∈ drained_server.(accepted) ↔ r ∈ drained_server.(closed)) ∧
  drained_server.(replies) = [(2, do_GET "today" "/healthz", true)] ∧ (20 + work drained_server ≤ work busy_server)%nat.
Proof.
  assert (Hi : idle drained_server) by (split; vm_compute; reflexivity).
  pose proof (server_drains drained_server drained_reachable) as (_ & _ & H). destruct (H Hi) as [H1 H2].
  split; [exact Hi | split; [exact H1 | split; [exact H2 | split; [vm_compute; reflexivity |]]]].
  apply (proj1 (server_drains busy_server busy_reachable) drain drained_server); [vm_compute; reflexivity | repeat constructor].
Defined.
