(* ===== verification/PowerButton.v ===== *)
(** * The power button

    scripts/device/power-buttond.py: [discover_input], [toggle_screen],
    [monitor] and [main].  Sysfs, the input device and the toggle program are
    parameters that act on the world and may fail; the native [long] of
    [struct.Struct("@llHHi")] has [long] bytes (eight on AArch64) and numbers
    are little-endian.  The two endless loops run for a given number of rounds:
    [inl] says that the loop is still running after them. *)

From S2P Require Import Prelude PyStr PyData.

Definition INPUT_NAME : pystr := "pmic_pwrkey".
Definition DEV_INPUT : pystr := "/dev/input".
Definition EVENT_TYPE_KEY : Z := 1.
Definition KEY_POWER : Z := 116.
Definition VALUE_PRESS : Z := 1.
Definition two_complement (w v : Z) : Z := if v <? 2 ^ (w - 1) then v else v - 2 ^ w.

Section button.
Context {W : Type} (long : Z).
(** [SYS_INPUT.glob("event*")], the text of [device/name] and whether the
    device node is a character device. *)
Context (glob : M W (list pystr)) (device_name : pystr → M W pystr) (is_chr : pystr → M W bool).
(** [open("rb", buffering=0)], [read], [close]; [subprocess.run(..., timeout=10)]
    and its return code; printing a line, to standard output or standard
    error; [time.sleep]. *)
Context (open_device : pystr → M W Z) (read : Z → Z → M W bytes) (close : Z → M W unit).
Context (run_toggle : pystr → M W Z) (print warn : pystr → M W unit) (sleep : Z → M W unit).

Definition INPUT_EVENT_size : Z := 2 * long + 8.
(** The last three fields of a record. *)
Definition unpack (record : bytes) : Z * Z * Z :=
  (le_int (slice record (2 * long) 2), le_int (slice record (2 * long + 2) 2), two_complement 32 (le_int (slice record (2 * long + 4) 4))).
Definition pressed (record : bytes) : bool :=
  let '(event_type, code, value) := unpack record in
  (event_type =? EVENT_TYPE_KEY) && (code =? KEY_POWER) && (value =? VALUE_PRESS).

Definition discover_input : M W pystr :=
  events ← glob;
  matches ← fold_m (λ matches event,
    seen ← catch
      (name ← device_name event; chr ← is_chr (DEV_INPUT ++ "/" ++ event); mret (Some (strip name, chr)))
      is_oserror (λ _, mret None);
    mret (match seen with
          | Some (name, chr) => if (name == INPUT_NAME) && chr then matches ++ [DEV_INPUT ++ "/" ++ event] else matches
          | None => matches
          end)) [] (sorted events);
  match matches with
  | [path] => mret path
  | _ => raise RuntimeError ("expected exactly one " ++ INPUT_NAME ++ " input, found " ++ str_of_Z (len matches))
  end.

Definition cannot_run (c : exn_class) : bool := is_oserror c || match c with SubprocessError => true | _ => false end.
Definition toggle_screen (toggle : pystr) : M W unit :=
  returncode ← catch (run_toggle toggle) cannot_run (λ e, raise RuntimeError ("screen toggle failed: " ++ exn_msg e));
  check (negb (returncode =? 0)) RuntimeError ("screen toggle failed with status " ++ str_of_Z returncode).

Definition monitor_round (source : Z) (toggle : pystr) (once : bool) (_ : unit) : M W (unit + unit) :=
  record ← read source INPUT_EVENT_size;
  check (len record != INPUT_EVENT_size) RuntimeError
    ("short input_event: expected " ++ str_of_Z INPUT_EVENT_size ++ ", got " ++ str_of_Z (len record)) ;;
  if pressed record then
    toggle_screen toggle ;;
    print "PASS KEY_POWER screen toggle" ;;
    mret (if once then inr () else inl ())
  else mret (inl ()).
(** The file is closed when the loop ends, not while it runs. *)
Definition closing {A} (source : Z) (m : M W (unit + A)) : M W (unit + A) := λ w,
  match m w with
  | (Ok (inl _), w') => (Ok (inl ()), w')
  | (r, w') => finally (lift r) (close source) w'
  end.
Definition monitor (n : positive) (input_path toggle : pystr) (once : bool) : M W (unit + unit) :=
  source ← open_device input_path;
  closing source (rounds n (monitor_round source toggle once) ()).

Definition caught (c : exn_class) : bool := is_oserror c || match c with RuntimeError => true | _ => false end.
(** One round of the retry loop of [main]; [inr] when the monitor still runs. *)
Definition retry_round (n : positive) (toggle : pystr) (_ : unit) : M W (unit + unit) :=
  catch (input ← discover_input; monitor n input toggle false ;; mret (inr ()))
    caught
    (λ e, warn ("WARN " ++ exn_msg e ++ "; retrying") ;; sleep 2 ;; mret (inl ())).
(** [inr status] is the exit status, [inl] a service still running. *)
Definition main (retries n : positive) (input : option pystr) (toggle : pystr) (once : bool) : M W (unit + Z) :=
  if INPUT_EVENT_size =? 24 then
    match input with
    | Some path =>
        catch (r ← monitor n path toggle once; mret (match r with inl _ => inl () | inr _ => inr 0 end))
          caught (λ e, warn ("ERROR " ++ exn_msg e) ;; mret (inr 1))
    | None => rounds retries (retry_round n toggle) () ;; mret (inl ())
    end
  else warn ("ERROR unexpected AArch64 input_event size: " ++ str_of_Z INPUT_EVENT_size) ;; mret (inr 1).
End button.

(** ** What the outside sees: records read, runs of the toggle, messages on
    standard error and pauses *)
Inductive event := In (record : bytes) | Ran (toggle : pystr) (r : res Z) | Said (r : res unit) | Slept (seconds : Z).
Definition records (l : list event) : list bytes := omap (λ e, match e with In b => Some b | _ => None end) l.
Definition runs (l : list event) : list (res Z) := omap (λ e, match e with Ran _ r => Some r | _ => None end) l.
Definition pauses (l : list event) : list event := omap (λ e, match e with Said _ | Slept _ => Some e | _ => None end) l.
(** What [k] failed attempts leave: a message and two seconds each. *)
Definition retried (k : nat) : list event := concat (replicate k [Said (Ok ()); Slept 2]).

(** The record of a press: two time words, then type 1, code 116 and value 1
    in little-endian order. *)
Definition press_record (long : Z) (b : bytes) : Prop :=
  ∃ time, len time = 2 * long ∧ b = time ++ le_bytes 2 EVENT_TYPE_KEY ++ le_bytes 2 KEY_POWER ++ le_bytes 4 VALUE_PRESS.
Lemma le_bytes_int b : le_bytes (length b) (le_int b) = b.
Proof. unfold le_bytes, le_int. by rewrite <- (length_reverse b), be_bytes_int, reverse_involutive. Qed.
Lemma le_field record off w v : 0 ≤ off → 0 ≤ v < 256 ^ Z.of_nat w → off + Z.of_nat w ≤ len record →
  le_int (slice record off (Z.of_nat w)) = v ↔ slice record off (Z.of_nat w) = le_bytes w v.
Proof.
  intros Ho Hv Hlen. pose proof (slice_length record off (Z.of_nat w)) as Hl. split.
  - intros <-. rewrite <- (le_bytes_int (slice record off (Z.of_nat w))) at 1. f_equal. unfold len in *. lia.
  - intros ->. rewrite le_int_bytes. by apply Z.mod_small.
Qed.
Lemma signed_one v : 0 ≤ v < 2 ^ 32 → two_complement 32 v = 1 ↔ v = 1.
Proof. intros Hv. unfold two_complement. destruct (Z.ltb_spec v (2 ^ (32 - 1))); lia. Qed.
Lemma slice_split record a b c : 0 ≤ a → 0 ≤ b → 0 ≤ c → a + b + c ≤ len record → slice record a (b + c) = slice record a b ++ slice record (a + b) c.
Proof.
  intros Ha Hb Hc Hlen. unfold slice, len in *. replace (Z.to_nat (a + b)) with (Z.to_nat a + Z.to_nat b)%nat by lia.
  rewrite <- drop_drop. set (r := drop (Z.to_nat a) record). replace (Z.to_nat (b + c)) with (Z.to_nat b + Z.to_nat c)%nat by lia.
  rewrite <- (take_drop (Z.to_nat b) (take (Z.to_nat b + Z.to_nat c) r)), take_take, Nat.min_l by lia. f_equal. rewrite skipn_firstn_comm. f_equal. lia.
Qed.
Lemma pressed_spec long b : 0 ≤ long → len b = INPUT_EVENT_size long → pressed long b = true ↔ press_record long b.
Proof.
  intros Hlong Hlen. unfold INPUT_EVENT_size in Hlen. unfold pressed, unpack. rewrite !andb_true_iff, !Z.eqb_eq.
  pose proof (le_int_bound (slice b (2 * long + 4) 4)) as Hb. rewrite (slice_length b (2 * long + 4) 4) in Hb by lia.
  rewrite signed_one by done. unfold press_record, EVENT_TYPE_KEY, KEY_POWER, VALUE_PRESS.
  rewrite (le_field b (2 * long) 2), (le_field b (2 * long + 2) 2), (le_field b (2 * long + 4) 4) by (simpl; lia). split.
  - intros [[H1 H2] H3]. exists (slice b 0 (2 * long)). split; [apply slice_length; lia |]. rewrite <- H1, <- H2, <- H3. simpl Z.of_nat.
    rewrite <- (slice_all b (2 * long + (2 + (2 + 4)))) at 1 by lia.
    rewrite (slice_split b 0), (slice_split b (0 + 2 * long)), (slice_split b (0 + 2 * long + 2)) by lia. do 3 f_equal; f_equal; lia.
  - intros (time & Ht & ->). rewrite <- Ht. change (Z.of_nat 2) with 2. change (Z.of_nat 4) with 4. split_and!.
    + rewrite slice_skip, Z.sub_diag by lia. by apply slice_first.
    + rewrite slice_skip by lia. replace (len time + 2 - len time) with 2 by lia. rewrite slice_skip by (rewrite le_bytes_len; lia).
      by apply slice_first.
    + rewrite slice_skip by lia. replace (len time + 4 - len time) with 4 by lia. rewrite !slice_skip by (rewrite ?le_bytes_len; lia). by apply slice_all.
Qed.

(** Every record of a press is followed at once by one run of the toggle, and
    the toggle runs at no other time. *)
Inductive answers (long : Z) (toggle : pystr) : list event → Prop :=
  | answers_nil : answers long toggle []
  | answers_other b l : len b = INPUT_EVENT_size long → ¬ press_record long b → answers long toggle l → answers long toggle (In b :: l)
  | answers_short b l : len b ≠ INPUT_EVENT_size long → answers long toggle l → answers long toggle (In b :: l)
  | answers_press b r l : len b = INPUT_EVENT_size long → press_record long b → answers long toggle l →
      answers long toggle (In b :: Ran toggle r :: l)
  | answers_said r l : answers long toggle l → answers long toggle (Said r :: l)
  | answers_slept t l : answers long toggle l → answers long toggle (Slept t :: l).
Lemma answers_app long toggle l1 l2 : answers long toggle l1 → answers long toggle l2 → answers long toggle (l1 ++ l2).
Proof. intros H H2. induction H; simpl; [done | by apply answers_other | by apply answers_short | by apply answers_press | by apply answers_said | by apply answers_slept]. Qed.

Section laws.
Context {W : Type} (long : Z) (Hlong : 0 ≤ long).
Context (glob : M W (list pystr)) (device_name : pystr → M W pystr) (is_chr : pystr → M W bool).
Context (open_device : pystr → M W Z) (read : Z → Z → M W bytes) (close : Z → M W unit).
Context (run_toggle : pystr → M W Z) (print warn : pystr → M W unit) (sleep : Z → M W unit).
Context (trace : W → list event).

(** A call that the outside does not see and that raises only [cs]. *)
Definition unseen {A} (cs : exn_class → bool) (m : M W A) : Prop := ∀ w,
  wp m (λ r w', trace w' = trace w ∧ ∀ e, r = Raise e → cs e.(exn_cls) = true) w.
Definition undecodable (c : exn_class) : bool := is_oserror c || match c with UnicodeError => true | _ => false end.
Record phone : Prop := {
  law_glob : unseen is_oserror glob;
  law_name event : unseen undecodable (device_name event);
  law_chr path : unseen is_oserror (is_chr path);
  law_open path : unseen is_oserror (open_device path);
  law_close d : unseen is_oserror (close d);
  law_print line : unseen is_oserror (print line);
  law_warn line w : wp (warn line) (λ r w', trace w' = trace w ++ [Said r] ∧ ∀ e, r = Raise e → is_oserror e.(exn_cls) = true) w;
  law_sleep t w : wp (sleep t) (λ r w', trace w' = trace w ++ [Slept t] ∧ r = Ok ()) w;
  law_read d n w : wp (read d n) (λ r w', match r with
    | Ok b => trace w' = trace w ++ [In b]
    | Raise e => trace w' = trace w ∧ is_oserror e.(exn_cls) = true end) w;
  law_run t w : wp (run_toggle t) (λ r w', trace w' = trace w ++ [Ran t r] ∧ ∀ e, r = Raise e → cannot_run e.(exn_cls) = true) w
}.
Context (Laws : phone).

Lemma unseen_wp {A} cs (m : M W A) (Q : res A → W → Prop) w : unseen cs m →
  (∀ r w', trace w' = trace w → (∀ e, r = Raise e → cs e.(exn_cls) = true) → Q r w') → wp m Q w.
Proof. intros Hm HQ. eapply wp_mono; [apply Hm |]. intros r w' [H1 H2]. by apply HQ. Qed.
Lemma unseen_lift {A} cs (r : res A) : (∀ e, r = Raise e → cs e.(exn_cls) = true) → unseen cs (lift r).
Proof. intros Hr w. by apply wp_lift. Qed.
Lemma unseen_weaken {A} (cs cs' : exn_class → bool) (m : M W A) : (∀ c, cs c = true → cs' c = true) → unseen cs m → unseen cs' m.
Proof. intros Hcs Hm w. apply (unseen_wp cs); [done |]. intros r w' Ht Hr. split; [done |]. intros e He. by apply Hcs, Hr. Qed.
Lemma unseen_bind {A B} cs (m : M W A) (f : A → M W B) : unseen cs m → (∀ a, unseen cs (f a)) → unseen cs (m ≫= f).
Proof.
  intros Hm Hf w. apply wp_bind. apply (unseen_wp cs); [done |]. intros [a|e] w1 Ht Hr.
  - apply (unseen_wp cs); [apply Hf |]. intros r w2 Ht2 Hr2. by split; [congruence |].
  - split; [done |]. intros e' [= <-]. by apply Hr.
Qed.
Lemma unseen_catch {A} cs cs' (m : M W A) p h : unseen cs m → (∀ c, cs c = true → p c = false → cs' c = true) → (∀ e, unseen cs' (h e)) →
  unseen cs' (catch m p h).
Proof.
  intros Hm Hcs Hh w. apply wp_catch. apply (unseen_wp cs); [done |]. intros [a|e] w1 Ht Hr; [by split |].
  destruct (p (exn_cls e)) eqn:Hp.
  - apply (unseen_wp cs'); [apply Hh |]. intros r w2 Ht2 Hr2. by split; [congruence |].
  - split; [done |]. intros e' [= <-]. apply Hcs; [by apply Hr | done].
Qed.
Lemma unseen_fold {A B} cs (f : B → A → M W B) l : (∀ acc x, unseen cs (f acc x)) → ∀ acc, unseen cs (fold_m f acc l).
Proof.
  intros Hf. induction l as [|x l IH]; intros acc; simpl; [by apply (unseen_lift cs (Ok acc)) |].
  change (unseen cs (acc' ← f acc x; fold_m f acc' l)). apply unseen_bind; [apply Hf | apply IH].
Qed.

Abbreviation finds := (discover_input glob device_name is_chr).
(** Looking for the device is not seen and fails for a file error, for no or
    several devices, or for a name that is not ASCII. *)
Lemma discover_unseen : unseen (λ c, caught c || match c with UnicodeError => true | _ => false end) finds.
Proof using Laws.
  unfold discover_input. apply unseen_bind; [eapply unseen_weaken, law_glob; [| done]; by intros [] |]. intros events.
  apply unseen_bind.
  - apply unseen_fold. intros matches e. apply unseen_bind; [| intros seen; by apply (unseen_lift _ (Ok _))].
    apply (unseen_catch undecodable); [| by intros [] | intros e'; by apply (unseen_lift _ (Ok _))].
    apply unseen_bind; [by apply law_name |]. intros name.
    apply unseen_bind; [eapply unseen_weaken, law_chr; [| done]; by intros [] |]. intros chr. by apply (unseen_lift _ (Ok _)).
  - intros [|path [|]]; [| by apply (unseen_lift _ (Ok _)) |]; apply unseen_lift; by intros e [= <-].
Qed.

Section session.
Context (toggle : pystr) (w0 : W).
(** What has been seen since [w0]. *)
Definition since (w : W) (l : list event) : Prop := trace w = trace w0 ++ l ∧ answers long toggle l ∧ pauses l = [].
Lemma since_app w l b : since w l → answers long toggle b → pauses b = [] → ∀ w', trace w' = trace w ++ b → since w' (l ++ b).
Proof.
  intros (H1 & H2 & H3) Hb Hp w' Hw. split; [by rewrite Hw, H1, app_assoc |]. split; [by apply answers_app |]. unfold pauses in *. by rewrite omap_app, H3, Hp.
Qed.

Definition passed (r : res Z) : Prop := r = Ok 0.
(** A loop after [k] rounds. *)
Definition watching (once : bool) (k : nat) (_ : unit) (w : W) : Prop := ∃ l, since w l ∧ length (records l) = k ∧ Forall passed (runs l) ∧
  (once = true → runs l = []).
Definition watched (once : bool) (n : positive) (r : res (unit + unit)) (w : W) : Prop :=
  match r with
  | Ok (inl _) => watching once (Pos.to_nat n) () w
  | Ok (inr _) => once = true ∧ ∃ l, since w l ∧ runs l = [Ok 0]
  | Raise e => caught e.(exn_cls) = true ∧ ∃ l, since w l
  end.
Lemma monitor_round_wp source once k w : watching once k () w →
  wp (monitor_round long read run_toggle print source toggle once ())
    (λ r w', match r with
             | Ok (inl s') => watching once (S k) s' w'
             | Ok (inr a) => once = true ∧ ∃ l, since w' l ∧ runs l = [Ok 0]
             | Raise e => caught e.(exn_cls) = true ∧ ∃ l, since w' l
             end) w.
Proof using Laws Hlong.
  intros (l & Hl & Hk & Hruns & Honce). unfold monitor_round. apply wp_bind. eapply wp_mono; [by apply (law_read Laws) |].
  intros [b|e] w1; [| intros [H1 H2]; split; [unfold caught; by rewrite H2 | exists l; unfold since in *; by rewrite H1]]. intros H1.
  apply wp_bind, wp_check; intros Hlen; [apply negb_true_iff, bool_decide_eq_false in Hlen | apply negb_false_iff, bool_decide_eq_true in Hlen].
  { split; [done |]. exists (l ++ [In b]). eapply since_app; [done | apply answers_short; [done | constructor] | done | done]. }
  destruct (pressed long b) eqn:Hp; [apply pressed_spec in Hp; [| done | done] | apply not_true_iff_false in Hp; rewrite pressed_spec in Hp by done].
  2: { apply wp_mret. exists (l ++ [In b]). split; [eapply since_app; [done | apply answers_other; [done | done | constructor] | done | done] |].
       unfold records, runs. rewrite !omap_app, length_app. simpl. fold (records l) (runs l). rewrite app_nil_r. by split; [lia |]. }
  apply wp_bind. unfold toggle_screen. apply wp_bind, wp_catch. eapply wp_mono; [by apply (law_run Laws) |].
  intros r w2 [H2 He].
  assert (Hs : since w2 (l ++ [In b; Ran toggle r])).
  { eapply since_app; [done | apply answers_press; [done | done | constructor] | done | by rewrite H2, H1, <- app_assoc]. }
  destruct r as [c|e].
  2: { rewrite He by done. apply wp_lift. split; [done | by eexists]. }
  apply wp_check; intros Hc; [split; [done | by eexists] |]. apply negb_false_iff, Z.eqb_eq in Hc as ->.
  apply wp_bind. eapply unseen_wp; [by apply (law_print Laws) |]. intros [u|e] w3 H3 He3.
  2: { split; [unfold caught; by rewrite He3 | eexists; unfold since in *; by rewrite H3]. }
  apply wp_mret. assert (Hs3 : since w3 (l ++ [In b; Ran toggle (Ok 0)])) by (unfold since in *; by rewrite H3).
  assert (Hr : runs (l ++ [In b; Ran toggle (Ok 0)]) = runs l ++ [Ok 0]) by (unfold runs; by rewrite omap_app).
  destruct once.
  - split; [done |]. eexists. split; [done |]. by rewrite Hr, Honce.
  - exists (l ++ [In b; Ran toggle (Ok 0)]). split; [done |]. rewrite Hr. split_and!; [| by apply Forall_app; split; [| repeat constructor] | done].
    unfold records. rewrite omap_app, length_app. fold (records l). simpl. lia.
Qed.

Lemma closing_wp source (m : M W (unit + unit)) once n w :
  wp m (watched once n) w → wp (closing close source m) (watched once n) w.
Proof using Laws Hlong.
  unfold wp, closing. destruct (m w) as [[[[]|[]]|e] w1]; simpl; [done | |].
  - intros (Honce & l & Hl & Hr). apply (wp_finally (lift (Ok (inr ()))) (close source) _ w1), wp_lift.
    eapply unseen_wp; [by apply (law_close Laws) |]. intros [u|e] w2 H2 He.
    + split; [done |]. exists l. unfold since in *. by rewrite H2.
    + split; [unfold caught; by rewrite He | exists l; unfold since in *; by rewrite H2].
  - intros (He & l & Hl). apply (wp_finally (lift (Raise e)) (close source) _ w1), wp_lift.
    eapply unseen_wp; [by apply (law_close Laws) |]. intros [u|e'] w2 H2 He'.
    + split; [done |]. exists l. unfold since in *. by rewrite H2.
    + split; [unfold caught; by rewrite He' | exists l; unfold since in *; by rewrite H2].
Qed.
Lemma since_none w : trace w = trace w0 → since w [].
Proof. intros H. split; [by rewrite app_nil_r | split; [constructor | done]]. Qed.
Lemma monitor_wp n path once w : trace w = trace w0 →
  wp (monitor long open_device read close run_toggle print n path toggle once) (watched once n) w.
Proof using Laws Hlong.
  intros Hw. unfold monitor. apply wp_bind. eapply unseen_wp; [by apply (law_open Laws) |]. intros [source|e] w1 H1 He.
  2: { split; [unfold caught; by rewrite He | exists []; apply since_none; congruence]. }
  apply closing_wp.
  assert (Hstart : watching once 0 () w1) by (exists []; split_and!; [apply since_none; congruence | done | constructor | done]).
  eapply wp_mono; [eapply (rounds_counted _ (watching once) (λ r, watched once n (inr <$> r)) n); [| exact Hstart] |].
  - intros k [] w2 H2. eapply wp_mono; [by eapply monitor_round_wp |]. by intros [[[]|[]]|e] w3.
  - by intros [[[]|[]]|e] w2.
Qed.
End session.

Abbreviation started := (main long glob device_name is_chr open_device read close run_toggle print warn sleep).
Lemma watched_since toggle w0 once n r w : watched toggle w0 once n r w → ∃ l, since toggle w0 w l.
Proof.
  destruct r as [[[]|[]]|e]; simpl; [intros (l & Hl & _) | intros (_ & l & Hl & _) | intros (_ & l & Hl)]; by exists l.
Qed.

(** Saying something, and pausing, after what was seen. *)
Lemma warned toggle w0 line l w (Q : res unit → W → Prop) : since toggle w0 w l →
  (∀ w', trace w' = trace w0 ++ l ++ [Said (Ok ())] → Q (Ok ()) w') →
  (∀ e w', trace w' = trace w0 ++ l ++ [Said (Raise e)] → is_oserror e.(exn_cls) = true → Q (Raise e) w') → wp (warn line) Q w.
Proof using Laws.
  intros (H & _ & _) HO HE. eapply wp_mono; [by apply (law_warn Laws) |]. intros [[]|e] w' [Hw He].
  - apply HO. by rewrite Hw, H, app_assoc.
  - apply HE; [by rewrite Hw, H, app_assoc | by apply He].
Qed.

(** One retry: the attempt fails and is followed by a message and a pause, or
    the monitor still runs, or the message cannot be written, or the name of a
    device is no text. *)
Definition attempt (toggle : pystr) (n : positive) (w : W) (r : res (unit + unit)) (w' : W) : Prop :=
  ∃ l, answers long toggle l ∧ pauses l = [] ∧
    match r with
    | Ok (inl _) => trace w' = trace w ++ l ++ [Said (Ok ()); Slept 2]
    | Ok (inr _) => trace w' = trace w ++ l ∧ length (records l) = Pos.to_nat n ∧ Forall passed (runs l)
    | Raise e => trace w' = trace w ++ l ++ [Said (Raise e)] ∧ is_oserror e.(exn_cls) = true ∨ trace w' = trace w ++ l ∧ e.(exn_cls) = UnicodeError
    end.
Lemma retry_wp toggle n w l w1 message : since toggle w w1 l →
  wp (warn message ;; sleep 2 ;; mret (inl ())) (attempt toggle n w) w1.
Proof using Laws.
  intros H. pose proof H as (_ & Ha & Hp). apply wp_bind. apply (warned toggle w _ l); [done | |].
  - intros w2 H2. apply wp_bind. eapply wp_mono; [by apply (law_sleep Laws) |]. intros r w3 [H3 ->]. apply wp_mret.
    exists l. split_and!; [done | done |]. by rewrite H3, H2, <- !app_assoc.
  - intros e w2 H2 He. exists l. split_and!; [done | done |]. by left.
Qed.
Lemma retry_round_wp n toggle w : wp (retry_round long glob device_name is_chr open_device read close run_toggle print warn sleep n toggle ())
  (attempt toggle n w) w.
Proof using Laws Hlong.
  unfold retry_round. apply wp_catch, wp_bind. eapply unseen_wp; [by apply discover_unseen |]. intros [path|e] w1 H1 He.
  - apply wp_bind. eapply wp_mono; [by apply (monitor_wp toggle w) |]. intros [[[]|[]]|e] w2 H2.
    + destruct H2 as (l & (Ht & Ha & Hp) & Hk & Hr & _). apply wp_mret. exists l. by split_and!.
    + by destruct H2.
    + destruct H2 as [Hc (l & Hl)]. rewrite Hc. by eapply retry_wp.
  - assert (Hs : since toggle w w1 []) by by apply since_none. destruct (caught (exn_cls e)) eqn:Hc; [by eapply retry_wp |].
    exists []. split; [constructor |]. split; [done |]. right. rewrite app_nil_r. split; [done |].
    specialize (He _ eq_refl). rewrite Hc in He. by destruct (exn_cls e).
Qed.
(** The retry loop after [k] attempts. *)
Definition retrying (toggle : pystr) (w : W) (k : nat) (_ : unit) (w' : W) : Prop :=
  ∃ l, trace w' = trace w ++ l ∧ answers long toggle l ∧ pauses l = retried k.
Lemma answers_pause toggle r : answers long toggle [Said r] ∧ answers long toggle [Said r; Slept 2].
Proof. by repeat constructor. Qed.
Lemma pauses_app l1 l2 : pauses (l1 ++ l2) = pauses l1 ++ pauses l2.
Proof. apply omap_app. Qed.
Lemma retried_S k : retried (S k) = retried k ++ [Said (Ok ()); Slept 2].
Proof. unfold retried. by rewrite replicate_S_end, concat_app. Qed.
(** How the loop can be when it is looked at after some rounds, or ends. *)
Definition retry_end (toggle : pystr) (n : positive) (w : W) (r : res (unit + unit)) (w' : W) : Prop :=
  ∃ k l, trace w' = trace w ++ l ∧ answers long toggle l ∧
    match r with
    | Ok _ => ∃ l1 l2, l = l1 ++ l2 ∧ pauses l1 = retried k ∧ pauses l2 = [] ∧ length (records l2) = Pos.to_nat n ∧ Forall passed (runs l2)
    | Raise e => is_oserror e.(exn_cls) = true ∧ pauses l = retried k ++ [Said (Raise e)] ∨ e.(exn_cls) = UnicodeError ∧ pauses l = retried k
    end.
Lemma attempt_end toggle n w k w1 r w2 : retrying toggle w k () w1 → attempt toggle n w1 r w2 →
  match r with Ok (inl s) => retrying toggle w (S k) s w2 | _ => retry_end toggle n w r w2 end.
Proof.
  intros (l1 & H1 & A1 & P1) (l2 & A2 & P2 & H2). destruct (answers_pause toggle (Ok ())) as [_ Hpair].
  destruct r as [[[]|[]]|e].
  - exists (l1 ++ l2 ++ [Said (Ok ()); Slept 2]). split; [by rewrite H2, H1, <- app_assoc |]. split; [by repeat apply answers_app |].
    by rewrite !pauses_app, P1, P2, retried_S.
  - destruct H2 as (H2 & Hk & Hr). exists k, (l1 ++ l2). split; [by rewrite H2, H1, <- app_assoc |]. split; [by apply answers_app |]. by exists l1, l2.
  - destruct H2 as [[H2 He]|[H2 He]].
    + exists k, (l1 ++ l2 ++ [Said (Raise e)]). split; [by rewrite H2, H1, <- app_assoc |]. split; [repeat apply answers_app; [done | done | apply answers_pause] |].
      left. split; [done |]. by rewrite !pauses_app, P1, P2.
    + exists k, (l1 ++ l2). split; [by rewrite H2, H1, <- app_assoc |]. split; [by apply answers_app |]. right. split; [done |].
      by rewrite pauses_app, P1, P2, app_nil_r.
Qed.

(** Exit status 1 after a message. *)
Lemma refused (input : option pystr) once toggle w0 w1 l message (P : list event → Prop) : since toggle w0 w1 l → (input = None → long ≠ 8) →
  wp (warn message ;; mret (inr 1)) (λ (r : res (unit + Z)) w', ∃ l, trace w' = trace w0 ++ l ∧ answers long toggle l ∧
    match r with
    | Ok (inl _) => P l
    | Ok (inr status) => (input = None → long ≠ 8) ∧
        (status = 0 ∧ once = true ∧ runs l = [Ok 0] ∧ pauses l = [] ∨ status = 1 ∧ pauses l = [Said (Ok ())])
    | Raise e => ∃ k, (input ≠ None → k = O) ∧
        (is_oserror e.(exn_cls) = true ∧ pauses l = retried k ++ [Said (Raise e)] ∨
         input = None ∧ e.(exn_cls) = UnicodeError ∧ pauses l = retried k)
    end) w1.
Proof using Laws.
  intros Hs Hi. pose proof Hs as (_ & Ha & Hp). destruct (answers_pause toggle (Ok ())) as [Hsaid _]. apply wp_bind. apply (warned toggle w0 _ l); [done | |].
  - intros w2 H2. apply wp_mret. exists (l ++ [Said (Ok ())]). split_and!; [done | by apply answers_app | done |]. right. by rewrite pauses_app, Hp.
  - intros e w2 H2 He. exists (l ++ [Said (Raise e)]). split_and!; [done | apply answers_app; [done | apply answers_pause] |].
    exists O. split; [done |]. left. by rewrite pauses_app, Hp.
Qed.

(** C22. However long it has run and wherever its calls fail, the service has
    run the toggle exactly once for each press of the power key it has read,
    at once, and at no other time.  Without [--input] it never exits by itself:
    every file error, short record and failing toggle is followed by one
    message, two seconds and another attempt, and only a message that cannot
    be written or an input device whose name is not ASCII ends it.  With
    [--input] it reads on while toggles succeed; it exits with status 0 only
    with [--once], after its first press and one successful run, and with
    status 1 after a message otherwise. *)
Theorem main_answers retries n input toggle once w :
  wp (started retries n input toggle once) (λ r w', ∃ l, trace w' = trace w ++ l ∧ answers long toggle l ∧
    match r with
    | Ok (inl _) => long = 8 ∧ match input with
        | Some _ => pauses l = [] ∧ length (records l) = Pos.to_nat n ∧ Forall passed (runs l) ∧ (once = true → runs l = [])
        | None => pauses l = retried (Pos.to_nat retries) ∨
            ∃ k l1 l2, l = l1 ++ l2 ∧ pauses l1 = retried k ∧ pauses l2 = [] ∧ length (records l2) = Pos.to_nat n ∧ Forall passed (runs l2)
        end
    | Ok (inr status) => (input = None → long ≠ 8) ∧
        (status = 0 ∧ once = true ∧ runs l = [Ok 0] ∧ pauses l = [] ∨ status = 1 ∧ pauses l = [Said (Ok ())])
    | Raise e => ∃ k, (input ≠ None → k = O) ∧
        (is_oserror e.(exn_cls) = true ∧ pauses l = retried k ++ [Said (Raise e)] ∨
         input = None ∧ e.(exn_cls) = UnicodeError ∧ pauses l = retried k)
    end) w.
Proof using Laws Hlong.
  unfold main. destruct (Z.eqb_spec (INPUT_EVENT_size long) 24) as [H24|H24]; unfold INPUT_EVENT_size in H24.
  2: { eapply refused; [by apply since_none | intros _; lia]. }
  assert (long = 8) as H8 by lia. destruct input as [path|].
  - apply wp_catch, wp_bind. eapply wp_mono; [by apply (monitor_wp toggle w) |]. intros [[[]|[]]|e] w1 H1.
    + destruct H1 as (l & (Ht & Ha & Hp) & Hk & Hr & Ho). apply wp_mret. exists l. by split_and!.
    + destruct H1 as (Ho & l & (Ht & Ha & Hp) & Hr). apply wp_mret. exists l. split_and!; [done | done | done |]. by left.
    + destruct H1 as (Hc & l & Hl). rewrite Hc. by eapply refused.
  - apply wp_bind.
    assert (Hstart : retrying toggle w 0 () w) by (exists []; split; [by rewrite app_nil_r | split; [constructor | done]]).
    eapply wp_mono.
    { eapply (rounds_counted _ (retrying toggle w) (λ r, retry_end toggle n w (inr <$> r)) retries); [| exact Hstart].
      intros k [] w1 Hk. eapply wp_mono; [apply retry_round_wp |]. intros r w2 H2. pose proof (attempt_end toggle n w k w1 r w2 Hk H2) as He.
      by destruct r as [[[]|[]]|e]. }
    intros [[[]|[]]|e] w1 H1.
    + destruct H1 as (l & Ht & Ha & Hp). apply wp_mret. exists l. split_and!; [done | done | done |]. by left.
    + destruct H1 as (k & l & Ht & Ha & H1). apply wp_mret. exists l. split_and!; [done | done | done |]. by right; exists k.
    + destruct H1 as (k & l & Ht & Ha & H1). exists l. split; [done |]. split; [done |]. exists k. split; [done |]. destruct H1 as [H1|[H1 H2]]; [by left | by right].
Qed.
End laws.

(** ** A phone with a power key and a headset whose name is not ASCII *)
Record bench := Bench { b_trace : list event; b_reads : list bytes; b_names : list (pystr * pystr) }.
Definition key_event (value : Z) : bytes := replicate 16 (chr 0) ++ le_bytes 2 1 ++ le_bytes 2 116 ++ le_bytes 4 value.
Definition b_glob : M bench (list pystr) := λ w, (Ok (map fst w.(b_names)), w).
Definition b_name (e : pystr) : M bench pystr := λ w,
  (match dget e w.(b_names) with Some n => decode_ascii n | None => Raise (Exn FileNotFoundError e) end, w).
Definition b_read (d n : Z) : M bench bytes := λ w,
  match w.(b_reads) with
  | [] => (Raise (Exn OSError "device removed"), w)
  | b :: l => (Ok b, Bench (w.(b_trace) ++ [In b]) l w.(b_names))
  end.
Definition b_run (t : pystr) : M bench Z := λ w, (Ok 0, Bench (w.(b_trace) ++ [Ran t (Ok 0)]) w.(b_reads) w.(b_names)).
Definition b_says (e : event) : M bench unit := λ w, (Ok (), Bench (w.(b_trace) ++ [e]) w.(b_reads) w.(b_names)).
Definition b_warn (message : pystr) : M bench unit := b_says (Said (Ok ())).
Definition b_sleep (t : Z) : M bench unit := b_says (Slept t).
Definition b_main (n : positive) (input : option pystr) (once : bool) : M bench (unit + Z) :=
  main 8 b_glob b_name (λ _, mret true) (λ _, mret 3) b_read (λ _, pass) b_run (λ _, pass) b_warn b_sleep 2 n input "screen" once.
Definition names_ok : list (pystr * pystr) := [("event0" : pystr, "pmic_pwrkey" ++ [LF]); ("event1" : pystr, "volume keys" ++ [LF])].
Definition names_bad : list (pystr * pystr) := names_ok ++ [("event2" : pystr, ["195"%char; "169"%char; LF])].
Definition bench_with (names : list (pystr * pystr)) : bench := Bench [] [key_event 0; key_event 1; key_event 1] names.
Lemma bench_phone : phone b_glob b_name (λ _, mret true) (λ _, mret 3) b_read (λ _, pass) b_run (λ _, pass) b_warn b_sleep b_trace.
Proof.
  split; try (by intros; split; [| by intros e [= <-]]).
  - intros e w. unfold wp, b_name. simpl. split; [done |]. destruct (dget e (b_names w)) as [n|]; [| by intros x [= <-]].
    unfold decode_ascii. destruct (isascii n); [done | by intros x [= <-]].
  - by intros t w.
  - intros d n w. unfold wp, b_read. by destruct (b_reads w).
Qed.

(** With [--once] it exits after the first press; a foreign device whose name
    is not ASCII ends the service although the power key is there; a device
    that goes away is tried again, with a message and a pause each time. *)
Lemma main_answers_witness :
  (b_main 5 (Some ("/dev/input/event0" : pystr)) true (bench_with names_ok)).1 = Ok (inr 0) ∧
  (∃ e, (b_main 5 None false (bench_with names_bad)).1 = Raise e ∧ e.(exn_cls) = UnicodeError) ∧
  (b_main 5 None false (bench_with names_ok)).1 = Ok (inl ()) ∧
  ∃ l, b_trace (b_main 5 None false (bench_with names_ok)).2 = l ∧ answers 8 "screen" l ∧ runs l = [Ok 0; Ok 0] ∧
    pauses l = [Said (Ok ()); Slept 2; Said (Ok ()); Slept 2].
Proof.
  split; [vm_compute; reflexivity | split; [eexists; split; vm_compute; reflexivity | split; [vm_compute; reflexivity |]]].
  destruct (main_answers 8 ltac:(lia) _ _ _ _ _ _ _ _ _ _ _ bench_phone 2 5 None "screen" false (bench_with names_ok)) as (l & Hl & Ha & _).
  exists l. split; [exact Hl | split; [exact Ha |]].
  assert (l = [In (key_event 0); In (key_event 1); Ran "screen" (Ok 0); In (key_event 1); Ran "screen" (Ok 0); Said (Ok ()); Slept 2; Said (Ok ()); Slept 2]) as ->.
  { rewrite (eq_sym Hl : l = _). vm_compute. reflexivity. }
  split; reflexivity.
Defined.
