(* ===== verification/PonHistory.v ===== *)
(** * The power-on history

    tools/pmic_pon_reader/decode.py: decoding a snapshot of the PMK8350 FIFO,
    a ring of 117 bytes that holds events of four bytes, oldest to newest. *)

From S2P Require Import Prelude PyStr.

Definition RESET : list (Z * pystr) :=
  [(128, "KPDPWR_N_S2" : pystr); (129, "RESIN_N_S2" : pystr); (130, "KPDPWR_AND_RESIN_S2" : pystr);
   (131, "PMIC_WATCHDOG_S2" : pystr); (132, "PS_HOLD" : pystr); (133, "SW_RESET" : pystr);
   (8675, "PMIC_SID2_BCL_ALARM" : pystr); (12789, "PMIC_SID3_BCL_ALARM" : pystr);
   (4560, "PMIC_SID1_OCP" : pystr); (8656, "PMIC_SID2_OCP" : pystr);
   (16848, "PMIC_SID4_OCP" : pystr); (20944, "PMIC_SID5_OCP" : pystr)].
Definition PON : list (Z * pystr) :=
  [(132, "PS_HOLD" : pystr); (133, "HARD_RESET" : pystr); (134, "RESIN_N" : pystr); (135, "KPDPWR_N" : pystr);
   (1569, "RTC_ALARM" : pystr); (1600, "SMPL" : pystr); (6336, "PMIC_SID1_GPIO5" : pystr); (12738, "USB_CHARGER" : pystr)].
Definition FAULT1 : list pystr :=
  ["GP_FAULT0" : pystr; "GP_FAULT1" : pystr; "GP_FAULT2" : pystr; "GP_FAULT3" : pystr; "MBG_FAULT" : pystr; "OVLO" : pystr;
   "UVLO" : pystr; "AVDD_RB" : pystr].
Definition FAULT2 : list pystr :=
  ["UNKNOWN0" : pystr; "UNKNOWN1" : pystr; "UNKNOWN2" : pystr; "FAULT_N" : pystr; "FAULT_WATCHDOG" : pystr; "PBS_NACK" : pystr;
   "RESTART_PON" : pystr; "OVERTEMP_STAGE3" : pystr].
Definition RESET_TYPE : list (Z * pystr) := [(1, "WARM_RESET" : pystr); (4, "SHUTDOWN" : pystr); (7, "HARD_RESET" : pystr)].

Definition name_of (table : list (Z * pystr)) (key : Z) (unknown : pystr) : pystr :=
  match List.find (λ kv, kv.1 =? key) table with Some kv => kv.2 | None => "UNKNOWN_" ++ unknown end.

(** The members a record gets besides state, event and data. *)
Inductive detail :=
  | PonTrigger (name : pystr) | ResetTrigger (name : pystr) | ResetType (name : pystr) | WarmResetCount (n : Z)
  | Faults (names : list pystr) (pmic_sid : option Z) | VregFault (b : bool) | NoDetail.
Record item := Item { state : Z; event : Z; data : Z; more : detail }.

Definition bits (names : list pystr) (value : Z) : list pystr :=
  map snd (filter (λ e, Z.testbit value (Z.of_nat e.1) = true) (zip (seq 0 (length names)) names)).

Definition detail_of (event data high low : Z) : detail :=
  if event =? 1 then PonTrigger (name_of PON data (hex_fixed 4 data))
  else if event =? 6 then ResetTrigger (name_of RESET data (hex_fixed 4 data))
  else if event =? 7 then ResetType (name_of RESET_TYPE low (str_of_Z low))
  else if event =? 8 then WarmResetCount data
  else if (event =? 9) || ((16 <=? event) && (event <=? 20)) then
    Faults (bits FAULT1 low ++ bits FAULT2 high) (if 16 <=? event then Some (event - 16 + 1) else None)
  else if event =? 21 then VregFault (negb (data =? 0))
  else NoDetail.

(** One event; an empty one is skipped. *)
Definition record_of (b : list Z) : option item :=
  match b with
  | [state; event; high; low] =>
      if (state =? 0) && (event =? 0) && (high =? 0) && (low =? 0) then None
      else let data := high * 256 + low in Some (Item state event data (detail_of event data high low))
  | _ => None
  end.

Definition byte_at (fifo : list Z) (i : Z) : Z := default 0 (fifo !! Z.to_nat i).
Record history := History { push_pointer : Z; records : list item }.

Definition decode (blob : list Z) : res history :=
  refuse_if (negb (len blob =? 125) || (take 5 blob != [82; 80; 79; 78; 1]) || negb (byte_at blob 7 =? 117))
    ValueError "wrong snapshot format/size" ;;
  let push := byte_at blob 5 in
  refuse_if (negb (push =? byte_at blob 6) || negb ((75 <=? push) && (push <=? 191))) ValueError
    "FIFO changed or push pointer invalid" ;;
  let fifo := drop 8 blob in
  let start := (push - 75 - 29 * 4) mod 117 in
  Ok (History push (omap (λ index, record_of (map (λ i, byte_at fifo ((start + Z.of_nat index * 4 + Z.of_nat i) mod 117)) (seq 0 4)))
                         (seq 0 29))).

(** ** The ring the hardware keeps *)
Definition ring : Type := list Z * Z. (* the bytes and the offset of the next write *)
Definition push_byte (r : ring) (b : Z) : ring := (<[Z.to_nat r.2 := b]> r.1, (r.2 + 1) mod 117).
Definition empty_ring : ring := (replicate 117 0, 0).
Definition snapshot_of (r : ring) : list Z := [82; 80; 79; 78; 1; r.2 + 75; r.2 + 75; 117] ++ r.1.

(** The byte [k] places before the next write. *)
Definition back (r : ring) (k : Z) : Z := byte_at r.1 ((r.2 - k) mod 117).

Lemma push_byte_back r b k : length r.1 = 117%nat → 0 ≤ r.2 < 117 → 1 ≤ k ≤ 117 →
  back (push_byte r b) k = if decide (k = 1) then b else back r (k - 1).
Proof.
  destruct r as [f p]. unfold back, push_byte, byte_at. simpl. intros Hl Hp Hk.
  assert (((p + 1) mod 117 - k) mod 117 = (p - (k - 1)) mod 117) as ->.
  { rewrite Zminus_mod_idemp_l. f_equal. lia. }
  pose proof (Z.mod_pos_bound (p - (k - 1)) 117 ltac:(lia)) as Hb. case_decide as Hd.
  - subst k. replace (p - (1 - 1)) with p by lia. rewrite Z.mod_small by lia. rewrite list_lookup_insert_eq by lia. done.
  - rewrite list_lookup_insert_ne; [done |]. intros He. apply Z2Nat.inj in He; [| lia ..].
    assert ((p - (k - 1)) mod 117 = p mod 117) as Hm by (rewrite <-He, Z.mod_small; lia).
    assert ((p - (p - (k - 1))) mod 117 = 0) as Hz by (rewrite Zminus_mod, Hm, Z.sub_diag; done).
    replace (p - (p - (k - 1))) with (k - 1) in Hz by lia. rewrite Z.mod_small in Hz; lia.
Qed.
Lemma push_byte_ok r b : length r.1 = 117%nat → 0 ≤ r.2 < 117 → length (push_byte r b).1 = 117%nat ∧ 0 ≤ (push_byte r b).2 < 117.
Proof. destruct r as [f p]. unfold push_byte. simpl. rewrite length_insert. intros -> _. split; [done | by apply Z.mod_pos_bound]. Qed.

Lemma ring_back bs : let r := foldl push_byte empty_ring bs in
  length r.1 = 117%nat ∧ 0 ≤ r.2 < 117 ∧
  ∀ k, 1 ≤ k ≤ 117 → back r k = default 0 (reverse bs !! Z.to_nat (k - 1)).
Proof.
  induction bs as [|b bs IH] using rev_ind; simpl.
  - split; [done |]. split; [lia |]. intros k Hk. unfold back, byte_at, empty_ring. cbn [fst snd].
    pose proof (Z.mod_pos_bound (0 - k) 117 ltac:(lia)). rewrite lookup_replicate_2 by lia. done.
  - rewrite foldl_app. simpl. destruct IH as (Hl & Hp & Hb). destruct (push_byte_ok (foldl push_byte empty_ring bs) b Hl Hp) as [Hl' Hp'].
    split; [done |]. split; [done |]. intros k Hk. rewrite push_byte_back by done. rewrite reverse_snoc. case_decide as Hd; [by subst |].
    rewrite Hb by lia. replace (Z.to_nat (k - 1)) with (S (Z.to_nat (k - 1 - 1))) by lia. done.
Qed.

(** ** Events *)
Definition is_event (e : list Z) : Prop := length e = 4%nat.
Definition no_event : list Z := [0; 0; 0; 0].
Definition hardware (es : list (list Z)) : ring := foldl push_byte empty_ring (concat es).

Lemma concat_events es q i : Forall is_event es → (i < 4)%nat → concat es !! (4 * q + i)%nat = (es !! q) ≫= (.!! i).
Proof.
  intros He Hi. revert q. induction He as [|e es Hlen _ IH]; intros q; [done |]. unfold is_event in Hlen. destruct q as [|q].
  - cbn [concat]. rewrite lookup_app_l by lia. by replace (4 * 0 + i)%nat with i by lia.
  - cbn [concat]. rewrite lookup_app_r by lia. replace (4 * S q + i - length e)%nat with (4 * q + i)%nat by lia. by rewrite IH.
Qed.
Lemma concat_events_length es : Forall is_event es → length (concat es) = (4 * length es)%nat.
Proof. induction 1 as [|e es He _ IH]; [done |]. simpl. rewrite length_app, IH, He. lia. Qed.

Lemma omap_seq {A B} (f : A → option B) (g : nat → A) (l : list A) n :
  (∀ j a, l !! j = Some a → g (n + j)%nat = a) → omap (λ j, f (g j)) (seq n (length l)) = omap f l.
Proof.
  revert n. induction l as [|a l IH]; intros n Hg; [done |]. cbn [length seq].
  assert (∀ C (h : C → option B) x xs, omap h (x :: xs) = match h x with Some y => y :: omap h xs | None => omap h xs end) as Hc by done.
  rewrite !Hc, IH; [by rewrite <-(Hg 0%nat a), Nat.add_0_r by done |].
  intros j b Hj. rewrite <-(Hg (S j) b), Nat.add_succ_r by done. done.
Qed.

(** One byte of the [index]-th oldest of the last 29 events. *)
Lemma event_byte es index i : Forall is_event es → (index < 29)%nat → (i < 4)%nat →
  back (hardware es) (116 - Z.of_nat index * 4 - Z.of_nat i) =
  default 0 (((replicate 29 no_event ++ es) !! (length es + index)%nat) ≫= (.!! i)).
Proof.
  intros He Hx Hi. destruct (ring_back (concat es)) as (_ & _ & Hb). unfold hardware. rewrite Hb by lia.
  set (es' := replicate 29 no_event ++ es). assert (Forall is_event es') as He' by (apply Forall_app; split; [by apply Forall_replicate | done]).
  rewrite <-(concat_events es' _ _ He' Hi). subst es'. rewrite concat_app.
  assert (length (concat (replicate 29 no_event)) = 116%nat) as Hz by done.
  assert (concat (replicate 29 no_event) = replicate 116 0) as Hz' by done.
  pose proof (concat_events_length es He) as Hlen. set (bs := concat es) in *.
  destruct (decide (Z.to_nat (116 - Z.of_nat index * 4 - Z.of_nat i - 1) < length bs)%nat) as [Hlt|Hge].
  - rewrite reverse_lookup by done. rewrite lookup_app_r by lia. rewrite Hz. do 2 f_equal. lia.
  - rewrite (lookup_ge_None_2 (reverse bs)) by (rewrite length_reverse; lia). rewrite lookup_app_l by lia.
    rewrite Hz', lookup_replicate_2 by lia. done.
Qed.

(** C20. Decoding a snapshot of the ring gives back the last 29 events that
    were pushed, oldest first, without the empty ones, wherever the ring has
    wrapped around. *)
Theorem decode_last_events es : Forall is_event es →
  decode (snapshot_of (hardware es)) =
  Ok (History ((hardware es).2 + 75) (omap record_of (drop (length es - 29) es))).
Proof.
  intros He. destruct (ring_back (concat es)) as (Hl & Hp & _). fold (hardware es) in Hl, Hp.
  unfold decode, snapshot_of. set (blob := _ ++ (hardware es).1).
  assert (len blob = 125) as -> by (subst blob; unfold len; rewrite length_app, Hl; done).
  change (take 5 blob) with [82; 80; 79; 78; 1]. change (byte_at blob 5) with ((hardware es).2 + 75).
  change (byte_at blob 6) with ((hardware es).2 + 75). change (byte_at blob 7) with 117. change (drop 8 blob) with (hardware es).1.
  rewrite refuse_if_pass by done. cbv zeta. rewrite refuse_if_pass.
  2: { rewrite Z.eqb_refl. simpl. apply negb_false_iff, andb_true_iff. rewrite !Z.leb_le. lia. }
  do 2 f_equal. set (es' := replicate 29 no_event ++ es).
  assert (length (drop (length es) es') = 29%nat) as Hd by (subst es'; rewrite length_drop, length_app, length_replicate; lia).
  rewrite <-Hd at 1.
  rewrite (omap_seq record_of (λ index, map (λ i, byte_at (hardware es).1
    ((((hardware es).2 + 75 - 75 - 29 * 4) mod 117 + Z.of_nat index * 4 + Z.of_nat i) mod 117)) (seq 0 4)) (drop (length es) es')).
  - subst es'. rewrite drop_app. rewrite length_replicate, drop_replicate, omap_app.
    assert (∀ n, omap record_of (replicate n no_event) = []) as -> by (by induction n). done.
  - intros index e Hidx. assert (index < 29)%nat as Hx by (rewrite <-Hd; by eapply lookup_lt_Some).
    rewrite lookup_drop in Hidx. assert (is_event e) as Hev.
    { assert (Forall is_event es') as He' by (apply Forall_app; split; [by apply Forall_replicate | done]). by eapply Forall_lookup_1. }
    assert (∀ i, (i < 4)%nat → byte_at (hardware es).1
      ((((hardware es).2 + 75 - 75 - 29 * 4) mod 117 + Z.of_nat index * 4 + Z.of_nat i) mod 117) = default 0 (e !! i)) as Hbyte.
    { intros i Hi. pose proof (event_byte es index i He Hx Hi) as Hb. fold es' in Hb. rewrite Hidx in Hb. simpl in Hb. rewrite <-Hb.
      unfold back. f_equal. rewrite <-Z.add_assoc, Zplus_mod_idemp_l. f_equal. lia. }
    unfold is_event in Hev. destruct e as [|b0 [|b1 [|b2 [|b3 [|]]]]]; try done.
    cbn [seq map]. by rewrite !Hbyte by lia.
Qed.

Lemma decode_last_events_witness :
  decode (snapshot_of (hardware [[5; 1; 0; 132]; no_event; [5; 9; 8; 2]])) =
  Ok (History 87 [Item 5 1 132 (PonTrigger "PS_HOLD"); Item 5 9 2050 (Faults ["GP_FAULT1" : pystr; "FAULT_N" : pystr] None)]).
Proof. rewrite decode_last_events; [vm_compute; reflexivity | repeat (apply Forall_cons; split; [done |]); by apply Forall_nil]. Defined.
