(* ===== verification/RamClaim.v ===== *)
(** * One boot for one wrapper

    scripts/host/production-ram-trial.py: [fsync_directory], [durable_mkdir],
    [claim_entered] and [boot], run by any number of processes of a host that
    may crash.  A program is a tree of calls (Programs); processes interleave
    between any two calls, any call may fail with any exception, a process may
    be killed, and a crash of the host ends every process and undoes directory
    entries and file contents that were not synced, never the root.  [fastboot_identity] and
    [sealed] are single calls here; RamTrial has their bodies. *)

From S2P Require Import Prelude PyStr PyData Regex Programs.

(** ** Paths and the disk

    A path is the list of its names, the last one first, so that [parent] is
    [tail] and the directories above a path are its suffixes. *)
Abbreviation path := (list pystr).
Definition parent (p : path) : path := tail p.
Inductive node :=
  | Directory
  | File (data synced : bytes)       (* what is read, what survives a crash *)
  | Link (to : option bool).         (* dangling, or whether to a directory *)
Inductive descriptor := DirectoryFd (p : path) | FileFd (p : path) | SnapshotFd (sha256 : pystr).

(** ** Calls *)
Inductive call :=
  | Environ (name : pystr)
  | Now
  | FastbootIdentity
  | Sealed (image expected : pystr)
  | Exists (p : path)
  | Mkdir (p : path)
  | IsDir (p : path)
  | IsSymlink (p : path)
  | OpenDirectory (p : path)
  | OpenNew (p : path)
  | Write (fd : Z) (view : bytes)
  | Fsync (fd : Z)
  | Close (fd : Z)
  | FastbootBoot (fd : Z)
  | WriteText (p : pystr) (text : pystr).
Definition reply (c : call) : Type :=
  match c with
  | Environ _ => option pystr
  | Now => pystr
  | FastbootIdentity => dict pystr
  | Sealed _ _ | OpenDirectory _ | OpenNew _ | Write _ _ => Z
  | Exists _ | IsDir _ | IsSymlink _ => bool
  | Mkdir _ | Fsync _ | Close _ | WriteText _ _ => unit
  | FastbootBoot _ => Z * pystr
  end.
Abbreviation program := (prog reply).

(** ** The program *)
Definition sys (c : call) : program (reply c) := do c.
Arguments sys c : simpl never.
Definition require (ok : bool) (why : pystr) : program unit := returns (need ok why).
Definition SHA : rx := rep 64 0 is_hex.

Definition fsync_directory (p : path) : program unit :=
  fd ← sys (OpenDirectory p);
  ensuring (sys (Fsync fd)) (sys (Close fd)).

(** [while not probe.exists(): missing.append(probe); probe = probe.parent]:
    the root exists. *)
Fixpoint missing (probe : path) : program (list path) :=
  match probe with
  | [] => mret []
  | _ :: up =>
      there ← sys (Exists probe);
      if there : bool then mret [] else rest ← missing up; mret (probe :: rest)
  end.
Definition is_exists_error (c : exn_class) : bool := c == FileExistsError.
Definition make_one (directory : path) : program unit :=
  handle (sys (Mkdir directory)) is_exists_error (mret ()) ;;
  fsync_directory (parent directory).
Definition durable_mkdir (p : path) : program unit :=
  absent ← missing p;
  every make_one (reverse absent) ;;
  directory ← sys (IsDir p);
  link ← (if directory : bool then sys (IsSymlink p) else mret false);
  require (directory && negb link) "claim directory is not a real directory" ;;
  fsync_directory (parent p).

(** [while view: view = view[os.write(fd, view):]]: a write to a file takes at
    least one byte, so the length of the data bounds the loop. *)
Fixpoint write_loop (fuel : nat) (fd : Z) (view : bytes) : program unit :=
  match view with
  | [] => mret ()
  | _ => match fuel with
         | O => throw OutOfFuel ""
         | S fuel => n ← sys (Write fd view); write_loop fuel fd (drop (Z.to_nat n) view)
         end
  end.

Section claims.
Context (claims : path) (serial : pystr).
(** [json.dumps] of the marker and of the record. *)
Context (dumps_claim : pystr → pystr → pystr → dict pystr → pystr).
Record record := Record_ { entered : pystr; identity : dict pystr; wrapper_sha256 : pystr; returncode : Z; finished : pystr; output : pystr }.
Context (dumps_record : record → pystr).

Definition claim (expected : pystr) : path := (expected ++ ".entered") :: claims.
Definition claim_entered (expected : pystr) (content : bytes) : program path :=
  durable_mkdir claims ;;
  fd ← sys (OpenNew (claim expected));
  ensuring (write_loop (length content) fd content ;; sys (Fsync fd)) (sys (Close fd)) ;;
  fsync_directory claims ;;
  mret (claim expected).

Definition boot (image expected evidence : pystr) : program record :=
  allowed ← sys (Environ "ROG5_ALLOW_RAM_TRIAL");
  require (allowed == Some ("1" : pystr)) "set ROG5_ALLOW_RAM_TRIAL=1 for one RAM-only boot" ;;
  require (fullmatch SHA expected) "wrapper pin framing" ;;
  identity ← sys FastbootIdentity;
  snapshot ← sys (Sealed image expected);
  ensuring
    (t ← sys Now;
     claim_entered expected (dumps_claim expected serial t identity) ;;
     entered ← sys Now;
     '(code, out) ← (sys (FastbootBoot snapshot) : program (Z * pystr));
     finished ← sys Now;
     let record := Record_ entered identity expected code finished out in
     sys (WriteText (evidence ++ "/boot.json") (dumps_record record ++ [LF])) ;;
     require (code =? 0) "fastboot boot failed; claim stays consumed" ;;
     mret record)
    (sys (Close snapshot)).

(** ** The host *)
Record process := Process { code : program record; table : gmap Z descriptor; pin : pystr }.
Record host := Host {
  entries : gmap path node;
  stable : gset path;          (* entries a crash cannot undo *)
  sent : list pystr;           (* hashes of the images given to [fastboot boot] *)
  procs : gmap Z process
}.
Definition node_at (s : host) (p : path) : option node :=
  match p with [] => Some Directory | _ => s.(entries) !! p end.
Definition is_dir (n : option node) : bool :=
  match n with Some Directory | Some (Link (Some true)) => true | _ => false end.
Definition set_entry (p : path) (n : node) (s : host) : host := Host (<[p := n]> s.(entries)) s.(stable) s.(sent) s.(procs).
Definition set_process (pid : Z) (p : process) (s : host) : host := Host s.(entries) s.(stable) s.(sent) (<[pid := p]> s.(procs)).
Definition add_sent (h : pystr) (s : host) : host := Host s.(entries) s.(stable) (h :: s.(sent)) s.(procs).
(** Syncing a directory makes the entries in it stable. *)
Definition sync_directory (p : path) (s : host) : host :=
  Host s.(entries) (s.(stable) ∪ filter (λ q, q ≠ [] ∧ parent q = p) (dom s.(entries))) s.(sent) s.(procs).

(** How a call goes: an answer (a descriptor or a count, a text, an identity)
    or an exception. *)
Inductive choice := Answer (n : Z) (text : pystr) (fields : dict pystr) | Fails (e : exn).
Abbreviation result c := (res (reply c) * gmap Z descriptor * host)%type.
Definition os_error {A} (c : exn_class) : res A := Raise (Exn c "").
(** Creating an entry in a directory. *)
Definition may_create (s : host) (p : path) : res unit :=
  refuse_if (negb (is_dir (node_at s (parent p)))) FileNotFoundError "" ;;
  refuse_if (match node_at s p with None => false | _ => true end) FileExistsError "".

Definition answer (s : host) (t : gmap Z descriptor) (n : Z) (text : pystr) (fields : dict pystr) (c : call) : option (result c) :=
  match c return option (result c) with
  | Environ _ => Some (Ok (if n =? 0 then None else Some text), t, s)
  | Now => Some (Ok text, t, s)
  | FastbootIdentity => Some (Ok fields, t, s)
  | Sealed _ expected => match t !! n with None => Some (Ok n, <[n := SnapshotFd expected]> t, s) | Some _ => None end
  | Exists p => Some (Ok (match node_at s p with None | Some (Link None) => false | _ => true end), t, s)
  | Mkdir p =>
      Some (match may_create s p with Ok _ => (Ok (), t, set_entry p Directory s) | Raise e => (Raise e, t, s) end)
  | IsDir p => Some (Ok (is_dir (node_at s p)), t, s)
  | IsSymlink p => Some (Ok (match node_at s p with Some (Link _) => true | _ => false end), t, s)
  | OpenDirectory p =>
      if is_dir (node_at s p) then match t !! n with None => Some (Ok n, <[n := DirectoryFd p]> t, s) | Some _ => None end
      else Some (os_error OSError, t, s)
  | OpenNew p =>
      match may_create s p with
      | Ok _ => match t !! n with None => Some (Ok n, <[n := FileFd p]> t, set_entry p (File [] []) s) | Some _ => None end
      | Raise e => Some (Raise e, t, s)
      end
  | Write fd view =>
      match t !! fd with
      | Some (FileFd p) =>
          match s.(entries) !! p with
          | Some (File data synced) =>
              if (1 <=? n) && (n <=? len view) then Some (Ok n, t, set_entry p (File (data ++ take (Z.to_nat n) view) synced) s) else None
          | _ => Some (os_error OSError, t, s)
          end
      | _ => Some (os_error OSError, t, s)
      end
  | Fsync fd =>
      Some (match t !! fd with
      | Some (DirectoryFd p) => (Ok (), t, sync_directory p s)
      | Some (FileFd p) =>
          (Ok (), t, match s.(entries) !! p with Some (File data _) => set_entry p (File data data) s | _ => s end)
      | Some (SnapshotFd _) => (Ok (), t, s)
      | None => (os_error OSError, t, s)
      end)
  | Close fd => Some (match t !! fd with Some _ => (Ok (), delete fd t, s) | None => (os_error OSError, t, s) end)
  | FastbootBoot fd =>
      Some (Ok (n, text), t, match t !! fd with Some (SnapshotFd h) => add_sent h s | _ => s end)
  | WriteText _ _ => Some (Ok (), t, s)
  end.
(** A failing call has no effect, but [close] frees its descriptor and the
    phone may have taken the image. *)
Definition failing (s : host) (t : gmap Z descriptor) (e : exn) (c : call) : option (result c) :=
  if exn_cls e == OutOfFuel then None else
  Some (Raise e, match c with Close fd => delete fd t | _ => t end,
        match c with FastbootBoot fd => match t !! fd with Some (SnapshotFd h) => add_sent h s | _ => s end | _ => s end).
Definition perform (s : host) (t : gmap Z descriptor) (ch : choice) (c : call) : option (result c) :=
  match ch with Answer n text fields => answer s t n text fields c | Fails e => failing s t e c end.

Inductive action :=
  | Start (pid : Z) (image expected evidence : pystr)
  | Step (pid : Z) (ch : choice)
  | Kill (pid : Z)
  | Crash (lost : gset path) (torn : path → bytes).
(** A crash undoes the entries of [lost], with all that is under them, and
    what a file holds beyond its synced data. *)
Definition survives (lost : gset path) (p : path) : bool := bool_decide (set_Forall (λ q, ¬ q `suffix_of` p) lost).
Definition torn_node (torn : path → bytes) (p : path) (n : node) : node :=
  match n with File data synced => if data == synced then n else File (torn p) (torn p) | _ => n end.
Definition crash (lost : gset path) (torn : path → bytes) (s : host) : host :=
  Host (map_imap (λ p n, if survives lost p then Some (torn_node torn p n) else None) s.(entries))
       (filter (λ p, survives lost p = true) s.(stable)) s.(sent) ∅.
Definition step (a : action) (s : host) : option host :=
  match a with
  | Start pid image expected evidence =>
      match s.(procs) !! pid with Some _ => None | None => Some (set_process pid (Process (boot image expected evidence) ∅ expected) s) end
  | Step pid ch =>
      match s.(procs) !! pid with
      | Some (Process (Call c k) t h) =>
          match perform s t ch c with
          | Some (r, t', s') => Some (set_process pid (Process (k r) t' h) s')
          | None => None
          end
      | _ => None
      end
  | Kill pid => match s.(procs) !! pid with Some _ => Some (Host s.(entries) s.(stable) s.(sent) (delete pid s.(procs))) | None => None end
  | Crash lost torn => if bool_decide (lost ## s.(stable) ∧ [] ∉ lost) then Some (crash lost torn s) else None
  end.
Fixpoint execute (l : list action) (s : host) : option host :=
  match l with [] => Some s | a :: l => s ← step a s; execute l s end.
End claims.

Lemma may_create_Ok s p u : may_create s p = Ok u ↔ is_dir (node_at s (parent p)) = true ∧ node_at s p = None.
Proof.
  unfold may_create. destruct u. rewrite bind_Ok. setoid_rewrite refuse_if_Ok. setoid_rewrite negb_false_iff.
  destruct (node_at s p); naive_solver.
Qed.
Lemma node_at_None s p : node_at s p = None → s.(entries) !! p = None.
Proof. by destruct p. Qed.
Lemma may_create_Raise s p e : may_create s p = Raise e → exn_cls e ≠ OutOfFuel.
Proof.
  unfold may_create. destruct (negb _); simpl; [by intros [= <-] |]. by destruct (match node_at s p with None => false | _ => true end); simpl; [intros [= <-] |].
Qed.
Lemma suffix_cons_cases {A} (q l : list A) x : q `suffix_of` x :: l → q = x :: l ∨ q `suffix_of` l.
Proof. destruct q as [|y q]; [right; apply suffix_nil | apply suffix_cons_inv]. Qed.

(** ** What one process knows *)
Section once.
Context (name : pystr) (base : path) (serial : pystr).
Context (dumps_claim : pystr → pystr → pystr → dict pystr → pystr) (dumps_record : record → pystr).
Abbreviation CLAIMS := (name :: base).
Abbreviation claim := (claim CLAIMS).
Abbreviation step := (step CLAIMS serial dumps_claim dumps_record).
Abbreviation execute := (execute CLAIMS serial dumps_claim dumps_record).
Abbreviation boot := (boot CLAIMS serial dumps_claim dumps_record).

Definition is_record (h : pystr) (data : bytes) : Prop := ∃ t identity, data = dumps_claim h serial t identity.

(** How far a process has come with the claim directory and its marker; [fd]
    is the marker's descriptor. *)
Inductive stage :=
  | Idle | Seen | Real | Rooted
  | Writing (fd : Z) (data : bytes) | Recorded (fd : Z) (data : bytes)
  | Closed (data : bytes) | Claimed (data : bytes) | Spent.
Definition owns (x : stage) : bool :=
  match x with Writing _ _ | Recorded _ _ | Closed _ | Claimed _ => true | _ => false end.
Record local := Local { tbl : gmap Z descriptor; stg : stage }.
Definition at_stage (g : local) (x : stage) : local := Local g.(tbl) x.
Definition opened (g : local) (fd : Z) (d : descriptor) (x : stage) : local := Local (<[fd := d]> g.(tbl)) x.

(** The stage after syncing a directory, and after [fsync] of a descriptor. *)
Definition synced_directory (p : path) (x : stage) : stage :=
  match x with
  | Real => if p == base then Rooted else Real
  | Closed data => if p == CLAIMS then Claimed data else Closed data
  | _ => x
  end.
Definition after_sync (g : local) (fd : Z) : stage :=
  match g.(tbl) !! fd with
  | Some (DirectoryFd p) => synced_directory p g.(stg)
  | Some (FileFd p) => match g.(stg) with Writing fd' data => if fd == fd' then Recorded fd data else g.(stg) | x => x end
  | _ => g.(stg)
  end.
Definition after_close (g : local) (fd : Z) : stage :=
  match g.(stg) with
  | Writing fd' _ => if fd == fd' then Idle else g.(stg)
  | Recorded fd' data => if fd == fd' then Closed data else g.(stg)
  | x => x
  end.

(** What the process must know to make a call, what the call may answer, and
    what it knows then. *)
Definition pre (h : pystr) (g : local) (c : call) : Prop :=
  match c with
  | OpenNew p => g.(stg) = Rooted ∧ p = claim h
  | Write fd _ => ∃ data, g.(stg) = Writing fd data
  | Fsync fd | Close fd => is_Some (g.(tbl) !! fd)
  | FastbootBoot fd => g.(tbl) !! fd = Some (SnapshotFd h) ∧ ∃ data, g.(stg) = Claimed data ∧ is_record h data
  | _ => True
  end.
Definition fine {A} (r : res A) : Prop := match r with Ok _ => True | Raise e => exn_cls e ≠ OutOfFuel end.
Definition possible (g : local) (c : call) : res (reply c) → Prop :=
  match c return res (reply c) → Prop with
  | OpenDirectory _ | OpenNew _ | Sealed _ _ => λ r, fine r ∧ ∀ fd : Z, r = Ok fd → g.(tbl) !! fd = None
  | Write _ view => λ r, fine r ∧ ∀ n : Z, r = Ok n → 1 ≤ n ≤ len view
  | _ => fine
  end.
Definition next (g : local) (c : call) : res (reply c) → local :=
  match c return res (reply c) → local with
  | IsDir p => λ r, match r, g.(stg) with Ok true, Idle => if p == CLAIMS then at_stage g Seen else g | _, _ => g end
  | IsSymlink p => λ r, match r, g.(stg) with Ok false, Seen => if p == CLAIMS then at_stage g Real else g | _, _ => g end
  | OpenDirectory p => λ r, match r with Ok fd => opened g fd (DirectoryFd p) g.(stg) | _ => g end
  | OpenNew p => λ r, match r with Ok fd => opened g fd (FileFd p) (Writing fd []) | _ => g end
  | Write _ view => λ r, match r, g.(stg) with
      | Ok n, Writing fd data => at_stage g (Writing fd (data ++ take (Z.to_nat n) view)) | _, _ => g end
  | Fsync fd => λ r, match r with Ok _ => at_stage g (after_sync g fd) | _ => g end
  | Close fd => λ r, Local (delete fd g.(tbl)) (after_close g fd)
  | Sealed _ expected => λ r, match r with Ok fd => opened g fd (SnapshotFd expected) g.(stg) | _ => g end
  | FastbootBoot _ => λ _, at_stage g Spent
  | _ => λ _, g
  end.
Definition rule (h : pystr) (g : local) (c : call) (Q : res (reply c) → local → Prop) : Prop :=
  pre h g c ∧ ∀ r, possible g c r → Q r (next g c r).
Abbreviation wp h := (pwp (rule h)).
Lemma rule_mono h g c (P Q : res (reply c) → local → Prop) : (∀ r g', P r g' → Q r g') → rule h g c P → rule h g c Q.
Proof. intros HPQ [H1 H2]. split; [done |]. intros r Hr. by apply HPQ, H2. Qed.

(** ** The program keeps what it must know *)
Section program.
Context (h : pystr).
Lemma requiring ok why (Q : res unit → local → Prop) g :
  (ok = true → Q (Ok ()) g) → (∀ e, exn_cls e = ValueError → Q (Raise e) g) → wp h (require ok why) Q g.
Proof. intros H1 H2. apply pwp_done. destruct ok; [by apply H1 | by apply H2]. Qed.
(** A call that needs nothing and changes nothing. *)
Lemma sys_wp c (Q : res (reply c) → local → Prop) g : pre h g c → (∀ r, possible g c r → Q r (next g c r)) → wp h (sys c) Q g.
Proof. done. Qed.

Definition steady (x : stage) : Prop := match x with Writing _ _ | Recorded _ _ => False | _ => True end.
Lemma after_close_steady g fd : steady g.(stg) → after_close g fd = g.(stg).
Proof. unfold after_close. by destruct (stg g). Qed.
Lemma fsync_directory_wp p (Q : res unit → local → Prop) g : steady g.(stg) →
  (∀ e, exn_cls e ≠ OutOfFuel → Q (Raise e) g ∧ Q (Raise e) (at_stage g (synced_directory p g.(stg)))) →
  Q (Ok ()) (at_stage g (synced_directory p g.(stg))) → wp h (fsync_directory p) Q g.
Proof.
  intros Hg He Hok. apply (pwp_bind _ (rule_mono h)), sys_wp; [done |]. intros [fd|e] [Hf Hfd]; simpl in *; [| by apply He].
  specialize (Hfd fd eq_refl). apply (pwp_ensuring _ (rule_mono h)), sys_wp; [by exists (DirectoryFd p); apply lookup_insert_eq |].
  assert (∀ x, steady x → at_stage g x = Local (delete fd (<[fd := DirectoryFd p]> g.(tbl))) (after_close (Local ∅ x) fd)) as Hclose.
  { intros x Hx. rewrite (after_close_steady (Local ∅ x)) by done. rewrite delete_insert_id by done. done. }
  assert (steady (synced_directory p (stg g))) as Hs.
  { destruct (stg g); simpl in *; try done; by case_bool_decide. }
  assert (g = at_stage g (stg g)) as Hg' by by destruct g.
  intros [[]|e] Hr; simpl; (split; [by eexists; apply lookup_insert_eq |]); intros [[]|e'] Hr'; unfold after_sync; simpl; rewrite ?lookup_insert_eq.
  - rewrite Hclose in Hok by done. exact Hok.
  - destruct (He e' Hr') as [_ H]. rewrite Hclose in H by done. exact H.
  - destruct (He e Hr) as [H _]. rewrite Hg', Hclose in H by done. exact H.
  - destruct (He e' Hr') as [H _]. rewrite Hg', Hclose in H by done. exact H.
Qed.
Lemma at_stage_same g : at_stage g g.(stg) = g.
Proof. by destruct g. Qed.
Lemma missing_wp p g : wp h (missing p) (λ r g', fine r ∧ g' = g) g.
Proof.
  induction p as [|n p IH]; cbn [missing]; [by apply pwp_done |]. apply (pwp_bind _ (rule_mono h)), sys_wp; [done |].
  intros [[]|e] Hr; [by apply pwp_done | | by split]. apply (pwp_bind _ (rule_mono h)).
  eapply (pwp_mono _ (rule_mono h)); [| exact IH]. intros [l|e] g' [Hf ->]; [by apply pwp_done | by split].
Qed.
Lemma make_one_wp p g (Q : exn → Prop) : g.(stg) = Idle → (∀ e, exn_cls e ≠ OutOfFuel → Q e) →
  wp h (make_one p) (λ r g', match r with Ok _ => g' = g | Raise e => Q e ∧ g' = g end) g.
Proof.
  intros Hg HQ. apply (pwp_bind _ (rule_mono h)), (pwp_handle _ (rule_mono h)), sys_wp; [done |].
  assert (wp h (fsync_directory (parent p)) (λ r g', match r with Ok _ => g' = g | Raise e => Q e ∧ g' = g end) g) as Hsync.
  { apply fsync_directory_wp; rewrite Hg; simpl; [done | |]; rewrite <- Hg, at_stage_same; [| done]. intros e He. auto. }
  intros [[]|e] Hr; [exact Hsync |]. case_match; [apply pwp_done; exact Hsync |]. split; [by apply HQ | done].
Qed.
(** What is known of the claim directory only grows. *)
Definition early (x : stage) : Prop := match x with Idle | Seen | Real | Rooted => True | _ => False end.
Lemma durable_mkdir_wp (Q : res unit → local → Prop) g : g.(stg) = Idle →
  (∀ e x, exn_cls e ≠ OutOfFuel → early x → Q (Raise e) (at_stage g x)) → Q (Ok ()) (at_stage g Rooted) → wp h (durable_mkdir CLAIMS) Q g.
Proof.
  intros Hg He Hok. pose proof (at_stage_same g) as Hsame. rewrite Hg in Hsame.
  apply (pwp_bind _ (rule_mono h)). eapply (pwp_mono _ (rule_mono h)); [| apply missing_wp]. intros [l|e] g' [Hm ->].
  2: { rewrite <- Hsame. by apply He. }
  apply (pwp_bind _ (rule_mono h)). apply (pwp_every _ (rule_mono h) _ _ (λ g', g' = g)); [| | done].
  { intros p g' _ ->. eapply (pwp_mono _ (rule_mono h)); [| by apply (make_one_wp _ _ (λ e, exn_cls e ≠ OutOfFuel))].
    intros [[]|e] g'; [done |]. intros [H ->]. rewrite <- Hsame. by apply He. }
  intros g' ->. apply (pwp_bind _ (rule_mono h)), sys_wp; [done |]. intros [b|e] Hr; cbn [next]; cycle 1.
  { rewrite <- Hsame. by apply He. }
  rewrite Hg. destruct b; [rewrite bool_decide_eq_true_2 by done | rewrite <- Hsame]; apply (pwp_bind _ (rule_mono h)); cycle 1.
  { apply pwp_done. apply (pwp_bind _ (rule_mono h)), requiring; [done |]. intros e He'. apply He; [by rewrite He' | done]. }
  apply sys_wp; [done |]. intros [[]|e] Hl; cbn [next at_stage stg]; [| rewrite bool_decide_eq_true_2 by done | by apply He];
    apply (pwp_bind _ (rule_mono h)), requiring; try done; intros; try (apply He; [congruence | done]).
  apply fsync_directory_wp; simpl; rewrite ?bool_decide_eq_true_2 by done; [done | | exact Hok].
  intros e He'. split; by apply He.
Qed.

Lemma write_loop_wp fd content Q : ∀ fuel view data g, (length view ≤ fuel)%nat → g.(stg) = Writing fd data → content = data ++ view →
  (∀ e data', exn_cls e ≠ OutOfFuel → Q (Raise e) (at_stage g (Writing fd data'))) → Q (Ok ()) (at_stage g (Writing fd content)) →
  wp h (write_loop fuel fd view) Q g.
Proof.
  induction fuel as [|fuel IH]; intros view data g Hlen Hg Hc He Hok; (destruct view as [|c view]; [apply pwp_done; rewrite app_nil_r in Hc; subst data; by rewrite <- Hg, at_stage_same in Hok |]);
    [simpl in Hlen; lia |]. cbn [write_loop]. apply (pwp_bind _ (rule_mono h)), sys_wp; [by exists data |].
  intros [n|e] [Hf Hn]; cbn [next]; rewrite ?Hg; [| rewrite <- (at_stage_same g), Hg; by apply He].
  specialize (Hn n eq_refl). 
  eapply (IH _ (data ++ take (Z.to_nat n) (c :: view))); [| done | by rewrite <- app_assoc, take_drop | exact He | exact Hok].
  rewrite length_drop. unfold len in *. simpl in *. lia.
Qed.

Lemma claim_entered_wp content (Q : res path → local → Prop) g : g.(stg) = Idle →
  (∀ e x, exn_cls e ≠ OutOfFuel → steady x → Q (Raise e) (at_stage g x)) → Q (Ok (claim h)) (at_stage g (Claimed content)) →
  wp h (claim_entered CLAIMS h content) Q g.
Proof.
  intros Hg He Hok. apply (pwp_bind _ (rule_mono h)), durable_mkdir_wp; [done | |].
  { intros e x H Hx. apply He; [done |]. by destruct x. }
  apply (pwp_bind _ (rule_mono h)), sys_wp; [done |]. intros [fd|e] [Hf Hfd]; cbn [next]; [| by apply He; [exact Hf |]]. simpl in fd.
  specialize (Hfd fd eq_refl). simpl in Hfd.
  set (g1 := opened (at_stage g Rooted) fd (FileFd (claim h)) (Writing fd [])).
  assert (∀ x y, after_close (at_stage g1 x) fd = y → Local (delete fd (tbl (at_stage g1 x))) (after_close (at_stage g1 x) fd) = at_stage g y) as Hclose.
  { intros x y ->. unfold g1. simpl. by rewrite delete_insert_id. }
  assert (is_Some (tbl g1 !! fd)) as Hopen by (eexists; apply lookup_insert_eq).
  assert (∀ e x, exn_cls e ≠ OutOfFuel → steady (after_close (at_stage g1 x) fd) → wp h (sys (Close fd))
    (λ r, (λ r g', match r with Ok a => wp h (fsync_directory CLAIMS ;; mret (claim h)) Q g' | Raise e => Q (Raise e) g' end)
      (match r with Ok _ => Raise (A := unit) e | Raise e => Raise e end)) (at_stage g1 x)) as Hfail.
  { intros e x H Hx. apply sys_wp; [done |]. intros [[]|e'] Hr; cbn [next]; rewrite (Hclose x _ eq_refl); apply He; done. }
  apply (pwp_bind _ (rule_mono h)), (pwp_ensuring _ (rule_mono h)), (pwp_bind _ (rule_mono h)).
  apply (write_loop_wp fd content _ _ _ []); [done | done | done | |].
  { intros e data H. apply Hfail; [done |]. unfold after_close. simpl. by rewrite bool_decide_eq_true_2. }
  apply sys_wp; [done |]. intros [[]|e] Hr; cbn [next]; cycle 1.
  { apply Hfail; [exact Hr |]. unfold after_close. simpl. by rewrite bool_decide_eq_true_2. }
  assert (after_sync (at_stage g1 (Writing fd content)) fd = Recorded fd content) as ->.
  { unfold after_sync, g1. simpl. by rewrite lookup_insert_eq, bool_decide_eq_true_2. }
  change (at_stage (at_stage g1 (Writing fd content)) (Recorded fd content)) with (at_stage g1 (Recorded fd content)).
  apply sys_wp; [done |]. intros [[]|e] Hr'; cbn [next]; rewrite (Hclose (Recorded fd content) (Closed content)) by (unfold after_close; simpl; by rewrite bool_decide_eq_true_2);
    [| by apply He; [exact Hr' |]].
  apply (pwp_bind _ (rule_mono h)), fsync_directory_wp; simpl; rewrite ?bool_decide_eq_true_2 by done; [done | | by apply pwp_done].
  intros e H. split; by apply He.
Qed.

(** The outcome of a process: no descriptor is open, and a record means that
    the image was sent. *)
Definition final (r : res record) (g : local) : Prop := fine r ∧ g.(tbl) = ∅ ∧ ∀ x, r = Ok x → g.(stg) = Spent.
Lemma boot_wp image evidence : wp h (boot image h evidence) final (Local ∅ Idle).
Proof.
  set (g0 := Local ∅ Idle).
  assert (∀ e, exn_cls e ≠ OutOfFuel → final (Raise e) g0) as H0 by (intros e He; by split_and!).
  apply (pwp_bind _ (rule_mono h)), sys_wp; [done |]. intros [v|e] Hr0; [| by apply H0].
  apply (pwp_bind _ (rule_mono h)), requiring; [intros _ | intros e He; apply H0; congruence].
  apply (pwp_bind _ (rule_mono h)), requiring; [intros _ | intros e He; apply H0; congruence].
  apply (pwp_bind _ (rule_mono h)), sys_wp; [done |]. intros [identity|e] Hr1; [| by apply H0].
  apply (pwp_bind _ (rule_mono h)), sys_wp; [done |]. intros [fd|e] [Hr2 _]; [| by apply H0].
  set (g1 := next (next (next g0 (Environ "ROG5_ALLOW_RAM_TRIAL") (Ok v)) FastbootIdentity (Ok identity)) (Sealed image h) (Ok fd)).
  assert (∀ r x, fine r → steady x → (is_ok r = true → x = Spent) → wp h (sys (Close fd))
    (λ r', final (match r' with Ok _ => r | Raise e => Raise e end)) (at_stage g1 x)) as Hclose.
  { intros r x Hf Hx Hs. apply sys_wp; [eexists; apply lookup_insert_eq |].
    assert (∀ r', fine r' → (is_ok r' = true → x = Spent) → final r' (next (at_stage g1 x) (Close fd) (Ok ()))) as H.
    { intros r' Hf' Hs'. split_and!; [done | cbn; by rewrite delete_insert_id | intros a ->]. cbn.
      rewrite (after_close_steady (at_stage g1 x)) by done. by apply Hs'. }
    intros [[]|e] Hr; [by apply H | apply (H (Raise e)); [| done]]. exact Hr. }
  assert (∀ e x, fine (A := record) (Raise e) → steady x → wp h (sys (Close fd))
    (λ r', final (match r' with Ok _ => Raise e | Raise e => Raise e end)) (at_stage g1 x)) as Hfail by (intros; by apply Hclose).
  apply (pwp_ensuring _ (rule_mono h)), (pwp_bind _ (rule_mono h)), sys_wp; [done |].
  intros [t|e] Hr3; cbn [next]; [| by apply (Hfail e Idle)].
  apply (pwp_bind _ (rule_mono h)), claim_entered_wp; [done | intros e x He Hx; apply (Hfail e); done |].
  apply (pwp_bind _ (rule_mono h)), sys_wp; [done |]. intros [entered|e] Hr4; cbn [next]; [| by apply (Hfail e (Claimed _))].
  apply (pwp_bind _ (rule_mono h)), sys_wp.
  { split; [apply lookup_insert_eq |]. eexists. split; [done |]. by eexists _, _. }
  intros [[code out]|e] Hr5; cbn [next]; [| by apply (Hfail e Spent)].
  apply (pwp_bind _ (rule_mono h)), sys_wp; [done |]. intros [finished|e] Hr6; cbn [next]; [| by apply (Hfail e Spent)].
  apply (pwp_bind _ (rule_mono h)), sys_wp; [done |]. intros [[]|e] Hr7; cbn [next]; [| by apply (Hfail e Spent)].
  apply (pwp_bind _ (rule_mono h)), requiring; [intros _; apply pwp_done; by apply (Hclose _ Spent) |].
  intros e He. apply (Hfail e Spent); [simpl; congruence | done].
Qed.
End program.

(** ** What holds of the host *)
Definition rooted (s : host) : Prop := s.(entries) !! CLAIMS = Some Directory ∧ CLAIMS ∈ s.(stable).
Definition means (s : host) (h : pystr) (g : local) : Prop :=
  match g.(stg) with
  | Idle => True
  | Seen => is_dir (s.(entries) !! CLAIMS) = true
  | Real => s.(entries) !! CLAIMS = Some Directory
  | Rooted => rooted s
  | Writing fd data => rooted s ∧ (h ∉ s.(sent)) ∧ g.(tbl) !! fd = Some (FileFd (claim h)) ∧ s.(entries) !! claim h = Some (File data [])
  | Recorded _ data | Closed data => rooted s ∧ (h ∉ s.(sent)) ∧ s.(entries) !! claim h = Some (File data data)
  | Claimed data => rooted s ∧ (h ∉ s.(sent)) ∧ s.(entries) !! claim h = Some (File data data) ∧ claim h ∈ s.(stable)
  | Spent => h ∈ s.(sent)
  end.
(** A process has only its marker open for writing. *)
Definition files_ok (h : pystr) (g : local) : Prop := ∀ fd p, g.(tbl) !! fd = Some (FileFd p) →
  p = claim h ∧ ∃ data, g.(stg) = Writing fd data ∨ g.(stg) = Recorded fd data.
(** What a call of a process that owns the marker of [own] may do. *)
Definition moves (own : option pystr) (s s' : host) : Prop :=
  (∀ p n, s.(entries) !! p = Some n → (∀ h, own = Some h → p ≠ claim h) → s'.(entries) !! p = Some n) ∧
  s.(stable) ⊆ s'.(stable) ∧ (∀ h, h ∈ s'.(sent) → h ∈ s.(sent) ∨ own = Some h) ∧ (∀ h, h ∈ s.(sent) → h ∈ s'.(sent)).
Definition owner (h : pystr) (g : local) : option pystr := if owns g.(stg) then Some h else None.

Lemma claim_inj h h' : claim h = claim h' → h = h'.
Proof. intros [= H]. by apply app_inv_tail in H. Qed.
Lemma claim_not_root h : claim h ≠ CLAIMS.
Proof. intros H. apply (f_equal length) in H. simpl in H. lia. Qed.
Lemma stays_put own s : moves own s s.
Proof. split_and!; [auto | done | auto | auto]. Qed.
Lemma rooted_moves own s s' : moves own s s' → rooted s → rooted s'.
Proof.
  intros (He & Hs & _) [H1 H2]. split; [| by apply Hs]. apply He; [done |]. intros h _ H. by apply (claim_not_root h).
Qed.
(** A process that does not own the marker is not disturbed. *)
Lemma means_moves own s s' h g : moves own s s' → (owns g.(stg) = true → own ≠ Some h) → means s h g → means s' h g.
Proof using Type.
  clear serial dumps_claim dumps_record. intros Hm Ho. pose proof (rooted_moves _ _ _ Hm) as Hr. destruct Hm as (He & Hst & Hs & Hs').
  assert (∀ n, own ≠ Some h → entries s !! claim h = Some n → entries s' !! claim h = Some n) as Hc.
  { intros n Hn H. apply He; [done |]. intros h' -> Heq. by apply claim_inj in Heq as ->. }
  assert (own ≠ Some h → h ∉ sent s → h ∉ sent s') as Hn by (intros Hn Hi [?|?]%Hs; done).
  assert (∀ n, entries s !! CLAIMS = Some n → entries s' !! CLAIMS = Some n) as Hd.
  { intros n H. apply He; [done |]. intros h' _ Heq. by apply (claim_not_root h'). }
  unfold means. destruct (stg g); simpl in *; try (specialize (Ho eq_refl)); intuition eauto.
  destruct (entries s !! CLAIMS) as [n|] eqn:E; [by rewrite (Hd n) | done].
Qed.

Lemma moves_create own p n s : s.(entries) !! p = None → moves own s (set_entry p n s).
Proof.
  intros Hp. split_and!; simpl; [| done | auto | auto]. intros q m Hq _. rewrite lookup_insert_ne; [done |]. intros ->. congruence.
Qed.
Lemma moves_mark h n s : moves (Some h) s (set_entry (claim h) n s).
Proof.
  split_and!; simpl; [| done | auto | auto]. intros q m Hq H. rewrite lookup_insert_ne; [done |]. intros <-. by eapply H.
Qed.
Lemma moves_sync own p s : moves own s (sync_directory p s).
Proof. split_and!; simpl; [auto | apply union_subseteq_l | auto | auto]. Qed.
Lemma moves_send h s : moves (Some h) s (add_sent h s).
Proof. split_and!; simpl; [auto | done | |]; intros h'; rewrite elem_of_cons; [intros [->|?]; auto | auto]. Qed.

(** A marker on disk, under its directory, that a crash leaves there. *)
Definition recorded (s : host) (h : pystr) : Prop :=
  rooted s ∧ ∃ data, is_record h data ∧ s.(entries) !! claim h = Some (File data data) ∧ claim h ∈ s.(stable).
Record sound (s : host) (h : pystr) (g : local) (g' : local) (s' : host) : Prop := Sound {
  sound_procs : s'.(procs) = s.(procs);
  sound_means : means s' h g';
  sound_files : files_ok h g';
  sound_moves : moves (owner h g) s s';
  sound_owns : owns g'.(stg) = true → owns g.(stg) = true ∨ s.(entries) !! claim h = None;
  sound_sent : s'.(sent) = s.(sent) ∨ (s'.(sent) = h :: s.(sent) ∧ (h ∉ s.(sent)) ∧ recorded s' h)
}.
Lemma sound_refl s h g : means s h g → files_ok h g → sound s h g g s.
Proof. intros Hm Hf. split; auto using stays_put. Qed.
(** The process stays where it is, and what happened does not touch it. *)
Lemma sound_stay s h g g' s' : means s' h g' → files_ok h g' → g'.(stg) = g.(stg) → s'.(procs) = s.(procs) → s'.(sent) = s.(sent) →
  moves (owner h g) s s' → sound s h g g' s'.
Proof. intros Hm Hf Hg Hp Hs Hmv. split; auto. rewrite Hg. auto. Qed.
Lemma files_open h g fd d : files_ok h g → (∀ p, d ≠ FileFd p) → files_ok h (opened g fd d g.(stg)).
Proof.
  intros Hf Hd fd' p. simpl. destruct (decide (fd' = fd)) as [->|Hn]; [rewrite lookup_insert_eq; intros [= ->]; by destruct (Hd p) |].
  rewrite lookup_insert_ne by done. apply Hf.
Qed.
Lemma fresh_opened_means s h g fd d : g.(tbl) !! fd = None → means s h g → means s h (opened g fd d g.(stg)).
Proof.
  intros Hfd. unfold means. simpl. destruct (stg g); try done. intros (H1 & H2 & H3 & H4). split_and!; try done.
  rewrite lookup_insert_ne; [done |]. intros ->. congruence.
Qed.
Lemma sound_opened s h g fd d : g.(tbl) !! fd = None → (∀ p, d ≠ FileFd p) → means s h g → files_ok h g →
  sound s h g (opened g fd d g.(stg)) s.
Proof. intros. apply sound_stay; auto using fresh_opened_means, files_open, stays_put. Qed.

(** Closing, syncing and sending. *)
Lemma sound_close s h g fd : is_Some (g.(tbl) !! fd) → means s h g → files_ok h g → sound s h g (next g (Close fd) (Ok ())) s.
Proof.
  intros Ho Hm Hf. assert (owns (after_close g fd) = true → owns (stg g) = true) as Hown.
  { unfold after_close. destruct (stg g); try done; by case_bool_decide. }
  assert (means s h (Local (delete fd (tbl g)) (after_close g fd))) as Hm'.
  { unfold means, after_close in *. simpl. destruct (stg g) as [| | | |fd' data|fd' data| | |]; try done; case_bool_decide; try done.
    destruct Hm as (? & ? & ? & ?). split_and!; try done. by rewrite lookup_delete_ne. }
  split; simpl; auto using stays_put. intros fd' p Hp. simpl in *. apply lookup_delete_Some in Hp as [Hne Hp].
  destruct (Hf fd' p Hp) as [-> (data & Hs)]. split; [done |]. exists data. unfold after_close.
  destruct Hs as [->| ->]; rewrite bool_decide_eq_false_2 by done; auto.
Qed.
Lemma sound_send s h g data : g.(stg) = Claimed data → is_record h data → means s h g → files_ok h g →
  sound s h g (at_stage g Spent) (add_sent h s).
Proof.
  intros Hg Hrec Hm Hf. unfold means in Hm. rewrite Hg in Hm. destruct Hm as (Hr & Hn & He & Hst). split; simpl; try done.
  - unfold means. simpl. by left.
  - intros fd' p Hp. destruct (Hf fd' p Hp) as [_ (d & [H|H])]; congruence.
  - unfold owner. rewrite Hg. apply moves_send.
  - right. split_and!; [done | done |]. split; [exact Hr |]. by exists data.
Qed.
Lemma stable_synced p s q : q ≠ [] → parent q = p → is_Some (s.(entries) !! q) → q ∈ (sync_directory p s).(stable).
Proof. intros Hq Hp He. simpl. apply elem_of_union. right. apply elem_of_filter. split; [done | by apply elem_of_dom]. Qed.
Lemma sound_sync_directory s h g fd p : g.(tbl) !! fd = Some (DirectoryFd p) → means s h g → files_ok h g →
  sound s h g (at_stage g (after_sync g fd)) (sync_directory p s).
Proof.
  intros Hfd Hm Hf. pose proof (moves_sync (owner h g) p s) as Hmv. unfold after_sync. rewrite Hfd.
  assert (∀ x, x ≠ Real → (∀ d, x ≠ Closed d) → synced_directory p x = x) as Hsame by (intros []; naive_solver).
  assert (sound s h g g (sync_directory p s)) as Hstay.
  { apply sound_stay; try done. unfold means in *. destruct (stg g); simpl; unfold rooted in *; simpl; try done; rewrite !elem_of_union; naive_solver. }
  destruct (stg g) as [| | | |fd' d|fd' d|d|d|] eqn:Hg; simpl; try (rewrite <- Hg, at_stage_same; exact Hstay).
  - case_bool_decide as Hp; [| rewrite <- Hg, at_stage_same; exact Hstay]. subst p.
    unfold means in Hm. rewrite Hg in Hm. split; simpl; try done; [| | by left].
    + unfold means. simpl. split; [done |]. by apply (stable_synced base s CLAIMS).
    + intros fd' q Hq. destruct (Hf fd' q Hq) as [_ (d & [H|H])]; congruence.
  - case_bool_decide as Hp; [| rewrite <- Hg, at_stage_same; exact Hstay]. subst p.
    unfold means in Hm. rewrite Hg in Hm. destruct Hm as (Hr & Hn & He). split; simpl; try done; [| | rewrite Hg; by auto | by left].
    + unfold means. simpl. split_and!; [by eapply rooted_moves | done | done |]. by apply (stable_synced CLAIMS s (claim h)).
    + intros fd' q Hq. destruct (Hf fd' q Hq) as [_ (d' & [H|H])]; congruence.
Qed.
Lemma sound_sync_file s h g fd p : g.(tbl) !! fd = Some (FileFd p) → means s h g → files_ok h g →
  sound s h g (at_stage g (after_sync g fd)) (match s.(entries) !! p with Some (File data _) => set_entry p (File data data) s | _ => s end).
Proof.
  intros Hfd Hm Hf. unfold after_sync. rewrite Hfd. destruct (Hf fd p Hfd) as [-> (data & Hg)].
  unfold means in Hm. assert (owner h g = Some h) as Ho by (unfold owner; by destruct Hg as [->| ->]).
  assert (rooted s ∧ (h ∉ sent s) ∧ (∃ d, entries s !! claim h = Some (File data d))) as (Hroot & Hn & d & He).
  { destruct Hg as [E|E]; rewrite E in Hm; [destruct Hm as (? & ? & _ & ?) | destruct Hm as (? & ? & ?)]; eauto. }
  rewrite He.
  assert (match stg g with Writing fd' data0 => if fd == fd' then Recorded fd data0 else stg g | x => x end = Recorded fd data) as ->.
  { destruct Hg as [->| ->]; [by rewrite bool_decide_eq_true_2 | done]. }
  split; simpl; try done; [| | | | by left].
  - unfold means. simpl. rewrite lookup_insert_eq. split_and!; try done. eapply rooted_moves; [apply moves_mark | done].
  - intros fd' q Hq. simpl in *. destruct (Hf fd' q Hq) as [-> (d' & Hd')]. split; [done |]. exists data. right.
    destruct Hg as [Hg|Hg], Hd' as [Hd'|Hd']; simpl; congruence.
  - rewrite Ho. apply moves_mark.
  - intros _. left. by destruct Hg as [->| ->].
Qed.

Lemma sound_write s h g fd view n data : g.(stg) = Writing fd data → means s h g → files_ok h g →
  sound s h g (next g (Write fd view) (Ok n)) (set_entry (claim h) (File (data ++ take (Z.to_nat n) view) []) s).
Proof.
  intros Hg Hm Hf. unfold means in Hm. rewrite Hg in Hm. destruct Hm as (Hr & Hs & Hfd & He).
  cbn [next]. rewrite Hg. split; simpl; try done; [| | | rewrite Hg; by left | by left].
  - unfold means. simpl. rewrite lookup_insert_eq. split_and!; try done. eapply rooted_moves; [apply moves_mark | done].
  - intros fd' q Hq. simpl in *. destruct (Hf fd' q Hq) as [-> (d & Hd)]. split; [done |]. rewrite Hg in Hd.
    destruct Hd as [[= <- <-]|?]; [| done]. eexists. by left.
  - unfold owner. rewrite Hg. apply moves_mark.
Qed.
Lemma sound_create s h g fd : g.(stg) = Rooted → g.(tbl) !! fd = None → s.(entries) !! claim h = None → (h ∉ s.(sent)) → means s h g → files_ok h g →
  sound s h g (next g (OpenNew (claim h)) (Ok fd)) (set_entry (claim h) (File [] []) s).
Proof.
  intros Hg Hfd He Hn Hm Hf. unfold means in Hm. rewrite Hg in Hm. split; simpl; try done; [| | | by right | by left].
  - unfold means. simpl. rewrite !lookup_insert_eq. split_and!; try done. eapply rooted_moves; [by apply (moves_create None) | done].
  - intros fd' q. simpl. destruct (decide (fd' = fd)) as [->|Hne].
    + rewrite lookup_insert_eq. intros [= <-]. split; [done |]. eexists. by left.
    + rewrite lookup_insert_ne by done. intros Hq. destruct (Hf fd' q Hq) as [_ (d & [H|H])]; congruence.
  - by apply moves_create.
Qed.

Lemma means_writing s h g fd data : g.(stg) = Writing fd data → means s h g →
  rooted s ∧ (h ∉ s.(sent)) ∧ g.(tbl) !! fd = Some (FileFd (claim h)) ∧ s.(entries) !! claim h = Some (File data []).
Proof. unfold means. by intros ->. Qed.
(** The mark of a sent image is on the disk. *)
Definition marked (s : host) : Prop := ∀ h, h ∈ s.(sent) → recorded s h.
Lemma failing_sound s t e c r t' s' h x : let g := Local t x in
  failing s t e c = Some (r, t', s') → pre h g c → means s h g → files_ok h g →
  possible g c r ∧ (next g c r).(tbl) = t' ∧ sound s h g (next g c r) s'.
Proof.
  intros g H Hpre Hm Hf. unfold failing in H. case_bool_decide as He; [done |]. injection H as <- <- <-.
  destruct c; simpl in *; (split; [by repeat split; try (intros ? [=]) |]); (split; [done |]);
    try (by apply sound_refl); try (destruct x; by apply sound_refl); [by apply (sound_close s h g) |].
  destruct Hpre as (Ht & data & Hx & Hrec). rewrite Ht. by eapply (sound_send s h g).
Qed.
Lemma answer_sound s t n text fields c r t' s' h x : let g := Local t x in marked s →
  answer s t n text fields c = Some (r, t', s') → pre h g c → means s h g → files_ok h g →
  possible g c r ∧ (next g c r).(tbl) = t' ∧ sound s h g (next g c r) s'.
Proof.
  intros g Hmark H Hpre Hm Hf.
  assert (∀ s1 : host, s1 = s → sound s h g g s1) as Hsame by (intros s1 ->; by apply sound_refl).
  destruct c as [| | | |p|p|p|p|p|p|fd view|fd|fd|fd|]; simpl in H; try (injection H as <- <- <-; split_and!; [done | done | by apply Hsame]).
  - destruct (t !! n) eqn:Hn; [done |]. injection H as <- <- <-. split; [split; [done |]; by intros ? [= <-] |].
    split; [done |]. by apply (sound_opened s h g).
  - destruct (may_create s p) as [u|e] eqn:Hc; injection H as <- <- <-.
    + apply may_create_Ok in Hc as [_ Hc%node_at_None]. split_and!; [done | done |]. apply sound_stay; try done; [| by apply moves_create].
      eapply (means_moves None); [by apply moves_create | done | done].
    + split_and!; [by eapply may_create_Raise | done | by apply Hsame].
  - injection H as <- <- <-. split; [done |]. destruct (is_dir (node_at s p)) eqn:Hd; destruct x; simpl in *; try (split; [done |]; by apply Hsame).
    case_bool_decide as Hp; (split; [done |]); [| by apply Hsame]. subst p. split; simpl; auto using stays_put.
    intros fd q Hq. destruct (Hf fd q Hq) as [_ (d & [?|?])]; done.
  - injection H as <- <- <-. split; [done |]. destruct (node_at s p) as [[| |]|] eqn:Hd, x; simpl in *; try (split; [done |]; by apply Hsame);
      (case_bool_decide as Hp; (split; [done |]); [| by apply Hsame]); subst p; simpl in Hd; unfold means in Hm; simpl in Hm; rewrite Hd in Hm; try done.
    split; simpl; auto using stays_put. intros fd q Hq. destruct (Hf fd q Hq) as [_ (d' & [?|?])]; done.
  - destruct (is_dir (node_at s p)) eqn:Hd; [| injection H as <- <- <-; split_and!; [by split; [| intros ? [=]] | done | by apply Hsame]].
    destruct (t !! n) eqn:Hn; [done |]. injection H as <- <- <-. split; [split; [done |]; by intros ? [= <-] |].
    split; [done |]. by apply (sound_opened s h g).
  - destruct Hpre as [Hx ->]. destruct (may_create s (claim h)) as [u|e] eqn:Hc; cycle 1.
    { injection H as <- <- <-. split_and!; [split; [by eapply may_create_Raise | intros ? [=]] | done | by apply Hsame]. }
    apply may_create_Ok in Hc as [_ Hc%node_at_None]. destruct (t !! n) eqn:Hn; [done |]. injection H as <- <- <-.
    split; [split; [done |]; by intros ? [= <-] |]. split; [done |]. apply (sound_create s h g); try done.
    intros Hs%Hmark. destruct Hs as (_ & d & _ & Hs & _). congruence.
  - destruct Hpre as [data Hx].
    pose proof Hm as (_ & _ & Ht & He)%(means_writing s h g fd data Hx). simpl in Ht. rewrite Ht, He in H.
    destruct ((1 <=? n) && (n <=? len view)) eqn:Hn; [| done]. injection H as <- <- <-. b2p. split; [split; [done |]; by intros ? [= <-] |].
    split; [by cbn in Hx |- *; rewrite Hx |]. by apply (sound_write s h g).
  - destruct Hpre as [d Hd]. simpl in Hd. rewrite Hd in H. destruct d as [p|p|hash]; injection H as <- <- <-; (split; [done |]); (split; [done |]).
    + by apply (sound_sync_directory s h g).
    + by apply (sound_sync_file s h g).
    + assert (next g (Fsync fd) (Ok ()) = g) as ->; [| by apply Hsame]. cbn. unfold after_sync. simpl. by rewrite Hd.
  - destruct Hpre as [d Hd]. simpl in Hd. rewrite Hd in H. injection H as <- <- <-. split_and!; [done | done |]. by apply (sound_close s h g).
  - destruct Hpre as (Ht & data & Hx & Hrec). simpl in Ht. rewrite Ht in H. injection H as <- <- <-. split_and!; [done | done |].
    by eapply (sound_send s h g).
Qed.

(** ** The invariant *)
Definition base_ok (s : host) : Prop := ∀ q, q `suffix_of` base → q ≠ [] → s.(entries) !! q = Some Directory ∧ q ∈ s.(stable).
Record inv (s : host) (g : Z → stage) : Prop := Inv {
  inv_base : base_ok s;
  inv_marked : marked s;
  inv_once : NoDup s.(sent);
  inv_procs pid p : s.(procs) !! pid = Some p →
    means s p.(pin) (Local p.(table) (g pid)) ∧ files_ok p.(pin) (Local p.(table) (g pid)) ∧ wp p.(pin) p.(code) final (Local p.(table) (g pid));
  inv_excl pid pid' p p' : s.(procs) !! pid = Some p → s.(procs) !! pid' = Some p' →
    owns (g pid) = true → owns (g pid') = true → p.(pin) = p'.(pin) → pid = pid'
}.
Definition goes (g : Z → stage) (pid : Z) (x : stage) : Z → stage := λ q, if decide (q = pid) then x else g q.

Lemma owns_entry s h g : owns g.(stg) = true → means s h g → is_Some (s.(entries) !! claim h) ∧ (h ∉ s.(sent)).
Proof. unfold means. destruct (stg g); intros ? Hm; try done; destruct_and?; eauto. Qed.
Lemma base_moves own s s' : moves own s s' → base_ok s → base_ok s'.
Proof.
  intros (He & Hs & _) Hb q Hq Hn. destruct (Hb q Hq Hn) as [H1 H2]. split; [| by apply Hs]. apply He; [done |].
  intros h _ ->. apply suffix_length in Hq. simpl in Hq. lia.
Qed.
Lemma recorded_moves own s s' h : moves own s s' → own ≠ Some h → recorded s h → recorded s' h.
Proof.
  intros Hm Ho (Hr & data & Hd & He & Hst). split; [by eapply rooted_moves |]. exists data. split; [done |]. destruct Hm as (Hen & Hs & _).
  split; [| by apply Hs]. apply Hen; [done |]. intros h' -> Heq. by apply claim_inj in Heq as ->.
Qed.

(** A process takes a step. *)
Lemma inv_step s g pid p c k r g' s' t : inv s g → s.(procs) !! pid = Some p → p.(code) = Call c k → let l := Local p.(table) (g pid) in
  possible l c r → g' = next l c r → g'.(tbl) = t → sound s p.(pin) l g' s' →
  inv (set_process pid (Process (k r) t p.(pin)) s') (goes g pid g'.(stg)).
Proof.
  intros Hi Hp Hc l Hr -> <- Hsound. destruct (inv_procs _ _ Hi pid p Hp) as (Hm & Hf & Hw). rewrite Hc in Hw. destruct Hw as [_ Hw]. specialize (Hw r Hr).
  pose proof (sound_moves _ _ _ _ _ Hsound) as Hmv. fold l in Hm, Hf, Hw.
  assert (∀ h, owner (pin p) l = Some h → h = pin p ∧ owns (g pid) = true) as Hown.
  { unfold owner, l. simpl. destruct (owns (g pid)); [by intros ? [= <-] | done]. }
  assert (∀ h, h ∈ sent s → recorded s' h) as Hrec.
  { intros h Hh. eapply recorded_moves; [done | | by apply (inv_marked _ _ Hi)]. intros H%Hown. destruct H as [-> Ho].
    by destruct (owns_entry s (pin p) l Ho Hm). }
  split; simpl.
  - eapply base_moves; [done | apply Hi].
  - intros h Hh. simpl in Hh. destruct (sound_sent _ _ _ _ _ Hsound) as [Hs|(Hs & _ & H)]; rewrite Hs in Hh; [by apply Hrec |].
    apply elem_of_cons in Hh as [->|Hh]; [done | by apply Hrec].
  - destruct (sound_sent _ _ _ _ _ Hsound) as [->|(-> & Hn & _)]; [apply Hi | apply NoDup_cons; split; [done | apply Hi]].
  - intros q p' Hq. unfold goes. apply lookup_insert_Some in Hq as [[<- <-]|[Hne Hq]].
    + rewrite decide_True by done. simpl. split_and!; [apply Hsound | apply Hsound |]. by destruct (next l c r).
    + rewrite decide_False by done. rewrite (sound_procs _ _ _ _ _ Hsound) in Hq. destruct (inv_procs _ _ Hi q p' Hq) as (Hm' & Hf' & Hw').
      split_and!; [| done | done]. eapply (means_moves _ s s' _ _ Hmv); [| done]. simpl. intros Ho H%Hown. destruct H as [H1 H2].
      destruct Hne. symmetry. by eapply (inv_excl _ _ Hi).
  - rewrite (sound_procs _ _ _ _ _ Hsound). intros q q' p1 p2 H1 H2 O1 O2 Hpin. unfold goes in *.
    assert (∀ q3 p3, procs s !! q3 = Some p3 → q3 ≠ pid → owns (g q3) = true → owns (stg (next l c r)) = true → pin p3 = pin p → False) as Hex.
    { intros q3 p3 H3 Hne O3 On Hpin3. destruct (sound_owns _ _ _ _ _ Hsound On) as [Ho|Ho].
      - destruct Hne. by eapply (inv_excl _ _ Hi).
      - destruct (inv_procs _ _ Hi q3 p3 H3) as (Hm3 & _). apply (owns_entry s) in Hm3 as [[n Hn] _]; [| done]. congruence. }
    apply lookup_insert_Some in H1 as [[<- <-]|[N1 H1]], H2 as [[<- <-]|[N2 H2]]; try done;
      rewrite ?decide_True in O1 by done; rewrite ?decide_True in O2 by done; rewrite ?decide_False in O1 by done; rewrite ?decide_False in O2 by done; simpl in *.
    + by destruct (Hex q' p2).
    + by destruct (Hex q p1).
    + by eapply (inv_excl _ _ Hi).
Qed.

Lemma survives_stable lost s p : lost ## s.(stable) → [] ∉ lost → (∀ q, q `suffix_of` p → q ≠ [] → q ∈ s.(stable)) → survives lost p = true.
Proof.
  intros Hd Hn Hp. apply bool_decide_eq_true_2. intros q Hq Hs. destruct (decide (q = [])) as [->|Hne]; [done |].
  by eapply (Hd q), Hp.
Qed.
Lemma inv_crash s g lost torn : inv s g → lost ## s.(stable) → [] ∉ lost → inv (crash lost torn s) (λ _, Idle).
Proof.
  intros Hi Hd Hn.
  assert (∀ q, q `suffix_of` base → q ≠ [] → q ∈ stable s) as Hb by (intros q H1 H2; by apply (inv_base _ _ Hi)).
  assert (∀ p n, survives lost p = true → entries s !! p = Some n → torn_node torn p n = n → entries (crash lost torn s) !! p = Some n) as He.
  { intros p n Hs Hp Ht. simpl. rewrite map_lookup_imap, Hp. simpl. by rewrite Hs, Ht. }
  assert (∀ p, survives lost p = true → p ∈ stable s → p ∈ stable (crash lost torn s)) as Hst by (intros; by apply elem_of_filter).
  split; simpl; try done.
  - intros q Hq Hne. destruct (inv_base _ _ Hi q Hq Hne) as [H1 H2].
    assert (survives lost q = true). { apply survives_stable with s; [done | done |]. intros q' Hq'. apply Hb. by etrans. }
    split; [by apply He | by apply Hst].
  - intros h Hh. simpl in Hh. destruct (inv_marked _ _ Hi h Hh) as ((H1 & H2) & data & Hr & H3 & H4).
    assert (survives lost CLAIMS = true).
    { apply survives_stable with s; [done | done |]. intros q Hq. apply suffix_cons_cases in Hq as [->|Hq]; [done | by apply Hb]. }
    assert (survives lost (claim h) = true).
    { apply survives_stable with s; [done | done |]. intros q Hq. apply suffix_cons_cases in Hq as [->|Hq]; [done |].
      apply suffix_cons_cases in Hq as [->|Hq]; [done | by apply Hb]. }
    split; [split; [by apply He | by apply Hst] |]. exists data. split_and!; [done | | by apply Hst]. apply He; [done | done |].
    simpl. by rewrite bool_decide_eq_true_2.
  - apply Hi.
Qed.
Lemma inv_action s g a s' : inv s g → step a s = Some s' → ∃ g', inv s' g'.
Proof.
  intros Hi H. destruct a as [pid image h ev|pid ch|pid|lost torn]; simpl in H.
  - destruct (procs s !! pid) eqn:Hp; [done |]. injection H as <-. exists (goes g pid Idle). split; try apply Hi; simpl.
    + intros q p. unfold goes. intros [[<- <-]|[Hne Hq]]%lookup_insert_Some.
      * rewrite decide_True by done. split_and!; [done | by intros fd p | apply boot_wp].
      * rewrite decide_False by done. by apply (inv_procs _ _ Hi).
    + intros q q' p p' H1 H2 O1 O2 Hpin. unfold goes in *. apply lookup_insert_Some in H1 as [[<- <-]|[N1 H1]], H2 as [[<- <-]|[N2 H2]]; try done;
        [by rewrite decide_True in O1 by done | by rewrite decide_True in O2 by done |].
      rewrite decide_False in O1 by done. rewrite decide_False in O2 by done. by eapply (inv_excl _ _ Hi).
  - destruct (procs s !! pid) as [p|] eqn:Hp; [| done]. destruct (inv_procs _ _ Hi pid p Hp) as (Hm & Hf & Hw).
    destruct p as [[r|c k] t h]; [done |]. destruct (perform s t ch c) as [[[r t'] s1]|] eqn:Hperf; [| done]. injection H as <-.
    simpl in *. destruct Hw as [Hpre _].
    assert (possible (Local t (g pid)) c r ∧ (next (Local t (g pid)) c r).(tbl) = t' ∧ sound s h (Local t (g pid)) (next (Local t (g pid)) c r) s1) as (H1 & H2 & H3).
    { destruct ch as [n text fields|e]; simpl in Hperf; [by eapply answer_sound; [apply Hi | ..] | by eapply failing_sound]. }
    eexists. by eapply (inv_step s g pid (Process (Call c k) t h)).
  - destruct (procs s !! pid) as [p|] eqn:Hp; [| done]. injection H as <-. exists g. split; try apply Hi; simpl.
    + intros q p' [_ Hq]%lookup_delete_Some. by apply (inv_procs _ _ Hi).
    + intros q q' p1 p2 [_ H1]%lookup_delete_Some [_ H2]%lookup_delete_Some. by apply (inv_excl _ _ Hi).
  - case_bool_decide as Hd; [| done]. injection H as <-. destruct Hd as [Hd Hn]. eexists. by eapply inv_crash.
Qed.
Lemma inv_execute l s g s' : inv s g → execute l s = Some s' → ∃ g', inv s' g'.
Proof.
  revert s g. induction l as [|a l IH]; intros s g Hi H; simpl in H; [injection H as <-; eauto |].
  apply bind_Some in H as (s1 & H1 & H). destruct (inv_action _ _ _ _ Hi H1) as [g1 Hi1]. by eapply IH.
Qed.

(** A host before its first trial: the directories above the claim directory
    are on its disk. *)
Definition ready (s : host) : Prop := base_ok s ∧ s.(sent) = [] ∧ s.(procs) = ∅.

(** C2. Whatever processes run [boot], however they interleave, whichever
    calls fail, whenever a process dies or the host crashes: no image is given
    to the phone twice, and the marker of every image given is on the disk,
    complete, where no crash undoes it, so the image stays refused for ever.
    A process that ends has closed every descriptor it opened, and one that
    ends normally has sent its image.  The directories above the claim
    directory must be on the disk beforehand: [claim_directory_lost] shows
    what happens otherwise. *)
Theorem boot_at_most_once l s s' : ready s → execute l s = Some s' →
  NoDup s'.(sent) ∧ (∀ h, h ∈ s'.(sent) → recorded s' h) ∧
  ∀ pid p r, s'.(procs) !! pid = Some p → p.(code) = Done r →
    p.(table) = ∅ ∧ match r with Ok _ => p.(pin) ∈ s'.(sent) | Raise e => exn_cls e ≠ OutOfFuel end.
Proof.
  intros (Hb & Hs & Hp) He. assert (inv s (λ _, Idle)) as Hi.
  { split; [done | by intros h; rewrite Hs; intros ?%elem_of_nil | rewrite Hs; constructor | by rewrite Hp | by rewrite Hp]. }
  destruct (inv_execute _ _ _ _ Hi He) as [g H]. split_and!; [apply H | apply H |]. intros pid p r Hpid Hcode.
  destruct (inv_procs _ _ H pid p Hpid) as (Hm & _ & Hw). rewrite Hcode in Hw. destruct Hw as (Hf & Ht & Hok). split; [done |].
  destruct r as [x|e]; [| done]. specialize (Hok x eq_refl). simpl in Hok. unfold means in Hm. simpl in Hm. by rewrite Hok in Hm.
Qed.

(** ** Directories that are found, not made

    When the directories above the claim directory exist, the program opens
    only the last of them and the claim directory itself. *)
Definition opens (c : call) : Prop := match c with OpenDirectory p => p = base ∨ p = CLAIMS | _ => True end.
Definition above (q : path) : Prop := q `suffix_of` base ∧ q ≠ [].
Definition found (c : call) : res (reply c) → Prop :=
  match c return res (reply c) → Prop with Exists p => λ r, above p → r ≠ Ok false | _ => λ _, True end.
Definition found_rule (_ : unit) (c : call) (Q : res (reply c) → unit → Prop) : Prop := opens c ∧ ∀ r, found c r → Q r ().
Lemma found_mono g c (P Q : res (reply c) → unit → Prop) : (∀ r g', P r g' → Q r g') → found_rule g c P → found_rule g c Q.
Proof. intros HPQ [H1 H2]. split; [done |]. intros r Hr. by apply HPQ, H2. Qed.
Definition any {A} (_ : res A) (_ : unit) : Prop := True.
Abbreviation careful p := (pwp found_rule p any ()).

Lemma careful_sys c (Q : res (reply c) → unit → Prop) : opens c → (∀ r, found c r → Q r ()) → pwp found_rule (sys c) Q ().
Proof. done. Qed.
Lemma careful_bind {A B} (p : program A) (f : A → program B) : careful p → (∀ a, careful (f a)) → careful (p ≫= f).
Proof.
  intros Hp Hf. apply (pwp_bind _ found_mono). eapply (pwp_mono _ found_mono); [| exact Hp]. intros [a|e] []; [by intros _; apply Hf | done].
Qed.
Lemma careful_ensuring {A} (p : program A) f : careful p → careful f → careful (ensuring p f).
Proof.
  intros Hp Hf. apply (pwp_ensuring _ found_mono). eapply (pwp_mono _ found_mono); [| exact Hp]. intros r [] _.
  eapply (pwp_mono _ found_mono); [| exact Hf]. done.
Qed.
Lemma careful_fsync_directory p : p = base ∨ p = CLAIMS → careful (fsync_directory p).
Proof. intros Hp. apply careful_bind; [done |]. intros fd. by apply careful_ensuring. Qed.
Lemma careful_missing p : above p → pwp found_rule (missing p) (λ r _, ∀ l, r = Ok l → l = []) ().
Proof.
  intros Hp. destruct p as [|n p]; [by destruct Hp |]. cbn [missing]. apply (pwp_bind _ found_mono), careful_sys; [done |].
  intros [[]|e] Hr; [| by destruct (Hr Hp) |]; [by apply pwp_done; intros l [= <-] | done].
Qed.
Lemma careful_durable_mkdir : careful (durable_mkdir CLAIMS).
Proof.
  apply (pwp_bind _ found_mono). eapply (pwp_mono _ found_mono) with (P := λ r _, ∀ l, r = Ok l → l = [] ∨ l = [CLAIMS]).
  2: { cbn [missing]. apply (pwp_bind _ found_mono), careful_sys; [done |]. intros [[]|e] _; [by apply pwp_done; intros l [= <-]; left | | done].
    apply (pwp_bind _ found_mono). destruct base as [|n up] eqn:Hbase; [by apply pwp_done, pwp_done; intros l [= <-]; right |]. rewrite <- Hbase at 1.
    eapply (pwp_mono _ found_mono); [| rewrite Hbase; apply careful_missing; split; [by rewrite Hbase | done]].
    intros [l|e] [] Hl; [| done]. apply pwp_done. intros l' [= <-]. rewrite (Hl l eq_refl). by right. }
  intros [l|e] [] Hl; [| done].
  apply careful_bind.
  { apply (pwp_every _ found_mono _ _ (λ _, True)); [| done | done]. intros p [] Hp%list_elem_of_In%in_rev%list_elem_of_In _.
    assert (p = CLAIMS) as -> by (destruct (Hl l eq_refl) as [->| ->]; [by apply elem_of_nil in Hp | by apply list_elem_of_singleton in Hp]).
    eapply (pwp_mono _ found_mono) with (P := any); [by intros [] |].
    apply careful_bind; [| intros _; apply careful_fsync_directory; by left].
    apply (pwp_handle _ found_mono), careful_sys; [done |]. intros [[]|e] _; [done | by case_match]. }
  intros _. apply careful_bind; [done |]. intros d. apply careful_bind; [by destruct d |]. intros link.
  apply careful_bind; [done |]. intros _. apply careful_fsync_directory. by left.
Qed.
Lemma careful_write_loop fuel fd view : careful (write_loop fuel fd view).
Proof. revert view. induction fuel as [|fuel IH]; intros [|c view]; try done. apply careful_bind; [done |]. intros n. apply IH. Qed.
Lemma careful_boot image h evidence : careful (boot image h evidence).
Proof.
  repeat (apply careful_bind; [done | intros ?]). apply careful_ensuring; [| done].
  apply careful_bind; [done |]. intros t. apply careful_bind.
  - apply careful_bind; [apply careful_durable_mkdir |]. intros _. apply careful_bind; [done |]. intros fd.
    apply careful_bind; [| intros _; apply careful_bind; [apply careful_fsync_directory; by right | done]].
    apply careful_ensuring; [| done]. apply careful_bind; [apply careful_write_loop | done].
  - intros _. apply careful_bind; [done |]. intros entered. apply careful_bind; [done |]. intros [code out].
    repeat (apply careful_bind; [done | intros ?]). done.
Qed.

(** What holds of a host with a directory [a] above the claim directory that
    is on the disk but whose entry was never synced. *)
Section unsynced.
Context (a : path) (Ha : above a).
Record unsynced (s : host) : Prop := Unsynced {
  un_dirs q : above q → s.(entries) !! q = Some Directory;
  un_lost : a ∉ s.(stable);
  un_procs pid p : s.(procs) !! pid = Some p →
    (∀ fd q, p.(table) !! fd = Some (DirectoryFd q) → q = base ∨ q = CLAIMS) ∧ careful p.(code)
}.
Definition keeps (s s' : host) : Prop := (∀ q, above q → s'.(entries) !! q = Some Directory) ∧ (a ∉ s'.(stable)) ∧ s'.(procs) = s.(procs).
Lemma keeps_entry s p n : (∀ q, above q → s.(entries) !! q = Some Directory) → a ∉ s.(stable) →
  s.(entries) !! p ≠ Some Directory → keeps s (set_entry p n s).
Proof. intros Hd Hl Hp. split_and!; simpl; [| done | done]. intros q Hq. rewrite lookup_insert_ne by (intros ->; by apply Hp, Hd). by apply Hd. Qed.
Lemma keeps_sync s p : (∀ q, above q → s.(entries) !! q = Some Directory) → a ∉ s.(stable) → p = base ∨ p = CLAIMS → keeps s (sync_directory p s).
Proof using Ha.
  intros Hd Hl Hp. split_and!; simpl; [done | | done]. intros [?|[[Hn Hq] _]%elem_of_filter]%elem_of_union; [done |].
  destruct Ha as [Hs _]. apply suffix_length in Hs. destruct a as [|x up]; [done |]. simpl in Hq. subst up. destruct Hp as [->| ->]; simpl in Hs; lia.
Qed.
Lemma perform_keeps s t ch c r t' s' : unsynced s → opens c → (∀ fd q, t !! fd = Some (DirectoryFd q) → q = base ∨ q = CLAIMS) →
  perform s t ch c = Some (r, t', s') → found c r ∧ keeps s s' ∧ ∀ fd q, t' !! fd = Some (DirectoryFd q) → q = base ∨ q = CLAIMS.
Proof using Ha.
  intros [Hd Hl _] Hc Ht H. assert (keeps s s) as Hs by by split_and!.
  assert (∀ fd0, ∀ fd q, delete fd0 t !! fd = Some (DirectoryFd q) → q = base ∨ q = CLAIMS) as Hdel.
  { intros fd0 fd q [_ Hq]%lookup_delete_Some. by eapply Ht. }
  assert (∀ fd0 d, (∀ q, d = DirectoryFd q → q = base ∨ q = CLAIMS) → ∀ fd q, <[fd0 := d]> t !! fd = Some (DirectoryFd q) → q = base ∨ q = CLAIMS) as Hins.
  { intros fd0 d Hq fd q [[_ ->]|[_ H']]%lookup_insert_Some; [by apply Hq | by eapply Ht]. }
  destruct ch as [n text fields|e]; simpl in H.
  2: { unfold failing in H. case_bool_decide; [done |]. injection H as <- <- <-. split; [by destruct c |].
    destruct c; (split; [try done; by repeat case_match | try done; apply Hdel]). }
  destruct c as [| | | |p|p|p|p|p|p|fd view|fd|fd|fd|]; simpl in H; try (injection H as <- <- <-; by split_and!).
  - destruct (t !! n); [done |]. injection H as <- <- <-. split_and!; [done | done | by apply Hins].
  - injection H as <- <- <-. split_and!; [| done | done]. intros Hp. pose proof (Hd p Hp) as Hdir. destruct p; [by destruct Hp |]. simpl. by rewrite Hdir.
  - destruct (may_create s p) as [u|e] eqn:Hm; injection H as <- <- <-; [| by split_and!].
    apply may_create_Ok in Hm as [_ Hm%node_at_None]. split_and!; [done | apply keeps_entry; [done | done | congruence] | done].
  - destruct (is_dir _); [| by injection H as <- <- <-]. destruct (t !! n); [done |]. injection H as <- <- <-.
    split_and!; [done | done |]. apply Hins. by intros q [= <-].
  - destruct (may_create s p) as [u|e] eqn:Hm; [| by injection H as <- <- <-]. apply may_create_Ok in Hm as [_ Hm%node_at_None].
    destruct (t !! n); [done |]. injection H as <- <- <-. split_and!; [done | apply keeps_entry; [done | done | congruence] |]. by apply Hins.
  - destruct (t !! fd) as [[q|q|h]|]; try (injection H as <- <- <-; by split_and!).
    destruct (entries s !! q) as [[|data synced|to]|] eqn:Hq; try (injection H as <- <- <-; by split_and!).
    destruct (_ && _); [| done]. injection H as <- <- <-. split_and!; [done | apply keeps_entry; [done | done | congruence] | done].
  - destruct (t !! fd) as [[q|q|h]|] eqn:Hfd; injection H as <- <- <-; (split; [done |]); (split; [| done]); [| | done | done].
    + apply keeps_sync; [done | done | by eapply Ht].
    + destruct (entries s !! q) as [[|data synced|to]|] eqn:Hq; [done | | done | done]. apply keeps_entry; [done | done | congruence].
  - destruct (t !! fd); injection H as <- <- <-; split_and!; try done; apply Hdel.
  - injection H as <- <- <-. split; [done |]. split; [| done]. by repeat case_match.
Qed.
Lemma step_unsynced s x s' : unsynced s → (∀ lost torn, x ≠ Crash lost torn) → step x s = Some s' → unsynced s'.
Proof using Ha.
  intros Hs Hx H. destruct x as [pid image h ev|pid ch|pid|lost torn]; simpl in H; [| | | by destruct (Hx lost torn)].
  - destruct (procs s !! pid); [done |]. injection H as <-. split; try apply Hs; simpl. intros q p' [[<- <-]|[_ Hq]]%lookup_insert_Some; [| by apply (un_procs s Hs q)].
    split; [by intros fd d | apply careful_boot].
  - destruct (procs s !! pid) as [[[r|c k] t h]|] eqn:Hp; [done | | done]. destruct (un_procs s Hs pid _ Hp) as [Ht [Hc Hk]]. simpl in Ht.
    destruct (perform s t ch c) as [[[r t'] s1]|] eqn:Hperf; [| done]. injection H as <-.
    destruct (perform_keeps _ _ _ _ _ _ _ Hs Hc Ht Hperf) as (Hf & (H1 & H2 & H3) & H4). split; simpl; [done | done |].
    intros q p' [[<- <-]|[_ Hq]]%lookup_insert_Some; [by split; [| apply Hk] |]. rewrite H3 in Hq. by apply (un_procs s Hs q).
  - destruct (procs s !! pid); [| done]. injection H as <-. split; try apply Hs; simpl. intros q p' [_ Hq]%lookup_delete_Some. by apply (un_procs s Hs q).
Qed.

(** C38. [durable_mkdir] does not sync what it finds: when a directory above
    the claim directory is on the disk but its entry is not, as after a process
    that died between its [mkdir] and the [fsync] of the directory above, no
    run of any number of later trials makes it stable.  Whatever they have
    sent, a crash of the host may then take it away, with every claim made: the
    wrappers given to the phone can be booted again. *)
Theorem claim_directory_lost l s s' torn : (∀ q, above q → s.(entries) !! q = Some Directory) → a ∉ s.(stable) → s.(procs) = ∅ →
  (∀ lost torn, Crash lost torn ∉ l) → execute l s = Some s' →
  ∃ s'', step (Crash {[a]} torn) s' = Some s'' ∧ s''.(sent) = s'.(sent) ∧ s''.(entries) !! CLAIMS = None ∧ ∀ h, s''.(entries) !! claim h = None.
Proof using Ha.
  intros Hd Hl Hp Hx He. assert (unsynced s) as Hs by (split; [done | done | by rewrite Hp]). clear Hd Hl Hp.
  assert (unsynced s') as Hs'.
  { revert s Hs He. induction l as [|x l IH]; intros s Hs He; simpl in He; [by injection He as <- |]. apply bind_Some in He as (s1 & H1 & He).
    apply (IH (λ lost torn H, Hx lost torn (list_elem_of_further _ _ _ H)) s1); [| done]. eapply step_unsynced; [done | | done].
    intros lost torn' ->. eapply Hx. left. }
  destruct Ha as [Hsuf Hne]. simpl. rewrite bool_decide_eq_true_2 by (split; [apply disjoint_singleton_l; apply Hs' | by intros <-%elem_of_singleton]).
  eexists. split; [done |]. assert (∀ p, a `suffix_of` p → entries (crash {[a]} torn s') !! p = None) as Hnone.
  { intros p Hp. simpl. rewrite map_lookup_imap. destruct (entries s' !! p); [| done]. simpl. unfold survives.
    rewrite bool_decide_eq_false_2; [done |]. intros H. by apply (H a); [apply elem_of_singleton |]. }
  split; [done |]. split; [| intros h]; apply Hnone; by repeat apply suffix_cons_r.
Qed.
End unsynced.
End once.

(** ** Runs *)
Definition e_dumps (h serial t : pystr) (identity : dict pystr) : pystr := "{}".
Definition e_record (r : record) : pystr := "{}".
Definition e_base : path := ["state" : pystr].
Definition e_claims : path := ("claims" : pystr) :: e_base.
Definition e_pin : pystr := repeat "a"%char 64.
Definition e_execute : list action → host → option host := execute e_claims "SERIAL" e_dumps e_record.
Definition good (n : Z) : choice := Answer n "1" [].
(** One process whose calls go well: descriptor 3 is the snapshot, [n] calls
    lead from the claim directory to the synced marker. *)
Definition steps (pid : Z) (l : list Z) : list action := map (λ k, Step pid (good k)) l.
Definition trial (pid : Z) (n : nat) : list action :=
  Start pid "boot.img" e_pin "/evidence" :: steps pid ([1; 0; 3; 0] ++ repeat 2 n).
Definition e_host : host := Host {[e_base := Directory]} {[e_base]} [] ∅.
(** A whole trial, a crash, and the same wrapper once more, up to the marker
    that stops it. *)
Definition e_run : list action :=
  trial 1 18 ++ steps 1 [0; 0; 0; 0; 0] ++ [Crash ∅ (λ _, [])] ++ trial 1 8.
Lemma e_ready : ready e_base e_host.
Proof.
  split; [| done]. intros q Hq Hn. apply suffix_cons_cases in Hq as [->|Hq]; [by vm_compute |].
  by apply suffix_nil_inv in Hq.
Qed.
Definition e_after : host := default e_host (e_execute e_run e_host).
Lemma boot_at_most_once_witness :
  ready e_base e_host ∧ e_execute e_run e_host = Some e_after ∧ e_after.(sent) = [e_pin] ∧
  NoDup e_after.(sent) ∧ (∀ h, h ∈ e_after.(sent) → recorded "claims" e_base "SERIAL" e_dumps e_after h) ∧
  ∀ pid p r, e_after.(procs) !! pid = Some p → p.(code) = Done r →
    p.(table) = ∅ ∧ match r with Ok _ => p.(pin) ∈ e_after.(sent) | Raise e => exn_cls e ≠ OutOfFuel end.
Proof.
  assert (e_execute e_run e_host = Some e_after) as H.
  { assert (match e_execute e_run e_host with Some _ => true | None => false end = true) as Hs by (vm_compute; reflexivity).
    unfold e_after. by destruct (e_execute e_run e_host). }
  split; [apply e_ready |]. split; [exact H |]. split; [vm_compute; reflexivity |].
  exact (boot_at_most_once ("claims" : pystr) e_base "SERIAL" e_dumps e_record e_run e_host e_after e_ready H).
Defined.

(** A process that dies after making the directory above the claim directory,
    and before syncing it; a second trial sends the image; a crash takes that
    directory away; a third trial sends the same image again. *)
Definition e_empty : host := Host ∅ ∅ [] ∅.
Definition e_orphan : host := default e_empty (e_execute (trial 1 3 ++ [Kill 1]) e_empty).
Definition e_second : list action := trial 2 18 ++ steps 2 [0; 0].
Definition e_sent : host := default e_empty (e_execute e_second e_orphan).
Lemma claim_directory_lost_witness :
  e_execute (trial 1 3 ++ [Kill 1]) e_empty = Some e_orphan ∧ e_execute e_second e_orphan = Some e_sent ∧ e_sent.(sent) = [e_pin] ∧
  sent <$> e_execute (Crash {[e_base]} (λ _, []) :: trial 3 22 ++ steps 3 [0; 0]) e_sent = Some [e_pin; e_pin] ∧
  ∃ s'', step e_claims "SERIAL" e_dumps e_record (Crash {[e_base]} (λ _, [])) e_sent = Some s'' ∧ s''.(sent) = e_sent.(sent) ∧
    s''.(entries) !! e_claims = None ∧ ∀ h, s''.(entries) !! claim e_claims h = None.
Proof.
  assert (∀ l s, (if e_execute l s then true else false) = true → e_execute l s = Some (default e_empty (e_execute l s))) as Hrun.
  { intros l s. destruct (e_execute l s); [intros _; reflexivity | discriminate]. }
  assert (e_execute e_second e_orphan = Some e_sent) as H by (apply Hrun; vm_compute; reflexivity).
  split; [apply Hrun; vm_compute; reflexivity |]. split; [exact H |]. split; [vm_compute; reflexivity |]. split; [vm_compute; reflexivity |].
  assert (∀ q, above e_base q → e_orphan.(entries) !! q = Some Directory) as Hd.
  { intros q [Hq Hn]. apply suffix_cons_cases in Hq as [->|Hq]; [vm_compute; reflexivity |]. exfalso. apply Hn. by apply suffix_nil_inv in Hq. }
  refine (claim_directory_lost ("claims" : pystr) e_base "SERIAL" e_dumps e_record e_base _ e_second e_orphan e_sent (λ _, []) Hd _ _ _ H).
  - split; [reflexivity | discriminate].
  - apply (bool_decide_eq_false_1 _). vm_compute. reflexivity.
  - vm_compute. reflexivity.
  - intros lost torn Hin. exfalso. unfold e_second, trial, steps in Hin. simpl in Hin. clear -Hin. repeat (apply elem_of_cons in Hin as [Hin|Hin]; [discriminate Hin |]). exact (not_elem_of_nil _ Hin).
Defined.
