(* ===== verification/RamSeal.v ===== *)
(** * The image that is booted

    [sealed] of scripts/host/production-ram-trial.py, over the model of the
    operating system: the wrapper is copied into an anonymous file whose
    content is hashed on the way and then sealed, so that what [fastboot boot]
    reads is what the pin says, whatever becomes of the file it was copied
    from.  Device 0 holds the anonymous files of the process; other processes
    change any other file at any time.  The seals are a local variable here:
    the model has one file to seal. *)

From S2P Require Import Prelude PyStr Posix Sha256.

Definition IMAGE_SIZE : Z := 134217728.
Definition SEALS : Z := 15.   (* F_SEAL_SEAL, SHRINK, GROW and WRITE *)
Record locals := Locals { snapshot : option Z; seals : Z }.

(** [while view: view = view[os.write(snapshot, view):]] *)
Fixpoint write_view (fuel : nat) (d : Z) (view : bytes) : io unit :=
  match view with
  | [] => mret ()
  | _ => match fuel with
         | O => raise OutOfFuel ""
         | S fuel => n ← write d view; write_view fuel d (drop (Z.to_nat n) view)
         end
  end.
Definition copy_round (source d : Z) (seen : bytes) : io (bytes + bytes) :=
  block ← read source 1048576;
  if (block : bytes) == [] then mret (inr seen)
  else write_view (length block) d block ;; mret (inl (seen ++ block)).
(** [fcntl(F_ADD_SEALS)] and [fcntl(F_GET_SEALS)]. *)
Definition add_seals (d : Z) (s : Z) : proc locals unit :=
  sys (syscall_may (λ _, with_fd d (λ _ _, mret ()))) ;; assign (λ v, Locals v.(snapshot) (Z.lor v.(seals) s)).
Definition get_seals (d : Z) : proc locals Z :=
  sys (syscall_may (λ _, with_fd d (λ _ _, mret ()))) ;; vars (λ v, mret v.(seals)).
Definition seal_body (rounds : positive) (source : Z) (expected : pystr) : proc locals Z :=
  before ← sys (fstat source);
  euid ← sys geteuid;
  check (negb ((before.(st_kind) == Reg) && (before.(st_uid) =? euid) && (before.(st_nlink) =? 1)
               && (Z.land before.(st_perm) 18 =? 0) && (before.(st_size) =? IMAGE_SIZE))) ValueError "wrapper metadata is unsafe" ;;
  d ← sys memfd_create;
  assign (λ v, Locals (Some d) v.(seals)) ;;
  seen ← sys (while rounds (copy_round source d) []);
  check (sha256 seen != expected) ValueError "wrapper hash does not match the pin" ;;
  sys (fchmod d 256) ;;
  add_seals d SEALS ;;
  s ← get_seals d;
  check (negb (s =? SEALS)) ValueError "snapshot not sealed" ;;
  sys (rewind d) ;;
  mret d.
(** The loop over the file has no bound of its own, as the file may grow:
    [rounds] is any number of blocks. *)
Definition sealed (rounds : positive) (image expected : pystr) : io Z :=
  source ← open_ None image [O_NOFOLLOW] 0;
  local (Locals None 0)
    (finally
       (on_error (seal_body rounds source expected)
          (vars (λ v, match v.(snapshot) with Some d => sys (close d) | None => mret () end)))
       (sys (close source))).

(** ** The anonymous file *)
Definition private (w : world) : Prop := ∀ n f ino, f_inodes (w.(w_env) n f) !! (0, ino) = f_inodes f !! (0, ino).
(** Descriptor [d] is open at [off] on the anonymous file [ino] of [data]. *)
Definition anon (d ino : Z) (data : bytes) (off : nat) (w : world) : Prop :=
  private w ∧ (∃ l, w.(w_fds) !! d = Some (Fd (0, ino) off l)) ∧ ∃ i, f_inodes w.(w_fs) !! (0, ino) = Some i ∧ i.(i_data) = data.

Lemma anon_enter d ino data off w : anon d ino data off w → anon d ino data off (enter w).
Proof. intros (Hp & Hd & i & Hi & He). split; [done |]. split; [done |]. exists i. split; [| done]. simpl. by rewrite Hp. Qed.
Section anon.
Context (d ino : Z).
Definition anon_keeps {A} (m : io A) : Prop := ∀ data off, preserves (anon d ino data off) m.
Lemma anon_syscall {A} (f : io A) : anon_keeps f → anon_keeps (syscall f).
Proof. intros Hf data off w Hw. by apply Hf, anon_enter. Qed.
Lemma anon_syscall_may {A} (f : nat → io A) : (∀ t, anon_keeps (f t)) → anon_keeps (syscall_may f).
Proof. intros Hf data off w Hw. unfold syscall_may. destruct (w_fail w _); [by apply anon_enter | by apply Hf, anon_enter]. Qed.
Lemma anon_with_fd {A} d' (k : fd → inode → io A) :
  (∀ f i data off w, w.(w_fds) !! d' = Some f → anon d ino data off w → anon d ino data off (k f i w).2) → anon_keeps (with_fd d' k).
Proof.
  intros Hk data off w Hw. unfold with_fd, fd_inode. destruct (w_fds w !! d') as [f|] eqn:Hf; simpl; [| done]. by apply Hk.
Qed.
Lemma anon_set_off d' f o data off w : d' ≠ d → anon d ino data off w → anon d ino data off (set_off d' f o w).2.
Proof. intros Hd (Hp & [l Hl] & Hi). split; [done |]. split; [| done]. exists l. simpl. by rewrite lookup_insert_ne. Qed.
Lemma anon_read d' n : d' ≠ d → anon_keeps (read d' n).
Proof.
  intros Hd. apply anon_syscall_may. intros t. apply anon_with_fd. intros f i data off w Hf Hw. unfold mbind, M_mbind.
  pose proof (anon_set_off d' f (d_off f + length (take (Z.to_nat (Z.min (len (drop (d_off f) (i_data i))) (Z.min n (Z.max 1 (w_chunk w t))))) (drop (d_off f) (i_data i)))) _ _ w Hd Hw) as H.
  by destruct (set_off _ _ _ w) as [[u|e] w'].
Qed.
(** A call on the descriptor itself. *)
Lemma anon_call {A} (k : nat → fd → inode → io A) data off (Q : res A → world → Prop) w : anon d ino data off w →
  (∀ e w', exn_cls e = OSError → anon d ino data off w' → fds w' = fds w → Q (Raise e) w') →
  (∀ l i w' t, anon d ino data off w' → fds w' = fds w → w'.(w_fds) !! d = Some (Fd (0, ino) off l) → f_inodes w'.(w_fs) !! (0, ino) = Some i → i.(i_data) = data →
     wp (k t (Fd (0, ino) off l) i) Q w') → wp (syscall_may (λ t, with_fd d (k t))) Q w.
Proof.
  intros Hw He Hk. unfold wp, syscall_may. destruct (w_fail w _); [by apply He; [| apply anon_enter |] |].
  pose proof (anon_enter _ _ _ _ _ Hw) as Hw'. pose proof Hw' as (_ & [l Hl] & i & Hi & Hdata). specialize (Hk l i (enter w) (w_tick w) Hw' eq_refl Hl Hi Hdata).
  unfold with_fd, fd_inode. simpl in *. rewrite Hl. simpl. by rewrite Hi.
Qed.
Lemma anon_put i data data' off w : anon d ino data off w → i.(i_data) = data' → anon d ino data' off (put_inode (0, ino) i w).
Proof. intros (Hp & Hl & _) Hi. split; [done |]. split; [done |]. exists i. simpl. by rewrite lookup_insert_eq. Qed.
Lemma anon_move f o data off w : anon d ino data off w → w.(w_fds) !! d = Some f → anon d ino data o (set_off d f o w).2 ∧ fds (set_off d f o w).2 = fds w.
Proof.
  intros (Hp & [l Hl] & Hi) Hf. rewrite Hl in Hf. injection Hf as <-. split.
  - split; [done |]. split; [| done]. exists l. simpl. by rewrite lookup_insert_eq.
  - unfold fds. simpl. rewrite dom_insert_L. assert (d ∈ dom (w_fds w)) by (apply elem_of_dom; by eexists). set_solver.
Qed.
Lemma write_anon view data w (Q : res Z → world → Prop) : anon d ino data (length data) w →
  (∀ e w', exn_cls e = OSError → fds w' = fds w → Q (Raise e) w') →
  (∀ n w', (n ≤ length view)%nat → anon d ino (data ++ take n view) (length (data ++ take n view)) w' → fds w' = fds w → Q (Ok (Z.of_nat n)) w') →
  wp (write d view) Q w.
Proof.
  intros Hw He Hk. eapply anon_call; [done | by intros; apply He |]. intros l i w1 t Hw1 Hfds Hl Hi Hd. apply wp_bind.
  set (n := Z.to_nat (Z.min (len view) (w_chunk w1 t))). set (i' := Inode _ _ _ _ _ _ _ _). set (w2 := put_inode _ i' w1).
  assert (n ≤ length view)%nat as Hn by (unfold n, len; lia).
  assert (anon d ino (data ++ take n view) (length data) w2) as Hw2.
  { apply (anon_put _ data); [done |]. simpl. rewrite Hd. rewrite take_ge by lia. rewrite drop_ge by lia. by rewrite app_nil_r. }
  destruct (anon_move (Fd (0, ino) (length data) l) (length data + n) _ _ w2 Hw2 Hl) as [Hm Hf].
  unfold wp. simpl. apply Hk; [done | | exact (eq_trans Hf Hfds)].
  replace (length (data ++ take n view)) with (length data + n)%nat by (rewrite length_app, length_take; lia). exact Hm.
Qed.
Lemma write_view_anon fuel view data w (Q : res unit → world → Prop) : anon d ino data (length data) w →
  (∀ e w', fds w' = fds w → Q (Raise e) w') →
  (∀ w', anon d ino (data ++ view) (length (data ++ view)) w' → fds w' = fds w → Q (Ok ()) w') → wp (write_view fuel d view) Q w.
Proof.
  revert view data w. induction fuel as [|fuel IH]; intros view data w Hw He Hk.
  { destruct view; [| by apply He]. apply Hk; [| done]. by rewrite app_nil_r. }
  destruct view as [|c view]; [apply Hk; [| done]; by rewrite app_nil_r |]. cbn [write_view]. apply wp_bind.
  eapply write_anon; [done | by intros; apply He |]. intros n w1 Hn Hw1 Hf. rewrite Nat2Z.id. eapply IH; [exact Hw1 | intros; apply He; congruence |].
  intros w2. rewrite <- app_assoc, take_drop. intros H2 Hf2. apply Hk; [done | congruence].
Qed.
Lemma fchmod_anon data off w (Q : res unit → world → Prop) : anon d ino data off w →
  (∀ r w', anon d ino data off w' → fds w' = fds w → Q r w') → wp (fchmod d 256) Q w.
Proof.
  intros Hw Hk. eapply anon_call; [done | by intros; apply Hk |]. intros l i w1 t Hw1 Hf Hl Hi Hd. unfold wp. simpl. apply Hk; [by eapply anon_put | done].
Qed.
Lemma fcntl_anon data off w (Q : res unit → world → Prop) : anon d ino data off w →
  (∀ r w', anon d ino data off w' → fds w' = fds w → Q r w') → wp (syscall_may (λ _, with_fd d (λ _ _, mret ()))) Q w.
Proof. intros Hw Hk. eapply (anon_call (λ _ _ _, mret ()) data off); [exact Hw | by intros; apply Hk |]. intros l i w1 t Hw1 Hf Hl Hi Hd. by apply wp_mret, Hk. Qed.
Lemma rewind_anon data off w (Q : res unit → world → Prop) : anon d ino data off w →
  (∀ w', anon d ino data 0 w' → fds w' = fds w → Q (Ok ()) w') → wp (rewind d) Q w.
Proof.
  intros Hw Hk. pose proof (anon_enter _ _ _ _ _ Hw) as Hw'. pose proof Hw' as (_ & [l Hl] & i & Hi & Hdata).
  unfold wp, rewind, syscall, with_fd, fd_inode. rewrite Hl. cbn [mbind option_bind].
  destruct (anon_move _ 0 _ _ _ Hw' Hl) as [H1 H2]. apply Hk; [exact H1 | exact H2].
Qed.
(** The copy: what was hashed is what the file holds. *)
Lemma copy_anon source rounds w (Q : res bytes → world → Prop) : source ≠ d → anon d ino [] 0 w →
  (∀ e w', fds w' = fds w → Q (Raise e) w') →
  (∀ seen w', anon d ino seen (length seen) w' → fds w' = fds w → Q (Ok seen) w') → wp (while rounds (copy_round source d) []) Q w.
Proof.
  intros Hs Hw He Hk. apply wp_bind.
  eapply wp_mono; [apply (rounds_counted (copy_round source d) (λ _ seen w', anon d ino seen (length seen) w' ∧ fds w' = fds w) (λ r w', match r with
    | Ok seen => anon d ino seen (length seen) w' ∧ fds w' = fds w | Raise e => fds w' = fds w end) rounds) with (k := O); [| done] |].
  2: { intros [[seen|seen]|e] w' H; [by apply He, H | apply wp_mret, Hk; apply H | by apply He]. }
  intros k seen w1 [Hw1 Hf1]. apply wp_bind. pose proof (anon_read source 1048576 Hs seen (length seen) w1 Hw1) as Hw2.
  unfold wp at 1. pose proof (keeps_read source 1048576 w1) as Hf2. destruct (read source 1048576 w1) as [[block|e] w2]; simpl in *; [| congruence].
  case_bool_decide as Hb; [apply wp_mret; split; [done | congruence] |]. apply wp_bind.
  eapply write_view_anon; [done | intros; congruence |]. intros w3 Hw3 Hf3. apply wp_mret. split; [done | congruence].
Qed.
End anon.

(** ** The sealed snapshot *)
Definition sealed_on (expected : pystr) (d : Z) (w w' : world) : Prop :=
  d ∉ fds w ∧ fds w' = {[d]} ∪ fds w ∧ ∃ ino data, anon d ino data 0 w' ∧ sha256 data = expected.
Lemma memfd_anon w (Q : res Z → world → Prop) : private w →
  (∀ e w', fds w' = fds w → Q (Raise e) w') →
  (∀ d ino w', d ∉ fds w → fds w' = {[d]} ∪ fds w → anon d ino [] 0 w' → Q (Ok d) w') → wp memfd_create Q w.
Proof.
  intros Hp He Hk. unfold wp, memfd_create, syscall_may. destruct (w_fail w _); [by apply He |]. simpl.
  set (d := fresh _). set (ino := fresh _). apply (Hk d ino).
  - unfold d. apply (is_fresh (dom (w_fds w))).
  - unfold fds. simpl. by rewrite dom_insert_L.
  - split; [done |]. split; [exists None; simpl; by rewrite lookup_insert_eq |]. eexists. simpl. by rewrite lookup_insert_eq.
Qed.
Lemma private_enter w : private w → private (enter w).
Proof. done. Qed.

Lemma seal_body_wp rounds source expected w : private w → source ∈ fds w →
  wp (seal_body rounds source expected) (λ r t, match r with
    | Ok d => t.1.(snapshot) = Some d ∧ sealed_on expected d w t.2
    | Raise e => match t.1.(snapshot) with Some d => d ∉ fds w ∧ fds t.2 = {[d]} ∪ fds w | None => fds t.2 = fds w end
    end) (Locals None 0, w).
Proof.
  intros Hp Hsrc. unfold seal_body. apply wp_bind, wp_sys.
  assert (∀ m : io stat_result, m = fstat source → wp m (λ r w', fds w' = fds w ∧ private w') w) as Hst.
  { intros m ->. unfold wp, fstat, syscall, with_fd, fd_inode. destruct (w_fds (enter w) !! source); simpl; done. }
  eapply wp_mono; [by apply Hst |]. intros [before|e] w1 [Hf1 Hp1]; [| done]. simpl.
  apply wp_bind, wp_sys. unfold wp at 1, geteuid. cbn [fst snd].
  apply wp_bind, wp_check; [done |]. intros _. apply wp_bind, wp_sys. apply memfd_anon; [done | intros e w' H; simpl; congruence |].
  intros d ino w2 Hd Hf2 Ha2. simpl in Hd, Hf2. rewrite Hf1 in Hd, Hf2. apply wp_bind, wp_assign. simpl.
  assert (source ≠ d) as Hne by (by intros ->).
  assert (∀ w', fds w' = fds w2 → d ∉ fds w ∧ fds w' = {[d]} ∪ fds w) as Hleft by (intros w' ->; done).
  apply wp_bind, wp_sys. eapply copy_anon; [done | done | intros e w' H; by apply Hleft |]. intros seen w3 Ha3 Hf3.
  apply wp_bind, wp_check; [intros _; by apply Hleft |]. intros Hsha. apply negb_false_iff, bool_decide_eq_true in Hsha.
  apply wp_bind, wp_sys. eapply fchmod_anon; [done |]. intros [[]|e] w4 Ha4 Hf4; [| apply Hleft; simpl; congruence].
  apply wp_bind. unfold add_seals. apply wp_bind, wp_sys. eapply fcntl_anon; [done |]. intros [[]|e] w5 Ha5 Hf5; [| apply Hleft; simpl; congruence].
  apply wp_assign. apply wp_bind. unfold get_seals. apply wp_bind, wp_sys. eapply fcntl_anon; [done |]. intros [[]|e] w6 Ha6 Hf6; [| apply Hleft; simpl; congruence].
  apply wp_vars, wp_mret. apply wp_bind, wp_check; [intros _; apply Hleft; simpl; congruence |]. intros _.
  apply wp_bind, wp_sys. eapply rewind_anon; [done |]. intros w7 Ha7 Hf7. apply wp_mret. simpl. split; [done |].
  split; [done |]. split; [congruence |]. by exists ino, seen.
Qed.

Lemma open_private path flags w : private w → private (open_ None path flags 0 w).2.
Proof.
  intros Hp. unfold open_, syscall_may. destruct (w_fail w _); [done |]. destruct (resolve _ _ _); [| done].
  destruct (bool_decide _); [done |]. destruct (_ !! _); [| done]. destruct (_ == _); [done |]. by destruct (_ && _).
Qed.
Lemma anon_close d ino data off d' w : d' ≠ d → anon d ino data off w → anon d ino data off (close d' w).2.
Proof.
  intros Hd Hw. destruct (anon_enter _ _ _ _ _ Hw) as (Hp & [l Hl] & Hi). split; [done |]. split; [| done].
  exists l. simpl. by rewrite lookup_delete_ne.
Qed.

(** C39. Whatever other processes do to the wrapper's file, whichever calls
    fail and however transfers are split: a descriptor that [sealed] returns
    is new and stands at the start of an anonymous file whose content has the
    pinned hash, and it is the only descriptor left open; a refusal leaves
    none. *)
Theorem sealed_pinned rounds image expected w : private w →
  wp (sealed rounds image expected) (λ r w', match r with Ok d => sealed_on expected d w w' | Raise e => fds w' = fds w end) w.
Proof.
  intros Hp. unfold sealed. apply wp_bind. unfold wp at 1. pose proof (open_private image [O_NOFOLLOW] w Hp) as Hp0.
  assert (wp (open_ None image [O_NOFOLLOW] 0) (λ r w', match r with Ok s => s ∉ fds w ∧ fds w' = {[s]} ∪ fds w | Raise _ => fds w' = fds w end) w)
    as Ho by (apply open_wp; by intros). unfold wp in Ho.
  destruct (open_ _ _ _ _ w) as [[source|e] w0]; simpl in *; [| done]. destruct Ho as [Hs Hf0].
  apply wp_local, wp_finally, wp_on_error. eapply wp_mono; [apply seal_body_wp; [done | set_solver] |].
  intros [d|e] [v w1]; simpl.
  - intros (_ & Hd & Hf1 & ino & data & Ha & Hsha). unfold sealed_on. assert (source ≠ d) as Hne by set_solver.
    apply wp_sys. pose proof (anon_close _ _ _ _ source _ Hne Ha) as Ha2. unfold wp.
    assert (wp (close source) (λ r w', r = Ok () ∧ fds w' = fds w1 ∖ {[source]}) w1) as [Hr Hf2] by (apply close_wp; by intros).
    destruct (close source w1) as [r w2]. cbn [fst snd] in *. subst r. rewrite Hf1, Hf0 in Hf2. rewrite Hf0 in Hd.
    split; [by intros H; apply Hd, elem_of_union_r |]. split; [| by exists ino, data]. rewrite Hf2. clear -Hs Hne. set_solver.
  - intros Hv. apply wp_vars. assert (∀ w' , fds w' = fds w0 → wp (sys (S := locals) (close source)) (λ r t2, match r with Ok _ => fds t2.2 = fds w | Raise _ => fds t2.2 = fds w end) (v, w')) as Hlast.
    { intros w' Hw'. apply wp_sys, close_wp. intros w2 Hf2. simpl. rewrite Hf2, Hw', Hf0. clear -Hs. set_solver. }
    destruct (snapshot v) as [d|].
    + destruct Hv as [Hd Hf1]. apply wp_sys, close_wp. intros w2 Hf2. apply Hlast. rewrite Hf2, Hf1. clear -Hd. set_solver.
    + by apply wp_mret, Hlast.
Qed.
(** Another process appends to the wrapper at every call; the wrapper is too
    short, and no descriptor is left. *)
Definition ex_grow (n : nat) (f : fs) : fs := set_inodes (alter (λ i, Inode i.(i_kind) i.(i_perm) i.(i_uid) i.(i_nlink) i.(i_mtime) i.(i_ctime) (i.(i_data) ++ "!") i.(i_entries)) (1, 1) f.(f_inodes)) f.
Definition ex_world : world :=
  World (Fs {[ (1, 1) := Inode Reg 384 1000 1 0 0 "wrapper" ∅ ]} {[ ("boot.img" : bytes) := (1, 1) ]} ∅ 0) ∅ 0 1000 ex_grow (λ _, false) (λ _, 4).
Example sealed_pinned_witness : private ex_world ∧ (sealed 1 "boot.img" "pin" ex_world).1 = Raise (Exn ValueError "wrapper metadata is unsafe") ∧
  fds (sealed 1 "boot.img" "pin" ex_world).2 = ∅.
Proof.
  assert (private ex_world) as Hp by (intros n f ino; simpl; by rewrite lookup_alter_ne).
  pose proof (sealed_pinned 1 "boot.img" "pin" ex_world Hp) as H. unfold wp in H.
  assert ((sealed 1 "boot.img" "pin" ex_world).1 = Raise (Exn ValueError "wrapper metadata is unsafe")) as He by (vm_compute; reflexivity).
  rewrite He in H. split; [exact Hp |]. split; [exact He | exact H].
Defined.
