(* ===== verification/RamTrial.v ===== *)
(** * Watching a RAM trial

    scripts/host/production-ram-trial.py around [boot] (RamClaim): the state of
    the USB port ([usb_state]), the identity of the bootloader ([getvar],
    [fastboot_identity]), reaching the target ([use_address], [probe]), the
    host's early-record path ([stage_path], [StageReceiver]), [observe], and
    the commands of [main].  The operating system is a parameter that acts on
    a world and may raise at any call; what a program does to it is kept as a
    list of events.  Times are nanoseconds; printing is left out. *)

From stdpp Require Import sorting.
From S2P Require Import Prelude PyStr PyData.

Definition SECOND : Z := 1000000000.

(** Every state once when it changes. *)
Fixpoint squeeze (previous : option pystr) (l : list pystr) : list pystr :=
  match l with
  | [] => []
  | x :: l => if previous == Some x then squeeze previous l else x :: squeeze (Some x) l
  end.

(** ** The port *)
Section port.
Context {W : Type} (serial anchor : pystr).
(** [USB.exists()], [str(USB.resolve(strict=True))], [read(USB/name)],
    [(NET/INTERFACE).exists()] and the parent of its resolved device. *)
Context (usb_exists : M W bool) (usb_resolve : M W pystr) (usb_text : pystr → M W pystr)
  (net_exists : M W bool) (net_device_parent : M W pystr).
Definition read (name : pystr) : M W pystr := text ← usb_text name; mret (strip text).
Definition usb_state : M W pystr :=
  catch
    (there ← usb_exists;
     if negb there then mret ("absent" : pystr)
     else
     path ← usb_resolve;
     if path != anchor then mret ("mismatch" : pystr)
     else
     vendor ← read "idVendor"; id ← read "idProduct";
     if (vendor == ("0b05" : pystr)) && (id == ("4daf" : pystr)) then
       number ← read "serial"; mret (if number == serial then "fastboot" : pystr else "mismatch")
     else if (vendor == ("05c6" : pystr)) && (id == ("900e" : pystr)) then mret ("crashdump" : pystr)
     else if negb ((vendor == ("1d6b" : pystr)) && (id == ("0104" : pystr))) then mret ("mismatch" : pystr)
     else
     product ← read "product";
     if product == ("ROG5 recovery" : pystr) then mret ("recovery" : pystr)
     else if product != ("ROG5 persistent root" : pystr) then mret ("mismatch" : pystr)
     else
     net ← net_exists;
     if negb net then mret ("enumerating" : pystr)
     else
     up ← net_device_parent; here ← usb_resolve;
     mret (if up != here then "mismatch" : pystr else "target"))
    is_oserror (λ _, mret ("transition" : pystr)).
End port.

(** ** The bootloader *)

(** [re.findall(r'^(?:\(bootloader\) )?NAME:\s*(\S+)\s*$', text, re.M)]: at the
    start of a line, an optional prefix, the name, a word, and white space up
    to an end of line.  The white space may run over line ends; the match
    takes as much of it as leaves an end of line. *)
Definition not_space (c : ascii) : bool := negb (is_space c).
Fixpoint span (p : ascii → bool) (s : pystr) : pystr * pystr :=
  match s with
  | [] => ([], [])
  | c :: s' => if p c then let '(a, b) := span p s' in (c :: a, b) else ([], s)
  end.
Fixpoint last_line_end (space : pystr) : option pystr :=
  match space with
  | [] => None
  | c :: s => match last_line_end s with Some r => Some r | None => if c == LF then Some (c :: s) else None end
  end.
Definition skip_prefix (p s : pystr) : option pystr := if startswith s p then Some (drop (length p) s) else None.
Definition value_here (name s : pystr) : option (pystr * pystr) :=
  s ← skip_prefix (name ++ ":") (default s (skip_prefix "(bootloader) " s));
  let '(_, s) := span is_space s in
  let '(word, s) := span not_space s in
  let '(space, rest) := span is_space s in
  if word == [] then None
  else if rest == [] then Some (word, [])
  else match last_line_end space with Some line => Some (word, line ++ rest) | None => None end.
Fixpoint find_values (fuel : nat) (name : pystr) (line_start : bool) (s : pystr) : list pystr :=
  match fuel with
  | O => []
  | S fuel =>
      match (if line_start then value_here name s else None) with
      | Some (word, rest) => word :: find_values fuel name false rest
      | None => match s with [] => [] | c :: s => find_values fuel name (c == LF) s end
      end
  end.
Definition values (name text : pystr) : list pystr := find_values (S (length text)) name true text.

Fixpoint dec_body (acc : Z) (digit_before : bool) (s : pystr) : option Z :=
  match s with
  | [] => if digit_before then Some acc else None
  | c :: s' =>
      if is_digit c then dec_body (acc * 10 + digit c) true s'
      else if (c == "_"%char) && digit_before then
        match s' with d :: _ => if is_digit d then dec_body acc false s' else None | [] => None end
      else None
  end.
Definition int_10 (s : pystr) : option Z :=
  match s with
  | c :: s' => if c == "-"%char then Z.opp <$> dec_body 0 false s' else if c == "+"%char then dec_body 0 false s' else dec_body 0 false s
  | [] => None
  end.

Section fastboot.
Context {W : Type} (usb_state : M W pystr).
(** The metadata of the executable: a regular file and its mode; its run with
    the serial number, as the return code and the decoded output. *)
Context (executable : M W (bool * Z)) (run_fastboot : list pystr → M W (Z * pystr)).
Definition PRODUCT : pystr := "lahaina".
Definition IMAGE_SIZE : Z := 134217728.
Definition fastboot (args : list pystr) : M W (Z * pystr) :=
  '(regular, mode) ← executable;
  check (negb (regular && (Z.land mode 18 =? 0))) ValueError "fastboot executable is unsafe" ;;
  run_fastboot args.
Definition getvar (name : pystr) : M W pystr :=
  '(code, text) ← fastboot ["getvar" : pystr; name];
  check (negb (code =? 0)) ValueError ("fastboot getvar failed: " ++ name) ;;
  match values name text with
  | [value] => mret value
  | _ => raise ValueError ("ambiguous fastboot getvar: " ++ name)
  end.
(** [int(size, 16)] after [0x], else [int(size, 10)]: a sign and digits with
    single underscores between them; [size] has no white space. *)
Definition parse_size (size : pystr) : res Z :=
  of_option (if startswith size "0x" then int_16 size else int_10 size) ValueError "invalid literal for int()".
Record identity := Identity { i_product : pystr; i_slot : pystr; i_unlocked : pystr; i_download : pystr }.
Definition fastboot_identity : M W identity :=
  state ← usb_state;
  check (state != ("fastboot" : pystr)) ValueError "phone is not in fastboot on the approved port" ;;
  product ← getvar "product"; slot ← getvar "current-slot"; unlocked ← getvar "unlocked"; size ← getvar "max-download-size";
  check (product != PRODUCT) ValueError "wrong fastboot product" ;;
  check (negb (is_in slot ["b" : pystr; "_b" : pystr])) ValueError "current slot is not b" ;;
  check (unlocked != ("yes" : pystr)) ValueError "bootloader is not unlocked" ;;
  n ← lift (parse_size size);
  check (n <? IMAGE_SIZE) ValueError "download capacity below 128 MiB" ;;
  mret (Identity product slot unlocked size).
End fastboot.

(** ** The host's side of the network link *)
Definition TARGET : pystr := "10.77.0.2".
Definition LINK_LOCAL : pystr := "169.254.77.2".
Definition PROFILES : dict pystr := [(TARGET, "rog5-standalone-shared" : pystr); (LINK_LOCAL, "rog5-fallback-usb-ssh" : pystr)].
Definition FALLBACK : pystr := "rog5-fallback-usb-ssh".
Definition STAGE_HOST : pystr := "169.254.77.1".
Definition STAGE_RULE : pystr :=
  "rule family=" ++ [DQUOTE] ++ "ipv4" ++ [DQUOTE] ++ " source address=" ++ [DQUOTE] ++ LINK_LOCAL ++ [DQUOTE] ++
  " destination address=" ++ [DQUOTE] ++ STAGE_HOST ++ [DQUOTE] ++ " port port=" ++ [DQUOTE] ++ "8079" ++ [DQUOTE] ++
  " protocol=" ++ [DQUOTE] ++ "tcp" ++ [DQUOTE] ++ " accept".

(** What is done to the host and the phone, in order. *)
Inductive note := Usb (t state : pystr) | Rescue (t prompt : pystr).
Inductive event :=
  | Clock (t : Z)                      (* [time.monotonic()] *)
  | Polled (state : pystr)             (* [usb_state()] *)
  | Ran (argv : list pystr)            (* a host command was started *)
  | Bound | Unbound                    (* the early-record socket *)
  | Booted                             (* [boot] was called *)
  | Noted (n : note)                   (* a line of transitions.jsonl *)
  | Closed                             (* transitions.jsonl was closed *)
  | Started (child : Z)                (* the kernel-log stream *)
  | Ended (child : Z)                  (* it was seen to have ended *)
  | Terminated (child : Z) (r : res unit)  (* it was told to end *)
  | Waited (child : Z) (r : res unit)  (* its end was waited for *)
  | Killed (child : Z).                (* it was killed *)
Definition logged (W : Type) : Type := W * list event.
Section events.
Context {W : Type}.
(** A call that is not recorded, one recorded when it is made, one recorded
    with its outcome, and one recorded when it has returned. *)
Definition sys {A} (m : M W A) : M (logged W) A := λ '(w, l), let '(r, w') := m w in (r, (w', l)).
Definition made {A} (e : event) (m : M W A) : M (logged W) A := λ '(w, l), let '(r, w') := m w in (r, (w', l ++ [e])).
Definition tried {A} (e : res A → event) (m : M W A) : M (logged W) A := λ '(w, l), let '(r, w') := m w in (r, (w', l ++ [e r])).
Definition seen {A} (e : A → event) (m : M W A) : M (logged W) A := λ '(w, l),
  match m w with (Ok a, w') => (Ok a, (w', l ++ [e a])) | (Raise x, w') => (Raise x, (w', l)) end.
End events.

Section link.
Context {W : Type} (nmcli firewall interface : pystr).
(** [subprocess.run]: the return code, the standard output and both outputs. *)
Context (run : list pystr → M W (Z * pystr * pystr)).
Definition host (argv : list pystr) : M (logged W) (Z * pystr * pystr) := made (Ran argv) (run argv).
Definition host_run (argv : list pystr) (why : pystr) : M (logged W) pystr :=
  '(code, out, all) ← host argv;
  check (negb (code =? 0)) ValueError (why ++ ": " ++ py_slice all (-300) (len all)) ;;
  mret out.
Definition use_address (address : pystr) : M (logged W) bool :=
  match dget address PROFILES with
  | None => raise ValueError "unknown target address"
  | Some profile =>
      '(code, out, _) ← host [nmcli; "-g" : pystr; "GENERAL.CONNECTION" : pystr; "device" : pystr; "show" : pystr; interface];
      if (code =? 0) && (strip out == profile) then mret false
      else
      '(code, _, _) ← host [nmcli; "connection" : pystr; "up" : pystr; profile; "ifname" : pystr; interface];
      check (negb (code =? 0)) ValueError ("cannot activate host profile " ++ profile) ;;
      mret true
  end.
Definition profile_on : list pystr :=
  [nmcli; "connection" : pystr; "modify" : pystr; "--temporary" : pystr; FALLBACK;
   "connection.autoconnect" : pystr; "yes" : pystr; "connection.zone" : pystr; "nm-shared" : pystr].
Definition profile_off : list pystr :=
  [nmcli; "connection" : pystr; "modify" : pystr; "--temporary" : pystr; FALLBACK;
   "connection.autoconnect" : pystr; "no" : pystr; "connection.zone" : pystr; [] : pystr].
Definition rule_on : list pystr := [firewall; "--zone=nm-shared" : pystr; "--add-rich-rule=" ++ STAGE_RULE; "--timeout=2400" : pystr].
Definition rule_off : list pystr := [firewall; "--zone=nm-shared" : pystr; "--remove-rich-rule=" ++ STAGE_RULE].
Definition stage_path (enable : bool) : M (logged W) unit :=
  if enable then
    host_run profile_on "stage profile" ;;
    out ← host_run [nmcli; "-g" : pystr; "connection.autoconnect,connection.zone,ipv4.addresses" : pystr;
                    "connection" : pystr; "show" : pystr; FALLBACK] "stage profile readback";
    let shown := split_ws out in
    check (shown != ["yes" : pystr; "nm-shared" : pystr; STAGE_HOST ++ "/30"]) ValueError
      ("stage profile did not take effect: " ++ join " " shown) ;;
    host_run rule_on "stage firewall rule" ;;
    mret ()
  else
    host profile_off ;;
    host rule_off ;;
    mret ().
End link.

(** ** Reading the target's health *)
Inductive field := One (value : pystr) | Many (values : list pystr).
Definition add_line (fields : dict (list pystr)) (line : pystr) : dict (list pystr) :=
  let '(key, _, value) := partition "=" line in dset key (default [] (dget key fields) ++ [value]) fields.
Definition probe_fields (text : pystr) : dict field :=
  map (λ '(key, vs), (key, match vs with [v] => One v | _ => Many vs end)) (foldl add_line [] (splitlines text)).
Section probe.
Context {W : Type} (usb_state : M W pystr) (use_address : pystr → M (logged W) bool).
(** [lstat] of a credential file: regular, owner, mode; [ssh] with its fixed
    options, as return code, output and error output. *)
Context (credential : pystr → M W (bool * Z * Z)) (geteuid : Z) (run_ssh : pystr → pystr → M W (Z * pystr * pystr)) (PROBE : pystr).
Definition ssh (address command : pystr) : M (logged W) (Z * pystr * pystr) :=
  each (λ name, '(regular, uid, mode) ← sys (credential name);
          check (negb (regular && (uid =? geteuid) && (Z.land mode 18 =? 0))) ValueError ("unsafe SSH credential file: " ++ name))
    ["ssh-key" : pystr; "known_hosts" : pystr] ;;
  made (Ran ["ssh" : pystr; address; command]) (run_ssh address command).
Definition probe (address : pystr) : M (logged W) (dict field) :=
  state ← sys usb_state;
  check (state != ("target" : pystr)) ValueError "phone is not a running target on the approved port" ;;
  use_address address ;;
  '(code, out, err) ← ssh address PROBE;
  check (negb (code =? 0)) ValueError ("SSH probe failed: " ++ py_slice err (-300) (len err)) ;;
  mret (probe_fields out).
End probe.

(** ** Watching the phone *)
Record watch := Watch {
  prompted : list pystr; changed : Z; seen_boot : bool; last_state : option pystr; healthy : bool; stream : option Z
}.
Record summary := Summary { final_state : option pystr; ssh_health : bool; rescue_prompts : list pystr; stage_records : option Z }.
Definition up (state : pystr) : bool := is_in state ["recovery" : pystr; "enumerating" : pystr; "target" : pystr].
Definition lost (state : pystr) : bool := is_in state ["absent" : pystr; "transition" : pystr; "mismatch" : pystr].
(** [except (ValueError, OSError, subprocess.SubprocessError)] *)
Definition not_ready (c : exn_class) : bool :=
  is_oserror c || match c with ValueError | UnicodeError | SubprocessError => true | _ => false end.
Definition is_timeout (c : exn_class) : bool := match c with SubprocessError => true | _ => false end.

Section observe.
Context {W : Type} (monotonic : M W Z) (sleep : Z → M W unit) (now : M W pystr) (usb_state : M W pystr).
(** Writing and flushing a line of transitions.jsonl, closing it; [probe] and
    the health file; the log file, [Popen] on it, and [dmesg] with its file. *)
Context (write_note : note → M W unit) (close_notes : M W unit).
Context (health : M (logged W) (dict field)) (write_health : dict field → M W unit).
Context (open_log : M W unit) (popen : M W Z) (dmesg : M (logged W) unit).
(** [poll], [terminate], [wait(timeout=5)] (which raises [TimeoutExpired]) and
    [kill] of the stream. *)
Context (poll : Z → M W (option Z)) (terminate wait kill : Z → M W unit).
Context (deadline interval hang : Z).

Abbreviation T := (watch * logged W)%type.
Definition act {A} (m : M (logged W) A) : M T A := λ '(v, w), let '(r, w') := m w in (r, (v, w')).
Definition locals {A} (k : watch → M T A) : M T A := λ '(v, w), k v (v, w).
Definition update (f : watch → watch) : M T unit := λ '(v, w), (Ok (), (f v, w)).

Definition write (make : pystr → note) : M T unit :=
  t ← act (sys now); act (seen (λ _, Noted (make t)) (write_note (make t))).
Definition note_change (state : pystr) : M T unit :=
  locals (λ v,
    if v.(last_state) == Some state then mret ()
    else
      write (λ t, Usb t state) ;;
      t ← act (seen Clock monotonic);
      update (λ v, Watch v.(prompted) t v.(seen_boot) (Some state) v.(healthy) v.(stream))).
Definition mark_boot (state : pystr) : M T unit :=
  update (λ v, Watch v.(prompted) v.(changed) (v.(seen_boot) || up state) v.(last_state) v.(healthy) v.(stream)).
Definition rescue_for (state : pystr) : M T (option pystr) :=
  if state == ("crashdump" : pystr) then mret (Some ("R2" : pystr))
  else if lost state then
    t ← act (seen Clock monotonic);
    locals (λ v, mret (if hang <? t - v.(changed) then Some ("R1" : pystr) else None))
  else mret None.
Definition prompt (rescue : option pystr) : M T unit :=
  locals (λ v, match rescue with
    | Some p =>
        if is_in p v.(prompted) then mret ()
        else
          update (λ v, Watch (p :: v.(prompted)) v.(changed) v.(seen_boot) v.(last_state) v.(healthy) v.(stream)) ;;
          write (λ t, Rescue t p)
    | None => mret ()
    end).
Definition read_health (state : pystr) : M T unit :=
  locals (λ v,
    if (state == ("target" : pystr)) && negb v.(healthy) then
      catch
        (fields ← act health;
         act (sys (write_health fields)) ;;
         update (λ v, Watch v.(prompted) v.(changed) v.(seen_boot) v.(last_state) true v.(stream)) ;;
         act (sys open_log) ;;
         child ← act (seen Started popen);
         update (λ v, Watch v.(prompted) v.(changed) v.(seen_boot) v.(last_state) v.(healthy) (Some child)) ;;
         act dmesg)
        not_ready (λ _, mret ())
    else mret ()).
Definition reap (state : pystr) : M T unit :=
  locals (λ v, match v.(stream) with
    | Some child =>
        status ← act (λ '(w, l), match poll child w with
                                 | (Ok (Some code), w') => (Ok (Some code), (w', l ++ [Ended child]))
                                 | (r, w') => (r, (w', l)) end);
        match status with
        | Some _ => if state != ("target" : pystr)
                    then update (λ v, Watch v.(prompted) v.(changed) v.(seen_boot) v.(last_state) v.(healthy) None)
                    else mret ()
        | None => mret ()
        end
    | None => mret ()
    end).
Definition observe_round (_ : unit) : M T (unit + unit) :=
  t ← act (seen Clock monotonic);
  if t <? deadline then
    state ← act (seen Polled usb_state);
    note_change state ;;
    mark_boot state ;;
    locals (λ v,
      if (state == ("fastboot" : pystr)) && v.(seen_boot) then act (sys (sleep (3 * SECOND))) ;; mret (inr ())
      else
        rescue ← rescue_for state;
        prompt rescue ;;
        read_health state ;;
        reap state ;;
        act (sys (sleep interval)) ;;
        mret (inl ()))
  else mret (inr ()).
Definition stop : M T unit :=
  act (seen (λ _, Closed) close_notes) ;;
  locals (λ v, match v.(stream) with
    | Some child =>
        act (tried (Terminated child) (terminate child)) ;;
        catch (act (tried (Waited child) (wait child))) is_timeout (λ _, act (made (Killed child) (kill child)))
    | None => mret ()
    end).
End observe.

Section run.
Context {W : Type} (monotonic : M W Z) (sleep : Z → M W unit) (now : M W pystr) (usb_state : M W pystr).
Context (open_notes : M W unit) (write_note : note → M W unit) (close_notes : M W unit).
Context (health : M (logged W) (dict field)) (write_health : dict field → M W unit).
Context (open_log : M W unit) (popen : M W Z) (dmesg : M (logged W) unit).
Context (poll : Z → M W (option Z)) (terminate wait kill : Z → M W unit).
(** [stages.records if stages else None] *)
Context (records : M W (option Z)).
Definition observe_rounds (seconds : Z) : positive := Z.to_pos (seconds * SECOND + 2).
Definition observe_body (seconds interval hang started : Z) : M (watch * logged W) unit :=
  finally
    (while (observe_rounds seconds)
       (observe_round monotonic sleep now usb_state write_note health write_health open_log popen dmesg poll
          (started + seconds * SECOND) interval hang) ())
    (stop close_notes terminate wait kill).
(** The values of the locals when a program ends normally. *)
Definition with_locals (v : watch) (m : M (watch * logged W) unit) : M (logged W) watch := λ w,
  match m (v, w) with (Ok _, (v', w')) => (Ok v', w') | (Raise e, (_, w')) => (Raise e, w') end.
Definition observe (seconds interval hang : Z) : M (logged W) summary :=
  started ← seen Clock monotonic;
  sys open_notes ;;
  v ← with_locals (Watch [] started false None false None) (observe_body seconds interval hang started);
  n ← sys records;
  mret (Summary v.(last_state) v.(healthy) (sorted v.(prompted)) n).

(** ** The early-record receiver

    One connection: nothing came, the socket failed, or a peer; the data is
    what [recv] gives until it gives nothing, fails or 4096 bytes are there. *)
Inductive accepted := Nobody | Broken | Peer (address : pystr).
Context (stopped : M W bool) (accept : M W accepted) (recv : Z → M W bytes) (peer : pystr).
Definition RECORD_MAX : Z := 4096.
Definition receive_round (data : bytes) : M W (bytes + bytes) :=
  if len data <? RECORD_MAX then
    catch (chunk ← recv (RECORD_MAX - len data); mret (if (chunk : bytes) == [] then inr data else inl (data ++ chunk)))
      is_oserror (λ _, mret (inr data))
  else mret (inr data).
Definition receive : M W bytes := while 4097 receive_round [].
Definition block (t : pystr) (data : bytes) : bytes := "--- " ++ t ++ [LF] ++ data ++ [LF].
(** [records], [last] and the bytes of stages.log. *)
Record receiver := Receiver { r_records : Z; r_last : option bytes; r_log : bytes }.
Context (append : bytes → M W unit).
Definition receiver_round (s : receiver) : M W (receiver + receiver) :=
  stop ← stopped;
  if (stop : bool) then mret (inr s)
  else
    who ← accept;
    match who with
    | Nobody => mret (inl s)
    | Broken => mret (inr s)
    | Peer address =>
        if address != peer then mret (inl s)
        else
          data ← receive;
          if (data == []) || (s.(r_last) == Some data) then mret (inl s)
          else
            t ← now;
            append (block t data) ;;
            mret (inl (Receiver (s.(r_records) + 1) (Some data) (s.(r_log) ++ block t data)))
    end.
(** The thread after at most [p] connections. *)
Definition receive_records (p : positive) : M W (receiver + receiver) := rounds p receiver_round (Receiver 0 None []).
End run.

(** ** The commands *)
Section commands.
Context {W : Type} (nmcli firewall interface : pystr) (run_host : list pystr → M W (Z * pystr * pystr)).
Context (monotonic : M W Z) (sleep : Z → M W unit) (usb_state : M W pystr) (identity_ : M W identity).
Context (run_fastboot : list pystr → M W (Z * pystr)) (ssh : pystr → pystr → M (logged W) (Z * pystr * pystr)).

Definition FASTBOOT_MODES : dict pystr :=
  [("reboot" : pystr, "systemctl reboot" : pystr);
   ("helper" : pystr, "sync; sync; exec /run/initramfs/usr/libexec/rog5-reboot-bootloader" : pystr)].
(** [while time.monotonic() < deadline]: until the port shows one of the
    states wanted. *)
Definition wait_round (wanted : pystr → bool) (pause deadline : Z) (_ : unit) : M W (unit + option pystr) :=
  t ← monotonic;
  if t <? deadline then
    state ← usb_state;
    if wanted state then mret (inr (Some state)) else sleep pause ;; mret (inl ())
  else mret (inr None).
Definition wait_rounds (wait : Z) : positive := Z.to_pos (wait * SECOND + 2).
Definition wait_for (wanted : pystr → bool) (pause wait : Z) (failure : pystr) : M W pystr :=
  started ← monotonic;
  found ← while (wait_rounds wait) (wait_round wanted pause (started + wait * SECOND)) ();
  match found with
  | Some state => mret state
  | None => state ← usb_state; raise ValueError (failure ++ state)
  end.
Definition fastboot_reboot (wait : Z) : M W pystr :=
  identity_ ;;
  '(code, _) ← run_fastboot ["reboot" : pystr];
  check (negb (code =? 0)) ValueError "fastboot reboot failed" ;;
  wait_for up (SECOND / 2) wait "phone did not leave fastboot for the installed chain; last state ".
Definition to_fastboot (address mode : pystr) (wait : Z) : M (logged W) identity :=
  state ← sys usb_state;
  check (state != ("target" : pystr)) ValueError "phone is not a running target on the approved port" ;;
  use_address nmcli interface run_host address ;;
  command ← lift (of_option (dget mode FASTBOOT_MODES) KeyError mode);
  '(code, _, _) ← ssh address command;
  check (negb ((code =? 0) || (code =? 255))) ValueError "target refused the reboot request" ;;
  sys (wait_for (λ s, s == ("fastboot" : pystr)) SECOND wait "phone did not reach fastboot within the wait; last state ") ;;
  sys identity_.

(** [boot] and [observe] of main: the evidence directory, the receiver, the
    host's network and the summary. *)
Context (evidence_is_new : M W bool) (make_evidence : M W unit).
Context (bind : M W unit) (start : M W unit) (close : M W unit).
Context (boot : M W unit) (observe : pystr → M (logged W) summary) (write_summary : summary → M W unit).
Record setup := Setup { stages : bool; staged : bool }.
Abbreviation P := (M (setup * logged W)).
Definition step {A} (m : M (logged W) A) : P A := λ '(v, w), let '(r, w') := m w in (r, (v, w')).
Definition note_setup (v : setup) : P unit := λ '(_, w), (Ok (), (v, w)).
Definition watch_trial (receiver booting : bool) : P summary :=
  (if receiver then
     step (seen (λ _, Bound) bind) ;;
     note_setup (Setup true true) ;;
     step (stage_path nmcli firewall run_host true) ;;
     step (sys start)
   else mret ()) ;;
  (if booting then step (made Booted boot) else mret ()) ;;
  step (observe (if receiver then LINK_LOCAL else TARGET)).
Definition clean_up : P unit := λ '(v, w),
  (_ ← (if v.(stages) then step (made Unbound close) else mret ());
   if v.(staged) then step (stage_path nmcli firewall run_host false) else mret ()) (v, w).
Definition drop_setup {A} (m : P A) : M (logged W) A := λ w, let '(r, (_, w')) := m (Setup false false, w) in (r, w').
Definition trial (receiver booting : bool) : M (logged W) summary :=
  fresh ← sys evidence_is_new;
  check (negb fresh) ValueError "evidence must be a new absolute directory" ;;
  sys make_evidence ;;
  result ← drop_setup (finally (watch_trial receiver booting) clean_up);
  sys (write_summary result) ;;
  mret result.
End commands.

(** ** What the events of a watch say *)
Definition polls (k : list event) : list pystr := omap (λ e, match e with Polled s => Some s | _ => None end) k.
Definition usbs (k : list event) : list pystr := omap (λ e, match e with Noted (Usb _ s) => Some s | _ => None end) k.
Definition rescues (k : list event) : list pystr := omap (λ e, match e with Noted (Rescue _ p) => Some p | _ => None end) k.
Definition children (k : list event) : list Z := omap (λ e, match e with Started c => Some c | _ => None end) k.
(** A prompt is due: the crashdump screen, or one and the same lost state for
    longer than [hang] between two readings of the clock. *)
Definition due (hang : Z) (k : list event) (p : pystr) : Prop :=
  (p = "R2" ∧ last (polls k) = Some ("crashdump" : pystr)) ∨
  (p = "R1" ∧ ∃ a b t0 t1 s, k = a ++ Clock t0 :: b ++ [Clock t1] ∧ hang < t1 - t0 ∧ lost s = true ∧
     last (polls k) = Some s ∧ Forall (eq s) (polls b)).
Definition all_due (hang : Z) (k : list event) : Prop := ∀ k1 t p k2, k = k1 ++ Noted (Rescue t p) :: k2 → due hang k1 p.
(** How a stream is put down: it is told to end and its end is waited for,
    and when the wait times out it is killed; only an exception of telling it,
    or another one of waiting, cuts this short. *)
Definition put_down (c : Z) (es : list event) : Prop :=
  (∃ e, es = [Terminated c (Raise e)]) ∨
  es = [Terminated c (Ok ()); Waited c (Ok ())] ∨
  (∃ e, is_timeout e.(exn_cls) = true ∧ es = [Terminated c (Ok ()); Waited c (Raise e); Killed c]) ∨
  (∃ e, is_timeout e.(exn_cls) = false ∧ es = [Terminated c (Ok ()); Waited c (Raise e)]).
(** Every stream was seen to end, or putting it down is the last that was done. *)
Definition no_stream_left (k : list event) : Prop :=
  ∀ c, Started c ∈ k → Ended c ∈ k ∨ ∃ k0 es, k = k0 ++ es ∧ put_down c es.

Lemma squeeze_snoc previous l x :
  squeeze previous (l ++ [x]) = squeeze previous l ++ (if from_option Some previous (last l) == Some x then [] else [x]).
Proof.
  revert previous. induction l as [|y l IH]; intros previous; [simpl; by case_bool_decide |]. cbn [squeeze app].
  assert (from_option Some previous (last (y :: l)) = from_option Some (Some y) (last l)) as E.
  { rewrite last_cons. by destruct (last l). }
  rewrite E. case_bool_decide as Hp; [| by rewrite IH].
  rewrite IH. subst previous. done.
Qed.
Lemma due_all_snoc hang k e : all_due hang k → (∀ t p, e = Noted (Rescue t p) → due hang k p) → all_due hang (k ++ [e]).
Proof.
  intros Hk He k1 t p k2 Heq. destruct k2 as [|e' k2 _] using rev_ind.
  - apply app_inj_tail in Heq as [-> ->]. by eapply He.
  - rewrite app_comm_cons, app_assoc in Heq. apply app_inj_tail in Heq as [Heq _]. by eapply Hk.
Qed.

(** What the locals of [observe] say of its events. *)
Section tracked.
Context (hang : Z).
Record tracked (v : watch) (k : list event) : Prop := Tracked {
  t_usb : usbs k = squeeze None (polls k);
  t_last : v.(last_state) = last (polls k);
  t_seen : v.(seen_boot) = existsb up (polls k);
  t_changed : ∃ a b, k = a ++ Clock v.(changed) :: b ∧ Forall (λ x, v.(last_state) = Some x) (polls b);
  t_prompted : v.(prompted) = reverse (rescues k);
  t_once : NoDup (rescues k);
  t_due : all_due hang k;
  t_healthy : v.(healthy) = false → children k = [];
  t_child c : Started c ∈ k → v.(stream) = Some c ∨ Ended c ∈ k
}.
(** What remains of it wherever an exception strikes. *)
Record partial (v : watch) (k : list event) : Prop := Partial {
  p_usb : usbs k `prefix_of` squeeze None (polls k);
  p_once : NoDup (rescues k);
  p_due : all_due hang k;
  p_child c : Started c ∈ k → v.(stream) = Some c ∨ Ended c ∈ k
}.
Lemma tracked_partial v k : tracked v k → partial v k.
Proof. intros []. split; try done. by rewrite t_usb0. Qed.

Definition quiet (e : event) : Prop := match e with Polled _ | Noted _ | Started _ => False | _ => True end.
Lemma quiet_lists k e : quiet e → polls (k ++ [e]) = polls k ∧ usbs (k ++ [e]) = usbs k ∧ rescues (k ++ [e]) = rescues k ∧
  children (k ++ [e]) = children k ∧ (∀ c, Started c ∈ k ++ [e] ↔ Started c ∈ k).
Proof.
  intros He. unfold polls, usbs, rescues, children. rewrite !omap_app. split_and!; try (destruct e as [| |?| | | |[]| | | | | |]; simpl in *; by rewrite ?app_nil_r).
  intros c. rewrite elem_of_app, list_elem_of_singleton. split; [intros [?|<-]; done | by left].
Qed.
Lemma tracked_quiet v k e : quiet e → tracked v k → tracked v (k ++ [e]).
Proof.
  intros He [H1 H2 H3 (a & b & -> & Hb) H5 H6 H7 H8 H9]. destruct (quiet_lists (a ++ Clock (changed v) :: b) e He) as (E1 & E2 & E3 & E4 & E5).
  split; rewrite ?E1, ?E2, ?E3, ?E4; try done.
  - exists a, (b ++ [e]). rewrite <- app_assoc. split; [done |]. by destruct (quiet_lists b e He) as (-> & _).
  - apply due_all_snoc; [done |]. intros t p ->. done.
  - intros c Hc%E5. destruct (H9 c Hc); [by left | right]. apply elem_of_app. by left.
Qed.
Lemma partial_quiet v k e : quiet e → partial v k → partial v (k ++ [e]).
Proof.
  intros He [H1 H2 H3 H4]. destruct (quiet_lists k e He) as (E1 & E2 & E3 & E4 & E5). split; rewrite ?E1, ?E2, ?E3; try done.
  - apply due_all_snoc; [done |]. intros t p ->. done.
  - intros c Hc%E5. destruct (H4 c Hc); [by left | right]. apply elem_of_app. by left.
Qed.
Lemma tracked_quiets v k es : Forall quiet es → tracked v k → tracked v (k ++ es).
Proof.
  intros He. revert k. induction He as [|e es He _ IH]; intros k Hk; [by rewrite app_nil_r |].
  rewrite cons_middle, app_assoc. apply IH. by apply tracked_quiet.
Qed.
End tracked.

(** ** Watching *)
Definition no_fuel {A} (r : res A) : Prop := match r with Ok _ => True | Raise e => exn_cls e ≠ OutOfFuel end.
Section laws.
Context {W : Type} (clock : W → Z).
(** A call takes time and never fails for want of fuel; a step of the program
    also starts commands. *)
Definition passes {A} (m : M W A) : Prop := ∀ w, wp m (λ r w', clock w ≤ clock w' ∧ no_fuel r) w.
Definition runs {A} (m : M (logged W) A) : Prop := ∀ w l, wp m (λ r t, ∃ es, t.2 = l ++ map Ran es ∧ clock w ≤ clock t.1 ∧ no_fuel r) (w, l).
Definition ticks (monotonic : M W Z) : Prop := ∀ w, wp monotonic (λ r w', clock w ≤ clock w' ∧ match r with Ok t => clock w ≤ t ≤ clock w' | Raise e => exn_cls e ≠ OutOfFuel end) w.
Definition sleeps (sleep : Z → M W unit) : Prop := ∀ d w, 0 < d →
  wp (sleep d) (λ r w', clock w ≤ clock w' ∧ match r with Ok _ => clock w < clock w' | Raise e => exn_cls e ≠ OutOfFuel end) w.

(** A program of [observe] after the events [l0 ++ k]: [P] if it ends
    normally, [E] if it raises. *)
Section goes.
Context (l0 : list event).
Abbreviation T := (watch * logged W)%type.
Definition goes (E : watch → list event → Prop) {A} (m : M T A) (v : watch) (w : W) (k : list event) (P : A → watch → W → list event → Prop) : Prop :=
  wp m (λ r t, ∃ k', t.2.2 = l0 ++ k' ∧ clock w ≤ clock t.2.1 ∧
    match r with Ok a => P a t.1 t.2.1 k' | Raise e => exn_cls e ≠ OutOfFuel ∧ E t.1 k' end) (v, (w, l0 ++ k)).
Lemma goes_ret E {A} (a : A) v w k (P : A → watch → W → list event → Prop) : P a v w k → goes E (mret a) v w k P.
Proof. intros H. exists k. split_and!; [done | simpl; lia | done]. Qed.
Lemma goes_update E f v w k (P : unit → watch → W → list event → Prop) : P () (f v) w k → goes E (update f) v w k P.
Proof. intros H. exists k. split_and!; [done | simpl; lia | done]. Qed.
Lemma goes_locals E {A} (f : watch → M T A) v w k P : goes E (f v) v w k P → goes E (locals f) v w k P.
Proof. done. Qed.
Lemma goes_bind E {A B} (m : M T A) (f : A → M T B) v w k P R :
  goes E m v w k P → (∀ a v' w' k', P a v' w' k' → clock w ≤ clock w' → goes E (f a) v' w' k' R) → goes E (m ≫= f) v w k R.
Proof.
  intros Hm Hf. unfold goes in Hm |- *. apply wp_bind. eapply wp_mono; [exact Hm |].  intros [a|e] [v' [w' l']] (k' & Hl & Hc & H); simpl in *; subst l'; [| by exists k'].
  specialize (Hf a v' w' k' H Hc). unfold goes in Hf. eapply wp_mono; [exact Hf |]. intros r [v2 [w2 l2]] (k2 & Hl & Hc' & H2). exists k2. simpl in *. split_and!; [done | lia | done].
Qed.
Lemma goes_mono E {A} (m : M T A) v w k (P R : A → watch → W → list event → Prop) :
  (∀ a v' w' k', clock w ≤ clock w' → P a v' w' k' → R a v' w' k') → goes E m v w k P → goes E m v w k R.
Proof. intros HPR Hm. unfold goes in Hm |- *. eapply wp_mono; [exact Hm |]. intros [a|e] [v' [w' l']] (k' & Hl & Hc & H); exists k'; split; [done | by split; [| apply HPR] | done | by split]. Qed.
Lemma goes_sys (E : watch → list event → Prop) {A} (m : M W A) v w k (P : A → watch → W → list event → Prop) : passes m → E v k →
  (∀ a w', clock w ≤ clock w' → P a v w' k) → goes E (act (sys m)) v w k P.
Proof.
  intros Hm He HP. specialize (Hm w). unfold goes, wp, act, sys in *. destruct (m w) as [r w']. simpl in *. destruct Hm as [Hc Hr].
  exists k. split_and!; [done | done |]. destruct r; [by apply HP | done].
Qed.
Lemma goes_seen (E : watch → list event → Prop) {A} (ev : A → event) (m : M W A) v w k (P : A → watch → W → list event → Prop) : passes m → E v k →
  (∀ a w', clock w ≤ clock w' → P a v w' (k ++ [ev a])) → goes E (act (seen ev m)) v w k P.
Proof.
  intros Hm He HP. specialize (Hm w). unfold goes, wp, act, seen in *. destruct (m w) as [[a|e] w']; simpl in *; destruct Hm as [Hc Hr].
  - exists (k ++ [ev a]). rewrite app_assoc. split_and!; [done | done |]. by apply HP.
  - by exists k.
Qed.
Lemma goes_made (E : watch → list event → Prop) {A} (ev : event) (m : M W A) v w k (P : A → watch → W → list event → Prop) : passes m → E v (k ++ [ev]) →
  (∀ a w', clock w ≤ clock w' → P a v w' (k ++ [ev])) → goes E (act (made ev m)) v w k P.
Proof.
  intros Hm He HP. specialize (Hm w). unfold goes, wp, act, made in *. destruct (m w) as [r w']. simpl in *. destruct Hm as [Hc Hr].
  exists (k ++ [ev]). rewrite app_assoc. split_and!; [done | done |]. destruct r; [by apply HP | done].
Qed.
Lemma goes_runs (E : watch → list event → Prop) {A} (m : M (logged W) A) v w k (P : A → watch → W → list event → Prop) : runs m →
  (∀ es, E v (k ++ map Ran es)) → (∀ a w' es, clock w ≤ clock w' → P a v w' (k ++ map Ran es)) → goes E (act m) v w k P.
Proof.
  intros Hm He HP. specialize (Hm w (l0 ++ k)). unfold goes, wp, act in *. destruct (m _) as [r [w' l']]. simpl in *. destruct Hm as (es & -> & Hc & Hr).
  exists (k ++ map Ran es). rewrite app_assoc. split_and!; [done | done |]. destruct r; [by apply HP | done].
Qed.
Lemma goes_clock (E : watch → list event → Prop) monotonic v w k (P : Z → watch → W → list event → Prop) : ticks monotonic → E v k →
  (∀ t w', clock w ≤ t ≤ clock w' → P t v w' (k ++ [Clock t])) → goes E (act (seen Clock monotonic)) v w k P.
Proof.
  intros Hm He HP. specialize (Hm w). unfold goes, wp, act, seen in *. destruct (monotonic w) as [[t|e] w']; simpl in *; destruct Hm as [Hc Hr].
  - exists (k ++ [Clock t]). rewrite app_assoc. split_and!; [done | done |]. by apply HP.
  - by exists k.
Qed.
Lemma goes_catch (E E' : watch → list event → Prop) {A} (m : M T A) cs h v w k P : goes E' m v w k P →
  (∀ v' k', E' v' k' → E v' k') → (∀ e v' w' k', E' v' k' → clock w ≤ clock w' → goes E (h e) v' w' k' P) → goes E (catch m cs h) v w k P.
Proof.
  intros Hm He Hh. unfold goes in Hm |- *. apply wp_catch. eapply wp_mono; [exact Hm |].
  intros [a|e] [v' [w' l']] (k' & Hl & Hc & H); simpl in *; subst l'; [by exists k' |]. destruct H as [Hf H]. destruct (cs _); [| by exists k'; auto].
  specialize (Hh e v' w' k' H Hc). unfold goes in Hh. eapply wp_mono; [exact Hh |]. intros r [v2 [w2 l2]] (k2 & Hl & Hc' & H2). exists k2. simpl in *. split_and!; [done | lia | done].
Qed.
End goes.
End laws.

Section watching.
Context {W : Type} (clock : W → Z).
Context (monotonic : M W Z) (sleep : Z → M W unit) (now : M W pystr) (usb_state : M W pystr).
Context (open_notes : M W unit) (write_note : note → M W unit) (close_notes : M W unit).
Context (health : M (logged W) (dict field)) (write_health : dict field → M W unit).
Context (open_log : M W unit) (popen : M W Z) (dmesg : M (logged W) unit).
Context (poll : Z → M W (option Z)) (terminate wait kill : Z → M W unit) (records : M W (option Z)).
Context (seconds interval hang : Z).
Record watchable : Prop := Watchable {
  w_clock : ticks clock monotonic; w_sleep : sleeps clock sleep; w_interval : 0 < interval;
  w_now : passes clock now; w_usb : passes clock usb_state; w_open : passes clock open_notes;
  w_write n : passes clock (write_note n); w_close : passes clock close_notes;
  w_health : runs clock health; w_save f : passes clock (write_health f);
  w_log : passes clock open_log; w_popen : passes clock popen; w_dmesg : runs clock dmesg;
  w_poll c : passes clock (poll c); w_terminate c : passes clock (terminate c);
  w_wait c : passes clock (wait c); w_kill c : passes clock (kill c); w_records : passes clock records
}.
Context (Laws : watchable) (l0 : list event).
Abbreviation goes := (goes clock l0).
Abbreviation tracked := (tracked hang).
Abbreviation partial := (partial hang).
Lemma passes_sleep d : 0 < d → passes clock (sleep d).
Proof using Laws. intros Hd w. eapply wp_mono; [by apply (w_sleep Laws) |]. intros [u|e] w' [? ?]; done. Qed.

(** One look at the port: the change of state is on record, the clock was read
    after it. *)
Definition looked (state : pystr) (v : watch) (k : list event) : Prop := tracked v k ∧ last (polls k) = Some state.
Lemma look_goes (k : list event) v w state : tracked v k →
  goes partial (note_change monotonic now write_note state ;; mark_boot state) v w (k ++ [Polled state]) (λ _ v' _ k', looked state v' k').
Proof using Laws.
  intros [H1 H2 H3 (a & b & Hk & Hb) H5 H6 H7 H8 H9].
  assert (polls (k ++ [Polled state]) = polls k ++ [state]) as Ep by (unfold polls; by rewrite omap_app).
  assert (∀ e, e = Polled state ∨ (∃ t, e = Noted (Usb t state)) → children [e] = [] ∧ rescues [e] = [] ∧ ∀ c, Started c ≠ e) as Hev by naive_solver.
  assert (squeeze None (polls k ++ [state]) = squeeze None (polls k) ++ (if last (polls k) == Some state then [] else [state])) as Esq.
  { rewrite squeeze_snoc. by destruct (last (polls k)). }
  assert (partial v (k ++ [Polled state])) as Hpart.
  { split; [| unfold rescues; by rewrite omap_app, app_nil_r | apply due_all_snoc; [done | by intros ? ? [=]] |].
    - rewrite Ep, Esq. unfold usbs. rewrite omap_app. simpl. rewrite app_nil_r. fold (usbs k). rewrite H1. by eexists.
    - intros c [Hc|Hc%list_elem_of_singleton]%elem_of_app; [| done]. destruct (H9 c Hc); [by left | right]. apply elem_of_app. by left. }
  eapply goes_bind with (P := λ _ v' _ k', last_state v' = Some state ∧ tracked (Watch (prompted v') (changed v') (seen_boot v' || up state) (last_state v') (healthy v') (stream v')) k' ∧ last (polls k') = Some state).
  2: { intros [] v' w' k' (Hl & Ht & Hs) _. by apply goes_update. }
  apply goes_locals. destruct (last_state v == Some state) eqn:Hsame; b2p.
  - apply goes_ret. split_and!; [done | | by rewrite Ep, last_snoc].
    assert (last (polls k) = Some state) as Hl by congruence.
    split; simpl; try done.
    + rewrite Ep, Esq, Hl, bool_decide_eq_true_2 by done. unfold usbs. rewrite omap_app. simpl. by rewrite !app_nil_r.
    + by rewrite Ep, last_snoc.
    + rewrite Ep, existsb_app, H3. simpl. by rewrite orb_false_r.
    + exists a, (b ++ [Polled state]). rewrite Hk, <- app_assoc. split; [done |]. unfold polls. rewrite omap_app. apply Forall_app. split; [done |]. by constructor.
    + unfold rescues. by rewrite omap_app, app_nil_r.
    + unfold rescues. by rewrite omap_app, app_nil_r.
    + apply Hpart.
    + intros Hh. unfold children. rewrite omap_app, app_nil_r. by apply H8.
    + apply Hpart.
  - assert (last (polls k) ≠ Some state) as Hl by congruence.
    apply goes_bind with (P := λ _ v' _ k', v' = v ∧ ∃ t, k' = k ++ [Polled state] ++ [Noted (Usb t state)]).
    { eapply goes_bind; [apply goes_sys with (P := λ t v' _ k', v' = v ∧ k' = k ++ [Polled state]); [apply Laws | done | done] |].
      intros t v' w' k' [-> ->] _. apply goes_seen; [apply Laws | done |]. intros [] w'' _. split; [done |]. exists t. by rewrite <- app_assoc. }
    intros [] v' w' k' (-> & t & ->) _.
    set (k1 := k ++ [Polled state] ++ [Noted (Usb t state)]).
    assert (polls k1 = polls k ++ [state]) as Ep1 by (unfold k1, polls; by rewrite !omap_app).
    assert (usbs k1 = usbs k ++ [state]) as Eu1 by (unfold k1, usbs; by rewrite !omap_app).
    assert (rescues k1 = rescues k) as Er1 by (unfold k1, rescues; by rewrite !omap_app, !app_nil_r).
    assert (children k1 = children k) as Ec1 by (unfold k1, children; by rewrite !omap_app, !app_nil_r).
    rewrite bool_decide_eq_false_2 in Esq by done.
    assert (all_due hang k1) as Hd1.
    { unfold k1. rewrite app_assoc. apply due_all_snoc; [apply Hpart | by intros ? ? [=]]. }
    assert (∀ c, Started c ∈ k1 → stream v = Some c ∨ Ended c ∈ k1) as Hc1.
    { intros c [Hc|Hc]%elem_of_app; [| simpl in Hc; rewrite !elem_of_cons, elem_of_nil in Hc; by destruct Hc as [?|[?|?]]].
      destruct (H9 c Hc); [by left | right]. apply elem_of_app. by left. }
    assert (partial v k1) as Hp1 by (split; [by rewrite Ep1, Eu1, Esq, H1 | by rewrite Er1 | done | done]).
    eapply goes_bind with (P := λ t' v' _ k', v' = v ∧ k' = k1 ++ [Clock t']).
    { apply goes_clock; [apply Laws | done | done]. }
    intros t' v' w'' k' [-> ->] _. apply goes_update. simpl.
    destruct (quiet_lists k1 (Clock t') I) as (E1 & E2 & E3 & E4 & E5).
    split_and!; [done | | by rewrite E1, Ep1, last_snoc]. split; simpl; rewrite ?E1, ?E2, ?E3, ?E4; try done.
    + by rewrite Ep1, Eu1, Esq, H1.
    + by rewrite Ep1, last_snoc.
    + rewrite Ep1, existsb_app, H3. simpl. by rewrite orb_false_r.
    + by exists k1, [].
    + by rewrite Er1.
    + by rewrite Er1.
    + apply due_all_snoc; [done | by intros ? ? [=]].
    + intros Hh. rewrite Ec1. by apply H8.
    + intros c Hc%E5. destruct (Hc1 c Hc); [by left | right]. apply elem_of_app. by left.
Qed.

Lemma prompt_goes state v w k : looked state v k →
  goes partial (rescue ← rescue_for monotonic hang state; prompt now write_note rescue) v w k (λ _ v' _ k', looked state v' k').
Proof using Laws.
  intros [Ht Hl]. pose proof (tracked_partial _ _ _ Ht) as Hp.
  eapply goes_bind with (P := λ r v' _ k', looked state v k' ∧ v' = v ∧ ∀ p, r = Some p → due hang k' p).
  { unfold rescue_for. destruct (state == "crashdump") eqn:Hcr; b2p.
    - apply goes_ret. split_and!; [done | done |]. intros p [= <-]. left. by rewrite Hl, Hcr.
    - destruct (lost state) eqn:Hlost; [| by apply goes_ret].
      eapply goes_bind; [apply goes_clock with (P := λ t v' _ k', v' = v ∧ k' = k ++ [Clock t]); [apply Laws | done | done] |].
      intros t v' w' k' [-> ->] _. apply goes_locals, goes_ret. destruct (quiet_lists k (Clock t) I) as (E1 & _).
      split_and!; [split; [by apply tracked_quiet | by rewrite E1] | done |]. intros p Hd. destruct (hang <? t - changed v) eqn:Hh; [| done].
      injection Hd as <-. b2p. right. split; [done |]. destruct (t_changed _ _ _ Ht) as (a & b & Hk & Hb).
      exists a, b, (changed v), t, state. rewrite E1. split_and!; [by rewrite Hk, <- app_assoc | done | done | done |].
      eapply Forall_impl; [exact Hb |]. intros x Hx. simpl in Hx. rewrite (t_last _ _ _ Ht), Hl in Hx. congruence. }
  intros r v' w' k' ([Ht' Hl'] & -> & Hdue) _. apply goes_locals. pose proof (tracked_partial _ _ _ Ht') as Hp'.
  destruct r as [p|]; [| by apply goes_ret]. destruct (is_in p (prompted v)) eqn:Hin; [by apply goes_ret |].
  assert (p ∉ rescues k') as Hnew.
  { intros H. assert (is_in p (prompted v) = true) as E; [| congruence]. apply is_in_elem. rewrite (t_prompted _ _ _ Ht'). by apply elem_of_reverse. }
  set (f := λ v : watch, Watch (p :: prompted v) (changed v) (seen_boot v) (last_state v) (healthy v) (stream v)).
  assert (partial (f v) k') as Hpf by (by destruct Hp'; split).
  eapply goes_bind; [apply goes_update with (P := λ _ v2 _ k2, v2 = f v ∧ k2 = k'); done |]. intros [] v2 w2 k2 [-> ->] _.
  unfold write. eapply goes_bind; [apply goes_sys with (P := λ _ v2 _ k2, v2 = f v ∧ k2 = k'); [apply Laws | done | done] |].
  intros t v3 w3 k3 [-> ->] _. apply goes_seen; [apply Laws | done |]. intros [] w4 _.
  assert (rescues (k' ++ [Noted (Rescue t p)]) = rescues k' ++ [p]) as Er by (unfold rescues; by rewrite omap_app).
  assert (polls (k' ++ [Noted (Rescue t p)]) = polls k') as Ep by (unfold polls; by rewrite omap_app, app_nil_r).
  destruct Ht' as [H1 H2 H3 (a & b & -> & Hb) H5 H6 H7 H8 H9]. split; [| by rewrite Ep]. split; rewrite ?Ep, ?Er; simpl; try done.
  - unfold usbs. rewrite omap_app. simpl. rewrite app_nil_r. done.
  - exists a, (b ++ [Noted (Rescue t p)]). rewrite <- app_assoc. split; [done |]. unfold polls. rewrite omap_app. simpl. by rewrite app_nil_r.
  - by rewrite reverse_snoc, H5.
  - apply NoDup_app. split_and!; [done | intros x Hx; rewrite list_elem_of_singleton; by intros -> | apply NoDup_singleton].
  - apply due_all_snoc; [done |]. intros t' p' [= _ <-]. by apply Hdue.
  - intros Hh. unfold children. rewrite omap_app, app_nil_r. by apply H8.
  - intros c [Hc|Hc%list_elem_of_singleton]%elem_of_app; [| done]. destruct (H9 c Hc); [by left | right]. apply elem_of_app. by left.
Qed.

(** Taking the health once, with the stream that follows it. *)
Lemma tracked_healthy v k : tracked v k → tracked (Watch (prompted v) (changed v) (seen_boot v) (last_state v) true (stream v)) k.
Proof. intros []. split; try done. Qed.
Lemma tracked_started v k c : tracked v k → children k = [] →
  tracked (Watch (prompted v) (changed v) (seen_boot v) (last_state v) true (Some c)) (k ++ [Started c]).
Proof.
  intros [H1 H2 H3 (a & b & -> & Hb) H5 H6 H7 H8 H9] Hnone.
  assert (∀ x : event, x = Started c → polls [x] = [] ∧ usbs [x] = [] ∧ rescues [x] = []) as Hx by (by intros x ->).
  destruct (Hx _ eq_refl) as (X1 & X2 & X3). unfold polls, usbs, rescues in *.
  split; simpl; unfold polls, usbs, rescues; rewrite ?omap_app in *; simpl in *; rewrite ?app_nil_r in *; try done.
  - exists a, (b ++ [Started c]). rewrite <- app_assoc. split; [done |]. rewrite omap_app. simpl. by rewrite app_nil_r.
  - apply due_all_snoc; [done | by intros ? ? [=]].
  - intros c' [Hc|Hc]%elem_of_app; [| left; apply list_elem_of_singleton in Hc; congruence]. exfalso.
    assert (c' ∈ children (a ++ Clock (changed v) :: b)) as Hin; [| rewrite Hnone in Hin; by apply elem_of_nil in Hin].
    apply list_elem_of_omap. by exists (Started c').
Qed.
Lemma Forall_ran es : Forall quiet (map Ran es).
Proof. induction es; simpl; by constructor. Qed.
Lemma partial_ran v k es : partial v k → partial v (k ++ map Ran es).
Proof.
  revert k. induction es as [|e es IH]; intros k Hk; [by rewrite app_nil_r |]. simpl. rewrite cons_middle, app_assoc. by apply IH, partial_quiet.
Qed.
Lemma children_ran k es : children (k ++ map Ran es) = children k.
Proof. unfold children. rewrite omap_app. induction es as [|e es IH]; [by rewrite app_nil_r | exact IH]. Qed.
Lemma looked_ran state v k es : looked state v k → looked state v (k ++ map Ran es).
Proof.
  intros [Ht Hl]. split; [apply tracked_quiets; [apply Forall_ran | done] |]. unfold polls in *. rewrite omap_app.
  induction es as [|e es IH]; simpl; [by rewrite app_nil_r | exact IH].
Qed.
Lemma read_health_goes state v w k : looked state v k →
  goes partial (read_health health write_health open_log popen dmesg state) v w k (λ _ v' _ k', looked state v' k').
Proof using Laws.
  intros Hlk. apply goes_locals. destruct ((state == "target") && negb (healthy v)) eqn:Hc; [| by apply goes_ret]. b2p.
  pose proof (t_healthy _ _ _ (proj1 Hlk) H0) as Hnone.
  assert (goes (looked state) (fields ← act health; act (sys (write_health fields)) ;;
     update (λ v, Watch v.(prompted) v.(changed) v.(seen_boot) v.(last_state) true v.(stream)) ;;
     act (sys open_log) ;; child ← act (seen Started popen);
     update (λ v, Watch v.(prompted) v.(changed) v.(seen_boot) v.(last_state) v.(healthy) (Some child)) ;; act dmesg) v w k
    (λ _ v' _ k', looked state v' k')) as Hbody.
  { eapply goes_bind; [apply goes_runs with (P := λ _ v' _ k', v' = v ∧ ∃ es, k' = k ++ map Ran es); [apply Laws | intros; by apply looked_ran | eauto] |].
    intros fields v' w' k' (-> & es & ->) _. apply (looked_ran _ _ _ es) in Hlk. rewrite <- (children_ran _ es) in Hnone.
    generalize dependent (k ++ map Ran es). clear k es. intros k Hlk Hnone.
    eapply goes_bind; [apply goes_sys with (P := λ _ v' _ k', v' = v ∧ k' = k); [apply Laws | done | done] |]. intros [] v' w2 k' [-> ->] _.
    set (v1 := Watch (prompted v) (changed v) (seen_boot v) (last_state v) true (stream v)).
    assert (looked state v1 k) as Hl1 by (destruct Hlk; split; [by apply tracked_healthy | done]).
    eapply goes_bind; [apply goes_update with (P := λ _ v' _ k', v' = v1 ∧ k' = k); done |]. intros [] v' w3 k' [-> ->] _.
    eapply goes_bind; [apply goes_sys with (P := λ _ v' _ k', v' = v1 ∧ k' = k); [apply Laws | done | done] |]. intros [] v' w4 k' [-> ->] _.
    set (v2 := λ c, Watch (prompted v) (changed v) (seen_boot v) (last_state v) true (Some c)).
    assert (∀ c, looked state (v2 c) (k ++ [Started c])) as Hl2.
    { intros c. destruct Hl1 as [H1 H2]. split; [by apply (tracked_started v1) |]. unfold polls. rewrite omap_app, app_nil_r. exact H2. }
    eapply goes_bind; [apply goes_seen with (P := λ c v' _ k', v' = v1 ∧ k' = k ++ [Started c]); [apply Laws | done | done] |]. intros c v' w5 k' [-> ->] _.
    eapply goes_bind; [apply goes_update with (P := λ _ v' _ k', v' = v2 c ∧ k' = k ++ [Started c]); done |]. intros [] v' w6 k' [-> ->] _.
    apply goes_runs; [apply Laws | intros; by apply looked_ran | intros; by apply looked_ran]. }
  eapply goes_catch; [exact Hbody | intros v' k' [Ht _]; by apply tracked_partial |]. intros e v' w' k' Hl _. by apply goes_ret.
Qed.
Lemma reap_goes state v w k : looked state v k → goes partial (reap poll state) v w k (λ _ v' _ k', tracked v' k').
Proof using Laws.
  intros [Ht Hl]. apply goes_locals. destruct (stream v) as [child|] eqn:Hs; [| by apply goes_ret].
  eapply goes_bind with (P := λ r v' _ k', v' = v ∧ tracked v k' ∧ (is_Some r → Ended child ∈ k')).
  { pose proof (w_poll Laws child w) as Hw. unfold RamTrial.goes, wp, act in *. destruct (poll child w) as [[[code|]|e] w']; simpl in *; destruct Hw as [Hc Hf].
    - exists (k ++ [Ended child]). rewrite app_assoc. split_and!; [done | done | done | by apply tracked_quiet |]. intros _. apply elem_of_app. right. by left.
    - exists k. split_and!; [done | done | done | done | by intros []].
    - exists k. split_and!; [done | done | done | by apply tracked_partial]. }
  intros r v' w' k' (-> & Ht' & He) _. destruct r as [code|]; [| by apply goes_ret]. destruct (state != "target"); [| by apply goes_ret].
  apply goes_update. destruct Ht'. split; try done. simpl. intros c Hc. right. destruct (t_child0 c Hc) as [H|H]; [| done].
  rewrite Hs in H. injection H as <-. apply He. by eexists.
Qed.

(** Why the loop ended. *)
Definition over (deadline : Z) (k : list event) : Prop :=
  (∃ t k', k = k' ++ [Clock t] ∧ deadline ≤ t) ∨ (last (polls k) = Some ("fastboot" : pystr) ∧ existsb up (polls k) = true).
Lemma round_goes deadline v w k : tracked v k →
  goes partial (observe_round monotonic sleep now usb_state write_note health write_health open_log popen dmesg poll deadline interval hang ()) v w k
    (λ r v' w' k', tracked v' k' ∧ match r with inl _ => clock w < deadline ∧ clock w < clock w' | inr _ => over deadline k' end).
Proof using Laws.
  intros Ht. pose proof (tracked_partial _ _ _ Ht) as Hp.
  eapply goes_bind; [apply goes_clock with (P := λ t v' w' k', v' = v ∧ k' = k ++ [Clock t] ∧ clock w ≤ t ∧ clock w ≤ clock w'); [apply Laws | done | intros; split_and!; try done; lia] |].
  intros t v' w1 k' (-> & -> & Hct & Hw1) _. apply tracked_quiet with (e := Clock t) in Ht; [| done].
  destruct (t <? deadline) eqn:Htd; b2p; [| apply goes_ret; split; [done | left; eauto]].
  generalize dependent (k ++ [Clock t]). clear k Hp. intros k Ht.
  eapply goes_bind; [apply goes_seen with (P := λ s v' w' k', v' = v ∧ k' = k ++ [Polled s]); [apply Laws | by apply tracked_partial | done] |].
  intros state v' w2 k' [-> ->] Hw2.
  assert (∀ rest (P : unit + unit → watch → W → list event → Prop),
    (∀ v' w' k', looked state v' k' → clock w2 ≤ clock w' → goes partial rest v' w' k' P) →
    goes partial (note_change monotonic now write_note state ;; mark_boot state ;; rest) v w2 (k ++ [Polled state]) P) as Hlook.
  { intros rest P Hrest. pose proof (look_goes k v w2 state Ht) as Hlk.
    assert (goes partial ((note_change monotonic now write_note state ;; mark_boot state) ;; rest) v w2 (k ++ [Polled state]) P) as H.
    { eapply goes_bind; [exact Hlk |]. intros [] v' w' k' H Hc. by apply Hrest. }
    unfold RamTrial.goes, wp, mbind, M_mbind in *. destruct (note_change _ _ _ _ _) as [[[]|e] t1]; simpl in *; [| exact H].
    destruct (mark_boot state t1) as [[[]|e] t2]; exact H. }
  apply Hlook. clear Hlook. intros v1 w3 k1 Hl1 Hw3. apply goes_locals. destruct ((state == "fastboot") && seen_boot v1) eqn:Hfb.
  - b2p. eapply goes_bind; [apply goes_sys with (P := λ _ v' _ k', v' = v1 ∧ k' = k1); [by apply passes_sleep | apply tracked_partial, Hl1 | done] |].
    intros [] v' w' k' [-> ->] _. apply goes_ret. destruct Hl1 as [H1 H2]. split; [done |]. right. subst state.
    by rewrite <- (t_seen _ _ _ H1), H2.
  - assert (∀ rest (P : unit + unit → watch → W → list event → Prop),
      (∀ v' w' k', looked state v' k' → clock w3 ≤ clock w' → goes partial rest v' w' k' P) →
      goes partial (rescue ← rescue_for monotonic hang state; prompt now write_note rescue ;; rest) v1 w3 k1 P) as Hprompt.
    { intros rest P Hrest. pose proof (prompt_goes state v1 w3 k1 Hl1) as Hpr.
      assert (goes partial ((rescue ← rescue_for monotonic hang state; prompt now write_note rescue) ;; rest) v1 w3 k1 P) as H.
      { eapply goes_bind; [exact Hpr |]. intros [] v' w' k' H Hc. by apply Hrest. }
      unfold RamTrial.goes, wp, mbind, M_mbind in *. destruct (rescue_for _ _ _ _) as [[r|e] t1]; simpl in *; [| exact H].
      destruct (prompt _ _ _ t1) as [[[]|e] t2]; exact H. }
    apply Hprompt. clear Hprompt. intros v2 w4 k2 Hl2 Hw4.
    eapply goes_bind; [by apply read_health_goes |]. intros [] v3 w5 k3 Hl3 Hw5.
    eapply goes_bind; [by apply (reap_goes state) |]. intros [] v4 w6 k4 Ht4 Hw6.
    pose proof (w_sleep Laws interval w6 (w_interval Laws)) as Hsl.
    eapply goes_bind with (P := λ _ v' w' k', v' = v4 ∧ k' = k4 ∧ clock w6 < clock w').
    { unfold RamTrial.goes, wp, act, sys in *. destruct (sleep interval w6) as [[[]|e] w']; simpl in *; destruct Hsl as [Hc Hf]; exists k4; split_and!; try done.
      by apply tracked_partial. }
    intros [] v5 w7 k5 (-> & -> & Hlt) _. apply goes_ret. split; [done |]. lia.
Qed.

Lemma locals_wp {A} (f : watch → M (watch * logged W) A) Q v t : wp (f v) Q (v, t) → wp (locals f) Q (v, t).
Proof. done. Qed.
Lemma put_down_quiet c es : put_down c es → Forall quiet es.
Proof. intros [[e ->]|[->|[(e & _ & ->)|(e & _ & ->)]]]; by repeat constructor. Qed.
Lemma stop_goes v w k :
  wp (stop close_notes terminate wait kill) (λ r t, ∃ k', t.2.2 = l0 ++ k ++ k' ∧ no_fuel r ∧ t.1 = v ∧
    (k' = [] ∧ is_ok r = false ∨ ∃ es, k' = Closed :: es ∧ match stream v with Some c => put_down c es | None => es = [] end)) (v, (w, l0 ++ k)).
Proof using Laws.
  unfold stop. apply wp_bind. unfold wp at 1, act, seen. pose proof (w_close Laws w) as Hcl. unfold wp in Hcl.
  destruct (close_notes w) as [[[]|e] w1]; simpl in *; destruct Hcl as [_ Hcl]; cycle 1.
  { exists []. rewrite app_nil_r. split_and!; try done. by left. }
  apply locals_wp. cbv beta. destruct (stream v) as [child|].
  2: { unfold wp. simpl. exists [Closed]. rewrite app_assoc. split_and!; try done. right. by exists []. }
  assert (∀ es w' (r : res unit), no_fuel r → put_down child es → ∃ k', (l0 ++ k ++ Closed :: es) = l0 ++ k ++ k' ∧ no_fuel r ∧ (v, (w' : W, l0 ++ k ++ Closed :: es)).1 = v ∧
    (k' = [] ∧ is_ok r = false ∨ ∃ es, k' = Closed :: es ∧ put_down child es)) as Hend.
  { intros es w' r' Hr' Hes. exists (Closed :: es). split_and!; try done. right. by exists es. }
  apply wp_bind. pose proof (w_terminate Laws child w1) as Ht. unfold wp, tried in *. destruct (terminate child w1) as [r w2]. simpl in *. destruct Ht as [_ Ht].
  destruct r as [[]|e]; simpl; [| rewrite <- !app_assoc; apply (Hend _ w2 (Raise e)); [done | left; by exists e]].
  pose proof (w_wait Laws child w2) as Hwt. unfold wp, catch, act, tried in *. destruct (wait child w2) as [[[]|e] w3]; simpl in *; destruct Hwt as [_ Hwt];
    [rewrite <- !app_assoc; apply (Hend _ w3 (Ok ())); [done | by right; left] |].
  destruct (is_timeout (exn_cls e)) eqn:He; [| rewrite <- !app_assoc; apply (Hend _ w3 (Raise e)); [done | do 3 right; by exists e]].
  pose proof (w_kill Laws child w3) as Hk. unfold wp, made in *. destruct (kill child w3) as [r w4]. simpl in *. destruct Hk as [_ Hk].
  rewrite <- !app_assoc. apply (Hend _ w4 r); [done | right; right; left; by exists e].
Qed.

Lemma quiets_lists k es : Forall quiet es → polls (k ++ es) = polls k ∧ usbs (k ++ es) = usbs k ∧ rescues (k ++ es) = rescues k ∧
  (∀ c, Started c ∈ k ++ es ↔ Started c ∈ k).
Proof.
  intros He. revert k. induction He as [|e es He _ IH]; intros k; [by rewrite app_nil_r |].
  rewrite cons_middle, app_assoc. destruct (IH (k ++ [e])) as (-> & -> & -> & E). destruct (quiet_lists k e He) as (-> & -> & -> & _ & E').
  split_and!; [done | done | done |]. intros c. by rewrite E, E'.
Qed.
Lemma due_quiets k es : Forall quiet es → all_due hang k → all_due hang (k ++ es).
Proof.
  intros He. revert k. induction He as [|e es He _ IH]; intros k Hk; [by rewrite app_nil_r |].
  rewrite cons_middle, app_assoc. apply IH, due_all_snoc; [done |]. intros t p ->. done.
Qed.
Lemma ended_children v k es : partial v k → match stream v with Some c => put_down c es | None => es = [] end →
  Forall quiet (Closed :: es) ∧ no_stream_left (k ++ Closed :: es).
Proof.
  intros Hp Hes. assert (Forall quiet (Closed :: es)) as Hq by (constructor; [done |]; destruct (stream v); [by eapply put_down_quiet | by subst]).
  split; [done |]. intros c. destruct (quiets_lists k _ Hq) as (_ & _ & _ & ->). intros H. destruct (p_child _ _ _ Hp c H) as [H1|H1].
  - right. rewrite H1 in Hes. exists (k ++ [Closed]), es. by rewrite <- app_assoc.
  - left. apply elem_of_app. by left.
Qed.
(** The watch and its end, from the first reading of the clock. *)
Lemma body_wp w started : started ≤ clock w → wp (observe_body monotonic sleep now usb_state write_note close_notes health write_health open_log popen dmesg
    poll terminate wait kill seconds interval hang started)
  (λ r t, ∃ k es, t.2.2 = l0 ++ k ++ es ∧ Forall quiet es ∧ partial t.1 k ∧ (es = [] ∨ Closed ∈ es ∧ no_stream_left (k ++ es)) ∧
    match r with Ok _ => tracked t.1 k ∧ over (started + seconds * SECOND) k ∧ Closed ∈ es | Raise e => exn_cls e ≠ OutOfFuel end)
  (Watch [] started false None false None, (w, l0 ++ [Clock started])).
Proof using Laws.
  intros Hst. unfold observe_body. apply wp_finally.
  assert (tracked (Watch [] started false None false None) [Clock started]) as H0.
  { split; simpl; try done; [by exists [], [] | constructor | |].
    - intros k1 t p k2 H. by destruct k1 as [|? [|]].
    - intros c Hc%list_elem_of_singleton. done. }
  set (deadline := started + seconds * SECOND).
  eapply wp_mono with (Q := λ r t, ∃ k, t.2.2 = l0 ++ k ∧
    match r with Ok _ => tracked t.1 k ∧ over deadline k | Raise e => exn_cls e ≠ OutOfFuel ∧ partial t.1 k end).
  2: { intros r [v [w' l]] (k & Hl0 & Hr). simpl in Hl0, Hr. subst l.
    assert (partial v k) as Hp by (destruct r; [apply tracked_partial, Hr | apply Hr]).
    eapply wp_mono; [apply (stop_goes v w' k) |]. intros r' [v2 [w2 l2]] (es & Hl & Hf & -> & Hok). simpl in *.
    assert (∃ k es, l2 = l0 ++ k ++ es ∧ Forall quiet es ∧ partial v k ∧ (es = [] ∨ Closed ∈ es ∧ no_stream_left (k ++ es)) ∧
      match r' with Ok _ => match r with Ok _ => tracked v k ∧ over deadline k ∧ Closed ∈ es | Raise e => exn_cls e ≠ OutOfFuel end | Raise e => exn_cls e ≠ OutOfFuel end) as H;
      [| by destruct r'].
    exists k, es. destruct Hok as [[-> H]|(down & -> & [Hq Hs]%(ended_children v k))]; [by destruct r'; split_and!; try done; left | | done].
    split_and!; try done; [right; by split; [left |] |].
    destruct r' as [[]|e']; [| done]. destruct r as [[]|e]; [| apply Hr]. split; [apply Hr |]. split; [apply Hr | left]. }
  apply wp_while with (Inv := λ _ t, ∃ k, t.2.2 = l0 ++ k ∧ tracked t.1 k ∧ started ≤ clock t.2.1) (μ := λ _ t, Z.max 0 (deadline - clock t.2.1)).
  - intros [] [v [w' l]] (k & Hl & Ht & Hs). simpl in Hl, Ht, Hs. subst l. split; [lia |]. eapply wp_mono; [by apply (round_goes deadline v w' k) |].
    intros [[[]|[]]|e] [v2 [w2 l2]] (k2 & Hl2 & Hc & H); simpl in *; subst l2.
    + destruct H as (H1 & H2 & H3). split; [exists k2; split_and!; [done | done | lia] | lia].
    + by exists k2.
    + by exists k2.
  - by exists [Clock started].
  - simpl. unfold observe_rounds, deadline. unfold SECOND. lia.
Qed.
Lemma wp_with_locals v (m : M (watch * logged W) unit) (Q : res watch → logged W → Prop) w :
  wp m (λ r t, match r with Ok _ => Q (Ok t.1) t.2 | Raise e => Q (Raise e) t.2 end) (v, w) → wp (with_locals v m) Q w.
Proof. unfold wp, with_locals. by destruct (m (v, w)) as [[[]|e] [v' w']]. Qed.
Lemma over_earlier d d' k : d ≤ d' → over d' k → over d k.
Proof. intros Hd [(t & k' & Hk & Ht)|H]; [left; exists t, k'; split; [done | lia] | by right]. Qed.
End watching.

(** A phone that boots the trial, is reached and comes back to fastboot. *)
Definition e_world : Type := Z * list pystr.
Definition e_pass {A} (a : A) : M e_world A := mret a.
Definition e_clock : M e_world Z := λ w, (Ok w.1, w).
Definition e_sleep (d : Z) : M e_world unit := λ w, (Ok (), (w.1 + d, w.2)).
Definition e_usb : M e_world pystr := λ w,
  match w.2 with [] => (Raise (Exn OSError ""), w) | s :: l => (Ok s, (w.1, l)) end.
Definition e_fields : dict field := [("release" : pystr, One "6.12")].
Definition e_health : M (logged e_world) (dict field) := made (Ran ["ssh" : pystr]) (e_pass e_fields).
Definition e_phone : e_world := (0, ["absent" : pystr; "recovery" : pystr; "target" : pystr; "target" : pystr; "crashdump" : pystr; "fastboot" : pystr]).
Definition e_observe : M (logged e_world) summary :=
  observe e_clock e_sleep (e_pass ("now" : pystr)) e_usb (e_pass ()) (λ _, e_pass ()) (e_pass ()) e_health (λ _, e_pass ())
    (e_pass ()) (e_pass 7) (sys (e_pass ())) (λ _, e_pass None) (λ _, e_pass ()) (λ _, e_pass ()) (λ _, e_pass ()) (e_pass None) 600 SECOND (240 * SECOND).
Lemma e_passes {A} (a : A) : passes fst (e_pass a).
Proof. intros w. split; [simpl; lia | done]. Qed.
Lemma e_watchable : watchable fst e_clock e_sleep (e_pass ("now" : pystr)) e_usb (e_pass ()) (λ _, e_pass ()) (e_pass ()) e_health (λ _, e_pass ())
    (e_pass ()) (e_pass 7) (sys (e_pass ())) (λ _, e_pass None) (λ _, e_pass ()) (λ _, e_pass ()) (λ _, e_pass ()) (e_pass None) SECOND.
Proof.
  split; intros; try apply e_passes; try done.
  - intros d w Hd. split; simpl; lia.
  - intros [t [|s l]]; split; simpl; try lia; done.
  - intros w l. exists [["ssh" : pystr]]. simpl. split_and!; [done | lia | done].
  - intros w l. exists []. simpl. rewrite app_nil_r. split_and!; [done | lia | done].
Qed.
Definition e_before : list event := [Booted].

(** ** Waiting for a state, and one early record *)
Section waits.
Context {W : Type} (clock : W → Z) (monotonic : M W Z) (sleep : Z → M W unit) (usb_state : M W pystr).
(** Waiting ends: with a wanted state, or with a refusal once the time is
    over, or with the exception of a call. *)
Lemma wait_for_ends wanted pause wait_ failure w : ticks clock monotonic → sleeps clock sleep → passes clock usb_state → 0 < pause →
  wp (wait_for monotonic sleep usb_state wanted pause wait_ failure)
    (λ r w', match r with Ok s => wanted s = true | Raise e => exn_cls e ≠ OutOfFuel end) w.
Proof.
  intros Hc Hs Hu Hp. unfold wait_for. apply wp_bind. eapply wp_mono; [apply Hc |]. intros [t0|e] w0 [H0 Ht0]; [| done].
  set (deadline := t0 + wait_ * SECOND). apply wp_bind.
  eapply wp_mono with (Q := λ r _, match r with Ok (Some s) => wanted s = true | Ok None => True | Raise e => exn_cls e ≠ OutOfFuel end).
  2: { intros [[s|]|e] w1 Hr; [done | | done]. apply wp_bind. eapply wp_mono; [apply Hu |]. by intros [s|e] w2 [_ H]. }
  apply wp_while with (Inv := λ _ _, True) (μ := λ _ w, Z.max 0 (deadline - clock w)); [| done | unfold wait_rounds, deadline, SECOND; lia].
  intros [] w1 _. split; [lia |]. apply wp_bind. eapply wp_mono; [apply Hc |]. intros [t|e] w2 [Hle2 Ht2]; [| done].
  destruct (t <? deadline) eqn:Hlt; b2p; [| done]. apply wp_bind. eapply wp_mono; [apply Hu |]. intros [s|e] w3 [Hle3 Hs3]; [| done].
  destruct (wanted s) eqn:Hw; [by apply wp_mret |]. apply wp_bind. eapply wp_mono; [by apply Hs |]. intros [[]|e] w4 [Hle4 Hs4]; [| done].
  apply wp_mret. split; [done |]. lia.
Qed.
(** A record is never longer than 4096 bytes, and reading it ends. *)
Lemma receive_bounded (recv : Z → M W bytes) w :
  (∀ n w, 0 < n → wp (recv n) (λ r _, match r with Ok b => len b ≤ n | Raise e => exn_cls e ≠ OutOfFuel end) w) →
  wp (receive recv) (λ r _, match r with Ok b => len b ≤ RECORD_MAX | Raise e => exn_cls e ≠ OutOfFuel end) w.
Proof.
  intros Hr. apply wp_while with (Inv := λ data _, len data ≤ RECORD_MAX) (μ := λ data _, RECORD_MAX - len data); [| done | done].
  intros data w' Hd. split; [lia |]. unfold receive_round. destruct (len data <? RECORD_MAX) eqn:Hl; b2p; [| done].
  apply wp_catch, wp_bind. eapply wp_mono; [apply Hr; lia |]. intros [b|e] w2 H; [| destruct (is_oserror _); done].
  apply wp_mret. case_bool_decide as Hb; [done |]. rewrite len_app. destruct b as [|c b]; [done |]. unfold len in *. simpl in *. lia.
Qed.
End waits.

(** ** The trial leaves the host as it was *)
Section cleaning.
Context {W : Type} (nmcli firewall : pystr) (run_host : list pystr → M W (Z * pystr * pystr)).
Context (evidence_is_new : M W bool) (make_evidence bind start close boot : M W unit).
Context (observe : pystr → M (logged W) summary) (write_summary : summary → M W unit).
Abbreviation on := (Ran (profile_on nmcli)).
Abbreviation show := (Ran [nmcli; "-g" : pystr; "connection.autoconnect,connection.zone,ipv4.addresses" : pystr; "connection" : pystr; "show" : pystr; FALLBACK]).
Abbreviation rule := (Ran (rule_on firewall)).
Abbreviation off := (Ran (profile_off nmcli)).
Abbreviation unrule := (Ran (rule_off firewall)).
Definition appends {A} (m : M (logged W) A) : Prop := ∀ w l, wp m (λ _ t, l `prefix_of` t.2) (w, l).

Lemma host_wp argv w l : wp (host run_host argv) (λ _ t, t.2 = l ++ [Ran argv]) (w, l).
Proof. unfold wp, host, made. by destruct (run_host argv w). Qed.
Lemma host_run_wp argv why w l : wp (host_run run_host argv why) (λ _ t, t.2 = l ++ [Ran argv]) (w, l).
Proof.
  apply wp_bind. eapply wp_mono; [apply host_wp |]. intros [[[code out] all]|e] [w' l'] H; [| done]. simpl in H. subst l'.
  apply wp_bind, wp_check; done.
Qed.
Lemma stage_on_wp w l : wp (stage_path nmcli firewall run_host true)
  (λ r t, ∃ k, t.2 = l ++ k ∧ k `prefix_of` [on; show; rule] ∧ (is_ok r = true → k = [on; show; rule])) (w, l).
Proof.
  apply wp_bind. eapply wp_mono; [apply host_run_wp |]. intros [u|e] [w1 l1] H1; simpl in H1; subst l1; [| by exists [on]; split_and!; [| eexists |]].
  apply wp_bind. eapply wp_mono; [apply host_run_wp |]. intros [out|e] [w2 l2] H2; simpl in H2; subst l2; rewrite <- app_assoc;
    [| by exists [on; show]; split_and!; [| eexists |]].
  apply wp_bind, wp_check; [intros _; by exists [on; show]; split_and!; [| eexists |] | intros _].
  apply wp_bind. eapply wp_mono; [apply host_run_wp |]. intros [u'|e] [w3 l3] H3; simpl in H3; subst l3; rewrite <- app_assoc; by exists [on; show; rule].
Qed.
Lemma stage_off_wp w l : wp (stage_path nmcli firewall run_host false)
  (λ r t, t.2 = l ++ [off; unrule] ∨ (t.2 = l ++ [off] ∧ ∃ x w0, r = Raise x ∧ run_host (profile_off nmcli) w0 = (Raise x, t.1))) (w, l).
Proof.
  apply wp_bind. unfold wp at 1, host, made. destruct (run_host (profile_off nmcli) w) as [[u|e] w1] eqn:Hr; simpl; [| right; split; [done |]; by exists e, w].
  apply wp_bind. eapply wp_mono; [apply host_wp |]. intros [u'|e] [w2 l2] H2; simpl in H2; subst l2; rewrite <- app_assoc; by left.
Qed.

(** What [main] does before the trial: the socket, the profile, the rule. *)
Definition opening (receiver : bool) : list event := if receiver then [Bound; on; show; rule] else [].
Definition watched (receiver booting : bool) (v : setup) (k : list event) : Prop :=
  (k = [] ∧ v = Setup false false ∨ v = Setup receiver receiver) ∧
  (k `prefix_of` opening receiver ∨ ∃ seen, k = opening receiver ++ (if booting then [Booted] else []) ++ seen).
Lemma wp_step {A} (m : M (logged W) A) Q v w l : wp m (λ r t, Q r (v, t)) (w, l) → wp (step m) Q (v, (w, l)).
Proof. unfold wp, step. by destruct (m (w, l)). Qed.
Lemma watch_trial_wp receiver booting w l : (∀ a, appends (observe a)) →
  wp (watch_trial nmcli firewall run_host bind start boot observe receiver booting)
    (λ _ t, ∃ k, t.2.2 = l ++ k ∧ watched receiver booting t.1 k) (Setup false false, (w, l)).
Proof.
  intros Ho. unfold watch_trial. apply wp_bind.
  assert (∀ w, wp (mbind (M := M (setup * logged W)) (λ _ : unit, step (observe (if receiver then LINK_LOCAL else TARGET))) (if booting then step (made Booted boot) else mret ()))
    (λ _ t, ∃ k, t.2.2 = l ++ k ∧ watched receiver booting t.1 k) (Setup receiver receiver, (w, l ++ opening receiver))) as Hrest.
  { intros w1. apply wp_bind. eapply wp_mono with (Q := λ r t, t.1 = Setup receiver receiver ∧ t.2.2 = l ++ opening receiver ++ (if booting then [Booted] else [])).
    { destruct booting; [| unfold wp; simpl; by rewrite app_nil_r]. unfold wp, step, made. destruct (boot w1). simpl. by rewrite <- app_assoc. }
    intros [u|e] [v [w2 l2]] [Hv Hl]; simpl in *; subst v l2.
    - apply wp_step. eapply wp_mono; [apply Ho |]. intros r [w3 l3] [seen Hl]. simpl in *. eexists. rewrite Hl, <- !app_assoc. split; [done |].
      split; [by right |]. right. by eexists.
    - eexists. split; [done |]. split; [by right |]. right. exists []. by rewrite app_nil_r. }
  destruct receiver; [| unfold opening in Hrest; rewrite app_nil_r in Hrest; apply wp_mret, Hrest].
  apply wp_bind, wp_step. unfold wp at 1, seen. destruct (bind w) as [[[]|e] w1]; simpl.
  2: { exists []. rewrite app_nil_r. split; [done |]. split; [by left |]. left. apply prefix_nil. }
  apply wp_bind. unfold note_setup at 1, wp at 1. simpl. apply wp_bind, wp_step. eapply wp_mono; [apply stage_on_wp |].
  assert (∀ k, k `prefix_of` [on; show; rule] → watched true booting (Setup true true) (Bound :: k)) as Hpre.
  { intros k Hk. split; [by right |]. left. by apply prefix_cons. }
  intros [u|e] [w2 l2] (k & Hl & Hk & Hok); simpl in *; subst l2.
  - rewrite (Hok eq_refl), <- app_assoc in *. apply wp_step. unfold wp at 1, sys. destruct (start w2) as [[[]|e] w3]; simpl.
    + apply Hrest.
    + exists [Bound; on; show; rule]. split; [done |]. by apply Hpre.
  - exists (Bound :: k). rewrite <- app_assoc. split; [done |]. by apply Hpre.
Qed.
(** The clean-up: the socket closed, the profile switched back, the rule
    removed; the run stops on the way only with the exception of closing, or of
    running the first command. *)
Definition cleaned {A} (r : res A) (w : W) (e : list event) : Prop :=
  e = [Unbound; off; unrule] ∨
  ∃ x w0, r = Raise x ∧ (e = [Unbound] ∧ close w0 = (Raise x, w) ∨ e = [Unbound; off] ∧ run_host (profile_off nmcli) w0 = (Raise x, w)).
Lemma clean_up_wp (b : bool) w l : wp (clean_up nmcli firewall run_host close)
  (λ r t, ∃ e, t.2.2 = l ++ e ∧ if b then cleaned r t.2.1 e else e = []) (Setup b b, (w, l)).
Proof.
  destruct b; [| by exists []; rewrite app_nil_r].
  change (wp (mbind (M := M (setup * logged W)) (λ _ : unit, step (stage_path nmcli firewall run_host false)) (step (made Unbound close)))
    (λ r t, ∃ e, t.2.2 = l ++ e ∧ cleaned r t.2.1 e) (Setup true true, (w, l))).
  apply wp_bind, wp_step. unfold wp at 1, made. destruct (close w) as [[[]|e] w1] eqn:Hc; simpl.
  2: { exists [Unbound]. split; [done |]. right. exists e, w. split; [done | by left]. }
  apply wp_step. eapply wp_mono; [apply stage_off_wp |]. intros r [w2 l2] [Hl|(Hl & x & w0 & Hr & Hx)]; simpl in *; subst l2; rewrite <- app_assoc;
    eexists; (split; [reflexivity |]); [by left |]. right. exists x, w0. split; [done | by right].
Qed.

(** C40. Whatever fails, [main] reverts the host's network: once the
    early-record socket is bound, be it that switching the profile or adding
    the firewall rule then fails half-way, the run ends with closing the
    socket, switching the profile back and removing the rule, in this order.
    Only the exception of closing, or of running the command that switches
    back, cuts this short, and it is then what the run ends with.  The phone is
    touched only after the socket, the profile and the rule are in place. *)
Theorem trial_cleans_up receiver booting w l : (∀ a, appends (observe a)) →
  let '(r, (w', l')) := trial nmcli firewall run_host evidence_is_new make_evidence bind start close boot observe write_summary receiver booting (w, l) in
  ∃ k e, l' = l ++ k ++ e ∧
    (k `prefix_of` opening receiver ∨ ∃ seen, k = opening receiver ++ (if booting then [Booted] else []) ++ seen) ∧
    (if receiver then k = [] ∧ e = [] ∨ cleaned r w' e else e = []).
Proof.
  intros Ho.
  set (good := λ (r : res summary) (w' : W) (l' : list event), ∃ k e, l' = l ++ k ++ e ∧
    (k `prefix_of` opening receiver ∨ ∃ seen, k = opening receiver ++ (if booting then [Booted] else []) ++ seen) ∧
    (if receiver then k = [] ∧ e = [] ∨ cleaned r w' e else e = [])).
  assert (wp (trial nmcli firewall run_host evidence_is_new make_evidence bind start close boot observe write_summary receiver booting) (λ r t, good r t.1 t.2) (w, l)) as H.
  2: { unfold wp in H. by destruct (trial _ _ _ _ _ _ _ _ _ _ _ _ _ (w, l)) as [r [w' l']]. }
  assert (∀ e w', good (Raise e) w' l) as Hnone.
  { intros e w'. exists [], []. rewrite !app_nil_r. split_and!; [done | left; apply prefix_nil | destruct receiver; auto]. }
  unfold trial. apply wp_bind. unfold wp at 1, sys. destruct (evidence_is_new w) as [[fresh|e] w1]; simpl; [| apply Hnone].
  apply wp_bind, wp_check; [intros; apply Hnone | intros _].
  apply wp_bind. unfold wp at 1, sys. destruct (make_evidence w1) as [[[]|e] w2]; simpl; [| apply Hnone].
  apply wp_bind. eapply wp_mono with (Q := λ r t, good r t.1 t.2).
  2: { intros [s|e] [w3 l3] Hg; [| done]. apply wp_bind. destruct Hg as (k & e' & H1 & H2 & H3). simpl in *.
    assert (∀ (r : res summary) w4, good r w4 l3) as Hg; [| unfold wp at 1, sys; destruct (write_summary s w3) as [[[]|e] w4]; simpl; apply Hg].
    intros r w4. exists k, e'. split_and!; [done | done |]. destruct receiver; [| done]. destruct H3 as [?|[->|(x & w0 & [=] & _)]]; [by left | right; by left]. }
  assert (wp (finally (watch_trial nmcli firewall run_host bind start boot observe receiver booting) (clean_up nmcli firewall run_host close))
    (λ r t, good r t.2.1 t.2.2) (Setup false false, (w2, l))) as H.
  2: { unfold wp, drop_setup in *. by destruct (finally _ _ _) as [r [v [w' l']]]. }
  apply wp_finally. eapply wp_mono; [by apply watch_trial_wp |]. intros r [v [w3 l3]] (k & Hl & Hv & Hk). simpl in *. subst l3.
  assert (∃ b, v = Setup b b ∧ (b = false → k = [] ∨ receiver = false) ∧ (b = true → receiver = true)) as (b & -> & Hb1 & Hb2).
  { destruct Hv as [[-> ->]| ->]; [exists false; split_and!; auto; done | exists receiver; split_and!; auto]. }
  eapply wp_mono; [apply clean_up_wp |]. intros r' [v' [w4 l4]] (e & Hl & He). simpl in *. subst l4.
  assert (∀ r2 : res summary, (∀ x, r' = Raise x → r2 = Raise x) → good r2 w4 ((l ++ k) ++ e)) as Hgood.
  { intros r2 Hr2. exists k, e. rewrite <- app_assoc. split_and!; [done | done |]. destruct b.
    - rewrite (Hb2 eq_refl). right. destruct He as [->|(x & w0 & Hr & Hx)]; [by left | right; exists x, w0; by rewrite (Hr2 x)].
    - subst e. destruct receiver; [| done]. destruct (Hb1 eq_refl) as [->|?]; [by left | done]. }
  destruct r' as [[]|e']; apply Hgood; [by intros | by intros x [= <-]].
Qed.
End cleaning.

(** A trial whose firewall rule is refused half-way and one whose watch
    fails: both end with the rule removed. *)
Definition e_host (refused : bool) (argv : list pystr) : M e_world (Z * pystr * pystr) :=
  mret (if refused && (argv == rule_on "firewall-cmd") then 1 else 0, "yes" ++ [LF] ++ "nm-shared" ++ [LF] ++ "169.254.77.1/30", []).
Definition e_watch (address : pystr) : M (logged e_world) summary := raise OSError "gone".
Definition e_trial (refused : bool) : M (logged e_world) summary :=
  trial "nmcli" "firewall-cmd" (e_host refused) (e_pass true) (e_pass ()) (e_pass ()) (e_pass ()) (e_pass ()) (e_pass ()) e_watch (λ _, e_pass ()) true true.
Lemma trial_cleans_up_witness :
  (∀ a, appends (e_watch a)) ∧ last (e_trial false (e_phone, [])).2.2 = Some (Ran (rule_off "firewall-cmd")) ∧
  Booted ∉ (e_trial true (e_phone, [])).2.2 ∧ last (e_trial true (e_phone, [])).2.2 = Some (Ran (rule_off "firewall-cmd")) ∧
  let '(r, (w', l')) := e_trial true (e_phone, []) in
  ∃ k e, l' = [] ++ k ++ e ∧
    (k `prefix_of` opening "nmcli" "firewall-cmd" true ∨ ∃ seen, k = opening "nmcli" "firewall-cmd" true ++ [Booted] ++ seen) ∧
    (k = [] ∧ e = [] ∨ cleaned "nmcli" "firewall-cmd" (e_host true) (e_pass ()) r w' e).
Proof.
  assert (∀ a, appends (e_watch a)) as H by (intros a w l; exists []; by rewrite app_nil_r).
  split; [exact H |]. split; [vm_compute; reflexivity |]. split; [vm_compute; intros Hin; repeat (inversion Hin as [|? ? ? Hin']; subst; clear Hin; rename Hin' into Hin) |].
  split; [vm_compute; reflexivity |].
  exact (trial_cleans_up "nmcli" "firewall-cmd" (e_host true) (e_pass true) (e_pass ()) (e_pass ()) (e_pass ()) (e_pass ()) (e_pass ()) e_watch (λ _, e_pass ()) true true e_phone [] H).
Defined.
