(* ===== verification/ModuleClosure.v ===== *)
(** * The closure of the installed kernel modules

    [module_closure] of scripts/host/check-production-build-diagnostics.py: the
    modules a build installed, against the [modules.builtin] and [modules.dep]
    that depmod wrote.  The entries are the objects of module-provenance.json
    with the four string fields the function reads. *)

From S2P Require Import Prelude PyStr PyData.

Record entry := Entry { e_name : pystr; e_path : pystr; e_vermagic : pystr; e_depends : pystr }.

(** [s.split(sep, 1)[-1]] and [s.split(sep, 1)[0]] for a non-empty [sep]. *)
Fixpoint cut (sep s : pystr) : option (pystr * pystr) :=
  if startswith s sep then Some ([], drop (length sep) s) else
  match s with
  | [] => None
  | c :: s => (λ '(a, b), (c :: a, b)) <$> cut sep s
  end.
Definition after_first (sep s : pystr) : pystr := match cut sep s with Some (_, b) => b | None => s end.
Definition before_first (sep s : pystr) : pystr := match cut sep s with Some (a, _) => a | None => s end.

(** [Path(line).stem]: the last component without its last suffix, where the
    name keeps a dot that is its first or last character. *)
Definition path_name (p : pystr) : pystr := default [] (last (parts p)).
Definition stem (p : pystr) : pystr :=
  let '(suffix, found, before) := partition "." (reverse (path_name p)) in
  if found && (suffix != []) && (before != []) then reverse before else path_name p.

Definition underscores (s : pystr) : pystr := py_replace "-" "_" s.
Definition installed_path (release p : pystr) : pystr := after_first ("/lib/modules/" ++ release ++ "/") p.

(** The three dictionaries and the errors, as the loops leave them. *)
Record census := Census { names : dict entry; paths : dict pystr; errors : list pystr }.
Definition add_error (bad : bool) (e : pystr) (es : list pystr) : list pystr := if bad then es ++ [e] else es.
Definition count_entry (release : pystr) (c : census) (e : entry) : census :=
  let name := underscores e.(e_name) in
  let path := installed_path release e.(e_path) in
  let es := add_error (dmem name c.(names)) ("duplicate module name " ++ name) c.(errors) in
  let es := add_error (dmem path c.(paths)) ("duplicate module path " ++ path) es in
  let es := add_error (head (split_ws e.(e_vermagic)) != Some release) ("vermagic " ++ name) es in
  Census (dset name e c.(names)) (dset path name c.(paths)) es.
Definition builtins (text : pystr) : gset pystr :=
  list_to_set (map (λ line, underscores (stem line)) (filter (λ line, line ≠ []) (splitlines text))).
(** A line of modules.dep. *)
Definition dep_line (paths : dict pystr) (acc : dict (list pystr) * list pystr) (line : pystr) : dict (list pystr) * list pystr :=
  let '(dependencies, es) := acc in
  if negb (count ":" line =? 1) then (dependencies, es ++ ["malformed modules.dep" : pystr]) else
  let '(path, _, raw) := partition ":" line in
  let es := add_error (dmem path dependencies) ("duplicate modules.dep path " ++ path) es in
  (dset path (split_ws raw) dependencies,
   foldl (λ es target, add_error (negb (dmem target paths)) ("unknown modules.dep path " ++ target) es) es (path :: split_ws raw)).
Definition keys {V} (d : dict V) : gset pystr := list_to_set d.*1.
Definition declared (e : entry) : gset pystr := list_to_set (map underscores (filter (λ x, x ≠ []) (split_on "," e.(e_depends)))).
Definition resolved (paths : dict pystr) (deps : list pystr) : gset pystr := list_to_set (omap (λ x, dget x paths) deps).
Definition check_declared (names : dict entry) (paths : dict pystr) (builtin : gset pystr) (dependencies : dict (list pystr))
    (es : list pystr) (pn : pystr * pystr) : list pystr :=
  let '(path, name) := pn in
  let wants := from_option declared ∅ (dget name names) in
  let missing := (wants ∖ keys names) ∖ builtin in
  let es := add_error (missing != ∅) ("missing dependencies for " ++ name ++ ": " ++ join "," (sorted (elements missing))) es in
  add_error ((wants ∖ builtin) ∖ resolved paths (default [] (dget path dependencies)) != ∅)
    ("modules.dep omits declared dependency for " ++ name) es.
(** [while pending:]: what is left when a round finds no leaf. *)
Definition leaves (pending : list (pystr * gset pystr)) : gset pystr :=
  list_to_set (filter (λ kd, kd.2 = ∅) pending).*1.
Definition prune (pending : list (pystr * gset pystr)) : list (pystr * gset pystr) :=
  map (λ kd, (kd.1, kd.2 ∖ leaves pending)) (filter (λ kd, kd.1 ∉ leaves pending) pending).
Fixpoint cyclic (fuel : nat) (pending : list (pystr * gset pystr)) : option bool :=
  match pending with
  | [] => Some false
  | _ => match fuel with
         | O => None
         | S fuel => if leaves pending == ∅ then Some true else cyclic fuel (prune pending)
         end
  end.
Definition pending_of (dependencies : dict (list pystr)) : list (pystr * gset pystr) := map (λ kd, (kd.1, list_to_set kd.2)) dependencies.
Definition module_closure (entries : list entry) (builtin_text dep_text release : pystr) : option (list pystr) :=
  let c := foldl (count_entry release) (Census [] [] []) entries in
  let builtin := builtins builtin_text in
  let '(dependencies, es) := foldl (dep_line c.(paths)) ([], c.(errors)) (splitlines dep_text) in
  let es := add_error (keys dependencies != keys c.(paths)) "modules.dep coverage" es in
  let es := foldl (check_declared c.(names) c.(paths) builtin dependencies) es c.(paths) in
  bad ← cyclic (length dependencies) (pending_of dependencies);
  Some (add_error bad "modules.dep cycle or unresolved dependency" es).

(** ** The loop over the pending modules *)
(** A rank that falls along every dependency: the modules can be loaded by
    increasing rank. *)
Definition loadable (pending : list (pystr * gset pystr)) : Prop :=
  ∃ rank : pystr → nat, ∀ k d q, (k, d) ∈ pending → q ∈ d → q ∈ pending.*1 ∧ (rank q < rank k)%nat.

Lemma elem_of_leaves pending k : k ∈ leaves pending ↔ (k, ∅) ∈ pending.
Proof.
  unfold leaves. rewrite elem_of_list_to_set, list_elem_of_fmap. split.
  - intros ([k' d] & -> & H). apply list_elem_of_filter in H as [He H]. simpl in *. by subst.
  - intros H. exists (k, ∅). split; [done |]. by apply list_elem_of_filter.
Qed.
Lemma elem_of_prune pending k d : (k, d) ∈ prune pending ↔ k ∉ leaves pending ∧ ∃ d0, (k, d0) ∈ pending ∧ d = d0 ∖ leaves pending.
Proof.
  unfold prune. rewrite list_elem_of_fmap. split.
  - intros ([k' d'] & [= -> ->] & H). apply list_elem_of_filter in H as [Hk H]. split; [done |]. by exists d'.
  - intros (Hk & d0 & H & ->). exists (k, d0). split; [done |]. by apply list_elem_of_filter.
Qed.
Lemma prune_keys pending k : k ∈ (prune pending).*1 ↔ k ∈ pending.*1 ∧ k ∉ leaves pending.
Proof.
  rewrite !list_elem_of_fmap. split.
  - intros ([k' d] & -> & H). apply elem_of_prune in H as (Hk & d0 & H & _). split; [| done]. by exists (k', d0).
  - intros [([k' d] & -> & H) Hk]. exists (k', d ∖ leaves pending). split; [done |]. apply elem_of_prune. split; [done | by exists d].
Qed.
Lemma prune_shorter pending : leaves pending ≠ ∅ → (length (prune pending) < length pending)%nat.
Proof.
  intros Hl. apply set_choose_L in Hl as [k Hk]. pose proof Hk as Hin. apply elem_of_leaves in Hin. unfold prune. rewrite length_map.
  revert Hk. generalize (leaves pending). intros ls Hk. apply list_elem_of_split in Hin as (l1 & l2 & ->). rewrite filter_app, filter_cons_False by (simpl; tauto).
  rewrite !length_app. simpl. pose proof (length_filter (λ kd, kd.1 ∉ ls) l1). pose proof (length_filter (λ kd, kd.1 ∉ ls) l2). lia.
Qed.
Lemma prune_keys_NoDup pending : NoDup pending.*1 → NoDup (prune pending).*1.
Proof.
  intros H. unfold prune. rewrite <- list_fmap_compose. change (NoDup (fst <$> filter (λ kd, kd.1 ∉ leaves pending) pending)).
  eapply sublist_NoDup; [exact H | apply fmap_sublist, sublist_filter].
Qed.
Lemma least_rank (rank : pystr → nat) (pending : list (pystr * gset pystr)) : pending ≠ [] →
  ∃ kd, kd ∈ pending ∧ ∀ kd', kd' ∈ pending → (rank kd.1 ≤ rank kd'.1)%nat.
Proof.
  induction pending as [|kd pending IH]; [done |]. intros _. destruct pending as [|kd2 pending].
  - exists kd. split; [by left |]. intros kd' H. apply list_elem_of_singleton in H. by subst.
  - destruct IH as (m & Hm & Hle); [done |]. destruct (decide (rank kd.1 ≤ rank m.1)%nat) as [Hd|Hd].
    + exists kd. split; [by left |]. intros kd' [->|H]%elem_of_cons; [done |]. etrans; [exact Hd | by apply Hle].
    + exists m. split; [by right |]. intros kd' [->|H]%elem_of_cons; [lia | by apply Hle].
Qed.
Lemma loadable_leaf pending : pending ≠ [] → loadable pending → leaves pending ≠ ∅.
Proof.
  intros Hne [rank Hr] Hl. destruct (least_rank rank pending Hne) as ([k d] & Hkd & Hmin).
  assert (d = ∅) as ->.
  { apply set_eq. intros q. split; [| set_solver]. intros Hq. destruct (Hr k d q Hkd Hq) as [Hin Hlt].
    apply list_elem_of_fmap in Hin as (kd' & -> & Hin). specialize (Hmin kd' Hin). simpl in Hmin. lia. }
  apply elem_of_leaves in Hkd. rewrite Hl in Hkd. by apply elem_of_empty in Hkd.
Qed.
Lemma prune_loadable pending : NoDup pending.*1 → loadable pending ↔ loadable (prune pending).
Proof.
  intros Hnd. split; intros [rank Hr].
  - exists rank. intros k d q Hkd Hq. apply elem_of_prune in Hkd as (Hk & d0 & Hkd & ->). apply elem_of_difference in Hq as [Hq Hl].
    destruct (Hr k d0 q Hkd Hq) as [Hin Hlt]. split; [| done]. by apply prune_keys.
  - exists (λ q, if decide (q ∈ leaves pending) then O else S (rank q)). intros k d q Hkd Hq.
    destruct (decide (k ∈ leaves pending)) as [Hk|Hk].
    + apply elem_of_leaves in Hk. assert (d = ∅) as -> by (by eapply same_value). by apply elem_of_empty in Hq.
    + destruct (decide (q ∈ leaves pending)) as [Hql|Hql].
      * split; [| lia]. apply elem_of_leaves in Hql. apply list_elem_of_fmap. by exists (q, ∅).
      * destruct (Hr k (d ∖ leaves pending) q) as [Hin Hlt]; [apply elem_of_prune; split; [done | by exists d] | by apply elem_of_difference |].
        split; [by apply prune_keys in Hin as [] | lia].
Qed.
Lemma cyclic_exact fuel pending : NoDup pending.*1 → (length pending ≤ fuel)%nat →
  ∃ bad, cyclic fuel pending = Some bad ∧ (bad = false ↔ loadable pending).
Proof.
  revert pending. induction fuel as [|fuel IH]; intros pending Hnd Hlen.
  - destruct pending; [| simpl in Hlen; lia]. exists false. split; [done |]. split; [| done]. intros _. exists (λ _, O). intros k d q H. by apply not_elem_of_nil in H.
  - destruct (decide (pending = [])) as [->|Hne].
    { exists false. split; [done |]. split; [| done]. intros _. exists (λ _, O). intros k d q H. by apply not_elem_of_nil in H. }
    assert (cyclic (S fuel) pending = if leaves pending == ∅ then Some true else cyclic fuel (prune pending)) as -> by (by destruct pending).
    case_bool_decide as Hl.
    + exists true. split; [done |]. split; [done |]. intros H. by apply loadable_leaf in H.
    + pose proof (prune_shorter pending Hl). destruct (IH (prune pending)) as (bad & Hb & Hiff); [by apply prune_keys_NoDup | lia |].
      exists bad. split; [done |]. rewrite Hiff. symmetry. by apply prune_loadable.
Qed.

(** ** The loops over the files *)
Lemma add_error_nil bad e es : add_error bad e es = [] ↔ bad = false ∧ es = [].
Proof. unfold add_error. destruct bad; [| tauto]. split; [intros H; by apply app_eq_nil in H as [] | by intros []]. Qed.
Lemma fold_errors {A} (f : list pystr → A → list pystr) (P : A → Prop) l es :
  (∀ es x, x ∈ l → f es x = [] ↔ es = [] ∧ P x) → foldl f es l = [] ↔ es = [] ∧ Forall P l.
Proof.
  revert es. induction l as [|x l IH]; intros es Hf; simpl; [rewrite Forall_nil; tauto |].
  rewrite IH by (intros; apply Hf; by right). rewrite (Hf es x) by (by left). rewrite Forall_cons. tauto.
Qed.

Section closure.
Context (entries : list entry) (builtin_text dep_text release : pystr).
Definition module_names : list pystr := map (λ e, underscores e.(e_name)) entries.
Definition module_paths : list pystr := map (λ e, installed_path release e.(e_path)) entries.
Definition dependency_row (line : pystr) : pystr * list pystr := let '(path, _, raw) := partition ":" line in (path, split_ws raw).
Definition dependency_rows : dict (list pystr) := map dependency_row (splitlines dep_text).
(** What the build must have installed: every module once, for this release;
    a line of modules.dep for every module and for nothing else, naming
    installed modules only; every dependency a module declares built in or
    loaded by its line; and an order in which the modules can be loaded. *)
Definition closed : Prop :=
  NoDup module_names ∧ NoDup module_paths ∧ Forall (λ e, head (split_ws e.(e_vermagic)) = Some release) entries ∧
  Forall (λ line, count ":" line = 1) (splitlines dep_text) ∧ NoDup dependency_rows.*1 ∧
  (∀ p, p ∈ dependency_rows.*1 ↔ p ∈ module_paths) ∧
  (∀ p deps q, (p, deps) ∈ dependency_rows → q ∈ deps → q ∈ module_paths) ∧
  (∀ e x, e ∈ entries → x ∈ declared e → x ∈ builtins builtin_text ∨
     ∃ e' deps, e' ∈ entries ∧ underscores e'.(e_name) = x ∧ (installed_path release e.(e_path), deps) ∈ dependency_rows ∧ installed_path release e'.(e_path) ∈ deps) ∧
  ∃ rank : pystr → nat, ∀ p deps q, (p, deps) ∈ dependency_rows → q ∈ deps → (rank q < rank p)%nat.
End closure.

Lemma count_entries release entries : let c := foldl (count_entry release) (Census [] [] []) entries in
  (c.(errors) = [] ↔ NoDup (module_names entries) ∧ NoDup (module_paths entries release) ∧ Forall (λ e, head (split_ws e.(e_vermagic)) = Some release) entries) ∧
  (c.(errors) = [] → c.(names) = map (λ e, (underscores e.(e_name), e)) entries ∧
     c.(paths) = map (λ e, (installed_path release e.(e_path), underscores e.(e_name))) entries).
Proof.
  induction entries as [|e entries [IH1 IH2]] using rev_ind.
  { split; [| done]. split; [| done]. intros _. split_and!; constructor. }
  cbv zeta in *. rewrite foldl_snoc. set (c := foldl _ _ _) in *. unfold count_entry. cbn [errors names paths].
  rewrite !add_error_nil, negb_false_iff, bool_decide_eq_true, !dmem_false. unfold module_names, module_paths in *. rewrite !map_app. simpl.
  rewrite !NoDup_snoc, Forall_app, Forall_singleton.
  assert (errors c = [] → (names c).*1 = map (λ e, underscores e.(e_name)) entries ∧ (paths c).*1 = map (λ e, installed_path release e.(e_path)) entries) as Hk.
  { intros H. destruct (IH2 H) as [-> ->]. split; rewrite <- list_fmap_compose; done. }
  split.
  - split.
    + intros (Hv & Hp & Hn & He). destruct (Hk He) as [Hn' Hp']. rewrite <- Hn', <- Hp'. apply IH1 in He. rewrite <- Hn', <- Hp' in He. tauto.
    + intros ((Hn & Hnd) & (Hp & Hpd) & Hv & He). assert (errors c = []) as H0 by tauto. destruct (Hk H0) as [-> ->]. tauto.
  - intros (Hv & Hp & Hn & He). destruct (IH2 He) as [Hn' Hp']. rewrite !dset_fresh by done. by rewrite Hn', Hp'.
Qed.
Lemma dependency_lines paths es0 lines : let '(dependencies, es) := foldl (dep_line paths) ([], es0) lines in
  NoDup dependencies.*1 ∧
  (es = [] ↔ es0 = [] ∧ Forall (λ line, count ":" line = 1) lines ∧ NoDup (map dependency_row lines).*1 ∧
     Forall (λ row, row.1 ∈ paths.*1 ∧ Forall (.∈ paths.*1) row.2) (map dependency_row lines)) ∧
  (es = [] → dependencies = map dependency_row lines).
Proof.
  induction lines as [|line lines IH] using rev_ind.
  { simpl. split; [constructor |]. split; [| done]. split; [intros H; split_and!; [done | constructor..] | tauto]. }
  rewrite foldl_snoc. destruct (foldl _ _ lines) as [dependencies es]. destruct IH as (Hnd & IH1 & IH2).
  rewrite map_app, fmap_app. pose proof (Forall_app (λ line, count ":" line = 1) lines [line]) as Hfc. rewrite Forall_singleton in Hfc.
  unfold dep_line. destruct (count ":" line =? 1) eqn:Hc; cbn [negb].
  2: { apply Z.eqb_neq in Hc. split; [done |]. split; [| intros H; by apply app_eq_nil in H as []]. split; [intros H; by apply app_eq_nil in H as [] | tauto]. }
  apply Z.eqb_eq in Hc. assert (∃ path found raw, partition ":" line = (path, found, raw) ∧ dependency_row line = (path, split_ws raw)) as (path & found & raw & -> & Hrow).
  { unfold dependency_row. destruct (partition ":" line) as [[path found] raw]. by exists path, found, raw. }
  cbn [map fmap list_fmap foldl]. rewrite Hrow, NoDup_snoc, !Forall_app, !Forall_singleton. cbn [fst snd].
  split; [by apply dset_keys_NoDup |].
  rewrite (fold_errors _ (λ t, t ∈ paths.*1)).
  2: { intros es' x _. rewrite add_error_nil, negb_false_iff, dmem_spec. tauto. }
  rewrite !add_error_nil, negb_false_iff, dmem_spec, dmem_false.
  assert (es = [] → dependencies.*1 = (map dependency_row lines).*1) as Hk by (by intros ->%IH2).
  split.
  - split.
    + intros ((Hp & Hd & He) & Ht). rewrite <- (Hk He). apply IH1 in He as He'. tauto.
    + intros (H0 & (Hcs & _) & (Hn & Hnd') & Hr & Hp & Ht). assert (es = []) as He by tauto. rewrite (Hk He). tauto.
  - intros ((Hp & Hd & He) & Ht). rewrite dset_fresh by done. by rewrite (IH2 He).
Qed.

Section declared.
Context (entries : list entry) (release : pystr) (builtin : gset pystr) (rows : dict (list pystr)).
Let names := map (λ e, (underscores e.(e_name), e)) entries.
Let paths := map (λ e, (installed_path release e.(e_path), underscores e.(e_name))) entries.
Context (Hnames : NoDup (module_names entries)) (Hpaths : NoDup (module_paths entries release)) (Hrows : NoDup rows.*1).
Lemma names_keys : names.*1 = module_names entries.
Proof. unfold names. by rewrite <- list_fmap_compose. Qed.
Lemma paths_keys : paths.*1 = module_paths entries release.
Proof. unfold paths. by rewrite <- list_fmap_compose. Qed.
Lemma elem_of_resolved deps x : x ∈ resolved paths deps ↔ ∃ e, e ∈ entries ∧ underscores e.(e_name) = x ∧ installed_path release e.(e_path) ∈ deps.
Proof using Hpaths.
  unfold resolved. rewrite elem_of_list_to_set, list_elem_of_omap. split.
  - intros (q & Hq & H). apply dget_unique in H; [| by rewrite paths_keys]. unfold paths in H. apply list_elem_of_fmap in H as (e & [= -> ->] & He). by exists e.
  - intros (e & He & <- & Hq). exists (installed_path release (e_path e)). split; [done |]. apply dget_unique; [by rewrite paths_keys |].
    unfold paths. apply list_elem_of_fmap. by exists e.
Qed.
Lemma check_declared_nil es e : e ∈ entries →
  check_declared names paths builtin rows es (installed_path release e.(e_path), underscores e.(e_name)) = [] ↔ es = [] ∧ ∀ x, x ∈ declared e → x ∈ builtin ∨
    ∃ e' deps, e' ∈ entries ∧ underscores e'.(e_name) = x ∧ (installed_path release e.(e_path), deps) ∈ rows ∧ installed_path release e'.(e_path) ∈ deps.
Proof using Hnames Hpaths Hrows.
  intros He. unfold check_declared.
  assert (dget (underscores e.(e_name)) names = Some e) as Hn.
  { apply dget_unique; [by rewrite names_keys |]. unfold names. apply list_elem_of_fmap. by exists e. }
  rewrite Hn. simpl. rewrite !add_error_nil, !negb_false_iff, !bool_decide_eq_true.
  set (deps := default [] (dget _ rows)).
  assert (∀ x, x ∈ resolved paths deps ↔ ∃ e' deps', e' ∈ entries ∧ underscores e'.(e_name) = x ∧ (installed_path release e.(e_path), deps') ∈ rows ∧ installed_path release e'.(e_path) ∈ deps') as Hr.
  { intros x. rewrite elem_of_resolved. unfold deps. split.
    - intros (e' & He' & Hx & Hq). destruct (dget _ rows) as [ds|] eqn:Hd; [| by apply not_elem_of_nil in Hq]. exists e', ds. split_and!; try done. by apply dget_elem.
    - intros (e' & ds & He' & Hx & Hin & Hq). exists e'. split_and!; try done. apply dget_unique in Hin; [| done]. by rewrite Hin. }
  split.
  - intros (Hd & _ & Hes). split; [done |]. intros x Hx.
    destruct (decide (x ∈ builtin)) as [|Hb]; [by left |]. right. apply Hr. apply dec_stable. intros Hno.
    assert (x ∈ (∅ : gset pystr)) as []%elem_of_empty. rewrite <- Hd. by repeat (apply elem_of_difference; split).
  - intros (Hes & Hd).
    split_and!; [| | done]; apply set_eq; intros x; (split; [| by intros ?%elem_of_empty]); intros Hx; exfalso.
    + apply elem_of_difference in Hx as [[Hx Hb]%elem_of_difference Hno]. destruct (Hd x Hx) as [|H]; [done |]. by apply Hno, Hr.
    + apply elem_of_difference in Hx as [[Hx Hno]%elem_of_difference Hb]. destruct (Hd x Hx) as [|(e' & ds & He' & Hn' & _)]; [done |]. apply Hno.
      unfold keys. apply elem_of_list_to_set. rewrite names_keys. unfold module_names. apply list_elem_of_fmap. by exists e'.
Qed.
End declared.

Lemma check_declared_errors names paths builtin rows es pn :
  check_declared names paths builtin rows es pn = [] ↔ es = [] ∧ check_declared names paths builtin rows [] pn = [].
Proof. destruct pn as [path name]. unfold check_declared. rewrite !add_error_nil. tauto. Qed.
Lemma pending_keys rows : (pending_of rows).*1 = rows.*1.
Proof. unfold pending_of. by rewrite <- list_fmap_compose. Qed.
Lemma rows_loadable (rows : dict (list pystr)) : (∀ p deps q, (p, deps) ∈ rows → q ∈ deps → q ∈ rows.*1) →
  loadable (pending_of rows) ↔ ∃ rank : pystr → nat, ∀ p deps q, (p, deps) ∈ rows → q ∈ deps → (rank q < rank p)%nat.
Proof.
  intros Hin. split; intros [rank Hr]; exists rank.
  - intros p deps q Hp Hq. destruct (Hr p (list_to_set deps) q) as [_ H]; [| by apply elem_of_list_to_set | done].
    apply list_elem_of_fmap. by exists (p, deps).
  - intros p d q Hp Hq. apply list_elem_of_fmap in Hp as ([p' deps] & [= -> ->] & Hp). apply elem_of_list_to_set in Hq.
    rewrite pending_keys. split; [by eapply Hin | by eapply Hr].
Qed.
(** The first two loops report nothing. *)
Lemma census_ok entries dep_text release :
  let c := foldl (count_entry release) (Census [] [] []) entries in
  let '(rows, es) := foldl (dep_line c.(paths)) ([], c.(errors)) (splitlines dep_text) in
  NoDup rows.*1 ∧
  (es = [] ↔ NoDup (module_names entries) ∧ NoDup (module_paths entries release) ∧ Forall (λ e, head (split_ws e.(e_vermagic)) = Some release) entries ∧
     Forall (λ line, count ":" line = 1) (splitlines dep_text) ∧ NoDup (dependency_rows dep_text).*1 ∧
     ∀ p deps, (p, deps) ∈ dependency_rows dep_text → p ∈ module_paths entries release ∧ ∀ q, q ∈ deps → q ∈ module_paths entries release) ∧
  (es = [] → rows = dependency_rows dep_text ∧ c.(names) = map (λ e, (underscores e.(e_name), e)) entries ∧
     c.(paths) = map (λ e, (installed_path release e.(e_path), underscores e.(e_name))) entries).
Proof.
  pose proof (count_entries release entries) as [He Hc]. cbv zeta in *. set (c := foldl (count_entry release) _ _) in *.
  pose proof (dependency_lines c.(paths) c.(errors) (splitlines dep_text)) as Hd. destruct (foldl (dep_line _) _ _) as [rows es]. destruct Hd as (Hnd & Hes & Hrows).
  assert (errors c = [] → (paths c).*1 = module_paths entries release) as Hk.
  { intros H. destruct (Hc H) as [_ ->]. apply paths_keys. }
  fold (dependency_rows dep_text) in *. split; [done |]. split.
  - rewrite Hes. split.
    + intros (H0 & Hcol & Hnr & Hall). rewrite Hk in Hall by done. apply He in H0. split_and!; try tauto.
      intros p deps Hp. rewrite Forall_forall in Hall. destruct (Hall _ Hp) as [H1 H2]. rewrite Forall_forall in H2. done.
    + intros (Hn & Hp & Hv & Hcol & Hnr & Hall). assert (errors c = []) as H0 by tauto. rewrite Hk by done. split_and!; try done.
      apply Forall_forall. intros [p deps] Hin. destruct (Hall p deps Hin). split; [done |]. by apply Forall_forall.
  - intros H. split; [by apply Hrows |]. apply Hc. tauto.
Qed.

Lemma module_closure_spec entries builtin_text dep_text release :
  ∃ errors, module_closure entries builtin_text dep_text release = Some errors ∧ (errors = [] ↔ closed entries builtin_text dep_text release).
Proof.
  unfold module_closure. pose proof (census_ok entries dep_text release) as Hcen. cbv zeta in *. set (c := foldl (count_entry release) _ _) in *.
  destruct (foldl (dep_line _) _ _) as [rows es]. destruct Hcen as (Hnd & Hes & Heq).
  destruct (cyclic_exact (length rows) (pending_of rows)) as (bad & -> & Hbad); [by rewrite pending_keys | by unfold pending_of; rewrite length_map |].
  eexists. split; [reflexivity |]. rewrite add_error_nil, Hbad.
  rewrite (fold_errors _ (λ pn, check_declared (names c) (paths c) (builtins builtin_text) rows [] pn = [])) by (intros; apply check_declared_errors).
  rewrite add_error_nil, negb_false_iff, bool_decide_eq_true. unfold closed. split.
  - intros (Hload & (Hcov & H0) & Hall). destruct (Heq H0) as (-> & Hn & Hp). apply Hes in H0 as (Hnn & Hpn & Hv & Hcol & Hnr & Hin).
    rewrite Hn, Hp in Hall. rewrite Hp in Hcov. unfold keys in Hcov. rewrite paths_keys in Hcov.
    assert (∀ p, p ∈ (dependency_rows dep_text).*1 ↔ p ∈ module_paths entries release) as Hkeys.
    { intros p. by rewrite <- !(elem_of_list_to_set (C := gset pystr)), Hcov. }
    split_and!; try done.
    + intros p deps q Hpd. by apply (Hin p deps).
    + intros e x Hx. rewrite Forall_forall in Hall.
      assert (check_declared (map (λ e, (underscores e.(e_name), e)) entries) (map (λ e, (installed_path release e.(e_path), underscores e.(e_name))) entries)
        (builtins builtin_text) (dependency_rows dep_text) [] (installed_path release e.(e_path), underscores e.(e_name)) = []) as H
        by (apply Hall, list_elem_of_fmap; by exists e).
      apply check_declared_nil in H as [_ H]; [by apply H | done..].
    + apply rows_loadable; [| done]. intros p deps q Hpd Hq. apply Hkeys. by apply (Hin p deps).
  - intros (Hnn & Hpn & Hv & Hcol & Hnr & Hkeys & Hin & Hd & Hrank). assert (es = []) as H0.
    { apply Hes. split_and!; try done. intros p deps Hpd. split; [apply Hkeys, list_elem_of_fmap; by exists (p, deps) |]. intros q. by apply Hin with p. }
    destruct (Heq H0) as (-> & Hn & Hp). split_and!; [| | done |].
    + apply rows_loadable; [| done]. intros p deps q Hpd Hq. apply Hkeys. by eapply Hin.
    + unfold keys. rewrite Hp, paths_keys. apply set_eq. intros p. by rewrite !elem_of_list_to_set.
    + rewrite Hn, Hp. apply Forall_forall. intros pn (e & -> & He)%list_elem_of_fmap. apply check_declared_nil; try done. split; [done |].
      intros x. by apply Hd.
Qed.

(** C11. The check of the installed modules ends, and it reports no error
    exactly when every module is installed once and for this release, its
    line of modules.dep is there and names installed modules only, whatever it
    declares is built in or on its line, and the modules can be loaded in
    some order: no dependency cycle. *)
Theorem module_closure_exact entries builtin_text dep_text release :
  ∃ errors, module_closure entries builtin_text dep_text release = Some errors ∧ (errors = [] ↔ closed entries builtin_text dep_text release).
Proof. apply module_closure_spec. Qed.

(** Two modules, one loaded before the other; then the same two in a cycle. *)
Definition ex_entries : list entry :=
  [Entry "snd-core" "/b/modules/lib/modules/6.1/kernel/snd-core.ko" "6.1 SMP" "";
   Entry "snd-q6" "/b/modules/lib/modules/6.1/kernel/snd-q6.ko" "6.1 SMP" "snd-core,regmap"].
Definition ex_line (a b : string) : pystr := "kernel/" ++ a ++ ".ko: " ++ b ++ [LF].
Example closure_clean : module_closure ex_entries ("kernel/lib/regmap.ko" ++ [LF])
  (ex_line "snd-core" "" ++ ex_line "snd-q6" "kernel/snd-core.ko") "6.1" = Some [].
Proof. vm_compute. reflexivity. Qed.
Example closure_cycle : module_closure ex_entries ("kernel/lib/regmap.ko" ++ [LF])
  (ex_line "snd-core" "kernel/snd-q6.ko" ++ ex_line "snd-q6" "kernel/snd-core.ko") "6.1" = Some ["modules.dep cycle or unresolved dependency" : pystr].
Proof. vm_compute. reflexivity. Qed.
Example closure_missing : module_closure ex_entries "" (ex_line "snd-core" "" ++ ex_line "snd-q6" "") "6.1"
  = Some ["missing dependencies for snd_q6: regmap" : pystr; "modules.dep omits declared dependency for snd_q6" : pystr].
Proof. vm_compute. reflexivity. Qed.
