(* ===== verification/Diagnostics.v ===== *)
(** * The diagnostics of a kernel build

    scripts/host/check-production-build-diagnostics.py: every compiler, device
    tree and depmod message of the build logs must be allowed by a reviewed
    warning policy.  The directory of the build is read through [file],
    [is_file], [resolve] ([Path.resolve]) and [strict]
    ([Path.resolve(strict=True)]) and does not change during a run; the JSON
    documents are records of the fields the code reads. *)

From S2P Require Import Prelude PyStr PyData Regex Sha256 ModuleClosure.

Definition INITIALIZER : pystr := "warning: initializer overrides prior initialization of this subobject [-Winitializer-overrides]".

(** ** The patterns *)
Definition any : rx := RStar (RCls (λ _, true)).
Definition lower (c : ascii) : ascii := if is_upper c then chr (ord c + 32) else c.
(** A literal under [re.I], and [\w] below 256. *)
Fixpoint ilit (s : pystr) : rx :=
  match s with [] => REps | c :: s => RSeq (RCls (λ d, lower d == lower c)) (ilit s) end.
Definition is_word (c : ascii) : bool := isalnum c || (c == "_"%char).
(** [(?::|\s+\()] *)
Definition colon_or_paren : rx := RAlt (lit ":") (RSeq (plus is_space) (lit "(")).
Definition schema_rx : rx := RSeq any (RSeq (lit ".") (RSeq (RAlt (lit "dtb") (RAlt (lit "dtbo") (lit "yaml"))) (RSeq colon_or_paren any))).
Definition message_rx : rx :=
  RSeq (RAlt REps (RSeq any (RCls (λ c, negb (is_word c)))))
    (RSeq (RAlt (ilit "warning") (RAlt (ilit "error") (ilit "fatal error"))) (RSeq colon_or_paren any)).
Definition is_schema (line : pystr) : bool := fullmatch schema_rx line.
Definition is_message (line : pystr) : bool := fullmatch message_rx line.
(** [re.match(r'(.+?):\d+:\d+: ' + re.escape(INITIALIZER) + r'$', line)]: the
    shortest group 1.  A line has no line feed. *)
Definition site_rx : rx := RSeq (lit ":") (RSeq (plus is_digit) (RSeq (lit ":") (RSeq (plus is_digit) (lit (": " ++ INITIALIZER))))).
Fixpoint lazy_group (r : rx) (pre s : pystr) : option pystr :=
  if (pre != []) && fullmatch r s then Some pre else
  match s with [] => None | c :: s => lazy_group r (pre ++ [c]) s end.
Definition initializer_path (line : pystr) : option pystr := lazy_group site_rx [] line.
Definition site_of (path line : pystr) : pystr := before_first ": warning:" (after_first (path ++ ":") line).

(** ** The policy *)
Record dependency := Dependency { d_root : pystr; d_path : pystr; d_sha256 : pystr }.
Record override := Override { o_root : pystr; o_path : pystr; o_sha256 : pystr; o_dependencies : list dependency;
  o_maximum_count : Z; o_sites : option (dict Z) }.
Record review := Review { r_path : pystr; r_sha256 : pystr; r_dependencies : list dependency;
  r_config_guards : dict pystr; r_messages : dict Z }.
Record policy := Policy { base_commit : pystr; initializer_overrides : list override; reviewed_messages : list review }.

Inductive kind := Depmod | Schema | CompilerOrTool.
#[export] Instance kind_eq_dec : EqDecision kind.
Proof. solve_decision. Defined.
Record result := Result { r_line : pystr; r_allowed : bool; r_kind : kind }.

(** [Counter()] *)
Record counters := Counters { at_path : gmap pystr Z; at_site : gmap (pystr * pystr) Z; at_message : gmap pystr Z }.
Definition count_of {K} `{Countable K} (m : gmap K Z) (k : K) : Z := default 0 (m !! k).
Definition bump {K} `{Countable K} (k : K) (m : gmap K Z) : gmap K Z := <[k := count_of m k + 1]> m.

Section diagnostics.
Context (file : pystr → res bytes) (is_file : pystr → bool) (resolve : pystr → pystr) (strict : pystr → res pystr).
Context (source objects : pystr).

Definition sha (path : pystr) : res pystr := sha256 <$> file path.
(** [root/relative] and [path.is_relative_to(root)] *)
Definition child (root relative : pystr) : pystr := if startswith relative "/" then relative else root ++ "/" ++ relative.
Definition within (path root : pystr) : bool := take (length (parts root)) (parts path) == parts root.
Definition safe (root relative : pystr) : res pystr :=
  path ← strict (child root relative);
  refuse_if (negb (within path (resolve root))) ValueError "path escapes build tree" ;;
  Ok path.

(** [os.path.relpath] of two absolute paths. *)
Fixpoint strip_common (a b : list pystr) : list pystr * list pystr :=
  match a, b with
  | x :: a', y :: b' => if x == y then strip_common a' b' else (a, b)
  | _, _ => (a, b)
  end.
Definition relpath (path start : pystr) : pystr :=
  let '(a, b) := strip_common (parts path) (parts start) in
  as_posix (map (λ _, ".." : pystr) b ++ a).
Definition WARNING : pystr := "Warning: ".
Definition normalize (line : pystr) : pystr :=
  let prefix := if startswith line WARNING then WARNING else [] in
  let text := drop (length prefix) line in
  let absolute := resolve source ++ "/" in
  let relative := relpath (resolve source) (resolve objects) ++ "/" in
  prefix ++ (if startswith text absolute then drop (length absolute) text
             else if startswith text relative then drop (length relative) text else text).

(** [sha(safe(root, path)) == expected], for a pin and its dependencies. *)
Definition unchanged (root relative expected : pystr) : res bool :=
  path ← safe root relative; h ← sha path; Ok (h == expected).
Definition all_unchanged (root : pystr → pystr) (identity : bool) (deps : list dependency) : res bool :=
  fold_res (λ identity d, same ← unchanged (root d.(d_root)) d.(d_path) d.(d_sha256); Ok (identity && same)) identity deps.
Definition root_of (r : pystr) : pystr := if r == "source" then source else objects.
Definition override_files (pin : override) : res bool :=
  identity ← unchanged (root_of pin.(o_root)) pin.(o_path) pin.(o_sha256); all_unchanged root_of identity pin.(o_dependencies).
Definition review_files (pin : review) : res bool :=
  identity ← unchanged source pin.(r_path) pin.(r_sha256); all_unchanged (λ _, source) identity pin.(r_dependencies).

Definition override_at (p : policy) (path : pystr) : option override :=
  List.find (λ pin, resolve (child (root_of pin.(o_root)) pin.(o_path)) == path) p.(initializer_overrides).
Definition reported (path : pystr) : pystr := resolve (child objects path).
Definition by_override (p : policy) (counts : counters) (line : pystr) : res (counters * bool) :=
  match initializer_path line with
  | None => Ok (counts, false)
  | Some name =>
      let path := reported name in
      match override_at p path with
      | None => Ok (counts, false)
      | Some pin =>
          let site := site_of name line in
          let counts := Counters (bump path counts.(at_path)) (bump (path, site) counts.(at_site)) counts.(at_message) in
          identity ← override_files pin;
          Ok (counts, identity && (count_of counts.(at_path) path <=? pin.(o_maximum_count))
            && match pin.(o_sites) with
               | None => true
               | Some sites => dmem site sites && (count_of counts.(at_site) (path, site) <=? default 0 (dget site sites))
               end)
      end
  end.
Definition review_for (p : policy) (message : pystr) : option review :=
  List.find (λ pin, dmem message pin.(r_messages)) p.(reviewed_messages).
Definition guards_hold (config : dict pystr) (pin : review) : bool :=
  forallb (λ '(key, value), default ("n" : pystr) (dget key config) == value) pin.(r_config_guards).
Definition by_review (p : policy) (config : dict pystr) (counts : counters) (line : pystr) : res (counters * bool) :=
  let message := normalize line in
  match review_for p message with
  | None => Ok (counts, false)
  | Some pin =>
      let counts := Counters counts.(at_path) counts.(at_site) (bump message counts.(at_message)) in
      identity ← review_files pin;
      Ok (counts, identity && guards_hold config pin && (count_of counts.(at_message) message <=? default 0 (dget message pin.(r_messages))))
  end.
(** The object directory's .config. *)
Definition config_row (config : dict pystr) (line : pystr) : res (dict pystr) :=
  if negb (startswith line "CONFIG_") then Ok config else
  let '(key, found, value) := partition "=" line in
  refuse_if (negb found) ValueError "dictionary update sequence element has length 1; 2 is required" ;;
  Ok (dset key value config).
Definition read_config : res (dict pystr) :=
  let path := child objects ".config" in
  if is_file path then data ← file path; text ← decode_utf8 data; fold_res config_row [] (splitlines text) else Ok [].

Definition judge (p : policy) (config : dict pystr) (stage : pystr) (acc : counters * list result) (line : pystr) : res (counters * list result) :=
  let '(counts, results) := acc in
  if strip line == [] then Ok acc else
  if stage == "depmod" then Ok (counts, results ++ [Result line false Depmod]) else
  let schema := is_schema line in
  if negb schema && negb (is_message line) then Ok acc else
  ov ← (if schema then Ok (counts, false) else by_override p counts line);
  let '(counts, allowed) := (ov : counters * bool) in
  rv ← (if allowed || schema then Ok (counts, allowed) else by_review p config counts line);
  let '(counts, allowed) := (rv : counters * bool) in
  Ok (counts, results ++ [Result line allowed (if schema then Schema else CompilerOrTool)]).
Definition diagnostics (text stage : pystr) (p : policy) : res (list result) :=
  config ← read_config;
  acc ← fold_res (judge p config stage) (Counters ∅ ∅ ∅, []) (splitlines text);
  Ok (acc : counters * list result).2.
End diagnostics.

(** Both names the compiler may give a source file stand for the same policy
    message. *)
Lemma startswith_app p s : startswith (p ++ s) p = true.
Proof. apply startswith_spec. by exists s. Qed.
Lemma normalize_forms resolve source objects rest : head (resolve source) = Some "/"%char →
  (strip_common (parts (resolve source)) (parts (resolve objects))).2 ≠ [] →
  normalize resolve source objects (resolve source ++ "/" ++ rest) = rest ∧
  normalize resolve source objects (relpath (resolve source) (resolve objects) ++ "/" ++ rest) = rest.
Proof.
  intros Hs Ho. assert (∃ t, relpath (resolve source) (resolve objects) = "." ++ t) as [t Ht].
  { unfold relpath. destruct (strip_common _ _) as [a b]. simpl in Ho. destruct b as [|y b]; [done |]. unfold as_posix.
    rewrite bool_decide_eq_false_2 by done. simpl. destruct (map _ b ++ a); eexists; [reflexivity | simpl; reflexivity]. }
  destruct (resolve source) as [|c src] eqn:Hr; [done |]. injection Hs as ->. unfold normalize. rewrite !Hr. split.
  - assert (startswith (("/"%char :: src) ++ "/" ++ rest) WARNING = false) as -> by done. cbn [length drop app].
    pose proof (startswith_app (("/"%char :: src) ++ "/") rest) as H. rewrite <- app_assoc in H. cbn [app] in H. rewrite H.
    rewrite (app_assoc src). by rewrite drop_app_length.
  - rewrite Ht. assert (startswith (("." ++ t) ++ "/" ++ rest) WARNING = false) as -> by done. cbn [length drop app].
    assert (startswith (drop 0 (("." ++ t) ++ "/" ++ rest)) ("/"%char :: src ++ "/") = false) as -> by done.
    rewrite drop_0, (app_assoc ("." ++ t)), startswith_app. by rewrite drop_app_length.
Qed.

(** ** What the policy lets pass *)
(** Why a result is allowed: an initializer pin for a file, or a reviewed
    message. *)
Inductive ground := ByOverride (path site : pystr) | ByReview (message : pystr).
Definition uses_path (p : pystr) (g : option ground) : bool := match g with Some (ByOverride q _) => q == p | _ => false end.
Definition uses_site (p s : pystr) (g : option ground) : bool := match g with Some (ByOverride q t) => (q == p) && (t == s) | _ => false end.
Definition uses_message (m : pystr) (g : option ground) : bool := match g with Some (ByReview n) => n == m | _ => false end.
Definition uses (f : option ground → bool) (gs : list (option ground)) : Z := len (List.filter f gs).

Section allowed.
Context (file : pystr → res bytes) (is_file : pystr → bool) (resolve : pystr → pystr) (strict : pystr → res pystr).
Context (source objects : pystr) (p : policy) (config : dict pystr).

(** The ground of a result: the pin it names is in the policy, the files of
    the pin are unchanged and its configuration guards hold. *)
Definition grounded (r : result) (g : option ground) : Prop :=
  match g with
  | None => r.(r_allowed) = false
  | Some (ByOverride path site) => r.(r_allowed) = true ∧ r.(r_kind) = CompilerOrTool ∧ ∃ name pin,
      initializer_path r.(r_line) = Some name ∧ path = reported resolve objects name ∧ site = site_of name r.(r_line) ∧
      override_at resolve source objects p path = Some pin ∧ override_files file resolve strict source objects pin = Ok true
  | Some (ByReview message) => r.(r_allowed) = true ∧ r.(r_kind) = CompilerOrTool ∧ ∃ pin,
      message = normalize resolve source objects r.(r_line) ∧ review_for p message = Some pin ∧
      review_files file resolve strict source pin = Ok true ∧ guards_hold config pin = true
  end.
(** No pin is used more often than it says. *)
Definition in_budget (gs : list (option ground)) : Prop :=
  (∀ path pin, override_at resolve source objects p path = Some pin →
     uses (uses_path path) gs ≤ Z.max 0 pin.(o_maximum_count) ∧
     ∀ sites site, pin.(o_sites) = Some sites → uses (uses_site path site) gs ≤ Z.max 0 (default 0 (dget site sites))) ∧
  (∀ message pin, review_for p message = Some pin → uses (uses_message message) gs ≤ Z.max 0 (default 0 (dget message pin.(r_messages)))).
Definition counted (counts : counters) (gs : list (option ground)) : Prop :=
  (∀ path, uses (uses_path path) gs ≤ count_of counts.(at_path) path) ∧
  (∀ path site, uses (uses_site path site) gs ≤ count_of counts.(at_site) (path, site)) ∧
  (∀ message, uses (uses_message message) gs ≤ count_of counts.(at_message) message).

Lemma uses_snoc f gs g : uses f (gs ++ [g]) = uses f gs + (if f g then 1 else 0).
Proof. unfold uses. rewrite List.filter_app. simpl. destruct (f g); rewrite len_app; unfold len; simpl; lia. Qed.
Lemma count_bump {K} `{Countable K} (k k' : K) m : count_of (bump k m) k' = count_of m k' + (if decide (k = k') then 1 else 0).
Proof. unfold count_of, bump, count_of. destruct (decide (k = k')) as [->|Hk]; [by rewrite lookup_insert_eq | rewrite lookup_insert_ne by done; simpl; lia]. Qed.
(** A line that uses no pin. *)
Lemma budget_none gs : in_budget gs → in_budget (gs ++ [None]).
Proof.
  intros [Ho Hr]. split.
  - intros path pin H. destruct (Ho path pin H) as [H1 H2]. rewrite uses_snoc. simpl. split; [lia |]. intros sites site Hs. rewrite uses_snoc. simpl. specialize (H2 sites site Hs). lia.
  - intros m pin H. rewrite uses_snoc. simpl. specialize (Hr m pin H). lia.
Qed.
Lemma counted_none c gs : counted c gs → counted c (gs ++ [None]).
Proof.
  intros (H1 & H2 & H3). split_and!; intros; rewrite uses_snoc; simpl.
  - specialize (H1 path). lia.
  - specialize (H2 path site). lia.
  - specialize (H3 message). lia.
Qed.

Lemma by_override_ok counts line counts' ok gs : by_override file resolve strict source objects p counts line = Ok (counts', ok) →
  counted counts gs → in_budget gs →
  if ok then ∃ g, grounded (Result line true CompilerOrTool) (Some g) ∧ counted counts' (gs ++ [Some g]) ∧ in_budget (gs ++ [Some g]) else counted counts' gs.
Proof.
  intros H Hc Hb. unfold by_override in H. destruct (initializer_path line) as [name|] eqn:Hn; [| by injection H as <- <-].
  destruct (override_at _ _ _ p (reported resolve objects name)) as [pin|] eqn:Hp; [| by injection H as <- <-].
  set (path := reported resolve objects name) in *. set (site := site_of name line) in *. cbv zeta in H. apply bind_Ok in H as (identity & Hid & H).
  injection H as <- Hok. destruct Hc as (H1 & H2 & H3). cbn [at_path at_site at_message] in *.
  assert (∀ q, count_of (bump path (at_path counts)) q = count_of (at_path counts) q + (if decide (path = q) then 1 else 0)) as E1 by (intros; apply count_bump).
  assert (∀ qs, count_of (bump (path, site) (at_site counts)) qs = count_of (at_site counts) qs + (if decide ((path, site) = qs) then 1 else 0)) as E2 by (intros; apply count_bump).
  destruct ok.
  2: { split_and!; cbn [at_path at_site at_message].
    - intros q. rewrite E1. specialize (H1 q). destruct (decide _); lia.
    - intros q s. rewrite E2. specialize (H2 q s). destruct (decide _); lia.
    - exact H3. }
  apply andb_true_iff in Hok as [[Hident Hmax]%andb_true_iff Hsites]. subst identity. apply Z.leb_le in Hmax. rewrite E1, decide_True in Hmax by done.
  exists (ByOverride path site). split; [| split].
  - split_and!; [done | done |]. by exists name, pin.
  - split_and!; cbn [at_path at_site at_message].
    + intros q. rewrite uses_snoc, E1. simpl. specialize (H1 q). case_bool_decide; destruct (decide _); try lia; done.
    + intros q s. rewrite uses_snoc, E2. simpl. specialize (H2 q s). destruct (decide (_ = _)) as [[= -> ->]|Hne].
      * rewrite !bool_decide_eq_true_2 by done. simpl. lia.
      * destruct ((path == q) && (site == s)) eqn:Hb2; [| lia]. apply andb_true_iff in Hb2 as [->%bool_decide_eq_true ->%bool_decide_eq_true]. done.
    + intros m. rewrite uses_snoc. simpl. specialize (H3 m). lia.
  - destruct Hb as [Ho Hr]. split.
    + intros q pin' Hq. destruct (Ho q pin' Hq) as [B1 B2]. rewrite uses_snoc. simpl. case_bool_decide as Hpq.
      * subst q. rewrite Hp in Hq. injection Hq as <-. split; [specialize (H1 path); lia |]. intros sites s Hs. rewrite uses_snoc. simpl.
        rewrite bool_decide_eq_true_2 by done. simpl. case_bool_decide as Hss; [| specialize (B2 sites s Hs); lia]. subst s.
        rewrite Hs in Hsites. apply andb_true_iff in Hsites as [_ Hle]. apply Z.leb_le in Hle. rewrite E2, decide_True in Hle by done. specialize (H2 path site). lia.
      * split; [lia |]. intros sites s Hs. rewrite uses_snoc. simpl. rewrite bool_decide_eq_false_2 by done. simpl. specialize (B2 sites s Hs). lia.
    + intros m pin' Hm. rewrite uses_snoc. simpl. specialize (Hr m pin' Hm). lia.
Qed.
Lemma by_review_ok counts line counts' ok gs : by_review file resolve strict source objects p config counts line = Ok (counts', ok) →
  counted counts gs → in_budget gs →
  if ok then ∃ g, grounded (Result line true CompilerOrTool) (Some g) ∧ counted counts' (gs ++ [Some g]) ∧ in_budget (gs ++ [Some g]) else counted counts' gs.
Proof.
  intros H Hc Hb. unfold by_review in H. set (message := normalize _ _ _ line) in *. destruct (review_for p message) as [pin|] eqn:Hp; [| by injection H as <- <-].
  cbv zeta in H. apply bind_Ok in H as (identity & Hid & H). injection H as <- Hok. destruct Hc as (H1 & H2 & H3). cbn [at_path at_site at_message] in *.
  assert (∀ m, count_of (bump message (at_message counts)) m = count_of (at_message counts) m + (if decide (message = m) then 1 else 0)) as E by (intros; apply count_bump).
  destruct ok.
  2: { split_and!; cbn [at_path at_site at_message]; [exact H1 | exact H2 |]. intros m. rewrite E. specialize (H3 m). destruct (decide _); lia. }
  apply andb_true_iff in Hok as [[Hident Hg]%andb_true_iff Hmax]. subst identity. apply Z.leb_le in Hmax. rewrite E, decide_True in Hmax by done.
  exists (ByReview message). split; [| split].
  - split_and!; [done | done |]. by exists pin.
  - split_and!; cbn [at_path at_site at_message]; intros.
    + rewrite uses_snoc. simpl. specialize (H1 path). lia.
    + rewrite uses_snoc. simpl. specialize (H2 path site). lia.
    + rewrite uses_snoc, E. simpl. specialize (H3 message0). case_bool_decide; destruct (decide _); try lia; done.
  - destruct Hb as [Ho Hr]. split.
    + intros q pin' Hq. destruct (Ho q pin' Hq) as [B1 B2]. rewrite uses_snoc. simpl. split; [lia |]. intros sites s Hs. rewrite uses_snoc. simpl. specialize (B2 sites s Hs). lia.
    + intros m pin' Hm. rewrite uses_snoc. simpl. case_bool_decide as Hmm; [| specialize (Hr m pin' Hm); lia]. subst m. rewrite Hp in Hm. injection Hm as <-. specialize (H3 message). lia.
Qed.

(** The lines that are reported, and their kind. *)
Definition reportable (stage line : pystr) : Prop := strip line ≠ [] ∧ (stage = "depmod" ∨ is_schema line = true ∨ is_message line = true).
#[export] Instance reportable_dec stage line : Decision (reportable stage line) := ltac:(unfold reportable; apply _).
Definition kind_of (stage line : pystr) : kind := if stage == "depmod" then Depmod else if is_schema line then Schema else CompilerOrTool.
Definition judged (stage : pystr) (done : list pystr) (acc : counters * list result) : Prop := ∃ gs,
  Forall2 grounded acc.2 gs ∧ counted acc.1 gs ∧ in_budget gs ∧ map r_line acc.2 = filter (reportable stage) done ∧
  Forall (λ r, r.(r_kind) = kind_of stage r.(r_line)) acc.2.
Lemma judged_snoc stage done rs gs (counts : counters) line ok k g : k = kind_of stage line → Forall2 grounded rs gs → map r_line rs = filter (reportable stage) done →
  Forall (λ r, r.(r_kind) = kind_of stage r.(r_line)) rs → reportable stage line → grounded (Result line ok k) g →
  counted counts (gs ++ [g]) → in_budget (gs ++ [g]) → judged stage (done ++ [line]) (counts, rs ++ [Result line ok k]).
Proof.
  intros -> HF Hm Hk Hr Hg Hc Hb. exists (gs ++ [g]). simpl. split_and!; [by apply Forall2_app; [| constructor] | done | done | |].
  - rewrite map_app, filter_app, filter_cons_True by done. simpl. by rewrite Hm.
  - apply Forall_app. split; [done |]. by repeat constructor.
Qed.
Lemma judge_step stage done acc acc' line : judged stage done acc →
  judge file resolve strict source objects p config stage acc line = Ok acc' → judged stage (done ++ [line]) acc'.
Proof.
  intros (gs & HF & Hc & Hb & Hm & Hk) H. destruct acc as [counts rs]. unfold judge in H. simpl in *.
  assert (¬ reportable stage line → Ok (counts, rs) = Ok acc' → judged stage (done ++ [line]) acc') as Hskip.
  { intros Hr [= <-]. exists gs. simpl. rewrite filter_app, filter_cons_False, filter_nil, app_nil_r by done. done. }
  case_bool_decide as Hs; [apply Hskip; [by intros [] | done] |].
  case_bool_decide as Hd.
  { injection H as <-. apply judged_snoc with gs None; [unfold kind_of; by rewrite bool_decide_eq_true_2 | done.. | split; [done | by left] | done | by apply counted_none | by apply budget_none]. }
  destruct (negb (is_schema line) && negb (is_message line)) eqn:Hrep.
  { apply Hskip; [| done]. intros (_ & [|[H1|H1]]); [done | |]; rewrite H1 in Hrep; [done |]. by rewrite andb_false_r in Hrep. }
  assert (reportable stage line) as Hr.
  { split; [done |]. right. destruct (is_schema line); [by left | right]. by destruct (is_message line). }
  assert (kind_of stage line = if is_schema line then Schema else CompilerOrTool) as Hkind by (unfold kind_of; by rewrite bool_decide_eq_false_2).
  apply bind_Ok in H as ([c1 ok1] & H1 & H). apply bind_Ok in H as ([c2 ok2] & H2 & H). injection H as <-.
  destruct (is_schema line) eqn:Hsch.
  { injection H1 as <- <-. rewrite orb_true_r in H2. injection H2 as <- <-.
    apply judged_snoc with gs None; [done.. | by apply counted_none | by apply budget_none]. }
  pose proof (by_override_ok _ _ _ _ gs H1 Hc Hb) as Hov. destruct ok1; simpl in H2.
  { injection H2 as <- <-. destruct Hov as (g & Hg & Hc1 & Hb1). by apply judged_snoc with gs (Some g). }
  pose proof (by_review_ok _ _ _ _ gs H2 Hov Hb) as Hrv. destruct ok2.
  - destruct Hrv as (g & Hg & Hc2 & Hb2). by apply judged_snoc with gs (Some g).
  - apply judged_snoc with gs None; [done.. | by apply counted_none | by apply budget_none].
Qed.
End allowed.

(** C12. Every line of a log that depmod printed, that names a device tree or
    schema or that reads as a warning or error is reported, and a line is
    allowed only with a ground: a pin of the policy for its file, or a review
    of its exact message, whose files have the recorded hashes and whose
    configuration guards hold.  No pin, site or message is used more often
    than the policy says, and no schema or depmod line is ever allowed. *)
Theorem diagnostics_within_policy file is_file resolve strict source objects text stage p results :
  diagnostics file is_file resolve strict source objects text stage p = Ok results →
  ∃ config gs, read_config file is_file objects = Ok config ∧
    Forall2 (grounded file resolve strict source objects p config) results gs ∧ in_budget resolve source objects p gs ∧
    map r_line results = filter (reportable stage) (splitlines text) ∧ Forall (λ r, r.(r_kind) = kind_of stage r.(r_line)) results.
Proof.
  unfold diagnostics. intros H. apply bind_Ok in H as (config & Hcfg & H). apply bind_Ok in H as ([counts rs] & Hfold & H). injection H as <-.
  assert (judged file resolve strict source objects p config stage (splitlines text) (counts, rs)) as (gs & HF & _ & Hb & Hm & Hk).
  { eapply fold_res_ind; [| | exact Hfold].
    - assert (∀ f, uses f [] = 0) as H0 by done. exists []. split; [constructor |]. split; [| split; [| by split]].
      + split_and!; intros; by rewrite H0.
      + split; [intros path pin _; rewrite H0; split; [lia | intros sites site _; rewrite H0; lia] | intros message pin _; rewrite H0; lia].
    - intros done line acc acc' Hj _ Hs. by eapply judge_step. }
  by exists config, gs.
Qed.

(** ** The check of a build
    [main]: the report's two lists, and whether it says PASS. *)
Record report := Report { r_errors : list pystr; r_diagnostics : list result }.
Record stage_row := StageRow { s_status : option pystr; s_log_sha256 : option pystr }.
Record build_result := BuildResult { b_linux_base : pystr; b_outputs : dict pystr; b_stages : dict stage_row; b_release : pystr }.
Record provenance := Provenance { p_entry : entry; p_sha256 : pystr }.
Definition STAGES : list pystr := ["kernel-build" : pystr; "modules-install" : pystr; "depmod" : pystr; "dtbs-check" : pystr].

Definition add_errors (es : list pystr) : M report unit := λ st, (Ok (), Report (st.(r_errors) ++ es) st.(r_diagnostics)).
Definition report_if (bad : bool) (e : pystr) : M report unit := add_errors (if bad then [e] else []).
Definition add_diagnostics (rs : list result) : M report unit := λ st, (Ok (), Report st.(r_errors) (st.(r_diagnostics) ++ rs)).

Section main.
Context (file : pystr → res bytes) (is_file : pystr → bool) (resolve : pystr → pystr) (strict : pystr → res pystr).
(** The build directory, the policy's path and the checker's own, and the
    three documents as [json.loads] of their text gives them or raises. *)
Context (build policy_path checker : pystr) (raw_json : res build_result) (policy_json : res policy) (entries_json : res (list provenance)).

Definition check_file (relative expected error : pystr) : M report unit :=
  path ← lift (safe resolve strict build relative); h ← lift (sha file path);
  report_if (h != expected) error.
Definition check_stage (raw : build_result) (p : policy) (stage : pystr) : M report unit :=
  let row := default (StageRow None None) (dget stage raw.(b_stages)) in
  report_if (row.(s_status) != Some ("PASS" : pystr)) (stage ++ " did not complete successfully") ;;
  let log := child build (stage ++ ".log") in
  if negb (is_file log) then report_if true ("missing " ++ stage ++ ".log") else
  h ← lift (sha file log);
  report_if (Some h != row.(s_log_sha256)) ("recorded log changed " ++ stage ++ ".log") ;;
  data ← lift (file log);
  rs ← lift (diagnostics file is_file resolve strict (child build "source") (child build "objects") (decode_replace data) stage p);
  add_diagnostics rs.
Definition read_text (path : pystr) : res pystr := data ← file path; decode_utf8 data.
Definition closure_errors (raw : build_result) (entries : list provenance) : res (list pystr) :=
  let root := child build ("modules/lib/modules/" ++ raw.(b_release)) in
  builtin ← read_text (child root "modules.builtin");
  deps ← read_text (child root "modules.dep");
  of_option (module_closure (map p_entry entries) builtin deps raw.(b_release)) OutOfFuel "".
Definition main_body : M report unit :=
  raw ← lift raw_json; p ← lift policy_json;
  lift (sha file (child build "result.json")) ;; lift (sha file policy_path) ;; lift (sha file checker) ;;
  report_if (raw.(b_linux_base) != p.(base_commit)) "exact base identity mismatch" ;;
  each (λ '(relative, expected), check_file relative expected ("recorded output changed " ++ relative)) raw.(b_outputs) ;;
  each (check_stage raw p) STAGES ;;
  entries ← lift entries_json;
  each (λ e, check_file e.(p_entry).(e_path) e.(p_sha256) ("module bytes changed " ++ e.(p_entry).(e_name))) entries ;;
  es ← lift (closure_errors raw entries);
  add_errors es.
Definition unreviewed (st : report) : bool := existsb (λ r, negb r.(r_allowed)) st.(r_diagnostics).
Definition check_reviewed : M report unit := λ st, report_if (unreviewed st) "unreviewed diagnostic output" st.
Definition caught (c : exn_class) : bool :=
  is_oserror c || bool_decide (c ∈ [ValueError; UnicodeError; KeyError; TypeError; IndexError]).
Definition main : res (report * bool) :=
  let m := catch (main_body ;; check_reviewed) caught
             (λ e, report_if true (exn_msg e)) in
  match m (Report [] []) with
  | (Ok _, st) => Ok (st, st.(r_errors) == [])
  | (Raise e, _) => Raise e
  end.

(** What a passing build is: the base the policy is for, every recorded output
    and every installed module unchanged, the four stages passed with their
    recorded logs, every reported line of them allowed, and the installed
    modules closed. *)
Definition stage_passed (raw : build_result) (p : policy) (stage : pystr) (rs : list result) : Prop :=
  let log := child build (stage ++ ".log") in
  is_file log = true ∧ ∃ data row, file log = Ok data ∧ dget stage raw.(b_stages) = Some row ∧
    row.(s_status) = Some ("PASS" : pystr) ∧ row.(s_log_sha256) = Some (sha256 data) ∧
    diagnostics file is_file resolve strict (child build "source") (child build "objects") (decode_replace data) stage p = Ok rs.
Definition has_sha (relative expected : pystr) : Prop :=
  ∃ path data, safe resolve strict build relative = Ok path ∧ file path = Ok data ∧ sha256 data = expected.
Definition build_accepted (rs : list result) : Prop :=
  ∃ raw p entries builtin deps rss, raw_json = Ok raw ∧ policy_json = Ok p ∧ entries_json = Ok entries ∧
    (∀ path, path ∈ [child build "result.json"; policy_path; checker] → is_ok (file path) = true) ∧
    raw.(b_linux_base) = p.(base_commit) ∧ Forall (λ '(relative, expected), has_sha relative expected) raw.(b_outputs) ∧
    Forall2 (stage_passed raw p) STAGES rss ∧ rs = concat rss ∧ Forall (λ r, r.(r_allowed) = true) rs ∧
    Forall (λ e, has_sha e.(p_entry).(e_path) e.(p_sha256)) entries ∧
    (let root := child build ("modules/lib/modules/" ++ raw.(b_release)) in
     read_text (child root "modules.builtin") = Ok builtin ∧ read_text (child root "modules.dep") = Ok deps) ∧
    closed (map p_entry entries) builtin deps raw.(b_release).
End main.

(** Code that appends [rs] and gives [a] where [P a rs], without an error. *)
Definition clean {A} (m : M report A) (P : A → list result → Prop) : Prop := ∀ st a st',
  m st = (Ok a, st') ∧ st'.(r_errors) = [] ↔ st.(r_errors) = [] ∧ ∃ rs, P a rs ∧ st' = Report [] (st.(r_diagnostics) ++ rs).
Lemma clean_iff {A} (m : M report A) P Q : clean m P → (∀ a rs, P a rs ↔ Q a rs) → clean m Q.
Proof. intros H HPQ st a st'. rewrite (H st a st'). by setoid_rewrite HPQ. Qed.
Lemma clean_bind {A B} (m : M report A) (f : A → M report B) P Q : clean m P → (∀ a, clean (f a) (Q a)) →
  clean (m ≫= f) (λ b rs, ∃ a rs1 rs2, P a rs1 ∧ Q a b rs2 ∧ rs = rs1 ++ rs2).
Proof.
  intros Hm Hf st b st'. unfold mbind, M_mbind. split.
  - destruct (m st) as [[a|e] st1] eqn:Hst; [| intros [? _]; done]. intros H. apply Hf in H as (H1 & rs2 & HQ & ->).
    assert (m st = (Ok a, st1) ∧ st1.(r_errors) = []) as [H0 (rs1 & HP & ->)]%Hm by done. split; [done |]. exists (rs1 ++ rs2). simpl. rewrite app_assoc. split; [by exists a, rs1, rs2 | done].
  - intros (H0 & rs & (a & rs1 & rs2 & HP & HQ & ->) & ->).
    assert (m st = (Ok a, Report [] (st.(r_diagnostics) ++ rs1)) ∧ (Report [] (st.(r_diagnostics) ++ rs1)).(r_errors) = []) as [-> _] by (apply Hm; split; [done | by exists rs1]).
    apply Hf. split; [done |]. exists rs2. simpl. by rewrite app_assoc.
Qed.
Lemma clean_lift {A} (r : res A) : clean (lift r) (λ a rs, r = Ok a ∧ rs = []).
Proof.
  intros st a st'. unfold lift. split.
  - intros [[= -> <-] H]. split; [done |]. exists []. rewrite app_nil_r. split; [done |]. destruct st; simpl in *; by subst.
  - intros (H & rs & [-> ->] & ->). rewrite app_nil_r. destruct st; simpl in *; by subst.
Qed.
Lemma clean_get {A B} (r : res A) (f : A → M report B) Q : (∀ a, clean (f a) (Q a)) → clean (lift r ≫= f) (λ b rs, ∃ a, r = Ok a ∧ Q a b rs).
Proof.
  intros Hf. eapply clean_iff; [apply clean_bind; [apply clean_lift | exact Hf] |]. intros b rs. split.
  - intros (a & ? & rs2 & [Hr ->] & HQ & ->). by exists a.
  - intros (a & Hr & HQ). by exists a, [], rs.
Qed.
Lemma clean_guard {B} (m : M report unit) (k : M report B) P Q : clean m (λ _ rs, P ∧ rs = []) → clean k Q → clean (m ;; k) (λ b rs, P ∧ Q b rs).
Proof.
  intros Hm Hk. eapply clean_iff; [apply clean_bind; [exact Hm | intros; exact Hk] |]. intros b rs. split.
  - intros (a & ? & rs2 & [HP ->] & HQ & ->). done.
  - intros (HP & HQ). by exists (), [], rs.
Qed.
Lemma clean_add es : clean (add_errors es) (λ _ rs, es = [] ∧ rs = []).
Proof.
  intros st [] st'. unfold add_errors. split.
  - intros [[= <-] [H ->]%app_eq_nil]. split; [done |]. exists []. by rewrite !app_nil_r, H.
  - intros (H & rs & [-> ->] & ->). by rewrite H, !app_nil_r.
Qed.
Lemma clean_report_if bad e : clean (report_if bad e) (λ _ rs, bad = false ∧ rs = []).
Proof. eapply clean_iff; [apply clean_add |]. intros a rs. destruct bad; split; intros [H ->]; done. Qed.
Lemma clean_diagnostics rs0 : clean (add_diagnostics rs0) (λ _ rs, rs = rs0).
Proof.
  intros st [] st'. unfold add_diagnostics. split.
  - intros [[= <-] H]. split; [done |]. exists rs0. simpl in *. by rewrite H.
  - intros (H & rs & -> & ->). by rewrite H.
Qed.
Lemma clean_each {A} (f : A → M report unit) (P : A → list result → Prop) l : (∀ x, clean (f x) (λ _, P x)) →
  clean (each f l) (λ _ rs, ∃ rss, Forall2 P l rss ∧ rs = concat rss).
Proof.
  intros Hf. induction l as [|x l IH].
  - eapply clean_iff; [exact (clean_lift (Ok ())) |]. intros [] rs. split; [intros [_ ->]; exists []; by split; [constructor |] |].
    intros (rss & H & ->). apply Forall2_nil_inv_l in H as ->. done.
  - assert (each f (x :: l) = (f x ;; each f l)) as -> by done. eapply clean_iff; [apply clean_bind; [apply Hf | intros; apply IH] |].
    intros a rs. split.
    + intros (_ & rs1 & rs2 & HP & (rss & HF & ->) & ->). exists (rs1 :: rss). split; [by constructor | done].
    + intros (rss & HF & ->). apply Forall2_cons_inv_l in HF as (rs1 & rss' & HP & HF & ->). exists (), rs1, (concat rss'). split_and!; [done | by exists rss' | done].
Qed.
Lemma clean_files {A} (f : A → M report unit) (P : A → Prop) l : (∀ x, clean (f x) (λ _ rs, P x ∧ rs = [])) →
  clean (each f l) (λ _ rs, Forall P l ∧ rs = []).
Proof.
  intros Hf. eapply clean_iff; [apply (clean_each f (λ x rs, P x ∧ rs = [])), Hf |]. intros [] rs. split.
  - intros (rss & HF & ->). induction HF as [|x r l rss [HP ->] HF [IH1 IH2]]; [by split |]. split; [by constructor | done].
  - intros [HF ->]. exists (map (λ _, []) l). induction HF as [|x l HP HF [IH1 IH2]]; [by split |]. split; [by constructor | done].
Qed.

Section main_lemmas.
Context (file : pystr → res bytes) (is_file : pystr → bool) (resolve : pystr → pystr) (strict : pystr → res pystr).
Context (build policy_path checker : pystr) (raw_json : res build_result) (policy_json : res policy) (entries_json : res (list provenance)).

Lemma sha_Ok path h : sha file path = Ok h ↔ ∃ data, file path = Ok data ∧ h = sha256 data.
Proof.
  unfold sha. destruct (file path) as [data|e]; simpl.
  - split; [intros [= <-]; by exists data | by intros (? & [= ->] & ->)].
  - split; [done | by intros (? & ? & _)].
Qed.
Lemma clean_check_file relative expected error :
  clean (check_file file resolve strict build relative expected error) (λ _ rs, has_sha file resolve strict build relative expected ∧ rs = []).
Proof.
  unfold check_file. eapply clean_iff; [apply clean_bind; [apply clean_lift | intros; apply clean_bind; [apply clean_lift | intros; apply clean_report_if]] |].
  intros [] rs. unfold has_sha. setoid_rewrite sha_Ok. setoid_rewrite negb_false_iff. setoid_rewrite bool_decide_eq_true. split.
  - intros (path & ? & ? & [Hp ->] & (h & ? & ? & [(data & Hd & ->) ->] & [He ->] & ->) & ->). split; [by exists path, data | done].
  - intros [(path & data & Hp & Hd & He) ->]. exists path, [], []. split_and!; [done | done | | done]. exists (sha256 data), [], []. split_and!; try done. by exists data.
Qed.
Lemma clean_check_stage raw p stage :
  clean (check_stage file is_file resolve strict build raw p stage) (λ _ rs, stage_passed file is_file resolve strict build raw p stage rs).
Proof.
  unfold check_stage. set (row := default _ _). set (log := child build _).
  destruct (is_file log) eqn:Hlog; simpl.
  2: { eapply clean_iff; [apply clean_bind; [apply clean_report_if | intros; apply clean_report_if] |].
    intros [] rs. split; [intros (? & ? & ? & _ & [[=] _] & _) | intros [H _]; fold log in H; congruence]. }
  eapply clean_iff; [apply clean_bind; [apply clean_report_if | intros; apply clean_bind; [apply clean_lift | intros; apply clean_bind; [apply clean_report_if |
    intros; apply clean_bind; [apply clean_lift | intros; apply clean_bind; [apply clean_lift | intros; apply clean_diagnostics]]]]] |].
  intros [] rs. unfold stage_passed. setoid_rewrite sha_Ok. setoid_rewrite negb_false_iff. setoid_rewrite bool_decide_eq_true. split.
  - intros (_ & ? & ? & [Hs ->] & (h & ? & ? & [(data & Hd & ->) ->] & (_ & ? & ? & [Hh ->] & (data' & ? & ? & [Hd' ->] & (rs' & ? & ? & [Hrs ->] & <- & ->) & ->) & ->) & ->) & ->).
    simpl. rewrite Hd in Hd'. injection Hd' as <-. split; [done |]. unfold row in *. destruct (dget stage (b_stages raw)) as [r|] eqn:Hr; [| done]. by exists data, r.
  - intros (_ & data & r & Hd & Hr & Hs & Hh & Hrs). unfold row in *. rewrite Hr in *. simpl in *. fold log in Hd.
    exists (), [], rs. split_and!; try done. exists (sha256 data), [], rs. split_and!; try done; [by exists data |].
    exists (), [], rs. split_and!; try done. exists data, [], rs. split_and!; try done. exists rs, [], rs. split_and!; done.
Qed.
Lemma closure_errors_Ok raw entries : closure_errors file build raw entries = Ok [] ↔ ∃ builtin deps,
  (let root := child build ("modules/lib/modules/" ++ raw.(b_release)) in
   read_text file (child root "modules.builtin") = Ok builtin ∧ read_text file (child root "modules.dep") = Ok deps) ∧
  closed (map p_entry entries) builtin deps raw.(b_release).
Proof.
  unfold closure_errors. cbv zeta. split.
  - intros (builtin & Hb & (deps & Hd & H)%bind_Ok)%bind_Ok. exists builtin, deps. split; [done |]. apply of_option_Ok in H.
    destruct (module_closure_spec (map p_entry entries) builtin deps (b_release raw)) as (es & Hes & Hiff). apply Hiff. congruence.
  - intros (builtin & deps & [Hb Hd] & Hc). rewrite Hb. cbn [mbind res_mbind res_bind]. rewrite Hd. cbn [mbind res_mbind res_bind].
    destruct (module_closure_spec (map p_entry entries) builtin deps (b_release raw)) as (es & -> & Hiff). apply Hiff in Hc as ->. done.
Qed.

Definition body_accepted (rs : list result) : Prop :=
  ∃ raw p entries builtin deps rss, raw_json = Ok raw ∧ policy_json = Ok p ∧ entries_json = Ok entries ∧
    (∀ path, path ∈ [child build "result.json"; policy_path; checker] → is_ok (file path) = true) ∧
    raw.(b_linux_base) = p.(base_commit) ∧ Forall (λ '(relative, expected), has_sha file resolve strict build relative expected) raw.(b_outputs) ∧
    Forall2 (stage_passed file is_file resolve strict build raw p) STAGES rss ∧ rs = concat rss ∧
    Forall (λ e, has_sha file resolve strict build e.(p_entry).(e_path) e.(p_sha256)) entries ∧
    (let root := child build ("modules/lib/modules/" ++ raw.(b_release)) in
     read_text file (child root "modules.builtin") = Ok builtin ∧ read_text file (child root "modules.dep") = Ok deps) ∧
    closed (map p_entry entries) builtin deps raw.(b_release).
Lemma clean_body : clean (main_body file is_file resolve strict build policy_path checker raw_json policy_json entries_json) (λ _ rs, body_accepted rs).
Proof.
  unfold main_body. eapply clean_iff.
  { apply clean_get. intros raw. apply clean_get. intros p. apply clean_get. intros h1. apply clean_get. intros h2. apply clean_get. intros h3.
    apply clean_guard; [apply clean_report_if |]. apply clean_guard; [apply (clean_files _ (λ '(relative, expected), has_sha file resolve strict build relative expected)); intros [relative expected]; apply clean_check_file |].
    apply clean_bind; [apply clean_each; intros stage; apply clean_check_stage | intros u]. apply clean_get. intros entries.
    apply clean_guard; [apply (clean_files _ (λ e, has_sha file resolve strict build e.(p_entry).(e_path) e.(p_sha256))); intros e; apply clean_check_file |].
    apply clean_get. intros es. apply clean_add. }
  intros [] rs. unfold body_accepted. split.
  - intros (raw & Hraw & p & Hp & h1 & H1 & h2 & H2 & h3 & H3 & Hbase%negb_false_iff%bool_decide_eq_true & Hout & [] & ? & ? & (rss & Hst & ->) &
      (entries & Hent & Hbytes & es & Hes & -> & ->) & ->). apply closure_errors_Ok in Hes as (builtin & deps & Hread & Hcl).
    exists raw, p, entries, builtin, deps, rss. rewrite app_nil_r. destruct Hread. split_and!; try done.
    intros path Hpath. apply is_ok_true. rewrite !elem_of_cons, elem_of_nil in Hpath.
    destruct Hpath as [->|[->|[->|[]]]]; [apply sha_Ok in H1 as (data & Hd & _) | apply sha_Ok in H2 as (data & Hd & _) | apply sha_Ok in H3 as (data & Hd & _)]; by exists data.
  - intros (raw & p & entries & builtin & deps & rss & Hraw & Hp & Hent & Hfiles & Hbase & Hout & Hst & -> & Hbytes & Hread & Hcl).
    assert (∀ path, path ∈ [child build "result.json"; policy_path; checker] → ∃ h, sha file path = Ok h) as Hsha.
    { intros path Hpath. apply Hfiles, is_ok_true in Hpath as [data Hd]. exists (sha256 data). apply sha_Ok. by exists data. }
    destruct (Hsha (child build "result.json")) as [h1 H1]; [by left |]. destruct (Hsha policy_path) as [h2 H2]; [by right; left |]. destruct (Hsha checker) as [h3 H3]; [by right; right; left |].
    exists raw. split; [done |]. exists p. split; [done |]. exists h1. split; [done |]. exists h2. split; [done |]. exists h3. split; [done |].
    split; [by apply negb_false_iff, bool_decide_eq_true |]. split; [done |]. exists (), (concat rss), []. rewrite app_nil_r. split; [by exists rss |]. split; [| done].
    exists entries. split; [done |]. split; [done |]. exists []. split; [| done]. apply closure_errors_Ok. by exists builtin, deps.
Qed.
End main_lemmas.

(** The check of a build says PASS exactly when the build is of the
    policy's base, every recorded output and every installed module has its
    recorded hash, the four stages passed and their recorded logs hold no
    diagnostic the policy does not allow, and the installed modules are
    closed.  Whatever raises on the way is an error or ends the program. *)
Theorem main_exact file is_file resolve strict build policy_path checker raw_json policy_json entries_json rs :
  main file is_file resolve strict build policy_path checker raw_json policy_json entries_json = Ok (Report [] rs, true) ↔
  build_accepted file is_file resolve strict build policy_path checker raw_json policy_json entries_json rs.
Proof.
  set (body := main_body file is_file resolve strict build policy_path checker raw_json policy_json entries_json).
  assert (build_accepted file is_file resolve strict build policy_path checker raw_json policy_json entries_json rs ↔
    body_accepted file is_file resolve strict build policy_path checker raw_json policy_json entries_json rs ∧ Forall (λ r, r.(r_allowed) = true) rs) as ->.
  { unfold build_accepted, body_accepted. split.
    - intros (raw & p & entries & builtin & deps & rss & H). split; [exists raw, p, entries, builtin, deps, rss |]; tauto.
    - intros [(raw & p & entries & builtin & deps & rss & H) Ha]. exists raw, p, entries, builtin, deps, rss. tauto. }
  assert (∀ st, unreviewed st = false ↔ Forall (λ r, r.(r_allowed) = true) st.(r_diagnostics)) as Hun.
  { intros st. unfold unreviewed. induction (r_diagnostics st) as [|r l IH]; simpl; [done |]. rewrite orb_false_iff, negb_false_iff, IH, Forall_cons. done. }
  pose proof (clean_body file is_file resolve strict build policy_path checker raw_json policy_json entries_json (Report [] [])) as Hbody. fold body in Hbody.
  unfold main. fold body. unfold catch, mbind, M_mbind. split.
  - destruct (body (Report [] [])) as [[[]|e] st] eqn:Hb; simpl.
    + unfold check_reviewed. simpl. destruct (unreviewed st) eqn:Hu; simpl; [intros [= H _ _]; by apply app_eq_nil in H as [] |]. rewrite app_nil_r.
      intros [= He Hd _]. destruct st as [es ds]. simpl in *. subst es ds.
      destruct (Hbody () (Report [] rs)) as [Hto _]. destruct Hto as (_ & rs' & Hacc & [= ->]); [done |]. split; [done |]. by apply (Hun (Report [] rs')).
    + destruct (caught (exn_cls e)); [| done]. simpl. intros [= Hst _ _]. by apply app_eq_nil in Hst as [].
  - intros [Hacc Hall]. destruct (Hbody () (Report [] rs)) as [_ Hfrom]. destruct Hfrom as [-> _]; [split; [done |]; by exists rs |].
    simpl. assert (unreviewed (Report [] rs) = false) as Hu by (by apply Hun). unfold check_reviewed. by rewrite Hu.
Qed.

(** A policy that allows one warning of an unchanged file, on a log that has
    it twice, under both names of the file, and a schema error. *)
Definition ex_tree (path : pystr) : res bytes :=
  if path == "/b/source/drivers/a.c" then Ok ("int a;" : bytes) else Raise (Exn FileNotFoundError path).
Definition ex_policy : policy :=
  Policy "base" [] [Review "drivers/a.c" (sha256 "int a;") [] [("CONFIG_A" : pystr, "n" : pystr)] [("drivers/a.c:3:1: warning: unused" : pystr, 1)]].
Definition ex_log : pystr := unlines ["/b/source/drivers/a.c:3:1: warning: unused" : pystr; "  CC      drivers/a.o" : pystr;
  "../source/drivers/a.c:3:1: warning: unused" : pystr; "sm8350.dtb: node: fails" : pystr].
Example diagnostics_example : diagnostics ex_tree (λ _, false) id Ok "/b/source" "/b/objects" ex_log "kernel-build" ex_policy =
  Ok [Result "/b/source/drivers/a.c:3:1: warning: unused" true CompilerOrTool;
      Result "../source/drivers/a.c:3:1: warning: unused" false CompilerOrTool;
      Result "sm8350.dtb: node: fails" false Schema].
Proof. vm_compute. reflexivity. Qed.
Definition ex_diagnostics := diagnostics ex_tree (λ _, false) id Ok "/b/source" "/b/objects" (unlines ["make: warning: slow" : pystr; "a.dtb: bad" : pystr]) "kernel-build" ex_policy.
Example diagnostics_within_policy_witness : ∃ results gs,
  ex_diagnostics = Ok results ∧ Forall2 (grounded ex_tree id Ok "/b/source" "/b/objects" ex_policy []) results gs ∧ length results = 2%nat.
Proof.
  assert (ex_diagnostics = Ok [Result "make: warning: slow" false CompilerOrTool; Result "a.dtb: bad" false Schema]) as H by (vm_compute; reflexivity).
  destruct (diagnostics_within_policy _ _ _ _ _ _ _ _ _ _ H) as (config & gs & Hc & HF & _ & _ & _).
  exists [Result "make: warning: slow" false CompilerOrTool; Result "a.dtb: bad" false Schema], gs. split; [exact H |]. split; [| reflexivity].
  injection Hc as <-. exact HF.
Defined.
