(* ===== verification/DraftPolicy.v ===== *)
(** * Drafting a warning policy

    scripts/host/draft-warning-policy.py: from one completed build of a new
    kernel base and the policy of the previous base, the entries whose pinned
    files are unchanged are kept, and what is left is pinned when it is in a
    file the series does not modify.  The directory of the build is read as in
    [Diagnostics]; the three JSON documents are records of the fields the code
    reads, so the [reason] of a review, which nothing reads, is left out.
    Lines are split as for ASCII text. *)

From stdpp Require Import sorting.
From S2P Require Import Prelude PyStr PyData Regex Sha256 ModuleClosure Diagnostics.

(** [re.findall(r'^\+\+\+ b/(\S+)', text, re.M)] *)
Fixpoint nonspace (s : pystr) : pystr :=
  match s with c :: s => if is_space c then [] else c :: nonspace s | [] => [] end.
Definition PLUS_FILE : pystr := "+++ b/".
Definition touched_in (text : pystr) : list pystr :=
  omap (λ line, if startswith line PLUS_FILE then let name := nonspace (drop (length PLUS_FILE) line) in if name == [] then None else Some name else None)
    (split_on LF text).
(** [patches] holds the text of every [*.patch] of the series. *)
Definition touched_files (patches : list pystr) : list pystr := concat (map touched_in patches).

Definition path_char (c : ascii) : bool := is_alnum c || one_of "_./+-" c.
Definition path_rx : rx :=
  RSeq (plus path_char) (RSeq (lit ".")
    (RAlt (lit "c") (RAlt (lit "h") (RAlt (lit "S") (RAlt (lit "dtsi") (RAlt (lit "dts") (RAlt (lit "dtso") (lit "rs")))))))).
Record evidence := Evidence { e_build : pystr; e_build_result_sha256 : pystr; e_previous_policy_sha256 : pystr;
  e_kept_initializer_pins : Z; e_kept_reviewed_files : Z; e_drafted_files : Z; e_drafted_messages : Z }.
Definition row : Type := pystr * result.

Section draft.
Context (file : pystr → res bytes) (is_file : pystr → bool) (resolve : pystr → pystr) (strict : pystr → res pystr).
(** The resolved build directory, the texts of the patches of the series, and
    the three documents as [json.loads] of their text gives them or raises. *)
Context (build previous_path : pystr) (patches : list pystr).
Context (raw_json : res build_result) (base_json : res pystr) (previous_json : res policy).

Definition objects : pystr := child build "objects".
Definition source : pystr := resolve (child build "source").
Definition message_of (line : pystr) : pystr := normalize resolve source objects line.
(** The group has no colon, so it ends at the first one. *)
Definition source_path (line : pystr) : option pystr :=
  let text := message_of line in
  let text := if startswith text WARNING then drop (length WARNING) text else text in
  let '(name, found, _) := partition ":" text in
  if found && fullmatch path_rx name then Some name else None.
Definition check_stage (p : policy) (rows : list row) (stage : pystr) : res (list row) :=
  let log := child build (stage ++ ".log") in
  if negb (is_file log) then Ok rows else
  data ← file log;
  rs ← diagnostics file is_file resolve strict (child build "source") objects (decode_replace data) stage p;
  Ok (rows ++ map (λ r, (stage, r)) rs).
Definition check (p : policy) : res (list row) := fold_res (check_stage p) [] STAGES.

(** [is_file(path) and sha(path) == expected], for a pin and, in order, its
    dependencies. *)
Definition same_file (path expected : pystr) : res bool :=
  if is_file path then h ← sha file path; Ok (h == expected) else Ok false.
Fixpoint all_same (files : list (pystr * pystr)) : res bool :=
  match files with
  | [] => Ok true
  | (path, expected) :: files => same ← same_file path expected; if (same : bool) then all_same files else Ok false
  end.
Definition root (r : pystr) : pystr := if r == "source" then source else objects.
Definition override_pins (pin : override) : list (pystr * pystr) :=
  (child (root pin.(o_root)) pin.(o_path), pin.(o_sha256)) ::
  map (λ d, (child (root d.(d_root)) d.(d_path), d.(d_sha256))) pin.(o_dependencies).
Definition review_pins (pin : review) : list (pystr * pystr) :=
  (child source pin.(r_path), pin.(r_sha256)) :: map (λ d, (child source d.(d_path), d.(d_sha256))) pin.(r_dependencies).
Definition keep_override (kept : list override) (pin : override) : res (list override) :=
  same ← all_same (override_pins pin);
  Ok (if (same : bool) then kept ++ [pin] else kept).
(** The messages of a review under their normal names. *)
Definition rekey (messages : dict Z) (item : pystr * Z) : res (dict Z) :=
  let key := message_of item.1 in
  refuse_if (match dget key messages with Some n => negb (n =? item.2) | None => false end) ValueError ("conflicting counts for " ++ key) ;;
  Ok (dset key item.2 messages).
Definition keep_review (st : list pystr * list review) (pin : review) : res (list pystr * list review) :=
  let '(owned, kept) := st in
  same ← all_same (review_pins pin);
  if negb same then Ok st else
  messages ← fold_res rekey [] pin.(r_messages);
  let messages := filter (λ item, item.1 ∉ owned) messages in
  Ok (match messages with
      | [] => st
      | _ => (owned ++ messages.*1, kept ++ [Review pin.(r_path) pin.(r_sha256) pin.(r_dependencies) pin.(r_config_guards) messages])
      end).
(** A diagnostic that may be drafted is in a file the series leaves alone. *)
Definition draftable (touched : list pystr) (r : row) : option pystr :=
  match source_path r.2.(r_line) with
  | Some path =>
      if bool_decide (r.2.(r_kind) = CompilerOrTool) && (r.1 != "depmod") && negb (is_in path touched) && is_file (child source path)
      then Some path else None
  | None => None
  end.
Definition count_message (drafted : dict (dict Z)) (path message : pystr) : dict (dict Z) :=
  let messages := default [] (dget path drafted) in
  dset path (dset message (default 0 (dget message messages) + 1) messages) drafted.
Definition draft_row (touched : list pystr) (st : list row * dict (dict Z)) (r : row) : list row * dict (dict Z) :=
  if r.2.(r_allowed) then st else
  match draftable touched r with
  | Some path => (st.1, count_message st.2 path (message_of r.2.(r_line)))
  | None => (st.1 ++ [r], st.2)
  end.
Definition sorted_paths (drafted : dict (dict Z)) : dict (dict Z) := merge_sort (λ a b, pystr_le a.1 b.1) drafted.
Definition draft_review (kept : list review) (item : pystr * dict Z) : res (list review) :=
  h ← sha file (child source item.1);
  Ok (kept ++ [Review item.1 h [] [] item.2]).
Definition not_allowed (rows : list row) : list row := filter (λ r, r.2.(r_allowed) = false) rows.
Definition total (drafted : dict (dict Z)) : Z := foldr (λ item n, foldr (λ c n, c.2 + n) 0 item.2 + n) 0 drafted.
(** [main] up to the write of the policy, its last action. *)
Definition main (output_exists : bool) : res (policy * evidence) :=
  refuse_if output_exists ValueError "output exists" ;;
  raw ← raw_json; base_commit ← base_json;
  refuse_if (raw.(b_linux_base) != base_commit) ValueError "build is not of the new base" ;;
  refuse_if (negb (forallb (λ s, match dget s raw.(b_stages) with Some r => r.(s_status) == Some ("PASS" : pystr) | None => false end) STAGES))
    ValueError "a build stage did not pass" ;;
  previous ← previous_json;
  let touched := touched_files patches in
  overrides ← fold_res keep_override [] previous.(initializer_overrides);
  '(_, reviews) ← fold_res keep_review ([], []) previous.(reviewed_messages);
  rows ← check (Policy base_commit overrides reviews);
  let '(refused, drafted) := foldl (draft_row touched) ([], []) rows in
  refuse_if (negb (bool_decide (refused = []))) ValueError "diagnostics that cannot be drafted" ;;
  all ← fold_res draft_review reviews (sorted_paths drafted);
  let p := Policy base_commit overrides all in
  result_hash ← sha file (child build "result.json");
  previous_hash ← sha file previous_path;
  left ← check p;
  refuse_if (negb (bool_decide (not_allowed left = []))) ValueError "drafted policy still leaves diagnostics" ;;
  Ok (p, Evidence build result_hash previous_hash (len overrides) (len reviews) (len drafted) (total drafted)).
End draft.

(** ** What is kept *)
Section laws.
Context (file : pystr → res bytes) (is_file : pystr → bool) (resolve : pystr → pystr) (build : pystr).
Abbreviation message_at := (message_of resolve build).
Abbreviation source_at := (source resolve build).
Abbreviation draftable_row := (draftable is_file resolve build).

(** A file is there and has the hash of its pin. *)
Definition intact (pin : pystr * pystr) : bool := is_file pin.1 && match file pin.1 with Ok data => sha256 data == pin.2 | Raise _ => false end.
Definition intact_override (pin : override) : bool := forallb intact (override_pins resolve build pin).
Definition intact_review (pin : review) : bool := forallb intact (review_pins resolve build pin).
Lemma same_file_Ok path expected b : same_file file is_file path expected = Ok b → b = intact (path, expected).
Proof.
  unfold same_file, intact, sha. simpl. destruct (is_file path); [| by intros [= <-]]. destruct (file path) as [data|e]; [| done].
  simpl. by intros [= <-].
Qed.
Lemma all_same_Ok files b : all_same file is_file files = Ok b → b = forallb intact files.
Proof.
  revert b. induction files as [|[path expected] files IH]; intros b H; simpl in H; [by injection H as <- |].
  bind_inv H as same Hs. apply same_file_Ok in Hs as ->. cbn [forallb]. destruct (intact (path, expected)); [by apply IH | by injection H as <-].
Qed.
Lemma overrides_kept l r : fold_res (keep_override file is_file resolve build) [] l = Ok r → r = List.filter intact_override l.
Proof.
  intros H. eapply (fold_res_ind (λ done r, r = List.filter intact_override done)); [done | | exact H].
  intros done pin acc acc' -> _ Hs. unfold keep_override in Hs. bind_inv Hs as same Hsame. apply all_same_Ok in Hsame. injection Hs as <-.
  rewrite List.filter_app. simpl. fold (intact_override pin) in Hsame. rewrite <- Hsame. destruct same; [done | by rewrite app_nil_r].
Qed.

Lemma rekeyed l messages : fold_res (rekey resolve build) [] l = Ok messages → NoDup messages.*1 ∧
  (∀ k n, (k, n) ∈ messages → ∃ m, (m, n) ∈ l ∧ message_at m = k) ∧ ∀ m n, (m, n) ∈ l → message_at m ∈ messages.*1.
Proof.
  intros H. eapply (fold_res_ind (λ done messages, NoDup messages.*1 ∧ (∀ k n, (k, n) ∈ messages → ∃ m, (m, n) ∈ done ∧ message_at m = k) ∧
    ∀ m n, (m, n) ∈ done → message_at m ∈ messages.*1)); [| | exact H].
  { split; [constructor |]. by split; intros ? ? ?%not_elem_of_nil. }
  intros done [m n] acc acc' (Hnd & Hfrom & Hall) _ Hs. unfold rekey in Hs. simpl in Hs. guard_inv Hs as _. injection Hs as <-.
  pose proof (dset_keys_NoDup (message_at m) n acc Hnd) as Hnd'. split; [done |]. split.
  - intros k x Hin. apply (dget_unique _ _ _ Hnd') in Hin. rewrite dget_dset in Hin. case_bool_decide as Hk.
    + injection Hin as <-. exists m. split; [| done]. apply elem_of_app. right. by left.
    + apply dget_elem, Hfrom in Hin as (m0 & Hm0 & ?). exists m0. split; [| done]. apply elem_of_app. by left.
  - intros m0 n0 Hin. apply dget_mem. rewrite dget_dset. case_bool_decide; [by eexists |]. apply dget_mem.
    apply elem_of_app in Hin as [Hin|Hin%list_elem_of_singleton]; [by eapply Hall | by injection Hin as -> ->].
Qed.

(** A kept review is an intact one with its messages under normal names. *)
Definition retained (old pin : review) : Prop :=
  intact_review old = true ∧ pin.(r_path) = old.(r_path) ∧ pin.(r_sha256) = old.(r_sha256) ∧ pin.(r_dependencies) = old.(r_dependencies) ∧
  pin.(r_config_guards) = old.(r_config_guards) ∧ ∀ m n, (m, n) ∈ pin.(r_messages) → ∃ m0, (m0, n) ∈ old.(r_messages) ∧ message_at m0 = m.
Definition owners (kept : list review) : list pystr := concat (map (λ pin, pin.(r_messages).*1) kept).
Definition kept_of (l : list review) (owned : list pystr) (kept : list review) : Prop :=
  owned = owners kept ∧ NoDup owned ∧ (∀ pin, pin ∈ kept → ∃ old, old ∈ l ∧ retained old pin) ∧
  ∀ old m n, old ∈ l → intact_review old = true → (m, n) ∈ old.(r_messages) → message_at m ∈ owned.
Lemma kept_more l l' owned kept : (∀ x, x ∈ l → x ∈ l') →
  (∀ old m n, old ∈ l' → intact_review old = true → (m, n) ∈ old.(r_messages) → old ∈ l ∨ message_at m ∈ owned) →
  kept_of l owned kept → kept_of l' owned kept.
Proof.
  intros Hl Hnew (Ho & Hnd & Hret & Hall). split_and!; [done | done | |].
  - intros pin Hp. destruct (Hret pin Hp) as (old & ? & ?). exists old. split; [by apply Hl | done].
  - intros old m n Hin Hi Hm. destruct (Hnew old m n Hin Hi Hm); [by eapply Hall | done].
Qed.
Lemma filter_keys (owned : list pystr) (messages : dict Z) : (filter (λ item, item.1 ∉ owned) messages).*1 = filter (λ k, k ∉ owned) messages.*1.
Proof.
  induction messages as [|item messages IH]; [done |]. rewrite fmap_cons, !filter_cons.
  destruct (decide (item.1 ∉ owned)); [by rewrite fmap_cons, IH | done].
Qed.
Lemma reviews_kept l owned kept : fold_res (keep_review file is_file resolve build) ([], []) l = Ok (owned, kept) → kept_of l owned kept.
Proof.
  intros H. eapply (fold_res_ind (λ done st, kept_of done st.1 st.2) _ l ([], []) (owned, kept)); [| | exact H].
  { split_and!; [done | constructor | by intros ? ?%not_elem_of_nil | by intros ? ? ? ?%not_elem_of_nil]. }
  intros done pin [o k] [o' k'] Hk _ Hs. cbn [fst snd] in *. unfold keep_review in Hs. bind_inv Hs as same Hsame.
  apply all_same_Ok in Hsame. fold (intact_review pin) in Hsame. destruct same; cbn [negb] in Hs.
  2: { injection Hs as <- <-. eapply kept_more; [| | exact Hk]; [intros; apply elem_of_app; by left |].
       intros old m n [Hin| ->%list_elem_of_singleton]%elem_of_app Hi _; [by left | congruence]. }
  bind_inv Hs as messages Hm. apply rekeyed in Hm as (Hnd & Hfrom & Hall). set (new := filter _ messages) in Hs.
  assert (new.*1 = filter (λ k, k ∉ o) messages.*1) as Hkeys by apply filter_keys.
  assert (∀ m n, (m, n) ∈ r_messages pin → message_at m ∈ o ++ new.*1) as Hcover.
  { intros m n Hin. apply elem_of_app. destruct (decide (message_at m ∈ o)); [by left | right]. rewrite Hkeys. apply list_elem_of_filter. split; [done | by eapply Hall]. }
  assert (kept_of (done ++ [pin]) (o ++ new.*1) (k ++ [Review (r_path pin) (r_sha256 pin) (r_dependencies pin) (r_config_guards pin) new])) as Hnew.
  { destruct Hk as (Ho & Hnd' & Hret & Hall'). split_and!.
    - unfold owners. rewrite map_app, concat_app. simpl. by rewrite app_nil_r, Ho.
    - apply NoDup_app. split; [done |]. rewrite Hkeys. split; [| by apply NoDup_filter]. by intros x Hx [? _]%list_elem_of_filter.
    - intros q [Hq| ->%list_elem_of_singleton]%elem_of_app.
      + destruct (Hret q Hq) as (old & ? & ?). exists old. split; [apply elem_of_app; by left | done].
      + exists pin. split; [apply elem_of_app; right; by left |]. split_and!; try done. intros m n [_ Hin]%list_elem_of_filter. by apply Hfrom.
    - intros old m n [Hin| ->%list_elem_of_singleton]%elem_of_app Hi Hm; [apply elem_of_app; left; by eapply Hall' | by eapply Hcover]. }
  destruct new as [|item items] eqn:En; [| by injection Hs as <- <-]. injection Hs as <- <-.
  eapply kept_more; [| | exact Hk]; [intros; apply elem_of_app; by left |].
  intros old m n [Hin| ->%list_elem_of_singleton]%elem_of_app Hi Hm; [by left | right]. specialize (Hcover m n Hm). by rewrite app_nil_r in Hcover.
Qed.
End laws.

(** ** What is drafted *)
Section drafted.
Context (is_file : pystr → bool) (resolve : pystr → pystr) (build : pystr) (touched : list pystr).
Abbreviation message_at := (message_of resolve build).
Abbreviation source_at := (source resolve build).
Abbreviation draftable_row := (draftable is_file resolve build touched).

(** The rows that a drafted message stands for. *)
Definition occurrences (rows : list row) (path message : pystr) : Z :=
  len (filter (λ r, r.2.(r_allowed) = false ∧ draftable_row r = Some path ∧ message_at r.2.(r_line) = message) rows).
Definition count_at (drafted : dict (dict Z)) (path message : pystr) : option Z := messages ← dget path drafted; dget message messages.
Definition drafted_of (rows refused : list row) (drafted : dict (dict Z)) : Prop :=
  refused = filter (λ r, r.2.(r_allowed) = false ∧ draftable_row r = None) rows ∧ NoDup drafted.*1 ∧
  (∀ path, path ∈ drafted.*1 → ∃ r, r ∈ rows ∧ draftable_row r = Some path) ∧
  (∀ path message, count_at drafted path message = if occurrences rows path message =? 0 then None else Some (occurrences rows path message)).
Lemma occurrences_nonneg rows path message : 0 ≤ occurrences rows path message.
Proof. unfold occurrences, len. lia. Qed.
Lemma occurrences_snoc rows r path message : occurrences (rows ++ [r]) path message =
  occurrences rows path message + (if decide (r.2.(r_allowed) = false ∧ draftable_row r = Some path ∧ message_at r.2.(r_line) = message) then 1 else 0).
Proof.
  unfold occurrences. rewrite filter_app. destruct (decide _).
  - rewrite filter_cons_True, filter_nil, len_snoc by done. done.
  - rewrite filter_cons_False, filter_nil, app_nil_r, Z.add_0_r by done. done.
Qed.
Lemma count_at_count drafted path message path' message' :
  count_at (count_message drafted path message) path' message' =
  if decide (path = path' ∧ message = message') then Some (default 0 (count_at drafted path message) + 1) else count_at drafted path' message'.
Proof.
  unfold count_at, count_message. rewrite dget_dset. destruct (decide (path = path')) as [->|Hp].
  - rewrite bool_decide_eq_true_2 by done. cbn [mbind option_bind]. rewrite dget_dset. destruct (decide (message = message')) as [->|Hm].
    + rewrite bool_decide_eq_true_2, decide_True by done. by destruct (dget path' drafted).
    + rewrite bool_decide_eq_false_2, decide_False by naive_solver. by destruct (dget path' drafted).
  - rewrite bool_decide_eq_false_2, decide_False by naive_solver. done.
Qed.
Lemma count_keys drafted path message k : k ∈ (count_message drafted path message).*1 → k = path ∨ k ∈ drafted.*1.
Proof.
  unfold count_message. rewrite !dget_mem, dget_dset. case_bool_decide; [by left | by right].
Qed.
Lemma draft_rows rows : let st := foldl (draft_row is_file resolve build touched) ([], []) rows in drafted_of rows st.1 st.2.
Proof.
  induction rows as [|r rows IH] using rev_ind; [split_and!; [done | constructor | by intros ? ?%not_elem_of_nil | done] |].
  rewrite foldl_snoc. cbv zeta in *. destruct (foldl _ _ rows) as [refused drafted]. destruct IH as (Hr & Hnd & Hpath & Hc). cbn [fst snd] in *.
  unfold draft_row. destruct (r_allowed r.2) eqn:Ha; [| destruct (draftable_row r) as [path|] eqn:Hd]; cbn [fst snd].
  - split_and!; [| done | |].
    + rewrite filter_app, filter_cons_False by (intros [? _]; congruence). by rewrite filter_nil, app_nil_r.
    + intros path Hin. destruct (Hpath path Hin) as (x & ? & ?). exists x. split; [apply elem_of_app; by left | done].
    + intros path message. rewrite Hc, occurrences_snoc, decide_False by (intros [? _]; congruence). by rewrite Z.add_0_r.
  - split_and!.
    + rewrite filter_app, filter_cons_False by (intros [_ ?]; congruence). by rewrite filter_nil, app_nil_r.
    + by apply dset_keys_NoDup.
    + intros k [->|Hin]%count_keys; [exists r; split; [apply elem_of_app; right; by left | done] |].
      destruct (Hpath k Hin) as (x & ? & ?). exists x. split; [apply elem_of_app; by left | done].
    + intros path' message. rewrite count_at_count, !Hc, occurrences_snoc. pose proof (occurrences_nonneg rows path (message_at (r_line r.2))).
      destruct (decide (path = path' ∧ message_at (r_line r.2) = message)) as [[<- <-]|Hne].
      * rewrite decide_True by done. destruct (occurrences _ _ _ =? 0) eqn:E; destruct (_ + 1 =? 0) eqn:E'; b2p; simpl; f_equal; lia.
      * rewrite decide_False, Z.add_0_r by (rewrite Hd; naive_solver). done.
  - split_and!; [| done | |].
    + rewrite filter_app, filter_cons_True by done. by rewrite filter_nil, Hr.
    + intros path Hin. destruct (Hpath path Hin) as (x & ? & ?). exists x. split; [apply elem_of_app; by left | done].
    + intros path message. rewrite Hc, occurrences_snoc, decide_False by (rewrite Hd; naive_solver). by rewrite Z.add_0_r.
Qed.

Lemma draftable_Some r path : draftable_row r = Some path →
  source_path resolve build r.2.(r_line) = Some path ∧ r.2.(r_kind) = CompilerOrTool ∧ r.1 ≠ "depmod" ∧ (path ∉ touched) ∧ is_file (child source_at path) = true.
Proof.
  unfold draftable. destruct (source_path _ _ _) as [p|]; [| done]. destruct (_ && _ && _ && _) eqn:E; [| done]. intros [= <-].
  apply andb_true_iff in E as [[[E1%bool_decide_eq_true E2%negb_true_iff%bool_decide_eq_false]%andb_true_iff E3%negb_true_iff]%andb_true_iff E4].
  split_and!; try done. intros Hin%is_in_elem. congruence.
Qed.

Context (file : pystr → res bytes).
Abbreviation intact_pin := (intact file is_file).
(** A drafted review pins a file the series leaves alone, with its hash, to
    each of its messages and how often it was printed. *)
Definition drafted_from (rows : list row) (pin : review) : Prop :=
  (pin.(r_path) ∉ touched) ∧ intact_pin (child source_at pin.(r_path), pin.(r_sha256)) = true ∧ pin.(r_dependencies) = [] ∧ pin.(r_config_guards) = [] ∧
  ∀ message n, dget message pin.(r_messages) = Some n → 0 < n ∧ n = occurrences rows pin.(r_path) message.
Lemma draft_reviews rows refused drafted kept all : drafted_of rows refused drafted →
  fold_res (draft_review file resolve build) kept (sorted_paths drafted) = Ok all →
  ∃ new, all = kept ++ new ∧ Forall (drafted_from rows) new ∧
    ∀ path message, 0 < occurrences rows path message → ∃ pin, pin ∈ new ∧ pin.(r_path) = path ∧ message ∈ pin.(r_messages).*1.
Proof.
  intros (_ & Hnd & Hpath & Hc) H.
  assert (∃ new, all = kept ++ new ∧ Forall2 (λ item pin, pin.(r_path) = item.1 ∧ pin.(r_messages) = item.2 ∧ pin.(r_dependencies) = [] ∧
    pin.(r_config_guards) = [] ∧ ∃ data, file (child source_at item.1) = Ok data ∧ pin.(r_sha256) = sha256 data) (sorted_paths drafted) new) as (new & -> & HF).
  { eapply (fold_res_ind (λ done acc, ∃ new, acc = kept ++ new ∧ Forall2 _ done new)); [exists []; by rewrite app_nil_r | | exact H].
    intros done item acc acc' (new & -> & HF) _ Hs. unfold draft_review, sha in Hs. destruct (file _) as [data|e] eqn:Hd; [| done]. injection Hs as <-.
    exists (new ++ [Review item.1 (sha256 data) [] [] item.2]). split; [by rewrite <- app_assoc |]. apply Forall2_app; [done |]. repeat constructor. by exists data. }
  assert (∀ item, item ∈ sorted_paths drafted → dget item.1 drafted = Some item.2) as Hget.
  { intros [path messages] Hin. apply dget_unique; [done |]. unfold sorted_paths in Hin. by rewrite merge_sort_Permutation in Hin. }
  exists new. split; [done |]. split.
  - apply Forall_forall. intros pin Hin. apply list_elem_of_lookup in Hin as [i Hi]. destruct (Forall2_lookup_r _ _ _ _ _ HF Hi) as (item & Hitem & Hp & Hm & Hdep & Hg & data & Hdata & Hs).
    apply list_elem_of_lookup_2, Hget in Hitem. destruct (Hpath item.1) as (r & _ & Hr); [apply dget_mem; by eexists |].
    apply draftable_Some in Hr as (_ & _ & _ & Ht & Hf). unfold drafted_from, intact. rewrite Hp, Hs. cbn [fst snd]. rewrite Hf, Hdata. split_and!; [done | | done | done |].
    + by apply bool_decide_eq_true.
    + intros message n Hn. specialize (Hc item.1 message). unfold count_at in Hc. rewrite Hitem in Hc. simpl in Hc. rewrite Hm, Hc in Hn.
      pose proof (occurrences_nonneg rows item.1 message). destruct (_ =? 0) eqn:E; [done |]. injection Hn as <-. b2p. lia.
  - intros path message Ho. specialize (Hc path message). unfold count_at in Hc. destruct (_ =? 0) eqn:E; [b2p; lia |].
    destruct (dget path drafted) as [messages|] eqn:Hd; [| done]. simpl in Hc. apply dget_elem in Hd.
    assert ((path, messages) ∈ sorted_paths drafted) as Hin by (unfold sorted_paths; by rewrite merge_sort_Permutation).
    apply list_elem_of_lookup in Hin as [i Hi]. destruct (Forall2_lookup_l _ _ _ _ _ HF Hi) as (pin & Hpin & Hp & Hm & _).
    exists pin. split; [by eapply list_elem_of_lookup_2 |]. split; [done |]. rewrite Hm. apply dget_mem. by eexists.
Qed.
End drafted.

Section main.
Context (file : pystr → res bytes) (is_file : pystr → bool) (resolve : pystr → pystr) (strict : pystr → res pystr).
Context (build previous_path : pystr) (patches : list pystr).
Context (raw_json : res build_result) (base_json : res pystr) (previous_json : res policy).
Abbreviation drafted_policy := (main file is_file resolve strict build previous_path patches raw_json base_json previous_json).
Abbreviation checked_rows := (check file is_file resolve strict build).
Definition stage_log (stage : pystr) : pystr := child build (stage ++ ".log").
Definition stage_diagnostics (data : bytes) (stage : pystr) (p : policy) : res (list result) :=
  diagnostics file is_file resolve strict (child build "source") (child build "objects") (decode_replace data) stage p.

Lemma check_Ok p rows : checked_rows p = Ok rows → ∀ stage, stage ∈ STAGES → is_file (stage_log stage) = true →
  ∃ data rs, file (stage_log stage) = Ok data ∧ stage_diagnostics data stage p = Ok rs ∧ ∀ r, r ∈ rs → (stage, r) ∈ rows.
Proof.
  unfold check. intros H. eapply (fold_res_ind (λ done rows, ∀ stage, stage ∈ done → is_file (stage_log stage) = true →
    ∃ data rs, file (stage_log stage) = Ok data ∧ stage_diagnostics data stage p = Ok rs ∧ ∀ r, r ∈ rs → (stage, r) ∈ rows)); [| | exact H].
  { by intros ? ?%not_elem_of_nil. }
  intros done stage acc acc' IH _ Hs stage' Hin Hlog. unfold check_stage in Hs. fold (stage_log stage) in Hs.
  destruct (is_file (stage_log stage)) eqn:Hf; cbn [negb] in Hs.
  - bind_inv Hs as data Hd. bind_inv Hs as rs Hr. injection Hs as <-. apply elem_of_app in Hin as [Hin| ->%list_elem_of_singleton].
    + destruct (IH stage' Hin Hlog) as (d & r & ? & ? & Hall). exists d, r. split; [done |]. split; [done |]. intros x Hx. apply elem_of_app. left. by apply Hall.
    + exists data, rs. split; [done |]. split; [done |]. intros x Hx. apply elem_of_app. right. by apply list_elem_of_fmap_2.
  - injection Hs as <-. apply elem_of_app in Hin as [Hin| ->%list_elem_of_singleton]; [by apply IH | congruence].
Qed.

(** C28. A policy that is drafted is for the build's base and lets every
    diagnostic of the build's logs pass.  It has exactly the initializer pins
    of the previous policy whose files are unchanged, and the previous reviews
    whose files are unchanged, each message under its normal name and owned by
    one review; every other review pins an unchanged file that the series does
    not touch to the messages that the kept entries left over, each with the
    number of times it was printed, and every message left over is one of
    them. *)
Theorem draft_sound output_exists p ev : drafted_policy output_exists = Ok (p, ev) →
  ∃ previous kept new rows, previous_json = Ok previous ∧ base_json = Ok p.(base_commit) ∧ output_exists = false ∧
    (∀ stage, stage ∈ STAGES → is_file (stage_log stage) = true → ∃ data rs, file (stage_log stage) = Ok data ∧
       stage_diagnostics data stage p = Ok rs ∧ Forall (λ r, r.(r_allowed) = true) rs) ∧
    p.(initializer_overrides) = List.filter (intact_override file is_file resolve build) previous.(initializer_overrides) ∧
    p.(reviewed_messages) = kept ++ new ∧ kept_of file is_file resolve build previous.(reviewed_messages) (owners kept) kept ∧
    checked_rows (Policy p.(base_commit) p.(initializer_overrides) kept) = Ok rows ∧
    Forall (drafted_from is_file resolve build (touched_files patches) file rows) new ∧
    ∀ r, r ∈ rows → r.2.(r_allowed) = false → r.2.(r_kind) = CompilerOrTool ∧
      ∃ pin, pin ∈ new ∧ source_path resolve build r.2.(r_line) = Some pin.(r_path) ∧ message_of resolve build r.2.(r_line) ∈ pin.(r_messages).*1.
Proof.
  unfold main. intros H. guard_inv H as Hout. bind_inv H as raw Hraw. bind_inv H as base Hbase. guard_inv H as _. guard_inv H as _.
  bind_inv H as previous Hprev. bind_inv H as overrides Hov. bind_inv H as [owned kept] Hrev. bind_inv H as rows Hrows.
  pose proof (draft_rows is_file resolve build (touched_files patches) rows) as Hdraft. cbv zeta in Hdraft.
  destruct (foldl _ _ rows) as [refused drafted]. cbn [fst snd] in Hdraft. guard_inv H as Hno%negb_false_iff%bool_decide_eq_true. subst refused.
  bind_inv H as all Hall. bind_inv H as h1 _. bind_inv H as h2 _. bind_inv H as left Hleft. guard_inv H as Hnone%negb_false_iff%bool_decide_eq_true.
  injection H as <- <-. cbn [base_commit initializer_overrides reviewed_messages].
  apply overrides_kept in Hov. apply reviews_kept in Hrev. pose proof (proj1 Hrev) as Ho. subst owned.
  pose proof (draft_reviews _ _ _ _ _ _ _ _ _ _ Hdraft Hall) as (new & -> & Hnew & Hcover).
  exists previous, kept, new, rows. split_and!; try done.
  - intros stage Hin Hlog. destruct (check_Ok _ _ Hleft stage Hin Hlog) as (data & rs & Hd & Hr & Hrs). exists data, rs. split; [done |]. split; [done |].
    apply Forall_forall. intros r Hr'. apply Hrs in Hr'. destruct (r_allowed r) eqn:E; [done |].
    assert ((stage, r) ∈ not_allowed left) as Hbad by (by apply list_elem_of_filter). rewrite Hnone in Hbad. by apply not_elem_of_nil in Hbad.
  - intros r Hr Ha. destruct Hdraft as (Href & _). destruct (draftable is_file resolve build (touched_files patches) r) as [path|] eqn:Hd.
    2: { assert (r ∈ ([] : list row)) as Hbad by (rewrite Href; by apply list_elem_of_filter). by apply not_elem_of_nil in Hbad. }
    pose proof (draftable_Some _ _ _ _ _ _ Hd) as (Hp & Hk & _). split; [done |].
    destruct (Hcover path (message_of resolve build (r_line r.2))) as (pin & Hpin & <- & Hm); [| by exists pin].
    unfold occurrences, len. apply list_elem_of_split in Hr as (l1 & l2 & ->). rewrite filter_app, filter_cons_True by done. rewrite length_app. simpl. lia.
Qed.
End main.

(** ** A draft *)
Definition sample_tree : dict bytes :=
  [("/b/kernel-build.log" : pystr, "  CC lib/a.o" ++ [LF] ++ "../source/lib/a.c:1:2: warning: unused" ++ [LF] ++ "/b/source/lib/a.c:1:2: warning: unused" ++ [LF]);
   ("/b/result.json" : pystr, "{}" : bytes); ("/b/source/lib/a.c" : pystr, "int a;" : bytes); ("/p.json" : pystr, "{}" : bytes)].
Definition sample_read (path : pystr) : res bytes := of_option (dget path sample_tree) OSError path.
Definition sample_is_file (path : pystr) : bool := dmem path sample_tree.
Definition sample_raw : build_result := BuildResult "base2" [] (map (λ s, (s, StageRow (Some ("PASS" : pystr)) None)) STAGES) "7.2.7".
Abbreviation sample_draft :=
  (main sample_read sample_is_file id Ok "/b" "/p.json" ["+++ b/lib/b.c" : pystr] (Ok sample_raw) (Ok ("base2" : pystr)) (Ok (Policy "base1" [] []))).
Definition sample_drafted : res (dict Z) :=
  '(p, _) ← sample_draft false; Ok (concat (map r_messages p.(reviewed_messages))).
Lemma sample_drafts : sample_drafted = Ok [("lib/a.c:1:2: warning: unused" : pystr, 2)].
Proof. vm_compute. reflexivity. Qed.
Lemma draft_sound_witness : ∃ p ev rs, sample_draft false = Ok (p, ev) ∧
  stage_diagnostics sample_read sample_is_file id Ok "/b" (default [] (dget "/b/kernel-build.log" sample_tree)) "kernel-build" p = Ok rs ∧
  Forall (λ r, r.(r_allowed) = true) rs.
Proof.
  pose proof sample_drafts as Hs. unfold sample_drafted in Hs. destruct (sample_draft false) as [[p ev]|e] eqn:E; [| discriminate Hs].
  destruct (draft_sound _ _ _ _ _ _ _ _ _ _ _ _ _ E) as (previous & kept & new & rows & _ & _ & _ & Hall & _).
  destruct (Hall "kernel-build") as (data & rs & Hd & Hr & Hok); [by left | vm_compute; reflexivity |].
  exists p, ev, rs. split; [reflexivity |]. split; [| exact Hok].
  assert (sample_read (stage_log "/b" "kernel-build") = Ok (default [] (dget "/b/kernel-build.log" sample_tree))) as Hf by (vm_compute; reflexivity).
  rewrite Hf in Hd. injection Hd as <-. exact Hr.
Defined.
