(* ===== verification/Newc.v ===== *)
(** * The initramfs archive

    scripts/device/build-native-wifi-boot-initramfs.py: reading a newc archive
    ([entries]), writing one ([encode]), adding and replacing members ([add],
    [replace]), and the boot-policy files it installs and verifies.  A member
    is the thirteen integers of its header and its payload; an archive is a
    dict of members in Python's insertion order.  Reading a file of the
    repository is a parameter, [read_bytes]. *)

From stdpp Require Import sorting.
From S2P Require Import Prelude PyStr PyData Sha256.

Definition EPOCH : Z := 1681862400.
Definition MAGIC : bytes := "070701".
Definition TRAILER : pystr := "TRAILER!!!".
Definition NUL : ascii := "000"%char.

Abbreviation member := (list Z * bytes)%type.
Abbreviation archive := (dict member).
Definition field (fields : list Z) (i : nat) : Z := default 0 (fields !! i).

(** [stat.S_ISREG], [S_ISDIR] *)
Definition S_IFREG : Z := 32768.
Definition S_IFDIR : Z := 16384.
Definition S_IFMT (mode : Z) : Z := Z.land mode 61440.
Definition S_ISREG (mode : Z) : bool := S_IFMT mode =? S_IFREG.
Definition S_ISDIR (mode : Z) : bool := S_IFMT mode =? S_IFDIR.

(** ** Reading *)
Definition align4 (n : Z) : Z := Z.land (n + 3) (Z.lnot 3).
Definition unsafe_name (name : pystr) : bool := startswith name "/" || existsb (λ p, p == (".." : pystr)) (split_on SLASH name).

Definition parse_fields (header : bytes) : res (list Z) :=
  of_option (mapM (λ i, int_16 (slice header (6 + Z.of_nat i * 8) 8)) (seq 0 13)) ValueError "invalid literal for int() with base 16".
Definition read_name (raw : bytes) (name_size : Z) : res pystr :=
  need ((0 <? name_size) && endswith raw [NUL] && negb (has_char NUL (removelast raw))) "newc name encoding" ;;
  decode_utf8 (removelast raw).

Definition entries_step (data : bytes) (st : Z * archive) : M unit (Z * archive + archive) :=
  let '(offset, result) := st in lift (
    let header := py_slice data offset (offset + 110) in
    need ((len header =? 110) && (slice header 0 6 == MAGIC)) "newc header" ;;
    fields ← parse_fields header;
    let size := field fields 6 in
    let name_size := field fields 11 in
    name ← read_name (py_slice data (offset + 110) (offset + 110 + name_size)) name_size;
    need (negb (dmem name result || unsafe_name name)) "duplicate or unsafe newc name" ;;
    let body := align4 (offset + 110 + name_size) in
    let offset := align4 (body + size) in
    need ((offset <=? len data) && (field fields 12 =? 0)) "newc bounds or checksum" ;;
    if name == TRAILER then
      need (negb (existsb (λ c, c != NUL) (py_slice data offset (len data)))) "newc trailing data" ;;
      Ok (inr result)
    else Ok (inl (offset, dset name (fields, py_slice data body (body + size)) result))).
(** Every round reads a name that was not read before, and a name is a part
    of the data. *)
Definition entries_rounds (data : bytes) : positive := Z.to_pos ((len data + 1) * (len data + 1) + 1).
Definition entries (data : bytes) : res archive := (while (entries_rounds data) (entries_step data) (0, []) ()).1.

(** ** Writing *)
Definition pad (k : Z) (output : bytes) : bytes := output ++ replicate (Z.to_nat ((- len output) mod k)) NUL.
Definition encode_member (output : bytes) (item : pystr * member) : bytes :=
  let '(name, (old, payload)) := item in
  let encoded := name ++ [NUL] in
  let fields := <[11%nat := len encoded]> (<[6%nat := len payload]> old) in
  pad 4 (pad 4 (output ++ MAGIC ++ concat (map format_08x fields) ++ encoded) ++ payload).
Definition sorted_items (members : archive) : archive := merge_sort (λ a b, pystr_le a.1 b.1) members.
Definition encode (members : archive) : bytes :=
  pad 512 (foldl encode_member [] (sorted_items members ++ [(TRAILER, (replicate 13 0, []))])).

(** ** Adding *)
Definition S_PARENT : Z := S_IFDIR + 493. (* 0o755 *)
(** [reversed(PurePosixPath(name).parents)] without ["."]. *)
Definition parents (name : pystr) : list pystr :=
  map (λ i, join [SLASH] (take i (parts name))) (seq 1 (pred (length (parts name)))).
Definition next_inode (members : archive) : Z :=
  match members with [] => 0 | m :: l => foldl Z.max (field m.2.1 0) (map (λ m, field m.2.1 0) l) end + 1.
Definition new_fields (members : archive) (name : pystr) (data : bytes) (mode : Z) : list Z :=
  [next_inode members; mode; 0; 0; if S_ISDIR mode then 2 else 1; EPOCH; len data; 0; 0; 0; 0; len name + 1; 0].

Definition is_directory (members : archive) (parent : pystr) : res bool :=
  (λ m, S_ISDIR (field m.1 1)) <$> of_option (dget parent members) KeyError parent.
Fixpoint add_within (depth : nat) (members : archive) (name : pystr) (data : bytes) (mode : Z) : res archive :=
  match depth with
  | O => Raise (Exn OutOfFuel [])
  | S depth =>
      refuse_if (dmem name members || unsafe_name name) ValueError "duplicate or unsafe newc name" ;;
      members ← fold_res (λ members parent,
          members ← (if dmem parent members then Ok members else add_within depth members parent [] S_PARENT);
          directory ← is_directory members parent;
          refuse_if (negb directory) ValueError "non-directory parent" ;;
          Ok members)
        members (parents name);
      Ok (dset name (new_fields members name data mode, data) members)
  end.
(** A parent is shorter than its path. *)
Definition add (members : archive) (name : pystr) (data : bytes) (mode : Z) : res archive :=
  add_within (S (length name)) members name data mode.

Definition replace (members : archive) (name : pystr) (data : bytes) : res archive :=
  m ← of_option (dget name members) KeyError name;
  refuse_if (negb (S_ISREG (field m.1 1)) || negb (field m.1 4 =? 1)) ValueError "replacement requires a single-link regular file" ;;
  Ok (dset name (<[6%nat := len data]> m.1, data) members).

(** ** The files of the boot policy *)
(** [members[name][0][1:5] == [mode, 0, 0, 1]] *)
Definition metadata_is (m : member) (mode : Z) : bool := take 4 (drop 1 m.1) == [mode; 0; 0; 1].

Definition PREFIX : pystr := "rog5-native-wifi/".
Definition DIAGNOSTIC : pystr := PREFIX ++ "display-diagnostic".
Definition FILE_MODE : Z := S_IFREG + 420. (* 0o644 *)
Definition headless_cpu_files : list (pystr * pystr) :=
  [("cpu-frequency-cap.py" : pystr, "scripts/device/cpu-frequency-cap.py" : pystr);
   ("headless-cpu-policy.py" : pystr, "scripts/device/headless-cpu-policy.py" : pystr);
   ("units/rog5-headless-cpu-policy.service" : pystr, "packaging/arch/rog5-headless-cpu-policy.service" : pystr)].

Definition CPU_MISMATCH (name : pystr) : pystr := "CPU policy composition mismatch: " ++ name.
Definition AT_EXPECTED : pystr := "@EXPECTED_".
Definition OUTER_SECONDS : pystr := "@OUTER_SECONDS@".
(** The files [verify_radio_composition] compares, by their names in the
    archive below the prefix and in the repository. *)
Definition NATIVE_WIFI : pystr := "initramfs/native-wifi/".
Definition HEALTHY_UNIT : pystr := "units/rog5-wifi-healthy.service".
Definition radio_names : list pystr :=
  ["radio" : pystr; "runtime" : pystr; "units/rog5-wifi-radio.service" : pystr; "units/rog5-wifi-wpa.service" : pystr;
   "units/rog5-wifi-dhcp.service" : pystr; "units/rog5-wifi-boot-rollback.service" : pystr].
Definition radio_sources (members : archive) : list (pystr * pystr) :=
  map (λ name, (name, NATIVE_WIFI ++ name)) radio_names ++
  (if dmem (PREFIX ++ "trial-descriptor") members
   then [(HEALTHY_UNIT, "initramfs/native-wifi-persistent/" ++ HEALTHY_UNIT)] else []).
(** [re.findall(rb'^outer_seconds=([0-9]+)$', text, re.M)] *)
Definition outer_seconds (text : bytes) : list bytes :=
  omap (λ line, if startswith line "outer_seconds=" && isdecimal (drop 14 line) then Some (drop 14 line) else None)
    (split_on LF text).

(** The iw package: what [fstat], [read] and [tarfile] say of it. *)
Record tar_member := TarMember { t_name : pystr; t_isfile : bool; t_size : Z; t_data : bytes }.
Definition IW : pystr := "rog5-native-wifi/wpa-userspace/sbin/iw".
Definition IW_COPYING : pystr := "rog5-native-wifi/wpa-userspace/COPYING.iw".
Definition IW_PACKAGE_SHA256 : pystr := "5739a3fecb602323af92307f9be3a34f0a850bde23ffb7efab7f272ccab60a15".

(** [iw_sha256] is the identity the package must have: [IW_PACKAGE_SHA256] in
    the script, a parameter here so that a package with it can be given. *)
Section policy.
Context (read_bytes : pystr → res bytes) (iw_sha256 : pystr).
Context (package_mode package_size : Z) (package_raw : bytes) (package_members : bytes → res (list tar_member)).

Definition wifi_iw_files : res (dict (Z * bytes)) :=
  refuse_if (negb (S_ISREG package_mode) || negb ((0 <? package_size) && (package_size <=? 200000))) ValueError "iw package metadata" ;;
  let raw := take (Z.to_nat 200001) package_raw in
  refuse_if (sha256 raw != iw_sha256) ValueError "iw package identity" ;;
  tar ← package_members raw;
  match filter (λ m, t_name m = "usr/sbin/iw") tar with
  | [m] =>
      refuse_if (negb m.(t_isfile) || negb ((0 <? m.(t_size)) && (m.(t_size) <? 400000))) ValueError "iw package entry" ;;
      copying ← read_bytes "third_party/iw/COPYING";
      Ok [(IW, (493, m.(t_data))); (IW_COPYING, (420, copying))]
  | _ => Raise (Exn ValueError "iw package entry")
  end.
Definition install_wifi_iw (members : archive) : res (archive * list pystr) :=
  files ← wifi_iw_files;
  members ← fold_res (λ members '(name, (mode, data)),
      match dget name members with
      | Some m => refuse_if (negb (metadata_is m (S_IFREG + mode))) ValueError "iw composition metadata" ;; replace members name data
      | None => add members name data (S_IFREG + mode)
      end) members files;
  Ok (members, files.*1).

Definition install_one (st : archive * gset pystr) (file : pystr * pystr) : res (archive * gset pystr) :=
  let '(members, changed) := st in
  let name := PREFIX ++ file.1 in
  members ← (match dget name members with
             | Some m => refuse_if (negb (metadata_is m FILE_MODE)) ValueError "CPU policy member metadata" ;;
                         data ← read_bytes file.2; replace members name data
             | None => data ← read_bytes file.2; add members name data FILE_MODE
             end);
  Ok (members, {[ name ]} ∪ changed).
Definition install_headless_cpu_policy (members : archive) : res (archive * gset pystr) :=
  refuse_if (dmem DIAGNOSTIC members) ValueError "headless CPU policy is not a display diagnostic" ;;
  fold_res install_one (members, ∅) headless_cpu_files.

Definition verify_one (members : archive) (file : pystr * pystr) : res unit :=
  match dget (PREFIX ++ file.1) members with
  | None => Raise (Exn ValueError (CPU_MISMATCH file.1))
  | Some entry =>
      refuse_if (negb (metadata_is entry FILE_MODE)) ValueError (CPU_MISMATCH file.1) ;;
      data ← read_bytes file.2;
      refuse_if (entry.2 != data) ValueError (CPU_MISMATCH file.1)
  end.
Definition verify_headless_cpu_composition (members : archive) : res unit :=
  if existsb (λ f, dmem (PREFIX ++ f.1) members) headless_cpu_files then
    for_each (verify_one members) headless_cpu_files ;;
    refuse_if (dmem DIAGNOSTIC members) ValueError "CPU policy/display diagnostic mismatch"
  else Ok ().

Definition verify_radio_composition (members : archive) : res unit :=
  verify_headless_cpu_composition members ;;
  files ← wifi_iw_files;
  for_each (λ '(name, (mode, data)),
      refuse_if (match dget name members with
                 | Some entry => negb (metadata_is entry (S_IFREG + mode)) || (entry.2 != data)
                 | None => true
                 end) ValueError "iw composition mismatch; recompose target archive") files ;;
  timing ← read_bytes "initramfs/native-wifi/timing";
  match outer_seconds timing with
  | [outer] =>
      refuse_if (int10 outer <=? 0) ValueError "invalid radio timeout" ;;
      for_each (λ '(name, source),
          match dget (PREFIX ++ name) members with
          | Some entry =>
              refuse_if (negb (S_ISREG (field entry.1 1)) || negb (field entry.1 4 =? 1)) ValueError
                ("radio composition member: " ++ name) ;;
              data ← read_bytes source;
              refuse_if (entry.2 != py_replace OUTER_SECONDS outer data) ValueError
                ("incompatible radio composition; recompose target archive: " ++ name)
          | None => Raise (Exn ValueError ("radio composition member: " ++ name))
          end) (radio_sources members)
  | _ => Raise (Exn ValueError "invalid radio timeout")
  end.
End policy.

(** [text] is what [path.read_text()] gave, [name] is [path.name]. *)
Definition render_boot_template (name text : pystr) (values : dict pystr) : res pystr :=
  text ← fold_res (λ text '(key, value),
      let token := AT_EXPECTED ++ key ++ "@" in
      refuse_if (negb (count token text =? 1)) ValueError (name ++ ": missing or duplicate " ++ token) ;;
      Ok (py_replace token value text)) text values;
  refuse_if (contains AT_EXPECTED text) ValueError (name ++ ": unresolved boot parameter") ;;
  Ok text.

(** ** Alignment *)
Lemma align4_div n : align4 n = (n + 3) / 4 * 4.
Proof.
  unfold align4. rewrite <-Z.ldiff_land. change 3 with (Z.ones 2) at 2.
  by rewrite Z.ldiff_ones_r, Z.shiftr_div_pow2, Z.shiftl_mul_pow2 by lia.
Qed.
Lemma align4_pad n : align4 n = n + (- n) mod 4.
Proof. rewrite align4_div. Z.div_mod_to_equations. lia. Qed.
Lemma align4_shift m n : m mod 4 = 0 → align4 (m + n) = m + align4 n.
Proof. rewrite !align4_div. intros. Z.div_mod_to_equations. lia. Qed.
Lemma align4_range n : n ≤ align4 n < n + 4.
Proof. rewrite align4_pad. pose proof (Z.mod_pos_bound (- n) 4 ltac:(lia)). lia. Qed.
Lemma align4_mod n : align4 n mod 4 = 0.
Proof. rewrite align4_div. apply Z_mod_mult. Qed.

Lemma pad_app k a b : 0 < k → len a mod k = 0 → pad k (a ++ b) = a ++ pad k b.
Proof.
  intros Hk Ha. unfold pad. rewrite len_app, <-app_assoc. do 4 f_equal. rewrite Z.opp_add_distr, <-Zplus_mod_idemp_l.
  by rewrite Z.mod_opp_l_z, Z.add_0_l by lia.
Qed.
Lemma len_pad4 b : len (pad 4 b) = align4 (len b).
Proof.
  unfold pad. rewrite len_app, len_replicate, align4_pad.
  pose proof (Z.mod_pos_bound (- len b) 4 ltac:(lia)). lia.
Qed.

Lemma py_slice_mid a b c i j : i = len a → j = len a + len b → py_slice (a ++ b ++ c) i j = b.
Proof.
  intros -> ->. pose proof (len_nonneg a). pose proof (len_nonneg b). pose proof (len_nonneg c).
  rewrite py_slice_in by (rewrite ?len_app; lia). rewrite slice_skip by lia. apply slice_first; lia.
Qed.

(** ** The bytes of a member *)
Definition header_bytes (fields : list Z) : bytes := MAGIC ++ concat (map format_08x fields).
Definition record_bytes (item : pystr * member) : bytes :=
  let '(name, (fields, payload)) := item in pad 4 (pad 4 (header_bytes fields ++ name ++ [NUL]) ++ payload).
Definition fields_fit (item : pystr * member) : Prop :=
  let '(name, (fields, payload)) := item in
  length fields = 13%nat ∧ Forall (λ v, 0 ≤ v < 2 ^ 32) fields ∧
  field fields 6 = len payload ∧ field fields 11 = len name + 1 ∧ field fields 12 = 0.
Definition name_fits (name : pystr) : Prop := utf8_valid 0 name = true ∧ (NUL ∉ name).

Lemma encode_member_record output name old payload : len output mod 4 = 0 →
  encode_member output (name, (old, payload)) =
  output ++ record_bytes (name, (<[11%nat := len name + 1]> (<[6%nat := len payload]> old), payload)).
Proof.
  intros Ho. unfold encode_member, record_bytes, header_bytes. rewrite len_snoc.
  rewrite (pad_app 4 output) by (done || lia). rewrite <-(app_assoc output), (pad_app 4 output) by (done || lia).
  by rewrite <-(app_assoc MAGIC).
Qed.
Lemma fields_set name fields payload : fields_fit (name, (fields, payload)) →
  <[11%nat := len name + 1]> (<[6%nat := len payload]> fields) = fields.
Proof.
  intros (Hl & _ & H6 & H11 & _). unfold field in *.
  destruct (lookup_lt_is_Some_2 fields 6) as [v6 E6]; [lia |]. destruct (lookup_lt_is_Some_2 fields 11) as [v11 E11]; [lia |].
  rewrite E6 in H6. rewrite E11 in H11. simpl in *. subst. by rewrite (list_insert_id fields 6), list_insert_id.
Qed.
Lemma len_record item : len (record_bytes item) mod 4 = 0.
Proof. destruct item as [name [fields payload]]. unfold record_bytes. rewrite len_pad4. apply align4_mod. Qed.

Lemma format_length v : 0 ≤ v < 2 ^ 32 → length (format_08x v) = 8%nat.
Proof. intros. by rewrite format_08x_fixed, hex_fixed_length. Qed.
Lemma len_header fields : length fields = 13%nat → Forall (λ v, 0 ≤ v < 2 ^ 32) fields → len (header_bytes fields) = 110.
Proof.
  intros Hl Hf. unfold header_bytes. rewrite len_app. change (len MAGIC) with 6.
  assert (len (concat (map format_08x fields)) = 8 * len fields) as ->; [| unfold len; lia].
  clear Hl. induction Hf as [|v fields Hv _ IH]; [done |]. cbn [map concat]. rewrite len_app, IH.
  unfold len. rewrite format_length by done. simpl length. lia.
Qed.
Lemma field_slice fields i v : Forall (λ v, 0 ≤ v < 2 ^ 32) fields → fields !! i = Some v →
  slice (header_bytes fields) (6 + Z.of_nat i * 8) 8 = format_08x v.
Proof.
  intros Hf Hi. unfold header_bytes. rewrite slice_skip by (change (len MAGIC) with 6; lia). change (len MAGIC) with 6.
  replace (6 + Z.of_nat i * 8 - 6) with (Z.of_nat i * 8) by lia. revert i Hi.
  induction Hf as [|w fields Hw Hf IH]; intros i Hi; [done |]. pose proof (format_length w Hw) as Hlen. cbn [map concat].
  destruct i as [|i]; simpl in Hi.
  - injection Hi as <-. apply slice_first; [done |]. unfold len. by rewrite Hlen.
  - rewrite slice_skip by (unfold len; lia). rewrite <-(IH i Hi). f_equal. unfold len. rewrite Hlen. lia.
Qed.
Lemma parse_fields_header fields : length fields = 13%nat → Forall (λ v, 0 ≤ v < 2 ^ 32) fields →
  parse_fields (header_bytes fields) = Ok fields.
Proof.
  intros Hl Hf. unfold parse_fields.
  assert (mapM (λ i, int_16 (slice (header_bytes fields) (6 + Z.of_nat i * 8) 8)) (seq 0 13) = Some fields) as ->; [| done].
  apply mapM_Some, Forall2_same_length_lookup. split; [by rewrite Hl |]. intros i j v Hj Hv.
  apply lookup_seq in Hj as [-> _]. rewrite Nat.add_0_l, (field_slice _ _ _ Hf Hv). apply int_16_format.
  rewrite Forall_lookup in Hf. eauto.
Qed.
Lemma read_name_ok name : name_fits name → read_name (name ++ [NUL]) (len name + 1) = Ok name.
Proof.
  intros [Hu Hn]. unfold read_name. rewrite removelast_last. pose proof (len_nonneg name).
  rewrite need_pass; [unfold decode_utf8; by rewrite Hu |]. b2pg. split_and!; [lia | apply endswith_spec; eauto |].
  by apply has_char_false.
Qed.

(** Where the parts of a member lie in the archive. *)
Lemma record_layout pre name fields payload post : length fields = 13%nat → Forall (λ v, 0 ≤ v < 2 ^ 32) fields →
  let data := pre ++ record_bytes (name, (fields, payload)) ++ post in
  let body := align4 (110 + (len name + 1)) in
  py_slice data (len pre) (len pre + 110) = header_bytes fields ∧
  py_slice data (len pre + 110) (len pre + 110 + (len name + 1)) = name ++ [NUL] ∧
  py_slice data (len pre + body) (len pre + body + len payload) = payload ∧
  len (record_bytes (name, (fields, payload))) = align4 (body + len payload).
Proof.
  intros Hl Hf data body. pose proof (len_header fields Hl Hf) as Hh. set (nm := name ++ [NUL]).
  assert (len nm = len name + 1) as Hnm by apply len_snoc.
  set (z1 := replicate (Z.to_nat ((- len (header_bytes fields ++ nm)) mod 4)) NUL).
  set (top := (header_bytes fields ++ nm ++ z1) : bytes).
  assert (pad 4 (header_bytes fields ++ nm) = top) as Htop by (unfold pad; fold z1; subst top; by rewrite <-app_assoc).
  set (z2 := replicate (Z.to_nat ((- len (top ++ payload)) mod 4)) NUL).
  assert (record_bytes (name, (fields, payload)) = top ++ payload ++ z2) as Hr.
  { unfold record_bytes. fold nm. rewrite Htop. unfold pad. fold z2. by rewrite <-app_assoc. }
  assert (len top = body) as Hb by (rewrite <-Htop, len_pad4, len_app, Hh, Hnm; done).
  split_and!.
  - assert (data = pre ++ header_bytes fields ++ (nm ++ z1 ++ payload ++ z2 ++ post)) as ->
      by (subst data; rewrite Hr; subst top; by rewrite <-!app_assoc). apply py_slice_mid; lia.
  - assert (data = (pre ++ header_bytes fields) ++ nm ++ (z1 ++ payload ++ z2 ++ post)) as ->
      by (subst data; rewrite Hr; subst top; by rewrite <-!app_assoc). apply py_slice_mid; rewrite len_app; lia.
  - assert (data = (pre ++ top) ++ payload ++ (z2 ++ post)) as -> by (subst data; rewrite Hr; by rewrite <-!app_assoc).
    apply py_slice_mid; rewrite len_app; lia.
  - unfold record_bytes. fold nm. by rewrite len_pad4, len_app, Htop, Hb.
Qed.

(** One round over the bytes of a member. *)
Lemma step_record pre item post result : len pre mod 4 = 0 → fields_fit item → name_fits item.1 →
  entries_step (pre ++ record_bytes item ++ post) (len pre, result) () =
  (need (negb (dmem item.1 result || unsafe_name item.1)) "duplicate or unsafe newc name" ;;
   if item.1 == TRAILER then
     need (negb (existsb (λ c, c != NUL) post)) "newc trailing data" ;; Ok (inr result)
   else Ok (inl (len (pre ++ record_bytes item), dset item.1 item.2 result)), ()).
Proof.
  destruct item as [name [fields payload]]. intros Hpre (Hl & Hf & H6 & H11 & H12) Hn. cbn [fst snd].
  destruct (record_layout pre name fields payload post Hl Hf) as (E1 & E2 & E3 & Hlen).
  pose proof (len_header fields Hl Hf) as Hh. set (data := pre ++ _) in *.
  unfold entries_step, lift. f_equal. rewrite E1. cbv zeta.
  assert (slice (header_bytes fields) 0 6 = MAGIC) as Hm by (by apply slice_first).
  rewrite need_pass by (by rewrite Hh, Hm). rewrite parse_fields_header by done. rewrite Ok_bind, H11, E2.
  rewrite read_name_ok by done. rewrite Ok_bind.
  destruct (need (negb (dmem name result || unsafe_name name)) _) as [u|e]; [| done]. rewrite !Ok_bind.
  rewrite H6, H12, <-(Z.add_assoc (len pre) 110), (align4_shift (len pre)), E3, <-Z.add_assoc, align4_shift, <-Hlen by done.
  rewrite <-len_app, need_pass.
  2: { b2pg. split; [| done]. subst data. rewrite app_assoc, (len_app (pre ++ _)). pose proof (len_nonneg post). lia. }
  case_bool_decide; [| done]. subst data. rewrite app_assoc. set (front := pre ++ record_bytes _).
  assert (py_slice (front ++ post) (len front) (len (front ++ post)) = post) as ->; [| done].
  rewrite <-(app_nil_r post) at 1. apply py_slice_mid; rewrite ?len_app; lia.
Qed.

(** ** Whole archives *)
Definition trailer_item : pystr * member := (TRAILER, (<[11%nat := 11]> (replicate 13 0), [])).
Definition member_ok (item : pystr * member) : Prop :=
  fields_fit item ∧ name_fits item.1 ∧ unsafe_name item.1 = false ∧ item.1 ≠ TRAILER.
Definition archive_ok (members : archive) : Prop := NoDup members.*1 ∧ Forall member_ok members.

Lemma encode_fold output items : len output mod 4 = 0 → Forall fields_fit items →
  foldl encode_member output items = output ++ concat (map record_bytes items) ∧
  len (output ++ concat (map record_bytes items)) mod 4 = 0.
Proof.
  intros Ho Hi. revert output Ho. induction Hi as [|[name [fields payload]] items Hfit _ IH]; intros output Ho.
  - by rewrite app_nil_r.
  - cbn [foldl map concat]. rewrite encode_member_record, fields_set by done. rewrite app_assoc. apply IH.
    by rewrite len_app, Z.add_mod, Ho, len_record.
Qed.
Lemma sorted_items_Permutation members : sorted_items members ≡ₚ members.
Proof. apply merge_sort_Permutation. Qed.
Lemma encode_records members : Forall fields_fit members →
  ∃ zeros, encode members = concat (map record_bytes (sorted_items members)) ++ record_bytes trailer_item ++ replicate zeros NUL.
Proof.
  intros Hf. unfold encode. rewrite foldl_app. rewrite <-(sorted_items_Permutation members) in Hf.
  destruct (encode_fold [] _ eq_refl Hf) as [-> Hlen]. cbn [foldl]. rewrite app_nil_l in *. rewrite encode_member_record by done.
  unfold pad at 1. eexists. rewrite <-app_assoc. done.
Qed.
Lemma record_positive item : fields_fit item → 1 ≤ len (record_bytes item).
Proof.
  destruct item as [name [fields payload]]. intros (Hl & Hf & _).
  destruct (record_layout [] name fields payload [] Hl Hf) as (_ & _ & _ & ->).
  pose proof (align4_range (align4 (110 + (len name + 1)) + len payload)). pose proof (align4_range (110 + (len name + 1))).
  pose proof (len_nonneg name). pose proof (len_nonneg payload). lia.
Qed.
Lemma records_length items : Forall fields_fit items → len items ≤ len (concat (map record_bytes items)).
Proof.
  induction 1 as [|item items Hf _ IH]; [done |]. cbn [map concat]. rewrite len_app. pose proof (record_positive item Hf).
  unfold len in *. simpl length. lia.
Qed.
Lemma trailer_fits : fields_fit trailer_item ∧ name_fits TRAILER.
Proof.
  split; [| split; [done |]; by apply has_char_false]. split_and!; try done. apply Forall_forall. intros v Hv.
  assert (v = 0 ∨ v = 11) as Hv' by set_solver. lia.
Qed.

Lemma entries_records items zeros : NoDup items.*1 → Forall member_ok items →
  entries (concat (map record_bytes items) ++ record_bytes trailer_item ++ replicate zeros NUL) = Ok items.
Proof.
  intros Hnd Hok. set (data := concat (map record_bytes items) ++ _). unfold entries.
  assert (Forall fields_fit items) as Hfit by (eapply Forall_impl; [exact Hok | by intros ? []]).
  apply (wp_while _ (λ st _, ∃ rest, items = st.2 ++ rest ∧ st.1 = len (concat (map record_bytes st.2)))
    (λ st _, len items - len st.2) (λ r _, r = Ok items)).
  - intros [offset result] [] (rest & Hi & Ho). cbn [fst snd] in *. subst offset.
    split; [rewrite Hi, len_app; pose proof (len_nonneg rest); lia |].
    assert (Forall fields_fit result) as Hfr by (rewrite Hi in Hfit; by apply Forall_app in Hfit as [? _]).
    pose proof (proj2 (encode_fold [] result eq_refl Hfr)) as Hmod. rewrite app_nil_l in Hmod.
    destruct rest as [|item rest].
    + rewrite app_nil_r in Hi. subst result. unfold wp. subst data.
      rewrite step_record by (done || apply trailer_fits). change (trailer_item.1) with TRAILER. rewrite need_pass.
      2: { b2pg. split; [| done]. apply not_true_iff_false. intros (it & E & Hin)%dmem_spec%list_elem_of_fmap. rewrite Forall_forall in Hok.
           by destruct (Hok it Hin) as (_ & _ & _ & []). }
      rewrite bool_decide_true by done. rewrite need_pass; [done |]. apply negb_true_iff, existsb_false, Forall_replicate. done.
    + assert (member_ok item) as (Hf & Hn & Hs & Ht) by (rewrite Hi in Hok; apply Forall_app in Hok as [_ Hok]; by inversion Hok).
      assert (data = concat (map record_bytes result) ++ record_bytes item ++
        (concat (map record_bytes rest) ++ record_bytes trailer_item ++ replicate zeros NUL)) as ->.
      { subst data. rewrite Hi, map_app, concat_app. cbn [map concat]. by rewrite <-!app_assoc. }
      unfold wp. rewrite step_record by done.
      assert (dget item.1 result = None) as Hnone.
      { apply eq_None_not_Some. intros Hm. apply dget_mem in Hm. rewrite Hi, fmap_app in Hnd.
        apply NoDup_app in Hnd as (_ & Hnd & _). apply (Hnd _ Hm). by left. }
      rewrite need_pass.
      2: { rewrite Hs, orb_false_r. apply negb_true_iff, not_true_iff_false. rewrite dmem_spec, dget_mem, Hnone. by intros []. }
      rewrite bool_decide_false by done. cbn [fst snd]. rewrite dset_new by done. rewrite <-surjective_pairing. split.
      * exists rest. rewrite <-app_assoc. split; [done |]. rewrite map_app, concat_app. cbn [map concat]. by rewrite app_nil_r.
      * rewrite len_snoc. lia.
  - by exists items.
  - unfold entries_rounds. pose proof (len_nonneg data). rewrite Z2Pos.id by nia. cbn [snd].
    pose proof (len_nonneg ([] : archive)). assert (len items ≤ len data); [| nia]. subst data. rewrite len_app. pose proof (records_length items Hfit).
    pose proof (len_nonneg (record_bytes trailer_item ++ replicate zeros NUL)). lia.
Qed.

(** C29. Reading back a written archive gives the same members: the check that
    ends [compose] never refuses an archive whose members are well formed. *)
Theorem entries_encode_round_trip members : archive_ok members →
  entries (encode members) = Ok (sorted_items members) ∧ sorted_items members ≡ₚ members.
Proof.
  intros [Hnd Hok]. split; [| apply sorted_items_Permutation].
  assert (Forall fields_fit members) as Hf by (eapply Forall_impl; [exact Hok | by intros ? []]).
  destruct (encode_records members Hf) as [zeros ->]. apply entries_records; by rewrite sorted_items_Permutation.
Qed.

(** ** The reader ends *)
Definition windows (data : bytes) : list bytes :=
  i ← seq 0 (S (length data)); (λ k, take k (drop i data)) <$> seq 0 (S (length data)).
Lemma windows_length data : length (windows data) = (S (length data) * S (length data))%nat.
Proof.
  assert (∀ m n, length (m ≫= λ i, (λ k, take k (drop i data)) <$> n) = (length m * length n)%nat) as H.
  { intros m n. induction m as [|i m IH]; [done |]. rewrite bind_cons, length_app, IH, length_fmap. done. }
  unfold windows. by rewrite H, length_seq.
Qed.
Lemma take_drop_window data k i : take k (drop i data) ∈ windows data.
Proof.
  unfold windows. apply list_elem_of_bind. exists (Nat.min i (length data)). split; [| apply elem_of_seq; lia].
  apply list_elem_of_fmap. exists (Nat.min k (length data)). split; [| apply elem_of_seq; lia].
  destruct (decide (i ≤ length data)%nat).
  - rewrite (Nat.min_l i) by done. destruct (decide (k ≤ length data)%nat); [by rewrite Nat.min_l |].
    rewrite Nat.min_r by lia. rewrite !take_ge; rewrite ?length_drop; [done | lia | lia].
  - rewrite (Nat.min_r i), !drop_ge by lia. by rewrite !take_nil.
Qed.
Lemma name_window data i j : removelast (py_slice data i j) ∈ windows data.
Proof.
  unfold py_slice, slice. rewrite removelast_firstn_len, take_take. apply take_drop_window.
Qed.

Definition names_ok (data : bytes) (result : archive) : Prop :=
  NoDup result.*1 ∧ Forall (λ name, name ∈ windows data ∧ unsafe_name name = false ∧ utf8_valid 0 name = true ∧ (NUL ∉ name)) result.*1.
Lemma names_bound data result : names_ok data result → len result ≤ (len data + 1) * (len data + 1).
Proof.
  intros [Hnd Hin]. assert (length result.*1 ≤ length (windows data))%nat as H.
  { apply submseteq_length, NoDup_submseteq; [done |]. rewrite Forall_forall in Hin. intros x Hx. by apply Hin. }
  rewrite length_fmap, windows_length in H. unfold len. nia.
Qed.
Lemma read_name_inv raw n name : read_name raw n = Ok name → name = removelast raw ∧ utf8_valid 0 name = true ∧ (NUL ∉ name).
Proof.
  unfold read_name, decode_utf8. intros H. guard_inv H as Hg. guard_inv H as Hu. injection H as <-. b2p.
  split; [done |]. split; [done |]. by apply has_char_false.
Qed.

Lemma read_name_raises raw n e : read_name raw n = Raise e → e.(exn_cls) ≠ OutOfFuel.
Proof.
  unfold read_name, decode_utf8, need, refuse_if. destruct (_ && _); [| by intros [= <-]]. rewrite Ok_bind.
  destruct (negb _); by intros [= <-].
Qed.
Lemma entries_step_inv data offset result : names_ok data result →
  match (entries_step data (offset, result) ()).1 with
  | Ok (inl (_, result')) => names_ok data result' ∧ len result' = len result + 1
  | Ok (inr result') => result' = result
  | Raise e => e.(exn_cls) ≠ OutOfFuel
  end.
Proof.
  intros [Hnd Hin]. unfold entries_step, lift. cbn [fst]. unfold need, parse_fields, of_option.
  destruct (_ && _); [| done]. rewrite Ok_bind. destruct (mapM _ _) as [fields|]; [| done]. rewrite Ok_bind.
  destruct (read_name _ _) as [name|e] eqn:En; [| by eapply read_name_raises]. rewrite Ok_bind.
  destruct (negb (dmem _ _ || _)) eqn:Ed; [| done]. rewrite Ok_bind. cbv zeta. destruct ((_ <=? _) && _); [| done]. rewrite Ok_bind.
  case_bool_decide; [by destruct (negb (existsb _ _)) |]. apply read_name_inv in En as (En & Hu & H0).
  b2p. match goal with H : dmem _ _ = false |- _ => apply not_true_iff_false in H; rewrite dmem_spec in H; rename H into Hnew end.
  assert (dget name result = None) as Hnone by (apply eq_None_not_Some; by rewrite <-dget_mem).
  rewrite dset_new, len_snoc by done. split; [| done]. unfold names_ok. rewrite fmap_app. cbn [fmap list_fmap fst]. split.
  - apply NoDup_app. split; [done |]. split; [| apply NoDup_singleton]. intros x Hx ->%list_elem_of_singleton. done.
  - apply Forall_app. split; [done |]. apply Forall_singleton. split_and!; try done. rewrite En. apply name_window.
Qed.

Lemma entries_spec data :
  match entries data with
  | Ok members => NoDup members.*1 ∧ Forall (λ name, unsafe_name name = false ∧ utf8_valid 0 name = true ∧ (NUL ∉ name)) members.*1
  | Raise e => e.(exn_cls) ≠ OutOfFuel
  end.
Proof.
  unfold entries. apply (wp_while (entries_step data) (λ st _, names_ok data st.2) (λ st _, (len data + 1) * (len data + 1) - len st.2)
    (λ r _, match r with Ok members => _ | Raise e => _ end)).
  - intros [offset result] [] Hok. cbn [snd] in *. pose proof (names_bound _ _ Hok). split; [lia |]. unfold wp.
    pose proof (entries_step_inv data offset result Hok) as Hs. destruct (entries_step data (offset, result) ()).1 as [[[o r]|m]|e]; [| | done].
    + destruct Hs as [Hs Hl]. cbn [snd]. split; [done | lia].
    + subst m. destruct Hok as [? Hf]. split; [done |]. eapply Forall_impl; [exact Hf |]. by intros x (_ & ?).
  - split; [constructor | by apply Forall_nil].
  - unfold entries_rounds. cbn [snd]. pose proof (len_nonneg data). rewrite Z2Pos.id by nia. change (len ([] : archive)) with 0. lia.
Qed.

(** C30. Reading an archive ends on every input, although the sizes in a
    header may be negative and send the reader back; the members it returns
    have distinct, safe names. *)
Theorem entries_ends data :
  match entries data with
  | Ok members => NoDup members.*1 ∧ Forall (λ name, unsafe_name name = false ∧ utf8_valid 0 name = true ∧ (NUL ∉ name)) members.*1
  | Raise e => e.(exn_cls) ≠ OutOfFuel
  end.
Proof. exact (entries_spec data). Qed.

(** ** The tree of an archive *)
Lemma parents_elem name p : p ∈ parents name ↔ ∃ i, (1 ≤ i < length (parts name))%nat ∧ p = join [SLASH] (take i (parts name)).
Proof.
  unfold parents. rewrite list_elem_of_fmap. setoid_rewrite elem_of_seq. split.
  - intros (i & -> & ?). exists i. split; [lia | done].
  - intros (i & ? & ->). exists i. split; [done | lia].
Qed.
Lemma parts_prefix name i : (1 ≤ i < length (parts name))%nat → parts (join [SLASH] (take i (parts name))) = take i (parts name).
Proof.
  intros Hi. apply parts_join; [apply Forall_take, parts_are_plain |].
  destruct (parts name); simpl in *; [lia |]. by destruct i; [lia |].
Qed.
Lemma parents_prefix name k p : parents name !! k = Some p → parents p = take k (parents name).
Proof.
  unfold parents. rewrite list_lookup_fmap_Some. intros (i & -> & Hi). apply lookup_seq in Hi as [-> Hk].
  rewrite parts_prefix by lia. rewrite firstn_map, take_seq, length_take.
  replace (k `min` pred (length (parts name)))%nat with k by lia. replace (pred ((1 + k) `min` length (parts name))) with k by lia.
  apply map_ext_in. intros j Hj. apply in_seq in Hj. rewrite take_take. do 2 f_equal. lia.
Qed.
Lemma parent_safe name p : p ∈ parents name → unsafe_name name = false → unsafe_name p = false.
Proof.
  intros (i & Hi & ->)%parents_elem. unfold unsafe_name. rewrite !orb_false_iff. intros [_ Hs].
  pose proof (Forall_take _ i _ (parts_are_plain name)) as Hp. destruct (parts name) as [|q qs] eqn:Eq; simpl in Hi; [lia |].
  destruct i as [|i]; [lia |]. simpl take in *. split.
  - apply not_true_is_false. intros (t & Ht)%startswith_spec. apply Forall_cons in Hp as [(Hq & _ & Hns) _].
    destruct q as [|c q]; [done |]. destruct (take i qs); injection Ht as Hc _; apply Hns; subst c; by left.
  - apply existsb_false. rewrite split_join; [| done | eapply Forall_impl; [exact Hp | by intros ? (_ & _ & ?)]].
    apply existsb_false in Hs. rewrite Forall_forall in Hs. apply Forall_forall. intros x Hx. apply Hs.
    assert (x ∈ parts name) as Hx'.
    { rewrite Eq. apply elem_of_cons in Hx as [->|Hx]; [by left | right]. rewrite <-(take_drop i qs). apply elem_of_app. by left. }
    unfold parts in Hx'. by apply list_elem_of_filter in Hx' as [_ ?].
Qed.

Lemma parent_ne name : name ∉ parents name.
Proof.
  intros (i & Hi & Hn)%parents_elem. pose proof (parts_prefix name i Hi) as H. rewrite <-Hn in H.
  apply (f_equal length) in H. rewrite length_take in H. lia.
Qed.

Definition directory (members : archive) (name : pystr) : Prop := ∃ m, dget name members = Some m ∧ S_ISDIR (field m.1 1) = true.
Definition tree_ok (members : archive) : Prop :=
  NoDup members.*1 ∧ ∀ name, name ∈ members.*1 → unsafe_name name = false ∧ ∀ p, p ∈ parents name → directory members p.
(** [name] can go in: it is new and safe, and no parent of it is a file. *)
Definition addable (members : archive) (name : pystr) : Prop :=
  (name ∉ members.*1) ∧ unsafe_name name = false ∧ ∀ p, p ∈ parents name → p ∈ members.*1 → directory members p.
(** A new member of mode [mode] behind [before]: its inode is above all of
    theirs, it has no owner and the fixed time, the sizes are its own, and a
    directory has two links. *)
Definition fresh_entry (before : archive) (item : pystr * member) (mode : Z) : Prop :=
  ∃ inode, (∀ x, x ∈ before → field x.2.1 0 < inode) ∧
    item.2.1 = [inode; mode; 0; 0; if S_ISDIR mode then 2 else 1; 1681862400; len item.2.2; 0; 0; 0; 0; len item.1 + 1; 0].
(** Empty directories of mode 0755, one behind the other. *)
Definition fresh_directories (members created : archive) : Prop :=
  ∀ before item after, created = before ++ item :: after → item.2.2 = [] ∧ fresh_entry (members ++ before) item (S_IFDIR + 493).

Lemma dget_app {V} k (d d' : dict V) : dget k (d ++ d') = match dget k d with Some v => Some v | None => dget k d' end.
Proof. induction d as [|[k' v] d IH]; [done |]. simpl. by case_bool_decide. Qed.
Lemma directory_app members more p : directory members p → directory (members ++ more) p.
Proof. intros (m & Hm & Hd). exists m. by rewrite dget_app, Hm. Qed.
Lemma directory_snoc_inv members p m q : q ≠ p → directory (members ++ [(p, m)]) q → directory members q.
Proof.
  intros Hq (x & Hx & Hdx). exists x. rewrite dget_app in Hx. destruct (dget q members); [done |]. simpl in Hx.
  by rewrite bool_decide_false in Hx by done.
Qed.
Lemma directory_dmem members p : directory members p → dmem p members = true.
Proof. intros (m & Hm & _). apply dmem_spec, dget_mem. eauto. Qed.

Definition add_parent (depth : nat) (members : archive) (parent : pystr) : res archive :=
  members ← (if dmem parent members then Ok members else add_within depth members parent [] S_PARENT);
  directory ← is_directory members parent;
  refuse_if (negb directory) ValueError "non-directory parent" ;;
  Ok members.
Lemma add_parent_directory depth members p : directory members p → add_parent depth members p = Ok members.
Proof.
  intros Hd. unfold add_parent. rewrite (directory_dmem _ _ Hd), Ok_bind. destruct Hd as (m & Hm & Hd).
  unfold is_directory. rewrite Hm. simpl. by rewrite Hd.
Qed.
Lemma add_parents_directories depth members ps : (∀ p, p ∈ ps → directory members p) →
  fold_res (add_parent depth) members ps = Ok members.
Proof.
  induction ps as [|p ps IH]; intros H; [done |]. simpl fold_res. rewrite add_parent_directory by (apply H; by left).
  rewrite Ok_bind. apply IH. intros q Hq. apply H. by right.
Qed.
Lemma add_within_unfold depth members name data mode :
  add_within (S depth) members name data mode =
  (refuse_if (dmem name members || unsafe_name name) ValueError "duplicate or unsafe newc name" ;;
   members ← fold_res (add_parent depth) members (parents name);
   Ok (dset name (new_fields members name data mode, data) members)).
Proof. done. Qed.
Lemma add_leaf depth members name data mode : (name ∉ members.*1) → unsafe_name name = false →
  (∀ p, p ∈ parents name → directory members p) →
  add_within (S depth) members name data mode = Ok (members ++ [(name, (new_fields members name data mode, data))]).
Proof.
  intros Hn Hs Hp. rewrite add_within_unfold, refuse_if_pass by (rewrite Hs, orb_false_r; by apply dmem_false).
  rewrite add_parents_directories by done. rewrite Ok_bind, dset_new; [done |].
  apply eq_None_not_Some. by rewrite <-dget_mem.
Qed.

Lemma tree_ok_snoc members name m : tree_ok members → (name ∉ members.*1) → unsafe_name name = false →
  (∀ p, p ∈ parents name → directory members p) → tree_ok (members ++ [(name, m)]).
Proof.
  intros [Hnd Ht] Hn Hs Hp. split.
  - rewrite fmap_app. apply NoDup_app. split; [done |]. split; [| apply NoDup_singleton].
    intros x Hx ->%list_elem_of_singleton. done.
  - intros x Hx. rewrite fmap_app in Hx. apply elem_of_app in Hx as [Hx| ->%list_elem_of_singleton].
    + destruct (Ht x Hx) as [? Hd]. split; [done |]. intros. by apply directory_app, Hd.
    + split; [done |]. intros. by apply directory_app, Hp.
Qed.
Lemma next_inode_fresh members item : item ∈ members → field item.2.1 0 < next_inode members.
Proof.
  assert (∀ l m, m ≤ foldl Z.max m l ∧ ∀ x, x ∈ l → x ≤ foldl Z.max m l) as H.
  { induction l as [|y l IH]; intros m; simpl; [split; [lia | set_solver] |]. destruct (IH (Z.max m y)) as [H1 H2].
    split; [lia |]. intros x [->|Hx]%elem_of_cons; [lia | by apply H2]. }
  destruct members as [|m l]; [by intros ?%not_elem_of_nil |]. unfold next_inode.
  destruct (H (map (λ m, field m.2.1 0) l) (field m.2.1 0)) as [H1 H2].
  intros [->|Hi]%elem_of_cons; [lia |]. apply Z.lt_succ_r, H2. apply list_elem_of_In, in_map_iff. exists item.
  split; [done | by apply list_elem_of_In].
Qed.

Lemma new_fields_fresh members name data mode : fresh_entry members (name, (new_fields members name data mode, data)) mode.
Proof. exists (next_inode members). split; [intros x; apply next_inode_fresh | done]. Qed.
Lemma fresh_directories_cons members item created : item.2.2 = [] → fresh_entry members item (S_IFDIR + 493) →
  fresh_directories (members ++ [item]) created → fresh_directories members (item :: created).
Proof.
  intros He Hf Hd [|x before] y after H; injection H as -> H; [by rewrite app_nil_r |]. destruct (Hd before y after H) as [? Hy].
  split; [done |]. by rewrite <- app_assoc in Hy.
Qed.
Lemma filter_agree_on {A} (P Q : A → Prop) `{∀ x, Decision (P x), ∀ x, Decision (Q x)} (l : list A) : (∀ x, x ∈ l → P x ↔ Q x) → filter P l = filter Q l.
Proof.
  induction l as [|x l IH]; intros H1; [done |]. rewrite !filter_cons, IH by (intros; apply H1; by right).
  assert (P x ↔ Q x) as Hx by (apply H1; by left). repeat case_decide; tauto.
Qed.
Lemma parents_NoDup name : NoDup (parents name).
Proof.
  apply NoDup_alt. intros i j p Hi Hj. pose proof (parents_prefix name i p Hi) as H. rewrite (parents_prefix name j p Hj) in H.
  apply (f_equal length) in H. apply lookup_lt_Some in Hi, Hj. rewrite !length_take in H. lia.
Qed.

Lemma add_missing depth members name pre p ps : parents name = pre ++ p :: ps → unsafe_name name = false → tree_ok members →
  (∀ q, q ∈ pre → directory members q) → (p ∉ members.*1) →
  ∃ m, add_parent (S depth) members p = Ok (members ++ [(p, m)]) ∧ tree_ok (members ++ [(p, m)]) ∧
    directory (members ++ [(p, m)]) p ∧ m.2 = [] ∧ fresh_entry members (p, m) (S_IFDIR + 493).
Proof.
  intros Hps Hs Ht Hpre Hp. assert (p ∈ parents name) as Hin by (rewrite Hps; set_solver).
  pose proof (parent_safe name p Hin Hs) as Hsp.
  assert (∀ q, q ∈ parents p → directory members q) as Hd.
  { rewrite (parents_prefix name (length pre) p) by (by rewrite Hps, list_lookup_middle). by rewrite Hps, take_app_length. }
  exists (new_fields members p [] S_PARENT, []). set (m := (new_fields members p [] S_PARENT, [])).
  assert (directory (members ++ [(p, m)]) p) as Hdir.
  { exists m. rewrite dget_app. assert (dget p members = None) as -> by (apply eq_None_not_Some; by rewrite <-dget_mem).
    simpl. by rewrite bool_decide_true. }
  split_and!; try done; [| by apply tree_ok_snoc | apply new_fields_fresh].
  unfold add_parent. rewrite (proj2 (dmem_false p members) Hp), add_leaf by done. fold m.
  pose proof (add_parent_directory 0 _ _ Hdir) as H. unfold add_parent in H. by rewrite (directory_dmem _ _ Hdir), Ok_bind in H.
Qed.

Lemma add_parents_spec depth members name pre ps : parents name = pre ++ ps → unsafe_name name = false → tree_ok members →
  (∀ q, q ∈ pre → directory members q) →
  match fold_res (add_parent (S depth)) members ps with
  | Ok result => (∀ p, p ∈ ps → p ∈ members.*1 → directory members p) ∧
      (∀ p, p ∈ parents name → directory result p) ∧ tree_ok result ∧
      ∃ created, result = members ++ created ∧ created.*1 = filter (λ p, p ∉ members.*1) ps ∧ fresh_directories members created
  | Raise e => e.(exn_cls) = ValueError ∧ ∃ p, p ∈ ps ∧ p ∈ members.*1 ∧ ¬ directory members p
  end.
Proof.
  intros Hps Hs. revert members pre Hps. induction ps as [|p ps IH]; intros members pre Hps Ht Hpre.
  { simpl. rewrite app_nil_r in Hps. rewrite Hps. split_and!; [set_solver | done | done |].
    exists []. split; [by rewrite app_nil_r |]. split; [done | by intros []]. }
  simpl fold_res. rewrite (cons_middle p), app_assoc in Hps. destruct (decide (p ∈ members.*1)) as [Hin|Hni].
  - apply dget_mem in Hin as Hm. destruct Hm as [m Hm]. destruct (S_ISDIR (field m.1 1)) eqn:Ed.
    + assert (directory members p) as Hd by (by exists m). rewrite add_parent_directory, Ok_bind by done.
      specialize (IH members (pre ++ [p]) Hps Ht). destruct (fold_res _ members ps) as [result|e].
      * destruct IH as (H1 & H2 & H3 & created & -> & Hc & Hf); [set_solver |]. split; [intros q [->|?]%elem_of_cons ?; auto |].
        split; [done |]. split; [done |]. exists created. rewrite filter_cons_False; [done |]. intros Hno. apply Hno, dget_mem. by eexists.
      * destruct IH as (H1 & q & H2 & H3); [set_solver |]. split; [done |]. exists q. split; [by right | done].
    + unfold add_parent. rewrite (proj2 (dmem_spec p members) Hin), Ok_bind. unfold is_directory. rewrite Hm. simpl. rewrite Ed. simpl.
      split; [done |]. exists p. split; [by left |]. split; [done |]. intros (m' & Hm' & Hd). simplify_eq. congruence.
  - rewrite <-app_assoc in Hps. destruct (add_missing depth members name pre p ps) as (m & -> & Ht' & Hd & Hempty & Hfresh); try done.
    rewrite Ok_bind. rewrite app_assoc in Hps. specialize (IH (members ++ [(p, m)]) (pre ++ [p]) Hps Ht').
    assert (∀ q, q ∈ pre ++ [p] → directory (members ++ [(p, m)]) q) as Hpre'.
    { intros q [Hq| ->%list_elem_of_singleton]%elem_of_app; [by apply directory_app, Hpre | done]. }
    assert (∀ q, q ≠ p → directory (members ++ [(p, m)]) q → directory members q) as Hback.
    { intros q Hq. by apply directory_snoc_inv. }
    destruct (fold_res _ (members ++ [(p, m)]) ps) as [result|e].
    + destruct (IH Hpre') as (H1 & H2 & H3 & created & -> & Hc & Hf). split_and!; try done.
      * intros q [->|Hq]%elem_of_cons Hqm; [done |]. apply Hback; [by intros -> |]. apply H1; [done |]. set_solver.
      * exists ((p, m) :: created). split; [by rewrite <-app_assoc |]. split; [| by apply fresh_directories_cons].
        rewrite filter_cons_True, fmap_cons by done. f_equal. etransitivity; [exact Hc |]. apply filter_agree_on. intros q Hq.
        rewrite fmap_app, elem_of_app. change ([(p, m)].*1) with [p]. rewrite list_elem_of_singleton. assert (q ≠ p); [| tauto]. intros ->.
        pose proof (parents_NoDup name) as Hnd. rewrite Hps in Hnd. apply NoDup_app in Hnd as (_ & Hnd & _). destruct (Hnd p); [set_solver | done].
    + destruct (IH Hpre') as (H1 & q & Hq & Hqm & Hnd). split; [done |]. exists q. split; [by right |].
      rewrite fmap_app in Hqm. apply elem_of_app in Hqm as [Hqm|Hqp].
      * split; [done |]. intros Hdq. by apply Hnd, directory_app.
      * exfalso. apply Hnd. apply list_elem_of_singleton in Hqp. simpl in Hqp. by subst q.
Qed.


(** ** The installed policy *)
Lemma dget_dset_ne {V} k k' v (d : dict V) : k ≠ k' → dget k' (dset k v d) = dget k' d.
Proof. intros H. by rewrite dget_dset, bool_decide_false. Qed.
Lemma dget_dset_eq {V} k v (d : dict V) : dget k (dset k v d) = Some v.
Proof. by rewrite dget_dset, bool_decide_true. Qed.
Lemma parents_trans name p q : p ∈ parents name → q ∈ parents p → q ∈ parents name.
Proof. intros (k & Hk)%list_elem_of_lookup. rewrite (parents_prefix _ _ _ Hk). intros Hq. rewrite <-(take_drop k). set_solver. Qed.

(** What [add] may touch: the name and its missing parents. *)
Definition only_new (names : list pystr) (members result : archive) : Prop :=
  ∀ k, dget k result = dget k members ∨ dget k members = None ∧ k ∈ names.
Lemma only_new_trans names m1 m2 m3 : only_new names m1 m2 → only_new names m2 m3 → only_new names m1 m3.
Proof. intros H1 H2 k. destruct (H1 k) as [E1|[E1 ?]], (H2 k) as [E2|[E2 ?]]; rewrite ?E2; auto; right; split; congruence. Qed.
Lemma add_within_only depth members name data mode result : add_within depth members name data mode = Ok result →
  only_new (name :: parents name) members result ∧ ∃ m, dget name result = Some (new_fields m name data mode, data).
Proof.
  revert members name data mode result. induction depth as [|depth IH]; intros members name data mode result; [done |].
  rewrite add_within_unfold. intros H. guard_inv H as Hg. bind_inv H as mid Hm. injection H as <-.
  apply orb_false_iff in Hg as [Hn _]. apply dmem_false in Hn.
  assert (only_new (parents name) members mid) as Hmid.
  { apply (fold_res_ind (λ _ m, only_new (parents name) members m) (add_parent depth) (parents name) members mid);
      [by left | | done]. intros _ p m m' Ho Hp Hs. eapply only_new_trans; [exact Ho |]. unfold add_parent in Hs.
    bind_inv Hs as m1 Hs1. bind_inv Hs as d Hd. guard_inv Hs as _. injection Hs as <-.
    destruct (dmem p m); [injection Hs1 as ->; by left |]. apply IH in Hs1 as [Ho1 _]. intros k.
    destruct (Ho1 k) as [?|[? Hk]]; [by left | right]. split; [done |]. apply elem_of_cons in Hk as [->|Hk]; [done |].
    by eapply parents_trans. }
  split; [| exists mid; apply dget_dset_eq]. intros k. destruct (decide (name = k)) as [<-|Hne].
  - right. split; [apply eq_None_not_Some; by rewrite <-dget_mem | by left].
  - rewrite dget_dset_ne by done. destruct (Hmid k) as [?|[??]]; [by left | right]. split; [done | by right].
Qed.
Lemma add_only members name data mode result : add members name data mode = Ok result →
  only_new (name :: parents name) members result ∧ ∃ m, dget name result = Some (new_fields m name data mode, data).
Proof. apply add_within_only. Qed.

Section policy_laws.
Context (read_bytes : pystr → res bytes).

(** [entry] is a file of the policy as the verifier wants it. *)
Definition installed (members : archive) (file : pystr * pystr) : Prop :=
  ∃ entry, dget (PREFIX ++ file.1) members = Some entry ∧ metadata_is entry FILE_MODE = true ∧ read_bytes file.2 = Ok entry.2.

Lemma metadata_set m n data : metadata_is m FILE_MODE = true → metadata_is (<[6%nat := n]> m.1, data) FILE_MODE = true.
Proof.
  unfold metadata_is. cbn [fst]. intros H. apply bool_decide_eq_true in H. apply bool_decide_eq_true. rewrite <-H.
  destruct m.1 as [|f0 [|f1 [|f2 [|f3 [|f4 [|f5 [|f6 l]]]]]]]; done.
Qed.
Lemma install_one_Ok members changed file members' changed' :
  install_one read_bytes (members, changed) file = Ok (members', changed') →
  changed' = {[ PREFIX ++ file.1 ]} ∪ changed ∧ installed members' file ∧
  ∀ k, k ≠ PREFIX ++ file.1 → dget k members' = dget k members ∨ dget k members = None ∧ k ∈ parents (PREFIX ++ file.1).
Proof.
  unfold install_one. set (name := PREFIX ++ file.1). intros H. bind_inv H as m' Hm. injection H as <- <-. split; [done |].
  unfold installed. fold name. destruct (dget name members) as [m|] eqn:E.
  - guard_inv Hm as Hmeta. apply negb_false_iff in Hmeta. bind_inv Hm as data Hr. unfold replace in Hm. rewrite E in Hm.
    bind_inv Hm as x Hx. injection Hx as <-. guard_inv Hm as _. injection Hm as <-. split.
    + eexists. split; [apply dget_dset_eq |]. split; [by apply metadata_set | done].
    + intros k Hk. left. by apply dget_dset_ne.
  - bind_inv Hm as data Hr. apply add_only in Hm as [Ho [m Hm]]. split.
    + eexists. split; [exact Hm |]. done.
    + intros k Hk. destruct (Ho k) as [?|[? Hin]]; [by left |]. right. split; [done |]. by apply elem_of_cons in Hin as [?|?].
Qed.
Lemma installed_kept members members' (file file' : pystr * pystr) : PREFIX ++ file.1 ≠ PREFIX ++ file'.1 →
  (∀ k, k ≠ PREFIX ++ file'.1 → dget k members' = dget k members ∨ dget k members = None ∧ k ∈ parents (PREFIX ++ file'.1)) →
  installed members file → installed members' file.
Proof.
  intros Hne Hk (entry & He & ?). exists entry. split; [| done]. destruct (Hk _ Hne) as [->|[Hn _]]; [done | congruence].
Qed.
Lemma installed_verified members file : installed members file → verify_one read_bytes members file = Ok ().
Proof. intros (entry & He & Hm & Hr). unfold verify_one. rewrite He, Hm, Hr. simpl. by rewrite bool_decide_true. Qed.

Definition file_names (files : list (pystr * pystr)) : list pystr := map (λ f, PREFIX ++ f.1) files.
Lemma install_files_Ok files members changed members' changed' : NoDup (file_names files) →
  fold_res (install_one read_bytes) (members, changed) files = Ok (members', changed') →
  changed' = list_to_set (file_names files) ∪ changed ∧ Forall (installed members') files ∧
  (∀ file, (PREFIX ++ file.1 ∉ file_names files) → installed members file → installed members' file) ∧
  ∀ k, k ∉ file_names files →
    dget k members' = dget k members ∨ dget k members = None ∧ k ∈ concat (map parents (file_names files)).
Proof.
  revert members changed. induction files as [|file files IH]; intros members changed Hnd.
  { intros [= -> ->]. split; [set_solver |]. split; [by apply Forall_nil |]. split; [done | by left]. }
  cbn [file_names map] in Hnd. fold (file_names files) in Hnd. apply NoDup_cons in Hnd as [Hni Hnd].
  cbn [fold_res]. intros H. bind_inv H as [m1 c1] H1. apply install_one_Ok in H1 as (-> & I1 & K1).
  apply IH in H as (-> & I & P & K); [| done]. cbn [file_names map]. fold (file_names files). split_and!.
  - set_solver.
  - apply Forall_cons. split; [by apply P | done].
  - intros f [Hne Hf]%not_elem_of_cons Hin. apply P; [done |]. by eapply installed_kept.
  - intros k [Hne Hk]%not_elem_of_cons. cbn [concat map]. rewrite elem_of_app.
    destruct (K1 k Hne) as [E1|[E1 ?]]; [| right; split; [done | by left]].
    destruct (K k Hk) as [E|[E ?]]; [left; congruence | right; split; [congruence | by right]].
Qed.

Lemma headless_names_distinct : NoDup (file_names headless_cpu_files) ∧ DIAGNOSTIC ∉ file_names headless_cpu_files ∧
  DIAGNOSTIC ∉ concat (map parents (file_names headless_cpu_files)).
Proof. split_and!; apply (bool_decide_unpack _); vm_compute; exact I. Qed.

(** The archive that [install_headless_cpu_policy] returns is one that
    [verify_headless_cpu_composition] accepts, and every other member is as it
    was. *)
Theorem install_policy_verified members members' changed :
  install_headless_cpu_policy read_bytes members = Ok (members', changed) →
  verify_headless_cpu_composition read_bytes members' = Ok () ∧
  changed = list_to_set (file_names headless_cpu_files) ∧
  ∀ k, k ∉ changed → k ∈ members.*1 → dget k members' = dget k members.
Proof.
  unfold install_headless_cpu_policy. intros H. guard_inv H as Hd. destruct headless_names_distinct as (Hnd & Hn & Hp).
  apply install_files_Ok in H as (-> & I & _ & K); [| done]. split_and!.
  - unfold verify_headless_cpu_composition. case_match; [| done].
    rewrite (proj2 (for_each_Ok _ _ tt)), Ok_bind; [| by eapply Forall_impl; [exact I | apply installed_verified]].
    apply refuse_if_Ok, dmem_false. apply dmem_false in Hd. rewrite dget_mem.
    destruct (K DIAGNOSTIC Hn) as [->|[_ Hin]]; [by rewrite <-dget_mem | done].
  - by rewrite union_empty_r_L.
  - intros k Hk Hm. destruct (K k) as [?|[Hnone _]]; [set_solver | done |].
    apply dget_mem in Hm. rewrite Hnone in Hm. by destruct Hm.
Qed.
End policy_laws.

(** ** Samples *)
Definition sample_members : archive :=
  [("init" : pystr, ([7; S_IFREG + 493; 0; 0; 1; EPOCH; 3; 0; 0; 0; 0; 5; 0], ("#!x" : bytes)));
   ("bin" : pystr, ([1; S_PARENT; 0; 0; 2; EPOCH; 0; 0; 0; 0; 0; 4; 0], ([] : bytes)))].
Lemma sample_ok : archive_ok sample_members ∧ tree_ok sample_members.
Proof.
  assert (NoDup sample_members.*1) as Hnd by (apply (bool_decide_unpack _); vm_compute; exact I).
  split; (split; [exact Hnd |]).
  - repeat (apply Forall_cons; split; [| try by apply Forall_nil]).
    all: split_and!; try done; try (by apply has_char_false).
    all: apply (bool_decide_unpack _); vm_compute; exact I.
  - intros name Hn. assert (name = "init" ∨ name = "bin") as [-> | ->] by set_solver; (split; [done |]);
      intros p Hp; exfalso; revert Hp; apply (bool_decide_unpack _); vm_compute; exact I.
Qed.

Lemma entries_encode_round_trip_witness :
  archive_ok sample_members ∧ entries (encode sample_members) = Ok (reverse sample_members).
Proof.
  split; [apply sample_ok |]. destruct (entries_encode_round_trip sample_members (proj1 sample_ok)) as [-> _]. vm_compute. reflexivity.
Defined.

Definition sample_added : archive :=
  sample_members ++ [("bin/iw" : pystr, ([8; S_PARENT; 0; 0; 2; EPOCH; 0; 0; 0; 0; 0; 7; 0], ([] : bytes)));
    ("bin/iw/a" : pystr, ([9; FILE_MODE; 0; 0; 1; EPOCH; 2; 0; 0; 0; 0; 9; 0], ("ok" : bytes)))].

Lemma install_policy_verified_witness :
  ∃ members' changed, install_headless_cpu_policy (λ path, Ok path) sample_members = Ok (members', changed) ∧
    verify_headless_cpu_composition (λ path, Ok path) members' = Ok () ∧ len members' = 7.
Proof.
  destruct (install_headless_cpu_policy (λ path, Ok path) sample_members) as [[members' changed]|e] eqn:E.
  - exists members', changed. split; [done |]. split; [apply (install_policy_verified _ _ _ _ E) |].
    assert (res_bind (λ m, Ok (len m.1)) (install_headless_cpu_policy (λ path, Ok path) sample_members) = Ok 7) as H
      by (vm_compute; reflexivity).
    rewrite E in H. by injection H.
  - exfalso. assert (is_ok (install_headless_cpu_policy (λ path, Ok path) sample_members) = true) as H by (vm_compute; reflexivity).
    by rewrite E in H.
Defined.
