(* ===== verification/Compose.v ===== *)
(** * The composition of the initramfs

    [compose] of scripts/device/build-native-wifi-boot-initramfs.py: a
    qualified base archive gets the current boot scripts, the qualified radio
    package, the repository's Wi-Fi files and a list of their hashes.  Gzip,
    the tar readers, the repository and the Unicode table are parameters:
    [read_bytes] reads a file of the repository, [native_wifi] is its Wi-Fi
    directory in the order of [sorted(rglob)], files only, and [alnum] is
    [str.isalnum] of one character.  Text is held in UTF-8.  The members of a
    tar archive are read before the first is used, so a package that fails
    half-way is refused for that and not for an earlier member. *)

From stdpp Require Import sorting.
From S2P Require Import Prelude PyStr PyData Sha256 Newc.

Record wifi_file := WifiFile { w_name : pystr; w_symlink : bool; w_executable : bool; w_data : bytes }.
Record radio_member := RadioMember { r_name : pystr; r_isdir : bool; r_isfile : bool; r_mode : Z; r_data : bytes }.
Record composition_record := CompositionRecord { c_base_sha256 : pystr; c_package_sha256 : pystr; c_release : pystr; c_probe_files : dict pystr }.
Record summary := Summary { s_release : pystr; s_changed : list pystr; s_added : Z; s_base_sha256 : pystr; s_package_sha256 : pystr;
  s_sha256 : pystr; s_authority : pystr; s_kernel_rebuilt : bool }.

Definition PROBE : pystr := "probe-native-wifi.sh".
Definition CHECKS : pystr := PREFIX ++ "boot-files.sha256".
(** [name.removeprefix('./')] *)
Definition remove_dot (name : pystr) : pystr := if startswith name "./" then drop 2 name else name.
(** The characters of a text: a byte that continues one belongs to it. *)
Definition continues (c : ascii) : bool := (128 <=? ord c) && (ord c <? 192).
Definition characters (text : pystr) : list pystr :=
  foldl (λ l c, match last l with
                | Some w => if continues c then removelast l ++ [w ++ [c]] else l ++ [[c]]
                | None => [[c]]
                end) [] text.
Definition release_ok (alnum : pystr → bool) (release : pystr) : bool :=
  startswith release "7.1.4-g" && forallb (λ c, alnum c || contains c ".-") (characters release).
(** The line ends that [Path.read_text] makes of [\r\n] and [\r]. *)
Fixpoint newlines (text : pystr) : pystr :=
  match text with
  | [] => []
  | c :: text =>
      if c == CR then match text with d :: text' => if d == LF then LF :: newlines text' else LF :: newlines text | [] => [LF] end
      else c :: newlines text
  end.
Definition text_of (data : bytes) : res pystr := newlines <$> decode_utf8 data.
Definition qualified_lines (release : pystr) : list pystr :=
  ["expected_kernel_release=" ++ release ++ [LF]; "expected_native_root_mode=1" ++ [LF]; "expected_ufs_storage_mode=read-only" ++ [LF];
   "expected_ssh_diagnostic_mode=0" ++ [LF]].
Definition boot_state : dict pystr :=
  [("NATIVE_ROOT_MODE" : pystr, "1" : pystr); ("UFS_STORAGE_MODE" : pystr, "read-only" : pystr);
   ("PROBE_BOOT_ID" : pystr, "staged-seal" : pystr); ("PERSISTENT_OVERLAY_MODE" : pystr, "0" : pystr)].
Definition init_state (release : pystr) : dict pystr :=
  boot_state ++ [("KERNEL_RELEASE" : pystr, release); ("SSH_DIAGNOSTIC_MODE" : pystr, "0" : pystr); ("UFS_CONTAINMENT" : pystr, "on" : pystr)].
Definition trust_files : list (pystr * pystr * Z) :=
  [("usr/local/sbin/rog5-persistent-keyring" : pystr, "initramfs/persistent-package-keyring" : pystr, 493);
   ("usr/local/share/rog5/rog5-package-keyring.service" : pystr, "configs/systemd/rog5-package-keyring.service" : pystr, 420)].
(** [dict(re.findall(r'^([a-z_]+)=([0-9]+)$', text, re.M))] *)
Definition timing_values (text : pystr) : dict pystr :=
  foldl (λ d line, let '(key, found, value) := partition "=" line in
    if found && forallb (λ c, is_lower c || (c == "_"%char)) key && (key != []) && isdecimal value then dset key value d else d) [] (split_on LF text).
(** No member of [original] outside [changed] differs. *)
Definition unchanged_but (why : pystr → pystr) (changed : list pystr) (original members : archive) : res unit :=
  for_each (λ item, if is_in item.1 changed then Ok () else
    v ← of_option (dget item.1 members) KeyError item.1; refuse_if (v != item.2) ValueError (why item.1)) original.
(** [members == other] for two dicts. *)
Definition archive_eq (a b : archive) : bool := (len a =? len b) && forallb (λ kv, dget kv.1 b == Some kv.2) a.

(** The archive is packed and must read back. *)
Definition repack (gunzip : bytes → res bytes) (gzip : bytes → bytes) (why : pystr) (members : archive) : res bytes :=
  let packed := gzip (encode members) in
  read ← gunzip packed;
  again ← entries read;
  refuse_if (negb (archive_eq again members)) ValueError why ;;
  Ok packed.

Section compose.
Context (gunzip : bytes → res bytes) (gzip : bytes → bytes) (radio_tar : bytes → res (list radio_member)).
Context (alnum : pystr → bool) (read_bytes : pystr → res bytes) (iw_sha256 : pystr) (native_wifi : list wifi_file).
Context (package_mode package_size : Z) (package_raw : bytes) (package_members : bytes → res (list tar_member)).

Definition render (source : pystr) (values : dict pystr) : res bytes :=
  data ← read_bytes source; text ← text_of data; render_boot_template (default [] (last (split_on SLASH source))) text values.
Definition boot_files (release : pystr) : res (dict bytes) :=
  init ← render "initramfs/persistent-root-init" (init_state release);
  attest ← render "initramfs/persistent-root-attest" boot_state;
  power ← read_bytes "scripts/device/load-persistent-root-power-usb.sh";
  tailscale ← read_bytes "initramfs/persistent-tailscale-runtime";
  Ok [("init" : pystr, init); ("usr/local/sbin/rog5-p2-attest" : pystr, attest);
      ("sbin/rog5-load-persistent-power-usb" : pystr, power); ("usr/local/sbin/rog5-persistent-tailscale" : pystr, tailscale)].
(** One of the two package-trust files; the second component lists the
    changed members. *)
Definition install_trust (st : archive * list pystr) (file : pystr * pystr * Z) : res (archive * list pystr) :=
  let '(members, changed) := st in
  let '(name, source, mode) := file in
  data ← read_bytes source;
  match dget name members with
  | Some m =>
      refuse_if (negb (field m.1 1 =? S_IFREG + mode)) ValueError ("incompatible package-trust member: " ++ name) ;;
      members ← replace members name data; Ok (members, changed ++ [name])
  | None => members ← add members name data (S_IFREG + mode); Ok (members, changed)
  end.
(** One member of the radio package. *)
Definition add_radio (probe_files : dict pystr) (st : archive * list pystr) (m : radio_member) : res (archive * list pystr) :=
  let '(members, seen) := st in
  let name := remove_dot m.(r_name) in
  refuse_if ((name == []) || unsafe_name name) ValueError "unsafe radio package name" ;;
  refuse_if (is_in name seen) ValueError "duplicate radio package member" ;;
  let seen := seen ++ [name] in
  if m.(r_isdir) then Ok (members, seen) else
  refuse_if (negb m.(r_isfile)) ValueError "radio package member must be a regular file" ;;
  refuse_if (negb (dmem name probe_files) && (name != "probe-files.sha256")) ValueError "unqualified radio package member" ;;
  if name == "probe-files.sha256" then Ok (members, seen) else
  expected ← of_option (dget name probe_files) KeyError name;
  refuse_if (sha256 m.(r_data) != expected) ValueError "radio member identity" ;;
  members ← add members (PREFIX ++ name) m.(r_data) (S_IFREG + (if Z.land m.(r_mode) 73 =? 0 then 420 else 493));
  Ok (members, seen).
Definition add_wifi (outer : pystr) (members : archive) (f : wifi_file) : res archive :=
  refuse_if f.(w_symlink) ValueError "symlink in native Wi-Fi files" ;;
  add members (PREFIX ++ f.(w_name)) (py_replace OUTER_SECONDS outer f.(w_data)) (S_IFREG + (if f.(w_executable) then 493 else 420)).
Definition check_line (item : pystr * member) : bytes := sha256 item.2.2 ++ "  " ++ drop (length PREFIX) item.1 ++ [LF].
Definition checked (item : pystr * member) : bool := startswith item.1 PREFIX && S_ISREG (field item.2.1 1).
Definition check_lines (ok : pystr * member → bool) (members : archive) : bytes :=
  concat (map check_line (filter (λ item, ok item = true) (sorted_items members))).
Definition checks_text : archive → bytes := check_lines checked.
Definition timed (probe : bytes) : res (dict pystr) :=
  data ← read_bytes "initramfs/native-wifi/timing"; text ← text_of data;
  let timing := timing_values text in
  outer ← of_option (dget "outer_seconds" timing) KeyError "outer_seconds";
  radio ← of_option (dget "radio_seconds" timing) KeyError "radio_seconds";
  cleanup ← of_option (dget "cleanup_seconds" timing) KeyError "cleanup_seconds";
  refuse_if (int10 outer <=? int10 radio + int10 cleanup) ValueError "outer timeout must cover radio and cleanup" ;;
  probe ← text_of probe;
  refuse_if (negb (contains ("--on-active=" ++ radio ++ "s") probe)) ValueError "radio timeout mismatch" ;;
  Ok timing.
(** The members once everything but the list of hashes is in place, with the
    names of the changed ones. *)
Definition assemble (release package : bytes) (probe_files : dict pystr) (original : archive) : res (archive * list pystr) :=
  files ← boot_files release;
  members ← fold_res (λ members '(name, data), replace members name data) original files;
  '(members, changed) ← fold_res install_trust (members, files.*1) trust_files;
  tar ← radio_tar package;
  '(members, seen) ← fold_res (add_radio probe_files) (members, []) tar;
  refuse_if (negb (forallb (λ name, is_in name seen) probe_files.*1)) ValueError "incomplete qualified radio package" ;;
  probe ← read_bytes "scripts/device/probe-native-wifi.sh";
  members ← replace members (PREFIX ++ PROBE) probe;
  timing ← timed probe;
  members ← fold_res (add_wifi (default [] (dget "outer_seconds" timing))) members native_wifi;
  '(members, _) ← install_wifi_iw read_bytes iw_sha256 package_mode package_size package_raw package_members members;
  members ← add members (PREFIX ++ "automatic") ("rog5-native-wifi-boot-v1" ++ [LF]) (S_IFREG + 292);
  members ← add members (PREFIX ++ "kernel-release") (release ++ [LF]) (S_IFREG + 292);
  Ok (members, changed).
Definition compose (base package : bytes) (record : composition_record) : res (bytes * summary) :=
  refuse_if (sha256 base != record.(c_base_sha256)) ValueError "base identity" ;;
  refuse_if (sha256 package != record.(c_package_sha256)) ValueError "radio package identity" ;;
  let release := record.(c_release) in
  refuse_if (negb (release_ok alnum release)) ValueError "kernel release" ;;
  plain ← gunzip base;
  original ← entries plain;
  init ← of_option (dget "init" original) KeyError "init";
  for_each (λ line, refuse_if (negb (count line init.2 =? 1)) ValueError "not the qualified read-only native base") (qualified_lines release) ;;
  '(members, changed) ← assemble release package record.(c_probe_files) original;
  members ← add members CHECKS (checks_text members) (S_IFREG + 292);
  unchanged_but (λ _, "unrelated base member changed") changed original members ;;
  verify_radio_composition read_bytes iw_sha256 package_mode package_size package_raw package_members members ;;
  packed ← repack gunzip gzip "newc round trip" members;
  Ok (packed, Summary release (sorted changed) (len members - len original) (sha256 base) (sha256 package) (sha256 packed)
      "none; RAM-test composition only" false).
End compose.

(** ** What every step keeps *)
(** Every member but [names] is kept. *)
Definition members_kept (names : list pystr) (m m' : archive) : Prop := ∀ k v, k ∉ names → dget k m = Some v → dget k m' = Some v.
Lemma members_kept_refl names m : members_kept names m m.
Proof. by intros k v _. Qed.
Lemma members_kept_step names m1 m2 m3 : members_kept names m1 m2 → members_kept [] m2 m3 → members_kept names m1 m3.
Proof. intros H1 H2 k v Hk Hv. apply H2; [by apply not_elem_of_nil | by apply H1]. Qed.
Lemma members_kept_weaken names names' m m' : (∀ k, k ∈ names → k ∈ names') → members_kept names m m' → members_kept names' m m'.
Proof. intros Hs H k v Hk. apply H. intros Hin. by apply Hk, Hs. Qed.
Lemma add_kept members name data mode result : add members name data mode = Ok result →
  members_kept [] members result ∧ ∃ fields, dget name result = Some (fields, data).
Proof.
  intros H. apply add_only in H as [Ho [m Hm]]. split; [| by exists (new_fields m name data mode)].
  intros k v _ Hk. destruct (Ho k) as [->|[Hn _]]; [done | congruence].
Qed.
Lemma replace_kept members name data result : replace members name data = Ok result → members_kept [name] members result.
Proof.
  unfold replace. intros H. bind_inv H as m Hm. guard_inv H as _. injection H as <-. intros k v Hk%not_elem_of_cons Hv.
  rewrite dget_dset_ne; [done | intros ->; by destruct Hk].
Qed.
Lemma replace_only members name data result : replace members name data = Ok result → ∀ k, k ≠ name → dget k result = dget k members.
Proof.
  unfold replace. intros H k Hk. bind_inv H as m Hm. guard_inv H as _. injection H as <-. apply dget_dset_ne. by intros ->.
Qed.
Lemma fold_members_kept {B} (f : archive → B → res archive) names l m m' : (∀ m x m', x ∈ l → f m x = Ok m' → members_kept names m m') →
  fold_res f m l = Ok m' → members_kept names m m'.
Proof.
  intros Hf H. revert m H. induction l as [|x l IH]; intros m H; simpl in H; [injection H as ->; apply members_kept_refl |].
  bind_inv H as m1 H1. apply Hf in H1; [| by left]. eapply IH in H; [| intros; eapply Hf; [by right | done]].
  intros k v Hk Hv. by apply H, H1.
Qed.

Section what_is_kept.
Context (read_bytes : pystr → res bytes) (iw_sha256 : pystr).
Context (package_mode package_size : Z) (package_raw : bytes) (package_members : bytes → res (list tar_member)).
Abbreviation iw_installed := (install_wifi_iw read_bytes iw_sha256 package_mode package_size package_raw package_members).

Lemma install_iw_kept members result names : iw_installed members = Ok (result, names) → members_kept [IW; IW_COPYING] members result.
Proof.
  unfold install_wifi_iw. intros H. bind_inv H as files Hf. bind_inv H as m Hm. injection H as -> _.
  assert (∀ name v, (name, v) ∈ files → name ∈ [IW; IW_COPYING]) as Hnames.
  { unfold wifi_iw_files in Hf. guard_inv Hf as _. guard_inv Hf as _. bind_inv Hf as tar Ht. destruct (filter _ tar) as [|t0 [|]]; try done.
    guard_inv Hf as _. bind_inv Hf as c Hc. injection Hf as <-. intros name v. rewrite !elem_of_cons, !elem_of_nil. intros [H|[H|[]]]; injection H as -> _; tauto. }
  eapply fold_members_kept; [| exact Hm]. intros m0 [name [mode data]] m1 Hin H1. apply Hnames in Hin. destruct (dget name m0) as [x|].
  - guard_inv H1 as _. apply replace_kept in H1. eapply members_kept_weaken; [| exact H1]. by intros k ->%list_elem_of_singleton.
  - apply add_kept in H1 as [H1 _]. eapply members_kept_weaken; [| exact H1]. by intros k ?%not_elem_of_nil.
Qed.
Context (radio_tar : bytes → res (list radio_member)) (native_wifi : list wifi_file).
Lemma add_radio_kept probe_files members seen m members' seen' : add_radio probe_files (members, seen) m = Ok (members', seen') →
  members_kept [] members members' ∧ seen' = seen ++ [remove_dot m.(r_name)] ∧
  (m.(r_isdir) = false → remove_dot m.(r_name) ≠ "probe-files.sha256" → dget (remove_dot m.(r_name)) probe_files = Some (sha256 m.(r_data)) ∧
    ∃ fields, dget (PREFIX ++ remove_dot m.(r_name)) members' = Some (fields, m.(r_data))).
Proof.
  unfold add_radio. set (name := remove_dot _). intros H. guard_inv H as _. guard_inv H as _. destruct (r_isdir m).
  { injection H as <- <-. split; [apply members_kept_refl |]. by split. }
  guard_inv H as _. guard_inv H as _. case_bool_decide as Hn.
  { injection H as <- <-. split; [apply members_kept_refl |]. by split. }
  bind_inv H as expected He. apply of_option_Ok in He. guard_inv H as Hs%negb_false_iff%bool_decide_eq_true. bind_inv H as m1 Hm. injection H as <- <-.
  apply add_kept in Hm as [Hk Hf]. split; [done |]. split; [done |]. intros _ _. split; [by rewrite Hs | done].
Qed.
Lemma add_radios probe_files tar members seen members' seen' : fold_res (add_radio probe_files) (members, seen) tar = Ok (members', seen') →
  members_kept [] members members' ∧ seen' = seen ++ map (λ m, remove_dot m.(r_name)) tar ∧
  ∀ m, m ∈ tar → m.(r_isdir) = false → remove_dot m.(r_name) ≠ "probe-files.sha256" →
    dget (remove_dot m.(r_name)) probe_files = Some (sha256 m.(r_data)) ∧ ∃ fields, dget (PREFIX ++ remove_dot m.(r_name)) members' = Some (fields, m.(r_data)).
Proof.
  revert members seen. induction tar as [|m tar IH]; intros members seen H; simpl in H.
  { injection H as <- <-. rewrite app_nil_r. split; [apply members_kept_refl |]. split; [done |]. by intros m ?%not_elem_of_nil. }
  bind_inv H as [m1 s1] H1. apply add_radio_kept in H1 as (K1 & -> & F1). apply IH in H as (K & -> & F). split; [by eapply members_kept_step |].
  split; [by rewrite <- app_assoc |]. intros x [->|Hx]%elem_of_cons Hd Hn; [| by apply F].
  destruct (F1 Hd Hn) as [Hs [fields Hf]]. split; [done |]. exists fields. apply K; [by apply not_elem_of_nil | done].
Qed.
(** Nothing in the assembled members replaces a radio file but the probe, and
    the iw of the repository. *)
Lemma assemble_radio release package probe_files original members changed :
  assemble radio_tar read_bytes iw_sha256 native_wifi package_mode package_size package_raw package_members release package probe_files original = Ok (members, changed) →
  ∃ tar, radio_tar package = Ok tar ∧ (∀ name, name ∈ probe_files.*1 → ∃ m, m ∈ tar ∧ remove_dot m.(r_name) = name) ∧
  ∀ m, m ∈ tar → m.(r_isdir) = false → remove_dot m.(r_name) ≠ "probe-files.sha256" →
    PREFIX ++ remove_dot m.(r_name) ∉ [PREFIX ++ PROBE; IW; IW_COPYING] →
    ∃ fields data, dget (PREFIX ++ remove_dot m.(r_name)) members = Some (fields, data) ∧ dget (remove_dot m.(r_name)) probe_files = Some (sha256 data).
Proof.
  unfold assemble. intros H. bind_inv H as files Hfiles. bind_inv H as m1 H1. bind_inv H as [m2 c2] H2. bind_inv H as tar Htar.
  bind_inv H as [m3 seen] H3. guard_inv H as Hseen%negb_false_iff. bind_inv H as probe Hp. bind_inv H as m4 H4. bind_inv H as timing Ht.
  bind_inv H as m5 H5. bind_inv H as [m6 n6] H6. bind_inv H as m7 H7. bind_inv H as m8 H8. injection H as <- _.
  exists tar. apply add_radios in H3 as (_ & -> & F). split; [done |]. split.
  - intros name Hn. rewrite forallb_forall in Hseen. specialize (Hseen name). rewrite is_in_elem in Hseen.
    destruct (list_elem_of_fmap (λ m, remove_dot (r_name m)) tar name) as [Hto _]. destruct Hto as (m & -> & Hm); [by apply Hseen, list_elem_of_In | by exists m].
  - intros m Hm Hd Hn Hno. destruct (F m Hm Hd Hn) as [Hs [fields Hf]]. exists fields, (r_data m). split; [| done].
    apply replace_kept in H4. apply install_iw_kept in H6. apply add_kept in H7 as [H7 _]. apply add_kept in H8 as [H8 _].
    assert (members_kept [] m4 m5) as H45.
    { eapply fold_members_kept; [| exact H5]. intros m0 f m' _ Hadd. unfold add_wifi in Hadd. guard_inv Hadd as _. by apply add_kept in Hadd as [? _]. }
    apply not_elem_of_cons in Hno as [Hno1 Hno2]. apply H8; [by apply not_elem_of_nil |]. apply H7; [by apply not_elem_of_nil |].
    apply H6; [done |]. apply H45; [by apply not_elem_of_nil |]. apply H4; [intros Heq%list_elem_of_singleton; by apply Hno1 | done].
Qed.
(** Only the boot files and the package-trust files change. *)
Definition REFRESHED : list pystr :=
  ["init" : pystr; "usr/local/sbin/rog5-p2-attest" : pystr; "sbin/rog5-load-persistent-power-usb" : pystr;
   "usr/local/sbin/rog5-persistent-tailscale" : pystr] ++ map (λ file, file.1.1) trust_files.
Lemma install_trust_changed files members changed members' changed' : fold_res (install_trust read_bytes) (members, changed) files = Ok (members', changed') →
  ∀ k, k ∈ changed' → k ∈ changed ∨ k ∈ map (λ file, file.1.1) files.
Proof.
  revert members changed. induction files as [|[[name source] mode] files IH]; intros members changed H k Hk; simpl in H; [injection H as <- <-; by left |].
  bind_inv H as [m1 c1] H1. apply (IH _ _ H) in Hk as [Hk|Hk]; [| by right; right].
  bind_inv H1 as data Hd. destruct (dget name members).
  - guard_inv H1 as _. bind_inv H1 as m Hm. injection H1 as _ <-. apply elem_of_app in Hk as [Hk|Hk%list_elem_of_singleton]; [by left | right; subst k; by left].
  - bind_inv H1 as m Hm. injection H1 as _ <-. by left.
Qed.
Lemma assemble_changed release package probe_files original members changed :
  assemble radio_tar read_bytes iw_sha256 native_wifi package_mode package_size package_raw package_members release package probe_files original = Ok (members, changed) →
  ∀ k, k ∈ changed → k ∈ REFRESHED.
Proof.
  unfold assemble. intros H k Hk. bind_inv H as files Hfiles. bind_inv H as m1 H1. bind_inv H as [m2 c2] H2. bind_inv H as tar Htar.
  bind_inv H as [m3 seen] H3. guard_inv H as _. bind_inv H as probe Hp. bind_inv H as m4 H4. bind_inv H as timing Ht.
  bind_inv H as m5 H5. bind_inv H as [m6 n6] H6. bind_inv H as m7 H7. bind_inv H as m8 H8. injection H as _ <-.
  unfold REFRESHED. rewrite elem_of_app. destruct (install_trust_changed _ _ _ _ _ H2 k Hk) as [Hc|Hc]; [left | by right].
  unfold boot_files in Hfiles. bind_inv Hfiles as b1 Hb1. bind_inv Hfiles as b2 Hb2. bind_inv Hfiles as b3 Hb3. bind_inv Hfiles as b4 Hb4.
  by injection Hfiles as <-.
Qed.
End what_is_kept.

(** ** What is read back *)
Lemma archive_eq_dget a b : NoDup a.*1 → archive_eq a b = true → ∀ k, dget k a = dget k b.
Proof.
  intros Hnd [Hl Hall]%andb_true_iff k. apply Z.eqb_eq in Hl. rewrite forallb_forall in Hall.
  assert (∀ kv, kv ∈ a → dget kv.1 b = Some kv.2) as Hval.
  { intros kv Hin. apply list_elem_of_In, Hall, bool_decide_eq_true in Hin. done. }
  assert (a.*1 ≡ₚ b.*1) as Hp.
  { apply submseteq_length_Permutation; [| rewrite !length_fmap; unfold len in Hl; lia]. apply NoDup_submseteq; [done |].
    intros x (kv & -> & Hin)%list_elem_of_fmap. apply dget_mem. by exists kv.2; apply Hval. }
  destruct (dget k a) as [v|] eqn:Ha; [apply dget_elem in Ha; symmetry; exact (Hval _ Ha) |].
  symmetry. apply eq_None_not_Some. rewrite <- dget_mem, <- Hp, dget_mem, Ha. by intros [? [=]].
Qed.
Lemma check_line_in ok members k m : dget k members = Some m → ok (k, m) = true → ∃ a b, check_lines ok members = a ++ check_line (k, m) ++ b.
Proof.
  intros Hd Hc. apply dget_elem in Hd. unfold check_lines.
  assert ((k, m) ∈ filter (λ item, ok item = true) (sorted_items members)) as Hin.
  { apply list_elem_of_filter. split; [done |]. unfold sorted_items. by rewrite merge_sort_Permutation. }
  apply list_elem_of_split in Hin as (l1 & l2 & ->). exists (concat (map check_line l1)), (concat (map check_line l2)).
  by rewrite map_app, concat_app.
Qed.
Lemma unchanged_but_Ok why changed original members : unchanged_but why changed original members = Ok () →
  ∀ k m, k ∉ changed → (k, m) ∈ original → dget k members = Some m.
Proof.
  intros H k m Hk Hin. unfold unchanged_but in H. rewrite for_each_Ok, Forall_forall in H. specialize (H (k, m) Hin). simpl in H.
  destruct (is_in k changed) eqn:E; [by apply is_in_elem in E |]. bind_inv H as v Hv. apply of_option_Ok in Hv.
  apply refuse_if_Ok, negb_false_iff, bool_decide_eq_true in H. by subst v.
Qed.
Lemma repack_Ok gunzip gzip why members packed : repack gunzip gzip why members = Ok packed →
  ∃ read again, gunzip packed = Ok read ∧ entries read = Ok again ∧ NoDup again.*1 ∧ ∀ k, dget k again = dget k members.
Proof.
  unfold repack. intros H. bind_inv H as read Hread. bind_inv H as again Hagain. guard_inv H as Heq%negb_false_iff. injection H as <-.
  pose proof (entries_spec read) as Hspec. rewrite Hagain in Hspec. destruct Hspec as [Hnd _]. exists read, again.
  split_and!; try done. by apply archive_eq_dget.
Qed.
(** The verifiers look members up by name. *)
Lemma for_each_ext {A} (f g : A → res unit) l : (∀ x, f x = g x) → for_each f l = for_each g l.
Proof. intros Hfg. induction l as [|x l IH]; simpl; [done |]. by rewrite Hfg, IH. Qed.
Lemma res_bind_ext {A B} (f g : A → res B) (m : res A) : (∀ x, f x = g x) → m ≫= f = m ≫= g.
Proof. intros Hfg. destruct m; [apply Hfg | done]. Qed.
Section read_by_name.
Context (read_bytes : pystr → res bytes) (iw_sha256 : pystr).
Context (package_mode package_size : Z) (package_raw : bytes) (package_members : bytes → res (list tar_member)).
Context (a b : archive) (Hd : ∀ k, dget k a = dget k b).

Lemma dmem_ext k : dmem k a = dmem k b.
Proof using Hd. apply eq_true_iff_eq. by rewrite !dmem_spec, !dget_mem, Hd. Qed.
Lemma verify_headless_ext : verify_headless_cpu_composition read_bytes a = verify_headless_cpu_composition read_bytes b.
Proof using Hd.
  unfold verify_headless_cpu_composition. simpl. rewrite !dmem_ext. unfold verify_one. by rewrite !Hd.
Qed.
Lemma verify_radio_ext :
  verify_radio_composition read_bytes iw_sha256 package_mode package_size package_raw package_members a =
  verify_radio_composition read_bytes iw_sha256 package_mode package_size package_raw package_members b.
Proof using Hd.
  unfold verify_radio_composition. rewrite verify_headless_ext. apply res_bind_ext. intros _. apply res_bind_ext. intros files.
  rewrite (for_each_ext _ (λ '(name, (mode, data)), refuse_if (match dget name b with
    | Some entry => negb (metadata_is entry (S_IFREG + mode)) || (entry.2 != data) | None => true end) ValueError "iw composition mismatch; recompose target archive")).
  2: { intros [name [mode data]]. by rewrite Hd. }
  apply res_bind_ext. intros _. apply res_bind_ext. intros timing. destruct (outer_seconds timing) as [|outer [|]]; [done | | done].
  apply res_bind_ext. intros _. unfold radio_sources. rewrite dmem_ext. apply for_each_ext. intros [name source]. by rewrite Hd.
Qed.
End read_by_name.
Lemma checks_parents : parents CHECKS = ["rog5-native-wifi" : pystr].
Proof. vm_compute. reflexivity. Qed.

Section composed.
Context (gunzip : bytes → res bytes) (gzip : bytes → bytes) (radio_tar : bytes → res (list radio_member)).
Context (alnum : pystr → bool) (read_bytes : pystr → res bytes) (iw_sha256 : pystr) (native_wifi : list wifi_file).
Context (package_mode package_size : Z) (package_raw : bytes) (package_members : bytes → res (list tar_member)).
Abbreviation composed := (compose gunzip gzip radio_tar alnum read_bytes iw_sha256 native_wifi package_mode package_size package_raw package_members).

(** C26. What [compose] returns reads back as an archive of distinct members that
    the radio check accepts and in which every member of the base that is not named as changed is as it was
    and only the boot and package-trust files are named,
    every regular member below the Wi-Fi prefix has its hash in the list the
    phone checks at boot, and every file of the radio package but the probe
    and iw has the hash the record says. *)
Theorem compose_sound base package record packed s : composed base package record = Ok (packed, s) →
  ∃ plain original read members tar, gunzip base = Ok plain ∧ entries plain = Ok original ∧ sha256 base = record.(c_base_sha256) ∧
    (∀ k, k ∈ s.(s_changed) → k ∈ REFRESHED) ∧ s.(s_sha256) = sha256 packed ∧ gunzip packed = Ok read ∧ entries read = Ok members ∧ NoDup members.*1 ∧
    verify_radio_composition read_bytes iw_sha256 package_mode package_size package_raw package_members members = Ok () ∧
    (∀ k m, k ∉ s.(s_changed) → (k, m) ∈ original → dget k members = Some m) ∧
    (∃ fields checks, dget CHECKS members = Some (fields, checks) ∧
       ∀ k m, dget k members = Some m → checked (k, m) = true → k ≠ CHECKS → ∃ a b, checks = a ++ check_line (k, m) ++ b) ∧
    radio_tar package = Ok tar ∧ sha256 package = record.(c_package_sha256) ∧
    ∀ m, m ∈ tar → m.(r_isdir) = false → remove_dot m.(r_name) ≠ "probe-files.sha256" → PREFIX ++ remove_dot m.(r_name) ∉ [PREFIX ++ PROBE; IW; IW_COPYING] →
      ∃ fields data, dget (PREFIX ++ remove_dot m.(r_name)) members = Some (fields, data) ∧ dget (remove_dot m.(r_name)) record.(c_probe_files) = Some (sha256 data).
Proof.
  unfold compose. intros H. guard_inv H as Hb%negb_false_iff%bool_decide_eq_true. guard_inv H as Hp%negb_false_iff%bool_decide_eq_true.
  guard_inv H as _. bind_inv H as plain Hplain. bind_inv H as original Ho. bind_inv H as init Hi. bind_inv H as u Hq.
  bind_inv H as [mid changed] Has. bind_inv H as members Hadd. bind_inv H as u1 Hkept. destruct u1. bind_inv H as u2 Hv.
  bind_inv H as packed' Hpack. injection H as -> <-. cbn [s_changed s_sha256].
  destruct (repack_Ok _ _ _ _ _ Hpack) as (read & again & Hread & Hagain & Hnd & Hdget).
  apply add_only in Hadd as [Honly [fm Hchecks]].
  assert (∀ k v, dget k mid = Some v → dget k members = Some v) as Hmid.
  { intros k v Hk. destruct (Honly k) as [->|[Hn _]]; [done | congruence]. }
  pose proof (assemble_changed _ _ _ _ _ _ _ _ _ _ _ _ _ _ Has) as Hchanged.
  apply assemble_radio in Has as (tar & Htar & _ & Hradio).
  exists plain, original, read, again, tar. split_and!; try done.
  - intros k Hk. apply Hchanged. unfold sorted in Hk. by rewrite merge_sort_Permutation in Hk.
  - destruct u2. by rewrite (verify_radio_ext _ _ _ _ _ _ again members).
  - intros k m Hk Hin. rewrite Hdget. apply (unchanged_but_Ok _ _ _ _ Hkept); [| done]. intros Hc. apply Hk. unfold sorted. by rewrite merge_sort_Permutation.
  - eexists _, (checks_text mid). rewrite Hdget. split; [exact Hchecks |]. intros k m Hk Hc Hne. rewrite Hdget in Hk. apply check_line_in; [| done].
    destruct (Honly k) as [<-|[_ Hin]]; [done |]. exfalso. rewrite checks_parents in Hin. apply elem_of_cons in Hin as [|Hin%list_elem_of_singleton]; [done |].
    subst k. unfold checked in Hc. by vm_compute in Hc.
  - intros m Hm Hd Hn Hno. destruct (Hradio m Hm Hd Hn Hno) as (fields & data & Hf & Hs). exists fields, data. by rewrite Hdget, (Hmid _ _ Hf).
Qed.
End composed.

(** ** A composition *)
Lemma res_Ok_inv {A} (a b : A) : Ok a = Ok b → a = b.
Proof. by intros [= ->]. Qed.
(** The repository: a file's text is its own path but for these. *)
Definition token (key : pystr) : pystr := AT_EXPECTED ++ key ++ "@" ++ [LF].
Definition sample_file (path : pystr) : res bytes :=
  Ok (if path == "initramfs/persistent-root-init" then concat (map (λ kv, token kv.1) (init_state [])) else
      if path == "initramfs/persistent-root-attest" then concat (map (λ kv, token kv.1) boot_state) else
      if path == "initramfs/native-wifi/timing"
      then "outer_seconds=60" ++ [LF] ++ "radio_seconds=30" ++ [LF] ++ "cleanup_seconds=9" ++ [LF] else
      if path == "scripts/device/probe-native-wifi.sh" then "systemd-run --on-active=30s" else path).
Definition RELEASE : pystr := "7.1.4-gabc".
Definition sample_original : archive :=
  [("init" : pystr, ([1; S_IFREG + 493; 0; 0; 1; EPOCH; len (concat (qualified_lines RELEASE)); 0; 0; 0; 0; 5; 0], concat (qualified_lines RELEASE)))].
Definition with_file (members : res archive) (name : pystr) : res archive := m ← members; add m name "old" FILE_MODE.
(** The base: a qualified [init], the three other boot files, and a file that
    stays. *)
Definition sample_base : bytes :=
  match foldl with_file (Ok sample_original) (drop 1 (take 4 REFRESHED) ++ ["etc/hostname" : pystr]) with Ok m => encode m | Raise _ => [] end.
Definition sample_radio : list radio_member :=
  [RadioMember "./firmware" true false 493 []; RadioMember "./firmware/a.bin" false true 420 "radio";
   RadioMember "./probe-native-wifi.sh" false true 493 "old probe"].
Definition sample_wifi : list wifi_file :=
  map (λ name, WifiFile name false false (NATIVE_WIFI ++ name)) radio_names.
Definition sample_iw : list tar_member := [TarMember "usr/sbin/iw" true 2 "iw"].
Definition sample_record : composition_record :=
  CompositionRecord (sha256 sample_base) (sha256 ("radio.tar" : bytes)) RELEASE
    [("firmware/a.bin" : pystr, sha256 ("radio" : bytes)); (PROBE, sha256 ("old probe" : bytes))].
Abbreviation sample_compose :=
  (compose Ok id (λ _, Ok sample_radio) (forallb is_alnum) sample_file (sha256 ("iw.apk" : bytes)) sample_wifi (S_IFREG + 420) 6 "iw.apk" (λ _, Ok sample_iw)
    sample_base "radio.tar" sample_record).

Lemma sample_composed : match sample_compose with Ok r => Ok r.2.(s_changed) | Raise e => Raise e end = Ok (sorted (take 4 REFRESHED)).
Proof. vm_compute. reflexivity. Qed.
Lemma sample_hostname :
  match entries sample_base with Ok original => Ok (snd <$> dget ("etc/hostname" : pystr) original) | Raise e => Raise e end = Ok (Some ("old" : bytes)).
Proof. vm_compute. reflexivity. Qed.
Lemma sample_unchanged : ("etc/hostname" : pystr) ∉ sorted (take 4 REFRESHED).
Proof. apply (bool_decide_unpack _). vm_compute. exact I. Qed.
Lemma sample_firmware : PREFIX ++ remove_dot "./firmware/a.bin" ∉ [PREFIX ++ PROBE; IW; IW_COPYING].
Proof. apply (bool_decide_unpack _). vm_compute. exact I. Qed.
Lemma sample_hash : dget (remove_dot "./firmware/a.bin") sample_record.(c_probe_files) = Some (sha256 ("radio" : bytes)).
Proof. vm_compute. reflexivity. Qed.

Lemma compose_sound_witness :
  ∃ packed s members, sample_compose = Ok (packed, s) ∧ entries packed = Ok members ∧ s.(s_changed) = sorted (take 4 REFRESHED) ∧
    (∃ m, dget ("etc/hostname" : pystr) members = Some m ∧ m.2 = "old") ∧
    (∃ fields data, dget (PREFIX ++ remove_dot "./firmware/a.bin") members = Some (fields, data) ∧ sha256 data = sha256 ("radio" : bytes)).
Proof.
  pose proof sample_composed as Hs. destruct sample_compose as [[packed s]|e] eqn:E; [| discriminate Hs].
  cbn [snd] in Hs. pose proof (f_equal (λ r, match r with Ok l => l | Raise _ => [] end) Hs) as Hc. cbn beta iota in Hc.
  destruct (compose_sound _ _ _ _ _ _ _ _ _ _ _ _ _ _ _ _ E) as (plain & original & read & members & tar & Hp & Ho & _ & _ & _ & Hr & Hm & _ & _ & Hkeep & _ & Ht & _ & Hradio).
  apply res_Ok_inv in Hp, Hr, Ht. subst plain read tar.
  exists packed, s, members. split; [reflexivity |]. split; [exact Hm |]. split; [exact Hc |]. split.
  - pose proof sample_hostname as Hh. rewrite Ho in Hh. apply res_Ok_inv in Hh.
    destruct (dget ("etc/hostname" : pystr) original) as [m|] eqn:Ed; [| discriminate Hh].
    exists m. split; [| by injection Hh]. apply Hkeep; [rewrite Hc; exact sample_unchanged | by apply dget_elem].
  - destruct (Hradio (RadioMember "./firmware/a.bin" false true 420 "radio")) as (fields & data & Hd & Hh).
    + right. left.
    + reflexivity.
    + apply (bool_decide_unpack _). vm_compute. exact I.
    + exact sample_firmware.
    + exists fields, data. split; [exact Hd |]. cbn [r_name] in Hh. rewrite sample_hash in Hh. apply (inj Some) in Hh. exact (eq_sym Hh).
Defined.
