(* ===== verification/Selector.v ===== *)
(** * The boot selector

    scripts/host/build-persistent-wifi-selector.py writes the selector a phone
    boots by: a trial descriptor (read by parse_trial_descriptor of
    scripts/device/build-native-wifi-boot-initramfs.py) and two bundle
    manifests go in.  scripts/host/install-default-kernel.py reads selectors
    and descriptors back with code of its own before it installs one, and
    looks the descriptor up in the bundle's ramdisk.  Decompression is a
    parameter; files are given by their metadata and content. *)

From stdpp Require Import sorting.
From S2P Require Import Prelude PyStr PyData Regex Sha256 Newc.

Definition SHA : rx := rep 64 0 is_hex.
Definition name_start (c : ascii) : bool := is_lower c || is_digit c.
Definition name_char (c : ascii) : bool := is_lower c || is_digit c || one_of "._-" c.
Definition NAME : rx := RSeq (RCls name_start) (rep 0 63 name_char).
Definition VALUE : rx := rep 1 199 (λ c, is_alnum c || one_of "._/:-" c).
Definition VALUE_NAME : rx := plus (λ c, is_lower c || is_digit c || one_of "_" c).
Definition DESCRIPTOR_FORMAT : pystr := "format=rog5-persistent-wifi-health-v1".

(** ** The trial descriptor, as the archive builder reads it *)
Record trial := Trial { trial_id : pystr; primary_bundle : pystr; mode : pystr }.
Definition trial_value (line name : pystr) : res pystr :=
  let prefix := name ++ "=" in
  refuse_if (negb (startswith line prefix)) ValueError ("trial descriptor field: " ++ name) ;;
  Ok (drop (length prefix) line).
Definition parse_trial_descriptor (data : bytes) : res trial :=
  text ← decode_ascii data;
  refuse_if (has_char CR text || negb (endswith text [LF])) ValueError "trial descriptor line endings" ;;
  match splitlines text with
  | [l0; l1; l2; l3] =>
      refuse_if (l0 != DESCRIPTOR_FORMAT) ValueError "trial descriptor format" ;;
      id ← trial_value l1 "trial_id";
      bundle ← trial_value l2 "primary_bundle";
      m ← trial_value l3 "mode";
      refuse_if (negb (fullmatch SHA id)) ValueError "trial descriptor trial_id" ;;
      refuse_if (negb (fullmatch NAME bundle)) ValueError "trial descriptor primary_bundle" ;;
      refuse_if (contains ".." bundle) ValueError "trial descriptor primary_bundle traversal" ;;
      refuse_if (m != "try-once") ValueError "trial descriptor mode" ;;
      Ok (Trial id bundle m)
  | _ => Raise (Exn ValueError "trial descriptor format")
  end.

(** ** Writing a selector *)
Definition FALLBACK_BUNDLE : pystr := "persistent-native-root-v11".
Definition FALLBACK_MANIFEST_SHA256 : pystr := "a684bad14f84251ba342a87bde07da1f7b9aea412275ad124f7000716e94bbe2".
Definition MANIFEST_FORMAT : pystr := "format=rog5-recovery-bundle-v2".
Definition MANIFEST_FIELDS : list pystr :=
  ["format" : pystr; "bundle" : pystr; "profile" : pystr; "kernel_size" : pystr; "kernel_sha256" : pystr;
   "dtb_size" : pystr; "dtb_sha256" : pystr; "initramfs_size" : pystr; "initramfs_sha256" : pystr;
   "target_id" : pystr; "target_release" : pystr; "rollback_timeout" : pystr; "target_timeout" : pystr;
   "a660_command_manifest_sha256" : pystr; "root_generation" : pystr; "root_tree_sha256" : pystr;
   "root_seal_sha256" : pystr; "root_tree_entries" : pystr; "root_subtree" : pystr].
Definition SIZE : rx := RSeq (RCls (between "1" "9")) (RStar (RCls is_digit)).

(** [size] is what [fstat] says, [content] what the descriptor gives. *)
Definition read_regular (file_mode nlink size : Z) (content : bytes) : res bytes :=
  need (S_ISREG file_mode && (nlink =? 1)) "input must be a regular file with exactly one link" ;;
  need ((1 <=? size) && (size <=? 4096)) "input size outside bound" ;;
  let data := take 4097 content in
  need ((1 <=? len data) && (len data <=? 4096)) "input size outside bound" ;;
  Ok data.

Definition manifest_row (fields : dict pystr) (row : pystr) : res (dict pystr) :=
  need (count "=" row =? 1) "manifest field framing" ;;
  let '(name, _, value) := partition "=" row in
  need (negb (dmem name fields) && (name != []) && (value != [])) "duplicate or empty manifest field" ;;
  Ok (dset name value fields).
Definition manifest_field (item : pystr * pystr) : res unit :=
  let '(key, value) := item in
  (if endswith key "_sha256" then need (fullmatch SHA value) ("invalid manifest hash: " ++ key) else Ok ()) ;;
  if is_in key ["kernel_size" : pystr; "dtb_size" : pystr; "initramfs_size" : pystr]
  then need (fullmatch SIZE value) ("invalid artifact size: " ++ key) else Ok ().
Definition get_field (fields : dict pystr) (key : pystr) : res pystr := of_option (dget key fields) KeyError key.
Definition manifest (data : bytes) : res (dict pystr) :=
  text ← decode_ascii data;
  need ((1 <=? len data) && (len data <=? 4096) && negb (has_char CR text) && endswith text [LF]) "manifest size or line framing" ;;
  let rows := splitlines text in
  row0 ← of_option (head rows) IndexError "list index out of range";
  need (row0 == MANIFEST_FORMAT) "manifest format" ;;
  fields ← fold_res manifest_row [] rows;
  need (bool_decide ((list_to_set fields.*1 : gset pystr) = list_to_set MANIFEST_FIELDS)) "manifest field inventory" ;;
  profile ← get_field fields "profile";
  need (profile == ("persistent-root-ro-v1" : pystr)) "manifest profile" ;;
  bundle ← get_field fields "bundle"; target_id ← get_field fields "target_id";
  need (bundle == target_id) "manifest target identity" ;;
  rollback ← get_field fields "rollback_timeout"; timeout ← get_field fields "target_timeout";
  need ((rollback == ("900" : pystr)) && (timeout == ("600" : pystr))) "manifest timing" ;;
  for_each manifest_field fields ;;
  Ok fields.

Definition selector_items (id primary primary_hash fallback fallback_hash : pystr) : dict pystr :=
  [("format" : pystr, "rog5-slotb-selector-v2" : pystr); ("trial_id" : pystr, id); ("primary_bundle" : pystr, primary);
   ("primary_manifest_sha256" : pystr, primary_hash); ("fallback_bundle" : pystr, fallback);
   ("fallback_manifest_sha256" : pystr, fallback_hash); ("mode" : pystr, "try-once" : pystr)].
Definition item_line (item : pystr * pystr) : pystr := item.1 ++ "=" ++ item.2.
Definition generate (descriptor_data primary_manifest fallback_manifest : bytes)
    (expected_fallback_bundle expected_fallback_manifest_sha256 : option pystr) : res (bytes * dict pystr) :=
  let expected_fallback_bundle := default FALLBACK_BUNDLE expected_fallback_bundle in
  let expected_hash := default FALLBACK_MANIFEST_SHA256 expected_fallback_manifest_sha256 in
  t ← parse_trial_descriptor descriptor_data;
  primary ← manifest primary_manifest;
  fallback ← manifest fallback_manifest;
  primary_name ← get_field primary "bundle";
  need (primary_name == t.(primary_bundle)) "primary/trial mismatch" ;;
  fallback_name ← get_field fallback "bundle";
  need (fallback_name == expected_fallback_bundle) "fallback bundle mismatch" ;;
  let fallback_hash := sha256 fallback_manifest in
  need (fallback_hash == expected_hash) "fallback hash mismatch" ;;
  let primary_hash := sha256 primary_manifest in
  let selector := unlines (map item_line (selector_items t.(trial_id) primary_name primary_hash fallback_name fallback_hash)) in
  Ok (selector,
      [("format" : pystr, "rog5-persistent-wifi-selector-generation-v1" : pystr); ("trial_id" : pystr, t.(trial_id));
       ("primary_bundle" : pystr, primary_name); ("primary_manifest_sha256" : pystr, primary_hash);
       ("fallback_bundle" : pystr, fallback_name); ("fallback_manifest_sha256" : pystr, fallback_hash);
       ("selector_sha256" : pystr, sha256 selector);
       ("authority" : pystr, "none; selector generation does not stage or select it" : pystr)]).

(** ** The installer's readers *)
Definition descriptor_fields (data : bytes) : res (pystr * pystr) :=
  text ← decode_ascii data;
  match split_on LF text with
  | [r0; r1; r2; r3; r4] =>
      need ((r4 == []) && (r0 == DESCRIPTOR_FORMAT) && (r3 == "mode=try-once")) "trial descriptor format" ;;
      need (startswith r1 "trial_id=" && fullmatch SHA (drop 9 r1)) "trial id" ;;
      need (startswith r2 "primary_bundle=" && fullmatch NAME (drop 15 r2) && negb (contains ".." r2)) "primary bundle name" ;;
      Ok (drop 9 r1, drop 15 r2)
  | _ => Raise (Exn ValueError "trial descriptor format")
  end.

Definition row_item (line : pystr) : option (pystr * pystr) :=
  match partition "=" line with (name, true, value) => Some (name, value) | _ => None end.
Definition selector_rows (text : pystr) : dict pystr :=
  foldl (λ d kv, dset kv.1 kv.2 d) [] (omap row_item (splitlines text)).
Definition selector_fallback (selector : bytes) : res (pystr * pystr) :=
  text ← decode_ascii selector;
  let rows := selector_rows text in
  need (bool_decide (dget "format" rows = Some ("rog5-slotb-selector-v2" : pystr))) "current selector format" ;;
  let name := default [] (dget "fallback_bundle" rows) in
  let digest := default [] (dget "fallback_manifest_sha256" rows) in
  need (fullmatch NAME name && negb (contains ".." name) && fullmatch SHA digest) "current selector fallback" ;;
  Ok (name, digest).

Definition archive_name (bundle old_sha256 : pystr) : pystr :=
  "wifi-trial-state.archived-before-" ++ bundle ++ "-" ++ old_sha256.

(** [values] are the target script's values as strings, [body] its text. *)
Definition value_line (item : pystr * pystr) : res pystr :=
  let '(name, value) := item in
  need (fullmatch VALUE_NAME name && fullmatch VALUE value) ("unsafe value " ++ name) ;;
  Ok (name ++ "='" ++ value ++ "'").
Definition render (values : dict pystr) (body : pystr) : res bytes :=
  lines ← fold_res (λ lines item, line ← value_line item; Ok (lines ++ [line])) [] (merge_sort pair_le values);
  match partition LF body with
  | (shebang, true, rest) => Ok (shebang ++ [LF] ++ join [LF] lines ++ [LF] ++ rest)
  | _ => Raise (Exn ValueError "not enough values to unpack (expected 2, got 1)")
  end.

(** ** A member of the ramdisk *)
Definition newc_round (data : bytes) (wanted : pystr) (offset : Z) : M unit (Z + option bytes) := lift (
  if len data <? offset + 110 then Ok (inr None)
  else
    let magic := py_slice data offset (offset + 6) in
    need ((magic == MAGIC) || (magic == "070702")) "initramfs is not newc cpio" ;;
    fields ← of_option (mapM (λ i, int_16 (py_slice data (offset + 6 + 8 * Z.of_nat i) (offset + 14 + 8 * Z.of_nat i))) (List.seq 0 13))
               ValueError "invalid literal for int() with base 16";
    let file_mode := field fields 1 in let size := field fields 6 in let name_size := field fields 11 in
    let name_end := offset + 110 + name_size in
    let name := decode_replace (py_slice data (offset + 110) (name_end - 1)) in
    let start := align4 name_end in
    if name == TRAILER then Ok (inr None)
    else if lstrip_if (one_of "./") name == wanted then
      need (S_ISREG file_mode) (wanted ++ " is not a regular file") ;;
      Ok (inr (Some (py_slice data start (start + size))))
    else Ok (inl (align4 (start + size)))).
(** At most [p] rounds of the loop; [data] is the decompressed archive. *)
Definition newc_member_within (p : positive) (data : bytes) (wanted : pystr) : res (option bytes) :=
  (while p (newc_round data wanted) 0 ()).1.
Definition newc_member (p : positive) (gunzip : bytes → res bytes) (archive : bytes) (wanted : pystr) : res (option bytes) :=
  data ← gunzip archive; newc_member_within p data wanted.

(** ** Samples *)
Definition hex64 (c : ascii) : pystr := replicate 64 c.
Definition sample_manifest (name : pystr) : bytes := unlines
  ([MANIFEST_FORMAT; "bundle=" ++ name; "profile=persistent-root-ro-v1" : pystr; "kernel_size=1" : pystr;
    "kernel_sha256=" ++ hex64 "a"; "dtb_size=1" : pystr; "dtb_sha256=" ++ hex64 "b"; "initramfs_size=20" : pystr;
    "initramfs_sha256=" ++ hex64 "c"; "target_id=" ++ name; "target_release=7.1" : pystr; "rollback_timeout=900" : pystr;
    "target_timeout=600" : pystr; "a660_command_manifest_sha256=" ++ hex64 "0"; "root_generation=none" : pystr;
    "root_tree_sha256=" ++ hex64 "0"; "root_seal_sha256=" ++ hex64 "0"; "root_tree_entries=0" : pystr;
    "root_subtree=none" : pystr]).
Definition sample_descriptor : bytes :=
  unlines [DESCRIPTOR_FORMAT; "trial_id=" ++ hex64 "d"; "primary_bundle=main-k1" : pystr; "mode=try-once" : pystr].
Definition sample_selector : res (bytes * dict pystr) :=
  generate sample_descriptor (sample_manifest "main-k1") (sample_manifest "safe-k1") (Some ("safe-k1" : pystr))
    (Some (sha256 (sample_manifest "safe-k1"))).

(** ** Lines and characters *)
Lemma splitlines_from_chars (P : ascii → Prop) cur s : Forall P cur → Forall P s → Forall (Forall P) (splitlines_from cur s).
Proof.
  remember (length s) as n eqn:Hn. assert (length s ≤ n)%nat as Hle by lia. clear Hn. revert cur s Hle.
  induction n as [|n IH]; intros cur [|c s] Hle Hc Hs; cbn [splitlines_from length] in *; try lia.
  1,2: case_bool_decide; repeat constructor; done.
  apply Forall_cons in Hs as [Hcs Hs]. destruct (is_linebreak c).
  - constructor; [done |]. case_bool_decide; [| by apply IH; [lia | constructor |]].
    destruct s as [|d s']; [constructor |]. apply Forall_cons in Hs as Hs'. simpl in Hle.
    case_bool_decide; apply IH; simpl; try lia; try constructor; tauto.
  - apply IH; [lia | | done]. apply Forall_app. split; [done | by repeat constructor].
Qed.
Lemma splitlines_chars (P : ascii → Prop) s : Forall P s → Forall (Forall P) (splitlines s).
Proof. apply splitlines_from_chars. constructor. Qed.
Lemma isascii_Forall s : isascii s = true ↔ Forall (λ c, (ord c <? 128) = true) s.
Proof. apply forallb_Forall. Qed.
Lemma partition_chars (P : ascii → Prop) c s : Forall P s → Forall P (partition c s).1.1 ∧ Forall P (partition c s).2.
Proof.
  intros Hs. destruct (partition c s) as [[a []] b] eqn:E; cbn [fst snd].
  - apply partition_found in E as [-> _]. apply Forall_app in Hs as [? Hs]. by apply Forall_cons in Hs as [? ?].
  - destruct (decide (c ∈ s)) as [Hin|Hni].
    + apply list_elem_of_split_l in Hin as (x & y & -> & Hx). rewrite partition_first in E by done. done.
    + rewrite partition_absent in E by done. injection E as <- <-. split; [done | by apply Forall_nil].
Qed.

(** A value that one line of ASCII text can hold. *)
Definition text_value (v : pystr) : Prop := one_line v ∧ isascii v = true.
Lemma manifest_values data fields k v : manifest data = Ok fields → dget k fields = Some v → text_value v.
Proof.
  unfold manifest, decode_ascii. intros H Hk. bind_inv H as text Ht. guard_inv Ht as Ha. injection Ht as <-. guard_inv H as _.
  cbv zeta in H. bind_inv H as row0 _. guard_inv H as _. bind_inv H as fs Hf.
  assert (fields = fs) as -> by (inv_res; done). apply dget_elem in Hk. clear H.
  assert (Forall (λ r, text_value r) (splitlines data)) as Hr.
  { apply Forall_forall. intros r Hr. apply negb_false_iff, isascii_Forall, splitlines_chars in Ha.
    pose proof (splitlines_one_line data) as Ho. rewrite Forall_forall in Ha, Ho. split; [by apply Ho |]. apply isascii_Forall. by apply Ha. }
  assert (Forall (λ kv, text_value kv.2) fs) as Hfs; [| rewrite Forall_forall in Hfs; by apply (Hfs (k, v))].
  apply (fold_res_ind (λ _ fs, Forall (λ kv, text_value kv.2) fs) manifest_row (splitlines data) [] fs);
    [by apply Forall_nil | | done]. intros _ row acc acc' Hacc Hin Hrow. unfold manifest_row in Hrow. guard_inv Hrow as _.
  destruct (partition "=" row) as [[name b] value] eqn:E. guard_inv Hrow as Hg. injection Hrow as <-. b2p.
  rewrite dset_new by (apply eq_None_not_Some; rewrite <-dget_mem; by apply dmem_false).
  apply Forall_app. split; [done |]. apply Forall_singleton. rewrite Forall_forall in Hr. destruct (Hr row Hin) as [Ho Has].
  unfold text_value, one_line. apply isascii_Forall in Has. rewrite isascii_Forall.
  pose proof (proj2 (partition_chars _ "=" row Ho)). pose proof (proj2 (partition_chars _ "=" row Has)). by rewrite E in *.
Qed.

(** ** Reading a selector back *)
Lemma dset_fold {V} (items acc : dict V) : NoDup (acc ++ items).*1 → foldl (λ d kv, dset kv.1 kv.2 d) acc items = acc ++ items.
Proof.
  revert acc. induction items as [|[k v] items IH]; intros acc Hnd; [by rewrite app_nil_r |]. simpl.
  rewrite dset_new.
  - rewrite IH; [by rewrite <-app_assoc |]. by rewrite <-app_assoc.
  - apply eq_None_not_Some. rewrite <-dget_mem. rewrite fmap_app in Hnd. apply NoDup_app in Hnd as (_ & Hnd & _).
    intros Hin. apply (Hnd k Hin). by left.
Qed.
Lemma rows_of_items items : NoDup items.*1 → Forall (λ kv, ("="%char ∉ kv.1) ∧ one_line (item_line kv)) items →
  selector_rows (unlines (map item_line items)) = items.
Proof.
  intros Hnd Hi. unfold selector_rows. rewrite splitlines_unlines.
  - assert (omap row_item (map item_line items) = items) as ->; [| by rewrite dset_fold].
    clear Hnd. induction Hi as [|[k v] items [Hk _] _ IH]; [done |]. cbn [map].
    assert (row_item (item_line (k, v)) = Some (k, v)) as E.
    { unfold row_item, item_line. cbn [fst snd]. change (k ++ "=" ++ v) with (k ++ "="%char :: v). by rewrite partition_first. }
    change (omap row_item (item_line (k, v) :: map item_line items)) with
      (match row_item (item_line (k, v)) with Some y => y :: omap row_item (map item_line items) | None => omap row_item (map item_line items) end).
    by rewrite E, IH.
  - apply Forall_forall. intros l (kv & <- & Hin)%list_elem_of_In%in_map_iff. rewrite Forall_forall in Hi.
    apply list_elem_of_In in Hin. by apply Hi.
Qed.

Lemma Ok_inj {A} (a b : A) : Ok a = Ok b → a = b.
Proof. by intros [=]. Qed.
Lemma name_rx_spec s : fullmatch NAME s = true ↔ ∃ c t, s = c :: t ∧ name_start c = true ∧ (length t ≤ 63)%nat ∧ Forall (λ c, name_char c = true) t.
Proof.
  unfold NAME. rewrite fullmatch_cls_seq. setoid_rewrite fullmatch_rep. split.
  - intros (c & t & -> & ? & [_ ?] & ?). eauto 10.
  - intros (c & t & -> & ? & ? & ?). exists c, t. split_and!; auto; lia.
Qed.
Lemma name_char_text c : name_char c = true → is_linebreak c = false ∧ (ord c <? 128) = true.
Proof. revert c. by_ascii. Qed.
Lemma hex_text c : is_hex c = true → is_linebreak c = false ∧ (ord c <? 128) = true.
Proof. revert c. by_ascii. Qed.
Lemma text_value_of (p : ascii → bool) s : (∀ c, p c = true → is_linebreak c = false ∧ (ord c <? 128) = true) →
  Forall (λ c, p c = true) s → text_value s.
Proof.
  intros Hp Hs. split; [| apply isascii_Forall]; (eapply Forall_impl; [exact Hs |]); intros c Hc; by apply Hp.
Qed.
Lemma name_text s : fullmatch NAME s = true → text_value s.
Proof.
  rewrite name_rx_spec. intros (c & t & -> & Hc & _ & Ht). apply (text_value_of name_char); [apply name_char_text |].
  apply Forall_cons. split; [unfold name_char; unfold name_start in Hc; by rewrite Hc | done].
Qed.
Lemma sha_text s : fullmatch SHA s = true → text_value s.
Proof. unfold SHA. rewrite fullmatch_rep. intros [_ ?]. apply (text_value_of is_hex); [apply hex_text | done]. Qed.
Lemma sha256_sha m : fullmatch SHA (sha256 m) = true.
Proof. unfold SHA. rewrite fullmatch_rep, sha256_length. split; [lia | apply sha256_is_hex]. Qed.
Lemma text_value_app a b : text_value a → text_value b → text_value (a ++ b).
Proof. unfold text_value, one_line. rewrite !isascii_Forall. intros [] []. by split; apply Forall_app. Qed.

Lemma parse_trial_Ok data t : parse_trial_descriptor data = Ok t →
  fullmatch SHA t.(trial_id) = true ∧ fullmatch NAME t.(primary_bundle) = true ∧ contains ".." t.(primary_bundle) = false ∧
  t.(mode) = "try-once".
Proof.
  unfold parse_trial_descriptor. intros H. bind_inv H as text _. guard_inv H as _.
  destruct (splitlines text) as [|l0 [|l1 [|l2 [|l3 [|]]]]]; try done. guard_inv H as _.
  bind_inv H as id _. bind_inv H as b _. bind_inv H as m _. guard_inv H as Hi. guard_inv H as Hb. guard_inv H as Hd.
  guard_inv H as Hm. injection H as <-. by b2p.
Qed.
Lemma unlines_ascii l : Forall (λ w, isascii w = true) l → isascii (unlines l) = true.
Proof.
  setoid_rewrite isascii_Forall. unfold unlines. induction 1 as [|w l Hw _ IH]; [by apply Forall_nil |]. cbn [map concat].
  apply Forall_app. split; [| done]. apply Forall_app. split; [done | by repeat constructor].
Qed.
Lemma selector_items_text id p ph f fh : text_value id → text_value p → text_value ph → text_value f → text_value fh →
  Forall (λ kv, ("="%char ∉ kv.1) ∧ text_value (item_line kv)) (selector_items id p ph f fh).
Proof.
  intros. assert (∀ k v, has_char "=" k = false → text_value k → text_value v → ("="%char ∉ k) ∧ text_value (item_line (k, v))) as Hk.
  { intros k v Hk Hkt Hv. split; [by apply has_char_false |]. unfold item_line. apply text_value_app; [done |].
    apply text_value_app; [by repeat constructor | done]. }
  repeat (apply Forall_cons; split; [apply Hk; [done | split; [by repeat constructor | done] |] |]); [| | | | | | | by apply Forall_nil].
  all: try done. all: split; [by repeat constructor | done].
Qed.

(** C32. A generated selector holds the trial of the descriptor, the two
    bundles and the hashes of their manifests, under distinct names, and the
    installer reads the fallback back from it; it refuses exactly a fallback
    name that no bundle may have. *)
Theorem generate_read_back descriptor primary fallback bundle hash selector record :
  generate descriptor primary fallback bundle hash = Ok (selector, record) →
  let name := default FALLBACK_BUNDLE bundle in
  ∃ t, parse_trial_descriptor descriptor = Ok t ∧ sha256 fallback = default FALLBACK_MANIFEST_SHA256 hash ∧
    selector_rows selector = selector_items t.(trial_id) t.(primary_bundle) (sha256 primary) name (sha256 fallback) ∧
    selector_fallback selector =
      if fullmatch NAME name && negb (contains ".." name) then Ok (name, sha256 fallback)
      else Raise (Exn ValueError "current selector fallback").
Proof.
  intros H name. unfold generate in H. cbv zeta in H. bind_inv H as t Ht. bind_inv H as pf Hp. bind_inv H as ff Hf.
  bind_inv H as pn Hpn. guard_inv H as Hpt. bind_inv H as fn Hfn. guard_inv H as Hfb. guard_inv H as Hh.
  apply Ok_inj, pair_equal_spec in H as [<- _]. unfold get_field in *. apply of_option_Ok in Hpn, Hfn. b2p. subst pn fn. exists t. split; [done |]. split; [done |].
  destruct (parse_trial_Ok _ _ Ht) as (Hid & Hb & _ & _).
  fold name in Hfn. pose proof (selector_items_text t.(trial_id) t.(primary_bundle) (sha256 primary) name (sha256 fallback)
    (sha_text _ Hid) (name_text _ Hb) (sha_text _ (sha256_sha _)) (manifest_values _ _ _ _ Hf Hfn) (sha_text _ (sha256_sha _))) as Hi.
  set (items := selector_items _ _ _ _ _) in *.
  rewrite rows_of_items; [| apply (bool_decide_unpack _); vm_compute; exact I |].
  2: { eapply Forall_impl; [exact Hi |]. by intros kv [? []]. }
  split; [done |]. unfold selector_fallback, decode_ascii. rewrite refuse_if_pass, Ok_bind.
  2: { apply negb_false_iff, unlines_ascii, Forall_map. eapply Forall_impl; [exact Hi |]. by intros kv [? []]. }
  rewrite rows_of_items; [| apply (bool_decide_unpack _); vm_compute; exact I |].
  2: { eapply Forall_impl; [exact Hi |]. by intros kv [? []]. }
  cbv zeta. change (dget "format" items) with (Some ("rog5-slotb-selector-v2" : pystr)).
  change (dget "fallback_bundle" items) with (Some name). change (dget "fallback_manifest_sha256" items) with (Some (sha256 fallback)).
  rewrite need_pass by (by rewrite bool_decide_true). change (default [] (Some name)) with name. change (default [] (Some (sha256 fallback))) with (sha256 fallback).
  rewrite sha256_sha, andb_true_r.
  by destruct (fullmatch NAME name && negb (contains ".." name)).
Qed.

(** ** Two readers of one descriptor *)
Definition descriptor_text (id bundle : pystr) : bytes :=
  unlines [DESCRIPTOR_FORMAT; "trial_id=" ++ id; "primary_bundle=" ++ bundle; "mode=try-once" : pystr].
Definition descriptor_ok (id bundle : pystr) : Prop :=
  fullmatch SHA id = true ∧ fullmatch NAME bundle = true ∧ contains ".." bundle = false.

Lemma descriptor_lines id bundle : descriptor_ok id bundle →
  Forall text_value [DESCRIPTOR_FORMAT; "trial_id=" ++ id; "primary_bundle=" ++ bundle; "mode=try-once" : pystr].
Proof.
  intros (Hi%sha_text & Hb%name_text & _).
  repeat (apply Forall_cons; split; [| try by apply Forall_nil]); try (apply text_value_app; [| done]);
    (split; [by repeat constructor | done]).
Qed.
Lemma contains_dots_bundle b : contains ".." ("primary_bundle=" ++ b) = contains ".." b.
Proof. cbn. done. Qed.
Lemma split_unlines l : Forall one_line l → split_on LF (unlines l) = l ++ [[]].
Proof.
  unfold unlines. induction 1 as [|w l Hw _ IH]; [done |]. cbn [map concat]. rewrite <-app_assoc. simpl app at 2.
  rewrite split_on_app, IH; [done |]. intros Hin. unfold one_line in Hw. rewrite Forall_forall in Hw. by apply Hw in Hin.
Qed.

Lemma prefix_starts (p s : pystr) : startswith (p ++ s) p = true.
Proof. apply startswith_spec. eauto. Qed.
Lemma unlines_breaks l : Forall one_line l → Forall (λ c, is_linebreak c = true → c = LF) (unlines l).
Proof.
  unfold unlines. induction 1 as [|w l Hw _ IH]; [by apply Forall_nil |]. cbn [map concat]. apply Forall_app. split; [| done].
  apply Forall_app. split; [| by repeat constructor]. eapply Forall_impl; [exact Hw |]. intros c ->. done.
Qed.
Lemma descriptor_fields_text data id bundle :
  descriptor_fields data = Ok (id, bundle) ↔ data = descriptor_text id bundle ∧ descriptor_ok id bundle.
Proof.
  unfold descriptor_fields, decode_ascii. split.
  - intros H. bind_inv H as text Ht. guard_inv Ht as _. injection Ht as <-.
    destruct (split_on LF data) as [|r0 [|r1 [|r2 [|r3 [|r4 [|]]]]]] eqn:E; try done.
    guard_inv H as Hc. guard_inv H as H1. guard_inv H as H2. injection H as <- <-.
    apply andb_true_iff in H1 as [S1 F1], H2 as [H2 D2]. apply andb_true_iff in H2 as [S2 F2]. b2p. subst r0 r3 r4.
    apply startswith_spec in S1 as (id & ->), S2 as (bundle & ->). rewrite contains_dots_bundle in *. split; [| done].
    rewrite <-(join_split LF data), E. unfold descriptor_text, unlines. cbn [map concat join]. rewrite <-!app_assoc. done.
  - intros [-> Hok]. pose proof (descriptor_lines id bundle Hok) as Hl. destruct Hok as (Hi & Hb & Hd).
    rewrite refuse_if_pass, Ok_bind.
    2: { apply negb_false_iff, unlines_ascii. eapply Forall_impl; [exact Hl |]. by intros ? []. }
    unfold descriptor_text. rewrite split_unlines; [| eapply Forall_impl; [exact Hl |]; by intros ? []]. cbn [app].
    rewrite need_pass by done. rewrite need_pass by (rewrite prefix_starts; exact Hi).
    rewrite need_pass; [done |]. rewrite prefix_starts, contains_dots_bundle, Hd, andb_true_r. exact Hb.
Qed.

Lemma trial_value_Ok line name v : trial_value line name = Ok v ↔ line = name ++ "=" ++ v.
Proof.
  unfold trial_value. split.
  - intros H. guard_inv H as Hs. injection H as <-. apply negb_false_iff, startswith_spec in Hs as (t & ->).
    rewrite drop_app_length. by rewrite <-app_assoc.
  - intros ->. rewrite app_assoc, prefix_starts. by rewrite drop_app_length.
Qed.
Lemma parse_trial_lines data id bundle : isascii data = true → endswith data [LF] = true → has_char CR data = false →
  splitlines data = [DESCRIPTOR_FORMAT; "trial_id=" ++ id; "primary_bundle=" ++ bundle; "mode=try-once" : pystr] →
  descriptor_ok id bundle → parse_trial_descriptor data = Ok (Trial id bundle "try-once").
Proof.
  intros Ha He Hc Hl (Hi & Hb & Hd). unfold parse_trial_descriptor, decode_ascii. rewrite Ha, refuse_if_pass, Ok_bind, Hc, He, refuse_if_pass, Hl, refuse_if_pass by done.
  rewrite (proj2 (trial_value_Ok _ "trial_id" id)), Ok_bind by done.
  rewrite (proj2 (trial_value_Ok _ "primary_bundle" bundle)), Ok_bind by done.
  rewrite (proj2 (trial_value_Ok _ "mode" "try-once")), Ok_bind by done. by rewrite Hi, Hb, Hd.
Qed.
Lemma parse_trial_inv data id bundle m : parse_trial_descriptor data = Ok (Trial id bundle m) →
  endswith data [LF] = true ∧ m = "try-once" ∧ descriptor_ok id bundle ∧
  splitlines data = [DESCRIPTOR_FORMAT; "trial_id=" ++ id; "primary_bundle=" ++ bundle; "mode=try-once" : pystr].
Proof.
  intros H. pose proof (parse_trial_Ok _ _ H) as (Hi & Hb & Hd & Hm). cbn [trial_id primary_bundle mode] in *. subst m.
  unfold parse_trial_descriptor, decode_ascii in H. bind_inv H as text Ht. guard_inv Ht as _. injection Ht as <-.
  guard_inv H as He. apply orb_false_iff in He as [_ He]. apply negb_false_iff in He.
  destruct (splitlines data) as [|l0 [|l1 [|l2 [|l3 [|]]]]]; try done. guard_inv H as H0.
  bind_inv H as x H1. bind_inv H as y H2. bind_inv H as z H3. guard_inv H as _. guard_inv H as _. guard_inv H as _. guard_inv H as _.
  injection H as -> -> ->. apply trial_value_Ok in H1 as ->, H2 as ->, H3 as ->. b2p. subst l0. done.
Qed.

(** The installer accepts a trial descriptor exactly when the archive
    builder does and the text has no line boundary but LF, and both then read
    the same trial. *)
Theorem descriptor_readers_agree data id bundle :
  descriptor_fields data = Ok (id, bundle) ↔
  parse_trial_descriptor data = Ok (Trial id bundle "try-once") ∧ Forall (λ c, is_linebreak c = true → c = LF) data.
Proof.
  rewrite descriptor_fields_text. split.
  - intros [-> Hok]. pose proof (descriptor_lines id bundle Hok) as Hl.
    assert (Forall one_line [DESCRIPTOR_FORMAT; "trial_id=" ++ id; "primary_bundle=" ++ bundle; "mode=try-once" : pystr]) as Ho
      by (eapply Forall_impl; [exact Hl |]; by intros ? []).
    pose proof (unlines_breaks _ Ho) as Hb. split; [| exact Hb]. apply parse_trial_lines; try done.
    + apply unlines_ascii. eapply Forall_impl; [exact Hl |]. by intros ? [].
    + apply endswith_spec. unfold descriptor_text, unlines. cbn [map concat]. rewrite app_nil_r, !app_assoc. eauto.
    + apply has_char_false. intros Hin. rewrite Forall_forall in Hb. by apply Hb in Hin.
    + by apply splitlines_unlines.
  - intros [H Hb]. apply parse_trial_inv in H as (He & _ & Hok & Hl). split; [| done].
    by rewrite <-(unlines_splitlines data), Hl by done.
Qed.

(** ** Looking a member up *)
Lemma decode_replace_valid k s : utf8_valid k s = true → decode_replace_from true k s = s.
Proof.
  revert k. induction s as [|c s IH]; intros k H; [done |]. simpl in *. destruct k as [|k].
  - destruct (utf8_char c s) as [ok k]. apply andb_true_iff in H as [-> H]. simpl. by rewrite IH.
  - simpl. by rewrite IH.
Qed.
Lemma py_slice_within data i n a b : 0 ≤ i → 0 ≤ a ≤ b → b ≤ n → i + n ≤ len data →
  py_slice data (i + a) (i + b) = slice (py_slice data i (i + n)) a (b - a).
Proof.
  intros. rewrite !py_slice_in by lia. rewrite slice_slice by lia. f_equal. lia.
Qed.

(** What the loop does with one member. *)
Definition look_at (wanted : pystr) (item : pystr * member) (otherwise : Z) : res (Z + option bytes) :=
  if item.1 == TRAILER then Ok (inr None)
  else if lstrip_if (one_of "./") item.1 == wanted then
    need (S_ISREG (field item.2.1 1)) (wanted ++ " is not a regular file") ;; Ok (inr (Some item.2.2))
  else Ok (inl otherwise).
Lemma newc_round_record pre item post wanted : len pre mod 4 = 0 → fields_fit item → name_fits item.1 →
  newc_round (pre ++ record_bytes item ++ post) wanted (len pre) () = (look_at wanted item (len (pre ++ record_bytes item)), ()).
Proof.
  destruct item as [name [fields payload]]. intros Hpre (Hl & Hf & H6 & H11 & H12) [Hu _]. cbn [fst snd] in *.
  destruct (record_layout pre name fields payload post Hl Hf) as (E1 & E2 & E3 & Hlen).
  pose proof (len_header fields Hl Hf) as Hh. pose proof (len_nonneg pre). pose proof (len_nonneg name). pose proof (len_nonneg payload).
  pose proof (align4_range (110 + (len name + 1))). set (body := align4 (110 + (len name + 1))) in *.
  pose proof (align4_range (body + len payload)). set (data := pre ++ _) in *.
  assert (len pre + len (record_bytes (name, (fields, payload))) ≤ len data) as Hd.
  { subst data. rewrite app_assoc, !len_app. pose proof (len_nonneg post). lia. }
  unfold newc_round, lift. f_equal. rewrite (proj2 (Z.ltb_ge _ _)) by lia. cbv zeta.
  assert (py_slice data (len pre) (len pre + 6) = MAGIC) as ->.
  { rewrite <-(Z.add_0_r (len pre)) at 1. rewrite (py_slice_within data (len pre) 110), E1 by lia. by apply slice_first. }
  rewrite need_pass by done.
  assert (mapM (λ i, int_16 (py_slice data (len pre + 6 + 8 * Z.of_nat i) (len pre + 14 + 8 * Z.of_nat i))) (List.seq 0 13) = Some fields) as ->.
  { apply mapM_Some, Forall2_same_length_lookup. split; [by rewrite Hl |]. intros i j v [-> Hi]%lookup_seq Hv.
    rewrite Nat.add_0_l. rewrite <-!(Z.add_assoc (len pre)), (py_slice_within data (len pre) 110), E1 by lia.
    replace (14 + 8 * Z.of_nat i - (6 + 8 * Z.of_nat i)) with 8 by lia. rewrite (Z.mul_comm 8), (field_slice _ _ _ Hf Hv).
    apply int_16_format. rewrite Forall_lookup in Hf. eauto. }
  cbn [of_option]. rewrite Ok_bind, H11, H6.
  assert (py_slice data (len pre + 110) (len pre + 110 + (len name + 1) - 1) = name) as ->.
  { rewrite <-(Z.add_0_r (len pre + 110)) at 1.
    replace (len pre + 110 + (len name + 1) - 1) with (len pre + 110 + len name) by lia.
    rewrite (py_slice_within data (len pre + 110) (len name + 1)), E2 by lia. apply slice_first; lia. }
  unfold decode_replace. rewrite decode_replace_valid by done.
  rewrite <-(Z.add_assoc (len pre) 110), align4_shift by done. fold body. rewrite E3, <-Z.add_assoc, align4_shift, <-Hlen, <-len_app by done.
  done.
Qed.

Fixpoint find_member (wanted : pystr) (items : archive) : res (option bytes) :=
  match items with
  | [] => Ok None
  | item :: items =>
      if lstrip_if (one_of "./") item.1 == wanted then
        need (S_ISREG (field item.2.1 1)) (wanted ++ " is not a regular file") ;; Ok (Some item.2.2)
      else find_member wanted items
  end.
Lemma records_position front rest post : Forall member_ok (front ++ rest) →
  len (concat (map record_bytes front)) mod 4 = 0 ∧
  concat (map record_bytes (front ++ rest)) ++ post = concat (map record_bytes front) ++ concat (map record_bytes rest) ++ post.
Proof.
  intros Hok. rewrite map_app, concat_app, <-app_assoc. split; [| done].
  assert (Forall fields_fit front) as Hf by (apply Forall_app in Hok as [Hok _]; eapply Forall_impl; [exact Hok | by intros ? []]).
  pose proof (proj2 (encode_fold [] front eq_refl Hf)) as H. by rewrite app_nil_l in H.
Qed.
Lemma newc_member_records p items zeros wanted : Forall member_ok items →
  let data := concat (map record_bytes items) ++ record_bytes trailer_item ++ replicate zeros NUL in
  len data < Zpos p → newc_member_within p data wanted = find_member wanted items.
Proof.
  intros Hok data Hp. unfold newc_member_within.
  apply (wp_while _ (λ offset _, ∃ front rest, items = front ++ rest ∧ offset = len (concat (map record_bytes front)) ∧
      find_member wanted items = find_member wanted rest) (λ offset _, len data - offset) (λ r _, r = find_member wanted items)).
  - intros offset [] (front & rest & Hi & -> & ->). rewrite Hi in Hok.
    destruct (records_position front rest (record_bytes trailer_item ++ replicate zeros NUL) Hok) as [Hmod Hdata].
    rewrite <-Hi in Hdata. fold data in Hdata. split.
    { rewrite Hdata, len_app. pose proof (len_nonneg (concat (map record_bytes rest) ++ record_bytes trailer_item ++ replicate zeros NUL)). lia. }
    unfold wp. rewrite Hdata. destruct rest as [|item rest].
    + cbn [map concat app]. rewrite newc_round_record by (done || apply trailer_fits). done.
    + apply Forall_app in Hok as [_ Hok]. apply Forall_cons in Hok as [(Hf & Hn & _ & Ht) _].
      cbn [map concat]. rewrite <-app_assoc, newc_round_record by done. unfold look_at. rewrite (bool_decide_false (item.1 = TRAILER)) by done.
      cbn [find_member]. case_bool_decide as Hw.
      * unfold need. by destruct (S_ISREG (field item.2.1 1)).
      * cbn [fst snd]. split.
        { exists (front ++ [item]), rest. rewrite <-app_assoc. split; [done |]. split; [| done].
          rewrite map_app, concat_app. cbn [map concat]. by rewrite app_nil_r. }
        rewrite !len_app. pose proof (record_positive item Hf). lia.
  - by exists [], items.
  - change (len (concat (map record_bytes []))) with 0. lia.
Qed.

(** The installer's own reader finds in a written archive what [entries]
    finds: the payload of the first member of the wanted name, nothing if
    there is none, a refusal if that member is not a regular file. *)
Theorem newc_member_encode p gunzip archive members wanted : archive_ok members →
  gunzip archive = Ok (encode members) → len (encode members) < Zpos p →
  newc_member p gunzip archive wanted = (items ← entries (encode members); find_member wanted items).
Proof.
  intros Hok Hg Hp. unfold newc_member. rewrite Hg, Ok_bind. destruct Hok as [Hnd Hm].
  assert (Forall fields_fit members) as Hf by (eapply Forall_impl; [exact Hm | by intros ? []]).
  destruct (encode_records members Hf) as [zeros Hz]. rewrite Hz in Hp |- *.
  rewrite newc_member_records, entries_records; try done; by rewrite sorted_items_Permutation.
Qed.

(** A member size below zero sends this reader back to where it was. *)
Definition looping : bytes :=
  header_bytes [0; S_IFREG; 0; 0; 1; 0; -112; 0; 0; 0; 0; 2; 0] ++ "a" ++ [NUL].
(** C33. On an archive whose only header has a negative size the installer's
    reader never ends, whatever the number of rounds; [entries] refuses it. *)
Theorem newc_member_may_loop wanted : wanted ≠ ("a" : pystr) →
  (∀ p, newc_member_within p looping wanted = Raise (Exn OutOfFuel [])) ∧
  entries looping = Raise (Exn ValueError "duplicate or unsafe newc name").
Proof.
  intros Hw. split; [| vm_compute; reflexivity]. intros p. unfold newc_member_within.
  assert (newc_round looping wanted 0 () = (Ok (inl 0), ())) as Hround.
  { unfold newc_round, lift. f_equal. change (len looping <? 0 + 110) with false.
    assert (py_slice looping 0 (0 + 6) = MAGIC) as -> by (vm_compute; reflexivity).
    assert (mapM (λ i, int_16 (py_slice looping (0 + 6 + 8 * Z.of_nat i) (0 + 14 + 8 * Z.of_nat i))) (List.seq 0 13) =
      Some [0; S_IFREG; 0; 0; 1; 0; -112; 0; 0; 0; 0; 2; 0]) as -> by (vm_compute; reflexivity).
    cbv zeta. rewrite need_pass by done. cbn [of_option]. rewrite Ok_bind.
    change (field _ 11) with 2. change (field _ 6) with (-112).
    assert (decode_replace (py_slice looping (0 + 110) (0 + 110 + 2 - 1)) = "a") as -> by (vm_compute; reflexivity).
    rewrite (bool_decide_false (("a" : pystr) = TRAILER)) by done. change (lstrip_if (one_of "./") "a") with ("a" : pystr).
    rewrite bool_decide_false; [reflexivity |]. intros E. by apply Hw. }
  assert (rounds p (newc_round looping wanted) 0 () = (Ok (inl 0), ())) as Hr.
  { induction p as [p IH|p IH|]; simpl; unfold mbind, M_mbind; by rewrite ?Hround, ?IH. }
  unfold while, mbind, M_mbind. by rewrite Hr.
Qed.

(** ** Witnesses *)
Lemma generate_succeeds descriptor primary fallback t pf ff name :
  parse_trial_descriptor descriptor = Ok t → manifest primary = Ok pf → manifest fallback = Ok ff →
  dget "bundle" pf = Some t.(primary_bundle) → dget "bundle" ff = Some name →
  ∃ selector record, generate descriptor primary fallback (Some name) (Some (sha256 fallback)) = Ok (selector, record).
Proof.
  intros Ht Hp Hf Hpn Hfn. unfold generate, get_field. rewrite Ht, Ok_bind, Hp, Ok_bind, Hf, Ok_bind, Hpn. cbn [of_option].
  rewrite Ok_bind, need_pass by (by rewrite bool_decide_true). rewrite Hfn. cbn [of_option default]. rewrite Ok_bind.
  rewrite need_pass by (by rewrite bool_decide_true). rewrite need_pass by (by rewrite bool_decide_true). eauto.
Qed.

Definition bundle_is (data : bytes) (name : pystr) : bool :=
  match manifest data with Ok f => bool_decide (dget "bundle" f = Some name) | Raise _ => false end.
Lemma bundle_is_spec data name : bundle_is data name = true → ∃ f, manifest data = Ok f ∧ dget "bundle" f = Some name.
Proof. unfold bundle_is. destruct (manifest data) as [f|]; [| done]. rewrite bool_decide_eq_true. eauto. Qed.

Lemma generate_read_back_witness :
  ∃ selector record fallback_hash,
    generate sample_descriptor (sample_manifest "main-k1") (sample_manifest "safe-k1") (Some ("safe-k1" : pystr)) (Some fallback_hash)
      = Ok (selector, record) ∧ selector_fallback selector = Ok ("safe-k1" : pystr, fallback_hash).
Proof.
  assert (bundle_is (sample_manifest "main-k1") "main-k1" = true) as H1 by (vm_compute; reflexivity).
  assert (bundle_is (sample_manifest "safe-k1") "safe-k1" = true) as H2 by (vm_compute; reflexivity).
  assert (parse_trial_descriptor sample_descriptor = Ok (Trial (hex64 "d") "main-k1" "try-once")) as Ht by (vm_compute; reflexivity).
  assert (fullmatch NAME "safe-k1" && negb (contains ".." "safe-k1") = true) as Hn by (vm_compute; reflexivity).
  revert H1 H2. generalize (sample_manifest "main-k1") (sample_manifest "safe-k1"). intros primary fallback.
  intros (pf & H1 & B1)%bundle_is_spec (ff & H2 & B2)%bundle_is_spec.
  destruct (generate_succeeds _ _ _ _ _ _ _ Ht H1 H2 B1 B2) as (selector & record & H).
  exists selector, record, (sha256 fallback). split; [exact H |].
  change ("safe-k1" : pystr) with (default FALLBACK_BUNDLE (Some ("safe-k1" : pystr))) in Hn |- *.
  destruct (generate_read_back _ _ _ _ _ _ _ H) as (_ & _ & _ & _ & E). by rewrite E, Hn.
Defined.

Lemma newc_member_encode_witness :
  newc_member (2 ^ 12) (λ archive, Ok archive) (encode sample_members) "init" = Ok (Some ("#!x" : bytes)).
Proof.
  rewrite (newc_member_encode _ _ _ sample_members); [vm_compute; reflexivity | apply sample_ok | reflexivity | vm_compute; reflexivity].
Defined.

Lemma newc_member_may_loop_witness : newc_member_within (2 ^ 12) looping "init" = Raise (Exn OutOfFuel []).
Proof. by apply newc_member_may_loop. Defined.

(** A descriptor whose first line ends in a vertical tab: one reader takes it,
    the other does not. *)
Definition vt_descriptor : bytes :=
  DESCRIPTOR_FORMAT ++ "011"%char :: unlines ["trial_id=" ++ hex64 "d"; "primary_bundle=main-k1" : pystr; "mode=try-once" : pystr].
Lemma descriptor_vertical_tab :
  parse_trial_descriptor vt_descriptor = Ok (Trial (hex64 "d") "main-k1" "try-once") ∧
  descriptor_fields vt_descriptor = Raise (Exn ValueError "trial descriptor format").
Proof. split; vm_compute; reflexivity. Qed.
