(* ===== verification/TrialInitramfs.v ===== *)
(** * The initramfs of a persistent trial

    scripts/device/build-native-wifi-persistent-trial-initramfs.py: a composed
    archive gets a trial descriptor, the trial helper and the persistent
    Wi-Fi files ([compose]), or an archive that has them gets a new identity
    and, when asked, the repository's current userspace
    ([compose_successor]).  The parameters are those of [Compose];
    [persistent] is initramfs/native-wifi-persistent as [native_wifi] is
    initramfs/native-wifi, and [helper_sha256] is TRIAL_HELPER_SHA256, which
    the builder reads from the repository.  The text of the timing file is
    ASCII; a message about a file names it below its directory. *)

From stdpp Require Import sorting.
From S2P Require Import Prelude PyStr PyData Sha256 Newc Compose Selector.

Definition DESCRIPTOR : pystr := PREFIX ++ "trial-descriptor".
Definition HELPER : pystr := PREFIX ++ "trial-state".
Definition RUNTIME : pystr := PREFIX ++ "runtime".
Definition AUTOMATIC : pystr := PREFIX ++ "automatic".
Definition RADIO : pystr := PREFIX ++ "radio".
Definition PROBE_NAME : pystr := PREFIX ++ PROBE.
Definition HEALTHY : pystr := PREFIX ++ "healthy".
Definition HEALTHY_SERVICE : pystr := PREFIX ++ HEALTHY_UNIT.
Definition RADIO_SERVICE : pystr := "units/rog5-wifi-radio.service".
Definition RADIO_UNIT : pystr := PREFIX ++ RADIO_SERVICE.
Definition ROLLBACK_SERVICE : pystr := "units/rog5-wifi-boot-rollback.service".
Definition ROLLBACK_UNIT : pystr := PREFIX ++ ROLLBACK_SERVICE.
Definition TIMING : pystr := "initramfs/native-wifi/timing".

Record trial_summary := TrialSummary { t_base_sha256 : pystr; t_sha256 : pystr; t_previous : option trial; t_trial : trial; t_helper_sha256 : pystr;
  t_changed : list pystr; t_added : Z; t_kernel_rebuilt : bool; t_authority : pystr }.

Definition mode_of (f : wifi_file) : Z := S_IFREG + (if f.(w_executable) then 493 else 420).
Definition required (members : archive) (name : pystr) : res unit :=
  refuse_if (negb (dmem name members)) ValueError ("missing member: " ++ name).
Definition absent (members : archive) (name : pystr) : res unit :=
  refuse_if (dmem name members) ValueError ("initial trial member already exists: " ++ name).
Definition member_of (members : archive) (name : pystr) : res member := of_option (dget name members) KeyError name.
(** Every regular file below the prefix but the list itself. *)
Definition checks_but (members : archive) : bytes := check_lines (λ item, checked item && (item.1 != CHECKS)) members.

Section trial.
Context (gunzip : bytes → res bytes) (gzip : bytes → bytes).
Context (read_bytes : pystr → res bytes) (iw_sha256 helper_sha256 : pystr) (native_wifi persistent : list wifi_file).
Context (package_mode package_size : Z) (package_raw : bytes) (package_members : bytes → res (list tar_member)).

(** What both composers read and refuse first. *)
Definition opened (base : bytes) (expected_base : pystr) (descriptor helper : bytes) : res (trial * archive) :=
  refuse_if (sha256 base != expected_base) ValueError "base hash mismatch" ;;
  trial ← parse_trial_descriptor descriptor;
  refuse_if (sha256 helper != helper_sha256) ValueError "trial helper hash mismatch" ;;
  plain ← gunzip base;
  original ← entries plain;
  Ok (trial, original).
Definition refreshed (members : archive) (name source : pystr) : res archive := data ← read_bytes source; replace members name data.
(** What both do last: the list of hashes, the checks, the packing. *)
Definition finish (original members : archive) (changed : list pystr) : res (bytes * Z) :=
  members ← replace members CHECKS (checks_but members);
  unchanged_but (λ name, "unexpected member change: " ++ name) changed original members ;;
  verify_radio_composition read_bytes iw_sha256 package_mode package_size package_raw package_members members ;;
  packed ← repack gunzip gzip "archive round-trip mismatch" members;
  Ok (packed, len members - len original).

(** [dict(line.split('=', 1) for line in ... if line and not line.startswith('#'))] *)
Definition timing_fields : res (dict pystr) :=
  data ← read_bytes TIMING; text ← text_of data;
  fold_res (λ d line,
      if (line == []) || startswith line "#" then Ok d else
      let '(key, found, value) := partition "=" line in
      refuse_if (negb found) ValueError "dictionary update sequence element has length 1; 2 is required" ;;
      Ok (dset key value d)) [] (splitlines text).
Definition add_persistent (members : archive) (f : wifi_file) : res archive :=
  refuse_if f.(w_symlink) ValueError ("symlink source: " ++ f.(w_name)) ;;
  add members (PREFIX ++ f.(w_name)) f.(w_data) (mode_of f).
Definition compose (base : bytes) (expected_base : pystr) (descriptor helper : bytes) : res (bytes * trial_summary) :=
  '(trial, original) ← opened base expected_base descriptor helper;
  for_each (required original) [AUTOMATIC; RUNTIME; RADIO_UNIT; ROLLBACK_UNIT; CHECKS] ;;
  automatic ← member_of original AUTOMATIC;
  refuse_if (automatic.2 != "rog5-native-wifi-boot-v1" ++ [LF]) ValueError "incompatible automatic marker" ;;
  for_each (absent original) [DESCRIPTOR; HELPER; HEALTHY; HEALTHY_SERVICE] ;;
  members ← refreshed original RUNTIME (NATIVE_WIFI ++ "runtime");
  members ← refreshed members ROLLBACK_UNIT (NATIVE_WIFI ++ ROLLBACK_SERVICE);
  timing ← timing_fields;
  radio ← read_bytes (NATIVE_WIFI ++ RADIO_SERVICE);
  refuse_if (negb (count OUTER_SECONDS radio =? 1)) ValueError "radio timeout template mismatch" ;;
  outer ← of_option (dget ("outer_seconds" : pystr) timing) KeyError "outer_seconds";
  members ← replace members RADIO_UNIT (py_replace OUTER_SECONDS outer radio);
  members ← add members DESCRIPTOR descriptor (S_IFREG + 292);
  members ← add members HELPER helper (S_IFREG + 493);
  members ← fold_res add_persistent members persistent;
  '(packed, added) ← finish original members [RUNTIME; RADIO_UNIT; ROLLBACK_UNIT; CHECKS];
  Ok (packed, TrialSummary expected_base (sha256 packed) None trial (sha256 helper) [CHECKS; RUNTIME; RADIO_UNIT; ROLLBACK_UNIT] added false
    "none; persistent trial composition only").

(** A file of the repository put in the place of the archive's, or added. *)
Definition refresh_file (st : archive * list pystr) (f : wifi_file) : res (archive * list pystr) :=
  let '(members, changed) := st in
  refuse_if f.(w_symlink) ValueError ("symlink userspace source: " ++ f.(w_name)) ;;
  let name := PREFIX ++ f.(w_name) in
  data ← (if contains OUTER_SECONDS f.(w_data) then
            timing ← read_bytes TIMING;
            match outer_seconds timing with
            | [outer] => refuse_if (int10 outer <=? 0) ValueError "invalid radio timeout" ;; Ok (py_replace OUTER_SECONDS outer f.(w_data))
            | _ => Raise (Exn ValueError "invalid radio timeout")
            end
          else Ok f.(w_data));
  members ← (match dget name members with
             | Some m => refuse_if (negb (field m.1 1 =? mode_of f)) ValueError ("incompatible userspace mode: " ++ name) ;; replace members name data
             | None => add members name data (mode_of f)
             end);
  Ok (members, changed ++ [name]).
Definition refresh_userspace (helper : bytes) (members : archive) (changed : list pystr) : res (archive * list pystr) :=
  '(members, names) ← install_wifi_iw read_bytes iw_sha256 package_mode package_size package_raw package_members members;
  old ← member_of members HELPER;
  refuse_if (negb (metadata_is old (S_IFREG + 493))) ValueError "unsafe retained trial helper metadata" ;;
  members ← replace members HELPER helper;
  fold_res refresh_file (members, changed ++ names ++ [HELPER]) (native_wifi ++ persistent).
Definition compose_successor (base : bytes) (expected_base : pystr) (descriptor helper : bytes) (refresh headless_cpu_policy : bool) : res (bytes * trial_summary) :=
  refuse_if (headless_cpu_policy && negb refresh) ValueError "CPU policy requires explicit userspace refresh" ;;
  '(trial, original) ← opened base expected_base descriptor helper;
  for_each (required original) [AUTOMATIC; RUNTIME; DESCRIPTOR; HELPER; HEALTHY; HEALTHY_SERVICE; RADIO; PROBE_NAME; CHECKS] ;;
  old ← member_of original DESCRIPTOR;
  previous ← parse_trial_descriptor old.2;
  refuse_if (previous.(trial_id) == trial.(trial_id)) ValueError "successor reuses trial identity" ;;
  refuse_if (previous.(primary_bundle) == trial.(primary_bundle)) ValueError "successor reuses bundle identity" ;;
  (if refresh then Ok () else
     retained ← member_of original HELPER;
     refuse_if (retained.2 != helper) ValueError "retained trial helper mismatch") ;;
  members ← replace original DESCRIPTOR descriptor;
  members ← refreshed members RADIO (NATIVE_WIFI ++ "radio");
  members ← refreshed members PROBE_NAME ("scripts/device/" ++ PROBE);
  let changed := [DESCRIPTOR; RADIO; PROBE_NAME; CHECKS] in
  '(members, changed) ← (if refresh then refresh_userspace helper members changed else Ok (members, changed));
  '(members, changed) ← (if refresh && (headless_cpu_policy || dmem (PREFIX ++ "cpu-frequency-cap.py") members)
                         then '(members, installed) ← install_headless_cpu_policy read_bytes members; Ok (members, changed ++ elements installed)
                         else Ok (members, changed));
  '(packed, added) ← finish original members changed;
  Ok (packed, TrialSummary expected_base (sha256 packed) (Some previous) trial (sha256 helper) (sorted (remove_dups changed)) added false
    "none; persistent successor composition only").
End trial.

(** ** What the steps keep *)
Definition holds (members : archive) (name : pystr) (data : bytes) : Prop := ∃ fields, dget name members = Some (fields, data).
Lemma holds_kept names m m' name data : members_kept names m m' → name ∉ names → holds m name data → holds m' name data.
Proof. intros Hk Hn [fields Hf]. exists fields. by apply Hk. Qed.
Lemma holds_kept_nil m m' name data : members_kept [] m m' → holds m name data → holds m' name data.
Proof. intros Hk. apply (holds_kept [] m m' name data Hk), not_elem_of_nil. Qed.
Lemma replaced members name data result : replace members name data = Ok result → members_kept [name] members result ∧ holds result name data.
Proof.
  intros H. split; [by eapply replace_kept |]. unfold replace in H. bind_inv H as m Hm. guard_inv H as _. injection H as <-. eexists. apply dget_dset_eq.
Qed.
Lemma added members name data mode result : add members name data mode = Ok result → members_kept [] members result ∧ holds result name data.
Proof. apply add_kept. Qed.

Section steps.
Context (gunzip : bytes → res bytes) (gzip : bytes → bytes).
Context (read_bytes : pystr → res bytes) (iw_sha256 helper_sha256 : pystr) (native_wifi persistent : list wifi_file).
Context (package_mode package_size : Z) (package_raw : bytes) (package_members : bytes → res (list tar_member)).
Abbreviation coherent m := (verify_radio_composition read_bytes iw_sha256 package_mode package_size package_raw package_members m = Ok ()).

Lemma opened_Ok base expected_base descriptor helper t original : opened gunzip helper_sha256 base expected_base descriptor helper = Ok (t, original) →
  sha256 base = expected_base ∧ parse_trial_descriptor descriptor = Ok t ∧ sha256 helper = helper_sha256 ∧
  ∃ plain, gunzip base = Ok plain ∧ entries plain = Ok original.
Proof.
  unfold opened. intros H. guard_inv H as Hb%negb_false_iff%bool_decide_eq_true. bind_inv H as t' Ht. guard_inv H as Hh%negb_false_iff%bool_decide_eq_true.
  bind_inv H as plain Hp. bind_inv H as o Ho. injection H as <- <-. split_and!; try done. by exists plain.
Qed.
Lemma refreshed_Ok members name source result : refreshed read_bytes members name source = Ok result →
  ∃ data, read_bytes source = Ok data ∧ members_kept [name] members result ∧ holds result name data.
Proof. unfold refreshed. intros H. bind_inv H as data Hd. exists data. split; [done | by apply replaced]. Qed.

(** What an archive that [finish] has packed is. *)
Definition finished (original members again : archive) (changed : list pystr) : Prop :=
  NoDup again.*1 ∧ coherent again ∧
  (∀ k m, k ∉ changed → (k, m) ∈ original → dget k again = Some m) ∧
  (∀ name data, name ≠ CHECKS → holds members name data → holds again name data) ∧
  ∃ checks, holds again CHECKS checks ∧
    ∀ k m, dget k again = Some m → checked (k, m) = true → k ≠ CHECKS → ∃ a b, checks = a ++ check_line (k, m) ++ b.
Lemma finish_Ok original members changed packed n :
  finish gunzip gzip read_bytes iw_sha256 package_mode package_size package_raw package_members original members changed = Ok (packed, n) →
  ∃ read again, gunzip packed = Ok read ∧ entries read = Ok again ∧ finished original members again changed.
Proof.
  unfold finish. intros H. bind_inv H as m1 H1. bind_inv H as u Hu. destruct u. bind_inv H as u Hv. destruct u. bind_inv H as p Hp. injection H as <- _.
  destruct (repack_Ok _ _ _ _ _ Hp) as (read & again & Hr & Ha & Hnd & Hd). exists read, again. split; [done |]. split; [done |].
  pose proof (replace_only _ _ _ _ H1) as Honly. apply replaced in H1 as [Hk [fields Hc]]. split_and!.
  - done.
  - by rewrite (verify_radio_ext _ _ _ _ _ _ again m1).
  - intros k m Hn Hin. rewrite Hd. by apply (unchanged_but_Ok _ _ _ _ Hu).
  - intros name data Hn [f Hf]. exists f. rewrite Hd. apply Hk; [by intros ->%list_elem_of_singleton | done].
  - exists (checks_but members). split; [exists fields; by rewrite Hd |]. intros k m Hm Hc' Hn. rewrite Hd, Honly in Hm by done.
    apply check_line_in; [done |]. rewrite Hc'. by apply negb_true_iff, bool_decide_eq_false.
Qed.

Lemma refresh_file_Ok members changed f members' changed' : refresh_file read_bytes (members, changed) f = Ok (members', changed') →
  members_kept [PREFIX ++ f.(w_name)] members members' ∧ changed' = changed ++ [PREFIX ++ f.(w_name)].
Proof.
  unfold refresh_file. intros H. guard_inv H as _. bind_inv H as data Hd. bind_inv H as m Hm. injection H as <- <-. split; [| done].
  destruct (dget _ members) as [x|].
  - guard_inv Hm as _. by apply replace_kept in Hm.
  - apply added in Hm as [Hm _]. eapply members_kept_weaken; [| exact Hm]. by intros k ?%not_elem_of_nil.
Qed.
Definition member_names (files : list wifi_file) : list pystr := map (λ f, PREFIX ++ f.(w_name)) files.
Lemma refresh_files_Ok files members changed members' changed' : fold_res (refresh_file read_bytes) (members, changed) files = Ok (members', changed') →
  members_kept (member_names files) members members' ∧ changed' = changed ++ member_names files.
Proof.
  revert members changed. induction files as [|f files IH]; intros members changed H; simpl in H.
  { injection H as <- <-. split; [apply members_kept_weaken with []; [by intros ? ?%not_elem_of_nil | apply members_kept_refl] | by rewrite app_nil_r]. }
  bind_inv H as [m1 c1] H1. apply refresh_file_Ok in H1 as [K1 ->]. apply IH in H as [K ->]. split; [| by rewrite <- app_assoc].
  intros k v [Hk Hks]%not_elem_of_cons Hv. apply K; [done |]. apply K1; [by intros ->%list_elem_of_singleton | done].
Qed.
Definition userspace_names : list pystr := [IW; IW_COPYING] ++ member_names (native_wifi ++ persistent).
Lemma refresh_userspace_Ok helper members changed members' changed' :
  refresh_userspace read_bytes iw_sha256 native_wifi persistent package_mode package_size package_raw package_members helper members changed = Ok (members', changed') →
  members_kept (HELPER :: userspace_names) members members' ∧ (HELPER ∉ userspace_names → holds members' HELPER helper).
Proof.
  unfold refresh_userspace. intros H. bind_inv H as [m1 names] H1. bind_inv H as old Ho. guard_inv H as _. bind_inv H as m2 H2.
  apply install_iw_kept in H1. apply replaced in H2 as [K2 Hh]. apply refresh_files_Ok in H as [K _]. unfold userspace_names. split.
  - intros k v [Hh' [Hi Hn]%not_elem_of_app]%not_elem_of_cons Hv. apply K; [done |]. apply K2; [by intros ->%list_elem_of_singleton |]. by apply H1.
  - intros [_ Hn]%not_elem_of_app. by apply (holds_kept _ _ _ _ _ K).
Qed.
Lemma install_headless_kept members members' installed : install_headless_cpu_policy read_bytes members = Ok (members', installed) →
  members_kept (file_names headless_cpu_files) members members'.
Proof.
  unfold install_headless_cpu_policy. intros H. guard_inv H as _. apply install_files_Ok in H as (_ & _ & _ & K); [| apply headless_names_distinct].
  intros k v Hk Hv. destruct (K k Hk) as [->|[Hn _]]; [done | congruence].
Qed.
End steps.
(** No file that a refresh puts in place is named like the two of the
    identity. *)
Lemma identity_names : (DESCRIPTOR ∉ [IW; IW_COPYING]) ∧ (HELPER ∉ [IW; IW_COPYING]) ∧
  (DESCRIPTOR ∉ file_names headless_cpu_files) ∧ (HELPER ∉ file_names headless_cpu_files).
Proof. split_and!; apply (bool_decide_unpack _); vm_compute; exact I. Qed.

Section composed.
Context (gunzip : bytes → res bytes) (gzip : bytes → bytes).
Context (read_bytes : pystr → res bytes) (iw_sha256 helper_sha256 : pystr) (native_wifi persistent : list wifi_file).
Context (package_mode package_size : Z) (package_raw : bytes) (package_members : bytes → res (list tar_member)).
Abbreviation first_trial := (compose gunzip gzip read_bytes iw_sha256 helper_sha256 persistent package_mode package_size package_raw package_members).
Abbreviation successor :=
  (compose_successor gunzip gzip read_bytes iw_sha256 helper_sha256 native_wifi persistent package_mode package_size package_raw package_members).
(** What both composers promise of the archive they return. *)
Definition carries (base : bytes) (expected_base : pystr) (descriptor helper packed : bytes) (s : trial_summary) (original members : archive) : Prop :=
  sha256 base = expected_base ∧ (∃ plain, gunzip base = Ok plain ∧ entries plain = Ok original) ∧
  (∃ read, gunzip packed = Ok read ∧ entries read = Ok members) ∧ NoDup members.*1 ∧
  verify_radio_composition read_bytes iw_sha256 package_mode package_size package_raw package_members members = Ok () ∧
  parse_trial_descriptor descriptor = Ok s.(t_trial) ∧ sha256 helper = helper_sha256 ∧
  (∀ k m, k ∉ s.(t_changed) → (k, m) ∈ original → dget k members = Some m) ∧
  ∃ checks, holds members CHECKS checks ∧
    ∀ k m, dget k members = Some m → checked (k, m) = true → k ≠ CHECKS → ∃ a b, checks = a ++ check_line (k, m) ++ b.

(** The archive of a first trial carries the given descriptor and helper over
    a base that had neither. *)
Theorem first_trial_sound base expected_base descriptor helper packed s : first_trial base expected_base descriptor helper = Ok (packed, s) →
  ∃ original members, carries base expected_base descriptor helper packed s original members ∧
    s.(t_previous) = None ∧ s.(t_changed) = [CHECKS; RUNTIME; RADIO_UNIT; ROLLBACK_UNIT] ∧
    (DESCRIPTOR ∉ original.*1) ∧ (HELPER ∉ original.*1) ∧ holds members DESCRIPTOR descriptor ∧ holds members HELPER helper.
Proof.
  unfold compose. intros H. bind_inv H as [t original] Hop. destruct (opened_Ok _ _ _ _ _ _ _ _ Hop) as (Hb & Hp & Hh & Hplain).
  bind_inv H as u Hu. bind_inv H as automatic Ha. guard_inv H as _. bind_inv H as u2 Habs. bind_inv H as m1 H1. bind_inv H as m2 H2.
  bind_inv H as timing Ht. bind_inv H as radio Hr. guard_inv H as _. bind_inv H as outer Ho. bind_inv H as m3 H3. bind_inv H as m4 H4.
  bind_inv H as m5 H5. bind_inv H as m6 H6. bind_inv H as [p n] Hf. injection H as <- <-. cbn [t_trial t_previous t_changed].
  destruct (finish_Ok _ _ _ _ _ _ _ _ _ _ _ _ _ Hf) as (read & again & Hread & Hagain & Hnd & Hv & Hun & Hkeep & Hc).
  assert (∀ k, k ∈ [DESCRIPTOR; HELPER; HEALTHY; HEALTHY_SERVICE] → k ∉ original.*1) as Hnew.
  { intros k Hk. rewrite for_each_Ok, Forall_forall in Habs. specialize (Habs k Hk). apply refuse_if_Ok in Habs. by apply dmem_false. }
  apply added in H4 as [_ Hd4]. apply added in H5 as [K5 Hd5].
  assert (members_kept [] m5 m6) as K6.
  { eapply fold_members_kept; [| exact H6]. intros m0 f m' _ Hadd. unfold add_persistent in Hadd. guard_inv Hadd as _. by apply added in Hadd as [? _]. }
  exists original, again. split_and!; try done.
  - unfold carries. cbn [t_trial t_changed]. split_and!; try done; [by exists read |]. intros k m Hk Hin. apply Hun; [| done].
    intros Hc'. apply Hk. rewrite !elem_of_cons in *. tauto.
  - apply Hnew. by left.
  - apply Hnew. right. by left.
  - apply Hkeep; [done |]. by eapply holds_kept_nil, holds_kept_nil.
  - apply Hkeep; [done |]. by eapply holds_kept_nil.
Qed.

(** C27. A successor archive has a trial and a bundle of its own, neither of
    them the base's; it reads back as distinct members that the radio check
    accepts, carries the given descriptor and the given helper whose hash is
    the pinned one, and lists the hash of every file the phone checks.  Every
    member that is not named as changed is the base's, and without a refresh
    only the descriptor, the radio, the probe and the list are named. *)
Theorem successor_sound base expected_base descriptor helper refresh headless packed s :
  successor base expected_base descriptor helper refresh headless = Ok (packed, s) →
  (refresh = true → ∀ k, k ∈ [DESCRIPTOR; HELPER] → k ∉ member_names (native_wifi ++ persistent)) →
  ∃ original members previous old, carries base expected_base descriptor helper packed s original members ∧
    s.(t_previous) = Some previous ∧ holds original DESCRIPTOR old ∧ parse_trial_descriptor old = Ok previous ∧
    previous.(trial_id) ≠ s.(t_trial).(trial_id) ∧ previous.(primary_bundle) ≠ s.(t_trial).(primary_bundle) ∧
    holds members DESCRIPTOR descriptor ∧ holds members HELPER helper ∧
    (refresh = false → ∀ k, k ∈ s.(t_changed) → k ∈ [DESCRIPTOR; RADIO; PROBE_NAME; CHECKS]).
Proof.
  unfold compose_successor. intros H Hsrc. guard_inv H as _. bind_inv H as [t original] Hop.
  destruct (opened_Ok _ _ _ _ _ _ _ _ Hop) as (Hb & Hp & Hh & Hplain).
  bind_inv H as u Hu. bind_inv H as [oldf old] Hold. bind_inv H as previous Hprev. guard_inv H as Hid%bool_decide_eq_false. guard_inv H as Hbu%bool_decide_eq_false.
  bind_inv H as u2 Hret. bind_inv H as m1 H1. bind_inv H as m2 H2. bind_inv H as m3 H3. bind_inv H as [m4 c4] H4. bind_inv H as [m5 c5] H5.
  bind_inv H as [p n] Hf. injection H as <- <-. cbn [t_trial t_previous t_changed].
  destruct (finish_Ok _ _ _ _ _ _ _ _ _ _ _ _ _ Hf) as (read & again & Hread & Hagain & Hnd & Hv & Hun & Hkeep & Hc).
  apply replaced in H1 as [K1 D1]. apply refreshed_Ok in H2 as (_ & _ & K2 & _). apply refreshed_Ok in H3 as (_ & _ & K3 & _).
  assert (∀ k data, k ∉ [DESCRIPTOR; RADIO; PROBE_NAME] → holds original k data → holds m3 k data) as K13.
  { intros k data [? [? [? _]%not_elem_of_cons]%not_elem_of_cons]%not_elem_of_cons Hk.
    apply (holds_kept _ _ _ _ _ K3), (holds_kept _ _ _ _ _ K2), (holds_kept _ _ _ _ _ K1); try done; by intros ?%list_elem_of_singleton. }
  assert (holds m3 DESCRIPTOR descriptor) as D3.
  { by apply (holds_kept _ _ _ _ _ K3), (holds_kept _ _ _ _ _ K2); [apply (bool_decide_unpack _); vm_compute .. |]. }
  assert (holds m4 DESCRIPTOR descriptor ∧ holds m4 HELPER helper ∧ (refresh = false → c4 = [DESCRIPTOR; RADIO; PROBE_NAME; CHECKS])) as (D4 & E4 & C4).
  { destruct refresh.
    - destruct (refresh_userspace_Ok _ _ _ _ _ _ _ _ _ _ _ _ _ H4) as [K E]. destruct identity_names as (N1 & N2 & _). split_and!; [| | done].
      + apply (holds_kept _ _ _ _ _ K); [| done]. unfold userspace_names. rewrite not_elem_of_cons, not_elem_of_app. split; [done |].
        split; [done |]. apply Hsrc; [done | by left].
      + apply E. unfold userspace_names. rewrite not_elem_of_app. split; [done |]. apply Hsrc; [done | right; by left].
    - injection H4 as <- <-. split_and!; [done | | done]. bind_inv Hret as [rf r] Hr. apply of_option_Ok in Hr.
      apply refuse_if_Ok, negb_false_iff, bool_decide_eq_true in Hret. simpl in Hret. subst r.
      apply K13; [apply (bool_decide_unpack _); by vm_compute | by exists rf]. }
  assert (members_kept (file_names headless_cpu_files) m4 m5 ∧ (refresh = false → c5 = c4)) as [K5 C5].
  { destruct (refresh && _) eqn:Er.
    - bind_inv H5 as [m6 i6] H6. injection H5 as <- <-. split; [by eapply install_headless_kept |]. intros ->. done.
    - injection H5 as <- <-. split; [| done]. eapply members_kept_weaken; [| apply members_kept_refl]. by intros k ?%not_elem_of_nil. }
  destruct identity_names as (_ & _ & N3 & N4).
  exists original, again, previous, old. apply of_option_Ok in Hold. split_and!; try done.
  - unfold carries. cbn [t_trial t_changed]. split_and!; try done; [by exists read |]. intros k m Hk Hin. apply Hun; [| done].
    intros Hc'. apply Hk. unfold sorted. by rewrite merge_sort_Permutation, elem_of_remove_dups.
  - by exists oldf.
  - apply Hkeep; [done |]. by apply (holds_kept _ _ _ _ _ K5).
  - apply Hkeep; [done |]. by apply (holds_kept _ _ _ _ _ K5).
  - intros -> k Hk. unfold sorted in Hk. rewrite merge_sort_Permutation, elem_of_remove_dups, C5, C4 in Hk by done. done.
Qed.
End composed.

(** ** A successor *)
Definition descriptor_for (digit : ascii) (bundle : pystr) : bytes :=
  DESCRIPTOR_FORMAT ++ [LF] ++ "trial_id=" ++ replicate 64 digit ++ [LF] ++ "primary_bundle=" ++ bundle ++ [LF] ++ "mode=try-once" ++ [LF].
Definition sample_first : bytes :=
  match fold_res (λ m '(name, data, mode), add m name data mode) []
    [(AUTOMATIC, "rog5-native-wifi-boot-v1" ++ [LF], FILE_MODE); (RUNTIME, "old" : bytes, FILE_MODE); (DESCRIPTOR, descriptor_for "1" "first", FILE_MODE);
     (HELPER, "old helper" : bytes, S_IFREG + 493); (HEALTHY, "old" : bytes, FILE_MODE); (HEALTHY_SERVICE, "old" : bytes, FILE_MODE);
     (RADIO, "old" : bytes, FILE_MODE); (PROBE_NAME, "old" : bytes, FILE_MODE); (CHECKS, "old" : bytes, FILE_MODE); ("etc/hostname" : pystr, "rog5" : bytes, FILE_MODE)]
  with Ok m => encode m | Raise _ => [] end.
Definition sample_persistent : list wifi_file :=
  [WifiFile "healthy" false false "healthy"; WifiFile HEALTHY_UNIT false false ("initramfs/native-wifi-persistent/" ++ HEALTHY_UNIT)].
Abbreviation sample_successor :=
  (compose_successor Ok id sample_file (sha256 ("iw.apk" : bytes)) (sha256 ("helper" : bytes)) sample_wifi sample_persistent (S_IFREG + 420) 6 "iw.apk"
    (λ _, Ok sample_iw) sample_first (sha256 sample_first) (descriptor_for "2" "second") "helper" true true).
Lemma sample_succeeds : is_ok sample_successor = true.
Proof. vm_compute. reflexivity. Qed.
Lemma sample_descriptor_value : match parse_trial_descriptor (descriptor_for "2" "second") with Ok t => t.(primary_bundle) | Raise _ => [] end = "second".
Proof. vm_compute. reflexivity. Qed.
Lemma sample_names : Forall (λ k, k ∉ member_names (sample_wifi ++ sample_persistent)) [DESCRIPTOR; HELPER].
Proof. apply (bool_decide_unpack _). vm_compute. exact I. Qed.

Lemma successor_sound_witness :
  ∃ packed s members, sample_successor = Ok (packed, s) ∧ entries packed = Ok members ∧ holds members DESCRIPTOR (descriptor_for "2" "second") ∧
    holds members HELPER "helper" ∧ s.(t_trial).(primary_bundle) = "second".
Proof.
  pose proof sample_succeeds as Hok. destruct sample_successor as [[packed s]|e] eqn:E; [| discriminate Hok].
  destruct (successor_sound _ _ _ _ _ _ _ _ _ _ _ _ _ _ _ _ _ _ _ E) as (original & members & previous & old & Hc & _ & _ & _ & _ & _ & Hd & Hh & _).
  { intros _. apply Forall_forall. exact sample_names. }
  destruct Hc as (_ & _ & (read & Hr & Hm) & _ & _ & Hp & _). apply res_Ok_inv in Hr. subst read.
  exists packed, s, members. split; [reflexivity |]. split; [exact Hm |]. split; [exact Hd |]. split; [exact Hh |].
  pose proof sample_descriptor_value as Hv. rewrite Hp in Hv. exact Hv.
Defined.
