(* ===== verification/BundleMaker.v ===== *)
(** * Making a bundle: the plan and the checks

    scripts/host/rog5-make-bundle.py up to the commands it runs: the kernel
    build, device tree and inputs a bundle is planned from, the name it gets,
    the module package and its provenance, and the check of the ramdisk.  A
    file tree is a map from absolute paths to nodes; the JSON documents are
    decoded by parameters into records of the fields the code reads. *)

From stdpp Require Import sorting.
From S2P Require Import Prelude PyStr PyData Regex Sha256 Registry RegistryStore Selector.

(** ** Files *)
Inductive node := File (link : bool) (data : bytes) | Dir.
Abbreviation tree := (gmap pystr node).
(** [path.parent] of an absolute path. *)
Definition parent (p : pystr) : pystr := join "/" (rev (tail (rev (split_on "/" p)))).
Definition sub (root name : pystr) : pystr := root ++ "/" ++ name.
Definition is_file (t : tree) (p : pystr) : bool := match t !! p with Some (File _ _) => true | _ => false end.
Definition is_dir (t : tree) (p : pystr) : bool := match t !! p with Some Dir => true | _ => false end.
Definition is_symlink (t : tree) (p : pystr) : bool := match t !! p with Some (File l _) => l | _ => false end.
Definition exists_ (t : tree) (p : pystr) : bool := bool_decide (is_Some (t !! p)).
Definition read_bytes (t : tree) (p : pystr) : res bytes :=
  match t !! p with
  | Some (File _ data) => Ok data
  | Some Dir => Raise (Exn OSError p)
  | None => Raise (Exn FileNotFoundError p)
  end.
Definition sha (t : tree) (p : pystr) : res pystr := sha256 <$> read_bytes t p.
Definition read_text (t : tree) (p : pystr) : res pystr := data ← read_bytes t p; decode_utf8 data.
(** The names directly below a directory, in the order of [glob]. *)
Definition children (t : tree) (root : pystr) : list pystr :=
  omap (λ p, if startswith p (root ++ "/") && negb (has_char "/" (drop (length root + 1) p)) then Some (drop (length root + 1) p) else None)
    (map_to_list t).*1.

(** ** Documents *)
Record build_json := BuildJson {
  j_status : option pystr;
  j_stages : dict (option pystr);
  j_release : pystr;
  j_release_label : option pystr;
  j_outputs : option (dict pystr);
  j_series : list pystr;            (* names of the production series *)
  j_started : pystr;
  j_commit : pystr;
  j_dirty : bool
}.
Record package_json := PackageJson {
  m_status : pystr;
  m_release : pystr;
  m_kernel_build : pystr;
  m_kernel_image_sha256 : pystr;
  m_package_sha256 : pystr;
  m_external_modules : option (list pystr);
  m_selected_built_in : option (list pystr)
}.
Record selection_json := SelectionJson { s_board_modules : list pystr; s_external_modules : list (pystr * pystr) }.
Record inputs_json := InputsJson {
  i_format : option pystr;
  i_state_dir : pystr;
  i_kernel_builds : pystr;
  i_signing_key : pystr;
  i_pins : dict (pystr * pystr)     (* path and sha256 or sums_sha256 *)
}.

Definition IMAGE : pystr := "objects/arch/arm64/boot/Image".

Section maker.
Context (expanduser : pystr → pystr) (resolve : pystr → pystr).
Context (load_build : bytes → res build_json) (load_package : bytes → res package_json)
  (load_sources : bytes → res (option pystr)) (load_provenance : bytes → res (list (pystr * pystr)))
  (load_selection : bytes → res selection_json) (load_inputs : bytes → res inputs_json)
  (load_dtbs : bytes → res dtbs_doc) (load_bundles : bytes → res bundles_doc).

Definition expand (text : pystr) (state : option pystr) : pystr :=
  expanduser (match state with Some s => py_replace "{state}" s text | None => text end).

(** ** The kernel build *)
Definition build_named (number name : pystr) : bool :=
  startswith name "rog5-kernel-" && endswith name ("-build-r" ++ number) && (len name >=? len ("rog5-kernel-" ++ "-build-r" ++ number : pystr)).
Definition first_copy (t : tree) (expected : pystr) (copies : list pystr) : option pystr :=
  List.find (λ copy, is_file t copy && (match sha t copy with Ok h => h == expected | Raise _ => false end)) copies.
Definition kernel_build (t : tree) (kernel root : pystr) (copies : list pystr) : res (pystr * build_json * pystr * pystr) :=
  need (fullmatch KERNEL kernel) "kernel must be kNNN (k1 to k9999; k0 is an unlabelled scratch build)" ;;
  let number := drop 1 kernel in
  let found := filter (λ name, build_named number name = true ∧ is_dir t (sub root name) = true) (children t root) in
  need (len found =? 1) (kernel ++ ": expected one " ++ root ++ "/rog5-kernel-*-build-r" ++ number ++ ", found " ++ str_of_Z (len found)) ;;
  name ← of_option (head found) IndexError "list index out of range";
  data ← read_bytes t (sub (sub root name) "result.json");
  result ← load_build data;
  need (result.(j_status) == Some ("PASS" : pystr)) (kernel ++ ": " ++ name ++ " did not PASS") ;;
  need (forallb (λ s, default None (dget s result.(j_stages)) == Some ("PASS" : pystr)) ["kernel-build" : pystr; "modules-install" : pystr])
    (kernel ++ ": kernel or module stage did not pass") ;;
  match result.(j_release_label) with
  | None => Ok ()
  | Some label =>
      need (label == kernel) (kernel ++ ": the build is labelled " ++ label) ;;
      need (endswith result.(j_release) ("-rog5-" ++ kernel)) (kernel ++ ": release " ++ result.(j_release) ++ " lacks -rog5-" ++ kernel)
  end ;;
  outputs ← of_option result.(j_outputs) KeyError "outputs";
  expected ← of_option (dget IMAGE outputs) KeyError IMAGE;
  image ← (if exists_ t (sub (sub root name) IMAGE) then Ok (sub (sub root name) IMAGE)
           else of_option (first_copy t expected copies) ValueError
                  (kernel ++ ": " ++ name ++ "/objects is gone and no registered bundle has its Image"));
  h ← sha t image;
  need (h == expected) (kernel ++ ": Image differs from result.json") ;;
  Ok (name, result, image, result.(j_release)).
Definition kernel_config (t : tree) (build name : pystr) (result : build_json) : res (option pystr) :=
  let config := sub build "objects/.config" in
  if negb (exists_ t config) then Ok None else
  data ← read_bytes t config;
  need (Some (sha256 data) == dget "objects/.config" (default [] result.(j_outputs))) (name ++ ": objects/.config differs from result.json") ;;
  text ← decode_utf8 data;
  Ok (Some text).
Definition series_text (names : list pystr) : pystr :=
  match map (take 4) names with
  | [] => "none"
  | first :: _ as series => str_of_Z (len series) ++ " patches, " ++ first ++ "-" ++ default [] (last series)
  end.
Definition kernel_entry_of (name : pystr) (result : build_json) : res kernel_entry :=
  expected ← of_option (result.(j_outputs) ≫= dget IMAGE) KeyError IMAGE;
  Ok (KernelEntry name expected result.(j_release) (Some (series_text result.(j_series))) (Some (take 10 result.(j_started))) (Some [])
        (Some (take 12 result.(j_commit))) (Some result.(j_dirty))).

(** ** The name *)
Definition taken (t : tree) (reg : registry) (state name : pystr) : bool :=
  existsb (λ b, b.(b_name) == name) reg.(r_bundles)
  || existsb (λ prefix, exists_ t (sub state (prefix ++ name))) ["package-" : pystr; "ramdisk-" : pystr; "trial-" : pystr; "bundle-work-" : pystr].
Definition LETTERS : list pystr := map (λ c, [c]) ("abcdefghijklmnopqrstuvwxyz" : pystr).
Fixpoint first_free (t : tree) (reg : registry) (state role kernel dtb day : pystr) (letters : list pystr) : res pystr :=
  match letters with
  | [] => Raise (Exn ValueError ("no free bundle name: " ++ role ++ "-" ++ kernel ++ "-" ++ dtb ++ "-" ++ day ++ "[a-z]"))
  | letter :: letters =>
      name ← bundle_name role kernel dtb day letter;
      if taken t reg state name then first_free t reg state role kernel dtb day letters else Ok name
  end.
Definition choose_name (t : tree) (reg : registry) (state role kernel dtb day : pystr) (name_letter : option pystr) : res pystr :=
  first_free t reg state role kernel dtb day (match name_letter with Some ((_ :: _) as letter) => [letter] | _ => LETTERS end).

(** ** The module package *)
Definition NUL : ascii := "000"%char.
Definition MODULE_SOURCES : pystr := "make-bundle-sources.json".
Definition SELECTION : pystr := "configs/kernel/rog5-production-modules.json".
Definition PACKAGER : pystr := "scripts/host/package-production-modules.py".
(** Paths are sorted by their parts. *)
Fixpoint parts_le (a b : list pystr) : bool :=
  match a, b with
  | [], _ => true
  | _, [] => false
  | x :: a, y :: b => if x == y then parts_le a b else pystr_le x y
  end.
Definition path_le (a b : pystr) : Prop := parts_le (parts a) (parts b) = true.
#[export] Instance path_le_dec a b : Decision (path_le a b) := ltac:(unfold path_le; apply _).
Definition files_below (t : tree) (root : pystr) : list pystr :=
  merge_sort path_le (filter (λ p, startswith p (root ++ "/") = true ∧ is_file t p = true) (map_to_list t).*1).
Definition module_sources (t : tree) (src : pystr) : res pystr :=
  data ← read_bytes t (sub src SELECTION);
  selection ← load_selection data;
  let files := sub src PACKAGER :: sub src SELECTION ::
    concat (map (λ '(_, source), let root := sub src source in if is_dir t root then files_below t root else [root]) selection.(s_external_modules)) in
  rows ← map_res (λ path, h ← sha t path; Ok (drop (length src + 1) path ++ [NUL] ++ h ++ [LF])) files;
  Ok (sha256 (concat rows)).
Definition usable_package (t : tree) (directory build name image_sha256 release : pystr) : res (pystr * package_json) :=
  data ← read_bytes t (sub directory "result.json");
  result ← load_package data;
  let package := sub directory "module-root-complete.tar.gz" in
  let why := directory ++ " is not a module package of " ++ name in
  need ((result.(m_status) == "PASS_UNSIGNED_MODULE_PACKAGE") && (result.(m_release) == release)
        && (resolve result.(m_kernel_build) == resolve build) && (result.(m_kernel_image_sha256) == image_sha256)) why ;;
  h ← sha t package;
  need (h == result.(m_package_sha256)) why ;;
  Ok (package, result).
(** Group 1 of [rog5-kernel-(.+)-build-r[0-9]+]. *)
Definition build_base (name : pystr) : option pystr :=
  let stem := rev (lstrip_if is_digit (rev name)) in
  let base := drop (length ("rog5-kernel-" : pystr)) (take (length stem - length ("-build-r" : pystr)) stem) in
  if startswith name "rog5-kernel-" && endswith stem "-build-r" && (len stem <? len name) && (base != []) then Some base else None.
Definition package_rx (kernel : pystr) : rx := RSeq (lit ("modules-" ++ kernel)) (RAlt REps (RSeq (lit "-") (rep 12 0 is_digit))).
(** The first package of this kernel whose recorded sources are the
    snapshot's. *)
Fixpoint find_package (t : tree) (state kernel sources : pystr) (names : list pystr) : res (option pystr) :=
  match names with
  | [] => Ok None
  | name :: names =>
      let record := sub (sub state name) MODULE_SOURCES in
      if fullmatch (package_rx kernel) name && is_file t record then
        data ← read_bytes t record;
        recorded ← load_sources data;
        if recorded == Some sources then Ok (Some (sub state name)) else find_package t state kernel sources names
      else find_package t state kernel sources names
  end.
(** [run] is [Steps.run] of the packager, [now] the time as digits and
    [dump] the JSON of the record; the result says how the package came. *)
Definition module_package (run : list pystr → tree → res tree) (now : pystr) (dump : pystr → bytes) (t : tree)
    (src state kernel build name image_sha256 release : pystr) (fresh : bool) : res (pystr * package_json * pystr * tree) :=
  base ← of_option (build_base name) TypeError "'NoneType' object is not subscriptable";
  sources ← module_sources t src;
  found ← (if fresh then Ok None
           else find_package t state kernel sources (sorted (filter (λ n, startswith n ("modules-" ++ kernel) = true) (children t state))));
  match found with
  | Some directory => '(package, result) ← usable_package t directory build name image_sha256 release; Ok (package, result, "reused" : pystr, t)
  | None =>
      let legacy := sub state ("modules-" ++ base ++ "-r" ++ drop 1 kernel) in
      if negb (is_dir t (sub build "objects")) then
        need (is_dir t legacy) (name ++ "/objects is gone and there is no modules-" ++ base ++ "-r" ++ drop 1 kernel ++ " to reuse") ;;
        '(package, result) ← usable_package t legacy build name image_sha256 release;
        Ok (package, result, "reused-unverified" : pystr, t)
      else
        let first := sub state ("modules-" ++ kernel) in
        let output := if exists_ t first then sub state ("modules-" ++ kernel ++ "-" ++ now) else first in
        t' ← run ["-B" : pystr; sub src PACKAGER; "--build" : pystr; build; "--output" : pystr; output] t;
        '(package, result) ← usable_package t' output build name image_sha256 release;
        Ok (package, result, "new" : pystr, <[ sub output MODULE_SOURCES := File false (dump sources) ]> t')
  end.

(** ** The provenance of its modules
    A member of the archive: its name, whether it is a regular file, and its
    content. *)
Record member := Member { t_name : pystr; t_isfile : bool; t_data : bytes }.
Record provenance_record := ProvenanceRecord {
  pr_verified : bool; pr_provenance_sha256 : pystr; pr_board_modules : Z; pr_external_modules : list pystr; pr_exact_selection : bool }.
Definition unverified : provenance_record := ProvenanceRecord false [] 0 [] false.
Definition add_provenance (name : pystr) (provenance : dict pystr) (entry : pystr * pystr) : res (dict pystr) :=
  need (negb (dmem entry.1 provenance)) (name ++ ": duplicate provenance entry " ++ entry.1) ;;
  Ok (dset entry.1 entry.2 provenance).
Record scan := Scan { verified : gset pystr; seen_externals : gset pystr; names : gset pystr }.
Definition scan_member (name prefix : pystr) (provenance : dict pystr) (externals : gset pystr) (s : scan) (item : member) : res scan :=
  need (negb (bool_decide (item.(t_name) ∈ s.(names)))) ("module package member twice: " ++ item.(t_name)) ;;
  let seen := {[ item.(t_name) ]} ∪ s.(names) in
  if negb (endswith item.(t_name) ".ko") then Ok (Scan s.(verified) s.(seen_externals) seen) else
  need (item.(t_isfile) && startswith item.(t_name) prefix) ("module package member " ++ item.(t_name)) ;;
  let relative := drop (length prefix) item.(t_name) in
  match dget ("modules/" ++ item.(t_name)) provenance with
  | None =>
      need (bool_decide (relative ∈ externals)) ("module package member " ++ relative ++ " has no provenance record in " ++ name) ;;
      Ok (Scan s.(verified) ({[ relative ]} ∪ s.(seen_externals)) seen)
  | Some expected =>
      need (sha256 item.(t_data) == expected) ("module package member " ++ relative ++ " differs from the " ++ name ++ " provenance") ;;
      Ok (Scan ({[ relative ]} ∪ s.(verified)) s.(seen_externals) seen)
  end.
Definition commas (s : gset pystr) : pystr := join ", " (sorted (elements s)).
Definition allowed_externals (selection : selection_json) : gset pystr := list_to_set (map (λ '(name, _), name ++ ".ko") selection.(s_external_modules)).
Definition package_provenance (t : tree) (members : res (list member)) (modules : package_json) (build name : pystr) (result : build_json)
    (release how : pystr) (selection : selection_json) (required : list pystr) : res provenance_record :=
  match default [] result.(j_outputs) with
  | outputs =>
    match dget "module-provenance.json" outputs with
    | None =>
        need (how == "reused-unverified") (name ++ ": result.json records no module provenance; its module package cannot be verified") ;;
        need (required == []) (name ++ ": no module provenance to show the modules the DTB requires") ;;
        Ok unverified
    | Some recorded =>
        let path := sub build "module-provenance.json" in
        need (is_file t path && negb (is_symlink t path)) (name ++ ": module-provenance.json missing") ;;
        data ← read_bytes t path;
        need (sha256 data == recorded) (name ++ ": module-provenance.json differs from result.json") ;;
        entries ← load_provenance data;
        provenance ← fold_res (add_provenance name) [] entries;
        let externals : gset pystr := list_to_set (default [] modules.(m_external_modules)) in
        need (bool_decide (externals ⊆ allowed_externals selection))
          ("module package external modules outside the selection: " ++ commas (externals ∖ allowed_externals selection)) ;;
        let prefix := "lib/modules/" ++ release ++ "/kernel/" in
        items ← members;
        s ← fold_res (scan_member name prefix provenance externals) (Scan ∅ ∅ ∅) items;
        need (bool_decide (s.(seen_externals) = externals)) "module package external modules differ from its record" ;;
        need (bool_decide (s.(verified) ≠ ∅)) "module package carries no board module" ;;
        let built_in := default [] modules.(m_selected_built_in) in
        need (negb (existsb (λ n, dmem ("modules/" ++ prefix ++ n) provenance) built_in))
          "module package calls modules built in that the provenance records as loadable" ;;
        (if how == "reused-unverified" then Ok () else
           let expected := list_to_set selection.(s_board_modules) ∖ list_to_set built_in in
           need (bool_decide (s.(verified) = expected)) ("module package board modules differ from the selection: missing " ++
             commas (expected ∖ s.(verified)) ++ "; extra " ++ commas (s.(verified) ∖ expected)) ;;
           need (bool_decide (externals = allowed_externals selection)) "module package lacks external modules of the selection") ;;
        let missing := filter (λ n, n ∉ s.(verified)) required in
        need (missing == []) ("the DTB needs modules the package does not carry: " ++ join ", " missing) ;;
        Ok (ProvenanceRecord true recorded (Z.of_nat (size s.(verified))) (sorted (elements externals)) (how != "reused-unverified"))
    end
  end.

(** ** The descriptor and the ramdisk *)
Definition DESCRIPTOR_MEMBER : pystr := "rog5-production-trial/trial-descriptor".
Definition write_descriptor (token : pystr) (t : tree) (state name : pystr) : res (pystr * tree) :=
  let directory := sub state ("trial-" ++ name) in
  refuse_if (negb (is_dir t state)) FileNotFoundError directory ;;
  refuse_if (exists_ t directory) FileExistsError directory ;;
  let path := sub directory "descriptor" in
  let t := <[ directory := Dir ]> t in
  refuse_if (exists_ t path) FileExistsError path ;;
  Ok (path, <[ path := File false (unlines ["format=rog5-persistent-wifi-health-v1" : pystr; "trial_id=" ++ token; "primary_bundle=" ++ name; "mode=try-once" : pystr]) ]> t).
(** The loop of this file's [newc_member] is the installer's, line by line. *)
Definition newc_member : positive → (bytes → res bytes) → bytes → pystr → res (option bytes) := Selector.newc_member.
Definition check_ramdisk (rounds : positive) (gunzip : bytes → res bytes) (t : tree) (ramdisk : pystr) (descriptor : option pystr) : res unit :=
  data ← read_bytes t ramdisk;
  carried ← newc_member rounds gunzip data DESCRIPTOR_MEMBER;
  match descriptor with
  | None => need (carried == None) "the safe ramdisk carries a trial descriptor"
  | Some path => text ← read_bytes t path; need (carried == Some text) "the ramdisk does not carry the fresh descriptor"
  end ;;
  plain ← gunzip data;
  need (contains "restoring-v2" plain) "the ramdisk lacks the current init (restoring-v2)".

(** ** The plan *)
Context (patch_exists : pystr → bool) (package_of : bundle_entry → option pystr).
Record args := Args {
  a_role : pystr; a_kernel : pystr; a_dtb : pystr; a_day : pystr; a_name_letter : option pystr;
  a_boot_modules_from : option pystr; a_state_dir : option pystr; a_kernel_root : option pystr;
  a_inputs : pystr; a_config : pystr; a_private_key : option pystr
}.
Record planned := Planned {
  p_registry : registry; p_inputs : inputs_json; p_state : pystr; p_build_name : pystr; p_build : pystr; p_result : build_json; p_image : pystr;
  p_release : pystr; p_dtb : pystr; p_dtb_entry : dtb_entry; p_name : pystr; p_key : pystr;
  p_patches : list pystr; p_kernel_config : dict pystr; p_modules : list pystr;
  p_inputs_sha256 : pystr; p_registry_inputs : list (pystr * pystr)
}.
(** [Registry(config, doc)] *)
Definition load_registry (t : tree) (config : pystr) : res registry :=
  dtbs_text ← read_bytes t (sub config "dtbs.json"); d ← load_dtbs dtbs_text;
  bundles_text ← read_bytes t (sub config "bundles.json"); b ← load_bundles bundles_text;
  Ok (assemble d b).
Definition verify_dtb (t : tree) (reg : registry) (ident : pystr) : res (pystr * dtb_entry) :=
  entry ← dtb reg ident;
  let path := sub (expand reg.(r_root) None) entry.(d_path) in
  need (is_file t path && negb (is_symlink t path)) (ident ++ ": " ++ path ++ " missing") ;;
  h ← sha t path;
  need (h == entry.(d_sha256)) (ident ++ ": " ++ path ++ " does not match its sha256") ;;
  let features := sub (parent path) "features" in
  need (is_file t features) (ident ++ ": no features file next to " ++ path) ;;
  text ← read_text t features;
  need (text == features_text ident entry) (ident ++ ": " ++ features ++ " differs from dtbs.json") ;;
  Ok (path, entry).
Definition pinned (inputs : inputs_json) (key state : pystr) : res (pystr * pystr) :=
  '(path, digest) ← of_option (dget key inputs.(i_pins)) KeyError key;
  Ok (expand path (Some state), digest).
Definition check_pin (t : tree) (inputs : inputs_json) (state key : pystr) : res unit :=
  '(path, digest) ← pinned inputs key state;
  need (is_file t path) (key ++ " " ++ path ++ " missing or changed") ;;
  h ← sha t path;
  need (h == digest) (key ++ " " ++ path ++ " missing or changed").
Definition check_sums (t : tree) (inputs : inputs_json) (state key : pystr) : res unit :=
  '(path, digest) ← pinned inputs key state;
  h ← sha t (sub path "SHA256SUMS");
  need (h == digest) (key ++ " " ++ path ++ " missing or changed").
Definition PINNED_FILES : list pystr := ["ramdisk_base" : pystr; "recovery_base" : pystr; "asus_template" : pystr; "asus_kernel" : pystr].
Definition PINNED_SUMS : list pystr := ["extra_firmware" : pystr; "wifi_kit" : pystr].
Definition image_copies (reg : registry) (state kernel : pystr) : list pystr :=
  omap (λ b, if b.(b_kernel) == kernel then
               match package_of b with
               | Some ((_ :: _) as package) => Some (sub (sub (sub (sub state package) "bundles") b.(b_name)) "Image")
               | _ => None
               end else None) reg.(r_bundles).
Definition plan (t : tree) (a : args) : res planned :=
  reg ← load_registry t a.(a_config);
  validate patch_exists reg ;;
  registry_inputs ← map_res (λ path, h ← sha t path; Ok (path, h)) [sub a.(a_config) "dtbs.json"; sub a.(a_config) "bundles.json"];
  inputs_bytes ← read_bytes t a.(a_inputs);
  inputs ← load_inputs inputs_bytes;
  need (inputs.(i_format) == Some ("rog5-bundle-inputs-v1" : pystr)) "bundle-inputs format" ;;
  let state := default (expand inputs.(i_state_dir) None) a.(a_state_dir) in
  need (is_dir t state) ("state directory " ++ state ++ " missing") ;;
  need ((a.(a_role) == "safe") || (a.(a_boot_modules_from) == None))
    "--boot-modules-from is for a fallback with an older kernel (main bundles use the current list)" ;;
  let root := default (expand inputs.(i_kernel_builds) None) a.(a_kernel_root) in
  '(name, result, image, release) ← kernel_build t a.(a_kernel) root (image_copies reg state a.(a_kernel));
  entry ← kernel_entry_of name result;
  kernel_pin reg a.(a_kernel) entry ;;
  '(dtb_path, dtb_entry) ← verify_dtb t reg a.(a_dtb);
  config_text ← kernel_config t (sub root name) name result;
  '(patches, config) ← check_kernel reg a.(a_dtb) a.(a_kernel) result.(j_series) config_text;
  modules ← required_modules reg a.(a_dtb);
  bundle ← choose_name t reg state a.(a_role) a.(a_kernel) a.(a_dtb) a.(a_day) a.(a_name_letter);
  for_each (check_pin t inputs state) PINNED_FILES ;;
  for_each (check_sums t inputs state) PINNED_SUMS ;;
  let key := default (expand inputs.(i_signing_key) None) a.(a_private_key) in
  need (startswith key "/" && is_file t key && negb (is_symlink t key)) ("signing key " ++ key ++ " missing") ;;
  Ok (Planned reg inputs state name (sub root name) result image release dtb_path dtb_entry bundle key patches config modules
        (sha256 inputs_bytes) registry_inputs).
End maker.

(** ** The name is the first free one *)
Lemma first_free_Ok t reg state role kernel dtb day letters name : first_free t reg state role kernel dtb day letters = Ok name ↔
  ∃ before letter after, letters = before ++ letter :: after ∧ bundle_name role kernel dtb day letter = Ok name ∧ taken t reg state name = false ∧
    ∀ l, l ∈ before → ∃ n, bundle_name role kernel dtb day l = Ok n ∧ taken t reg state n = true.
Proof.
  induction letters as [|letter letters IH]; simpl.
  { split; [done | by intros (before & l & after & H & _); destruct before]. }
  rewrite bind_Ok. split.
  - intros (n & Hn & H). destruct (taken t reg state n) eqn:Ht.
    + apply IH in H as (before & l & after & -> & Hl & Hf & Hb). exists (letter :: before), l, after. split_and!; try done.
      intros l' [->|Hl']%elem_of_cons; [by exists n | by apply Hb].
    + injection H as ->. exists [], letter, letters. split_and!; try done. by intros l ?%not_elem_of_nil.
  - intros (before & l & after & Hl & Hn & Hf & Hb). destruct before as [|l0 before]; simpl in Hl; injection Hl as -> ->.
    + exists name. by rewrite Hf.
    + destruct (Hb l0 ltac:(by left)) as (n & Hn0 & Ht0). exists n. split; [done |]. rewrite Ht0. apply IH.
      exists before, l, after. split_and!; try done. intros l' Hl'. apply Hb. by right.
Qed.
Lemma taken_fresh t reg state name : taken t reg state name = false →
  (∀ b, b ∈ reg.(r_bundles) → b_name b ≠ name) ∧
  ∀ prefix, prefix ∈ ["package-" : pystr; "ramdisk-" : pystr; "trial-" : pystr; "bundle-work-" : pystr] → t !! sub state (prefix ++ name) = None.
Proof.
  unfold taken. intros [Hr Hd]%orb_false_iff. split.
  - intros b Hb Hn. rewrite <- not_true_iff_false, existsb_exists in Hr. apply Hr. exists b. split; [by apply list_elem_of_In | by apply bool_decide_eq_true].
  - intros prefix Hp. rewrite <- not_true_iff_false, existsb_exists in Hd. apply eq_None_not_Some. intros Hs. apply Hd. exists prefix.
    split; [by apply list_elem_of_In | by apply bool_decide_eq_true].
Qed.
Lemma bundle_name_Ok role kernel dtb day letter name : bundle_name role kernel dtb day letter = Ok name →
  role ∈ ROLES ∧ fullmatch KERNEL kernel = true ∧ fullmatch DTB dtb = true ∧ loader_name_ok name = true ∧ new_name_groups name = Some (role, kernel, dtb).
Proof.
  unfold bundle_name. intros H. guard_inv H as Hr%is_in_elem. guard_inv H as Hk. guard_inv H as Hd. guard_inv H as Hy. guard_inv H as Hl.
  guard_inv H as [_ Hload]%andb_true_iff. injection H as <-. split_and!; try done. by apply name_groups.
Qed.

Section plan.
Context (expanduser : pystr → pystr).
Context (load_build : bytes → res build_json) (load_inputs : bytes → res inputs_json)
  (load_dtbs : bytes → res dtbs_doc) (load_bundles : bytes → res bundles_doc).
Context (patch_exists : pystr → bool) (package_of : bundle_entry → option pystr).

(** What a kernel build that is taken looks like. *)
Lemma tree_sha t path h : sha t path = Ok h → ∃ data, read_bytes t path = Ok data ∧ h = sha256 data.
Proof. unfold sha. destruct (read_bytes t path) as [data|]; simpl; [| done]. intros [= <-]. by exists data. Qed.
Lemma kernel_build_Ok t kernel root copies name result image release : kernel_build load_build t kernel root copies = Ok (name, result, image, release) →
  fullmatch KERNEL kernel = true ∧ build_named (drop 1 kernel) name = true ∧ is_dir t (sub root name) = true ∧ result.(j_status) = Some ("PASS" : pystr) ∧
  (∃ data, read_bytes t (sub (sub root name) "result.json") = Ok data ∧ load_build data = Ok result) ∧
  release = result.(j_release) ∧ ∃ expected, result.(j_outputs) ≫= dget IMAGE = Some expected ∧ sha t image = Ok expected.
Proof.
  unfold kernel_build. intros H. guard_inv H as Hk. guard_inv H as Hlen. bind_inv H as n Hn. bind_inv H as data Hdata. bind_inv H as r Hr.
  guard_inv H as Hs%bool_decide_eq_true. guard_inv H as Hst. bind_inv H as u Hlabel. bind_inv H as outputs Ho. bind_inv H as expected He. bind_inv H as img Himg.
  bind_inv H as h Hh. guard_inv H as ->%bool_decide_eq_true. injection H as <- <- <- <-.
  apply of_option_Ok in Hn, Ho, He. assert (n ∈ filter (λ name, build_named (drop 1 kernel) name = true ∧ is_dir t (sub root name) = true) (children t root)) as Hin.
  { destruct (filter _ _) as [|x l]; [done |]. injection Hn as ->. by left. }
  apply list_elem_of_filter in Hin as [[Hb Hd] _]. split_and!; try done; [by exists data |]. exists expected. by rewrite Ho.
Qed.
Lemma build_named_suffix number name : build_named number name = true → endswith name ("-build-r" ++ number) = true.
Proof. unfold build_named. by intros [[_ ?]%andb_true_iff _]%andb_true_iff. Qed.

(** The pins of the inputs document that a plan was checked against. *)
Definition pin_holds (t : tree) (inputs : inputs_json) (state below key : pystr) : Prop :=
  ∃ path digest link data, dget key inputs.(i_pins) = Some (path, digest) ∧
    t !! (expanduser (py_replace "{state}" state path) ++ below) = Some (File link data) ∧ sha256 data = digest.
Lemma read_bytes_Ok t path data : read_bytes t path = Ok data → ∃ link, t !! path = Some (File link data).
Proof. unfold read_bytes. destruct (t !! path) as [[link d|]|]; [| done..]. intros [= ->]. by exists link. Qed.
Lemma plain_file t path : is_file t path = true → negb (is_symlink t path) = true → ∃ data, t !! path = Some (File false data).
Proof. unfold is_file, is_symlink. destruct (t !! path) as [[[] data|]|]; try done. by exists data. Qed.
Lemma pinned_Ok inputs key state path digest : pinned expanduser inputs key state = Ok (path, digest) →
  ∃ raw, dget key inputs.(i_pins) = Some (raw, digest) ∧ path = expanduser (py_replace "{state}" state raw).
Proof. unfold pinned. intros H. bind_inv H as [raw d] Hd. apply of_option_Ok in Hd. injection H as <- <-. by exists raw. Qed.
Lemma check_pin_Ok t inputs state key : check_pin expanduser t inputs state key = Ok () → pin_holds t inputs state [] key.
Proof.
  unfold check_pin. intros H. bind_inv H as [path digest] Hp. apply pinned_Ok in Hp as (raw & Hd & ->). guard_inv H as _. bind_inv H as h Hh.
  apply need_Ok, bool_decide_eq_true in H. subst h. apply tree_sha in Hh as (data & Hr & ->). apply read_bytes_Ok in Hr as [link Hl].
  exists raw, (sha256 data), link, data. by rewrite app_nil_r.
Qed.
Lemma check_sums_Ok t inputs state key : check_sums expanduser t inputs state key = Ok () → pin_holds t inputs state "/SHA256SUMS" key.
Proof.
  unfold check_sums. intros H. bind_inv H as [path digest] Hp. apply pinned_Ok in Hp as (raw & Hd & ->). bind_inv H as h Hh.
  apply need_Ok, bool_decide_eq_true in H. subst h. apply tree_sha in Hh as (data & Hr & ->). apply read_bytes_Ok in Hr as [link Hl].
  by exists raw, (sha256 data), link, data.
Qed.
(** The build's .config, when it is still there, is the one it recorded. *)
Lemma kernel_config_Ok t build name result config : kernel_config t build name result = Ok config →
  (∀ link data, t !! sub build "objects/.config" = Some (File link data) → dget "objects/.config" (default [] result.(j_outputs)) = Some (sha256 data)) ∧
  ∀ text, config = Some text → ∃ link, t !! sub build "objects/.config" = Some (File link text).
Proof.
  unfold kernel_config. intros H. destruct (exists_ t _) eqn:Ex; cbn [negb] in H.
  - bind_inv H as data Hd. guard_inv H as Hs%bool_decide_eq_true. bind_inv H as text Ht. injection H as <-. apply read_bytes_Ok in Hd as [link Hl].
    split; [intros l d Hd; rewrite Hl in Hd; by injection Hd as <- <- |]. intros text' [= <-]. exists link. rewrite Hl. unfold decode_utf8 in Ht.
    guard_inv Ht as _. by injection Ht as ->.
  - injection H as <-. split; [| done]. intros link data Hd. unfold exists_ in Ex. rewrite Hd in Ex. by apply bool_decide_eq_false in Ex as []; eexists.
Qed.

(** C13. A plan is a bundle that can be registered: its name is fresh, of the
    scheme and names its role, kernel and DTB; the inputs document is the one
    whose hash is recorded; the four pinned files and the two pinned
    inventories have the hashes that document gives, the kernel Image, the
    build's .config and the DTB the ones recorded for them, and the signing
    key is an absolute path of a file and no link; the kernel carries the
    patches and the settings the DTB's chain requires.  Once it is built, a
    registry that has not changed takes it and stays valid, if the build's
    release is a name the loader takes. *)
Theorem plan_registers t a p manifest changes date package source_commit notes :
  plan expanduser load_build load_inputs load_dtbs load_bundles patch_exists package_of t a = Ok p →
  fullmatch Registry.SHA manifest = true → fullmatch LOADER_NAME p.(p_release) = true →
  (∀ prefix, prefix ∈ ["package-" : pystr; "ramdisk-" : pystr; "trial-" : pystr; "bundle-work-" : pystr] → t !! sub p.(p_state) (prefix ++ p.(p_name)) = None) ∧
  (∃ link data, t !! a.(a_inputs) = Some (File link data) ∧ load_inputs data = Ok p.(p_inputs) ∧ p.(p_inputs_sha256) = sha256 data) ∧
  Forall (pin_holds t p.(p_inputs) p.(p_state) []) ["ramdisk_base" : pystr; "recovery_base" : pystr; "asus_template" : pystr; "asus_kernel" : pystr] ∧
  Forall (pin_holds t p.(p_inputs) p.(p_state) "/SHA256SUMS") ["extra_firmware" : pystr; "wifi_kit" : pystr] ∧
  (startswith p.(p_key) "/" = true ∧ ∃ data, t !! p.(p_key) = Some (File false data)) ∧
  (∃ entry, kernel_entry_of p.(p_build_name) p.(p_result) = Ok entry ∧ sha t p.(p_image) = Ok entry.(k_image_sha256)) ∧
  (∀ link data, t !! sub p.(p_build) "objects/.config" = Some (File link data) →
     dget "objects/.config" (default [] p.(p_result).(j_outputs)) = Some (sha256 data)) ∧
  sha t p.(p_dtb) = Ok p.(p_dtb_entry).(d_sha256) ∧
  (∀ q, q ∈ p.(p_patches) → q ∈ p.(p_result).(j_series)) ∧ requirements p.(p_registry) a.(a_dtb) = Ok (p.(p_patches), p.(p_kernel_config)) ∧
  (p.(p_kernel_config) ≠ [] → ∃ link text, t !! sub p.(p_build) "objects/.config" = Some (File link text) ∧
     ∀ kv, kv ∈ p.(p_kernel_config) → config_wrong (config_values text) kv = false) ∧
  ∃ entry reg', kernel_entry_of p.(p_build_name) p.(p_result) = Ok entry ∧
    register_bundle p.(p_registry) p.(p_name) a.(a_role) a.(a_kernel) a.(a_dtb) p.(p_release) manifest changes date package source_commit notes entry = Ok reg' ∧
    validate patch_exists reg' = Ok ().
Proof.
  intros H Hman Hrel. unfold plan in H. bind_inv H as reg Hreg. bind_inv H as [] Hval. bind_inv H as digests Hdig. bind_inv H as inputs_bytes Hib.
  bind_inv H as inputs Hin. guard_inv H as Hfmt. guard_inv H as Hdir. guard_inv H as Hboot. bind_inv H as [[[name result] image] release] Hb.
  bind_inv H as entry He. bind_inv H as pin Hpin. bind_inv H as [dtb_path dtb_entry] Hd. bind_inv H as config_text Hcfg.
  bind_inv H as [patches config] Hck. bind_inv H as modules Hmod. bind_inv H as bundle Hn. bind_inv H as u1 H1. bind_inv H as u2 H2. guard_inv H as Hkey.
  apply for_each_Ok in H1, H2.
  injection H as <-. simpl in *.
  apply kernel_build_Ok in Hb as (Hk & Hnamed & _ & _ & _ & -> & expected & Hexp & Hsha).
  unfold kernel_entry_of in He. rewrite Hexp in He. simpl in He. injection He as <-.
  unfold choose_name in Hn. apply first_free_Ok in Hn as (before & letter & after & _ & Hname & Hfree & _). apply taken_fresh in Hfree as [Hfresh Hpaths].
  apply bundle_name_Ok in Hname as (Hrole & _ & _ & Hload & Hgroups).
  unfold verify_dtb in Hd. bind_inv Hd as entry Hde. guard_inv Hd as Hf. bind_inv Hd as h Hh. guard_inv Hd as ->%bool_decide_eq_true. guard_inv Hd as Hff.
  bind_inv Hd as text Htext. guard_inv Hd as Heq. injection Hd as <- <-. unfold Registry.dtb in Hde. guard_inv Hde as Hmem%dmem_spec.
  apply check_kernel_complete in Hck as (Hreq & Hps & Hsettings). apply kernel_config_Ok in Hcfg as [Hcfg Hsame].
  apply read_bytes_Ok in Hib as [ilink Hib]. apply andb_true_iff in Hkey as [[Hka Hkf]%andb_true_iff Hkl].
  set (kentry := KernelEntry name expected (j_release result) (Some (series_text (j_series result))) (Some (take 10 (j_started result))) (Some [])
    (Some (take 12 (j_commit result))) (Some (j_dirty result))) in *.
  assert (kernel_entry_of name result = Ok kentry) as Hke by (unfold kernel_entry_of; by rewrite Hexp).
  split_and!; try done.
  { by exists ilink, inputs_bytes. }
  { eapply Forall_impl; [exact H1 |]. intros key. apply check_pin_Ok. }
  { eapply Forall_impl; [exact H2 |]. intros key. apply check_sums_Ok. }
  { by apply plain_file. }
  { by exists kentry. }
  { intros Hne. destruct (Hsettings Hne) as (ctext & -> & Hall). destruct (Hsame ctext eq_refl) as [link Hl]. by exists link, ctext. }
  assert (validate_kernel (a_kernel a, kentry) = Ok ()) as Hvk.
  { unfold validate_kernel. rewrite need_pass by done. rewrite need_pass by (by apply build_named_suffix).
    rewrite need_pass; [| by destruct (tree_sha _ _ _ Hsha) as (data & _ & ->); apply sha256_sha]. by apply need_Ok. }
  destruct (register_valid patch_exists reg bundle (a_role a) (a_kernel a) (a_dtb a) (j_release result) manifest changes date package source_commit notes kentry pin)
    as (reg' & Hr & Hv); try done. by exists kentry, reg'.
Qed.
End plan.

(** ** A tree to plan in *)
Definition ex_dtb : dtb_entry :=
  DtbEntry "display/board.dtb" (sha256 "dtb") "dts,display" None (Some (Requires ["0001-panel.patch" : pystr] [("CONFIG_DRM" : pystr, "y|m" : pystr)] [])) None None None.
Definition ex_registry : registry :=
  Registry (Some ("rog5-dtb-registry-v1" : pystr)) "/data" [("d10" : pystr, ex_dtb)] (Some ("rog5-bundle-registry-v1" : pystr)) [] [].
Definition ex_build : build_json :=
  BuildJson (Some ("PASS" : pystr)) [("kernel-build" : pystr, Some ("PASS" : pystr)); ("modules-install" : pystr, Some ("PASS" : pystr))]
    "7.2.7-rog5-k112" (Some ("k112" : pystr)) (Some [(IMAGE, sha256 "image"); ("objects/.config" : pystr, sha256 ("CONFIG_DRM=m" ++ [LF]))])
    ["0001-panel.patch" : pystr] "2026-07-01T10:00:00" "0123456789abcdef" false.
Definition ex_inputs : inputs_json :=
  InputsJson (Some ("rog5-bundle-inputs-v1" : pystr)) "/state" "/k" "/key"
    (map (λ key, (key, ("{state}/pin" : pystr, sha256 "pin"))) PINNED_FILES ++ map (λ key, (key, ("/fw" : pystr, sha256 "sums"))) PINNED_SUMS).
Definition ex_files : tree := list_to_map
  [("/cfg/dtbs.json" : pystr, File false "d"); ("/cfg/bundles.json" : pystr, File false "b"); ("/inputs.json" : pystr, File false "i");
   ("/state" : pystr, Dir); ("/state/pin" : pystr, File false "pin"); ("/fw/SHA256SUMS" : pystr, File false "sums"); ("/key" : pystr, File false "k");
   ("/k/rog5-kernel-7.2-build-r112" : pystr, Dir); ("/k/rog5-kernel-7.2-build-r112/result.json" : pystr, File false "r");
   ("/k/rog5-kernel-7.2-build-r112/objects/.config" : pystr, File false ("CONFIG_DRM=m" ++ [LF]));
   (("/k/rog5-kernel-7.2-build-r112/" ++ IMAGE) : pystr, File false "image");
   ("/data/display/board.dtb" : pystr, File false "dtb"); ("/data/display/features" : pystr, File false (features_text "d10" ex_dtb))].
Definition ex_args : args := Args "main" "k112" "d10" "260701" None None None None "/inputs.json" "/cfg" None.
Definition ex_patch (p : pystr) : bool := p == "0001-panel.patch".
Definition ex_plan (t : tree) : res planned :=
  plan id (λ _, Ok ex_build) (λ _, Ok ex_inputs) (λ _, Ok (dtbs_of ex_registry)) (λ _, Ok (data_of ex_registry)) ex_patch (λ _, None) t ex_args.
Example plan_first_letter : p_name <$> ex_plan ex_files = Ok ("main-k112-d10-260701a" : pystr).
Proof. vm_compute. reflexivity. Qed.
Example plan_next_letter : p_name <$> ex_plan (<[ "/state/trial-main-k112-d10-260701a" : pystr := Dir ]> ex_files) = Ok ("main-k112-d10-260701b" : pystr).
Proof. vm_compute. reflexivity. Qed.
Lemma ex_plan_release p : ex_plan ex_files = Ok p → p.(p_release) = "7.2.7-rog5-k112".
Proof.
  intros H. assert (p_release <$> ex_plan ex_files = Ok ("7.2.7-rog5-k112" : pystr)) as E by (vm_compute; reflexivity).
  rewrite H in E. by injection E.
Qed.
Lemma plan_registers_witness : ∃ p entry reg', ex_plan ex_files = Ok p ∧
  register_bundle p.(p_registry) p.(p_name) "main" "k112" "d10" p.(p_release) (replicate 64 "a"%char) "" "2026-07-01" "package-main" "0123456789ab" None entry = Ok reg' ∧ validate ex_patch reg' = Ok ().
Proof.
  destruct (ex_plan ex_files) as [p|e] eqn:E; [| pose proof plan_first_letter as F; rewrite E in F; discriminate].
  pose proof (ex_plan_release p E) as Hrel. unfold ex_plan in E.
  eapply plan_registers in E as (_ & _ & _ & _ & _ & _ & _ & _ & _ & _ & _ & entry & reg' & _ & Hr & Hv).
  - exists p, entry, reg'. split; [reflexivity |]. split; [exact Hr | exact Hv].
  - vm_compute. reflexivity.
  - rewrite Hrel. vm_compute. reflexivity.
Defined.

(** ** The package is what the kernel build made *)
Section provenance.
Context (name prefix : pystr) (provenance : dict pystr) (externals : gset pystr).
Definition is_module (item : member) : bool := endswith item.(t_name) ".ko".
Definition recorded_sha (item : member) : option pystr := dget ("modules/" ++ item.(t_name)) provenance.
Definition relative_name (item : member) : pystr := drop (length prefix) item.(t_name).
(** A module of the archive is a regular file below the prefix that has the
    recorded hash or, without a record, is one of the external modules. *)
Definition member_ok (item : member) : Prop := is_module item = true →
  item.(t_isfile) = true ∧ startswith item.(t_name) prefix = true ∧
  match recorded_sha item with Some h => sha256 item.(t_data) = h | None => relative_name item ∈ externals end.
Definition board_of (item : member) : option pystr := if is_module item then (match recorded_sha item with Some _ => Some (relative_name item) | None => None end) else None.
Definition external_of (item : member) : option pystr := if is_module item then (match recorded_sha item with Some _ => None | None => Some (relative_name item) end) else None.
Definition board (items : list member) : gset pystr := list_to_set (omap board_of items).
Definition found_externals (items : list member) : gset pystr := list_to_set (omap external_of items).

Lemma scan_member_Ok s item s' : scan_member name prefix provenance externals s item = Ok s' ↔
  item.(t_name) ∉ s.(names) ∧ member_ok item ∧
  s' = Scan (board [item] ∪ s.(verified)) (found_externals [item] ∪ s.(seen_externals)) ({[ item.(t_name) ]} ∪ s.(names)).
Proof.
  unfold scan_member, member_ok, board, found_externals, board_of, external_of. cbn [omap list_omap].
  fold (is_module item) (recorded_sha item) (relative_name item). split.
  - intros H. guard_inv H as Hn%negb_true_iff%bool_decide_eq_false. destruct (is_module item); simpl in H |- *.
    2: { injection H as <-. by rewrite !(left_id_L ∅ (∪)). }
    guard_inv H as [Hf Hp]%andb_true_iff. destruct (recorded_sha item).
    + guard_inv H as Hh%bool_decide_eq_true. injection H as <-. simpl. by rewrite !(left_id_L ∅ (∪)), (right_id_L ∅ (∪)).
    + guard_inv H as Hh%bool_decide_eq_true. injection H as <-. simpl. by rewrite !(left_id_L ∅ (∪)), (right_id_L ∅ (∪)).
  - intros (Hn & Hok & ->). rewrite need_pass by (by apply negb_true_iff, bool_decide_eq_false).
    destruct (is_module item); simpl; [| by rewrite !(left_id_L ∅ (∪))]. destruct (Hok eq_refl) as (Hf & Hp & Hm).
    rewrite need_pass by (by rewrite Hf, Hp). destruct (recorded_sha item); rewrite need_pass by (by apply bool_decide_eq_true);
      simpl; by rewrite !(left_id_L ∅ (∪)), (right_id_L ∅ (∪)).
Qed.
Lemma board_cons item items : board (item :: items) = board [item] ∪ board items.
Proof. unfold board. change (item :: items) with ([item] ++ items). by rewrite omap_app, list_to_set_app_L. Qed.
Lemma externals_cons item items : found_externals (item :: items) = found_externals [item] ∪ found_externals items.
Proof. unfold found_externals. change (item :: items) with ([item] ++ items). by rewrite omap_app, list_to_set_app_L. Qed.
Lemma scan_Ok s items s' : fold_res (scan_member name prefix provenance externals) s items = Ok s' ↔
  NoDup (map t_name items) ∧ (∀ item, item ∈ items → item.(t_name) ∉ s.(names)) ∧ Forall member_ok items ∧
  s' = Scan (board items ∪ s.(verified)) (found_externals items ∪ s.(seen_externals)) (list_to_set (map t_name items) ∪ s.(names)).
Proof.
  revert s. induction items as [|item items IH]; intros s; cbn [fold_res map].
  { unfold board, found_externals. simpl. rewrite !(left_id_L ∅ (∪)). split.
    - intros [= <-]. split_and!; [constructor | by intros ? ?%not_elem_of_nil | constructor | by destruct s].
    - intros (_ & _ & _ & ->). by destruct s. }
  rewrite bind_Ok, NoDup_cons, Forall_cons, board_cons, externals_cons. setoid_rewrite scan_member_Ok. setoid_rewrite IH. split.
  - intros (s1 & (Hn & Hok & ->) & Hnd & Hfr & Hall & ->). cbn [names verified seen_externals] in *. split_and!; try done.
    + intros (it & Hit & Hin)%list_elem_of_fmap. apply (Hfr it Hin). rewrite Hit. by apply elem_of_union_l, elem_of_singleton.
    + intros it [->|Hin]%elem_of_cons; [done |]. intros H. apply (Hfr it Hin). by apply elem_of_union_r.
    + f_equal; simpl; set_solver.
  - intros ((Hni & Hnd) & Hfr & (Hok & Hall) & ->). eexists. split; [split; [apply Hfr; by left | by split] |]. cbn [names verified seen_externals]. split_and!; try done.
    + intros it Hin [Hs%elem_of_singleton|Hs]%elem_of_union; [| apply (Hfr it); [by right | done]]. apply Hni, list_elem_of_fmap. by exists it.
    + f_equal; simpl; set_solver.
Qed.
End provenance.
Lemma add_provenance_Ok name d entries d' : NoDup d.*1 → fold_res (add_provenance name) d entries = Ok d' ↔ NoDup (d ++ entries).*1 ∧ d' = d ++ entries.
Proof.
  revert d. induction entries as [|[k v] entries IH]; intros d Hd; cbn [fold_res].
  { rewrite app_nil_r. split; [intros [= <-]; done | by intros [_ ->]]. }
  assert (add_provenance name d (k, v) = if dmem k d then Raise (Exn ValueError (name ++ ": duplicate provenance entry " ++ k)) else Ok (dset k v d)) as ->
    by (unfold add_provenance; simpl; by destruct (dmem k d)).
  destruct (dmem k d) eqn:Hm; cbn [mbind res_mbind res_bind].
  - split; [done |]. apply dmem_spec in Hm. intros [Hnd _]. rewrite fmap_app in Hnd. apply NoDup_app in Hnd as (_ & Hno & _). destruct (Hno k Hm). by left.
  - apply dmem_false in Hm. rewrite dset_fresh by done. rewrite IH by (rewrite fmap_app; by apply NoDup_snoc). by rewrite <- app_assoc.
Qed.

Section package.
Context (load_provenance : bytes → res (list (pystr * pystr))).
(** What makes a package verified: the recorded provenance, an archive without
    repeated members, every module of it recorded with its hash or an
    external module, exactly the external modules of its record, no built-in
    module recorded as loadable, the modules of the selection unless it is a
    legacy package, and every module the DTB needs. *)
Definition package_matches (t : tree) (members : res (list member)) (modules : package_json) (build release how : pystr)
    (selection : selection_json) (required : list pystr) (recorded : pystr) (items : list member) (provenance : dict pystr) : Prop :=
  let prefix := "lib/modules/" ++ release ++ "/kernel/" in
  let externals : gset pystr := list_to_set (default [] modules.(m_external_modules)) in
  let built_in := default [] modules.(m_selected_built_in) in
  (∃ data, t !! sub build "module-provenance.json" = Some (File false data) ∧ sha256 data = recorded ∧ load_provenance data = Ok provenance) ∧
  NoDup provenance.*1 ∧ members = Ok items ∧ NoDup (map t_name items) ∧ Forall (member_ok prefix provenance externals) items ∧
  externals ⊆ allowed_externals selection ∧ found_externals prefix provenance items = externals ∧ board prefix provenance items ≠ ∅ ∧
  (∀ n, n ∈ built_in → ("modules/" ++ prefix ++ n) ∉ provenance.*1) ∧
  (how ≠ "reused-unverified" → board prefix provenance items = list_to_set selection.(s_board_modules) ∖ list_to_set built_in ∧ externals = allowed_externals selection) ∧
  ∀ n, n ∈ required → n ∈ board prefix provenance items.

Lemma regular_file t path : is_file t path && negb (is_symlink t path) = true ↔ ∃ data, t !! path = Some (File false data).
Proof.
  unfold is_file, is_symlink. destruct (t !! path) as [[[] data|]|]; simpl; split; try done; try (by intros [? [=]]). intros _. by exists data.
Qed.

(** C14. A module package is verified exactly when it holds what the kernel
    build recorded of its modules; the record then counts the verified modules
    and names the external ones.  Without recorded provenance only a legacy
    package passes, and only for a DTB that needs no module. *)
Theorem package_provenance_exact t members modules build name result release how selection required r :
  package_provenance load_provenance t members modules build name result release how selection required = Ok r ↔
  match dget "module-provenance.json" (default [] result.(j_outputs)) with
  | None => how = "reused-unverified" ∧ required = [] ∧ r = unverified
  | Some recorded => ∃ items provenance, package_matches t members modules build release how selection required recorded items provenance ∧
      r = ProvenanceRecord true recorded (Z.of_nat (size (board ("lib/modules/" ++ release ++ "/kernel/") provenance items)))
            (sorted (elements (list_to_set (default [] modules.(m_external_modules)) : gset pystr))) (how != "reused-unverified")
  end.
Proof.
  unfold package_provenance. destruct (dget _ _) as [recorded|].
  2: { split.
    - intros H. guard_inv H as H1%bool_decide_eq_true. guard_inv H as H2%bool_decide_eq_true. by injection H as <-.
    - intros (-> & -> & ->). done. }
  unfold package_matches. cbv zeta. set (prefix := "lib/modules/" ++ release ++ "/kernel/"). set (externals := list_to_set (default [] (m_external_modules modules)) : gset pystr).
  set (built_in := default [] (m_selected_built_in modules)). split.
  - intros H. guard_inv H as [data Hdata]%regular_file. bind_inv H as data' Hd. unfold read_bytes in Hd. rewrite Hdata in Hd. injection Hd as <-.
    guard_inv H as Hsha%bool_decide_eq_true. bind_inv H as entries He. bind_inv H as provenance Hp. apply add_provenance_Ok in Hp as [Hnd ->]; [| constructor].
    guard_inv H as Hsub%bool_decide_eq_true. bind_inv H as items Hi. bind_inv H as s Hs. apply scan_Ok in Hs as (Hnn & _ & Hall & ->). cbn [verified seen_externals] in H.
    rewrite !(right_id_L ∅ (∪)) in H. guard_inv H as Hext%bool_decide_eq_true. guard_inv H as Hne%bool_decide_eq_true. guard_inv H as Hbi%negb_true_iff.
    bind_inv H as u Hsel. guard_inv H as Hreq%bool_decide_eq_true. rewrite filter_none in Hreq. injection H as <-. exists items, ([] ++ entries).
    split; [| done]. split_and!; try done; [by exists data | | |].
    + intros n Hn Hin. rewrite <- not_true_iff_false, existsb_exists in Hbi. apply Hbi. exists n. split; [by apply list_elem_of_In | by apply dmem_spec].
    + intros Hhow. rewrite bool_decide_eq_false_2 in Hsel by done. guard_inv Hsel as H1%bool_decide_eq_true. by apply need_Ok, bool_decide_eq_true in Hsel.
    + intros n Hn. apply dec_stable. by apply Hreq.
  - intros (items & provenance & ((data & Hdata & Hsha & He) & Hnd & Hi & Hnn & Hall & Hsub & Hext & Hne & Hbi & Hsel & Hreq) & ->).
    rewrite need_pass by (apply regular_file; by exists data). unfold read_bytes. rewrite Hdata, Ok_bind, need_pass by (by apply bool_decide_eq_true).
    rewrite He, Ok_bind. rewrite (proj2 (add_provenance_Ok name [] provenance provenance (NoDup_nil_2))) by done. rewrite Ok_bind, need_pass by (by apply bool_decide_eq_true).
    rewrite Hi, Ok_bind. rewrite (proj2 (scan_Ok name prefix provenance externals (Scan ∅ ∅ ∅) items
      (Scan (board prefix provenance items ∪ ∅) (found_externals prefix provenance items ∪ ∅) (list_to_set (map t_name items) ∪ ∅)))); [| split_and!; [done | | done | reflexivity]; intros ? _; apply not_elem_of_empty].
    rewrite Ok_bind. cbn [verified seen_externals]. rewrite !(right_id_L ∅ (∪)). rewrite need_pass by (by apply bool_decide_eq_true). rewrite need_pass by (by apply bool_decide_eq_true).
    rewrite need_pass.
    2: { apply negb_true_iff, not_true_iff_false. rewrite existsb_exists. intros (n & Hn%list_elem_of_In & Hm%dmem_spec). by apply (Hbi n). }
    assert ((if how == "reused-unverified" then Ok () else
      need (bool_decide (board prefix provenance items = list_to_set (s_board_modules selection) ∖ list_to_set built_in))
        ("module package board modules differ from the selection: missing " ++ commas (list_to_set (s_board_modules selection) ∖ list_to_set built_in ∖ board prefix provenance items) ++
         "; extra " ++ commas (board prefix provenance items ∖ (list_to_set (s_board_modules selection) ∖ list_to_set built_in))) ;;
      need (bool_decide (externals = allowed_externals selection)) "module package lacks external modules of the selection") = Ok ()) as ->.
    { case_bool_decide as Hhow; [done |]. destruct (Hsel Hhow) as [H1 H2]. rewrite need_pass by (by apply bool_decide_eq_true). apply need_Ok. by apply bool_decide_eq_true. }
    rewrite Ok_bind, need_pass by (apply bool_decide_eq_true, filter_none; intros n Hn Hno; by apply Hno, Hreq). done.
Qed.
End package.

(** ** The package that is used *)
Section used.
Context (resolve : pystr → pystr) (load_package : bytes → res package_json) (load_sources : bytes → res (option pystr)) (load_selection : bytes → res selection_json).
Lemma usable_package_Ok t directory build name image_sha256 release package result :
  usable_package resolve load_package t directory build name image_sha256 release = Ok (package, result) →
  package = sub directory "module-root-complete.tar.gz" ∧ sha t package = Ok result.(m_package_sha256) ∧ result.(m_release) = release ∧
  resolve result.(m_kernel_build) = resolve build ∧ result.(m_kernel_image_sha256) = image_sha256.
Proof.
  unfold usable_package. intros H. bind_inv H as data Hd. bind_inv H as r Hr.
  guard_inv H as [[[_ H1%bool_decide_eq_true]%andb_true_iff H2%bool_decide_eq_true]%andb_true_iff H3%bool_decide_eq_true]%andb_true_iff.
  bind_inv H as h Hh. guard_inv H as ->%bool_decide_eq_true. by injection H as <- <-.
Qed.
Lemma find_package_Ok t state kernel sources names directory : find_package load_sources t state kernel sources names = Ok (Some directory) →
  ∃ name data, name ∈ names ∧ directory = sub state name ∧ fullmatch (package_rx kernel) name = true ∧
    read_bytes t (sub directory MODULE_SOURCES) = Ok data ∧ load_sources data = Ok (Some sources).
Proof.
  induction names as [|name names IH]; simpl; [done |]. intros H.
  assert (find_package load_sources t state kernel sources names = Ok (Some directory) → ∃ name' data, name' ∈ name :: names ∧ directory = sub state name' ∧
    fullmatch (package_rx kernel) name' = true ∧ read_bytes t (sub directory MODULE_SOURCES) = Ok data ∧ load_sources data = Ok (Some sources)) as Hlater.
  { intros (n & data & Hn & Hrest)%IH. exists n, data. split; [by right | done]. }
  destruct (fullmatch _ _ && _) eqn:Hc; [| by apply Hlater]. apply andb_true_iff in Hc as [Hm _].
  bind_inv H as data Hd. bind_inv H as recorded Hr. case_bool_decide as Hs; [| by apply Hlater].
  injection H as <-. subst recorded. exists name, data. split; [by left | done].
Qed.
(** However the package came, it is one of this kernel build, and its bytes
    have the hash its record says when it is handed on; a reused one was made
    from the sources of this snapshot, unless the build is pruned. *)
Lemma module_package_used run now dump t src state kernel build name image_sha256 release fresh package result how t' :
  module_package resolve load_package load_sources load_selection run now dump t src state kernel build name image_sha256 release fresh = Ok (package, result, how, t') →
  sha t' package = Ok result.(m_package_sha256) ∧ result.(m_release) = release ∧ resolve result.(m_kernel_build) = resolve build ∧
  result.(m_kernel_image_sha256) = image_sha256 ∧
  (how = "reused" → t' = t ∧ fresh = false ∧ ∃ directory data sources, module_sources load_selection t src = Ok sources ∧
     package = sub directory "module-root-complete.tar.gz" ∧ read_bytes t (sub directory MODULE_SOURCES) = Ok data ∧ load_sources data = Ok (Some sources)) ∧
  (how = "reused-unverified" → is_dir t (sub build "objects") = false).
Proof.
  unfold module_package. intros H. bind_inv H as base Hb. bind_inv H as sources Hs. bind_inv H as found Hf.
  destruct found as [directory|].
  - bind_inv H as [p r] Hu. injection H as <- <- <- <-. apply usable_package_Ok in Hu as (Hpk & H1 & H2 & H3 & H4). split_and!; try done.
    intros _. destruct fresh; [done |]. apply find_package_Ok in Hf as (n & data & _ & -> & _ & Hd & Hl). split_and!; try done. by exists (sub state n), data, sources.
  - destruct (is_dir t (sub build "objects")) eqn:Ho; simpl in H.
    + bind_inv H as t1 Hr. bind_inv H as [p r] Hu. injection H as <- <- <- <-. set (output := if exists_ t _ then _ else _) in *.
      apply usable_package_Ok in Hu as (-> & H1 & H2 & H3 & H4). split_and!; try done.
      assert ((<[sub output MODULE_SOURCES := File false (dump sources)]> t1 : gmap pystr node) !! sub output "module-root-complete.tar.gz" = t1 !! sub output "module-root-complete.tar.gz") as E.
      { apply lookup_insert_ne. unfold sub. by intros [= Heq]%app_inv_head. }
      unfold sha, read_bytes in *. by rewrite E.
    + guard_inv H as Hd. bind_inv H as [p r] Hu. injection H as <- <- <- <-. by apply usable_package_Ok in Hu as (_ & H1 & H2 & H3 & H4).
Qed.
End used.

(** One board module and one external one; then the same archive with a
    module that is not what the build recorded. *)
Definition ex_prefix : pystr := "lib/modules/7.2.7-rog5-k112/kernel/".
Definition ex_provenance : list (pystr * pystr) := [("modules/" ++ ex_prefix ++ "drivers/panel.ko", sha256 "panel")].
Definition ex_result : build_json := BuildJson None [] [] None (Some [("module-provenance.json" : pystr, sha256 "p")]) [] [] [] false.
Definition ex_package : package_json := PackageJson [] [] [] [] [] (Some ["touch.ko" : pystr]) None.
Definition ex_check (panel : bytes) : res provenance_record :=
  package_provenance (λ _, Ok ex_provenance) {[ sub "/k" "module-provenance.json" := File false "p" ]}
    (Ok [Member (ex_prefix ++ "drivers/panel.ko") true panel; Member (ex_prefix ++ "touch.ko") true "t"]) ex_package "/k" "k" ex_result "7.2.7-rog5-k112" "new"
    (SelectionJson ["drivers/panel.ko" : pystr] [("touch" : pystr, "tools/touch" : pystr)]) ["drivers/panel.ko" : pystr].
Example provenance_kept : pr_verified <$> ex_check "panel" = Ok true.
Proof. vm_compute. reflexivity. Qed.
Example provenance_differs : ex_check "other" = Raise (Exn ValueError "module package member drivers/panel.ko differs from the k provenance").
Proof. vm_compute. reflexivity. Qed.
