(* ===== verification/TestTier.v ===== *)
(** * Selecting the test tier of a change

    scripts/host/select-repository-test-tier.py: the tier of a set of changed
    paths ([classify]), the decision about development-only tests
    ([development_decision]) and the selection for a range of commits
    ([select]).  Git is a parameter: what a command prints, or the exception
    it ends in.  Paths are UTF-8 and kept as their encoding; git prints
    revisions in ASCII, so that white space around them is ASCII too. *)

From stdpp Require Import sorting.
From S2P Require Import Prelude PyStr PyData Sha256.

Definition PROBE_ONLY : list pystr := [].
Definition PROBE_QEMU : option pystr := None.
Definition NARRATIVE_REPORT : pystr := "test-results/2026-09-05-headless-acceptance.md".
Definition OBSERVER : pystr := "read-only-observer".
Definition USERSPACE : pystr := "isolated-userspace".
(** Source, impact and test of each reviewed leaf. *)
Definition DEVELOPMENT_LEAVES : dict (pystr * pystr) :=
  [("scripts/host/source-teardown-observation.py" : pystr,
      (OBSERVER, "scripts/host/test-source-teardown-observation.py" : pystr));
   ("scripts/device/rog5-healthd.py" : pystr, (USERSPACE, "scripts/device/test-rog5-healthd.py" : pystr))].

(** [sorted(set(l))] *)
Definition sorted_set (l : list pystr) : list pystr := sorted (remove_dups l).
Definition any_in (words : list pystr) (path : pystr) : bool := existsb (λ word, contains word path) words.

Definition documentation (path : pystr) : bool :=
  is_in path ["README.md" : pystr; "ROADMAP.md" : pystr; "AGENTS.md" : pystr; "CLAUDE.md" : pystr]
  || (existsb (startswith path) ["docs/" : pystr; ".agents/skills/" : pystr; ".claude/skills/" : pystr] && endswith path ".md").
Definition narrative (path : pystr) : bool := documentation path || (path == NARRATIVE_REPORT).
Definition runtime_paths (paths : list pystr) : list pystr := filter (λ path, narrative path = false) paths.

(** ** Impact categories *)
Definition DOCUMENTATION : pystr := "documentation".
Definition TRUST : pystr := "trust-admission".
Definition CRITICAL : pystr := "critical-runtime".
Definition MODULE : pystr := "kernel-module".
Definition KERNEL_ABI : pystr := "kernel-or-ABI".
Definition UNKNOWN : pystr := "unknown-dependency".
Definition category (path : pystr) : pystr :=
  if narrative path then DOCUMENTATION
  else match dget path DEVELOPMENT_LEAVES with
  | Some leaf => leaf.1
  | None =>
      if any_in ["admission" : pystr; "signing" : pystr; "claim" : pystr; "registry" : pystr] path then TRUST
      else if startswith path "initramfs/" then "initramfs"
      else if startswith path "dts/" || existsb (endswith path) [".dts" : pystr; ".dtso" : pystr; ".dtb" : pystr] then "device-tree"
      else if any_in ["charging" : pystr; "shutdown" : pystr; "watchdog" : pystr; "storage" : pystr; "recovery" : pystr;
                      "cpu-frequency-cap" : pystr; "headless-cpu-policy" : pystr; "power-profile" : pystr] path then CRITICAL
      else if contains "/module" path || endswith path ".ko" then MODULE
      else if existsb (startswith path) ["patches/" : pystr; "configs/kernel/" : pystr] || contains "kernel" path then KERNEL_ABI
      else UNKNOWN
  end.
Definition impact_categories (paths : list pystr) : list pystr := sorted_set (map category paths).

(** ** The development decision *)
Record decision := Decision_ {
  changed : list pystr; impact : pystr; categories : list pystr; eligible : bool; tier : pystr;
  focused_tests : list pystr; optimized_tests : list pystr; remote_ci_before_experiment : bool;
  exact_target_required : bool; service_experiment_required : bool; final_composition_required : bool;
  module_ABI_BTF_closure_required : bool; all_admission_consumers_required : bool;
  experiment_scope : pystr; reason : pystr
}.
Definition LEAF_SCOPE : pystr :=
  "dedicated /run/rog5-dev-experiments directory; no accepted service/config replacement; read-only observation or isolated loopback service only; no boot/power/storage/recovery changes".
(** [{path: value for source, value in ... for path in (source, value[1])}] *)
Definition leaves : dict (pystr * pystr) :=
  foldl (λ d item, dset item.2.2 item.2 (dset item.1 item.2 d)) [] DEVELOPMENT_LEAVES.
Definition leaf_values (runtime : list pystr) : list (pystr * pystr) := omap (λ path, dget path leaves) runtime.
Definition TRUST_TESTS : list pystr :=
  ["scripts/host/test-production-ram-trial.py" : pystr; "scripts/host/test-install-default-kernel.py" : pystr].

Definition development_decision (paths : list pystr) : decision :=
  let changed := sorted_set paths in
  let runtime := runtime_paths changed in
  let covered := (changed != []) && forallb (λ path, dmem path leaves) runtime in
  let service := is_in USERSPACE (map fst (leaf_values runtime)) in
  let impact := if runtime == [] then DOCUMENTATION else if service then USERSPACE else OBSERVER in
  let impact := if covered then impact else "critical-or-unknown-dependency" in
  let focused := sorted_set (map snd (leaf_values runtime)) in
  let categories := impact_categories changed in
  let focused := if is_in TRUST categories then sorted_set (focused ++ TRUST_TESTS) else focused in
  Decision_ changed impact categories covered (if covered then "active" else "ci") focused focused (negb covered)
    (runtime != []) service (runtime != []) (is_in MODULE categories || is_in KERNEL_ABI categories) (is_in TRUST categories)
    (if covered then LEAF_SCOPE else "none")
    (if covered then "reviewed leaves only; all other changed dependencies fail broad"
     else "empty changes or dependency outside demonstrated isolated coverage").

(** ** The tier *)
Definition ACTIVE : pystr * pystr := ("active" : pystr, "no" : pystr).
Definition CI : pystr * pystr := ("ci" : pystr, "yes" : pystr).
Definition classify (paths : list pystr) : pystr * pystr :=
  let normalized := sorted_set (filter (λ path, path ≠ []) paths) in
  if normalized == [] then CI
  else
    let runtime := runtime_paths normalized in
    if runtime == [] then ACTIVE
    else if (PROBE_ONLY != []) && forallb (λ path, is_in path PROBE_ONLY) runtime then
      ("probe" : pystr, if existsb (λ path, bool_decide (Some path = PROBE_QEMU)) runtime then "yes" : pystr else "no" : pystr)
    else CI.

Section selection.
Context (git : list pystr → res bytes).

Definition commit (revision : pystr) : res pystr :=
  out ← git ["rev-parse" : pystr; "--verify" : pystr; "--end-of-options" : pystr; revision ++ "^{commit}"];
  text ← decode_utf8 out;
  Ok (strip text).
Definition resolve (revision : pystr) : res pystr :=
  refuse_if (forallb (λ c, c == "0"%char) revision) ValueError "missing or zero revision" ;;
  commit revision.
Definition changed_paths (base head : pystr) (merge_base : bool) : res (list pystr) :=
  base ← resolve base;
  head ← resolve head;
  base ← (if merge_base then
            out ← git ["merge-base" : pystr; "--all" : pystr; base; head];
            text ← decode_utf8 out;
            match splitlines text with [b] => Ok b | _ => Raise (Exn ValueError "no unique merge base") end
          else Ok base);
  result ← git ["diff" : pystr; "--no-ext-diff" : pystr; "--no-textconv" : pystr; "--no-renames" : pystr;
                "--name-only" : pystr; "-z" : pystr; base; head; "--" : pystr];
  Ok (filter (λ item, item ≠ []) (split_on "000"%char result)).

(** What [except (CalledProcessError, OSError, ValueError)] takes. *)
Definition unavailable (c : exn_class) : bool :=
  is_oserror c || match c with ValueError | UnicodeError | SubprocessError => true | _ => false end.
Definition PUSH_EVENTS : list pystr := ["push" : pystr; "pull_request" : pystr; "merge" : pystr].
Definition select (base head event : pystr) : res (pystr * pystr) :=
  if is_in event ["schedule" : pystr; "workflow_dispatch" : pystr] then Ok ("nightly" : pystr, "yes" : pystr)
  else if negb (is_in event PUSH_EVENTS) then Ok CI
  else
    match changed_paths base head (event == "pull_request") with
    | Ok paths => Ok (classify paths)
    | Raise e => if unavailable e.(exn_cls) then Ok CI else Raise e
    end.

(** [main] with [--development]: the decision, and what it was made from. *)
Record identities := Identities { base_revision : pystr; head_revision : pystr; head_tree : pystr; selector_sha256 : pystr }.
Definition unsupported (d : decision) : decision :=
  Decision_ d.(changed) d.(impact) d.(categories) false "ci" d.(focused_tests) d.(optimized_tests) true
    d.(exact_target_required) d.(service_experiment_required) d.(final_composition_required)
    d.(module_ABI_BTF_closure_required) d.(all_admission_consumers_required) "none" "unsupported development event".
Definition because (reason : pystr) (d : decision) : decision :=
  Decision_ d.(changed) d.(impact) d.(categories) d.(eligible) d.(tier) d.(focused_tests) d.(optimized_tests)
    d.(remote_ci_before_experiment) d.(exact_target_required) d.(service_experiment_required) d.(final_composition_required)
    d.(module_ABI_BTF_closure_required) d.(all_admission_consumers_required) d.(experiment_scope) reason.
Context (selector : bytes) (type_name : exn → pystr).
Definition development_body (base head event : pystr) : res (decision * option identities) :=
  paths ← changed_paths base head (event == "pull_request");
  base_revision ← commit base;
  head_revision ← commit head;
  out ← git ["rev-parse" : pystr; head_revision ++ "^{tree}"];
  text ← decode_utf8 out;
  let result := development_decision paths in
  Ok (if is_in event PUSH_EVENTS then result else unsupported result,
      Some (Identities base_revision head_revision (strip text) (sha256 selector))).
Definition development (base head event : pystr) : res (decision * option identities) :=
  match development_body base head event with
  | Ok answer => Ok answer
  | Raise e => if unavailable e.(exn_cls) then Ok (because ("revision resolution failed: " ++ type_name e) (development_decision []), None) else Raise e
  end.

End selection.

(** ** Sets of paths *)
Lemma sorted_set_elem x l : x ∈ sorted_set l ↔ x ∈ l.
Proof. unfold sorted_set, sorted. by rewrite (merge_sort_Permutation pystr_le (remove_dups l)), elem_of_remove_dups. Qed.
Lemma sorted_set_nil l : sorted_set l = [] ↔ l = [].
Proof.
  split; [| by intros ->]. intros H. destruct l as [|x l]; [done |].
  assert (x ∈ sorted_set (x :: l)) as Hx by (apply sorted_set_elem; by left). rewrite H in Hx. by apply not_elem_of_nil in Hx.
Qed.
Lemma sorted_set_ext l1 l2 : (∀ x, x ∈ l1 ↔ x ∈ l2) → sorted_set l1 = sorted_set l2.
Proof.
  intros H. apply sorted_eq, NoDup_Permutation; [apply NoDup_remove_dups .. |]. intros x. by rewrite !elem_of_remove_dups.
Qed.
Definition prose (paths : list pystr) : Prop := (∃ p, p ∈ paths ∧ p ≠ []) ∧ ∀ p, p ∈ paths → p ≠ [] → narrative p = true.
Lemma classify_exact paths : (classify paths = ACTIVE ↔ prose paths) ∧ (classify paths = CI ↔ ¬ prose paths).
Proof.
  unfold classify, prose. set (given := filter (λ p, p ≠ []) paths).
  assert (∀ p, p ∈ given ↔ p ≠ [] ∧ p ∈ paths) as Hg by (intros p; subst given; by rewrite list_elem_of_filter).
  case_bool_decide as Hn.
  - apply (sorted_set_nil given) in Hn. rewrite Hn in Hg.
    assert (¬ ((∃ p, p ∈ paths ∧ p ≠ []) ∧ ∀ p, p ∈ paths → p ≠ [] → narrative p = true)) as Hnp.
    { intros [(p & Hp & Hne) _]. assert (p ∈ ([] : list pystr)) as Hin by (by apply Hg). by apply not_elem_of_nil in Hin. }
    split; [split; [done | tauto] | done].
  - destruct given as [|p0 given'] eqn:Eg; [by destruct Hn |].
    assert (∃ p, p ∈ paths ∧ p ≠ []) as Hex by (exists p0; destruct (proj1 (Hg p0)); [by left | done]). rewrite <-Eg in *.
    assert (runtime_paths (sorted_set given) = [] ↔ ∀ p, p ∈ paths → p ≠ [] → narrative p = true) as Hr.
    { unfold runtime_paths. rewrite filter_none. setoid_rewrite sorted_set_elem. setoid_rewrite Hg. setoid_rewrite not_false_iff_true. naive_solver. }
    case_bool_decide as Hd; simpl.
    + pose proof (proj1 Hr Hd) as Hall. split; [by split |]. split; [done |]. intros Hnp. by destruct Hnp.
    + assert (¬ ∀ p, p ∈ paths → p ≠ [] → narrative p = true) as Hd2 by (intros Hall; by apply Hd, Hr). split; [split; [done | by intros []] |].
      split; [by intros _ [] | done].
Qed.

Lemma classify_or paths : classify paths = ACTIVE ∨ classify paths = CI.
Proof.
  destruct (classify_exact paths) as [Ha Hc]. unfold classify in *. case_bool_decide; [by right |]. case_bool_decide; [by left | by right].
Qed.
Lemma is_in_false x l : is_in x l = false ↔ x ∉ l.
Proof. by rewrite <-is_in_elem, not_true_iff_false. Qed.

Definition NIGHTLY_EVENTS : list pystr := ["schedule" : pystr; "workflow_dispatch" : pystr].
Definition NIGHTLY : pystr * pystr := ("nightly" : pystr, "yes" : pystr).

(** C34. The selection skips the full tier only for a push, pull request or
    merge whose changed paths git could list, are not empty and are all prose;
    a scheduled run is nightly, and whatever git refuses, the full tier runs. *)
Theorem select_exact git (base head event : pystr) :
  let outcome := changed_paths git base head (event == "pull_request") in
  (select git base head event = Ok ACTIVE ↔ event ∈ PUSH_EVENTS ∧ ∃ paths, outcome = Ok paths ∧ prose paths) ∧
  (select git base head event = Ok NIGHTLY ↔ event ∈ NIGHTLY_EVENTS) ∧
  match select git base head event with
  | Ok r => r = ACTIVE ∨ r = CI ∨ r = NIGHTLY
  | Raise e => outcome = Raise e ∧ unavailable e.(exn_cls) = false
  end.
Proof.
  intros outcome. unfold select. fold outcome. fold NIGHTLY_EVENTS. fold NIGHTLY.
  destruct (is_in event NIGHTLY_EVENTS) eqn:E1; [apply is_in_elem in E1 | apply is_in_false in E1].
  { split_and!; [| done | tauto]. split; [done |]. intros [Hp _]. exfalso. unfold PUSH_EVENTS, NIGHTLY_EVENTS in *. set_solver. }
  destruct (is_in event PUSH_EVENTS) eqn:E2; [apply is_in_elem in E2 | apply is_in_false in E2]; simpl.
  2: { split_and!; [split; [done | by intros []] | done | tauto]. }
  destruct outcome as [paths|e].
  - destruct (classify_exact paths) as [Ha _]. split_and!.
    + split; [intros [= Hp]; apply Ha in Hp; eauto | intros (_ & ? & [= <-] & Hp%Ha); by rewrite Hp].
    + split; [| done]. by destruct (classify_or paths) as [-> | ->].
    + destruct (classify_or paths); tauto.
  - destruct (unavailable (exn_cls e)) eqn:Eu; (split; [split; [done | by intros (_ & ? & ? & _)] | split; [done | tauto]]).
Qed.

(** ** What the development decision promises *)
Definition leaf (path : pystr) : bool := dmem path leaves.
Definition harmless : list pystr := [DOCUMENTATION; OBSERVER; USERSPACE; UNKNOWN].
Lemma leaf_categories : Forall (λ path, category path ∈ harmless) leaves.*1.
Proof. apply (bool_decide_unpack _). vm_compute. exact I. Qed.
Lemma leaf_category path : leaf path = true → category path ∈ harmless.
Proof. intros H%dmem_spec. pose proof leaf_categories as Hl. rewrite Forall_forall in Hl. by apply Hl. Qed.
Lemma categories_spec paths c : c ∈ impact_categories paths ↔ ∃ path, path ∈ paths ∧ c = category path.
Proof.
  unfold impact_categories. rewrite sorted_set_elem, list_elem_of_In, in_map_iff. setoid_rewrite <-list_elem_of_In. naive_solver.
Qed.

Definition reviewed (path : pystr) : Prop := narrative path = true ∨ leaf path = true.
Lemma reviewed_category path : reviewed path → category path ∈ harmless.
Proof. intros [H|H]; [unfold category; rewrite H; by left | by apply leaf_category]. Qed.

Section decision_facts.
Context (paths : list pystr).
Let runtime : list pystr := runtime_paths (sorted_set paths).

Lemma runtime_elem p : p ∈ runtime ↔ narrative p = false ∧ p ∈ paths.
Proof. unfold runtime, runtime_paths. by rewrite list_elem_of_filter, sorted_set_elem. Qed.
Lemma eligible_reviewed : (development_decision paths).(eligible) = true ↔ paths ≠ [] ∧ ∀ path, path ∈ paths → reviewed path.
Proof.
  unfold development_decision. cbn [eligible]. fold runtime. rewrite andb_true_iff, negb_true_iff, bool_decide_eq_false.
  rewrite sorted_set_nil, forallb_Forall, Forall_forall. setoid_rewrite runtime_elem. unfold reviewed, leaf.
  split; intros [Hne H]; (split; [done |]); intros p.
  - intros Hp. destruct (narrative p) eqn:En; [by left | right; by apply H].
  - intros [En Hp]. destruct (H p Hp) as [?|?]; [congruence | done].
Qed.
Lemma target_required : (development_decision paths).(exact_target_required) = existsb (λ path, negb (narrative path)) paths.
Proof.
  unfold development_decision. cbn [exact_target_required]. fold runtime. destruct (existsb _ paths) eqn:E.
  - apply existsb_elem_of in E as (p & Hp & En%negb_true_iff). apply negb_true_iff, bool_decide_eq_false. intros Hn.
    assert (p ∈ runtime) as Hin by (by apply runtime_elem). rewrite Hn in Hin. by apply not_elem_of_nil in Hin.
  - apply negb_false_iff, bool_decide_eq_true. apply existsb_false in E. rewrite Forall_forall in E. unfold runtime, runtime_paths.
    apply filter_none. intros p Hp. rewrite sorted_set_elem in Hp. rewrite (proj1 (negb_false_iff _) (E p Hp)). done.
Qed.
Lemma focused_leaves test : is_in TRUST (development_decision paths).(categories) = false →
  test ∈ (development_decision paths).(focused_tests) ↔
  ∃ path value, path ∈ paths ∧ narrative path = false ∧ dget path leaves = Some value ∧ test = value.2.
Proof.
  unfold development_decision. cbn [categories focused_tests]. intros Ht. rewrite Ht.
  rewrite sorted_set_elem, list_elem_of_In, in_map_iff. setoid_rewrite <-list_elem_of_In. unfold leaf_values.
  setoid_rewrite list_elem_of_omap. fold runtime. setoid_rewrite runtime_elem. naive_solver.
Qed.
End decision_facts.

(** A development decision is eligible exactly for a non-empty set of
    prose and reviewed leaves, in any order and with any repetitions.  Then
    no kernel, module, runtime or trust category is among its impacts, the
    tests it names are those of the leaves that changed, and only prose needs
    no target; else it asks for remote CI and the full tier. *)
Theorem development_decision_exact paths :
  let d := development_decision paths in
  (d.(eligible) = true ↔ paths ≠ [] ∧ ∀ path, path ∈ paths → reviewed path) ∧
  (d.(eligible) = true → d.(categories) ⊆ harmless ∧ d.(module_ABI_BTF_closure_required) = false ∧
     d.(all_admission_consumers_required) = false ∧
     ∀ test, test ∈ d.(focused_tests) ↔ ∃ path value, path ∈ paths ∧ narrative path = false ∧ dget path leaves = Some value ∧ test = value.2) ∧
  d.(exact_target_required) = existsb (λ path, negb (narrative path)) paths ∧
  d.(tier) = (if d.(eligible) then "active" else "ci") ∧ d.(remote_ci_before_experiment) = negb d.(eligible) ∧
  ∀ paths', (∀ path, path ∈ paths ↔ path ∈ paths') → development_decision paths' = d.
Proof.
  intros d. split; [apply eligible_reviewed |]. split; [| split; [apply target_required |]].
  - intros [_ Hrev]%eligible_reviewed.
    assert (d.(categories) ⊆ harmless) as Hcat by (intros c (p & Hp & ->)%categories_spec; rewrite sorted_set_elem in Hp; by apply reviewed_category, Hrev).
    assert (∀ c, c ∉ harmless → is_in c d.(categories) = false) as Hno by (intros c Hn; apply is_in_false; intros Hin; by apply Hn, Hcat).
    assert (is_in TRUST d.(categories) = false) as Ht by (apply Hno; apply (bool_decide_unpack _); vm_compute; exact I).
    split; [exact Hcat |]. split; [| split; [exact Ht | intros test; by apply focused_leaves]].
    change (is_in MODULE d.(categories) || is_in KERNEL_ABI d.(categories) = false). apply orb_false_iff.
    split; apply Hno; apply (bool_decide_unpack _); vm_compute; exact I.
  - split; [done |]. split; [done |]. intros paths' Hp. unfold d, development_decision.
    by rewrite (sorted_set_ext paths' paths) by (intros; by rewrite Hp).
Qed.

(** [main]: an answer is eligible only for a push, pull request or merge whose
    revisions git resolved, whose changed paths are reviewed, and it names
    them; an event of another kind, or a failure, is told to run remote CI. *)
Lemma development_eligible git selector type_name base head event d ids :
  development git selector type_name base head event = Ok (d, ids) →
  (d.(eligible) = true ↔ event ∈ PUSH_EVENTS ∧ is_Some ids ∧
     ∃ paths, changed_paths git base head (event == "pull_request") = Ok paths ∧ paths ≠ [] ∧ ∀ path, path ∈ paths → reviewed path) ∧
  d.(remote_ci_before_experiment) = negb d.(eligible) ∧ (ids = None → d.(changed) = []).
Proof.
  unfold development. destruct (development_body _ _ _ _ _) as [a|e] eqn:Hb.
  - intros [= ->]. unfold development_body in Hb. destruct (is_in event PUSH_EVENTS) eqn:Ein; bind_inv Hb as paths Hpaths; bind_inv Hb as b1 _;
      bind_inv Hb as b2 _; bind_inv Hb as b3 _; bind_inv Hb as b4 _; injection Hb as <- <-; [apply is_in_elem in Ein | apply is_in_false in Ein].
    + split; [| split; [reflexivity | done]]. rewrite eligible_reviewed. split; [by intros [? ?]; eauto 10 |].
      intros (_ & _ & ps & Hps & Hrev). rewrite Hpaths in Hps. by injection Hps as <-.
    + split; [| split; [done | done]]. split; [done | by intros []].
  - destruct (unavailable _); [| done]. intros [= <- <-]. split; [| done]. split; [done | by intros (_ & [? ?] & _)].
Qed.
