(* ===== verification/TestReport.v ===== *)
(** * Running the repository's tests and reporting

    scripts/host/repository-test-report.py: the manifest of the tests
    ([entries]), running one test under its deadline ([execute]), reading what
    it printed ([classify_output]), recording the result ([run]) and the
    verdict over all ([summarize]).  The operating system is a parameter; the
    rows have the types of configs/repository-tests.json; the XML rendering
    and printing are left out.  Lines are decoded text with code points below
    256. *)

From S2P Require Import Prelude PyStr PyData Sha256.

Definition STATUSES : list pystr := ["PASS" : pystr; "FAIL" : pystr; "BLOCKED" : pystr; "SKIPPED" : pystr; "NOT_SELECTED" : pystr].

(** ** The manifest *)
Record subcheck := Subcheck {
  s_keys : list pystr; s_id : pystr; s_kind : pystr; s_message : pystr; s_scope : pystr; s_reason : pystr;
  s_inputs : list pystr; s_test_ids : list pystr
}.
Record row := Row {
  keys : list pystr; path : pystr; interpreter : pystr; tiers : list pystr; mandatory : bool; deadline_seconds : Z;
  prerequisites : list pystr; resource_class : pystr; exclusivity_group : pystr; python_optimized : bool;
  exact_source : bool; required_inputs : list pystr; optional_subchecks : list subcheck
}.
Definition REQUIRED : list pystr :=
  ["path" : pystr; "interpreter" : pystr; "tiers" : pystr; "mandatory" : pystr; "deadline_seconds" : pystr;
   "prerequisites" : pystr; "resource_class" : pystr; "exclusivity_group" : pystr; "python_optimized" : pystr;
   "exact_source" : pystr; "required_inputs" : pystr].
Definition SUBCHECK_KEYS : list pystr :=
  ["id" : pystr; "kind" : pystr; "message" : pystr; "scope" : pystr; "reason" : pystr; "inputs" : pystr; "test_ids" : pystr].
Definition subset (a b : list pystr) : bool := forallb (λ x, is_in x b) a.

Definition check_subcheck (mandatory : bool) (ids : list pystr) (item : subcheck) : res (list pystr) :=
  refuse_if (negb (subset item.(s_keys) SUBCHECK_KEYS && subset SUBCHECK_KEYS item.(s_keys))) ValueError "invalid optional-subcheck declaration" ;;
  refuse_if (is_in item.(s_id) ids || (item.(s_reason) == []) || (item.(s_inputs) == []) || (item.(s_message) == []))
    ValueError "optional subcheck needs unique identity, reason and inputs" ;;
  refuse_if (negb (is_in item.(s_kind) ["line" : pystr; "unittest" : pystr]) || negb (is_in item.(s_scope) ["subcheck" : pystr; "whole_test" : pystr]))
    ValueError "invalid optional-subcheck matcher or scope" ;;
  refuse_if ((item.(s_kind) == "unittest") && (item.(s_test_ids) == [])) ValueError "unittest skips require exact test identities" ;;
  refuse_if ((item.(s_scope) == "whole_test") && mandatory) ValueError "whole optional suite cannot be mandatory" ;;
  Ok (item.(s_id) :: ids).
Definition check_row (paths : list pystr) (r : row) : res (list pystr) :=
  refuse_if (negb (subset REQUIRED r.(keys)) || negb (subset r.(keys) (("optional_subchecks" : pystr) :: REQUIRED)) || is_in r.(path) paths)
    ValueError "invalid or duplicate manifest entry" ;;
  refuse_if ((r.(deadline_seconds) <=? 0) || (3600 <? r.(deadline_seconds))) ValueError "invalid deadline" ;;
  refuse_if ((r.(resource_class) != "isolated") && (r.(exclusivity_group) != "repository")) ValueError "resource-sensitive tests must serialize" ;;
  fold_res (check_subcheck r.(mandatory)) [] r.(optional_subchecks) ;;
  Ok (r.(path) :: paths).
Definition entries (rows : list row) : res (list row) := fold_res check_row [] rows ;; Ok rows.

(** ** What a test printed *)
Definition SECTION_MARKS : list pystr :=
  ["PASS applicability:" : pystr; "PASS compilation:" : pystr; "PASS behavioral:" : pystr; "NOT RUN " : pystr; "BLOCKED " : pystr;
   "SKIP " : pystr; "SKIP:" : pystr; "SKIPPED " : pystr].
Definition SKIP_MARKS : list pystr := ["SKIP " : pystr; "SKIP:" : pystr; "SKIPPED " : pystr].
Definition starts_any (marks : list pystr) (text : pystr) : bool := existsb (startswith text) marks.
Fixpoint take_while (p : ascii → bool) (s : pystr) : pystr :=
  match s with [] => [] | c :: s => if p c then c :: take_while p s else [] end.
(** What follows the first occurrence of [w]. *)
Fixpoint after_first (w s : pystr) : option pystr :=
  match s with
  | [] => if startswith [] w then Some [] else None
  | c :: s' => if startswith s w then Some (drop (length w) s) else after_first w s'
  end.
Definition SKIPPED_MARK : pystr := "... skipped ".

(** [re.match(r'^(\S+) \(([^)]+)\).*?\.\.\. skipped (.+)$', text)], the groups. *)
Definition skipped_groups (text : pystr) : option (pystr * pystr * pystr) :=
  let method := take_while (λ c, negb (is_space c)) text in
  let rest := drop (length method) text in
  if (method == []) || negb (startswith rest " (") then None
  else match partition ")" (drop 2 rest) with
  | (identity, true, tail) =>
      if (identity == []) || has_char LF tail then None
      else match after_first SKIPPED_MARK tail with
           | Some (c :: encoded) => Some (method, identity, c :: encoded)
           | _ => None
           end
  | _ => None
  end.
(** The number in a line such as [OK (skipped=3)] or [FAILED (errors=1, skipped=3)]. *)
Fixpoint skipped_count (s : pystr) : option Z :=
  match s with
  | [] => None
  | _ :: s' =>
      let digits := take_while is_digit (drop 8 s) in
      let rest := drop (8 + length digits) s in
      if startswith s "skipped=" && (digits != []) && ((rest == []) || starts_any ["," : pystr; ")" : pystr] rest)
      then Some (int10 digits) else skipped_count s'
  end.
Definition summary_skips (text : pystr) : Z :=
  if starts_any ["OK (" : pystr; "FAILED (" : pystr] text && negb (has_char LF text) then
    default 0 (skipped_count (drop (if startswith text "OK (" then 4 else 8) text))
  else 0.
(** [re.match(r'^Ran (\d+) tests? in ', text)] *)
Definition ran_count (text : pystr) : Z :=
  let digits := take_while is_digit (drop 4 text) in
  let rest := drop (4 + length digits) text in
  if startswith text "Ran " && (digits != []) && starts_any [" test in " : pystr; " tests in " : pystr] rest then int10 digits else 0.

Record skip := Skip { k_kind : pystr; k_message : pystr; k_test_id : option pystr; k_count : Z; k_declaration : option subcheck }.
Definition declared_optional (k : skip) : bool := bool_decide (is_Some k.(k_declaration)).
Record tally := Tally { sections : list pystr; skips : list skip; reported_skips : Z; ran_tests : Z }.

Section output.
(** [ast.literal_eval]: the string it gives, if it gives one. *)
Context (literal_eval : pystr → option pystr).

Definition declares (kind message : pystr) (test_id : option pystr) (item : subcheck) : bool :=
  (item.(s_kind) == kind) && (item.(s_message) == message)
  && ((kind == "line") || match test_id with Some t => is_in t item.(s_test_ids) | None => false end).
Definition declaration_of (r : row) (kind message : pystr) (test_id : option pystr) : option subcheck :=
  match filter (λ item, declares kind message test_id item = true) r.(optional_subchecks) with
  | [item] => Some item
  | _ => None
  end.
Definition event_of (text : pystr) : option (pystr * pystr * option pystr) :=
  match skipped_groups text with
  | Some (method, identity, encoded) =>
      let identity := if startswith identity "__main__." then drop 9 identity else identity in
      let identity := if endswith identity ("." ++ method) then identity else identity ++ "." ++ method in
      Some ("unittest" : pystr, default text (literal_eval encoded), Some identity)
  | None => if starts_any SKIP_MARKS text then Some ("line" : pystr, text, None) else None
  end.
Definition read_line (r : row) (t : tally) (line : pystr) : tally :=
  let text := strip line in
  Tally
    (t.(sections) ++ (if starts_any SECTION_MARKS text then [text] else []) ++ match skipped_groups text with Some _ => [text] | None => [] end)
    (t.(skips) ++ match event_of text with
                  | Some (kind, message, test_id) => [Skip kind message test_id 1 (declaration_of r kind message test_id)]
                  | None => []
                  end)
    (t.(reported_skips) + summary_skips text) (t.(ran_tests) + ran_count text).

Record result := Result {
  r_path : pystr; r_status : pystr; r_reason : pystr; r_sections : list pystr; r_subchecks : list skip; r_optional_suite_skip : bool
}.
Definition detailed (t : tally) : Z := len (filter (λ k, k_kind k = "unittest") t.(skips)).
Definition unidentified (t : tally) : list skip :=
  if detailed t <? t.(reported_skips) then
    [Skip "unittest-summary" (str_of_Z (t.(reported_skips) - detailed t) ++ " unidentified unittest skips") None
       (t.(reported_skips) - detailed t) None]
  else [].
Definition is_whole (k : skip) : bool :=
  match k.(k_declaration) with Some d => d.(s_scope) == "whole_test" | None => false end.
Definition classify_output (r : row) (x : result) (lines : list pystr) : result :=
  let t := foldl (read_line r) (Tally [] [] 0 0) lines in
  let skips := t.(skips) ++ unidentified t in
  let x := Result x.(r_path) x.(r_status) x.(r_reason) t.(sections) skips false in
  if x.(r_status) != "PASS" then x
  else if existsb (λ line, startswith line "BLOCKED ") t.(sections) then
    Result x.(r_path) "BLOCKED" "test reported BLOCKED" t.(sections) skips false
  else
    let whole := existsb is_whole skips in
    let unknown := existsb (λ k, negb (declared_optional k)) skips in
    let all_unittest_skipped := (0 <? t.(ran_tests)) && (t.(ran_tests) <=? Z.max t.(reported_skips) (detailed t)) in
    if unknown || whole || all_unittest_skipped then
      Result x.(r_path) "SKIPPED" (if unknown then "undeclared/mandatory skip" else "whole test skipped") t.(sections) skips
        (negb r.(mandatory) && negb unknown && whole)
    else x.
End output.

(** ** Running one test *)
Section run.
Context {W : Type}.
(** A call may be interrupted by a signal: the handler raises
    [InterruptedError], except during the cleanup, where [pending] is the last
    signal that came.  [waitid] gives nothing yet, or whether the child exited
    and its status; [killpg] tells whether the group still existed. *)
Context (processes : M W (list pystr)) (stat_text : pystr → M W pystr).
Context (waitid : M W (option (bool * Z))) (monotonic : M W Z) (sleep : Z → M W unit).
Context (set_handlers restore_handlers : M W unit) (killpg : bool → M W bool) (wait_child : M W unit) (pending : M W (option Z)).
Context (child : Z).

(** The kernel prints plain decimals. *)
Definition int_text (s : pystr) : res Z :=
  refuse_if (negb (isdecimal s)) ValueError "invalid literal for int()" ;; Ok (int10 s).
Definition stat_fields (text : pystr) : res (list pystr) :=
  match reverse (split_on ")" text) with
  | _ :: [] => Raise (Exn IndexError "list index out of range")
  | tail :: _ => Ok (split_ws tail)
  | [] => Raise (Exn IndexError "list index out of range")
  end.
Definition is_member (name text : pystr) : res bool :=
  fields ← stat_fields text;
  field2 ← of_option (fields !! 2%nat) IndexError "list index out of range";
  group ← int_text field2;
  if negb (group =? child) then Ok false
  else
    pid ← int_text name;
    if pid =? child then Ok false
    else field0 ← of_option (head fields) IndexError "list index out of range"; Ok (field0 != ("Z" : pystr)).
Definition ignored (c : exn_class) : bool := is_oserror c || match c with ValueError | IndexError => true | _ => false end.
Definition member_step (found : list Z) (name : pystr) : M W (list Z) :=
  if negb (isdecimal name) then mret found
  else catch (text ← stat_text name; here ← lift (is_member name text); mret (if (here : bool) then found ++ [int10 name] else found))
         ignored (λ _, mret found).
Definition members : M W (list Z) := names ← processes; fold_m member_step [] names.

Abbreviation proc := (M (pystr * pystr * W)).
Definition sys {B} (m : M W B) : proc B := λ '(v, w), let '(r, w') := m w in (r, (v, w')).
Definition assign (status reason : pystr) : proc unit := λ '(v, w), (Ok (), ((status, reason), w)).
Definition set_reason (reason : pystr) : proc unit := λ '(v, w), (Ok (), ((v.1, reason), w)).

(** Nanoseconds. *)
Definition SECOND : Z := 1000000000.
Definition POLL : Z := 20000000.
Definition execute_round (started deadline : Z) (_ : unit) : proc (unit + unit) :=
  result ← sys waitid;
  match result with
  | Some (exited, code) =>
      assign (if exited && (code =? 0) then "PASS" else "FAIL") ("exit " ++ str_of_Z code) ;;
      group ← sys members;
      (if (group : list Z) == [] then mret () else assign "FAIL" "background descendants") ;;
      mret (inr ())
  | None =>
      now ← sys monotonic;
      if deadline * SECOND <=? now - started then set_reason "deadline exceeded" ;; mret (inr ())
      else sys (sleep POLL) ;; mret (inl ())
  end.
Definition execute_rounds (deadline : Z) : positive := Z.to_pos (deadline * SECOND + 2).
Definition cleanup : proc unit :=
  alive ← sys (killpg false);
  (if (alive : bool) then sys (sleep (SECOND / 20)) ;; sys (killpg true) ;; mret () else mret ()) ;;
  sys wait_child ;;
  sys restore_handlers ;;
  interrupt ← sys pending;
  match (interrupt : option Z) with
  | Some n => assign "FAIL" ("signal " ++ str_of_Z n ++ " during cleanup")
  | None => mret ()
  end.
Definition interrupted (c : exn_class) : bool := match c with InterruptedError => true | _ => false end.
Definition execute_body (started deadline : Z) : proc unit :=
  catch (sys set_handlers ;; while (execute_rounds deadline) (execute_round started deadline) ())
    interrupted (λ e, set_reason e.(exn_msg)).
Definition variables (m : proc unit) (status reason : pystr) : M W (pystr * pystr) := λ w,
  match m ((status, reason), w) with
  | (Ok _, (v, w')) => (Ok v, w')
  | (Raise e, (_, w')) => (Raise e, w')
  end.
Definition execute (deadline : Z) : M W (pystr * pystr * Z) :=
  started ← monotonic;
  outcome ← variables (finally (execute_body started deadline) cleanup) "FAIL" "interrupted";
  now ← monotonic;
  mret (outcome, now - started).

(** ** Recording the result *)
Context (which : pystr → bool) (is_file : pystr → bool) (rustc linux_source : option pystr) (repo : pystr).
Context (literal_eval : pystr → option pystr) (printed : M W (list pystr)).
Definition resolved_prerequisites (r : row) : list pystr :=
  r.(interpreter) :: map (λ name : pystr, if name == ("rustc" : pystr) then default name rustc else name) r.(prerequisites).
Definition missing (r : row) : list pystr :=
  filter (λ name, which name = false) (resolved_prerequisites r) ++ filter (λ name, is_file name = false) r.(required_inputs)
  ++ (if r.(exact_source) && (default [] linux_source == []) then ["ROG5_LINUX_SOURCE" : pystr] else []).
Definition command (r : row) : list pystr :=
  [r.(interpreter)] ++ (if r.(python_optimized) then ["-O" : pystr] else []) ++ [repo ++ "/" ++ r.(path)]
  ++ (if existsb (λ item, s_kind item == "unittest") r.(optional_subchecks) && endswith r.(path) ".py" then ["-v" : pystr] else []).
Definition OUTPUT_MARKS : list pystr := SECTION_MARKS ++ ["OK (" : pystr; "FAILED (" : pystr; "Ran " : pystr].
Definition relevant (line : pystr) : bool := starts_any OUTPUT_MARKS line || contains SKIPPED_MARK line.
Definition run_result (r : row) : M W result :=
  match missing r with
  | [] =>
      outcome ← execute r.(deadline_seconds);
      lines ← printed;
      let '(status, reason, _) := outcome in
      mret (classify_output literal_eval r (Result r.(path) status reason [] [] false) (filter (λ line, relevant line = true) lines))
  | absent => mret (Result r.(path) "BLOCKED" ("missing prerequisites: " ++ join ", " absent) [] [] false)
  end.
End run.
Definition exit_code (x : result) : Z := if (x.(r_status) == "PASS") || x.(r_optional_suite_skip) then 0 else 1.

(** ** The verdict over all tests *)
(** The directory of results, by file name. *)
Definition key (path : pystr) : pystr := take 20 (sha256 path).
Definition record (files : gmap pystr result) (x : result) : gmap pystr result := <[key x.(r_path) := x]> files.
Definition indexed (files : gmap pystr result) : dict result :=
  foldl (λ d x, dset x.(r_path) x d) [] (map snd (map_to_list files)).
Definition row_result (files : gmap pystr result) (selected : list pystr) (r : row) : result :=
  match dget r.(path) (indexed files) with
  | Some x => x
  | None => if is_in r.(path) selected then Result r.(path) "BLOCKED" "not reached" [] [] false
            else Result r.(path) "NOT_SELECTED" "outside selected tier" [] [] false
  end.
Definition failed (x : result) : bool :=
  is_in x.(r_status) ["FAIL" : pystr; "BLOCKED" : pystr] || ((x.(r_status) == "SKIPPED") && negb x.(r_optional_suite_skip)).
Definition counts (xs : list result) : list (pystr * Z) :=
  map (λ status, (status, len (filter (λ x, r_status x = status) xs))) STATUSES.
Definition summarize (rows : list row) (files : gmap pystr result) (selected : list pystr) : res (list (pystr * Z) * Z) :=
  rows ← entries rows;
  let xs := map (row_result files selected) rows in
  Ok (counts xs, if existsb failed xs then 1 else 0).

(** [init]: the selection the shell made is the one of the manifest. *)
Definition by_path (rows : list row) (p : pystr) : option row := List.find (λ r, r.(path) == p) rows.
Definition init (rows : list row) (tier : pystr) (selected : list pystr) : res (list pystr) :=
  rows ← entries rows;
  for_each (λ p, refuse_if (match by_path rows p with Some r => negb (is_in tier r.(tiers)) | None => true end)
                   ValueError ("selected test absent from manifest tier: " ++ p)) selected ;;
  let expected := map path (filter (λ r, is_in tier r.(tiers) = true) rows) in
  refuse_if (negb (subset selected expected && subset expected selected)) ValueError "shell selection and declarative manifest disagree" ;;
  Ok selected.

(** ** The verdict over all tests *)
(** What [run] records. *)
Definition recorded (x : result) : Prop :=
  x.(r_status) ∈ ["PASS" : pystr; "FAIL" : pystr; "BLOCKED" : pystr; "SKIPPED" : pystr] ∧
  (x.(r_optional_suite_skip) = true → x.(r_status) = "SKIPPED").
Definition last_result (p : pystr) (xs : list result) : option result := last (filter (λ x, r_path x = p) xs).

Lemma exit_failed x : recorded x → exit_code x = 0 ↔ failed x = false.
Proof.
  unfold recorded, exit_code, failed. intros [Hs Ho]. rewrite !elem_of_cons, elem_of_nil in Hs.
  destruct x as [p s m se sk o]; cbn [r_status r_optional_suite_skip] in *.
  destruct Hs as [->|[->|[->|[->|[]]]]], o; try specialize (Ho eq_refl); try done.
Qed.

Lemma last_filter_snoc (P : result → Prop) `{!∀ x, Decision (P x)} xs x :
  last (filter P (xs ++ [x])) = if decide (P x) then Some x else last (filter P xs).
Proof.
  rewrite filter_app, filter_cons, filter_nil. case_decide; [by rewrite last_snoc | by rewrite app_nil_r].
Qed.
Lemma last_filter_elem (P : result → Prop) `{!∀ x, Decision (P x)} xs x : last (filter P xs) = Some x → P x ∧ x ∈ xs.
Proof. intros Hl%last_Some_elem_of. by apply list_elem_of_filter in Hl. Qed.
Lemma last_filter_none (P : result → Prop) `{!∀ x, Decision (P x)} xs x : last (filter P xs) = None → x ∈ xs → ¬ P x.
Proof.
  intros Hl%last_None Hx Hp. assert (x ∈ filter P xs) as Hf by (by rewrite list_elem_of_filter). rewrite Hl in Hf. by apply elem_of_nil in Hf.
Qed.

Lemma recorded_keys xs k x : foldl record ∅ xs !! k = Some x → k = key x.(r_path).
Proof.
  induction xs as [|y xs IH] using rev_ind; [simpl; by rewrite lookup_empty |]. rewrite foldl_app. simpl. unfold record at 1.
  rewrite lookup_insert_Some. intros [[<- <-]|[_ ?]]; [done | by apply IH].
Qed.
Lemma recorded_lookup xs k : foldl record ∅ xs !! k = last (filter (λ x, key (r_path x) = k) xs).
Proof.
  induction xs as [|x xs IH] using rev_ind; [done |]. rewrite last_filter_snoc, foldl_app. simpl. unfold record at 1.
  case_decide as Hk; [subst; by rewrite lookup_insert_eq | by rewrite lookup_insert_ne].
Qed.
Lemma indexed_list xs p : dget p (foldl (λ d x, dset x.(r_path) x d) [] xs) = last_result p xs.
Proof.
  induction xs as [|x xs IH] using rev_ind; [done |]. unfold last_result in *. rewrite last_filter_snoc, foldl_app. simpl.
  rewrite dget_dset, IH. by case_bool_decide; case_decide.
Qed.
Lemma indexed_lookup (files : gmap pystr result) p x : (∀ k y, files !! k = Some y → k = key y.(r_path)) →
  dget p (indexed files) = Some x ↔ files !! key p = Some x ∧ x.(r_path) = p.
Proof.
  intros Hkeys. unfold indexed. rewrite indexed_list.
  assert (∀ y, y ∈ map snd (map_to_list files) ↔ files !! key y.(r_path) = Some y) as Helem.
  { intros y. rewrite list_elem_of_fmap. split.
    - intros ([k y'] & -> & Hk%elem_of_map_to_list). simpl. by rewrite <- (Hkeys _ _ Hk).
    - intros H. exists (key (r_path y), y). by rewrite elem_of_map_to_list. }
  unfold last_result. split.
  - intros [Hp Hx]%last_filter_elem. apply Helem in Hx. by rewrite <- Hp.
  - intros [Hx <-]. destruct (last _) as [y|] eqn:Hl.
    + apply last_filter_elem in Hl as [Hp Hy]. apply Helem in Hy. rewrite Hp in Hy. congruence.
    + exfalso. by apply (last_filter_none _ _ x Hl); [apply Helem |].
Qed.

(** Distinct paths have distinct file names: SHA-256 cut to 80 bits. *)
Definition collision_free (ps : list pystr) : Prop := ∀ p q, p ∈ ps → q ∈ ps → key p = key q → p = q.
Lemma filter_agree {A} (P Q : A → Prop) `{!∀ x, Decision (P x), !∀ x, Decision (Q x)} (xs : list A) :
  (∀ x, x ∈ xs → P x ↔ Q x) → filter P xs = filter Q xs.
Proof.
  induction xs as [|x xs IH]; intros Hpq; [done |]. rewrite !filter_cons, IH by set_solver.
  assert (x ∈ x :: xs) as Hx by set_solver. apply Hpq in Hx. repeat case_decide; tauto.
Qed.
Lemma indexed_record xs ps p : collision_free ps → p ∈ ps → (∀ x, x ∈ xs → x.(r_path) ∈ ps) →
  dget p (indexed (foldl record ∅ xs)) = last_result p xs.
Proof.
  intros Hfree Hp Hxs. assert (foldl record ∅ xs !! key p = last_result p xs) as Hfile.
  { rewrite recorded_lookup. unfold last_result. f_equal. apply filter_agree. intros x Hx.
    split; [intros H; by apply (Hfree _ _ (Hxs _ Hx) Hp) | by intros ->]. }
  apply option_eq. intros x. rewrite indexed_lookup by apply recorded_keys. rewrite Hfile.
  split; [by intros [? _] | intros Hl; split; [done |]; unfold last_result in Hl; by apply last_filter_elem in Hl as [? _]].
Qed.

Lemma init_selected rows tier selected s p : init rows tier selected = Ok s → p ∈ selected → p ∈ map path rows.
Proof.
  unfold init. intros H. bind_inv H as rs Hrs. bind_inv H as u Hsel. apply for_each_Ok in Hsel. rewrite Forall_forall in Hsel.
  intros Hp. specialize (Hsel _ Hp). cbn beta in Hsel. apply refuse_if_Ok in Hsel.
  destruct (by_path rs p) as [r|] eqn:Hb; [| done]. unfold entries in Hrs. bind_inv Hrs as ps Hps. simplify_eq.
  apply find_some in Hb as [Hin Hpath]. b2p. subst. apply list_elem_of_fmap. exists r. by rewrite list_elem_of_In.
Qed.
Lemma init_entries rows tier selected s : init rows tier selected = Ok s → entries rows = Ok rows.
Proof.
  unfold init. intros H. bind_inv H as rs Hrs. assert (rs = rows) as ->; [| done]. unfold entries in Hrs. by bind_inv Hrs as ps Hps; simplify_eq.
Qed.

(** The verdict is the one of the runs: for a selection accepted by
    [init], and the results that the runs of selected tests recorded, in any
    number and order, [summarize] returns 0 exactly if the last run of every
    selected test returned 0; a selected test that was never reached fails. *)
Theorem verdict_exact rows tier selected s xs : init rows tier selected = Ok s → collision_free (map path rows) →
  (∀ x, x ∈ xs → recorded x ∧ x.(r_path) ∈ selected) →
  ∃ cs code, summarize rows (foldl record ∅ xs) selected = Ok (cs, code) ∧
    (code = 0 ↔ ∀ p, p ∈ selected → ∃ x, last_result p xs = Some x ∧ exit_code x = 0).
Proof.
  intros Hinit Hfree Hxs. unfold summarize. rewrite (init_entries _ _ _ _ Hinit). simpl. eexists _, _. split; [done |].
  assert (∀ x, x ∈ xs → x.(r_path) ∈ map path rows) as Hpaths by (intros x Hx; eapply init_selected; [done | by apply Hxs]).
  trans (∀ r, r ∈ rows → failed (row_result (foldl record ∅ xs) selected r) = false).
  { destruct (existsb _ _) eqn:E.
    - split; [done |]. intros H. apply existsb_elem_of in E as (x & (r & -> & Hr)%list_elem_of_fmap & Hx). rewrite H in Hx; done.
    - split; [| done]. intros _ r Hr. rewrite existsb_false, Forall_forall in E. apply E, list_elem_of_fmap. by exists r. }
  assert (∀ r, r ∈ rows → failed (row_result (foldl record ∅ xs) selected r) = false ↔
    (r.(path) ∈ selected → ∃ x, last_result r.(path) xs = Some x ∧ exit_code x = 0)) as Hrow.
  { intros r Hr. unfold row_result. rewrite (indexed_record _ (map path rows)); [| done | by apply list_elem_of_fmap; exists r | done].
    destruct (last_result _ _) as [x|] eqn:Hl.
    - apply last_filter_elem in Hl as [Hp Hx]. destruct (Hxs _ Hx) as [Hrec Hs]. rewrite <- exit_failed by done. rewrite Hp in Hs. naive_solver.
    - destruct (is_in (path r) selected) eqn:Hin; [apply is_in_elem in Hin; split; [done | intros [? [? _]]%(λ f, f Hin); done] |].
      split; [| done]. intros _ Hs. apply is_in_elem in Hs. congruence. }
  split.
  - intros H p Hp. pose proof (init_selected _ _ _ _ _ Hinit Hp) as (r & -> & Hr)%list_elem_of_fmap. by apply Hrow; [| apply H |].
  - intros H r Hr. apply Hrow; [done |]. intros Hp. by apply H.
Qed.

(** ** What the printed lines say *)
Section lines.
Context (literal_eval : pystr → option pystr) (r : row).
Abbreviation event line := (event_of literal_eval (strip line)).
Definition skips_of (line : pystr) : list skip :=
  match event line with
  | Some (kind, message, test_id) => [Skip kind message test_id 1 (declaration_of r kind message test_id)]
  | None => []
  end.
Definition total (f : pystr → Z) (lines : list pystr) : Z := foldr (λ line n, f (strip line) + n) 0 lines.
(** How many lines name a test that was skipped. *)
Definition named (lines : list pystr) : Z := len (filter (λ line, skipped_groups (strip line) ≠ None) lines).

Lemma tally_skips t lines : (foldl (read_line literal_eval r) t lines).(skips) = t.(skips) ++ lines ≫= skips_of.
Proof.
  revert t. induction lines as [|line lines IH]; intros t; simpl; [by rewrite app_nil_r |].
  rewrite IH. simpl. by rewrite <- app_assoc.
Qed.
Lemma tally_reported t lines : (foldl (read_line literal_eval r) t lines).(reported_skips) = t.(reported_skips) + total summary_skips lines.
Proof. revert t. induction lines as [|line lines IH]; intros t; simpl; [lia |]. rewrite IH. simpl. lia. Qed.
Lemma tally_ran t lines : (foldl (read_line literal_eval r) t lines).(ran_tests) = t.(ran_tests) + total ran_count lines.
Proof. revert t. induction lines as [|line lines IH]; intros t; simpl; [lia |]. rewrite IH. simpl. lia. Qed.
Lemma tally_blocked t lines line : line ∈ lines → startswith (strip line) "BLOCKED " = true →
  strip line ∈ (foldl (read_line literal_eval r) t lines).(sections).
Proof.
  assert (∀ l t text, text ∈ t.(sections) → text ∈ (foldl (read_line literal_eval r) t l).(sections)) as Hkeep.
  { induction l as [|x l IH]; intros t' text Ht; [done |]. apply IH. simpl. set_solver. }
  intros Hin Hb. revert t. induction lines as [|x lines IH]; intros t; [by apply elem_of_nil in Hin |].
  apply elem_of_cons in Hin as [<-|Hin]; [| by apply IH]. cbn [foldl]. apply Hkeep. unfold read_line. cbn [sections].
  assert (starts_any SECTION_MARKS (strip line) = true) as ->; [| set_solver].
  unfold starts_any. apply existsb_elem_of. exists "BLOCKED ". split; [unfold SECTION_MARKS; set_solver | done].
Qed.
Lemma tally_detailed lines : len (filter (λ k, k_kind k = "unittest") (lines ≫= skips_of)) = named lines.
Proof.
  unfold named, len. induction lines as [|line lines IH]; [done |]. rewrite filter_cons. cbn [mbind list_bind]. rewrite filter_app, length_app.
  assert (length (filter (λ k, k_kind k = "unittest") (skips_of line)) = if decide (skipped_groups (strip line) ≠ None) then 1%nat else 0%nat) as ->.
  { unfold skips_of, event_of. destruct (skipped_groups _) as [[[??]?]|] eqn:E; [by rewrite decide_True |].
    rewrite decide_False by (by intros []). by destruct (starts_any _ _). }
  case_decide; simpl; lia.
Qed.

(** Every skip is a declared optional part, and no test was blocked. *)
Definition accountable (lines : list pystr) : Prop :=
  (∀ line, line ∈ lines → startswith (strip line) "BLOCKED " = false) ∧
  (∀ line kind message test_id, line ∈ lines → event line = Some (kind, message, test_id) →
     ∃ item, declaration_of r kind message test_id = Some item ∧ (r.(mandatory) = true → item.(s_scope) ≠ "whole_test")) ∧
  total summary_skips lines ≤ named lines ∧
  (r.(mandatory) = true → 0 < total ran_count lines → named lines < total ran_count lines).

Lemma classify_recorded x lines : x.(r_status) ∈ ["PASS" : pystr; "FAIL" : pystr] → recorded (classify_output literal_eval r x lines).
Proof.
  intros Hx. assert (x.(r_status) ∈ ["PASS" : pystr; "FAIL" : pystr; "BLOCKED" : pystr; "SKIPPED" : pystr]) as Hx' by set_solver.
  unfold classify_output, recorded. repeat case_match; cbn; (split; [try done; set_solver | done]).
Qed.
Lemma classify_exit x lines : exit_code (classify_output literal_eval r x lines) = 0 →
  let t := foldl (read_line literal_eval r) (Tally [] [] 0 0) lines in
  x.(r_status) = "PASS" ∧ existsb (λ line, startswith line "BLOCKED ") t.(sections) = false ∧
  existsb (λ k, negb (declared_optional k)) (t.(skips) ++ unidentified t) = false ∧
  (r.(mandatory) = true → existsb is_whole (t.(skips) ++ unidentified t) = false ∧
     (0 <? t.(ran_tests)) && (t.(ran_tests) <=? Z.max t.(reported_skips) (detailed t)) = false).
Proof.
  intros H t. unfold classify_output in H. fold t in H. cbn [r_status] in H.
  destruct (bool_decide_reflect (x.(r_status) = "PASS")) as [Hp|Hp]; cbn [negb] in H.
  2: { unfold exit_code in H. cbn in H. by rewrite bool_decide_false in H. }
  destruct (existsb _ (sections t)); [done |]. split_and!; [done | done | |].
  - destruct (existsb (λ k, negb (declared_optional k)) _); [| done]. cbn [orb] in H. unfold exit_code in H. cbn in H.
    by destruct (mandatory r).
  - intros Hm. destruct (existsb (λ k, negb (declared_optional k)) _), (existsb is_whole _), (_ && _) eqn:E; try done;
      revert H; unfold exit_code; cbn; by rewrite Hm.
Qed.
Lemma classify_sound x lines : exit_code (classify_output literal_eval r x lines) = 0 → x.(r_status) = "PASS" ∧ accountable lines.
Proof.
  intros (Hp & Hb & Hu & Hm)%classify_exit. split; [done |]. set (t := foldl _ _ _) in *.
  assert (t.(skips) = lines ≫= skips_of) as Hskips by apply tally_skips.
  assert (t.(reported_skips) = total summary_skips lines) as Hrep by (unfold t; by rewrite tally_reported).
  assert (t.(ran_tests) = total ran_count lines) as Hran by (unfold t; by rewrite tally_ran).
  assert (detailed t = named lines) as Hdet by (unfold detailed; rewrite Hskips; apply tally_detailed).
  rewrite existsb_false, Forall_forall in Hb. rewrite existsb_false, Forall_forall in Hu.
  assert (∀ line kind message test_id, line ∈ lines → event line = Some (kind, message, test_id) →
    Skip kind message test_id 1 (declaration_of r kind message test_id) ∈ t.(skips) ++ unidentified t) as Hin.
  { intros line kind message test_id Hl He. apply elem_of_app. left. rewrite Hskips. apply list_elem_of_bind.
    exists line. split; [| done]. unfold skips_of. rewrite He. by apply list_elem_of_singleton. }
  assert (total summary_skips lines ≤ named lines) as Hle.
  { rewrite <- Hrep, <- Hdet. destruct (detailed t <? reported_skips t) eqn:E; [| by b2p].
    unfold unidentified in Hu. rewrite E in Hu. specialize (Hu _ (proj2 (elem_of_app _ _ _) (or_intror (list_elem_of_here _ _)))). done. }
  split_and!; [| | done |].
  - intros line Hl. destruct (startswith _ _) eqn:E; [| done]. rewrite <- E. by apply Hb, tally_blocked.
  - intros line kind message test_id Hl He. specialize (Hin _ _ _ _ Hl He). pose proof (Hu _ Hin) as Hd. cbn in Hd.
    destruct (declaration_of r kind message test_id) as [item|] eqn:Ed; [| done]. exists item. split; [done |].
    intros Hmand. destruct (Hm Hmand) as [Hw _]. rewrite existsb_false, Forall_forall in Hw. specialize (Hw _ Hin). cbn in Hw. by b2p.
  - intros Hmand Hpos. destruct (Hm Hmand) as [_ Ha]. rewrite Hran, Hrep, Hdet in Ha. b2p. lia.
Qed.
End lines.

(** ** What a run relies on
    [now] is the clock, [succeeded] the child exited with status 0, [alone] no
    other process of its group is left, [reaped] the child was waited for.
    Any call may fail or be interrupted. *)
Section laws.
Context {W : Type}.
Context (processes : M W (list pystr)) (stat_text : pystr → M W pystr).
Context (waitid : M W (option (bool * Z))) (monotonic : M W Z) (sleep : Z → M W unit).
Context (set_handlers restore_handlers : M W unit) (killpg : bool → M W bool) (wait_child : M W unit) (pending : M W (option Z)).
Context (child : Z).
Context (now : W → Z) (succeeded alone reaped : W → Prop).

Definition kept (w w' : W) : Prop :=
  now w ≤ now w' ∧ (succeeded w → succeeded w') ∧ (alone w → alone w') ∧ (reaped w → reaped w').
Definition failure (e : exn) : Prop :=
  e.(exn_cls) ≠ OutOfFuel ∧ (interrupted e.(exn_cls) = true → startswith e.(exn_msg) "signal " = true).
Definition lawful {B} (m : M W B) (Q : B → W → W → Prop) : Prop :=
  ∀ w, wp m (λ r w', kept w w' ∧ match r with Ok b => Q b w w' | Raise e => failure e end) w.

Record process : Prop := {
  law_waitid : lawful waitid (λ r _ w', r = Some (true, 0) → succeeded w');
  law_members : lawful (members processes stat_text child) (λ group _ w', group = [] → alone w');
  law_clock : lawful monotonic (λ t w w', now w ≤ t ≤ now w');
  law_sleep : ∀ d, lawful (sleep d) (λ _ w w', now w + d ≤ now w');
  law_handlers : lawful set_handlers (λ _ _ _, True);
  law_restore : lawful restore_handlers (λ _ _ _, True);
  law_killpg : ∀ kill, lawful (killpg kill) (λ _ _ _, True);
  law_wait : lawful wait_child (λ _ _ w', reaped w');
  law_pending : lawful pending (λ _ _ _, True)
}.
Context (Laws : process).
Context (which : pystr → bool) (is_file : pystr → bool) (rustc linux_source : option pystr).
Context (literal_eval : pystr → option pystr) (printed : M W (list pystr)) (output : W → list pystr).
Context (Hprinted : lawful printed (λ lines _ w', lines = output w')).
Abbreviation round := (execute_round processes stat_text waitid monotonic sleep child).
Abbreviation variables_state := (pystr * pystr * W)%type.

(** What the variables say before and after the child is decided. *)
Definition undecided (v : pystr * pystr) : Prop := v.1 = "FAIL".
Definition verdict (v : pystr * pystr) (w : W) : Prop :=
  undecided v ∨ v.1 = "PASS" ∧ succeeded w ∧ (startswith v.2 "signal " = true ∨ alone w).
(** As [verdict], the group unknown. *)
Definition exited_well (v : pystr * pystr) (w : W) : Prop := undecided v ∨ v.1 = "PASS" ∧ succeeded w.

Lemma kept_refl w : kept w w.
Proof. unfold kept. split; [lia | done]. Qed.
Lemma kept_trans w1 w2 w3 : kept w1 w2 → kept w2 w3 → kept w1 w3.
Proof. unfold kept. intros (? & ? & ? & ?) (? & ? & ? & ?). split; [lia | auto]. Qed.
Lemma verdict_kept v w w' : kept w w' → verdict v w → verdict v w'.
Proof. unfold kept, verdict. intros (_ & Hs & Ha & _) [?|(? & ? & [?|?])]; auto 10. Qed.
Lemma exited_well_kept v w w' : kept w w' → exited_well v w → exited_well v w'.
Proof. unfold kept, exited_well. intros (_ & Hs & _) [?|[? ?]]; auto. Qed.
Lemma wp_sys_proc {B} (m : M W B) (Q : res B → variables_state → Prop) v w :
  wp m (λ r w', Q r (v, w')) w → wp (sys m) Q (v, w).
Proof. unfold wp, sys. by destruct (m w). Qed.
Lemma wp_sys_law {B} (m : M W B) (P : B → W → W → Prop) (Q : res B → variables_state → Prop) v w : lawful m P →
  (∀ b w', kept w w' → P b w w' → Q (Ok b) (v, w')) → (∀ e w', kept w w' → failure e → Q (Raise e) (v, w')) →
  wp (sys m) Q (v, w).
Proof.
  intros Hm Hok Hfail. apply wp_sys_proc. eapply wp_mono; [apply Hm |]. intros [b|e] w' [? ?]; auto.
Qed.

(** One round: it decides, or the clock went on. *)
Definition body_post (w : W) (r : res unit) (vw : variables_state) : Prop :=
  kept w vw.2 ∧ match r with
  | Ok _ => verdict vw.1 vw.2
  | Raise e => failure e ∧ exited_well vw.1 vw.2
  end.
Lemma execute_round_wp started deadline v w : undecided v →
  wp (round started deadline ()) (λ r vw, match r with
    | Ok (inl _) => undecided vw.1 ∧ kept w vw.2 ∧ now w < started + deadline * SECOND ∧ now w + POLL ≤ now vw.2
    | Ok (inr _) => body_post w (Ok ()) vw
    | Raise e => body_post w (Raise e) vw
    end) (v, w).
Proof using Laws.
  intros Hv. unfold execute_round. apply wp_bind.
  apply (wp_sys_law _ _ _ _ _ (law_waitid Laws)); [| by intros e w' Hk He; split; [done | split; [done | by left]]].
  intros [[exited code]|] w1 Hk1 H1.
  - apply wp_bind. unfold wp at 1, assign. cbn [fst snd]. apply wp_bind.
    assert (exited_well ((if exited && (code =? 0) then "PASS" else "FAIL") : pystr, "exit " ++ str_of_Z code) w1) as Hs.
    { destruct exited; [| by left]. destruct (code =? 0) eqn:E; [| by left]. right. split; [done |]. apply H1. apply Z.eqb_eq in E. by subst. }
    apply (wp_sys_law _ _ _ _ _ (law_members Laws)).
    2: { intros e w2 Hk2 He. split; [by eapply kept_trans |]. split; [done |]. by apply (exited_well_kept _ _ _ Hk2). }
    intros group w2 Hk2 Hg. apply wp_bind. case_bool_decide as Hgroup.
    + apply wp_mret, wp_mret. split; [by eapply kept_trans |]. 
      destruct (exited_well_kept _ _ _ Hk2 Hs) as [?|[? ?]]; [by left | right; split_and!; [done | done | right; by apply Hg]].
    + unfold wp at 1, assign. apply wp_mret. split; [by eapply kept_trans | by left].
  - apply wp_bind. apply (wp_sys_law _ _ _ _ _ (law_clock Laws)).
    2: { intros e w2 Hk2 He. split; [by eapply kept_trans |]. split; [done | by left]. }
    intros t w2 Hk2 Ht. destruct (deadline * SECOND <=? t - started) eqn:Ed.
    + apply wp_bind. unfold wp at 1, set_reason. apply wp_mret. split; [by eapply kept_trans | by left].
    + b2p. apply wp_bind. apply (wp_sys_law _ _ _ _ _ (law_sleep Laws POLL)).
      2: { intros e w3 Hk3 He. split; [eapply kept_trans; [| done]; by eapply kept_trans |]. split; [done | by left]. }
      intros [] w3 Hk3 Hn. apply wp_mret. pose proof (proj1 Hk1). pose proof (proj1 Hk2). cbn [fst snd]. split_and!; [done | eapply kept_trans; [| done]; by eapply kept_trans | lia | lia].
Qed.

Lemma execute_body_wp started deadline v w : 0 < deadline → undecided v → started ≤ now w →
  wp (execute_body processes stat_text waitid monotonic sleep set_handlers child started deadline)
    (λ r vw, kept w vw.2 ∧ match r with Ok _ => verdict vw.1 vw.2 | Raise e => failure e end) (v, w).
Proof using Laws.
  intros Hd Hv Hstart. unfold execute_body. apply wp_catch. apply wp_bind.
  assert (∀ e (v' : pystr * pystr) w', kept w w' → failure e → exited_well v' w' →
    if interrupted e.(exn_cls)
    then wp (set_reason e.(exn_msg)) (λ r vw, kept w vw.2 ∧ match r with Ok _ => verdict vw.1 vw.2 | Raise e => failure e end) (v', w')
    else kept w w' ∧ failure e) as Hhandler.
  { intros e v' w' Hk He Hp. destruct (interrupted (exn_cls e)) eqn:Ei; [| done]. unfold wp, set_reason. cbn [fst snd].
    split; [done |]. destruct Hp as [?|[? ?]]; [by left | right; split_and!; [done | done | left; by apply He]]. }
  apply (wp_sys_law _ _ _ _ _ (law_handlers Laws)); [| intros e w' Hk He; apply Hhandler; [done | done | by left]].
  intros [] w1 Hk1 _.
  apply (wp_while _ (λ _ vw, undecided vw.1 ∧ kept w vw.2) (λ _ vw, Z.max 0 (started + deadline * SECOND + 1 - now vw.2))); [| done |].
  - intros [] [v' w'] [Hv' Hk']. cbn [fst snd] in *. split; [lia |]. eapply wp_mono; [by apply execute_round_wp |].
    intros [[[]|[]]|e] [v2 w2]; cbn [fst snd].
    + intros (? & Hk2 & Hlt & Hn). split; [split; [done | by eapply kept_trans] |]. unfold POLL in Hn. lia.
    + intros [Hk2 Hver]. split; [by eapply kept_trans | done].
    + intros [Hk2 [He Hp]]. cbn [fst snd] in *. pose proof (Hhandler e v2 w2 ltac:(by eapply kept_trans) He Hp) as Hh.
      by destruct (interrupted (exn_cls e)).
  - unfold execute_rounds. cbn [snd]. pose proof (proj1 Hk1). assert (0 < deadline * SECOND) by (unfold SECOND; lia).
    rewrite Z2Pos.id by lia. lia.
Qed.

Lemma cleanup_wp v w : wp (cleanup sleep restore_handlers killpg wait_child pending)
  (λ r vw, kept w vw.2 ∧ match r with Ok _ => reaped vw.2 ∧ (vw.1 = v ∨ undecided vw.1) | Raise e => failure e end) (v, w).
Proof using Laws.
  unfold cleanup. apply wp_bind. apply (wp_sys_law _ _ _ _ _ (law_killpg Laws false)); [| done]. intros alive w1 Hk1 _.
  apply wp_bind.
  assert (∀ w', kept w w' → wp (sys wait_child ;; sys restore_handlers ;; interrupt ← sys pending;
      match interrupt with Some n => assign "FAIL" ("signal " ++ str_of_Z n ++ " during cleanup") | None => mret () end)
    (λ r vw, kept w vw.2 ∧ match r with Ok _ => reaped vw.2 ∧ (vw.1 = v ∨ undecided vw.1) | Raise e => failure e end) (v, w')) as Hrest.
  { intros w' Hk. apply wp_bind. apply (wp_sys_law _ _ _ _ _ (law_wait Laws)); [| intros e w2 Hk2 He; split; [by eapply kept_trans | done]].
    intros [] w2 Hk2 Hr. apply wp_bind.
    apply (wp_sys_law _ _ _ _ _ (law_restore Laws)); [| intros e w3 Hk3 He; split; [eapply kept_trans; [| done]; by eapply kept_trans | done]].
    intros [] w3 Hk3 _. apply wp_bind. assert (kept w w3) as Hk3' by (eapply kept_trans; [| done]; by eapply kept_trans).
    apply (wp_sys_law _ _ _ _ _ (law_pending Laws)); [| intros e w4 Hk4 He; split; [by eapply kept_trans | done]].
    intros [n|] w4 Hk4 _; unfold wp; cbn [fst snd]; (split; [by eapply kept_trans |]); (split; [by apply Hk4, Hk3 |]); [by right | by left]. }
  destruct alive.
  - apply wp_bind. apply (wp_sys_law _ _ _ _ _ (law_sleep Laws _)); [| intros e w2 Hk2 He; split; [by eapply kept_trans | done]].
    intros [] w2 Hk2 _. apply wp_bind.
    apply (wp_sys_law _ _ _ _ _ (law_killpg Laws true)); [| intros e w3 Hk3 He; split; [eapply kept_trans; [| done]; by eapply kept_trans | done]].
    intros b w3 Hk3 _. apply wp_mret, Hrest. eapply kept_trans; [| done]. by eapply kept_trans.
  - by apply wp_mret, Hrest.
Qed.

Lemma executed_wp started deadline w : 0 < deadline → started ≤ now w →
  wp (finally (execute_body processes stat_text waitid monotonic sleep set_handlers child started deadline)
        (cleanup sleep restore_handlers killpg wait_child pending))
    (λ r vw, match r with Ok _ => kept w vw.2 ∧ verdict vw.1 vw.2 ∧ reaped vw.2 | Raise e => failure e end)
    (("FAIL" : pystr, "interrupted" : pystr), w).
Proof using Laws.
  intros Hd Hs. apply wp_finally. eapply wp_mono; [by apply execute_body_wp |].
  intros r [v w2] [Hk Hr]. eapply wp_mono; [apply cleanup_wp |]. intros c [v3 w3] [Hk3 Hc]. cbn [fst snd] in *.
  destruct c as [[]|e]; [| done]. destruct r as [[]|e]; [| by destruct Hr]. destruct Hc as [Hreaped Hv].
  split_and!; [by eapply kept_trans | | done]. destruct Hv as [->|Hv]; [by apply (verdict_kept _ _ _ Hk3) | by left].
Qed.

Lemma execute_wp deadline w : 0 < deadline →
  wp (execute processes stat_text waitid monotonic sleep set_handlers restore_handlers killpg wait_child pending child deadline)
    (λ r w', match r with
      | Ok (status, reason, duration) => reaped w' ∧ 0 ≤ duration ∧
          (status = "FAIL" ∨ status = "PASS" ∧ succeeded w' ∧ (startswith reason "signal " = true ∨ alone w'))
      | Raise e => e.(exn_cls) ≠ OutOfFuel
      end) w.
Proof using Laws.
  intros Hd. unfold execute. apply wp_bind. eapply wp_mono; [apply (law_clock Laws) |].
  intros [started|e] w1 [Hk1 Ht]; [| by destruct Ht]. apply wp_bind. unfold wp at 1, variables.
  pose proof (executed_wp started deadline w1 Hd ltac:(lia)) as Hrun. unfold wp in Hrun.
  destruct (finally _ _ _) as [[[]|e] [[status reason] w2]]; cbn [fst snd] in *; [| by destruct Hrun].
  destruct Hrun as (Hk & Hver & Hreaped). apply wp_bind. eapply wp_mono; [apply (law_clock Laws) |].
  intros [t|e] w3 [Hk3 Ht3]; [| by destruct Ht3]. apply wp_mret.
  pose proof (proj1 Hk). split_and!; [by apply Hk3 | lia |]. exact (verdict_kept (status, reason) w2 w3 Hk3 Hver).
Qed.
(** Running a test ends, by its deadline and the duration of its calls,
    wherever calls fail or signals strike.  When it returns, the child was
    waited for; PASS means that the child exited with status 0, and that no
    other process of its group was left unless a signal cut the search
    short. *)
Theorem execute_ends deadline w : 0 < deadline →
  wp (execute processes stat_text waitid monotonic sleep set_handlers restore_handlers killpg wait_child pending child deadline)
    (λ r w', match r with
      | Ok (status, reason, duration) => reaped w' ∧ 0 ≤ duration ∧
          (status = "FAIL" ∨ status = "PASS" ∧ succeeded w' ∧ (startswith reason "signal " = true ∨ alone w'))
      | Raise e => e.(exn_cls) ≠ OutOfFuel
      end) w.
Proof using Laws. apply execute_wp. Qed.

(** C35. Running a test and reading what it printed ends, with a result that
    names the test.  It counts as passed only if nothing it needs is missing,
    its process exited with status 0 and was waited for, no line says BLOCKED,
    every skipped part is one declared for exactly that message and test (and
    for a mandatory test not the whole of it), unittest names every skip that
    it counts, and a mandatory test did not skip all that it ran. *)
Theorem run_sound r w : 0 < r.(deadline_seconds) →
  wp (run_result processes stat_text waitid monotonic sleep set_handlers restore_handlers killpg wait_child pending child
        which is_file rustc linux_source literal_eval printed r)
    (λ x w', match x with
      | Ok x => recorded x ∧ x.(r_path) = r.(path) ∧
          (exit_code x = 0 → missing which is_file rustc linux_source r = [] ∧ reaped w' ∧ succeeded w' ∧
             accountable literal_eval r (filter (λ line, relevant line = true) (output w')))
      | Raise e => e.(exn_cls) ≠ OutOfFuel
      end) w.
Proof using Laws Hprinted.
  intros Hd. unfold run_result. destruct (missing _ _ _ _ _) as [|m ms] eqn:Em; [| by apply wp_mret; split_and!; [split; [set_solver |] | |]].
  apply wp_bind. eapply wp_mono; [by apply execute_wp |]. intros [[[status reason] duration]|e] w1; [| done].
  intros (Hreaped & _ & Hs). apply wp_bind. eapply wp_mono; [apply Hprinted |]. intros [lines|e] w2 [Hk Hl]; [| by destruct Hl].
  apply wp_mret. subst lines. split_and!.
  - apply classify_recorded. cbn [r_status]. destruct Hs as [->|[-> _]]; set_solver.
  - unfold classify_output. by repeat case_match.
  - intros [Hp Hacc]%classify_sound. cbn [r_status] in Hp. destruct Hs as [Hs|(_ & Hsucc & _)]; [by rewrite Hs in Hp |].
    split_and!; [done | by apply Hk | by apply Hk | done].
Qed.
End laws.

Section example.
(** A clock and whether the child was waited for; the child exits at time 60. *)
Let WE : Type := (Z * bool)%type.
Definition ex_waitid : M WE (option (bool * Z)) := λ w, (Ok (if 60000000 <=? w.1 then Some (true, 0) else None), w).
Definition ex_clock : M WE Z := λ w, (Ok w.1, w).
Definition ex_sleep (d : Z) : M WE unit := λ w, (Ok (), (w.1 + Z.max 0 d, w.2)).
Definition ex_wait : M WE unit := λ w, (Ok (), (w.1, true)).
Definition ex_killpg (kill : bool) : M WE bool := mret false.
Lemma ex_process : process (mret []) (λ _, mret []) ex_waitid ex_clock ex_sleep (mret ()) (mret ()) ex_killpg ex_wait (mret None) 7
  fst (λ w, 60000000 <= w.1) (λ _, True) (λ w, w.2 = true).
Proof.
  split; unfold lawful; intros; unfold wp, kept, ex_waitid, ex_clock, ex_sleep, ex_wait, ex_killpg; cbn [fst snd]; split_and!;
    try done; try lia. by case_match; b2p.
Qed.
Lemma execute_ends_witness : 0 < 1 ∧
  wp (execute (mret []) (λ _, mret []) ex_waitid ex_clock ex_sleep (mret ()) (mret ()) ex_killpg ex_wait (mret None) 7 1)
    (λ r w', match r with
      | Ok (status, reason, duration) => w'.2 = true ∧ 0 ≤ duration ∧
          (status = "FAIL" ∨ status = "PASS" ∧ 60000000 <= w'.1 ∧ (startswith reason "signal " = true ∨ True))
      | Raise e => e.(exn_cls) ≠ OutOfFuel
      end) ((0, false) : WE).
Proof. split; [lia |]. apply (execute_ends _ _ _ _ _ _ _ _ _ _ _ _ _ _ _ ex_process 1). lia. Defined.

Definition ex_row : row :=
  Row REQUIRED "scripts/host/test-a.py" "python3" ["ci" : pystr] true 1 ["python3" : pystr] "isolated" "" false false [] [].
Definition ex_line : pystr := "Ran 3 tests in 0.1s".
Lemma run_sound_witness : 0 < ex_row.(deadline_seconds) ∧
  wp (run_result (mret []) (λ _, mret []) ex_waitid ex_clock ex_sleep (mret ()) (mret ()) ex_killpg ex_wait (mret None) 7
        (λ _, true) (λ _, true) None None (λ _, None) (mret [ex_line]) ex_row)
    (λ x w', match x with
      | Ok x => recorded x ∧ x.(r_path) = ex_row.(path) ∧
          (exit_code x = 0 → missing (λ _, true) (λ _, true) None None ex_row = [] ∧ w'.2 = true ∧ 60000000 <= w'.1 ∧
             accountable (λ _, None) ex_row (filter (λ line, relevant line = true) [ex_line]))
      | Raise e => e.(exn_cls) ≠ OutOfFuel
      end) ((0, false) : WE).
Proof.
  split; [done |]. apply (run_sound _ _ _ _ _ _ _ _ _ _ _ _ _ _ _ ex_process (λ _, true) (λ _, true) None None (λ _, None) _ (λ _, [ex_line])); [| done].
  intros w. unfold wp, kept. cbn. split_and!; [lia | done | done | done | done].
Defined.
End example.

Definition ex_result : result := Result "scripts/host/test-a.py" "PASS" "exit 0" [] [] false.
Lemma verdict_exact_witness : init [ex_row] "ci" ["scripts/host/test-a.py" : pystr] = Ok ["scripts/host/test-a.py" : pystr] ∧
  ∃ cs code, summarize [ex_row] (foldl record ∅ [ex_result]) ["scripts/host/test-a.py" : pystr] = Ok (cs, code) ∧
    (code = 0 ↔ ∀ p, p ∈ ["scripts/host/test-a.py" : pystr] → ∃ x, last_result p [ex_result] = Some x ∧ exit_code x = 0).
Proof.
  split; [reflexivity |]. apply (verdict_exact _ "ci" _ ["scripts/host/test-a.py" : pystr]); [reflexivity | |].
  - intros p q. cbn [map]. by intros ->%list_elem_of_singleton ->%list_elem_of_singleton _.
  - intros x ->%list_elem_of_singleton. split; [split; [cbn; set_solver | done] | cbn; set_solver].
Defined.
